(* ===== verification/_CoqProject ===== *)
-Q . S2P
Prelude.v
GoNum.v
GoFloat.v
Db.v
Schema.v
BurnRate.v
Retry.v
Services.v
Placements.v
Intervals.v
Incidents.v
GoStrings.v
GoTime.v
GoNet.v
Checks.v
World.v
Analyzer.v
Poller.v
Manual.v
History.v
Identity.v
Secrets.v
Domains.v
StatusPages.v
SiteInv.v
SiteSafety.v
Publish.v
Auth.v
Accounts.v
TwoFactor.v
LLMProviders.v
Providers.v
Tenants.v
IdentitySteps.v
IdentityInv.v
Api.v
Inert.v
PublicPage.v
Handler.v
IncidentApi.v
SiteApi.v
ServicesApi.v
AuthApi.v
AdminsApi.v
SignupApi.v
AccountApi.v
AccountDemo.v
AccountSafety.v
AccountLogin.v
AccountMembers.v
RateLimit.v
Leadership.v
Leaders.v
MailData.v
Connectors.v
Mail.v
MailDelivery.v
Notify.v
Digest.v
DigestTime.v
DigestRows.v
DigestRun.v
Rdap.v
DomainHealth.v
DomainHealthRun.v
Datadog.v
Integrations.v
Prompts.v
LlmService.v
LlmRun.v
ProvidersApi.v
ProvidersSafety.v
SettingsApi.v
SettingsSafety.v
OverviewApi.v
CertStore.v
CertSpec.v
CertLocks.v
Configuration.v
Serve.v
