(* ===== verification/Prelude.v ===== *)
(** * Vane: a verified model of the status-page backend

    Vane polls services (through Datadog SLOs or checks of its own), records
    their status as intervals, opens and proposes to close incidents, mails
    subscribers of a tenant, and serves an admin API and public status pages.
    It is one Go binary on PostgreSQL; tenants are separated by row-level
    security.  The library models the code under src/internal that decides what
    is stored, shown, mailed and allowed, and proves what it promises.

    ** The parts and how they interact

    Every repository call runs SQL on a connection: a pooled one, or the tenant
    transaction its context carries.  [Db.session] is that connection (tables,
    app.tenant_id, transaction, whether it is aborted) and a repository method is
    a function in the state and error monad [M] over a session, one [Db.stmt] per
    SQL statement.  Above it:

    - Prelude.v: results, the monad and its notation (scope go_scope), shared
      lemmas, the hint database [vane];
    - GoNum.v, GoFloat.v, GoStrings.v, GoTime.v, GoNet.v: int64, Duration and Time;
      float64, on the kernel's binary64 floats; UTF-8 strings; calendar dates in a
      zone; IP addresses and blocks;
    - Db.v (db/pool.go): sessions, statements, transactions, BeginTenantTx,
      row-level security; [preserves R m], the reasoning principle "whatever
      happens, [m] relates the tables before and after by [R]";
    - Schema.v (db/migrations): the tenant-scoped tables, [isolated] (another
      tenant's rows are the same) and [untouched];
    - BurnRate.v, Retry.v (poller/burn_rate.go, retry.go): the classifier and the
      fetch with backoff;
    - Services.v, Integrations.v (db/service_repository.go,
      integration_repository.go);
    - Checks.v (checks/): target formats, the safety check, the dialer with its
      hook, and both kinds of check, over a wire that may rebind names;
    - Placements.v, Domains.v, StatusPages.v (db/status_page_repository.go,
      domain_repository.go): the validation of a page's placements, the two
      repositories under their policies; SiteInv.v is their invariant [site_wf],
      SiteSafety.v their isolation and where it ends;
    - Publish.v (tls/manager.go): the issuance policy and the events of the
      certificate manager, run together with administration;
    - Intervals.v (db/status_interval_repository.go, retention/pruner.go), with
      concurrent writers as a step relation [wstep];
    - Incidents.v (db/incident_repository.go), the whole repository;
    - World.v, Analyzer.v, Poller.v (poller/analyzer.go, poller.go): the state of
      the background jobs, transitions and their enrichment goroutines, the poll
      cycle and the leader's loop [Run];
    - Manual.v (poller/manual_scheduler.go): the polling-mode checks;
    - History.v (history/hourly.go, uptime.go, api/time_range.go): the buckets and
      the uptime figure of the public page;
    - Auth.v (auth/session.go, two_factor.go, db/session_repository.go): tokens,
      device sessions, roles;
    - Api.v (api/middleware.go, tenant_context_middleware.go, pagination.go): the
      request pipeline RequireAuth, TenantContext, RequireRole over one [database];
    - Handler.v: the monad handlers are written in, own transactions inside a
      request's, and the reasoning principles along handler code;
    - IncidentApi.v (api/incidents_handler.go, cli/routes.go): the incident routes
      as mounted, [serve];
    - SiteApi.v (api/status_pages_handler.go, domains_handler.go, the two
      verifiers): the routes of status pages and domains, [serve_site];
    - PublicPage.v (router/host_router.go, api/public_status_handler.go and the
      preview): a visitor's request;
    - Identity.v, Secrets.v, Accounts.v, TwoFactor.v, Tenants.v: the account tables,
      passwords and secrets around their libraries, and the repositories of users,
      memberships, invites, tokens, second factors, tenants and the audit log;
      IdentitySteps.v says what they may do to the tables, one write at a time
      ([cstep]), IdentityInv.v that each step keeps [identity_wf];
    - AuthApi.v, AdminsApi.v, SignupApi.v, AccountApi.v (api/auth_handler.go,
      sessions_handler.go, admins.go, tenant_handler.go, signup_handler.go,
      bootstrap_handler.go, password_reset_handler.go): the account handlers and
      their routes, [account_run]; AccountDemo.v are examples, AccountSafety.v,
      AccountLogin.v and AccountMembers.v the theorems;
    - ServicesApi.v (api/services_handler.go): the service routes;
    - RateLimit.v (ratelimit/): the two bucket stores behind one interface, the
      limiter, and its breaker under interleaving ([rstep]);
    - Leadership.v, Leaders.v (pglock/, cli/poller_manager.go): the lock's handle,
      the manager with its mutex, the leader loop and the calls of other goroutines
      as step relations of one replica ([own_step]) and of all of them around one
      server ([sstep]);
    - LLMProviders.v, Providers.v (db/llm_provider_repository.go,
      email_provider_repository.go): the provider tables, the two repositories and
      what both keep; Inert.v: code that only reads;
    - MailData.v, Connectors.v, Mail.v, MailDelivery.v (email/, connectors/sendgrid,
      resend, notificationservice, cli/email_sender.go): what a mail says, the three
      HTTP clients, the provider service, and the two [Sender]s, one per deployment
      mode, behind the laws [SenderLaws] that their clients are proved against;
    - Notify.v (notify/service.go): who is told of what;
    - Digest.v, DigestTime.v, DigestRows.v, DigestRun.v (notify/digest.go,
      cli/digest_scheduler.go): the fire in the tenant's zone, the digest's rows,
      the cycle;
    - Rdap.v, DomainHealth.v, DomainHealthRun.v (rdap/client.go,
      cli/domain_health_scheduler.go): the registry's answer, expiration and
      nameserver alerts, the cycle over tenants and domains;
    - Datadog.v (connectors/datadog/client.go): the calls behind [World]'s fetches;
    - Prompts.v, LlmService.v, LlmRun.v (llm/, connectors/openai): the prompts, the
      model's service and what its rows keep;
    - ProvidersApi.v, ProvidersSafety.v (api/integrations_handler.go,
      email_providers_handler.go, llm_providers_handler.go, poller_status.go): the
      integration routes, over the services above, [serve_provider];
    - SettingsApi.v, SettingsSafety.v (api/company_settings_handler.go,
      logo_file_handler.go, instance_config_handler.go, audit_log_handler.go): the
      tenant's profile, its logo and what an upload is taken for, recent activity;
    - OverviewApi.v (api/overview_handler.go): the summary and its
      chart;
    - CertStore.v, CertSpec.v, CertLocks.v (tls/postgres_storage.go,
      encrypted_storage.go, key_backfill.go, pglock/): certmagic's storage as the
      class [Storage], the contract [storage_ok] that the table fulfils and the
      encrypting decorator fulfils over any storage that does, the backfill, and the
      named locks of all replicas around one server;
    - Configuration.v (net/url's Parse; config/config.go): what is read from
      the environment and refused, and where the links built on it lead;
    - Serve.v (cli/serve.go, api/security_headers.go, web/embed.go): the
      handlers of the two listeners over any routes, the embedded application; the
      life of the process as a step relation, from its configuration to shutdown.

    A definition has the name of the Go function it translates, or of the part of
    it; a method of several receivers is told apart by its file ([Services.Create],
    [Incidents.Create]).

    ** What is a parameter

    Code that is not under src/ is never made up.  [Db.Driver] is the PostgreSQL
    server as a client sees it: which of its interactions fail, its UUIDs, clock
    and collation.  [World.Outside] is Datadog, the LLM, the checks' network, the
    wall clock and timers, each the answer to the n-th question.  [Auth.Jwt] is
    the signing library, [Secrets.Machine] the clock, the random source, hashing,
    AES-GCM, TOTP and the mail sender of a handler, [AuthApi.Config] the
    configuration, [SiteApi.Network] the resolver and the TLS dial,
    [History.BuildBuckets]'s midnight and [GoTime.Zones] the time-zone data,
    [Checks.Wire] the network of a check, [Leadership.LockServer] advisory locks and
    sessions, [Connectors.Http], [LlmHttp] and [DatadogHttp] the HTTP exchanges with
    json decoding, [Mail.MailLibrary] address parsing and the HTML templates,
    [Rdap.Registry] RDAP servers and name servers, [Prompts.Quote] the table of
    printable characters behind %q.
    Every theorem is about all of them, so "whatever fails" is meant literally;
    hypotheses on them appear in a statement only where it says so (a server that
    answers, the signing library's round trip) and witnesses instantiate them.

    ** What the theorems show

    - Isolation: no sequence of repository operations (Services, Incidents), of
      poll cycles and goroutines (Poller) or of HTTP requests (IncidentApi, SiteApi)
      changes a row, timeline or mailbox of a tenant it does not act for, the
      poller's intervals included, which no row security covers; the one request
      that does, and why, is [SetServices_crosses_tenants].
    - What a visitor is told: [visitor_request_spec] and, for incidents,
      [public_page_scoped].
    - Accounts: every request keeps the tables well formed, invites and challenges
      work once, a second factor cannot be skipped, a login that should succeed
      does (where row security does not block it) and one that should not tells
      nothing, a demotion signs out, one removal or role change run alone leaves an
      owner; a domain is verified by DNS alone.
    - Invariants: interval histories stay disjoint with one open row, also under
      concurrent writers; an incident has a resolution time exactly while it is
      resolved; enrichment stays within its bound; the breaker never stays stuck.
    - Functional contracts, errors included, of the operations that matter:
      OpenOrExtend, Transition, ConfirmPendingClose, UpdateStatusAndReading,
      Create and Get, pollService, the retry loop, the discovery pass, hysteresis
      of the checks, buckets and uptime, PATCH of an incident.
    - Safety of access: a revoked device stays out, the role gate fails closed, a
      request is all or nothing but for its own transactions, session and 2FA
      tokens never stand in for each other.
    - Equivalence of the two rate-limit stores once time has passed; the quarantine
      of a failing one.
    - Certificates: the encrypted storage is a storage and keeps private keys sealed;
      a named lock has one holder while its session lives.
    - One leader: a replica runs one poller under its own lock, two replicas never
      one each while both sessions live, and a leader always can get one running.
    - Mail: what is connected was validated, is stored encrypted and is what is
      mailed with; a hosted instance tells an incident to exactly those who want it;
      a digest or a domain alert goes to nobody who does not, at most once, and only
      for what is recorded; a domain check records only what a lookup of that
      hostname answered; digests of a tenant are six days apart and no week is
      skipped; every domain is checked.
    - Datadog's counts are within bounds and are the sums of their buckets, whatever
      floats are answered; a checked target never reaches a blocked address.
    - Configuration: exactly which environments are accepted ([Load_iff]), bounds on
      what is, and links that lead to the configured host; background work starts on
      a migrated database only, and serve returns with the poller stopped exactly when
      it had come to its listeners.
    - Datadog is searched with the keys that were connected; no request to an
      integration route reaches another tenant, or the mail tables of a hosted
      instance.
    - A logo is served as what its bytes are; settings requests reach only the
      active tenant's profile, the audit log and a session's last-seen time; the
      chart's days are the calendar's and a day without data is a gap.
    - The language model's rows stay on allowed models; a generation records its
      outcome; a service without traffic is not described by stale numbers.
    - Where the code does not do what it means to, a theorem says what it does
      instead: [own_transaction_loses_tenant], [exact_threshold_not_reached],
      [resolved_incident_reconfirmed], [public_total_counts_links],
      [lost_commit_mails_twice], [lost_commit_answers_200], [two_probes_in_flight],
      [rls_blocks_login], [page_edits_lose_tenant], [rls_never_publishes],
      [created_with_domain_stuck], [services_replaced_behind_500],
      [cosmetic_failure_is_500], [loopback_reached], [service_edits_refused],
      [bypass_mails_with_other_key], [self_hosted_digest_lost],
      [expiry_alert_lost], [llm_connect_unknown_model_500],
      [tax_id_checked_in_pairs], [unlock_releases_anothers_lock],
      [stat_outage_is_not_exist], [base_delimiter_swallows_link],
      [placeholder_check_is_dead], [poll_interval_unchecked],
      [tenant_pages_without_policy], [listener_survives_return].

    ** Bounds, fuel and simplifications

    Integers are Z with int64 wrap-around written out where the code computes
    ([GoNum.wrap64]); times are nanosecond instants, differences saturate, and what
    is stored is taken to be whole microseconds, a timestamptz's resolution.  Loops
    recurse on lists or on [Z.to_nat] of their bound; the rune and trim loops take
    the string's length as fuel, which bounds them as every turn drops a byte; the
    page loop of listDomains takes one turn more than there are domains, which
    [listDomains_complete] proves enough.
    SQL is modelled at the granularity of statements: a statement is atomic, fails
    as a whole, and aborts its transaction.  Interleaving is modelled where the
    code relies on locks or unique indexes for it (intervals, the breaker) and for
    the enrichment goroutines; elsewhere the model runs one caller at a time.
    A transaction a repository opens on its own while a request's is open runs on
    what is committed and survives the request's rollback ([Handler.call_own],
    [Api.h_own]); in the poller's and the repositories' own theorems it starts from
    the caller's tables.  Rows of a query without ORDER BY come in the map's order.
    The rate-limit middleware, logging and JSON decoding are not part of the
    handlers: a body is what it decodes to.
    Constraints of columns the model does not compute with (uuid syntax, enums the
    handlers already check) are left out.  A notification counts as sent when it is
    handed to internal/notify.  Panics and context cancellation inside handlers are
    not modelled.

    ** What is not modelled yet

    The HTML templates (data for html/template), the routes table and the other
    commands of the command line (wiring of what is modelled), ServeMux's and chi's
    path matching, the logger, the timer loops around the schedulers' cycles; the
    manifest says why for each. *)

From stdpp Require Import base gmap strings list sorting.
From Stdlib Require Import ZArith Lia.

#[export] Set Default Goal Selector "!".

(** ** Results

    A Go call that returns [(T, error)]: the value when the error is nil, the
    error otherwise. *)

Inductive res (E A : Type) : Type :=
| Ok (a : A)
| Err (e : E).

Arguments Ok {E A} a.
Arguments Err {E A} e.

Definition is_ok {E A} (r : res E A) : bool :=
  match r with Ok _ => true | Err _ => false end.

Definition res_bind {E A B} (r : res E A) (k : A → res E B) : res E B :=
  match r with Ok a => k a | Err e => Err e end.

#[global] Instance res_eq_dec {E A} `{EqDecision E, EqDecision A} : EqDecision (res E A).
Proof. solve_decision. Defined.

(** ** The state and error monad

    [M S E A] is code that threads a state [S] and either returns an [A] or
    fails with an [E].  A failure keeps the state reached so far: what a failed
    Go function has already done is not undone unless the code undoes it. *)

Definition M (S E A : Type) : Type := S → res E A * S.

Definition ret {S E A} (a : A) : M S E A := λ s, (Ok a, s).
Definition fail {S E A} (e : E) : M S E A := λ s, (Err e, s).
Definition bind {S E A B} (m : M S E A) (k : A → M S E B) : M S E B :=
  λ s, match m s with
       | (Ok a, s') => k a s'
       | (Err e, s') => (Err e, s')
       end.
(** [attempt m] is a call whose error the caller inspects. *)
Definition attempt {S E A} (m : M S E A) : M S E (res E A) :=
  λ s, let '(r, s') := m s in (Ok r, s').
Definition get {S E} : M S E S := λ s, (Ok s, s).
Definition put {S E} (s : S) : M S E unit := λ _, (Ok tt, s).

Declare Scope go_scope.
Delimit Scope go_scope with go.
Notation "x <- m ;; k" := (bind m (λ x, k))
  (at level 100, m at next level, right associativity) : go_scope.
Notation "m ;;; k" := (bind m (λ _, k))
  (at level 100, right associativity) : go_scope.

(** A caller that runs the operation and looks at its error only. *)
Definition discard {S E A} (m : M S E A) : M S E unit := bind m (λ _, ret tt).

Lemma bind_Ok_inv {S E A B} (m : M S E A) (k : A → M S E B) s b s' :
  bind m k s = (Ok b, s') → ∃ a s1, m s = (Ok a, s1) ∧ k a s1 = (Ok b, s').
Proof. unfold bind. destruct (m s) as [[a|e] s1]; [eauto|done]. Qed.

Lemma bind_run {S E A B} (m : M S E A) (k : A → M S E B) s r s1 :
  m s = (r, s1) → bind m k s = match r with Ok a => k a s1 | Err e => (Err e, s1) end.
Proof. unfold bind. by intros ->. Qed.

(** ** Lists *)

Lemma filter_fmap {A B} (f : A → B) (P : B → Prop) `{!∀ x, Decision (P x)} (l : list A) :
  filter P (f <$> l) = f <$> filter (λ x, P (f x)) l.
Proof.
  induction l as [|x l IH]; [done|]. cbn [fmap list_fmap].
  rewrite !filter_cons. rewrite IH. by destruct (decide (P (f x))).
Qed.

(** A fold whose steps commute does not depend on the order. *)
Lemma foldl_permutation {A B} (f : B → A → B) (l l' : list A) :
  (∀ b x y, f (f b x) y = f (f b y) x) → l ≡ₚ l' → ∀ b, foldl f b l = foldl f b l'.
Proof.
  intros Hf. induction 1 as [|x l l' _ IH|x y l|l1 l2 l3 _ IH1 _ IH2]; intros b; cbn; [done|auto|by rewrite Hf|].
  by rewrite IH1, IH2.
Qed.

(** Lemmas that close the routine steps of the components' proofs. *)
Create HintDb vane.
