(* ===== verification/GoNum.v ===== *)
(** * Go numbers: int64, time.Duration and time.Time

    The integer types the program computes with.  An [int64] (and a
    [time.Duration], which is one) is a [Z] with its wrap-around written out; a
    [time.Time] is an instant, the [Z] number of nanoseconds since the epoch,
    because the program only ever subtracts, shifts and compares times. *)

From stdpp Require Import numbers.
From Stdlib Require Import ZArith Lia.

#[local] Open Scope Z_scope.

Definition int64_min : Z := - 2 ^ 63.
Definition int64_max : Z := 2 ^ 63 - 1.

(** Two's-complement wrap-around of a 64-bit signed result. *)
Definition wrap64 (z : Z) : Z := (z + 2 ^ 63) mod 2 ^ 64 - 2 ^ 63.

Definition in_int64 (z : Z) : Prop := int64_min ≤ z ≤ int64_max.

#[global] Instance in_int64_dec z : Decision (in_int64 z).
Proof. unfold in_int64. apply _. Defined.

(** ** time.Duration *)

Definition nanosecond : Z := 1.
Definition millisecond : Z := 1000000 * nanosecond.
Definition second : Z := 1000 * millisecond.
Definition minute : Z := 60 * second.
Definition hour : Z := 60 * minute.

(** [d / e] and [d % e] on Go integers truncate toward zero. *)
Definition go_div (d e : Z) : Z := Z.quot d e.
Definition go_mod (d e : Z) : Z := Z.rem d e.
Definition go_mul (d e : Z) : Z := wrap64 (d * e).
Definition go_add (d e : Z) : Z := wrap64 (d + e).

(** ** time.Time *)

(** [t.Sub u] saturates at the range of Duration. *)
Definition time_sub (t u : Z) : Z := Z.max int64_min (Z.min int64_max (t - u)).
Definition time_add (t d : Z) : Z := t + d.
Definition time_before (t u : Z) : bool := t <? u.
Definition time_after (t u : Z) : bool := u <? t.

(** ** Lemmas *)

Lemma wrap64_id z : in_int64 z → wrap64 z = z.
Proof.
  unfold in_int64, int64_min, int64_max, wrap64. intros.
  rewrite Z.mod_small by lia. lia.
Qed.

Lemma wrap64_add_l x y : wrap64 (wrap64 x + y) = wrap64 (x + y).
Proof.
  unfold wrap64. f_equal.
  replace ((x + 2 ^ 63) mod 2 ^ 64 - 2 ^ 63 + y + 2 ^ 63) with ((x + 2 ^ 63) mod 2 ^ 64 + y) by lia.
  rewrite Z.add_mod_idemp_l by lia. f_equal. lia.
Qed.

(** Adding up durations in another order. *)
Lemma go_add_comm d x y : go_add (go_add d x) y = go_add (go_add d y) x.
Proof. unfold go_add. rewrite !wrap64_add_l. f_equal. lia. Qed.

Lemma wrap64_range z : in_int64 (wrap64 z).
Proof.
  unfold in_int64, int64_min, int64_max, wrap64.
  pose proof (Z.mod_pos_bound (z + 2 ^ 63) (2 ^ 64)). lia.
Qed.

Lemma time_sub_range t u : in_int64 (time_sub t u).
Proof. unfold in_int64, time_sub, int64_min, int64_max. lia. Qed.

Lemma time_sub_exact t u : in_int64 (t - u) → time_sub t u = t - u.
Proof. unfold in_int64, time_sub, int64_min, int64_max. lia. Qed.

(** Saturation never changes how a difference compares with a Duration that is
    not itself one of the two extreme values. *)
Lemma time_sub_le t u d :
  int64_min ≤ d < int64_max → time_sub t u ≤ d ↔ t - u ≤ d.
Proof. unfold time_sub, int64_min, int64_max. lia. Qed.

Lemma time_sub_lt t u d :
  int64_min < d ≤ int64_max → time_sub t u < d ↔ t - u < d.
Proof. unfold time_sub, int64_min, int64_max. lia. Qed.

Lemma time_sub_pos t u : 0 < time_sub t u ↔ u < t.
Proof. unfold time_sub, int64_min, int64_max. lia. Qed.

(** A truncated quotient below a non-negative bound is a strict product bound:
    the arithmetic of every bucket index. *)
Lemma rem_range x w : 0 < w → - w < Z.rem x w < w.
Proof. intros. pose proof (Z.rem_bound_abs x w ltac:(lia)). lia. Qed.

Lemma quot_le_iff x w i : 0 < w → 0 ≤ i → Z.quot x w ≤ i ↔ x < (i + 1) * w.
Proof.
  intros Hw Hi. pose proof (Z.quot_rem' x w) as E.
  pose proof (rem_range x w Hw).
  destruct (Z.le_gt_cases 0 x) as [Hx|Hx].
  - pose proof (Z.rem_nonneg x w ltac:(lia) Hx). split; nia.
  - pose proof (Z.rem_nonpos x w ltac:(lia) ltac:(lia)). split; nia.
Qed.

(** The last bucket touched: the quotient, less one on a boundary or below
    zero, is the ceiling minus one. *)
Lemma quot_last_iff x w i :
  0 < w →
  i ≤ (if Z.rem x w =? 0 then Z.quot x w - 1
       else if Z.rem x w <? 0 then Z.quot x w - 1 else Z.quot x w) ↔
  i * w < x.
Proof.
  intros Hw. pose proof (Z.quot_rem' x w) as E.
  pose proof (rem_range x w Hw).
  destruct (Z.eqb_spec (Z.rem x w) 0); [split; nia|].
  destruct (Z.ltb_spec (Z.rem x w) 0); split; nia.
Qed.
