(* ===== verification/GoFloat.v ===== *)
(** * Go float64

    Go's [float64] is IEEE-754 binary64 with round-to-nearest-even, which is
    what the kernel's primitive floats are.  The file adds the conversions and
    the [math] functions the program calls, and the order facts the components
    use, proved from the standard specification of the primitive operations. *)

From stdpp Require Import numbers.
From Stdlib Require Import ZArith Lia Floats Uint63.

#[local] Open Scope Z_scope.

(** [float64(n)] for an [n] of type int64. *)
Definition float_of_int64 (n : Z) : float :=
  if n =? - 2 ^ 63 then (- 0x1p63)%float
  else if n <? 0 then (- (of_uint63 (Uint63.of_Z (- n))))%float
  else of_uint63 (Uint63.of_Z n).

(** [x >= y], [x < y], [x > y] on float64: false as soon as one is NaN. *)
Definition fge (x y : float) : bool := (y <=? x)%float.
Definition flt (x y : float) : bool := (x <? y)%float.
Definition fgt (x y : float) : bool := (y <? x)%float.

(** [math.Inf(1)]. *)
Definition math_Inf1 : float := infinity.

(** The integer part toward minus infinity of a finite float. *)
Definition sf_floor (x : spec_float) : spec_float :=
  match x with
  | S754_finite s m e =>
      if 0 <=? e then x
      else
        let n := (if s then - Zpos m else Zpos m) / 2 ^ (- e) in
        match n with
        | Z0 => S754_zero s
        | _ => binary_normalize prec emax n 0 false
        end
  | _ => x
  end.

(** [math.Floor]. *)
Definition math_Floor (x : float) : float := SF2Prim (sf_floor (Prim2SF x)).

(** ** The order of float64 *)


(** The order of finite floats as the specification compares them. *)
Lemma SFleb_finite s1 m1 e1 s2 m2 e2 :
  SFleb (S754_finite s1 m1 e1) (S754_finite s2 m2 e2) = true ↔
  match s1, s2 with
  | true, false => True
  | false, true => False
  | false, false => e1 < e2 ∨ (e1 = e2 ∧ (m1 ≤ m2)%positive)
  | true, true => e2 < e1 ∨ (e1 = e2 ∧ (m2 ≤ m1)%positive)
  end.
Proof.
  unfold SFleb, SFcompare.
  destruct s1, s2; try (split; done).
  - destruct (Z.compare_spec e1 e2) as [->|?|?]; simpl;
      [|split; [done|lia]|split; [intros; left; lia|done]].
    fold (Pos.compare m1 m2). destruct (Pos.compare_spec m1 m2); simpl;
      split; try done; try lia.
  - destruct (Z.compare_spec e1 e2) as [->|?|?]; simpl;
      [|split; [intros; left; lia|done]|split; [done|lia]].
    fold (Pos.compare m1 m2). destruct (Pos.compare_spec m1 m2); simpl;
      split; try done; try lia.
Qed.

Lemma SFleb_trans a b c : SFleb a b = true → SFleb b c = true → SFleb a c = true.
Proof.
  destruct a as [s1|s1| |s1 m1 e1], b as [s2|s2| |s2 m2 e2],
    c as [s3|s3| |s3 m3 e3];
    try done;
    try (destruct s1; try destruct s2; try destruct s3; done);
    try (destruct s2; try destruct s3; done).
  rewrite !SFleb_finite. destruct s1, s2, s3; try done; lia.
Qed.

Lemma fge_trans x y z : fge x y = true → fge y z = true → fge x z = true.
Proof.
  unfold fge. rewrite !FloatAxioms.leb_spec. intros H1 H2.
  eapply SFleb_trans; eassumption.
Qed.

(** A float that is a number and whose sign bit is clear. *)
Definition sf_nonneg (x : spec_float) : Prop :=
  match x with
  | S754_zero s => s = false
  | S754_finite s _ _ => s = false
  | S754_infinity s => s = false
  | S754_nan => False
  end.

Lemma shr_1_nonneg r : 0 ≤ shr_m r → 0 ≤ shr_m (shr_1 r).
Proof. destruct r as [[|[]|] rr ss]; simpl; try lia. Qed.
Lemma iter_pos_ind {A} (f : A → A) (P : A → Prop) n x :
  (∀ y, P y → P (f y)) → P x → P (iter_pos f n x).
Proof. intros Hf. revert x. induction n; simpl; eauto. Qed.
Lemma shr_nonneg r e n : 0 ≤ shr_m r → 0 ≤ shr_m (fst (shr r e n)).
Proof.
  intros H. unfold shr. destruct n as [|p|p]; simpl; [done| |done].
  apply (iter_pos_ind _ (λ r, 0 ≤ shr_m r)); [|done]. intros. by apply shr_1_nonneg.
Qed.
Lemma shr_fexp_nonneg m e l : 0 ≤ m → 0 ≤ shr_m (fst (shr_fexp prec emax m e l)).
Proof. intros. apply shr_nonneg. destruct l as [|[]]; done. Qed.
Lemma round_nearest_even_nonneg m l : 0 ≤ m → 0 ≤ round_nearest_even m l.
Proof. intros. destruct l as [|[]]; simpl; try lia. destruct (Z.even m); lia. Qed.

Lemma binary_round_aux_nonneg m e l : 0 ≤ m → sf_nonneg (binary_round_aux prec emax false m e l).
Proof.
  intros Hm. unfold binary_round_aux.
  pose proof (shr_fexp_nonneg m e l Hm) as H1.
  destruct (shr_fexp prec emax m e l) as [r1 e1]. simpl in H1.
  pose proof (shr_fexp_nonneg (round_nearest_even (shr_m r1) (loc_of_shr_record r1)) e1 loc_Exact
    (round_nearest_even_nonneg _ _ H1)) as H2.
  destruct (shr_fexp prec emax _ e1 loc_Exact) as [r2 e2]. simpl in H2.
  destruct (shr_m r2); simpl; [done| |lia]. destruct (e2 <=? _); done.
Qed.

Lemma binary_normalize_nonneg n : 0 ≤ n → sf_nonneg (binary_normalize prec emax n 0 false).
Proof.
  intros. destruct n as [|p|p]; simpl; [done| |lia].
  unfold binary_round. destruct (shl_align p 0 _). by apply binary_round_aux_nonneg.
Qed.

(** Dividing two floats with clear sign bits gives one, unless the quotient is
    0/0 or oo/oo. *)
Definition sf_positive (x : spec_float) : Prop :=
  match x with S754_finite s _ _ => s = false | S754_infinity s => s = false | _ => False end.
Lemma SFdiv_nonneg x y :
  sf_nonneg x → sf_positive y → (∀ s s', x = S754_infinity s → y ≠ S754_infinity s') →
  sf_nonneg (SFdiv prec emax x y).
Proof.
  intros Hx Hy Hinf.
  destruct x as [s1|s1| |s1 m1 e1], y as [s2|s2| |s2 m2 e2]; simpl in *; subst; try done.
  { by destruct (Hinf false false). }
  unfold SFdiv_core_binary. simpl.
  set (e' := Z.min _ _).
  set (m' := match e1 - e2 - e' with Z0 => _ | _ => _ end).
  assert (0 ≤ m') as Hm'.
  { subst m'. destruct (e1 - e2 - e'); try lia. by apply Z.shiftl_nonneg. }
  rewrite (surjective_pairing (Z.div_eucl m' (Z.pos m2))).
  apply binary_round_aux_nonneg. fold (Z.div m' (Z.pos m2)).
  by apply Z.div_pos.
Qed.

(** A float64 [x] with [0 <= x]: in particular, not a NaN. *)
Definition fnonneg (x : float) : Prop := sf_nonneg (Prim2SF x).

Lemma fnonneg_fge x : fnonneg x → fge x 0%float = true.
Proof.
  unfold fnonneg, fge. rewrite FloatAxioms.leb_spec.
  change (Prim2SF 0%float) with (S754_zero false).
  destruct (Prim2SF x) as [s|s| |s m e]; simpl; intros; subst; done.
Qed.

Lemma float_of_int64_nat n :
  0 ≤ n → float_of_int64 n = of_uint63 (Uint63.of_Z n).
Proof.
  intros. unfold float_of_int64.
  rewrite (proj2 (Z.eqb_neq _ _)) by lia. by rewrite (proj2 (Z.ltb_ge _ _)) by lia.
Qed.

Lemma float_of_int64_nonneg n : 0 ≤ n ≤ 2 ^ 63 - 1 → fnonneg (float_of_int64 n).
Proof.
  intros. rewrite float_of_int64_nat by lia. unfold fnonneg.
  rewrite of_uint63_spec. apply binary_normalize_nonneg. apply to_Z_bounded.
Qed.

(** ** Positive integers convert to positive finite floats *)

Lemma digits2_pos_bounds p :
  2 ^ (Zpos (digits2_pos p) - 1) ≤ Zpos p < 2 ^ Zpos (digits2_pos p).
Proof.
  induction p as [p IH|p IH|]; cbn [digits2_pos]; [| |done].
  - rewrite Pos2Z.inj_succ. replace (Z.succ (Zpos (digits2_pos p)) - 1) with (Zpos (digits2_pos p)) by lia.
    rewrite Z.pow_succ_r by lia.
    replace (Zpos (digits2_pos p)) with (Z.succ (Zpos (digits2_pos p) - 1)) at 1 by lia.
    rewrite Z.pow_succ_r by lia. lia.
  - rewrite Pos2Z.inj_succ. replace (Z.succ (Zpos (digits2_pos p)) - 1) with (Zpos (digits2_pos p)) by lia.
    rewrite Z.pow_succ_r by lia.
    replace (Zpos (digits2_pos p)) with (Z.succ (Zpos (digits2_pos p) - 1)) at 1 by lia.
    rewrite Z.pow_succ_r by lia. lia.
Qed.

Lemma digits2_pos_le p k : 0 ≤ k → Zpos p < 2 ^ k → Zpos (digits2_pos p) ≤ k.
Proof.
  intros Hk Hp. pose proof (digits2_pos_bounds p) as [H _].
  assert (2 ^ (Zpos (digits2_pos p) - 1) < 2 ^ k) as H2 by lia.
  apply Z.pow_lt_mono_r_iff in H2; lia.
Qed.

Lemma shr_1_m r : 0 ≤ shr_m r → shr_m (shr_1 r) = shr_m r / 2.
Proof.
  destruct r as [m rr ss]; simpl. destruct m as [|[p|p|]|p]; simpl; intros; try lia; try done.
  - rewrite Pos2Z.inj_xI. apply Z.div_unique with 1; lia.
  - rewrite Pos2Z.inj_xO. apply Z.div_unique with 0; lia.
Qed.

Lemma iter_shr_1_m n r : 0 ≤ shr_m r → shr_m (iter_pos shr_1 n r) = shr_m r / 2 ^ Zpos n ∧ 0 ≤ shr_m (iter_pos shr_1 n r).
Proof.
  revert r. induction n as [n IH|n IH|]; intros r Hr; cbn [iter_pos].
  - assert (0 ≤ shr_m (shr_1 r)) by (rewrite shr_1_m by done; apply Z.div_pos; lia).
    destruct (IH (shr_1 r)) as [E1 P1]; [done|].
    destruct (IH _ P1) as [E2 P2]. split; [|done].
    rewrite E2, E1, shr_1_m, !Z.div_div by lia.
    replace (Z.pos n~1) with (Z.succ (Zpos n + Zpos n)) by lia.
    rewrite Z.pow_succ_r, (Z.pow_add_r 2 (Z.pos n)) by lia. f_equal; lia.
  - destruct (IH r) as [E1 P1]; [done|].
    destruct (IH _ P1) as [E2 P2]. split; [|done].
    rewrite E2, E1, !Z.div_div by lia.
    replace (Z.pos n~0) with (Zpos n + Zpos n) by lia.
    rewrite (Z.pow_add_r 2 (Z.pos n)) by lia. f_equal; lia.
  - rewrite shr_1_m by done. split; [done|]. apply Z.div_pos; lia.
Qed.

(** Shifting a positive mantissa to its canonical exponent keeps it positive
    and brings it within the precision. *)
Lemma shr_fexp_pos m e l r e' :
  0 < m → emin ≤ e → shr_fexp prec emax m e l = (r, e') →
  0 < shr_m r < 2 ^ prec ∧ e' = e + Z.max 0 (Zdigits2 m - prec).
Proof.
  intros Hm He. unfold shr_fexp, shr.
  destruct m as [|p|p]; try lia.
  change (Zdigits2 (Z.pos p)) with (Z.pos (digits2_pos p)).
  pose proof (digits2_pos_bounds p) as Hd.
  set (d := Z.pos (digits2_pos p)) in *. assert (0 < d) by (subst d; lia).
  assert (shr_m (shr_record_of_loc (Z.pos p) l) = Z.pos p) as Hm0 by (destruct l as [|[]]; done).
  assert (fexp prec emax (d + e) - e ≤ Z.max (d - prec) 0) as Hk by (unfold fexp; lia).
  assert (d - prec ≤ fexp prec emax (d + e) - e) as Hk2 by (unfold fexp; lia).
  assert (fexp prec emax (d + e) - e ≤ 0 → Z.pos p < 2 ^ prec) as Hsmall.
  { intros. enough (2 ^ d ≤ 2 ^ prec) by lia. apply Z.pow_le_mono_r; lia. }
  destruct (fexp prec emax (d + e) - e) as [|k|k]; intros [= <- <-];
    rewrite ?Hm0; try (split; [split; [lia|apply Hsmall; lia]|lia]).
  assert (Zpos k = d - prec) as Ek by lia.
  destruct (iter_shr_1_m k (shr_record_of_loc (Z.pos p) l)) as [-> _]; [by rewrite Hm0|].
  rewrite Hm0, Ek. assert (0 < 2 ^ (d - prec)) by (apply Z.pow_pos_nonneg; unfold prec in *; lia).
  assert (2 ^ (d - 1) = 2 ^ (d - prec) * 2 ^ (prec - 1)) as E1.
  { rewrite <- Z.pow_add_r by (unfold prec in *; lia). f_equal. lia. }
  assert (2 ^ d = 2 ^ (d - prec) * 2 ^ prec) as E2.
  { rewrite <- Z.pow_add_r by (unfold prec in *; lia). f_equal. lia. }
  assert (0 < 2 ^ (prec - 1)) by reflexivity.
  split; [split|]; [|apply Z.div_lt_upper_bound; lia|lia].
  enough (1 ≤ Z.pos p / 2 ^ (d - prec)) by lia. apply Z.div_le_lower_bound; nia.
Qed.

Lemma round_nearest_even_bounds m l : m ≤ round_nearest_even m l ≤ m + 1.
Proof. destruct l as [|[]]; simpl; try lia. destruct (Z.even m); lia. Qed.

Lemma binary_round_aux_pos m e l :
  0 < m → emin ≤ e → e + Z.max 0 (Zdigits2 m - prec) < emax - prec →
  ∃ m' e', binary_round_aux prec emax false m e l = S754_finite false m' e'.
Proof.
  intros Hm He Hb. unfold binary_round_aux.
  destruct (shr_fexp prec emax m e l) as [r1 e1] eqn:H1.
  destruct (shr_fexp_pos _ _ _ _ _ Hm He H1) as [[Hr1 Hlt] He1].
  pose proof (round_nearest_even_bounds (shr_m r1) (loc_of_shr_record r1)) as Hr.
  set (m1 := round_nearest_even _ _) in *.
  destruct (shr_fexp prec emax m1 e1 loc_Exact) as [r2 e2] eqn:H2.
  destruct (shr_fexp_pos m1 e1 _ _ _ ltac:(lia) ltac:(lia) H2) as [[Hr2 _] He2].
  assert (Zdigits2 m1 ≤ prec + 1) as Hd.
  { destruct m1 as [|p|p] eqn:Em; [unfold prec; simpl; lia| |unfold prec; simpl; lia].
    apply digits2_pos_le; [unfold prec; lia|]. change (2 ^ (prec + 1)) with (2 * 2 ^ prec). 
    unfold prec in *. lia. }
  destruct (shr_m r2) as [|p|p]; try lia.
  exists p, e2. rewrite (proj2 (Z.leb_le _ _)); [done|lia].
Qed.

Lemma float_of_int64_pos n :
  0 < n ≤ 2 ^ 63 - 1 → ∃ m e, Prim2SF (float_of_int64 n) = S754_finite false m e.
Proof.
  intros Hn. rewrite float_of_int64_nat by lia. rewrite of_uint63_spec, of_Z_spec. change wB with (2 ^ 63). rewrite Z.mod_small by lia.
  destruct n as [|p|p]; try lia. cbn [binary_normalize]. unfold binary_round, shl_align.
  change (SpecFloat.emin prec emax) with (-1074).
  assert (Z.pos (digits2_pos p) ≤ 63) as Hd by (apply digits2_pos_le; lia).
  unfold fexp. change (SpecFloat.emin prec emax) with (-1074). change prec with 53.
  rewrite Z.max_l by lia. rewrite Z.add_0_r, Z.sub_0_r.
  destruct (Z.pos (digits2_pos p) - 53) as [|k|k] eqn:Ek;
    (apply binary_round_aux_pos; [lia|unfold SpecFloat.emin, prec, emax; lia|]);
    cbn [Zdigits2]; [unfold prec, emax; lia..|].
  assert (∀ k q, Z.pos (digits2_pos (Pos.iter xO q k)) = Z.pos (digits2_pos q) + Z.pos k) as Hit.
  { clear. intros k q. induction k as [|k IH] using Pos.peano_ind; [simpl; lia|].
    rewrite Pos.iter_succ. cbn [digits2_pos]. lia. }
  rewrite Hit. unfold prec, emax. lia.
Qed.

(** The quotient of two floats with clear sign bits whose divisor is a positive
    finite number is a number with a clear sign bit. *)
Lemma fdiv_nonneg x y m e :
  fnonneg x → Prim2SF y = S754_finite false m e → fnonneg (x / y)%float.
Proof.
  unfold fnonneg. rewrite FloatAxioms.div_spec. intros Hx ->.
  by apply SFdiv_nonneg.
Qed.

Lemma fdiv_zero y m e : Prim2SF y = S754_finite false m e → (0 / y)%float = 0%float.
Proof.
  intros Hy. apply FloatAxioms.Prim2SF_inj. rewrite FloatAxioms.div_spec, Hy. done.
Qed.
