(* ===== verification/Db.v ===== *)
(** * Database sessions (internal/db/pool.go)

    Repositories run SQL statements on a connection: a pooled one, or the
    tenant transaction their [ctx] carries.  A [session] is the connection as a
    repository sees it: the tables, the row-level-security settings, whether a
    transaction is open and whether a failed statement has aborted it.  The
    server is not under src/: its failures, its generated UUIDs and its clock
    are the parameter [Driver], numbered by a tick that every interaction with
    the server advances. *)

From stdpp Require Import numbers strings gmap.
From Stdlib Require Import ZArith Lia.
From S2P Require Import Prelude GoNum.

(** ** Errors *)

Inductive db_err :=
| ErrNotFound
| ErrServiceInUse
| ErrIntervalRaceLost
| ErrNoPendingProposal
| ErrCloseProposalChanged
| ErrIncidentAlreadyResolved
| ErrDuplicateEmail
| ErrDuplicateMembership
| ErrLastOwner
| ErrInvalidTaxID
| ErrDomainAlreadyAttached
| ErrInvalidDomain
| ErrDuplicateDomainSubdomain
| ErrNoDomainAttached
| ErrDuplicateHostname
| ErrDomainInUse
| ErrGroupCrossPage
| ErrParentNotInSet
| ErrSelfReference
| ErrMaxDepthExceeded
| ErrNoTenantID    (* tenant.ID must be set *)
| ErrRolledBack    (* the code gave its own transaction up *)
| ErrDriver        (* the connection, the server or the context failed *)
| ErrTxAborted     (* current transaction is aborted *)
| ErrTxRollback    (* commit of an aborted transaction *)
| ErrUnique        (* unique_violation *)
| ErrNotNull       (* not_null_violation *)
| ErrForeignKey    (* foreign_key_violation *)
| ErrRowSecurity   (* new row violates row-level security policy *)
| ErrCheck.        (* check_violation *)

#[global] Instance db_err_eq_dec : EqDecision db_err.
Proof. solve_decision. Defined.

(** ** The server *)

Class Driver := {
  (** Whether the n-th interaction with the server fails. *)
  event_fails : nat → bool;
  (** gen_random_uuid() at the n-th interaction. *)
  gen_uuid : nat → string;
  (** The server's clock at the n-th interaction. *)
  clock : nat → Z;
  (** The database's collation: what ORDER BY on a text column sorts by. *)
  text_le : string → string → bool;
}.

(** A server that answers every statement, for the examples. *)
Definition reliable : Driver := {|
  event_fails _ := false;
  gen_uuid n := String (Ascii.ascii_of_nat (n mod 256)) EmptyString;
  clock n := Z.of_nat n;
  text_le := String.leb;
|}.

(** A server that does not answer the interactions of a list. *)
Definition failing_at (l : list nat) : Driver := {|
  event_fails n := bool_decide (n ∈ l);
  gen_uuid n := String (Ascii.ascii_of_nat (n mod 256)) EmptyString;
  clock n := Z.of_nat n;
  text_le := String.leb;
|}.

(** ** Sessions *)

Record session (D : Type) := Session {
  tables : D;
  app_tenant : string;        (* app.tenant_id, "" when unset *)
  bypass_rls : bool;          (* a superuser or BYPASSRLS role *)
  tx_start : option Z;        (* the open transaction's now() *)
  aborted : bool;
  tick : nat;
}.
Arguments Session {D} _ _ _ _ _ _.
Arguments tables {D} _.
Arguments app_tenant {D} _.
Arguments bypass_rls {D} _.
Arguments tx_start {D} _.
Arguments aborted {D} _.
Arguments tick {D} _.

Section session.
Context {D : Type} `{!Driver}.

Definition bump (s : session D) : session D :=
  Session (tables s) (app_tenant s) (bypass_rls s) (tx_start s) (aborted s) (S (tick s)).
Definition set_tables (d : D) (s : session D) : session D :=
  Session d (app_tenant s) (bypass_rls s) (tx_start s) (aborted s) (tick s).
Definition set_tick (n : nat) (s : session D) : session D :=
  Session (tables s) (app_tenant s) (bypass_rls s) (tx_start s) (aborted s) n.
(** A failed statement aborts the transaction it runs in. *)
Definition abort (s : session D) : session D :=
  Session (tables s) (app_tenant s) (bypass_rls s) (tx_start s)
    (match tx_start s with Some _ => true | None => aborted s end) (tick s).

(** now(): the transaction's start, the statement's time outside one. *)
Definition sql_now (s : session D) : Z :=
  match tx_start s with Some t => t | None => clock (tick s) end.
Definition clock_timestamp (s : session D) : Z := clock (tick s).

(** One SQL statement: [f] gives its result and the new tables. *)
Definition stmt {A} (f : session D → res db_err (A * D)) : M (session D) db_err A :=
  λ s, if aborted s then (Err ErrTxAborted, bump s)
       else if event_fails (tick s) then (Err ErrDriver, abort (bump s))
       else match f s with
            | Ok (a, d) => (Ok a, set_tables d (bump s))
            | Err e => (Err e, abort (bump s))
            end.

Definition query {A} (f : session D → A) : M (session D) db_err A :=
  stmt (λ s, Ok (f s, tables s)).

(** A transaction opened with [r.pool.Begin(ctx)]: [Pool] embeds
    pgxpool.Pool and does not override Begin, so it runs on a fresh pooled
    connection whose app.tenant_id is unset, even when [ctx] carries a tenant
    transaction.  A failed body is rolled back (the deferred Rollback). *)
Definition with_pool_tx {A} (body : M (session D) db_err A) : M (session D) db_err A :=
  λ s, if event_fails (tick s) then (Err ErrDriver, bump s)
       else
         match body (Session (tables s) "" (bypass_rls s) (Some (clock (tick s))) false
                       (S (tick s))) with
         | (Err e, i) => (Err e, set_tick (S (tick i)) s)
         | (Ok a, i) =>
             if aborted i then (Err ErrTxRollback, set_tick (S (tick i)) s)
             else if event_fails (tick i) then (Err ErrDriver, set_tick (S (tick i)) s)
             else (Ok a, set_tables (tables i) (set_tick (S (tick i)) s))
         end.

(** [BeginTenantTx(ctx, userID, tenantID)] on a pool session [s]: the
    transaction with app.user_id and app.tenant_id set, an empty one left unset.
    Only the identity tables have policies on app.user_id, so a session does
    not record it. *)
Definition BeginTenantTx (userID tenantID : string) (s : session D) :
    res db_err (session D) * session D :=
  if event_fails (tick s) then (Err ErrDriver, bump s)
  else
    let tx := Session (tables s) "" (bypass_rls s) (Some (clock (tick s))) false
                (S (tick s)) in
    if negb (String.eqb userID "") && event_fails (tick tx)
    then (Err ErrDriver, set_tick (S (tick tx)) s)
    else
      let tx := if String.eqb userID "" then tx else bump tx in
      if String.eqb tenantID "" then (Ok tx, set_tick (tick tx) s)
      else if event_fails (tick tx) then (Err ErrDriver, set_tick (S (tick tx)) s)
      else (Ok (Session (tables s) tenantID (bypass_rls s) (tx_start tx) false (S (tick tx))),
            set_tick (S (tick tx)) s).

(** Commit and Rollback of the transaction [tx] opened on [s]. *)
Definition tx_commit (tx s : session D) : res db_err unit * session D :=
  if aborted tx then (Err ErrTxRollback, set_tick (S (tick tx)) s)
  else if event_fails (tick tx) then (Err ErrDriver, set_tick (S (tick tx)) s)
  else (Ok tt, set_tables (tables tx) (set_tick (S (tick tx)) s)).
Definition tx_rollback (tx s : session D) : session D := set_tick (S (tick tx)) s.

(** [runInTx]: the caller's tenant transaction when there is one, an own
    transaction otherwise. *)
Definition runInTx {A} (fn : M (session D) db_err A) : M (session D) db_err A :=
  λ s, match tx_start s with
       | Some _ => fn s
       | None => with_pool_tx fn s
       end.

(** The tenant_isolation policy: a row is visible to a role subject to
    row-level security when its tenant is the session's. *)
Definition visible (s : session D) (row_tenant : string) : bool :=
  bypass_rls s ||
  (negb (String.eqb (app_tenant s) "") && String.eqb row_tenant (app_tenant s)).

(** The tenant_id an INSERT that does not mention it gets. *)
Definition default_tenant (s : session D) : res db_err string :=
  if String.eqb (app_tenant s) "" then Err ErrNotNull else Ok (app_tenant s).
End session.

(** LIMIT and OFFSET; a negative one is an error of the server. *)
Definition limit_offset {A} (limit offset : Z) (l : list A) : option (list A) :=
  if ((limit <? 0) || (offset <? 0))%Z then None
  else Some (take (Z.to_nat limit) (drop (Z.to_nat offset) l)).

(** ** Lemmas *)

Lemma limit_offset_subseteq {A} (n k : Z) (l l' : list A) :
  limit_offset n k l = Some l' → l' ⊆ l.
Proof.
  unfold limit_offset. destruct (_ || _); [done|]. intros [= <-].
  intros x Hx%subseteq_take%subseteq_drop. done.
Qed.

Section session_lemmas.
Context {D : Type} `{!Driver}.
Implicit Types s : session D.

(** What a statement can do: nothing to the tables, or what [f] says. *)
Lemma stmt_inv {A} (f : session D → res db_err (A * D)) s r s' :
  stmt f s = (r, s') →
  (∃ e, r = Err e ∧ tables s' = tables s) ∨
  (∃ a d, f s = Ok (a, d) ∧ r = Ok a ∧ s' = set_tables d (bump s)).
Proof.
  unfold stmt. destruct (aborted s); [intros; simplify_eq; left; eauto|].
  destruct (event_fails (tick s)); [intros; simplify_eq; left; eauto|].
  destruct (f s) as [[a d]|e] eqn:Hf; intros; simplify_eq; [right|left]; eauto.
Qed.

(** The settings of a session never change under a statement. *)
Lemma stmt_settings {A} (f : session D → res db_err (A * D)) s :
  app_tenant (stmt f s).2 = app_tenant s ∧ bypass_rls (stmt f s).2 = bypass_rls s ∧
  tx_start (stmt f s).2 = tx_start s.
Proof.
  unfold stmt. destruct (aborted s); [done|].
  destruct (event_fails (tick s)); [done|]. by destruct (f s) as [[]|].
Qed.

Lemma stmt_settings_eq {A} (f : session D → res db_err (A * D)) s r s' :
  stmt f s = (r, s') → app_tenant s' = app_tenant s ∧ bypass_rls s' = bypass_rls s.
Proof. intros E. destruct (stmt_settings f s) as (E1 & E2 & _). by rewrite E in *. Qed.

(** The connection a transaction of its own starts on. *)
Definition pool_conn s : session D :=
  Session (tables s) "" (bypass_rls s) (Some (clock (tick s))) false (S (tick s)).

(** A transaction of its own is all or nothing. *)
Lemma with_pool_tx_inv {A} (m : M (session D) db_err A) s r s' :
  with_pool_tx m s = (r, s') →
  (∃ e, r = Err e ∧ tables s' = tables s) ∨
  (∃ a i, m (pool_conn s) = (Ok a, i) ∧ r = Ok a ∧ tables s' = tables i).
Proof.
  unfold with_pool_tx. fold (pool_conn s). destruct (event_fails (tick s)).
  { intros. simplify_eq. left. eauto. }
  destruct (m (pool_conn s)) as [[a|e] i] eqn:Em; [|intros; simplify_eq; left; eauto].
  destruct (aborted i); [intros; simplify_eq; left; eauto|].
  destruct (event_fails (tick i)); intros; simplify_eq; [left|right]; eauto.
Qed.

Lemma with_pool_tx_settings {A} (m : M (session D) db_err A) s r s' :
  with_pool_tx m s = (r, s') → app_tenant s' = app_tenant s ∧ bypass_rls s' = bypass_rls s.
Proof.
  unfold with_pool_tx. destruct (event_fails _); [by intros [= _ <-]|].
  destruct (m _) as [[a|e] i]; [|by intros [= _ <-]]. destruct (aborted i); [by intros [= _ <-]|].
  destruct (event_fails _); by intros [= _ <-].
Qed.

Lemma stmt_Ok_inv {A} (f : session D → res db_err (A * D)) s a s' :
  stmt f s = (Ok a, s') → ∃ d, f s = Ok (a, d) ∧ tables s' = d ∧ tick s' = S (tick s) ∧
    aborted s' = aborted s.
Proof.
  intros Hs. unfold stmt in Hs. destruct (aborted s) eqn:Ha; [done|].
  destruct (event_fails (tick s)); [done|]. destruct (f s) as [[a' d]|]; [|done].
  simplify_eq. cbn. eauto.
Qed.

(** A failed statement dooms its transaction. *)
Lemma stmt_Err_inv {A} (f : session D → res db_err (A * D)) s e s' :
  stmt f s = (Err e, s') → is_Some (tx_start s) →
  aborted s' = true ∧ tables s' = tables s.
Proof.
  unfold stmt. intros Hs [t Ht]. destruct (aborted s) eqn:Ha; [by simplify_eq/=|].
  destruct (event_fails (tick s)).
  { simplify_eq. cbn. by rewrite Ht. }
  destruct (f s) as [[a d]|e']; simplify_eq. cbn. by rewrite Ht.
Qed.

Lemma stmt_tx {A} (f : session D → res db_err (A * D)) s r s' :
  stmt f s = (r, s') → tx_start s' = tx_start s.
Proof. intros E. destruct (stmt_settings f s) as (_ & _ & <-). by rewrite E. Qed.

Lemma sql_now_tx s s' : is_Some (tx_start s) → tx_start s' = tx_start s → sql_now s' = sql_now s.
Proof. unfold sql_now. intros [t ->] ->. done. Qed.

Lemma query_Ok_inv {A} (f : session D → A) s a s' :
  query f s = (Ok a, s') → a = f s ∧ tables s' = tables s.
Proof. intros (d & Hd & <- & _)%stmt_Ok_inv. by simplify_eq. Qed.

(** A tenant transaction sees what the pool session sees, for that tenant. *)
Lemma BeginTenantTx_inv u t s r s' :
  BeginTenantTx u t s = (r, s') →
  tables s' = tables s ∧ app_tenant s' = app_tenant s ∧ bypass_rls s' = bypass_rls s ∧
  match r with
  | Ok tx => tables tx = tables s ∧ app_tenant tx = t ∧ bypass_rls tx = bypass_rls s ∧
             is_Some (tx_start tx) ∧ aborted tx = false
  | Err _ => True
  end.
Proof.
  unfold BeginTenantTx. destruct (event_fails (tick s)); [intros; by simplify_eq|].
  destruct (negb _ && _); [intros; by simplify_eq|].
  destruct (String.eqb_spec t "") as [->|].
  { intros; simplify_eq. destruct (String.eqb u ""); done. }
  destruct (event_fails _); intros; simplify_eq; [done|].
  cbn. split_and!; try done. by destruct (String.eqb u "").
Qed.

Lemma visible_own s t :
  bypass_rls s = false → visible s t = true → t = app_tenant s ∧ t ≠ "".
Proof.
  unfold visible. intros -> Hv. cbn in Hv. apply andb_true_iff in Hv as [H1 H2].
  apply String.eqb_eq in H2. apply negb_true_iff, String.eqb_neq in H1. by subst.
Qed.

Lemma visible_unset s t : bypass_rls s = false → app_tenant s = "" → visible s t = false.
Proof. unfold visible. by intros -> ->. Qed.
End session_lemmas.

(** ** Preserved table relations

    [preserves P m]: whatever happens, running [m] on a session that satisfies
    [P] relates the tables before and after by [R], a reflexive and transitive
    relation, and keeps the session's settings. *)
Section preserves.
Context {D : Type} `{!Driver} (R : string → bool → relation D).
Context `{!∀ t b, PreOrder (R t b)}.

Definition preserves {A} (m : M (session D) db_err A) : Prop :=
  ∀ s, R (app_tenant s) (bypass_rls s) (tables s) (tables (m s).2) ∧
       app_tenant (m s).2 = app_tenant s ∧ bypass_rls (m s).2 = bypass_rls s.

(** The same from one session only. *)
Definition preserves_at {A} (m : M (session D) db_err A) (s : session D) : Prop :=
  R (app_tenant s) (bypass_rls s) (tables s) (tables (m s).2) ∧
  app_tenant (m s).2 = app_tenant s ∧ bypass_rls (m s).2 = bypass_rls s.

Lemma preserves_bind_at {A B} (m : M (session D) db_err A) (k : A → M (session D) db_err B) s :
  preserves_at m s → (∀ a s', m s = (Ok a, s') → preserves_at (k a) s') →
  preserves_at (bind m k) s.
Proof.
  intros (H1 & H2 & H3) Hk. unfold preserves_at, bind.
  destruct (m s) as [[a|e] s1] eqn:Em; cbn in *; [|done].
  destruct (Hk a s1 eq_refl) as (H4 & H5 & H6). rewrite H5, H6. split_and!; [|done..].
  rewrite H2, H3 in H4. by etrans.
Qed.

Lemma preserves_stmt_at {A} (f : session D → res db_err (A * D)) s :
  (∀ a d, f s = Ok (a, d) → R (app_tenant s) (bypass_rls s) (tables s) d) →
  preserves_at (stmt f) s.
Proof.
  intros Hf. destruct (stmt_settings f s) as (E1 & E2 & _).
  unfold preserves_at. rewrite E1, E2. split; [|done].
  destruct (stmt f s) as [r s'] eqn:E.
  apply stmt_inv in E as [(e & -> & Ht)|(a & d & Hd & -> & ->)]; cbn; [by rewrite Ht|eauto].
Qed.

Lemma preserves_ret {A} (a : A) : preserves (ret a).
Proof. intros s. cbn. done. Qed.

Lemma preserves_fail {A} e : preserves (fail e : M (session D) db_err A).
Proof. intros s. cbn. done. Qed.

Lemma preserves_bind {A B} (m : M (session D) db_err A) (k : A → M (session D) db_err B) :
  preserves m → (∀ a, preserves (k a)) → preserves (bind m k).
Proof.
  intros Hm Hk s. unfold bind. destruct (Hm s) as (H1 & H2 & H3).
  destruct (m s) as [[a|e] s1]; cbn in *; [|done].
  destruct (Hk a s1) as (H4 & H5 & H6). rewrite H5, H6. split_and!; [|done..].
  rewrite H2, H3 in H4. by etrans.
Qed.

Lemma preserves_attempt {A} (m : M (session D) db_err A) :
  preserves m → preserves (attempt m).
Proof. intros Hm s. unfold attempt. specialize (Hm s). by destruct (m s). Qed.

Lemma preserves_stmt {A} (f : session D → res db_err (A * D)) :
  (∀ s a d, f s = Ok (a, d) → R (app_tenant s) (bypass_rls s) (tables s) d) →
  preserves (stmt f).
Proof.
  intros Hf s. destruct (stmt_settings f s) as (-> & -> & _). split; [|done].
  destruct (stmt f s) as [r s'] eqn:E.
  apply stmt_inv in E as [(e & -> & Ht)|(a & d & Hd & -> & ->)]; cbn; [by rewrite Ht|eauto].
Qed.

Lemma preserves_query {A} (f : session D → A) : preserves (query f).
Proof. apply preserves_stmt. intros; by simplify_eq. Qed.

(** A transaction of its own runs without a tenant, which may only do less. *)
Lemma preserves_pool_tx {A} (m : M (session D) db_err A) :
  (∀ t b d d', R "" b d d' → R t b d d') →
  preserves m → preserves (with_pool_tx m).
Proof.
  intros Hle Hm s. unfold with_pool_tx. destruct (event_fails (tick s)); [cbn; done|].
  set (i := Session _ _ _ _ _ _). destruct (Hm i) as (H1 & _ & _).
  destruct (m i) as [[a|e] i']; cbn in *; [|done].
  destruct (aborted i'); [done|]. destruct (event_fails (tick i')); [done|].
  cbn. split_and!; [|done..]. by apply Hle.
Qed.

Lemma preserves_runInTx {A} (m : M (session D) db_err A) :
  (∀ t b d d', R "" b d d' → R t b d d') →
  preserves m → preserves (runInTx m).
Proof.
  intros Hle Hm s. unfold runInTx. destruct (tx_start s); [apply Hm|].
  by apply preserves_pool_tx.
Qed.
End preserves.

#[local] Open Scope Z_scope.
#[local] Open Scope go_scope.

(** ** SQL shorthands *)

(** A row with the property; there is at most one where a UNIQUE index says so. *)
Definition find_row {A} (p : A → bool) (m : gmap string A) : option (string * A) :=
  head (filter (λ kv, p kv.2 = true) (map_to_list m)).
Definition has_row {A} (p : A → bool) (m : gmap string A) : bool :=
  bool_decide (is_Some (find_row p m)).

Definition map_err {S E A} (f : E → E) (m : M S E A) : M S E A :=
  λ s, match m s with (Ok a, s') => (Ok a, s') | (Err e, s') => (Err (f e), s') end.

Definition unique_as (e' e : db_err) : db_err := if decide (e = ErrUnique) then e' else e.

Definition is_none {A} (o : option A) : bool := match o with None => true | Some _ => false end.

Section sql.
Context {D : Type} `{!Driver}.

Definition or_not_found {A} (row : option A) : M (session D) db_err A :=
  match row with Some x => ret x | None => fail ErrNotFound end.
Definition affected (n : Z) : M (session D) db_err unit :=
  if n =? 0 then fail ErrNotFound else ret tt.

(** The page query of a paginated list: LIMIT and OFFSET, COUNT over the same
    rows; a page with no row takes its total from a second query. *)
Definition paginated {A} (select : session D → list A) (page pageSize : Z) :
    M (session D) db_err (list A * Z) :=
  let offset := go_mul (wrap64 (page - 1)) pageSize in
  rows <- stmt (λ s,
    match limit_offset pageSize offset (select s) with
    | None => Err ErrDriver
    | Some rows => Ok ((rows, Z.of_nat (length (select s))), tables s)
    end) ;;
  match rows.1 with
  | [] => total <- query (λ s, Z.of_nat (length (select s))) ;; ret ([], total)
  | page_rows => ret (page_rows, rows.2)
  end.
End sql.

Lemma find_row_Some {A} (p : A → bool) (m : gmap string A) k x :
  find_row p m = Some (k, x) → m !! k = Some x ∧ p x = true.
Proof.
  unfold find_row. destruct (filter _ _) as [|y l] eqn:E; [done|]. cbn. intros [= ->].
  assert ((k, x) ∈ filter (λ kv, p kv.2 = true) (map_to_list m)) as Hin
    by (rewrite E; left).
  apply list_elem_of_filter in Hin as [Hp Hin]. by apply elem_of_map_to_list in Hin.
Qed.
Lemma find_row_None {A} (p : A → bool) (m : gmap string A) k x :
  find_row p m = None → m !! k = Some x → p x = false.
Proof.
  unfold find_row. intros Hf Hk. destruct (p x) eqn:E; [exfalso|done].
  assert ((k, x) ∈ filter (λ kv, p kv.2 = true) (map_to_list m)) as Hin.
  { apply list_elem_of_filter. split; [done|]. by apply elem_of_map_to_list. }
  destruct (filter _ _); [by apply elem_of_nil in Hin|done].
Qed.
Lemma has_row_false {A} (p : A → bool) (m : gmap string A) k x :
  has_row p m = false → m !! k = Some x → p x = false.
Proof.
  unfold has_row. rewrite bool_decide_eq_false. intros Hn.
  apply find_row_None. by destruct (find_row p m); [destruct Hn|].
Qed.

(** The shorthands keep what statements keep. *)
Section preserves_sql.
Context {D : Type} `{!Driver} (R : string → bool → relation D) `{!∀ t b, PreOrder (R t b)}.

Lemma preserves_or_not_found {A} (o : option A) : preserves R (or_not_found o).
Proof. destruct o; [by apply preserves_ret|by apply preserves_fail]. Qed.
Lemma preserves_affected n : preserves R (affected n).
Proof. unfold affected. destruct (n =? 0); [by apply preserves_fail|by apply preserves_ret]. Qed.
Lemma preserves_map_err {A} f (m : M (session D) db_err A) :
  preserves R m → preserves R (map_err f m).
Proof. intros Hm s. unfold map_err. specialize (Hm s). by destruct (m s) as [[]]. Qed.
Lemma preserves_query_then {A B} (f : session D → A) (k : A → M (session D) db_err B) :
  (∀ a, preserves R (k a)) → preserves R (bind (query f) k).
Proof. intros Hk. apply (preserves_bind R); [by apply preserves_query|done]. Qed.
Lemma preserves_paginated {A} (f : session D → list A) page size : preserves R (paginated f page size).
Proof.
  apply (preserves_bind R).
  - apply (preserves_stmt R). intros s a d Hf. destruct (limit_offset _ _ _); by simplify_eq.
  - intros [[|x l] n]; [|by apply preserves_ret].
    apply preserves_query_then. intros. by apply preserves_ret.
Qed.
End preserves_sql.

(** Two relations kept at once, and a coarser one. *)
Lemma preserves_and {D} `{!Driver} (R R' : string → bool → relation D) {A} (m : M (session D) db_err A) :
  preserves R m → preserves R' m → preserves (λ t b d d', R t b d d' ∧ R' t b d d') m.
Proof. intros Hm Hm' s. destruct (Hm s) as (? & ? & ?), (Hm' s) as (? & _). done. Qed.
Lemma preserves_mono {D} `{!Driver} (R R' : string → bool → relation D) {A} (m : M (session D) db_err A) :
  (∀ t b d d', R t b d d' → R' t b d d') → preserves R m → preserves R' m.
Proof. intros HR Hm s. destruct (Hm s) as (? & ? & ?). eauto. Qed.

(** A server that answers runs what it is asked, outside an aborted transaction. *)
Section runs.
Context {D : Type} `{!Driver} (answers : ∀ n, event_fails n = false).
Implicit Types c : session D.

Lemma stmt_runs {T} (f : session D → res db_err (T * D)) c a d :
  aborted c = false → f c = Ok (a, d) → stmt f c = (Ok a, set_tables d (bump c)).
Proof. intros Ha Hf. unfold stmt. by rewrite Ha, answers, Hf. Qed.
Lemma query_runs {T} (f : session D → T) c :
  aborted c = false → query f c = (Ok (f c), bump c).
Proof.
  intros Ha. unfold query. erewrite stmt_runs; [|done|reflexivity].
  unfold set_tables. by destruct c.
Qed.
Lemma query_then {T B} (f : session D → T) (k : T → M (session D) db_err B) c :
  aborted c = false → bind (query f) k c = k (f c) (bump c).
Proof. intros Ha. unfold bind. by rewrite query_runs. Qed.
Lemma stmt_then {T B} (f : session D → res db_err (T * D)) (k : T → M (session D) db_err B) c a d :
  aborted c = false → f c = Ok (a, d) → bind (stmt f) k c = k a (set_tables d (bump c)).
Proof. intros Ha Hf. unfold bind. by erewrite stmt_runs. Qed.
Lemma with_pool_tx_runs {T} (m : M (session D) db_err T) s a i :
  m (pool_conn s) = (Ok a, i) → aborted i = false →
  with_pool_tx m s = (Ok a, set_tables (tables i) (set_tick (S (tick i)) s)).
Proof.
  intros Hm Hi. unfold with_pool_tx. fold (pool_conn s). by rewrite answers, Hm, Hi, answers.
Qed.
End runs.
