(* ===== verification/Schema.v ===== *)
(** * The tenant-scoped tables (internal/db/migrations)

    Rows of services, integrations, incidents, incident_services,
    incident_updates, status_pages, status_page_services,
    status_page_service_groups and domains, with the columns the repositories of
    internal/db read and write, and one setter per table. *)

From stdpp Require Import numbers strings gmap.
From Stdlib Require Import ZArith Floats.
From S2P Require Import Prelude Db.

#[local] Open Scope Z_scope.

(** ** services *)

(** [ServiceReading]: the latest burn-rate reading of a service. *)
Record ServiceReading := {
  BurnShort : float;
  BurnLong : float;
  ShortErrors : Z;
  ShortRequests : Z;
  ReadAt : Z;
  ReadingLastErrorAt : option Z;
}.

(** [Service]: the columns of a services row.  A nullable text column the
    repositories read through COALESCE is its text, "" for NULL. *)
Record Service := {
  SvcID : string;
  SvcName : string;
  SLOID : string;
  SLOName : string;
  SLOType : string;
  DatadogServiceTag : string;
  Environment : string;
  MonitorMode : string;
  PollType : option string;
  PollTarget : option string;
  PollIntervalSeconds : option Z;
  CurrentStatus : string;
  LastStatusChangeAt : Z;
  StatusAnalysis : option string;
  LastBurnRateShort : option float;
  LastBurnRateLong : option float;
  LastWindowErrors : option Z;
  LastWindowRequests : option Z;
  LastReadingAt : option Z;
  SvcLastErrorAt : option Z;
}.

(** A row: the columns, its tenant and its soft-deletion time. *)
Record service_row := {
  svc_tenant : string;
  svc : Service;
  deleted_at : option Z;
}.

Definition set_svc (f : Service → Service) (r : service_row) : service_row :=
  {| svc_tenant := svc_tenant r; svc := f (svc r); deleted_at := deleted_at r |}.
Definition set_deleted_at (t : option Z) (r : service_row) : service_row :=
  {| svc_tenant := svc_tenant r; svc := svc r; deleted_at := t |}.

(** ** integrations, keyed by tenant (provider = 'datadog') *)

Record integration_row := {
  int_id : string;
  int_encrypted_api_key : string;
  int_encrypted_app_key : string;
  int_status : string;
  int_last_error : option string;
  int_last_checked_at : option Z;
}.
Definition set_health_marks (status : string) (lastError : option string) (now : Z) (r : integration_row) :
    integration_row :=
  {| int_id := int_id r; int_encrypted_api_key := int_encrypted_api_key r;
     int_encrypted_app_key := int_encrypted_app_key r; int_status := status; int_last_error := lastError;
     int_last_checked_at := Some now |}.

(** ** incidents, incident_services, incident_updates *)

Record Incident := {
  IncID : string;
  Title : string;
  IncStatus : string;
  CreatedAt : Z;
  ResolvedAt : option Z;
  Description : option string;
  PendingCloseComment : option string;
  AutoCreated : bool;
  Severity : string;
}.

Record incident_row := {
  inc_tenant : string;
  inc : Incident;
}.

Definition set_inc (f : Incident → Incident) (r : incident_row) : incident_row :=
  {| inc_tenant := inc_tenant r; inc := f (inc r) |}.

Record IncidentUpdate := {
  UpdID : string;
  UpdIncidentID : string;
  UpdBody : string;
  UpdCreatedAt : Z;
  AuthorID : option string;
  IsAISummary : bool;
}.

(** ** status_pages, status_page_services, status_page_service_groups *)

(** [StatusPage]: [SpTenantID] and [SpServiceIDs] are filled in by the reads that
    say so; a row keeps its tenant beside it and its links in a table of their
    own. *)
Record StatusPage := {
  SpID : string;
  SpTenantID : string;
  SpName : string;
  SpSubdomain : option string;
  SpDomainID : option string;
  SpState : string;
  SpTLSLastError : option string;
  SpEnvironment : string;
  SpCreatedAt : Z;
  SpServiceIDs : list string;
}.

Record page_row := {
  page_tenant : string;
  spage : StatusPage;
}.
Definition set_page (f : StatusPage → StatusPage) (r : page_row) : page_row :=
  {| page_tenant := page_tenant r; spage := f (spage r) |}.

(** A link of a page to a service: its group, parent service and position. *)
Record link_row := {
  link_group : option string;
  link_parent : option string;
  link_position : Z;
}.

Record StatusPageServiceGroup := {
  GrpID : string;
  GrpStatusPageID : string;
  GrpName : string;
  GrpPosition : Z;
  GrpCreatedAt : Z;
}.

Record group_row := {
  grp_tenant : string;
  grp : StatusPageServiceGroup;
}.

(** ** domains *)

Record Domain := {
  DomID : string;
  Hostname : string;
  DomCreatedAt : Z;
  DomainType : string;
  DomStatus : string;
  VerificationToken : string;
  VerifiedAt : option Z;
  DomLastError : option string;
  DomExpiresAt : option Z;
  Registrar : option string;
  ExpectedNS : option (list string);
  CurrentNS : option (list string);
  NSDriftDetected : bool;
  LastRDAPCheckAt : option Z;
  LastRDAPSuccessAt : option Z;
  RDAPLastError : option string;
}.

Record domain_row := {
  dom_tenant : string;
  dm : Domain;
}.
Definition set_dm (f : Domain → Domain) (r : domain_row) : domain_row :=
  {| dom_tenant := dom_tenant r; dm := f (dm r) |}.

(** ** The database *)

Record core := {
  services : gmap string service_row;
  status_page_services : gmap (string * string) link_row;  (* status_page_id, service_id *)
  integrations : gmap string integration_row;         (* by tenant_id *)
  incidents : gmap string incident_row;
  incident_services : list (string * string);         (* incident_id, service_id *)
  incident_updates : list IncidentUpdate;             (* oldest first *)
  status_pages : gmap string page_row;
  status_page_service_groups : gmap string group_row;
  domains : gmap string domain_row;
}.

Definition set_services (f : gmap string service_row → gmap string service_row)
    (d : core) : core :=
  {| services := f (services d); status_page_services := status_page_services d;
     integrations := integrations d; incidents := incidents d;
     incident_services := incident_services d; incident_updates := incident_updates d;
     status_pages := status_pages d;
     status_page_service_groups := status_page_service_groups d;
     domains := domains d |}.
Definition set_links (f : gmap (string * string) link_row → gmap (string * string) link_row)
    (d : core) : core :=
  {| services := services d; status_page_services := f (status_page_services d);
     integrations := integrations d; incidents := incidents d;
     incident_services := incident_services d; incident_updates := incident_updates d;
     status_pages := status_pages d;
     status_page_service_groups := status_page_service_groups d;
     domains := domains d |}.
Definition set_integrations (f : gmap string integration_row → gmap string integration_row)
    (d : core) : core :=
  {| services := services d; status_page_services := status_page_services d;
     integrations := f (integrations d); incidents := incidents d;
     incident_services := incident_services d; incident_updates := incident_updates d;
     status_pages := status_pages d;
     status_page_service_groups := status_page_service_groups d;
     domains := domains d |}.
Definition set_incidents (f : gmap string incident_row → gmap string incident_row)
    (d : core) : core :=
  {| services := services d; status_page_services := status_page_services d;
     integrations := integrations d; incidents := f (incidents d);
     incident_services := incident_services d; incident_updates := incident_updates d;
     status_pages := status_pages d;
     status_page_service_groups := status_page_service_groups d;
     domains := domains d |}.
Definition set_incident_services (f : list (string * string) → list (string * string))
    (d : core) : core :=
  {| services := services d; status_page_services := status_page_services d;
     integrations := integrations d; incidents := incidents d;
     incident_services := f (incident_services d); incident_updates := incident_updates d;
     status_pages := status_pages d;
     status_page_service_groups := status_page_service_groups d;
     domains := domains d |}.
Definition set_incident_updates (f : list IncidentUpdate → list IncidentUpdate)
    (d : core) : core :=
  {| services := services d; status_page_services := status_page_services d;
     integrations := integrations d; incidents := incidents d;
     incident_services := incident_services d; incident_updates := f (incident_updates d);
     status_pages := status_pages d;
     status_page_service_groups := status_page_service_groups d;
     domains := domains d |}.
Definition set_pages (f : gmap string page_row → gmap string page_row)
    (d : core) : core :=
  {| services := services d; status_page_services := status_page_services d;
     integrations := integrations d; incidents := incidents d;
     incident_services := incident_services d; incident_updates := incident_updates d;
     status_pages := f (status_pages d);
     status_page_service_groups := status_page_service_groups d;
     domains := domains d |}.
Definition set_groups (f : gmap string group_row → gmap string group_row)
    (d : core) : core :=
  {| services := services d; status_page_services := status_page_services d;
     integrations := integrations d; incidents := incidents d;
     incident_services := incident_services d; incident_updates := incident_updates d;
     status_pages := status_pages d;
     status_page_service_groups := f (status_page_service_groups d);
     domains := domains d |}.
Definition set_domains (f : gmap string domain_row → gmap string domain_row)
    (d : core) : core :=
  {| services := services d; status_page_services := status_page_services d;
     integrations := integrations d; incidents := incidents d;
     incident_services := incident_services d; incident_updates := incident_updates d;
     status_pages := status_pages d;
     status_page_service_groups := status_page_service_groups d;
     domains := f (domains d) |}.

(** The tables of a fresh installation. *)
Definition empty_core : core :=
  {| services := ∅; status_page_services := ∅; integrations := ∅; incidents := ∅;
     incident_services := []; incident_updates := []; status_pages := ∅;
     status_page_service_groups := ∅; domains := ∅ |}.

(** ** Tenant isolation

    [isolated t b d d']: a session of tenant [t] subject to row-level security
    ([b] false) turns [d] into [d'] without touching any row of another tenant:
    every service, integration and incident of another tenant is the same, and
    so is every timeline entry of another tenant's incident. *)

(** The timeline of one incident. *)
Definition timeline (i : string) (d : core) : list IncidentUpdate :=
  filter (λ u, UpdIncidentID u = i) (incident_updates d).

(** A row of tenant [u] is not the session's: no row is when the session has no
    tenant. *)
Definition foreign (t u : string) : Prop := t = "" ∨ u ≠ t.

Definition foreign_incident (t i : string) (d : core) : Prop :=
  match incidents d !! i with Some r => foreign t (inc_tenant r) | None => False end.

Record isolated_from (t : string) (d d' : core) : Prop := {
  iso_services : ∀ i r, foreign t (svc_tenant r) →
    services d !! i = Some r ↔ services d' !! i = Some r;
  iso_integrations : ∀ u, foreign t u → integrations d' !! u = integrations d !! u;
  iso_incidents : ∀ i r, foreign t (inc_tenant r) →
    incidents d !! i = Some r ↔ incidents d' !! i = Some r;
  iso_timeline : ∀ i, foreign_incident t i d → timeline i d' = timeline i d;
}.

Definition isolated (t : string) (bypass : bool) : relation core :=
  λ d d', bypass = false → isolated_from t d d'.

Lemma isolated_from_refl t d : isolated_from t d d.
Proof. split; done. Qed.

Lemma isolated_from_trans t d1 d2 d3 :
  isolated_from t d1 d2 → isolated_from t d2 d3 → isolated_from t d1 d3.
Proof.
  intros [S1 I1 N1 T1] [S2 I2 N2 T2]. split.
  - intros i r Hr. by rewrite S1, S2.
  - intros u Hu. by rewrite I2, I1.
  - intros i r Hr. by rewrite N1, N2.
  - intros i Hi. rewrite T2, T1; try done. revert Hi. unfold foreign_incident.
    destruct (incidents d1 !! i) as [r|] eqn:E; [|done]. intros Hr.
    apply N1 in E; [|done]. by rewrite E.
Qed.

#[global] Instance isolated_preorder t b : PreOrder (isolated t b).
Proof.
  split.
  - intros d _. apply isolated_from_refl.
  - intros d1 d2 d3 H1 H2 Hb. eapply isolated_from_trans; eauto.
Qed.

(** A session without a tenant touches nothing, so neither does a transaction
    opened on a fresh connection. *)
Lemma isolated_no_tenant t b d d' : isolated "" b d d' → isolated t b d d'.
Proof.
  intros H Hb. destruct (H Hb) as [HS HI HN HT]. split.
  - intros i r _. apply HS. by left.
  - intros u _. apply HI. by left.
  - intros i r _. apply HN. by left.
  - intros i Hi. apply HT. revert Hi. unfold foreign_incident.
    destruct (incidents d !! i); [by left|done].
Qed.

(** *** What a session may write *)

Section own_rows.
Context (t : string) (b : bool).
Implicit Types d : core.

(** [u] is a tenant the session may write for. *)
Definition writable (u : string) : Prop := b = false → u = t ∧ t ≠ "".

Lemma writable_not_foreign u : b = false → writable u → ¬ foreign t u.
Proof. intros Hb Hw [->|Hu]; destruct (Hw Hb); done. Qed.

Lemma isolated_insert_service d i r :
  writable (svc_tenant r) →
  (∀ r0, services d !! i = Some r0 → writable (svc_tenant r0)) →
  isolated t b d (set_services (<[i := r]>) d).
Proof.
  intros Hw H0 Hb. split; try done. intros j r' Hf. cbn.
  destruct (decide (j = i)) as [->|]; [|by rewrite lookup_insert_ne].
  rewrite lookup_insert_eq. split; intros E.
  - by destruct (writable_not_foreign _ Hb (H0 _ E)).
  - simplify_eq. by destruct (writable_not_foreign _ Hb Hw).
Qed.

Lemma isolated_imap_integrations d (f : string → integration_row → integration_row) :
  (∀ u r, f u r = r ∨ writable u) →
  isolated t b d (set_integrations (map_imap (λ u r, Some (f u r))) d).
Proof.
  intros Hf Hb. split; try done. intros u Hu. cbn.
  rewrite map_lookup_imap. destruct (integrations d !! u) as [r|]; [|done]. cbn.
  destruct (Hf u r) as [->|Hw]; [done|]. by destruct (writable_not_foreign _ Hb Hw).
Qed.

Lemma isolated_insert_incident d i r :
  writable (inc_tenant r) →
  (∀ r0, incidents d !! i = Some r0 → writable (inc_tenant r0)) →
  isolated t b d (set_incidents (<[i := r]>) d).
Proof.
  intros Hw H0 Hb. split; try done. intros j r' Hf. cbn.
  destruct (decide (j = i)) as [->|]; [|by rewrite lookup_insert_ne].
  rewrite lookup_insert_eq. split; intros E.
  - by destruct (writable_not_foreign _ Hb (H0 _ E)).
  - simplify_eq. by destruct (writable_not_foreign _ Hb Hw).
Qed.

Lemma isolated_incident_services d f : isolated t b d (set_incident_services f d).
Proof. by intros Hb. Qed.

(** A timeline entry for an incident the session may write. *)
Lemma isolated_append_update d u :
  (∀ r, incidents d !! UpdIncidentID u = Some r → writable (inc_tenant r)) →
  isolated t b d (set_incident_updates (λ l, l ++ [u]) d).
Proof.
  intros Hw Hb. split; try done. intros i. unfold foreign_incident, timeline. cbn.
  rewrite filter_app. destruct (decide (UpdIncidentID u = i)) as [<-|Hne].
  - destruct (incidents d !! UpdIncidentID u) as [r|] eqn:E; [|done].
    intros Hf. by destruct (writable_not_foreign _ Hb (Hw _ eq_refl)).
  - intros _. rewrite filter_cons_False by done. rewrite filter_nil. by rewrite app_nil_r.
Qed.
End own_rows.

#[export] Hint Resolve isolated_insert_service isolated_imap_integrations
  isolated_insert_incident isolated_incident_services isolated_append_update : vane.

Lemma visible_writable {D} (s : session D) u :
  visible s u = true → writable (app_tenant s) (bypass_rls s) u.
Proof. intros Hv Hb. apply visible_own in Hv as [-> ?]; done. Qed.

Lemma default_tenant_writable {D} (s : session D) u :
  default_tenant s = Ok u → writable (app_tenant s) (bypass_rls s) u.
Proof.
  unfold default_tenant, writable. destruct (String.eqb_spec (app_tenant s) ""); [done|].
  intros [= <-] _. done.
Qed.

#[export] Hint Resolve visible_writable default_tenant_writable : vane.

(** ** What a tenant sees of others' work *)

(** Nothing of tenant [u] differs. *)
Record untouched (u : string) (d d' : core) : Prop := {
  ut_services : ∀ i r, svc_tenant r = u → services d !! i = Some r ↔ services d' !! i = Some r;
  ut_integrations : integrations d' !! u = integrations d !! u;
  ut_incidents : ∀ i r, inc_tenant r = u → incidents d !! i = Some r ↔ incidents d' !! i = Some r;
  ut_timeline : ∀ i r, incidents d !! i = Some r → inc_tenant r = u → timeline i d' = timeline i d;
}.

#[global] Instance untouched_preorder u : PreOrder (untouched u).
Proof.
  split.
  - intros d. split; done.
  - intros d1 d2 d3 [S1 I1 N1 T1] [S2 I2 N2 T2]. split.
    + intros i r Hr. by rewrite S1, S2.
    + by rewrite I2.
    + intros i r Hr. by rewrite N1, N2.
    + intros i r Hi Hr. rewrite (T2 i r), (T1 i r); [done..| |done]. by apply N1.
Qed.

Lemma isolated_untouched t u d d' : isolated_from t d d' → foreign t u → untouched u d d'.
Proof.
  intros [HS HI HN HT] Hu. split.
  - intros i r <-. by apply HS.
  - by apply HI.
  - intros i r <-. by apply HN.
  - intros i r Hi <-. apply HT. unfold foreign_incident. by rewrite Hi.
Qed.
