(* ===== verification/BurnRate.v ===== *)
(** * Multi-window burn-rate classification (internal/poller/burn_rate.go)

    The classifier the poller runs once per service and cycle.  It is pure, so
    each Go function is one Gallina function of the same name; statuses are the
    strings the code uses, counts are int64 values, burn rates are float64. *)

From stdpp Require Import numbers strings.
From Stdlib Require Import ZArith Lia Floats.
From S2P Require Import Prelude GoNum GoFloat.

#[local] Open Scope Z_scope.

(** ** Constants *)

Definition shortWindow : Z := 5 * minute.
Definition longWindow : Z := hour.
#[local] Set Warnings "-inexact-float".
Definition outageBurnRate : float := 14.4%float.
Definition degradedBurnRate : float := 7.2%float.
Definition minShortWindowErrors : Z := 3.
Definition zeroTrafficGrace : Z := 15 * minute.

(** ** Definitions *)

Record windowCounts := WindowCounts { Requests : Z; Errors : Z }.

#[global] Instance windowCounts_eq_dec : EqDecision windowCounts.
Proof. solve_decision. Defined.

Definition burnRate (errors requests : Z) (target : float) : float :=
  if requests <=? 0 then 0%float
  else
    let errors := if errors <? 0 then 0 else errors in
    let errors := if requests <? errors then requests else errors in
    let budget := (1 - target / 100)%float in
    if (budget <=? 0)%float then
      if 0 <? errors then math_Inf1 else 0%float
    else ((float_of_int64 errors / float_of_int64 requests) / budget)%float.

Record burnInput := BurnInput {
  Short : windowCounts;
  Long : windowCounts;
  Target : float;
  Previous : string;
  LastErrorAt : option Z;
  LastChangeAt : Z;
  Now : Z;
}.

(** The long burn rate the classifier (and the persisted reading) uses: the
    short one when the long window is empty. *)
Definition classifyWindows (short long : windowCounts) (target : float) : string :=
  let shortBurn := burnRate (Errors short) (Requests short) target in
  let longBurn :=
    if 0 <? Requests long then burnRate (Errors long) (Requests long) target
    else shortBurn in
  let shortErrors := Z.min (Z.max (Errors short) 0) (Requests short) in
  if shortErrors <? minShortWindowErrors then "operational"
  else if fge shortBurn outageBurnRate && fge longBurn outageBurnRate then "outage"
  else if fge shortBurn degradedBurnRate && fge longBurn degradedBurnRate then "degraded"
  else "operational".

Definition classifyBurn (i : burnInput) : string :=
  if Requests (Short i) <=? 0 then
    if String.eqb (Previous i) "not_configured" then
      if Requests (Long i) <=? 0 then "not_configured"
      else classifyWindows (Long i) (Long i) (Target i)
    else if String.eqb (Previous i) "outage" || String.eqb (Previous i) "degraded" then
      let since := match LastErrorAt i with Some t => t | None => LastChangeAt i end in
      if zeroTrafficGrace <=? time_sub (Now i) since then "operational"
      else Previous i
    else "operational"
  else classifyWindows (Short i) (Long i) (Target i).

(** The order of alarm levels. *)
Definition severity (status : string) : nat :=
  if String.eqb status "outage" then 2
  else if String.eqb status "degraded" then 1 else 0.

(** ** Lemmas *)

Lemma outage_ge_degraded x : fge x outageBurnRate = true → fge x degradedBurnRate = true.
Proof. intros H. by apply (fge_trans _ outageBurnRate). Qed.

Lemma severity_mono_if (o d o' d' : bool) :
  (o = true → o' = true) → (d = true → d' = true) → (o = true → d = true) →
  (severity (if o then "outage" else if d then "degraded" else "operational") ≤
   severity (if o' then "outage" else if d' then "degraded" else "operational"))%nat.
Proof.
  destruct o, d, o', d'; simpl; intros H1 H2 H3;
    try (specialize (H1 eq_refl)); try (specialize (H2 eq_refl));
    try (specialize (H3 eq_refl)); try done; cbn; lia.
Qed.

Lemma both_ge_mono x y x' y' c :
  fge x' x = true → fge y' y = true →
  fge x c && fge y c = true → fge x' c && fge y' c = true.
Proof. rewrite !andb_true_iff. intros ?? [? ?]. eauto using fge_trans. Qed.

Lemma both_ge_weaken x y :
  fge x outageBurnRate && fge y outageBurnRate = true →
  fge x degradedBurnRate && fge y degradedBurnRate = true.
Proof. rewrite !andb_true_iff. intros [? ?]. eauto using outage_ge_degraded. Qed.

(** What an alarm of [classifyWindows] rests on. *)
Definition burning (short long : windowCounts) (target : float) (threshold : float) : Prop :=
  minShortWindowErrors ≤ Errors short ∧ minShortWindowErrors ≤ Requests short ∧
  fge (burnRate (Errors short) (Requests short) target) threshold = true ∧
  (0 < Requests long →
   fge (burnRate (Errors long) (Requests long) target) threshold = true).

Lemma classifyWindows_evidence s l t :
  (classifyWindows s l t = "outage" ∧ burning s l t outageBurnRate) ∨
  (classifyWindows s l t = "degraded" ∧ burning s l t degradedBurnRate) ∨
  classifyWindows s l t = "operational".
Proof.
  unfold classifyWindows, burning, minShortWindowErrors.
  destruct (Z.ltb_spec (Z.min (Z.max (Errors s) 0) (Requests s)) 3); [by auto|].
  destruct (Z.ltb_spec 0 (Requests l));
    (destruct (fge _ outageBurnRate && fge _ outageBurnRate) eqn:H1;
     [left|destruct (fge _ degradedBurnRate && fge _ degradedBurnRate) eqn:H2;
       [right; left|by auto]]);
    rewrite ?andb_true_iff in *; split; try done; split_and!; try lia; naive_solver.
Qed.

Lemma burnRate_skew e r t : r ≤ e → burnRate e r t = burnRate r r t.
Proof.
  intros He. unfold burnRate. destruct (Z.leb_spec r 0); [done|].
  rewrite (proj2 (Z.ltb_ge e 0)), (proj2 (Z.ltb_ge r 0)), Z.ltb_irrefl by lia.
  destruct (Z.ltb_spec r e); [done|]. by replace e with r by lia.
Qed.

(** ** Properties *)

(** An alarm level and its threshold. *)
Lemma classifyWindows_burning s l t threshold :
  (classifyWindows s l t = "degraded" ∧ threshold = degradedBurnRate) ∨
  (classifyWindows s l t = "outage" ∧ threshold = outageBurnRate) →
  burning s l t threshold.
Proof.
  destruct (classifyWindows_evidence s l t) as [[-> H]|[[-> H]| ->]];
    intros [[E ->]|[E ->]]; by try discriminate E.
Qed.

(** C28: what an alarm rests on.  When [classifyBurn] answers "degraded" or
    "outage", one of three holds: the short window has traffic, at least three
    requests and three errors, and both windows that have traffic burn at or above
    that level's threshold; or the service was "not_configured", its short window is
    empty and its long window alone carries that evidence; or the short window is
    empty and the status is the previous one, held for less than the 15-minute
    zero-traffic grace. *)
Theorem classifyBurn_alarm_evidence i threshold :
  (classifyBurn i = "degraded" ∧ threshold = degradedBurnRate) ∨
  (classifyBurn i = "outage" ∧ threshold = outageBurnRate) →
  (0 < Requests (Short i) ∧ burning (Short i) (Long i) (Target i) threshold) ∨
  (Requests (Short i) ≤ 0 ∧ Previous i = "not_configured" ∧
     burning (Long i) (Long i) (Target i) threshold) ∨
  (Requests (Short i) ≤ 0 ∧ classifyBurn i = Previous i ∧
     time_sub (Now i) (default (LastChangeAt i) (LastErrorAt i)) < zeroTrafficGrace).
Proof.
  unfold classifyBurn. destruct (Z.leb_spec (Requests (Short i)) 0) as [Hs|Hs].
  - destruct (String.eqb_spec (Previous i) "not_configured") as [Hp|Hp].
    + destruct (Z.leb_spec (Requests (Long i)) 0); [by intros [[[=] _]|[[=] _]]|].
      intros Ha. apply classifyWindows_burning in Ha. auto with lia.
    + destruct (String.eqb (Previous i) "outage" || _); [|by intros [[[=] _]|[[=] _]]].
      change (match LastErrorAt i with Some t => t | None => LastChangeAt i end)
        with (default (LastChangeAt i) (LastErrorAt i)).
      destruct (Z.leb_spec zeroTrafficGrace (time_sub (Now i) (default (LastChangeAt i) (LastErrorAt i)))); [by intros [[[=] _]|[[=] _]]|auto].
  - intros Ha. apply classifyWindows_burning in Ha. auto.
Qed.

Lemma classifyBurn_alarm_evidence_witness :
  let i := BurnInput (WindowCounts 100 20) (WindowCounts 1000 150) 99%float
             "operational" None 0 (10 * minute) in
  classifyBurn i = "outage" ∧
  ((0 < Requests (Short i) ∧ burning (Short i) (Long i) (Target i) outageBurnRate) ∨
   (Requests (Short i) ≤ 0 ∧ Previous i = "not_configured" ∧
      burning (Long i) (Long i) (Target i) outageBurnRate) ∨
   (Requests (Short i) ≤ 0 ∧ classifyBurn i = Previous i ∧
      time_sub (Now i) (default (LastChangeAt i) (LastErrorAt i)) < zeroTrafficGrace)).
Proof.
  intros i. split; [vm_compute; reflexivity|].
  apply (classifyBurn_alarm_evidence i outageBurnRate).
  right. split; vm_compute; reflexivity.
Defined.

(** the classification is monotone in both burn rates.  With enough errors
    in the short window, raising the short burn rate and the long burn rate (as
    float64 comparisons see them) never lowers the alarm level. *)
Theorem classifyWindows_monotone s l s' l' t t' :
  0 < Requests l → 0 < Requests l' →
  minShortWindowErrors ≤ Z.min (Errors s') (Requests s') →
  fge (burnRate (Errors s') (Requests s') t') (burnRate (Errors s) (Requests s) t) = true →
  fge (burnRate (Errors l') (Requests l') t') (burnRate (Errors l) (Requests l) t) = true →
  (severity (classifyWindows s l t) ≤ severity (classifyWindows s' l' t'))%nat.
Proof.
  intros Hl Hl' He Hsb Hlb. unfold classifyWindows.
  rewrite (proj2 (Z.ltb_lt 0 (Requests l)) Hl), (proj2 (Z.ltb_lt 0 (Requests l')) Hl').
  rewrite (proj2 (Z.ltb_ge (Z.min (Z.max (Errors s') 0) (Requests s')) _)) by lia.
  destruct (Z.ltb_spec (Z.min (Z.max (Errors s) 0) (Requests s)) minShortWindowErrors);
    [cbn; lia|].
  apply severity_mono_if; eauto using both_ge_mono, both_ge_weaken.
Qed.

Lemma classifyWindows_monotone_witness :
  (severity (classifyWindows (WindowCounts 100 4) (WindowCounts 1000 40) 99.5%float) ≤
   severity (classifyWindows (WindowCounts 100 9) (WindowCounts 1000 90) 99.5%float))%nat.
Proof. apply (classifyWindows_monotone); vm_compute; congruence. Defined.

(** a burn rate is a number.  For any int64 counts and any target whose
    error budget is finite and not a NaN, [burnRate] is a float64 at least zero
    (possibly +Inf on a zero budget), never a NaN; and errors beyond the number
    of requests count as all requests failing. *)
Theorem burnRate_nonneg e r t :
  e ≤ int64_max → r ≤ int64_max →
  (match Prim2SF (1 - t / 100)%float with S754_finite _ _ _ | S754_zero _ => True | _ => False end) →
  fge (burnRate e r t) 0%float = true ∧ (r ≤ e → burnRate e r t = burnRate r r t).
Proof.
  unfold int64_max. intros He Hr Hb. split; [|apply burnRate_skew].
  apply fnonneg_fge. unfold burnRate.
  destruct (Z.leb_spec r 0); [done|].
  set (e1 := if e <? 0 then 0 else e). set (e' := if r <? e1 then r else e1).
  assert (0 ≤ e' ≤ r) as He'.
  { subst e' e1. destruct (Z.ltb_spec e 0);
      (match goal with |- context [r <? ?x] => destruct (Z.ltb_spec r x) end); lia. }
  destruct (1 - t / 100 <=? 0)%float eqn:Hbud; [by destruct (0 <? e')|].
  destruct (float_of_int64_pos r) as (m & x & Hrf); [lia|].
  rewrite FloatAxioms.leb_spec in Hbud. change (Prim2SF 0%float) with (S754_zero false) in Hbud.
  destruct (Prim2SF (1 - t / 100)%float) as [|?| |[] m' x'] eqn:Hbf; try done.
  eapply fdiv_nonneg; [|exact Hbf]. eapply fdiv_nonneg; [|exact Hrf].
  apply float_of_int64_nonneg. lia.
Qed.

Lemma burnRate_nonneg_witness :
  fge (burnRate 7 3 99.5%float) 0%float = true ∧
  (3 ≤ 7 → burnRate 7 3 99.5%float = burnRate 3 3 99.5%float).
Proof.
  apply (burnRate_nonneg 7 3 99.5%float); [vm_compute; discriminate..|].
  vm_compute. exact I.
Defined.

(** the documented thresholds are not met exactly in float64.  A window
    that fails 72 of 1000 requests against a 99.5% target burns its budget at
    exactly 14.4 times the allowed rate (72/1000 = 14.4 * (1 - 99.5/100) as
    rationals, here multiplied out), the documented outage threshold, and is
    classified "degraded"; at exactly 7.2 times it is "operational": the rounded
    budget [1 - 99.5/100] is slightly too large. *)
Theorem exact_threshold_not_reached :
  72 * (10 * 1000) = 144 * (1000 * (1000 - 995)) ∧
  classifyWindows (WindowCounts 1000 72) (WindowCounts 1000 72) 99.5%float = "degraded" ∧
  36 * (10 * 1000) = 72 * (1000 * (1000 - 995)) ∧
  classifyWindows (WindowCounts 1000 36) (WindowCounts 1000 36) 99.5%float = "operational".
Proof. split_and!; vm_compute; reflexivity. Qed.
