(* ===== verification/Retry.v ===== *)
(** * Fetching with retries (internal/poller/retry.go)

    [retryFetch] over an arbitrary provider: [fetch] is the provider call and
    [wait] the backoff [select], both acting on a caller-chosen state, so the
    component is used as it is by the poller's model. *)

From stdpp Require Import numbers list strings.
From Stdlib Require Import ZArith Lia.
From S2P Require Import Prelude GoNum.

#[local] Open Scope Z_scope.

(** The errors of a provider call, as far as [errors.Is] tells them apart. *)
Inductive fetch_err :=
| ErrUnauthorized
| ErrTimeout
| ErrServer
| ErrSLONotFound
| ErrCanceled               (* ctx.Err() *)
| ErrOther (msg : string).

#[global] Instance fetch_err_eq_dec : EqDecision fetch_err.
Proof. solve_decision. Defined.

Definition backoffBase : Z := 500 * millisecond.

Definition isTransient (e : fetch_err) : bool :=
  match e with ErrTimeout | ErrServer => true | _ => false end.

Section retry.
Context {S T : Type}.
(** The provider call of one attempt. *)
Variable fetch : S → res fetch_err T * S.
(** The backoff wait of the given length: [true] when the timer fires,
    [false] when the context is done first. *)
Variable wait : Z → S → bool * S.
(** [T]'s zero value. *)
Variable zero : T.

(** The loop body from [attempt], with [left] attempts still allowed and the
    last error seen; an exhausted loop returns [zero, lastErr], which is a
    success when no attempt was ever made. *)
Fixpoint retry_loop (left : nat) (attempt maxAttempts : Z) (lastErr : option fetch_err)
    (s : S) : res fetch_err T * S :=
  match left with
  | O => (match lastErr with None => Ok zero | Some e => Err e end, s)
  | Datatypes.S left' =>
      match fetch s with
      | (Ok result, s1) => (Ok result, s1)
      | (Err e, s1) =>
          if negb (isTransient e) then (Err e, s1)
          else if attempt <? maxAttempts then
            let delay := go_mul backoffBase (wrap64 (Z.shiftl 1 (attempt - 1))) in
            match wait delay s1 with
            | (true, s2) => retry_loop left' (attempt + 1) maxAttempts (Some e) s2
            | (false, s2) => (Err ErrCanceled, s2)
            end
          else retry_loop left' (attempt + 1) maxAttempts (Some e) s1
      end
  end.

Definition retryFetch (maxAttempts : Z) (s : S) : res fetch_err T * S :=
  retry_loop (Z.to_nat maxAttempts) 1 maxAttempts None s.
End retry.

(** ** A scripted provider

    The provider's answers one after the other, whether each backoff wait runs
    to its end, and the log of what the loop did. *)
Record script (T : Type) := Script {
  answers : list (res fetch_err T);
  timer_fires : list bool;
  ncalls : nat;
  delays : list Z;
}.
Arguments Script {T} _ _ _ _.
Arguments answers {T} _.
Arguments timer_fires {T} _.
Arguments ncalls {T} _.
Arguments delays {T} _.

Definition script_fetch {T} (s : script T) : res fetch_err T * script T :=
  (default (Err ErrTimeout) (head (answers s)),
   Script (tail (answers s)) (timer_fires s) (Datatypes.S (ncalls s)) (delays s)).

Definition script_wait {T} (d : Z) (s : script T) : bool * script T :=
  (default true (head (timer_fires s)),
   Script (answers s) (tail (timer_fires s)) (ncalls s) (delays s ++ [d])).

(** What a caller wants of [n] attempts: the first answer that is not a
    transient error, and the last answer when all of them are. *)
Fixpoint first_settled {T} (n : nat) (l : list (res fetch_err T)) : res fetch_err T :=
  match n, l with
  | Datatypes.S (Datatypes.S n' as n1), (Err e as r) :: l' =>
      if isTransient e then first_settled n1 l' else r
  | _, r :: _ => r
  | _, [] => Err ErrTimeout
  end.

(** The backoff before attempt [k + 2], 500 ms doubled [k] times. *)
Definition backoff (k : Z) : Z := backoffBase * 2 ^ k.

(** ** Lemmas *)

Lemma script_fetch_eq {T} (s s1 : script T) r :
  script_fetch s = (r, s1) →
  r = default (Err ErrTimeout) (head (answers s)) ∧ answers s1 = tail (answers s) ∧
  timer_fires s1 = timer_fires s ∧ ncalls s1 = Datatypes.S (ncalls s) ∧ delays s1 = delays s.
Proof. unfold script_fetch. intros. by simplify_eq. Qed.

Lemma script_wait_eq {T} d (s s1 : script T) b :
  script_wait d s = (b, s1) →
  b = default true (head (timer_fires s)) ∧ answers s1 = answers s ∧
  timer_fires s1 = tail (timer_fires s) ∧ ncalls s1 = ncalls s ∧ delays s1 = delays s ++ [d].
Proof. unfold script_wait. intros. by simplify_eq. Qed.

(** The number of attempts never exceeds the allowance, whatever the provider
    and the timers do. *)
Lemma retry_loop_calls {T} (zero : T) left a m le (s : script T) :
  (ncalls s + min 1 left ≤ ncalls (retry_loop script_fetch script_wait zero left a m le s).2
   ≤ ncalls s + left)%nat.
Proof.
  revert a le s. induction left as [|left IH]; intros a le s; [simpl; lia|].
  cbn [retry_loop]. destruct (script_fetch s) as [[r|e] s1] eqn:F;
    apply script_fetch_eq in F as (_ & _ & _ & Hc & _); [simpl; lia|].
  destruct (isTransient e); [|simpl; lia]. cbn [negb].
  destruct (a <? m); [|specialize (IH (a + 1) (Some e) s1); lia].
  destruct (script_wait _ s1) as [[] s2] eqn:W;
    apply script_wait_eq in W as (_ & _ & _ & Hc2 & _); [|simpl; lia].
  specialize (IH (a + 1) (Some e) s2). lia.
Qed.

Lemma backoff_no_overflow k :
  0 ≤ k ≤ 33 → go_mul backoffBase (wrap64 (Z.shiftl 1 k)) = backoff k.
Proof.
  intros. rewrite Z.shiftl_1_l. assert (2 ^ k ≤ 2 ^ 33) by (apply Z.pow_le_mono_r; lia).
  assert (0 < 2 ^ k) by (apply Z.pow_pos_nonneg; lia).
  unfold go_mul, backoff, backoffBase, millisecond, nanosecond.
  rewrite (wrap64_id (2 ^ k)) by (unfold in_int64, int64_min, int64_max; lia).
  apply wrap64_id. unfold in_int64, int64_min, int64_max. lia.
Qed.

(** With no cancellation the loop gives the first settled answer, waiting the
    doubled backoffs in between. *)
Lemma retry_loop_spec {T} (zero : T) left a m le (s : script T) :
  timer_fires s = [] → (0 < left)%nat → m = a + Z.of_nat left - 1 → 1 ≤ a → m ≤ 34 →
  let '(r, s') := retry_loop script_fetch script_wait zero left a m le s in
  r = first_settled left (answers s) ∧
  delays s' = delays s ++
    (backoff <$> seqZ (a - 1) (Z.of_nat (ncalls s') - Z.of_nat (ncalls s) - 1)).
Proof.
  revert a le s. induction left as [|left IH]; intros a le s Ht Hl Hm Ha Hm'; [lia|].
  cbn [retry_loop]. destruct (script_fetch s) as [r0 s1] eqn:F.
  apply script_fetch_eq in F as (Hr & Hans & Ht1 & Hc & Hd).
  assert (delays s1 = delays s ++ (backoff <$> seqZ (a - 1)
    (Z.of_nat (ncalls s1) - Z.of_nat (ncalls s) - 1))) as Hstop.
  { rewrite Hc, Hd, seqZ_nil by lia. by rewrite app_nil_r. }
  destruct r0 as [r|e].
  { split; [|done]. destruct (answers s) as [|[] ?]; simplify_eq/=. by destruct left. }
  destruct (isTransient e) eqn:He; cbn [negb].
  2:{ split; [|done]. destruct (answers s) as [|[] ?]; simplify_eq/=.
      destruct left; [done|]. by rewrite He. }
  destruct left as [|left].
  { rewrite (proj2 (Z.ltb_ge _ _)) by lia. cbn [retry_loop]. split; [|done].
    destruct (answers s) as [|[] ?]; by simplify_eq/=. }
  rewrite (proj2 (Z.ltb_lt _ _)) by lia.
  destruct (script_wait _ s1) as [b s2] eqn:W.
  apply script_wait_eq in W as (Hb & Hans2 & Ht2 & Hc2 & Hd2).
  rewrite Ht1, Ht in Hb. simpl in Hb. subst b.
  specialize (IH (a + 1) (Some e) s2).
  pose proof (retry_loop_calls zero (Datatypes.S left) (a + 1) m (Some e) s2) as Hcalls.
  destruct (retry_loop _ _ _ (Datatypes.S left) (a + 1) m (Some e) s2) as [r s'].
  simpl in Hcalls. destruct IH as [-> Hdel]; [by rewrite Ht2, Ht1, Ht|lia..|].
  split.
  - rewrite Hans2, Hans. destruct (answers s) as [|r1 l]; simplify_eq/=; [|by rewrite He].
    destruct left; done.
  - rewrite Hdel, Hd2, Hd, backoff_no_overflow by lia.
    rewrite (seqZ_cons (a - 1)) by lia. rewrite <- app_assoc. cbn.
    do 3 f_equal. f_equal; lia.
Qed.

(** ** Properties *)

(** retrying is bounded, transparent and exponentially spaced.  Whatever the
    provider answers, [retryFetch] calls it at least once and at most
    [maxAttempts] times; when the context is not cancelled the result is the
    first answer that is not a transient error (the last one when all attempts
    were transient), and the waits between the calls are 500 ms, 1 s, 2 s, ...
    with no overflow. *)
Theorem retryFetch_spec {T} (zero : T) m (s : script T) :
  1 ≤ m ≤ 34 →
  let '(r, s') := retryFetch script_fetch script_wait zero m s in
  let calls := Z.of_nat (ncalls s') - Z.of_nat (ncalls s) in
  1 ≤ calls ≤ m ∧
  (timer_fires s = [] →
   r = first_settled (Z.to_nat m) (answers s) ∧
   delays s' = delays s ++ (backoff <$> seqZ 0 (calls - 1))).
Proof.
  intros Hm. unfold retryFetch.
  pose proof (retry_loop_calls zero (Z.to_nat m) 1 m None s) as Hc.
  pose proof (retry_loop_spec zero (Z.to_nat m) 1 m None s) as Hs.
  destruct (retry_loop _ _ _ _ _ _ _ s) as [r s']. cbn [snd] in Hc.
  split; [lia|]. intros Ht. apply Hs; try done; lia.
Qed.

Lemma retryFetch_spec_witness :
  let s := Script [Err ErrTimeout; Err ErrServer; Ok 7] [] 0 [] in
  let '(r, s') := retryFetch script_fetch script_wait 0 3 s in
  let calls := Z.of_nat (ncalls s') - Z.of_nat (ncalls s) in
  1 ≤ calls ≤ 3 ∧
  (timer_fires s = [] →
   r = first_settled (Z.to_nat 3) (answers s) ∧
   delays s' = delays s ++ (backoff <$> seqZ 0 (calls - 1))).
Proof. apply (retryFetch_spec 0 3). split; vm_compute; discriminate. Defined.

(** an error that is not transient, a rejected credential above all, is
    returned after exactly one call and without waiting. *)
Theorem retryFetch_permanent {T} (zero : T) m (s : script T) e l :
  1 ≤ m → answers s = Err e :: l → isTransient e = false →
  retryFetch script_fetch script_wait zero m s = (Err e, (script_fetch s).2).
Proof.
  intros Hm Ha He. unfold retryFetch.
  destruct (Z.to_nat m) eqn:E; [lia|]. cbn [retry_loop].
  unfold script_fetch. rewrite Ha. cbn. by rewrite He.
Qed.

Lemma retryFetch_permanent_witness :
  let s := Script (T := Z) [Err ErrUnauthorized; Ok 1] [] 0 [] in
  retryFetch script_fetch script_wait 0 3 s = (Err ErrUnauthorized, (script_fetch s).2).
Proof.
  intros s. apply (retryFetch_permanent 0 3 s ErrUnauthorized [Ok 1]);
    [lia|reflexivity|reflexivity].
Defined.
