(* ===== verification/Services.v ===== *)
(** * Services (internal/db/service_repository.go, integration_repository.go)

    The [services] table's operations, statement by statement, on a session:
    the reads the poller makes, the writes of the admin API and of the poller,
    and the two marks the poller leaves on the tenant's Datadog integration.
    An operation outside [SoftDelete] and [UpdateWithMetadata] is one statement
    on the caller's session; those two open a transaction of their own. *)

From stdpp Require Import numbers strings gmap sorting list.
From Stdlib Require Import ZArith Floats.
From S2P Require Import Prelude GoNum Db Schema.

#[local] Open Scope Z_scope.
#[local] Open Scope go_scope.

Section services.
Context `{!Driver}.

(** Whether a session sees the row, and whether the row is live. *)
Definition row_visible (s : session core) (r : service_row) : bool :=
  visible s (svc_tenant r).
Definition live (r : service_row) : bool :=
  match deleted_at r with None => true | Some _ => false end.
Definition any_row (_ : service_row) : bool := true.

(** NULLIF($n, '') read back through COALESCE(..., ''): the text itself. *)
Definition nullif_empty (x : string) : string := x.

(** ** CHECK constraints (migrations 0034 and 0047) *)

Definition environments : list string := [""; "development"; "staging"; "production"].
Definition poll_types : list string := ["http"; "tcp"; "ping"].

Definition poll_type_check (x : Service) : bool :=
  match PollType x with None => true | Some t => bool_decide (t ∈ poll_types) end.
(** slo_id is never NULL in the slo branch and always NULL in the polling one. *)
Definition mode_fields_check (x : Service) : bool :=
  if String.eqb (MonitorMode x) "polling" then
    match PollType x, PollTarget x, PollIntervalSeconds x with
    | Some _, Some _, Some _ => String.eqb (SLOID x) ""
    | _, _, _ => false
    end
  else String.eqb (MonitorMode x) "slo" &&
    match PollType x, PollTarget x, PollIntervalSeconds x with
    | None, None, None => true
    | _, _, _ => false
    end.
Definition environment_check (x : Service) : bool :=
  bool_decide (Environment x ∈ environments).
Definition service_checks (x : Service) : bool :=
  poll_type_check x && mode_fields_check x && environment_check x.

(** ** Create *)

(** The row the INSERT of [Create] adds. *)
Definition inserted_service (id : string) (now : Z) (x : Service) : Service :=
  if String.eqb (MonitorMode x) "polling" then
    {| SvcID := id; SvcName := SvcName x; SLOID := ""; SLOName := ""; SLOType := "";
       DatadogServiceTag := ""; Environment := Environment x; MonitorMode := "polling";
       PollType := PollType x; PollTarget := PollTarget x;
       PollIntervalSeconds := PollIntervalSeconds x;
       CurrentStatus := "not_configured"; LastStatusChangeAt := now; StatusAnalysis := None;
       LastBurnRateShort := None; LastBurnRateLong := None; LastWindowErrors := None;
       LastWindowRequests := None; LastReadingAt := None; SvcLastErrorAt := None |}
  else
    {| SvcID := id; SvcName := SvcName x; SLOID := SLOID x; SLOName := SLOName x;
       SLOType := nullif_empty (SLOType x);
       DatadogServiceTag := nullif_empty (DatadogServiceTag x);
       Environment := Environment x; MonitorMode := "slo";
       PollType := None; PollTarget := None; PollIntervalSeconds := None;
       CurrentStatus := "not_configured"; LastStatusChangeAt := now; StatusAnalysis := None;
       LastBurnRateShort := None; LastBurnRateLong := None; LastWindowErrors := None;
       LastWindowRequests := None; LastReadingAt := None; SvcLastErrorAt := None |}.

(** [Create] fills in the generated columns of its argument, which keeps the
    fields the INSERT did not use. *)
Definition created_service (id : string) (row x : Service) : Service :=
  {| SvcID := id; SvcName := SvcName x; SLOID := SLOID x; SLOName := SLOName x;
     SLOType := SLOType x; DatadogServiceTag := DatadogServiceTag x;
     Environment := Environment x;
     MonitorMode := if String.eqb (MonitorMode x) "polling" then MonitorMode x else "slo";
     PollType := PollType x; PollTarget := PollTarget x;
     PollIntervalSeconds := PollIntervalSeconds x;
     CurrentStatus := CurrentStatus row; LastStatusChangeAt := LastStatusChangeAt row;
     StatusAnalysis := StatusAnalysis x;
     LastBurnRateShort := LastBurnRateShort x; LastBurnRateLong := LastBurnRateLong x;
     LastWindowErrors := LastWindowErrors x; LastWindowRequests := LastWindowRequests x;
     LastReadingAt := LastReadingAt x; SvcLastErrorAt := SvcLastErrorAt x |}.

Definition Create (x : Service) : M (session core) db_err Service :=
  stmt (λ s,
    let id := gen_uuid (tick s) in
    let row := inserted_service id (sql_now s) x in
    match default_tenant s with
    | Err e => Err e
    | Ok t =>
        if negb (service_checks row) then Err ErrCheck
        else match services (tables s) !! id with
             | Some _ => Err ErrUnique
             | None =>
                 Ok (created_service id row x,
                     set_services (<[id := {| svc_tenant := t; svc := row; deleted_at := None |}]>)
                       (tables s))
             end
    end).

(** ** Reads *)

Definition Get (id : string) : M (session core) db_err (option Service) :=
  query (λ s,
    match services (tables s) !! id with
    | Some r => if row_visible s r && live r then Some (svc r) else None
    | None => None
    end).

(** ORDER BY name. *)
Definition by_name (x y : Service) : Prop := Is_true (text_le (SvcName x) (SvcName y)).
#[global] Instance by_name_dec x y : Decision (by_name x y).
Proof. unfold by_name. apply _. Defined.

Definition select_services (p : service_row → bool) (s : session core) : list Service :=
  merge_sort by_name
    (svc <$> (filter (λ r, row_visible s r && live r && p r = true)
                (snd <$> map_to_list (services (tables s))))).

(** The columns [List] selects; the others keep their zero value. *)
Definition list_columns (x : Service) : Service :=
  {| SvcID := SvcID x; SvcName := SvcName x; SLOID := SLOID x; SLOName := "";
     SLOType := SLOType x; DatadogServiceTag := DatadogServiceTag x; Environment := "";
     MonitorMode := MonitorMode x; PollType := PollType x; PollTarget := PollTarget x;
     PollIntervalSeconds := PollIntervalSeconds x; CurrentStatus := CurrentStatus x;
     LastStatusChangeAt := LastStatusChangeAt x; StatusAnalysis := None;
     LastBurnRateShort := LastBurnRateShort x; LastBurnRateLong := LastBurnRateLong x;
     LastWindowErrors := LastWindowErrors x; LastWindowRequests := LastWindowRequests x;
     LastReadingAt := LastReadingAt x; SvcLastErrorAt := SvcLastErrorAt x |}.

Definition List : M (session core) db_err (list Service) :=
  query (λ s, list_columns <$> select_services any_row s).

Definition is_polling (r : service_row) : bool := String.eqb (MonitorMode (svc r)) "polling".

Definition polling_columns (x : Service) : Service :=
  {| SvcID := SvcID x; SvcName := SvcName x; SLOID := ""; SLOName := ""; SLOType := "";
     DatadogServiceTag := ""; Environment := ""; MonitorMode := "polling";
     PollType := PollType x; PollTarget := PollTarget x;
     PollIntervalSeconds := PollIntervalSeconds x; CurrentStatus := CurrentStatus x;
     LastStatusChangeAt := LastStatusChangeAt x; StatusAnalysis := None;
     LastBurnRateShort := None; LastBurnRateLong := None; LastWindowErrors := None;
     LastWindowRequests := None; LastReadingAt := None; SvcLastErrorAt := None |}.

Definition ListPollingManual : M (session core) db_err (list Service) :=
  query (λ s, polling_columns <$> select_services is_polling s).

(** The page query: LIMIT and OFFSET, COUNT over the same rows; a page with no
    row takes its total from [countServices]. *)
Definition page_columns (x : Service) : Service :=
  {| SvcID := SvcID x; SvcName := SvcName x; SLOID := SLOID x; SLOName := SLOName x;
     SLOType := SLOType x; DatadogServiceTag := DatadogServiceTag x;
     Environment := Environment x; MonitorMode := MonitorMode x; PollType := PollType x;
     PollTarget := PollTarget x; PollIntervalSeconds := PollIntervalSeconds x;
     CurrentStatus := CurrentStatus x; LastStatusChangeAt := LastStatusChangeAt x;
     StatusAnalysis := None;
     LastBurnRateShort := LastBurnRateShort x; LastBurnRateLong := LastBurnRateLong x;
     LastWindowErrors := LastWindowErrors x; LastWindowRequests := LastWindowRequests x;
     LastReadingAt := LastReadingAt x; SvcLastErrorAt := SvcLastErrorAt x |}.

Definition countServices : M (session core) db_err Z :=
  query (λ s, Z.of_nat (length (select_services any_row s))).

Definition ListPaginated (page pageSize : Z) : M (session core) db_err (list Service * Z) :=
  let offset := go_mul (wrap64 (page - 1)) pageSize in
  rows <- stmt (λ s,
    let all := select_services any_row s in
    match limit_offset pageSize offset all with
    | None => Err ErrDriver
    | Some rows => Ok ((page_columns <$> rows, Z.of_nat (length all)), tables s)
    end) ;;
  match rows.1 with
  | [] => total <- countServices ;; ret ([], total)
  | page_rows => ret (page_rows, rows.2)
  end.

(** ** Writes *)

(** UPDATE services SET ... WHERE id = [id] AND [p]: the rows affected.  The
    new row must satisfy the CHECK constraints. *)
Definition update_services (id : string) (p : service_row → bool)
    (f : session core → service_row → service_row) : M (session core) db_err Z :=
  stmt (λ s,
    match services (tables s) !! id with
    | Some r =>
        if row_visible s r && p r then
          if service_checks (svc (f s r)) then
            Ok (1, set_services (<[id := f s r]>) (tables s))
          else Err ErrCheck
        else Ok (0, tables s)
    | None => Ok (0, tables s)
    end).

Definition not_found_if_zero (n : Z) : M (session core) db_err unit :=
  if n =? 0 then fail ErrNotFound else ret tt.

Definition set_name (name : string) (x : Service) : Service :=
  {| SvcID := SvcID x; SvcName := name; SLOID := SLOID x; SLOName := SLOName x;
     SLOType := SLOType x; DatadogServiceTag := DatadogServiceTag x;
     Environment := Environment x; MonitorMode := MonitorMode x; PollType := PollType x;
     PollTarget := PollTarget x; PollIntervalSeconds := PollIntervalSeconds x;
     CurrentStatus := CurrentStatus x; LastStatusChangeAt := LastStatusChangeAt x;
     StatusAnalysis := StatusAnalysis x;
     LastBurnRateShort := LastBurnRateShort x; LastBurnRateLong := LastBurnRateLong x;
     LastWindowErrors := LastWindowErrors x; LastWindowRequests := LastWindowRequests x;
     LastReadingAt := LastReadingAt x; SvcLastErrorAt := SvcLastErrorAt x |}.

Definition set_slo_metadata (sloType tag : string) (x : Service) : Service :=
  {| SvcID := SvcID x; SvcName := SvcName x; SLOID := SLOID x; SLOName := SLOName x;
     SLOType := nullif_empty sloType; DatadogServiceTag := nullif_empty tag;
     Environment := Environment x; MonitorMode := MonitorMode x; PollType := PollType x;
     PollTarget := PollTarget x; PollIntervalSeconds := PollIntervalSeconds x;
     CurrentStatus := CurrentStatus x; LastStatusChangeAt := LastStatusChangeAt x;
     StatusAnalysis := StatusAnalysis x;
     LastBurnRateShort := LastBurnRateShort x; LastBurnRateLong := LastBurnRateLong x;
     LastWindowErrors := LastWindowErrors x; LastWindowRequests := LastWindowRequests x;
     LastReadingAt := LastReadingAt x; SvcLastErrorAt := SvcLastErrorAt x |}.

Definition set_environment (env : string) (x : Service) : Service :=
  {| SvcID := SvcID x; SvcName := SvcName x; SLOID := SLOID x; SLOName := SLOName x;
     SLOType := SLOType x; DatadogServiceTag := DatadogServiceTag x;
     Environment := env; MonitorMode := MonitorMode x; PollType := PollType x;
     PollTarget := PollTarget x; PollIntervalSeconds := PollIntervalSeconds x;
     CurrentStatus := CurrentStatus x; LastStatusChangeAt := LastStatusChangeAt x;
     StatusAnalysis := StatusAnalysis x;
     LastBurnRateShort := LastBurnRateShort x; LastBurnRateLong := LastBurnRateLong x;
     LastWindowErrors := LastWindowErrors x; LastWindowRequests := LastWindowRequests x;
     LastReadingAt := LastReadingAt x; SvcLastErrorAt := SvcLastErrorAt x |}.

Definition Update (id name : string) : M (session core) db_err unit :=
  n <- update_services id live (λ _, set_svc (set_name name)) ;;
  not_found_if_zero n.

Definition UpdateSLOMetadata (id sloType tag : string) : M (session core) db_err unit :=
  n <- update_services id live (λ _, set_svc (set_slo_metadata sloType tag)) ;;
  not_found_if_zero n.

Definition UpdateEnvironment (id env : string) : M (session core) db_err unit :=
  n <- update_services id live (λ _, set_svc (set_environment env)) ;;
  not_found_if_zero n.

Definition UpdateWithMetadata (id name : string) (sloType tag env : option string) :
    M (session core) db_err unit :=
  with_pool_tx (
    n <- update_services id live (λ _, set_svc (set_name name)) ;;
    not_found_if_zero n ;;;
    (match sloType, tag with
     | Some t, Some g =>
         n <- update_services id live (λ _, set_svc (set_slo_metadata t g)) ;;
         not_found_if_zero n
     | _, _ => ret tt
     end) ;;;
    (match env with
     | Some e =>
         n <- update_services id live (λ _, set_svc (set_environment e)) ;;
         not_found_if_zero n
     | None => ret tt
     end)).

Definition SoftDelete (id : string) : M (session core) db_err unit :=
  with_pool_tx (
    found <- query (λ s, match services (tables s) !! id with
                         | Some r => row_visible s r
                         | None => false
                         end) ;;
    if negb found then fail ErrNotFound
    else
      inUse <- query (λ s,
        bool_decide (map_Exists (λ p _, p.2 = id) (status_page_services (tables s)))) ;;
      if inUse : bool then fail ErrServiceInUse
      else
        n <- update_services id live (λ s, set_deleted_at (Some (sql_now s))) ;;
        not_found_if_zero n).

Definition set_status (status : string) (now : Z) (x : Service) : Service :=
  {| SvcID := SvcID x; SvcName := SvcName x; SLOID := SLOID x; SLOName := SLOName x;
     SLOType := SLOType x; DatadogServiceTag := DatadogServiceTag x;
     Environment := Environment x; MonitorMode := MonitorMode x; PollType := PollType x;
     PollTarget := PollTarget x; PollIntervalSeconds := PollIntervalSeconds x;
     CurrentStatus := status;
     LastStatusChangeAt :=
       if String.eqb (CurrentStatus x) status then LastStatusChangeAt x else now;
     StatusAnalysis := StatusAnalysis x;
     LastBurnRateShort := LastBurnRateShort x; LastBurnRateLong := LastBurnRateLong x;
     LastWindowErrors := LastWindowErrors x; LastWindowRequests := LastWindowRequests x;
     LastReadingAt := LastReadingAt x; SvcLastErrorAt := SvcLastErrorAt x |}.

Definition set_reading (rd : ServiceReading) (x : Service) : Service :=
  {| SvcID := SvcID x; SvcName := SvcName x; SLOID := SLOID x; SLOName := SLOName x;
     SLOType := SLOType x; DatadogServiceTag := DatadogServiceTag x;
     Environment := Environment x; MonitorMode := MonitorMode x; PollType := PollType x;
     PollTarget := PollTarget x; PollIntervalSeconds := PollIntervalSeconds x;
     CurrentStatus := CurrentStatus x; LastStatusChangeAt := LastStatusChangeAt x;
     StatusAnalysis := StatusAnalysis x;
     LastBurnRateShort := Some (BurnShort rd); LastBurnRateLong := Some (BurnLong rd);
     LastWindowErrors := Some (ShortErrors rd); LastWindowRequests := Some (ShortRequests rd);
     LastReadingAt := Some (ReadAt rd); SvcLastErrorAt := ReadingLastErrorAt rd |}.

Definition set_analysis (a : option string) (x : Service) : Service :=
  {| SvcID := SvcID x; SvcName := SvcName x; SLOID := SLOID x; SLOName := SLOName x;
     SLOType := SLOType x; DatadogServiceTag := DatadogServiceTag x;
     Environment := Environment x; MonitorMode := MonitorMode x; PollType := PollType x;
     PollTarget := PollTarget x; PollIntervalSeconds := PollIntervalSeconds x;
     CurrentStatus := CurrentStatus x; LastStatusChangeAt := LastStatusChangeAt x;
     StatusAnalysis := a;
     LastBurnRateShort := LastBurnRateShort x; LastBurnRateLong := LastBurnRateLong x;
     LastWindowErrors := LastWindowErrors x; LastWindowRequests := LastWindowRequests x;
     LastReadingAt := LastReadingAt x; SvcLastErrorAt := SvcLastErrorAt x |}.

(** No deleted_at filter and no row count: an unknown id is not an error. *)
Definition UpdateStatus (id status : string) : M (session core) db_err unit :=
  update_services id any_row (λ s, set_svc (set_status status (sql_now s))) ;;; ret tt.

Definition UpdateStatusAndReading (id status : string) (rd : ServiceReading) :
    M (session core) db_err unit :=
  update_services id any_row
    (λ s, set_svc (λ x, set_reading rd (set_status status (sql_now s) x))) ;;; ret tt.

Definition UpdateStatusAnalysis (id : string) (a : option string) :
    M (session core) db_err unit :=
  update_services id any_row (λ _, set_svc (set_analysis a)) ;;; ret tt.

(** ** The integration's health marks *)

(** UPDATE integrations ... WHERE provider = 'datadog': every visible row. *)
Definition mark_integrations (f : Z → integration_row → integration_row) : M (session core) db_err unit :=
  stmt (λ s,
    Ok (tt, set_integrations
              (map_imap (λ t r, Some (if visible s t then f (sql_now s) r else r)))
              (tables s))).

Definition MarkDatadogInvalid (lastError : string) : M (session core) db_err unit :=
  mark_integrations (set_health_marks "invalid" (Some lastError)).

Definition MarkDatadogChecked : M (session core) db_err unit :=
  mark_integrations (set_health_marks "active" None).
End services.

(** ** Lemmas *)

#[local] Opaque stmt.

Section services_isolation.
Context `{!Driver}.

Lemma visible_bump {D} (s : session D) t : visible (bump s) t = visible s t.
Proof. done. Qed.

Lemma update_services_isolated id p f :
  (∀ s r, svc_tenant (f s r) = svc_tenant r) →
  preserves isolated (update_services id p f).
Proof.
  intros Hf. apply (preserves_stmt isolated). intros s a d.
  destruct (services (tables s) !! id) as [r|] eqn:E; [|intros; by simplify_eq].
  unfold row_visible.
  destruct (visible s (svc_tenant r)) eqn:Hv; [|intros; by simplify_eq/=].
  destruct (p r); [|intros; by simplify_eq/=].
  destruct (service_checks _); [|done]. intros [= <- <-].
  apply isolated_insert_service; [rewrite Hf; eauto with vane|].
  intros r0 ?. simplify_eq. eauto with vane.
Qed.

Lemma not_found_if_zero_isolated n : preserves isolated (not_found_if_zero n).
Proof.
  unfold not_found_if_zero.
  destruct (n =? 0); [apply (preserves_fail isolated)|apply (preserves_ret isolated)].
Qed.
End services_isolation.

#[export] Hint Resolve update_services_isolated not_found_if_zero_isolated : vane.

(** ** The operations of the two repositories, as data *)

Inductive service_op :=
| OpCreate (x : Service)
| OpGet (id : string)
| OpList
| OpListPollingManual
| OpListPaginated (page pageSize : Z)
| OpUpdate (id name : string)
| OpUpdateWithMetadata (id name : string) (sloType tag env : option string)
| OpUpdateSLOMetadata (id sloType tag : string)
| OpUpdateEnvironment (id env : string)
| OpSoftDelete (id : string)
| OpUpdateStatus (id status : string)
| OpUpdateStatusAndReading (id status : string) (rd : ServiceReading)
| OpUpdateStatusAnalysis (id : string) (a : option string)
| OpMarkDatadogInvalid (lastError : string)
| OpMarkDatadogChecked.

Section service_ops.
Context `{!Driver}.

Definition run_service_op (o : service_op) : M (session core) db_err unit :=
  match o with
  | OpCreate x => discard (Create x)
  | OpGet id => discard (Get id)
  | OpList => discard List
  | OpListPollingManual => discard ListPollingManual
  | OpListPaginated p n => discard (ListPaginated p n)
  | OpUpdate id name => Update id name
  | OpUpdateWithMetadata id name t g e => UpdateWithMetadata id name t g e
  | OpUpdateSLOMetadata id t g => UpdateSLOMetadata id t g
  | OpUpdateEnvironment id e => UpdateEnvironment id e
  | OpSoftDelete id => SoftDelete id
  | OpUpdateStatus id st => UpdateStatus id st
  | OpUpdateStatusAndReading id st rd => UpdateStatusAndReading id st rd
  | OpUpdateStatusAnalysis id a => UpdateStatusAnalysis id a
  | OpMarkDatadogInvalid e => MarkDatadogInvalid e
  | OpMarkDatadogChecked => MarkDatadogChecked
  end.

(** One operation after the other, whatever each of them returns. *)
Fixpoint run_service_ops (l : list service_op) : M (session core) db_err unit :=
  match l with
  | [] => ret tt
  | o :: l => attempt (run_service_op o) ;;; run_service_ops l
  end.

Lemma mark_integrations_isolated f : preserves isolated (mark_integrations f).
Proof.
  apply (preserves_stmt isolated). intros s a d [= <- <-].
  apply isolated_imap_integrations. intros u r. destruct (visible s u) eqn:Hv; eauto with vane.
Qed.

Lemma Create_isolated x : preserves isolated (Create x).
Proof.
  apply (preserves_stmt isolated). intros s a d.
  destruct (default_tenant s) as [t|] eqn:Ht; [|done].
  cbv zeta. destruct (service_checks _); [cbn|done].
  destruct (services (tables s) !! gen_uuid (tick s)) eqn:E; [done|]. intros [= <- <-].
  apply isolated_insert_service; [eauto with vane|]. intros r0. by rewrite E.
Qed.

Lemma ListPaginated_isolated p n : preserves isolated (ListPaginated p n).
Proof.
  apply (preserves_bind isolated).
  - apply (preserves_stmt isolated). intros s a d. cbv zeta.
    destruct (limit_offset _ _ _); [|done]. by intros [= <- <-].
  - intros [[|x l] total]; [|apply (preserves_ret isolated)].
    apply (preserves_bind isolated); [apply (preserves_query isolated)|].
    intros. apply (preserves_ret isolated).
Qed.

Lemma SoftDelete_isolated id : preserves isolated (SoftDelete id).
Proof.
  apply (preserves_pool_tx isolated); [apply isolated_no_tenant|].
  apply (preserves_bind isolated); [apply (preserves_query isolated)|].
  intros []; [|apply (preserves_fail isolated)]. cbn.
  apply (preserves_bind isolated); [apply (preserves_query isolated)|].
  intros []; [apply (preserves_fail isolated)|].
  apply (preserves_bind isolated); eauto with vane.
Qed.

Lemma UpdateWithMetadata_isolated id name t g e :
  preserves isolated (UpdateWithMetadata id name t g e).
Proof.
  apply (preserves_pool_tx isolated); [apply isolated_no_tenant|].
  do 2 (apply (preserves_bind isolated); [eauto with vane|intros ?]).
  apply (preserves_bind isolated).
  - destruct t; [|apply (preserves_ret isolated)].
    destruct g; [|apply (preserves_ret isolated)].
    apply (preserves_bind isolated); eauto with vane.
  - intros _. destruct e; [|apply (preserves_ret isolated)].
    apply (preserves_bind isolated); eauto with vane.
Qed.

Lemma discard_isolated {A} (m : M (session core) db_err A) :
  preserves isolated m → preserves isolated (discard m).
Proof.
  intros. apply (preserves_bind isolated); [done|]. intros. apply (preserves_ret isolated).
Qed.
End service_ops.

#[export] Hint Resolve mark_integrations_isolated Create_isolated ListPaginated_isolated
  SoftDelete_isolated UpdateWithMetadata_isolated discard_isolated : vane.
#[export] Hint Extern 1 (preserves isolated (query _)) => apply (preserves_query isolated) : vane.
#[export] Hint Extern 1 (preserves isolated (ret _)) => apply (preserves_ret isolated) : vane.
#[export] Hint Extern 1 (preserves isolated (fail _)) => apply (preserves_fail isolated) : vane.
#[export] Hint Extern 2 (preserves isolated (bind _ _)) =>
  apply (preserves_bind isolated); [|intros ?] : vane.

Lemma run_service_op_isolated `{!Driver} o : preserves isolated (run_service_op o).
Proof.
  destruct o; cbn [run_service_op];
    unfold Get, List, ListPollingManual, Update, UpdateSLOMetadata, UpdateEnvironment,
      UpdateStatus, UpdateStatusAndReading, UpdateStatusAnalysis, MarkDatadogInvalid,
      MarkDatadogChecked; eauto 6 with vane.
Qed.

Lemma run_service_ops_isolated `{!Driver} l : preserves isolated (run_service_ops l).
Proof.
  induction l as [|o l IH]; [apply (preserves_ret isolated)|].
  apply (preserves_bind isolated); [|done].
  apply (preserves_attempt isolated), run_service_op_isolated.
Qed.

(** ** What a transaction of its own sees *)

#[local] Transparent stmt.

Section own_transaction.
Context `{!Driver}.
Implicit Types s : session core.

Definition unset s : Prop := app_tenant s = "" ∧ bypass_rls s = false.

(** On a session without a tenant an UPDATE matches no row. *)
Lemma update_services_unset id p f s :
  unset s → (update_services id p f s).1 = Ok 0 ∨ ∃ e, (update_services id p f s).1 = Err e.
Proof.
  intros [Ht Hb]. unfold update_services, stmt.
  destruct (aborted s); [eauto|]. destruct (event_fails (tick s)); [eauto|].
  destruct (services (tables s) !! id) as [r|]; [|eauto].
  unfold row_visible. rewrite visible_unset by done. cbn. eauto.
Qed.

Lemma bind_fails {A B} (m : M (session core) db_err A) (k : A → M (session core) db_err B) s :
  (∀ a s', m s = (Ok a, s') → ∃ e, (k a s').1 = Err e) → ∃ e, (bind m k s).1 = Err e.
Proof. unfold bind. destruct (m s) as [[a|e] s']; eauto. Qed.

Lemma with_pool_tx_fails {A} (m : M (session core) db_err A) s :
  bypass_rls s = false → (∀ i, unset i → ∃ e, (m i).1 = Err e) →
  (∃ e, (with_pool_tx m s).1 = Err e) ∧ tables (with_pool_tx m s).2 = tables s.
Proof.
  intros Hb Hm. unfold with_pool_tx. destruct (event_fails (tick s)); [cbn; eauto|].
  destruct (Hm (Session (tables s) "" (bypass_rls s) (Some (clock (tick s))) false (S (tick s)))
    ltac:(done)) as [e He].
  destruct (m _) as [[a|e'] i]; simplify_eq/=. eauto.
Qed.

Lemma SoftDelete_unset id s :
  bypass_rls s = false →
  (∃ e, (SoftDelete id s).1 = Err e) ∧ tables (SoftDelete id s).2 = tables s.
Proof.
  intros Hb. apply with_pool_tx_fails; [done|]. intros i [Ht Hi].
  apply bind_fails. unfold query, stmt. intros found s'.
  destruct (aborted i); [done|]. destruct (event_fails (tick i)); [done|].
  destruct (services (tables i) !! id) as [r|];
    [unfold row_visible; rewrite visible_unset by done|]; intros [= <- <-]; cbn; eauto.
Qed.

Lemma UpdateWithMetadata_unset id name t g e s :
  bypass_rls s = false →
  (∃ e', (UpdateWithMetadata id name t g e s).1 = Err e') ∧
  tables (UpdateWithMetadata id name t g e s).2 = tables s.
Proof.
  intros Hb. apply with_pool_tx_fails; [done|]. intros i Hi.
  apply bind_fails. intros n s' E.
  destruct (update_services_unset id live (λ _, set_svc (set_name name)) i Hi) as [Hn|[e1 Hn]];
    rewrite E in Hn; simplify_eq/=. eauto.
Qed.
End own_transaction.

(** ** Change times *)

(** The time of the last entry of the history that changed the status, the
    initial time when none did. *)
Fixpoint last_change (cur : string) (since : Z) (l : list (string * Z)) : Z :=
  match l with
  | [] => since
  | (st, now) :: l => last_change st (if String.eqb cur st then since else now) l
  end.

Definition apply_status (x : Service) (p : string * Z) : Service := set_status p.1 p.2 x.

(** ** Properties *)

(** the repositories never cross a tenant.  Whatever operations of
    ServiceRepository and of the poller's integration marks a session subject
    to row-level security runs, in any order, whether they succeed, fail, or the
    connection breaks in between, every service, integration, incident and
    timeline of another tenant is afterwards what it was before. *)
Theorem service_ops_isolated `{!Driver} (l : list service_op) (s : session core) :
  bypass_rls s = false →
  isolated_from (app_tenant s) (tables s) (tables (run_service_ops l s).2).
Proof. intros Hb. by apply (run_service_ops_isolated l s). Qed.

(** SoftDelete and UpdateWithMetadata cannot work for a tenant.  They open
    their transaction with [r.pool.Begin], which leaves the caller's tenant
    transaction, so on a role subject to row-level security they return an error
    and change nothing, whatever the row, and the error is ErrNotFound when the
    database answers every statement. *)
Theorem own_transaction_loses_tenant `{!Driver} id name t g e (s : session core) :
  bypass_rls s = false →
  (∃ e', (SoftDelete id s).1 = Err e') ∧ tables (SoftDelete id s).2 = tables s ∧
  (∃ e', (UpdateWithMetadata id name t g e s).1 = Err e') ∧
  tables (UpdateWithMetadata id name t g e s).2 = tables s ∧
  ((∀ n, event_fails n = false) →
   (SoftDelete id s).1 = Err ErrNotFound ∧
   (UpdateWithMetadata id name t g e s).1 = Err ErrNotFound).
Proof.
  intros Hb. destruct (SoftDelete_unset id s Hb), (UpdateWithMetadata_unset id name t g e s Hb).
  split_and!; try done. intros Hev.
  unfold SoftDelete, UpdateWithMetadata, with_pool_tx, bind, query, update_services, stmt.
  rewrite ?Hev. cbn. rewrite ?Hev.
  destruct (services (tables s) !! id) as [r|]; cbn; [|done].
  unfold row_visible. by rewrite !visible_unset by done.
Qed.

(** UpdateStatusAndReading writes the whole reading and moves the change
    time only on a change.  When it reports success on a row the session sees,
    the row has the new status, the six reading columns of the reading and
    everything else of the old row; its change time is the statement's now()
    exactly when the status differs; no other row changes.  On a row the session
    does not see, it reports success too and changes nothing. *)
Theorem UpdateStatusAndReading_spec `{!Driver} id st rd r (s : session core) :
  services (tables s) !! id = Some r →
  (UpdateStatusAndReading id st rd s).1 = Ok tt →
  let d' := tables (UpdateStatusAndReading id st rd s).2 in
  (visible s (svc_tenant r) = false → d' = tables s) ∧
  (visible s (svc_tenant r) = true →
   ∃ x', services d' = <[id := set_svc (λ _, x') r]> (services (tables s)) ∧
     CurrentStatus x' = st ∧
     (LastStatusChangeAt x' = if String.eqb (CurrentStatus (svc r)) st
                              then LastStatusChangeAt (svc r) else sql_now s) ∧
     (LastBurnRateShort x', LastBurnRateLong x', LastWindowErrors x', LastWindowRequests x',
      LastReadingAt x', SvcLastErrorAt x') =
     (Some (BurnShort rd), Some (BurnLong rd), Some (ShortErrors rd), Some (ShortRequests rd),
      Some (ReadAt rd), ReadingLastErrorAt rd) ∧
     (SvcID x', SvcName x', SLOID x', MonitorMode x', StatusAnalysis x', Environment x') =
     (SvcID (svc r), SvcName (svc r), SLOID (svc r), MonitorMode (svc r),
      StatusAnalysis (svc r), Environment (svc r))).
Proof.
  intros Hr. unfold UpdateStatusAndReading, update_services, bind, stmt.
  destruct (aborted s); [done|]. destruct (event_fails (tick s)); [done|].
  rewrite Hr. unfold row_visible, any_row. rewrite andb_true_r.
  destruct (visible s (svc_tenant r)) eqn:Hv; [|done].
  destruct (service_checks _); [|done]. cbn. intros _. split; [done|]. intros _.
  eexists. split_and!; [reflexivity|done..].
Qed.

(** the change time is the time of the last real change.  After any
    sequence of status writes, a service has the last status written and its
    change time is the time of the last write that changed the status, the
    initial one when every write confirmed it. *)
Theorem status_change_time (l : list (string * Z)) (x : Service) :
  let x' := fold_left apply_status l x in
  CurrentStatus x' = default (CurrentStatus x) (fst <$> last l) ∧
  LastStatusChangeAt x' = last_change (CurrentStatus x) (LastStatusChangeAt x) l.
Proof.
  cbv zeta. revert x. induction l as [|[st now] l IH]; intros x; [done|].
  cbn [fold_left last_change]. destruct (IH (apply_status x (st, now))) as [-> ->].
  split; [|done]. rewrite last_cons. by destruct (last l).
Qed.

(** what Create stores is what Get returns.  When Create succeeds, reading
    the returned id back on the same session gives the service under its
    generated id with status "not_configured": a polling service has its three
    poll columns set and no SLO, any other service is in slo mode with the SLO
    columns given and no poll column; the argument's name and environment are
    kept, and the environment is one of the four allowed. *)
Theorem Create_Get `{!Driver} (x y : Service) (s s1 : session core) :
  Create x s = (Ok y, s1) → event_fails (tick s1) = false → aborted s1 = false →
  ∃ z, (Get (SvcID y) s1).1 = Ok (Some z) ∧ SvcID z = SvcID y ∧
    CurrentStatus z = "not_configured" ∧ CurrentStatus y = "not_configured" ∧
    SvcName z = SvcName x ∧ Environment z = Environment x ∧ Environment z ∈ environments ∧
    MonitorMode z = MonitorMode y ∧
    ((MonitorMode x = "polling" ∧ MonitorMode z = "polling" ∧ SLOID z = "" ∧
      PollType z = PollType x ∧ PollTarget z = PollTarget x ∧
      PollIntervalSeconds z = PollIntervalSeconds x ∧ is_Some (PollType z) ∧
      is_Some (PollTarget z) ∧ is_Some (PollIntervalSeconds z)) ∨
     (MonitorMode x ≠ "polling" ∧ MonitorMode z = "slo" ∧ SLOID z = SLOID x ∧
      SLOType z = SLOType x ∧ DatadogServiceTag z = DatadogServiceTag x ∧
      PollType z = None ∧ PollTarget z = None ∧ PollIntervalSeconds z = None)).
Proof.
  intros HC Hev Hab. unfold Create in HC.
  apply stmt_inv in HC as [(e & ? & _)|(a & d & Hf & ? & ->)]; [done|]. simplify_eq.
  cbv zeta in Hf. destruct (default_tenant s) as [t|] eqn:Ht; [|done].
  destruct (service_checks _) eqn:Hc; [cbn in Hf|done].
  destruct (services (tables s) !! gen_uuid (tick s)); [done|]. simplify_eq/=.
  unfold Get, query, stmt. cbn. rewrite Hab, Hev. cbn. rewrite lookup_insert_eq.
  unfold row_visible, visible, live. cbn.
  unfold default_tenant in Ht. destruct (String.eqb (app_tenant s) "") eqn:E; [done|].
  simplify_eq. rewrite String.eqb_refl, orb_true_r. cbn. eexists. split; [done|].
  unfold service_checks in Hc. rewrite !andb_true_iff in Hc. destruct Hc as [[Hp Hm] Henv].
  unfold environment_check in Henv. apply bool_decide_eq_true in Henv.
  unfold mode_fields_check in Hm. unfold inserted_service in *.
  destruct (String.eqb_spec (MonitorMode x) "polling") as [Hx|Hx]; cbn in *.
  - split_and!; try done. left. rewrite Hx.
    destruct (PollType x), (PollTarget x), (PollIntervalSeconds x); try done; split_and!; eauto.
  - split_and!; try done. right. by split_and!.
Qed.

(** ** Examples and witnesses *)

Definition demo_service : Service :=
  {| SvcID := "svc-a"; SvcName := "api"; SLOID := "slo-1"; SLOName := "availability";
     SLOType := "metric"; DatadogServiceTag := "api"; Environment := "production";
     MonitorMode := "slo"; PollType := None; PollTarget := None; PollIntervalSeconds := None;
     CurrentStatus := "operational"; LastStatusChangeAt := 0; StatusAnalysis := None;
     LastBurnRateShort := None; LastBurnRateLong := None; LastWindowErrors := None;
     LastWindowRequests := None; LastReadingAt := None; SvcLastErrorAt := None |}.
Definition demo_row : service_row :=
  {| svc_tenant := "tenant-a"; svc := demo_service; deleted_at := None |}.
Definition demo_other_row : service_row :=
  {| svc_tenant := "tenant-b"; svc := set_name "other" demo_service; deleted_at := None |}.
Definition demo_core : core :=
  {| services := <["svc-a" := demo_row]> (<["svc-b" := demo_other_row]> ∅);
     status_page_services := ∅; integrations := ∅; incidents := ∅;
     incident_services := []; incident_updates := []; status_pages := ∅;
     status_page_service_groups := ∅; domains := ∅ |}.
Definition demo_session : session core := Session demo_core "tenant-a" false (Some 5) false 0.

Definition demo_reading : ServiceReading :=
  {| BurnShort := 2%float; BurnLong := 1%float; ShortErrors := 4; ShortRequests := 100;
     ReadAt := 7; ReadingLastErrorAt := Some 7 |}.

Lemma service_ops_isolated_witness :
  let l := [OpUpdateStatus "svc-b" "outage"; OpUpdate "svc-a" "renamed"; OpSoftDelete "svc-b"] in
  isolated_from "tenant-a" demo_core (tables (@run_service_ops reliable l demo_session).2).
Proof. cbv zeta. apply (@service_ops_isolated reliable _ demo_session). reflexivity. Defined.

Lemma own_transaction_loses_tenant_witness :
  (@SoftDelete reliable "svc-a" demo_session).1 = Err ErrNotFound.
Proof.
  apply (@own_transaction_loses_tenant reliable "svc-a" "x" None None None demo_session);
    [reflexivity|]. intros n. reflexivity.
Defined.

Lemma UpdateStatusAndReading_spec_witness :
  ∃ x', services (tables (@UpdateStatusAndReading reliable "svc-a" "degraded" demo_reading
                            demo_session).2) =
          <["svc-a" := set_svc (λ _, x') demo_row]> (services demo_core) ∧
        CurrentStatus x' = "degraded" ∧ LastStatusChangeAt x' = 5.
Proof.
  destruct (@UpdateStatusAndReading_spec reliable "svc-a" "degraded" demo_reading demo_row
    demo_session) as [_ H]; [reflexivity|vm_compute; reflexivity|].
  destruct (H ltac:(reflexivity)) as (x' & H1 & H2 & H3 & _).
  exists x'. split; [exact H1|]. split; [exact H2|exact H3].
Defined.

Definition demo_created : Service :=
  created_service (@gen_uuid reliable 0) (inserted_service (@gen_uuid reliable 0) 5 demo_service)
    demo_service.

Lemma Create_Get_witness :
  ∃ z, (@Get reliable (SvcID demo_created) (@Create reliable demo_service demo_session).2).1 =
         Ok (Some z) ∧ SvcName z = "api".
Proof.
  destruct (@Create_Get reliable demo_service demo_created demo_session
    (@Create reliable demo_service demo_session).2) as (z & H1 & _ & _ & _ & H2 & _);
    [vm_compute; reflexivity|reflexivity|vm_compute; reflexivity|].
  exists z. split; [exact H1|exact H2].
Defined.
