(* ===== verification/Placements.v ===== *)
(** * Service placements (internal/db/status_page_repository.go)

    Where a service sits on a status page: its group, its parent service and its
    position.  [validateAndSanitizeServicePlacements] is the pure function that
    decides which sets of placements a page may have; what it accepts is a forest
    of depth two over the page's own groups. *)

From stdpp Require Import numbers strings gmap list.
From Stdlib Require Import ZArith Lia.
From S2P Require Import Prelude GoNum Db.

#[local] Open Scope Z_scope.

Record ServicePlacement := {
  PlServiceID : string;
  PlGroupID : option string;
  PlParentServiceID : option string;
  PlPosition : Z;
}.

#[global] Instance ServicePlacement_eq_dec : EqDecision ServicePlacement.
Proof. solve_decision. Defined.

Definition clear_parent (p : ServicePlacement) : ServicePlacement :=
  {| PlServiceID := PlServiceID p; PlGroupID := PlGroupID p; PlParentServiceID := None;
     PlPosition := PlPosition p |}.

(** The services the call submits. *)
Definition submitted_ids (placements : list ServicePlacement) : gset string :=
  list_to_set (PlServiceID <$> placements).

(** A parent that this very call removes from the page is forgotten; a
    self-reference is left for the check below. *)
Definition sanitize (submitted existing : gset string) (p : ServicePlacement) : ServicePlacement :=
  match PlParentServiceID p with
  | None => p
  | Some q =>
      if String.eqb q (PlServiceID p) then p
      else if bool_decide ((q ∉ submitted) ∧ q ∈ existing) then clear_parent p else p
  end.

(** The services that are some placement's parent. *)
Definition parents_of (sanitized : list ServicePlacement) : gset string :=
  list_to_set (omap PlParentServiceID sanitized).

(** The rules, in the order the code applies them to one placement. *)
Definition check_placement (validGroupIDs submitted parentOf : gset string) (p : ServicePlacement) :
    option db_err :=
  (match PlGroupID p with
   | Some g => if bool_decide (g ∈ validGroupIDs) then None else Some ErrGroupCrossPage
   | None => None
   end) ∪
  match PlParentServiceID p with
  | Some q =>
      if String.eqb q (PlServiceID p) then Some ErrSelfReference
      else if bool_decide (q ∉ submitted) then Some ErrParentNotInSet
      else if bool_decide (PlServiceID p ∈ parentOf) then Some ErrMaxDepthExceeded
      else None
  | None => None
  end.

Fixpoint check_placements (validGroupIDs submitted parentOf : gset string)
    (l : list ServicePlacement) : option db_err :=
  match l with
  | [] => None
  | p :: l => check_placement validGroupIDs submitted parentOf p ∪
              check_placements validGroupIDs submitted parentOf l
  end.

Definition validateAndSanitizeServicePlacements (placements : list ServicePlacement)
    (validGroupIDs existingServiceIDs : gset string) : res db_err (list ServicePlacement) :=
  let submitted := submitted_ids placements in
  let sanitized := sanitize submitted existingServiceIDs <$> placements in
  match check_placements validGroupIDs submitted (parents_of sanitized) sanitized with
  | Some e => Err e
  | None => Ok sanitized
  end.

(** ** What is accepted *)

(** A set of placements a page with these groups may have: parents are other
    services of the set, and no parent has a parent. *)
Record placements_ok (validGroupIDs : gset string) (l : list ServicePlacement) : Prop := {
  po_group : ∀ p g, p ∈ l → PlGroupID p = Some g → g ∈ validGroupIDs;
  po_self : ∀ p, p ∈ l → PlParentServiceID p ≠ Some (PlServiceID p);
  po_parent : ∀ p q, p ∈ l → PlParentServiceID p = Some q → ∃ p', p' ∈ l ∧ PlServiceID p' = q;
  po_depth : ∀ p p', p ∈ l → p' ∈ l → PlParentServiceID p = Some (PlServiceID p') →
    PlParentServiceID p' = None;
}.

(** [p'] is [p], or [p] without the parent the call takes off the page. *)
Definition kept_placement (submitted existing : gset string) (p p' : ServicePlacement) : Prop :=
  p' = p ∨ (p' = clear_parent p ∧ ∃ q, PlParentServiceID p = Some q ∧ q ∈ existing ∧ q ∉ submitted).

Lemma elem_submitted q l : q ∈ submitted_ids l ↔ ∃ p, p ∈ l ∧ PlServiceID p = q.
Proof.
  unfold submitted_ids. rewrite elem_of_list_to_set, list_elem_of_fmap. naive_solver.
Qed.
Lemma elem_parents q l : q ∈ parents_of l ↔ ∃ p, p ∈ l ∧ PlParentServiceID p = Some q.
Proof. unfold parents_of. rewrite elem_of_list_to_set, list_elem_of_omap. naive_solver. Qed.

Lemma check_placements_None vg sub par l :
  check_placements vg sub par l = None ↔ ∀ p, p ∈ l → check_placement vg sub par p = None.
Proof.
  induction l as [|p l IH]; cbn.
  - split; [|done]. intros _ p Hp. by apply elem_of_nil in Hp.
  - rewrite union_None, IH. split.
    + intros [H1 H2] p' [->|Hp]%elem_of_cons; auto.
    + intros Hall. split; [apply Hall; left|]. intros p' Hp. apply Hall. by right.
Qed.

Lemma check_placement_None vg sub par p :
  check_placement vg sub par p = None ↔
  (∀ g, PlGroupID p = Some g → g ∈ vg) ∧
  (∀ q, PlParentServiceID p = Some q → q ≠ PlServiceID p ∧ q ∈ sub ∧ PlServiceID p ∉ par).
Proof.
  unfold check_placement. rewrite union_None. f_equiv.
  - destruct (PlGroupID p) as [g|]; [|split; [done|]; naive_solver].
    case_bool_decide; naive_solver.
  - destruct (PlParentServiceID p) as [q|]; [|split; [done|]; naive_solver].
    destruct (String.eqb_spec q (PlServiceID p)) as [|]; [naive_solver|].
    repeat case_bool_decide; naive_solver.
Qed.

Lemma check_placement_Some vg sub par p e :
  check_placement vg sub par p = Some e →
  e ∈ [ErrGroupCrossPage; ErrSelfReference; ErrParentNotInSet; ErrMaxDepthExceeded].
Proof.
  unfold check_placement.
  destruct (PlGroupID p) as [g|], (PlParentServiceID p) as [q|]; repeat case_bool_decide;
    try destruct (String.eqb _ _); cbn; intros; simplify_eq; set_solver.
Qed.

Lemma sanitize_id sub ex p : PlServiceID (sanitize sub ex p) = PlServiceID p.
Proof.
  unfold sanitize. destruct (PlParentServiceID p); [|done].
  destruct (String.eqb _ _); [done|]. by case_bool_decide.
Qed.
Lemma sanitize_kept sub ex p : kept_placement sub ex p (sanitize sub ex p).
Proof.
  unfold sanitize. destruct (PlParentServiceID p) as [q|] eqn:E; [|by left].
  destruct (String.eqb _ _); [by left|]. case_bool_decide as Hq; [|by left].
  right. split; [done|]. exists q. naive_solver.
Qed.
Lemma submitted_sanitize sub ex l : submitted_ids (sanitize sub ex <$> l) = submitted_ids l.
Proof.
  unfold submitted_ids. f_equal. rewrite <- list_fmap_compose. apply list_fmap_ext.
  intros i p _. apply sanitize_id.
Qed.

(** The check decides [placements_ok]. *)
Lemma check_placements_ok vg l :
  check_placements vg (submitted_ids l) (parents_of l) l = None ↔ placements_ok vg l.
Proof.
  rewrite check_placements_None. split.
  - intros Hc. setoid_rewrite check_placement_None in Hc. split.
    + intros p g Hp. by apply Hc.
    + intros p Hp Hs. destruct (Hc p Hp) as [_ Hq]. by destruct (Hq _ Hs) as [? _].
    + intros p q Hp Hq. destruct (Hc p Hp) as [_ Hs]. destruct (Hs _ Hq) as (_ & Hin & _).
      by apply elem_submitted in Hin.
    + intros p p' Hp Hp' Hq. destruct (PlParentServiceID p') as [q'|] eqn:E; [exfalso|done].
      destruct (Hc p' Hp') as [_ Hs]. destruct (Hs _ E) as (_ & _ & Hn). apply Hn.
      apply elem_parents. eauto.
  - intros [Hg Hs Hi Hd] p Hp. apply check_placement_None. split; [eauto|].
    intros q Hq. split_and!.
    + intros ->. by apply (Hs p).
    + apply elem_submitted. eauto.
    + intros (p' & Hp' & E)%elem_parents. rewrite (Hd p' p) in Hq; done.
Qed.

Lemma validate_inv placements vg ex out :
  validateAndSanitizeServicePlacements placements vg ex = Ok out →
  placements_ok vg out ∧ Forall2 (kept_placement (submitted_ids placements) ex) placements out.
Proof.
  unfold validateAndSanitizeServicePlacements.
  destruct (check_placements _ _ _ _) eqn:E; [done|]. intros [= <-]. split.
  - apply check_placements_ok. by rewrite submitted_sanitize.
  - clear E. apply Forall2_fmap_r. apply Forall_Forall2_diag, Forall_true. intros p.
    apply sanitize_kept.
Qed.

Lemma sanitize_ok vg ex l : placements_ok vg l → sanitize (submitted_ids l) ex <$> l = l.
Proof.
  intros Hok. rewrite <- (list_fmap_id l) at 3. apply list_fmap_ext. intros i p Hp.
  apply list_elem_of_lookup_2 in Hp. unfold sanitize. cbn.
  destruct (PlParentServiceID p) as [q|] eqn:E; [|done]. destruct (String.eqb _ _); [done|].
  rewrite bool_decide_eq_false_2; [done|]. intros [Hn _]. apply Hn, elem_submitted.
  by eapply po_parent.
Qed.

Lemma validate_ok vg ex l :
  placements_ok vg l → validateAndSanitizeServicePlacements l vg ex = Ok l.
Proof.
  intros Hl. unfold validateAndSanitizeServicePlacements.
  rewrite (sanitize_ok _ _ _ Hl). by rewrite (proj2 (check_placements_ok _ _) Hl).
Qed.

(** a page's placements form a forest of depth two.  What the validation
    accepts puts services only in the page's own groups, under parents of the
    same set that are not themselves children; it is what was asked for, except
    that a parent this call takes off the page is forgotten; it is accepted
    again unchanged.  Whatever already obeys the rules is accepted as it is, and
    a refusal is one of the four documented errors. *)
Theorem placements_spec (placements : list ServicePlacement) (validGroupIDs existing : gset string) :
  (∀ out, validateAndSanitizeServicePlacements placements validGroupIDs existing = Ok out →
     placements_ok validGroupIDs out ∧
     Forall2 (kept_placement (submitted_ids placements) existing) placements out ∧
     ∀ existing', validateAndSanitizeServicePlacements out validGroupIDs existing' = Ok out) ∧
  (placements_ok validGroupIDs placements →
     validateAndSanitizeServicePlacements placements validGroupIDs existing = Ok placements) ∧
  (∀ e, validateAndSanitizeServicePlacements placements validGroupIDs existing = Err e →
     e ∈ [ErrGroupCrossPage; ErrSelfReference; ErrParentNotInSet; ErrMaxDepthExceeded] ∧
     ¬ placements_ok validGroupIDs placements).
Proof.
  split_and!; [|by apply validate_ok|].
  - intros out [H1 H2]%validate_inv. auto using validate_ok.
  - intros e He. split; [|intros Hl; by rewrite validate_ok in He].
    revert He. unfold validateAndSanitizeServicePlacements.
    destruct (check_placements _ _ _ _) as [e'|] eqn:E; [|done]. intros [= <-]. revert E.
    generalize (sanitize (submitted_ids placements) existing <$> placements) at 2.
    intros l. induction l as [|p l IH]; cbn; [done|].
    destruct (check_placement _ _ _ p) as [e1|] eqn:Ep; cbn; [|by rewrite (left_id_L None _)].
    rewrite union_Some_l. intros [= <-]. by eapply check_placement_Some.
Qed.

(** ** Examples *)

Definition place (svc : string) (grp parent : option string) : ServicePlacement :=
  {| PlServiceID := svc; PlGroupID := grp; PlParentServiceID := parent; PlPosition := 0 |}.

Lemma placements_spec_witness :
  let asked := [place "api" (Some "g1") None; place "db" None (Some "api");
                place "cache" None (Some "gone")] in
  let kept := [place "api" (Some "g1") None; place "db" None (Some "api"); place "cache" None None] in
  validateAndSanitizeServicePlacements asked {["g1"]} {["gone"]} = Ok kept ∧
  (placements_ok {["g1"]} kept ∧
   validateAndSanitizeServicePlacements kept {["g1"]} ∅ = Ok kept) ∧
  validateAndSanitizeServicePlacements asked {["g1"]} ∅ = Err ErrParentNotInSet.
Proof.
  intros asked kept.
  assert (validateAndSanitizeServicePlacements asked {["g1"]} {["gone"]} = Ok kept) as E by reflexivity.
  split; [done|]. split; [|reflexivity].
  destruct (placements_spec asked {["g1"]} {["gone"]}) as (H1 & _ & _).
  destruct (H1 kept E) as (H2 & _ & H3). auto.
Defined.
