(* ===== verification/Intervals.v ===== *)
(** * Status intervals (internal/db/status_interval_repository.go, internal/retention/pruner.go)

    The [status_intervals] table: a service's history as one row per stretch of
    constant status, at most one of them open.  The table has no tenant column
    and no row-level-security policy, so it is a database of its own, with the
    ids of the services its foreign key refers to.  [OpenOrExtend] always runs
    in a transaction of its own ([r.pool.Begin]). *)

From stdpp Require Import numbers strings gmap sorting list.
From Stdlib Require Import ZArith Floats.
From S2P Require Import Prelude GoNum Db.

#[local] Open Scope Z_scope.
#[local] Open Scope go_scope.

Record StatusInterval := {
  IvID : string;
  ServiceID : string;
  Status : string;
  ErrorBudgetRemaining : float;
  StartsAt : Z;
  LastSeenAt : Z;
  EndsAt : option Z;
  Analysis : option string;
}.

Record iv_db := {
  intervals : gmap string StatusInterval;   (* by id *)
  service_ids : gset string;                (* services(id) *)
}.

Definition set_intervals (f : gmap string StatusInterval → gmap string StatusInterval)
    (d : iv_db) : iv_db :=
  {| intervals := f (intervals d); service_ids := service_ids d |}.

Definition is_open (x : StatusInterval) : bool :=
  match EndsAt x with None => true | Some _ => false end.

(** WHERE service_id = $1 AND ends_at IS NULL *)
Definition open_for (sid : string) (x : StatusInterval) : bool :=
  String.eqb (ServiceID x) sid && is_open x.

Definition new_interval (id sid status : string) (budget : float) (at_ : Z) : StatusInterval :=
  {| IvID := id; ServiceID := sid; Status := status; ErrorBudgetRemaining := budget;
     StartsAt := at_; LastSeenAt := at_; EndsAt := None; Analysis := None |}.
Definition extend_interval (budget : float) (at_ : Z) (x : StatusInterval) : StatusInterval :=
  {| IvID := IvID x; ServiceID := ServiceID x; Status := Status x;
     ErrorBudgetRemaining := budget; StartsAt := StartsAt x; LastSeenAt := at_;
     EndsAt := EndsAt x; Analysis := Analysis x |}.
Definition close_interval (at_ : Z) (x : StatusInterval) : StatusInterval :=
  {| IvID := IvID x; ServiceID := ServiceID x; Status := Status x;
     ErrorBudgetRemaining := ErrorBudgetRemaining x; StartsAt := StartsAt x;
     LastSeenAt := LastSeenAt x; EndsAt := Some at_; Analysis := Analysis x |}.
Definition set_interval_analysis (a : string) (x : StatusInterval) : StatusInterval :=
  {| IvID := IvID x; ServiceID := ServiceID x; Status := Status x;
     ErrorBudgetRemaining := ErrorBudgetRemaining x; StartsAt := StartsAt x;
     LastSeenAt := LastSeenAt x; EndsAt := EndsAt x; Analysis := Some a |}.

Section intervals.
Context `{!Driver}.

(** ** The statements *)

Definition rows (d : iv_db) : list StatusInterval := snd <$> map_to_list (intervals d).

(** SELECT id, status ... FOR UPDATE *)
Definition find_open (sid : string) (d : iv_db) : option StatusInterval :=
  head (filter (λ x, open_for sid x = true) (rows d)).

(** UPDATE status_intervals SET ... WHERE id = $n *)
Definition update_interval (id : string) (f : StatusInterval → StatusInterval) :
    M (session iv_db) db_err unit :=
  stmt (λ s, Ok (tt, set_intervals (alter f id) (tables s))).

(** A unique_violation becomes ErrIntervalRaceLost. *)
Definition insertOpenInterval (sid status : string) (budget : float) (at_ : Z) :
    M (session iv_db) db_err string :=
  stmt (λ s,
    let id := gen_uuid (tick s) in
    if negb (bool_decide (sid ∈ service_ids (tables s))) then Err ErrForeignKey
    else match intervals (tables s) !! id, find_open sid (tables s) with
         | None, None =>
             Ok (id, set_intervals (<[id := new_interval id sid status budget at_]>) (tables s))
         | _, _ => Err ErrIntervalRaceLost
         end).

(** [OpenOrExtend] after its SELECT ... FOR UPDATE returned [open]. *)
Definition record_status (open : option StatusInterval) (sid status : string)
    (budget : float) (at_ : Z) : M (session iv_db) db_err string :=
  match open with
  | None => insertOpenInterval sid status budget at_
  | Some o =>
      if String.eqb (Status o) status then
        update_interval (IvID o) (extend_interval budget at_) ;;; ret (IvID o)
      else
        update_interval (IvID o) (close_interval at_) ;;;
        insertOpenInterval sid status budget at_
  end.

Definition OpenOrExtend (sid status : string) (budget : float) (at_ : Z) :
    M (session iv_db) db_err string :=
  with_pool_tx (
    open <- query (λ s, find_open sid (tables s)) ;;
    record_status open sid status budget at_).

Definition SetIntervalAnalysis (id analysis : string) : M (session iv_db) db_err unit :=
  update_interval id (set_interval_analysis analysis).

(** The Go map the rows are collected in: a later row of a service replaces an
    earlier one. *)
Definition OpenIntervalsByService : M (session iv_db) db_err (gmap string StatusInterval) :=
  query (λ s,
    foldl (λ m x, <[ServiceID x := x]> m) ∅ (filter (λ x, is_open x = true) (rows (tables s)))).

(** WHERE service_id = ANY($1) AND starts_at < $2 AND (ends_at IS NULL OR ends_at > $3) *)
Definition overlapping (sids : list string) (windowStart now : Z) (x : StatusInterval) : bool :=
  bool_decide (ServiceID x ∈ sids) && (StartsAt x <? now) &&
  match EndsAt x with None => true | Some e => windowStart <? e end.

(** ORDER BY service_id, starts_at ASC *)
Definition by_service_start (x y : StatusInterval) : Prop :=
  String.ltb (ServiceID x) (ServiceID y) = true ∨
  ServiceID x = ServiceID y ∧ StartsAt x ≤ StartsAt y.
#[global] Instance by_service_start_dec x y : Decision (by_service_start x y).
Proof. unfold by_service_start. apply _. Defined.

Definition ListOverlapping (sids : list string) (windowStart now : Z) :
    M (session iv_db) db_err (list StatusInterval) :=
  if bool_decide (sids = []) then ret []
  else query (λ s,
    merge_sort by_service_start
      (filter (λ x, overlapping sids windowStart now x = true) (rows (tables s)))).

Definition closed_before (cutoff : Z) (x : StatusInterval) : bool :=
  match EndsAt x with None => false | Some e => e <? cutoff end.

Definition DeleteClosedBefore (cutoff : Z) : M (session iv_db) db_err Z :=
  stmt (λ s,
    let gone := filter (λ p, closed_before cutoff p.2 = true) (intervals (tables s)) in
    Ok (Z.of_nat (size gone),
        set_intervals (filter (λ p, ¬ closed_before cutoff p.2 = true)) (tables s))).

Definition CountUpdatedSince (since : Z) : M (session iv_db) db_err Z :=
  query (λ s,
    Z.of_nat (length (filter (λ x, since ≤ LastSeenAt x) (rows (tables s))))).

(** ** The pruner *)

(** [prune] at [now]: a failed delete is logged and dropped. *)
Definition prune (now retention : Z) : M (session iv_db) db_err unit :=
  attempt (DeleteClosedBefore (time_add now (- retention))) ;;; ret tt.

(** [runCycle]: the answer of the leadership lock is the caller's. *)
Definition runCycle (lock : res db_err bool) (now retention : Z) :
    M (session iv_db) db_err unit :=
  match lock with
  | Err _ => ret tt
  | Ok false => ret tt
  | Ok true => prune now retention
  end.
End intervals.

(** ** Well-formed histories *)

Definition before (x y : StatusInterval) : Prop := ∃ e, EndsAt x = Some e ∧ e ≤ StartsAt y.

(** Rows are keyed by their id, run forward in time, and two rows of a service
    never overlap: in particular at most one of them is open. *)
Record wf (d : iv_db) : Prop := {
  wf_id : ∀ i x, intervals d !! i = Some x → IvID x = i;
  wf_times : ∀ i x, intervals d !! i = Some x →
    StartsAt x ≤ LastSeenAt x ∧ ∀ e, EndsAt x = Some e → LastSeenAt x ≤ e;
  wf_disjoint : ∀ i j x y, intervals d !! i = Some x → intervals d !! j = Some y → i ≠ j →
    ServiceID x = ServiceID y → before x y ∨ before y x;
}.

(** Nothing is recorded for the service after [t]. *)
Definition recorded_by (d : iv_db) (sid : string) (t : Z) : Prop :=
  ∀ i x, intervals d !! i = Some x → ServiceID x = sid →
    LastSeenAt x ≤ t ∧ ∀ e, EndsAt x = Some e → e ≤ t.

(** At most one open row per service. *)
Definition one_open (d : iv_db) : Prop :=
  ∀ i j x y, intervals d !! i = Some x → intervals d !! j = Some y →
    ServiceID x = ServiceID y → EndsAt x = None → EndsAt y = None → i = j.

Definition empty_iv (sids : gset string) : iv_db := {| intervals := ∅; service_ids := sids |}.

Lemma wf_empty sids : wf (empty_iv sids).
Proof. split; cbn; intros *; by rewrite lookup_empty. Qed.

Lemma wf_one_open d : wf d → one_open d.
Proof.
  intros [_ _ Hd] i j x y Hi Hj Hs Hx Hy. destruct (decide (i = j)); [done|].
  destruct (Hd i j x y) as [(e & He & _)|(e & He & _)]; congruence.
Qed.

Lemma elem_of_rows d x : x ∈ rows d ↔ ∃ i, intervals d !! i = Some x.
Proof.
  unfold rows. rewrite list_elem_of_fmap. split.
  - intros ([i y] & -> & H). apply elem_of_map_to_list in H. eauto.
  - intros [i H]. exists (i, x). split; [done|]. by apply elem_of_map_to_list.
Qed.

Lemma open_for_spec sid x : open_for sid x = true ↔ ServiceID x = sid ∧ EndsAt x = None.
Proof.
  unfold open_for, is_open. rewrite andb_true_iff, String.eqb_eq.
  destruct (EndsAt x); naive_solver.
Qed.

Lemma find_open_Some sid d o :
  find_open sid d = Some o →
  ServiceID o = sid ∧ EndsAt o = None ∧ ∃ i, intervals d !! i = Some o.
Proof.
  unfold find_open. intros H. apply head_Some in H as [l Hl].
  assert (o ∈ filter (λ x, open_for sid x = true) (rows d)) as Ho by (rewrite Hl; left).
  apply list_elem_of_filter in Ho as [Ho Hr]. apply open_for_spec in Ho as [? ?].
  apply elem_of_rows in Hr. eauto.
Qed.

Lemma find_open_None sid d :
  find_open sid d = None ↔
  ∀ i x, intervals d !! i = Some x → ServiceID x = sid → EndsAt x ≠ None.
Proof.
  unfold find_open. rewrite head_None. split.
  - intros H i x Hi Hs He.
    assert (x ∈ filter (λ x, open_for sid x = true) (rows d)) as Hx; [|rewrite H in Hx; by apply elem_of_nil in Hx].
    apply list_elem_of_filter. split; [by apply open_for_spec|]. apply elem_of_rows. eauto.
  - intros H.
    destruct (filter _ _) as [|x l] eqn:E; [done|].
    assert (x ∈ filter (λ x, open_for sid x = true) (rows d)) as Hx by (rewrite E; left).
    apply list_elem_of_filter in Hx as [[? ?]%open_for_spec [i ?]%elem_of_rows].
    destruct (H i x); done.
Qed.

(** The three row changes keep a history well formed. *)

Lemma before_irrefl_open x y : EndsAt x = None → ¬ before x y.
Proof. intros H (e & He & _). congruence. Qed.

Lemma recorded_before d sid t x i y :
  recorded_by d sid t → intervals d !! i = Some x → ServiceID x = sid → EndsAt x ≠ None →
  StartsAt y = t → before x y.
Proof.
  intros Hr Hi Hs He Hy. destruct (EndsAt x) as [e|] eqn:E; [|done].
  exists e. split; [done|]. destruct (Hr i x Hi Hs) as [_ H]. specialize (H e E). lia.
Qed.

Lemma wf_insert d sid st b t id :
  wf d → find_open sid d = None → intervals d !! id = None → recorded_by d sid t →
  wf (set_intervals (<[id := new_interval id sid st b t]>) d).
Proof.
  intros [Hid Ht Hd] Ho Hn Hr. rewrite find_open_None in Ho. split; cbn.
  - intros i x [[<- <-]|[_ Hi]]%lookup_insert_Some; [done|eauto].
  - intros i x [[<- <-]|[_ Hi]]%lookup_insert_Some; [cbn|eauto]. split; [lia|done].
  - intros i j x y [[<- <-]|[Hni Hi]]%lookup_insert_Some
      [[<- <-]|[Hnj Hj]]%lookup_insert_Some Hne Hs; [done| | |by eapply Hd].
    + right. by eapply recorded_before; eauto.
    + left. by eapply recorded_before; eauto.
Qed.

Lemma alter_lookup_Some (f : StatusInterval → StatusInterval)
    (m : gmap string StatusInterval) k i x :
  alter f k m !! i = Some x →
  (i = k ∧ ∃ y, m !! k = Some y ∧ x = f y) ∨ (i ≠ k ∧ m !! i = Some x).
Proof.
  destruct (decide (i = k)) as [->|].
  - rewrite lookup_alter_eq. destruct (m !! k); cbn; [|done]. intros [= <-]. eauto.
  - rewrite lookup_alter_ne by done. auto.
Qed.

(** A row change that keeps identity and start and only restricts the end. *)
Lemma wf_alter d f k o :
  wf d → intervals d !! k = Some o → EndsAt o = None →
  IvID (f o) = IvID o → ServiceID (f o) = ServiceID o → StartsAt (f o) = StartsAt o →
  StartsAt o ≤ LastSeenAt (f o) → (∀ e, EndsAt (f o) = Some e → LastSeenAt (f o) ≤ e) →
  wf (set_intervals (alter f k) d).
Proof.
  intros [Hid Ht Hd] Ho Ho' E1 E2 E3 Hl He. split; cbn.
  - intros i x [[-> (y & Hy & ->)]|[_ Hi]]%alter_lookup_Some; [|eauto].
    simplify_eq. rewrite E1. eauto.
  - intros i x [[-> (y & Hy & ->)]|[_ Hi]]%alter_lookup_Some; [|eauto].
    simplify_eq. rewrite E3. eauto.
  - assert (∀ j y, j ≠ k → intervals d !! j = Some y → ServiceID y = ServiceID o → before y (f o)) as H.
    { intros j y Hj Hy Hs. destruct (Hd j k y o) as [(e & H1 & H2)|(e & H1 & _)]; try done;
        [|congruence]. exists e. split; [done|lia]. }
    intros i j x y [[-> (x' & Hx & ->)]|[Hni Hi]]%alter_lookup_Some
      [[-> (y' & Hy & ->)]|[Hnj Hj]]%alter_lookup_Some Hne Hs; simplify_eq; [| |by eapply Hd].
    + right. eapply H; eauto. congruence.
    + left. eapply H; eauto. congruence.
Qed.

Lemma wf_extend d o k b t :
  wf d → intervals d !! k = Some o → EndsAt o = None → recorded_by d (ServiceID o) t →
  wf (set_intervals (alter (extend_interval b t) k) d).
Proof.
  intros Hw Ho Ho' Hr. eapply wf_alter; eauto; cbn; [|congruence].
  destruct (Hr k o Ho eq_refl). destruct (wf_times d Hw k o Ho). lia.
Qed.

Lemma wf_close d o k t :
  wf d → intervals d !! k = Some o → EndsAt o = None → recorded_by d (ServiceID o) t →
  wf (set_intervals (alter (close_interval t) k) d) ∧
  recorded_by (set_intervals (alter (close_interval t) k) d) (ServiceID o) t.
Proof.
  intros Hw Ho Ho' Hr. destruct (wf_times d Hw k o Ho). destruct (Hr k o Ho eq_refl). split.
  - eapply wf_alter; eauto; cbn. intros e [= <-]. done.
  - intros i x [[-> (y & Hy & ->)]|[_ Hi]]%alter_lookup_Some; [|eauto].
    simplify_eq. cbn. intros _. split; [done|]. by intros e [= <-].
Qed.

Lemma wf_filter d (P : string * StatusInterval → Prop) `{!∀ p, Decision (P p)} :
  wf d → wf (set_intervals (filter P) d).
Proof.
  intros [Hid Ht Hd]. split; cbn.
  - intros i x [Hx _]%map_lookup_filter_Some. eauto.
  - intros i x [Hx _]%map_lookup_filter_Some. eauto.
  - intros i j x y [Hi _]%map_lookup_filter_Some [Hj _]%map_lookup_filter_Some. eauto.
Qed.

Lemma wf_set_analysis d k a : wf d → wf (set_intervals (alter (set_interval_analysis a) k) d).
Proof.
  intros [Hid Ht Hd]. split; cbn.
  - intros i x [[-> (y & Hy & ->)]|[_ Hi]]%alter_lookup_Some; [|eauto]. cbn. eauto.
  - intros i x [[-> (y & Hy & ->)]|[_ Hi]]%alter_lookup_Some; [|eauto]. cbn. eauto.
  - intros i j x y [[-> (x' & Hx & ->)]|[Hni Hi]]%alter_lookup_Some
      [[-> (y' & Hy & ->)]|[Hnj Hj]]%alter_lookup_Some Hne; [done|..]; unfold before; cbn;
      intros; by eapply (Hd _ _ _ _).
Qed.

#[export] Hint Resolve wf_filter wf_set_analysis wf_empty : vane.

(** ** What recording a status does *)

(** [open] is an open row of the service, as it is stored. *)
Definition open_valid (open : option StatusInterval) (sid : string) (d : iv_db) : Prop :=
  ∀ o, open = Some o → intervals d !! IvID o = Some o ∧ ServiceID o = sid ∧ EndsAt o = None.

Definition closed_db (o : StatusInterval) (t : Z) (d : iv_db) : iv_db :=
  set_intervals (alter (close_interval t) (IvID o)) d.
Definition opened_db (id sid st : string) (b : float) (t : Z) (d : iv_db) : iv_db :=
  set_intervals (<[id := new_interval id sid st b t]>) d.

(** The outcome of recording [st]: a first row, the open row extended, or the
    open row closed and a new one opened. *)
Inductive recorded (open : option StatusInterval) (sid st : string) (b : float) (t : Z)
    (d : iv_db) (id : string) : iv_db → Prop :=
| recorded_first :
    open = None → find_open sid d = None → intervals d !! id = None →
    recorded open sid st b t d id (opened_db id sid st b t d)
| recorded_same o :
    open = Some o → Status o = st → id = IvID o →
    recorded open sid st b t d id (set_intervals (alter (extend_interval b t) id) d)
| recorded_change o :
    open = Some o → Status o ≠ st → find_open sid (closed_db o t d) = None →
    intervals (closed_db o t d) !! id = None →
    recorded open sid st b t d id (opened_db id sid st b t (closed_db o t d)).

Section recording.
Context `{!Driver}.

Lemma find_open_valid sid d : wf d → open_valid (find_open sid d) sid d.
Proof.
  intros Hw o (? & ? & i & Hi)%find_open_Some. by rewrite (wf_id d Hw i o Hi).
Qed.

Lemma insertOpenInterval_inv sid st b t s id s' :
  insertOpenInterval sid st b t s = (Ok id, s') →
  find_open sid (tables s) = None ∧ intervals (tables s) !! id = None ∧
  tables s' = opened_db id sid st b t (tables s).
Proof.
  intros (d & Hf & <- & _)%stmt_Ok_inv. cbv zeta in Hf.
  destruct (negb _); [done|].
  destruct (intervals (tables s) !! gen_uuid (tick s)) eqn:Hi, (find_open sid (tables s)) eqn:Ho;
    try done. by simplify_eq.
Qed.

Lemma record_status_inv open sid st b t s id s' :
  record_status open sid st b t s = (Ok id, s') →
  recorded open sid st b t (tables s) id (tables s').
Proof.
  unfold record_status. destruct open as [o|].
  - destruct (String.eqb_spec (Status o) st) as [<-|Hne];
      intros (u & s1 & (d & [= <- <-] & Ht & _)%stmt_Ok_inv & Hk)%bind_Ok_inv.
    + injection Hk as <- <-. rewrite Ht. by eapply recorded_same.
    + apply insertOpenInterval_inv in Hk as (Ho & Hi & ->). rewrite Ht in *.
      by eapply recorded_change.
  - intros (Ho & Hi & ->)%insertOpenInterval_inv. by apply recorded_first.
Qed.

Lemma recorded_wf open sid st b t d id d' :
  recorded open sid st b t d id d' → wf d → recorded_by d sid t → open_valid open sid d →
  wf d'.
Proof.
  intros [Ho Hf Hi|o Ho Hs ->|o Ho Hs Hf Hi] Hw Hr Hv.
  - by apply wf_insert.
  - destruct (Hv o Ho) as (? & <- & ?). by eapply wf_extend.
  - destruct (Hv o Ho) as (? & <- & ?).
    destruct (wf_close d o (IvID o) t) as [Hw1 Hr1]; try done. by apply wf_insert.
Qed.

(** The row the caller is told about. *)
Lemma recorded_row open sid st b t d id d' :
  recorded open sid st b t d id d' → open_valid open sid d →
  ∃ x, intervals d' !! id = Some x ∧ ServiceID x = sid ∧ Status x = st ∧
       LastSeenAt x = t ∧ EndsAt x = None ∧
       match open with
       | Some o => if String.eqb (Status o) st then id = IvID o ∧ StartsAt x = StartsAt o
                   else StartsAt x = t ∧ intervals d' !! IvID o = Some (close_interval t o)
       | None => StartsAt x = t
       end.
Proof.
  intros [-> Hf Hi|o -> Hs ->|o -> Hs Hf Hi] Hv; cbn.
  - rewrite lookup_insert_eq. eexists. split_and!; [done|..]; done.
  - destruct (Hv o eq_refl) as (E & ? & ?). rewrite lookup_alter_eq, E. cbn.
    rewrite (proj2 (String.eqb_eq _ _) Hs). eexists. by split_and!.
  - destruct (Hv o eq_refl) as (E & ? & ?). rewrite (proj2 (String.eqb_neq _ _) Hs).
    rewrite lookup_insert_eq. eexists. split_and!; [done..|].
    rewrite lookup_insert_ne; [by rewrite lookup_alter_eq, E|].
    intros ->. cbn in Hi. by rewrite lookup_alter_eq, E in Hi.
Qed.

(** Rows of other services stay as they are. *)
Lemma recorded_other open sid st b t d id d' j y :
  recorded open sid st b t d id d' → open_valid open sid d → ServiceID y ≠ sid →
  intervals d !! j = Some y → intervals d' !! j = Some y.
Proof.
  intros [-> Hf Hi|o -> Hs ->|o -> Hs Hf Hi] Hv Hy Hj; cbn.
  - rewrite lookup_insert_ne; [done|]. intros ->. congruence.
  - destruct (Hv o eq_refl) as (E & ? & ?). rewrite lookup_alter_ne; [done|]. congruence.
  - destruct (Hv o eq_refl) as (E & ? & ?). cbn in Hi.
    assert (IvID o ≠ j) by congruence.
    rewrite lookup_insert_ne; [by rewrite lookup_alter_ne|].
    intros ->. by rewrite lookup_alter_ne, Hj in Hi.
Qed.

Lemma OpenOrExtend_inv sid st b t s r s' :
  OpenOrExtend sid st b t s = (r, s') →
  (∃ e, r = Err e ∧ tables s' = tables s) ∨
  (∃ id, r = Ok id ∧
     recorded (find_open sid (tables s)) sid st b t (tables s) id (tables s')).
Proof.
  intros [Hf|(id & i & Hb & -> & ->)]%with_pool_tx_inv; [by left|right].
  exists id. split; [done|].
  apply bind_Ok_inv in Hb as (open & s1 & [-> Ht]%query_Ok_inv & Hr). cbn in *.
  apply record_status_inv in Hr. by rewrite Ht in Hr.
Qed.
End recording.

(** ** Histories of operations *)

Inductive iv_op :=
| OpObserve (sid status : string) (budget : float) (at_ : Z)
| OpSetAnalysis (id a : string)
| OpPruneCycle (lock : res db_err bool) (now retention : Z).

(** The observations of a history run forward in time from [t]. *)
Fixpoint forward (t : Z) (l : list iv_op) : Prop :=
  match l with
  | [] => True
  | OpObserve _ _ _ at_ :: l => t ≤ at_ ∧ forward at_ l
  | _ :: l => forward t l
  end.

Section history.
Context `{!Driver}.

Definition run_iv_op (o : iv_op) : M (session iv_db) db_err unit :=
  match o with
  | OpObserve sid st b t => OpenOrExtend sid st b t ;;; ret tt
  | OpSetAnalysis id a => SetIntervalAnalysis id a
  | OpPruneCycle lock now retention => runCycle lock now retention
  end.

Fixpoint run_iv_ops (l : list iv_op) : M (session iv_db) db_err unit :=
  match l with
  | [] => ret tt
  | o :: l => attempt (run_iv_op o) ;;; run_iv_ops l
  end.

(** A well-formed history in which nothing is later than [t]. *)
Definition wf_until (d : iv_db) (t : Z) : Prop := wf d ∧ ∀ sid, recorded_by d sid t.

Lemma wf_until_weaken d t u : wf_until d t → t ≤ u → wf_until d u.
Proof.
  intros [Hw Hr] Htu. split; [done|]. intros sid i x Hi Hs.
  destruct (Hr sid i x Hi Hs) as [? He]. split; [lia|]. intros e Ee. specialize (He e Ee). lia.
Qed.

Lemma recorded_until open sid st b t d id d' :
  recorded open sid st b t d id d' → open_valid open sid d → wf_until d t → wf_until d' t.
Proof.
  intros Hrec Hv [Hw Hr]. split; [by eapply recorded_wf|].
  assert (∀ d k, (∀ sid, recorded_by d sid t) → ∀ f,
    (∀ x, LastSeenAt (f x) = LastSeenAt x ∨ LastSeenAt (f x) = t) →
    (∀ x, EndsAt (f x) = EndsAt x ∨ EndsAt (f x) = Some t) →
    ∀ sid, recorded_by (set_intervals (alter f k) d) sid t) as Halter.
  { intros d1 k H1 f Hl He sid1 i x [[-> (y & Hy & ->)]|[_ Hi]]%alter_lookup_Some _;
      [|by eapply H1].
    destruct (H1 _ _ _ Hy eq_refl) as [Hy1 Hy2]. split.
    - destruct (Hl y) as [->| ->]; [done|lia].
    - intros e. destruct (He y) as [->| ->]; [by apply Hy2|]. intros [= <-]. lia. }
  assert (∀ d, (∀ sid, recorded_by d sid t) →
    ∀ sid1, recorded_by (opened_db id sid st b t d) sid1 t) as Hopen.
  { intros d1 H1 sid1 i x; cbn; intros [[<- <-]|[_ Hi]]%lookup_insert_Some; [|by eapply H1].
    intros _. cbn. split; [lia|done]. }
  destruct Hrec as [Ho Hf Hi|o Ho Hs ->|o Ho Hs Hf Hi].
  - by apply Hopen.
  - apply Halter; [done|by right|by left].
  - apply Hopen. apply Halter; [done|by left|by right].
Qed.

Lemma OpenOrExtend_until sid st b t s u :
  wf_until (tables s) u → u ≤ t → wf_until (tables (OpenOrExtend sid st b t s).2) t.
Proof.
  intros Hw Hle. eapply wf_until_weaken in Hw; [|done].
  destruct (OpenOrExtend sid st b t s) as [r s'] eqn:E.
  apply OpenOrExtend_inv in E as [(e & _ & Ht)|(id & _ & Hrec)]; cbn; [by rewrite Ht|].
  eapply recorded_until; [done| |done]. apply find_open_valid, Hw.
Qed.

Lemma stmt_tables {A} (f : session iv_db → res db_err (A * iv_db)) (P : iv_db → Prop) s :
  P (tables s) → (∀ a d, f s = Ok (a, d) → P d) → P (tables (stmt f s).2).
Proof.
  intros Hs Hf. destruct (stmt f s) as [r s'] eqn:E.
  apply stmt_inv in E as [(e & _ & Ht)|(a & d & Hd & _ & ->)]; cbn; [by rewrite Ht|eauto].
Qed.

Lemma DeleteClosedBefore_tables (P : iv_db → Prop) c s :
  P (tables s) →
  P (set_intervals (filter (λ p, ¬ closed_before c p.2 = true)) (tables s)) →
  P (tables (DeleteClosedBefore c s).2).
Proof. intros Hs Hf. apply (stmt_tables _ P); [done|]. by intros a d [= _ <-]. Qed.

Lemma runCycle_tables (P : iv_db → Prop) lock now retention s :
  P (tables s) →
  P (set_intervals (filter (λ p, ¬ closed_before (time_add now (- retention)) p.2 = true))
       (tables s)) →
  P (tables (runCycle lock now retention s).2).
Proof.
  intros Hs Hf. unfold runCycle. destruct lock as [[]|]; [|done..].
  unfold prune, bind, attempt. pose proof (DeleteClosedBefore_tables P _ s Hs Hf) as HD.
  by destruct (DeleteClosedBefore _ s).
Qed.

Lemma wf_until_filter d t (P : string * StatusInterval → Prop) `{!∀ p, Decision (P p)} :
  wf_until d t → wf_until (set_intervals (filter P) d) t.
Proof.
  intros [Hw Hr]. split; [by apply wf_filter|].
  intros sid i x [Hi _]%map_lookup_filter_Some. by apply (Hr sid i).
Qed.

Lemma run_iv_op_until o s t :
  wf_until (tables s) t → forward t [o] →
  wf_until (tables (run_iv_op o s).2)
    (match o with OpObserve _ _ _ at_ => at_ | _ => t end).
Proof.
  intros Hw Hf. destruct o as [sid st b at_|id a|lock now retention]; cbn [run_iv_op].
  - destruct Hf as [Hf _]. pose proof (OpenOrExtend_until sid st b at_ s t Hw Hf) as Ho.
    unfold bind. by destruct (OpenOrExtend sid st b at_ s) as [[]].
  - apply (stmt_tables _ (λ d, wf_until d t)); [done|].
    intros u d [= _ <-]. destruct Hw as [Hw Hr]. split; [by apply wf_set_analysis|].
    intros sid i x [[-> (y & Hy & ->)]|[_ Hi]]%alter_lookup_Some; [cbn|]; by eapply Hr.
  - apply (runCycle_tables (λ d, wf_until d t)); [done|]. by apply wf_until_filter.
Qed.

Lemma run_iv_ops_until l s t :
  wf_until (tables s) t → forward t l → ∃ u, wf_until (tables (run_iv_ops l s).2) u.
Proof.
  revert s t. induction l as [|o l IH]; intros s t Hw Hf; [by exists t|].
  cbn [run_iv_ops]. unfold bind, attempt.
  assert (forward t [o]) as Hf1 by (destruct o; cbn in *; tauto).
  pose proof (run_iv_op_until o s t Hw Hf1) as Ho.
  destruct (run_iv_op o s) as [r s1]. eapply IH; [exact Ho|].
  destruct o; cbn in *; tauto.
Qed.
End history.

(** ** Concurrent writers

    Replicas record statuses concurrently.  A writer takes its row lock with
    SELECT ... FOR UPDATE and later writes and commits; between the two other
    writers may commit.  A locked row is nobody else's until the holder is
    done.  A writer that had to wait, or whose snapshot is older than a row
    committed since, sees no open row. *)

Inductive phase :=
| Waiting
| Locked (open : option StatusInterval)
| Finished (r : res db_err string).

Record writer := Writer {
  w_sid : string;
  w_status : string;
  w_budget : float;
  w_at : Z;
  w_phase : phase;
}.

Definition set_phase (p : phase) (w : writer) : writer :=
  Writer (w_sid w) (w_status w) (w_budget w) (w_at w) p.

Section writers.
Context `{!Driver}.

Definition write (w : writer) (open : option StatusInterval) : M (session iv_db) db_err string :=
  record_status open (w_sid w) (w_status w) (w_budget w) (w_at w).

(** The row is locked by a writer other than [i]. *)
Definition locked_by_other (i : nat) (o : StatusInterval) (ws : list writer) : Prop :=
  ∃ j w o', j ≠ i ∧ ws !! j = Some w ∧ w_phase w = Locked (Some o') ∧ IvID o' = IvID o.

Inductive wstep : iv_db * list writer → iv_db * list writer → Prop :=
| wstep_lock d ws i w :
    ws !! i = Some w → w_phase w = Waiting →
    (∀ o, find_open (w_sid w) d = Some o → ¬ locked_by_other i o ws) →
    wstep (d, ws) (d, <[i := set_phase (Locked (find_open (w_sid w) d)) w]> ws)
| wstep_stale d ws i w :
    ws !! i = Some w → w_phase w = Waiting →
    wstep (d, ws) (d, <[i := set_phase (Locked None) w]> ws)
| wstep_commit d ws i w open s id s' :
    ws !! i = Some w → w_phase w = Locked open → tables s = d →
    write w open s = (Ok id, s') →
    wstep (d, ws) (tables s', <[i := set_phase (Finished (Ok id)) w]> ws)
| wstep_error d ws i w open s e s' :
    ws !! i = Some w → w_phase w = Locked open → tables s = d →
    write w open s = (Err e, s') →
    wstep (d, ws) (d, <[i := set_phase (Finished (Err e)) w]> ws)
| wstep_broken d ws i w :
    ws !! i = Some w →
    wstep (d, ws) (d, <[i := set_phase (Finished (Err ErrDriver)) w]> ws).

Record winv (d : iv_db) (ws : list writer) : Prop := {
  winv_key : ∀ i x, intervals d !! i = Some x → IvID x = i;
  winv_one : one_open d;
  winv_lock : ∀ i w o, ws !! i = Some w → w_phase w = Locked (Some o) →
    open_valid (Some o) (w_sid w) d ∧ ¬ locked_by_other i o ws;
}.

Lemma locked_by_other_insert i k o w ws p :
  locked_by_other i o (<[k := set_phase p w]> ws) →
  (∀ o', p = Locked (Some o') → IvID o' ≠ IvID o ∨ k = i) → locked_by_other i o ws.
Proof.
  intros (j & w' & o' & Hj & [(-> & <- & _)|[_ Hw]]%list_lookup_insert_Some & Hp & Hid) Hk.
  - destruct (Hk o' Hp); done.
  - by exists j, w', o'.
Qed.

(** A step that only moves a writer to a phase holding no row. *)
Lemma winv_phase d ws k w p :
  winv d ws → (∀ o, p ≠ Locked (Some o)) → winv d (<[k := set_phase p w]> ws).
Proof.
  intros [Hk Ho Hl] Hp. split; try done.
  intros i w' o [(-> & <- & _)|[Hne Hw]]%list_lookup_insert_Some E; [by destruct (Hp o)|].
  destruct (Hl i w' o Hw E) as [Hv Hn]. split; [done|]. intros Hlk. apply Hn.
  eapply locked_by_other_insert; [done|]. intros o' ->. by destruct (Hp o').
Qed.

(** What a commit leaves alone: every row but the fresh one and the one held. *)
Lemma recorded_keeps open sid st b t d id d' j y :
  recorded open sid st b t d id d' → open_valid open sid d →
  (∀ o, open = Some o → IvID o ≠ j) → intervals d !! j = Some y → intervals d' !! j = Some y.
Proof.
  intros [-> Hf Hi|o -> Hs ->|o -> Hs Hf Hi] Hv Hne Hj; cbn.
  - rewrite lookup_insert_ne; [done|]. intros ->. congruence.
  - rewrite lookup_alter_ne; [done|]. by apply Hne.
  - specialize (Hne o eq_refl). cbn in Hi.
    rewrite lookup_insert_ne; [by rewrite lookup_alter_ne|].
    intros ->. by rewrite lookup_alter_ne, Hj in Hi.
Qed.

Lemma one_open_alter d f k :
  (∀ x, ServiceID (f x) = ServiceID x) → (∀ x, EndsAt (f x) = None → EndsAt x = None) →
  one_open d → one_open (set_intervals (alter f k) d).
Proof.
  intros Hs He Ho i j x y [[-> (x' & Hx & ->)]|[Hni Hi]]%alter_lookup_Some
    [[-> (y' & Hy & ->)]|[Hnj Hj]]%alter_lookup_Some; rewrite ?Hs; intros; eauto.
Qed.

Lemma one_open_insert d id sid st b t :
  find_open sid d = None → one_open d → one_open (opened_db id sid st b t d).
Proof.
  intros Hf Ho i j x y; cbn. rewrite find_open_None in Hf.
  intros [[<- <-]|[Hni Hi]]%lookup_insert_Some [[<- <-]|[Hnj Hj]]%lookup_insert_Some;
    cbn; intros Hs Hx Hy; [done| | |by eapply Ho].
  - by destruct (Hf j y Hj (eq_sym Hs)).
  - by destruct (Hf i x Hi Hs).
Qed.

Lemma recorded_one_open open sid st b t d id d' :
  recorded open sid st b t d id d' → one_open d → one_open d'.
Proof.
  intros [-> Hf Hi|o -> Hs ->|o -> Hs Hf Hi] Ho.
  - by apply one_open_insert.
  - by apply one_open_alter.
  - apply one_open_insert; [done|]. by apply one_open_alter.
Qed.

(** And none appears. *)
Lemma recorded_back open sid st b t d id d' j y :
  recorded open sid st b t d id d' → open_valid open sid d → ServiceID y ≠ sid →
  intervals d' !! j = Some y → intervals d !! j = Some y.
Proof.
  assert (∀ f d o k, intervals d !! k = Some o → ServiceID o = sid → (∀ x, ServiceID (f x) = ServiceID x) →
    ServiceID y ≠ sid → intervals (set_intervals (alter f k) d) !! j = Some y → intervals d !! j = Some y) as Ha.
  { intros f d1 o k Ho Hs Hf Hy [[-> (x & Hx & ->)]|[_ ?]]%alter_lookup_Some; [|done].
    rewrite Hf in Hy. congruence. }
  intros [-> Hf Hi|o -> Hs ->|o -> Hs Hf Hi] Hv Hy; cbn.
  - by intros [[<- <-]|[_ ?]]%lookup_insert_Some.
  - destruct (Hv o eq_refl) as (E & ? & ?). by eapply (Ha (extend_interval b t) d o).
  - destruct (Hv o eq_refl) as (E & ? & ?).
    intros [[<- <-]|[_ ?]]%lookup_insert_Some; [done|by eapply (Ha (close_interval t) d o)].
Qed.

Lemma recorded_key open sid st b t d id d' :
  recorded open sid st b t d id d' →
  (∀ i x, intervals d !! i = Some x → IvID x = i) →
  ∀ i x, intervals d' !! i = Some x → IvID x = i.
Proof.
  assert (∀ d f k, (∀ x, IvID (f x) = IvID x) →
    (∀ i x, intervals d !! i = Some x → IvID x = i) →
    ∀ i x, intervals (set_intervals (alter f k) d) !! i = Some x → IvID x = i) as Ha.
  { intros d1 f k Hf Hk i x [[-> (y & Hy & ->)]|[_ Hx]]%alter_lookup_Some; [|by eapply Hk].
    rewrite Hf. by eapply Hk. }
  assert (∀ d sid st b t id, (∀ i x, intervals d !! i = Some x → IvID x = i) →
    ∀ i x, intervals (opened_db id sid st b t d) !! i = Some x → IvID x = i) as Hb.
  { intros d1 sid1 st1 b1 t1 id1 Hk i x; cbn.
    intros [[<- <-]|[_ Hx]]%lookup_insert_Some; [done|by eapply Hk]. }
  intros [-> Hf Hi|o -> Hs ->|o -> Hs Hf Hi] Hk; [by apply Hb|by apply Ha|].
  apply Hb. by apply Ha.
Qed.

Lemma writer_valid d ws i w open :
  winv d ws → ws !! i = Some w → w_phase w = Locked open → open_valid open (w_sid w) d.
Proof.
  intros Hi Hw Hp. destruct open as [o|]; [|done].
  by destruct (winv_lock d ws Hi i w o Hw Hp).
Qed.

Lemma wstep_inv d ws d' ws' : wstep (d, ws) (d', ws') → winv d ws → winv d' ws'.
Proof.
  intros Hst Hi. inversion Hst as [? ? i w Hw Hp Hn|? ? i w Hw Hp|? ? i w open s id s' Hw Hp Ht Hwr
    |? ? i w open s e s' Hw Hp Ht Hwr|? ? i w Hw]; subst; try by apply winv_phase.
  - destruct (find_open (w_sid w) d') as [o|] eqn:Ho; [|by apply winv_phase].
    destruct Hi as [Hk H1 Hl]. split; [done..|].
    assert (open_valid (Some o) (w_sid w) d') as Hv.
    { intros o' [= <-]. apply find_open_Some in Ho as (? & ? & j & Hj).
      by rewrite (Hk j o Hj). }
    intros j w' o' [(<- & <- & _)|[Hne Hw']]%list_lookup_insert_Some E.
    + cbn in E. simplify_eq. split; [done|]. intros Hlk. apply (Hn o' eq_refl).
      eapply locked_by_other_insert; [done|]. by right.
    + destruct (Hl j w' o' Hw' E) as [Hv' Hn']. split; [done|]. intros Hlk. apply Hn'.
      eapply locked_by_other_insert; [done|]. intros o2 [= <-]. left. intros Hid.
      apply (Hn o eq_refl). by exists j, w', o'.
  - apply record_status_inv in Hwr.
    pose proof (writer_valid _ _ _ _ _ Hi Hw Hp) as Hv. destruct Hi as [Hk H1 Hl].
    split; [by eapply recorded_key|by eapply recorded_one_open|].
    intros j w' o' [(<- & <- & _)|[Hne Hw']]%list_lookup_insert_Some E; [done|].
    destruct (Hl j w' o' Hw' E) as [Hv' Hn']. split.
    + intros o2 [= <-]. destruct (Hv' o' eq_refl) as (Hr & ? & ?). split_and!; try done.
      eapply recorded_keeps; try done. intros o -> Hid. apply Hn'. by exists i, w, o.
    + intros Hlk. apply Hn'. by eapply locked_by_other_insert.
Qed.

Lemma winv_start d ws : wf d → Forall (λ w, w_phase w = Waiting) ws → winv d ws.
Proof.
  intros Hw Hall. split; [apply (wf_id d Hw)|by apply wf_one_open|].
  intros i w o Hi E. rewrite Forall_lookup in Hall. specialize (Hall i w Hi). congruence.
Qed.

Lemma wsteps_inv c c' : rtc wstep c c' → winv c.1 c.2 → winv c'.1 c'.2.
Proof.
  induction 1 as [|[d ws] [d1 ws1] c' Hs _ IH]; [done|].
  intros Hi. by eapply IH, wstep_inv.
Qed.

(** The row a commit leaves open, and what it did to the one that was. *)
Definition commit_recorded (w : writer) (open : option StatusInterval) (id : string) (d : iv_db) : Prop :=
  ∃ x, intervals d !! id = Some x ∧ ServiceID x = w_sid w ∧ Status x = w_status w ∧
    LastSeenAt x = w_at w ∧ EndsAt x = None ∧
    match open with
    | Some o => if String.eqb (Status o) (w_status w) then id = IvID o ∧ StartsAt x = StartsAt o
                else StartsAt x = w_at w ∧ intervals d !! IvID o = Some (close_interval (w_at w) o)
    | None => StartsAt x = w_at w
    end.

Lemma find_open_only d sid o :
  one_open d → open_valid (Some o) sid d → find_open sid d = Some o.
Proof.
  intros H1 Hv. destruct (Hv o eq_refl) as (Ho & Hs & He).
  destruct (find_open sid d) as [o'|] eqn:E.
  - apply find_open_Some in E as (Hs' & He' & j & Hj).
    assert (j = IvID o) as -> by (eapply H1; [exact Hj|exact Ho|congruence|done|done]). congruence.
  - rewrite find_open_None in E. by destruct (E _ o Ho Hs).
Qed.

Lemma commit_on_open d ws i w open s id s' :
  winv d ws → ws !! i = Some w → w_phase w = Locked open → tables s = d → write w open s = (Ok id, s') →
  find_open (w_sid w) d = open ∧ commit_recorded w open id (tables s').
Proof.
  intros Hi Hw Hp <- Hwr%record_status_inv.
  pose proof (writer_valid _ _ _ _ _ Hi Hw Hp) as Hv. split; [|by eapply recorded_row].
  destruct open as [o|]; [by apply find_open_only; [apply Hi|]|]. by inversion Hwr.
Qed.

(** A closed row is final. *)
Lemma wstep_closed d ws d' ws' j y :
  wstep (d, ws) (d', ws') → winv d ws → intervals d !! j = Some y → EndsAt y ≠ None →
  intervals d' !! j = Some y.
Proof.
  intros Hst Hi Hj He. inversion Hst as [| |? ? i w open s id s' Hw Hp Ht Hwr| |]; subst; try done.
  apply record_status_inv in Hwr. pose proof (writer_valid _ _ _ _ _ Hi Hw Hp) as Hv.
  eapply recorded_keeps; try done. intros o -> Hid. destruct (Hv o eq_refl) as (Ho & _ & Hn).
  rewrite Hid in Ho. congruence.
Qed.

Lemma wsteps_closed c c' j y :
  rtc wstep c c' → winv c.1 c.2 → intervals c.1 !! j = Some y → EndsAt y ≠ None →
  intervals c'.1 !! j = Some y.
Proof.
  induction 1 as [|[d ws] [d1 ws1] c' Hs _ IH]; [done|]. intros Hi Hj He.
  apply IH; [by eapply wstep_inv|by eapply wstep_closed|done].
Qed.
End writers.

(** ** Pruning *)

Section pruning.
Context `{!Driver}.

Lemma overlapping_not_pruned sids from now cutoff x :
  cutoff ≤ from → overlapping sids from now x = true → closed_before cutoff x = false.
Proof.
  unfold overlapping, closed_before. rewrite !andb_true_iff. intros Hc [_ He].
  destruct (EndsAt x); [|done]. apply Z.ltb_lt in He. apply Z.ltb_ge. lia.
Qed.

Lemma rows_filter d c :
  rows (set_intervals (filter (λ p, ¬ closed_before c p.2 = true)) d) ≡ₚ
  filter (λ x, ¬ closed_before c x = true) (rows d).
Proof.
  unfold rows. cbn. rewrite filter_fmap. apply fmap_Permutation.
  apply NoDup_Permutation.
  - apply NoDup_map_to_list.
  - apply NoDup_filter, NoDup_map_to_list.
  - intros [i x]. rewrite list_elem_of_filter, !elem_of_map_to_list, map_lookup_filter_Some.
    cbn. tauto.
Qed.
End pruning.

(** ** Properties *)

(** C15: histories stay well formed.  From an empty table, after any sequence of
    observations whose times do not go back, analysis writes and pruner cycles,
    and whichever of their statements or commits fail: rows run forward in time,
    no two rows of a service overlap, and a service has at most one open row. *)
Theorem interval_history_wf `{!Driver} (l : list iv_op) (t : Z) (sids : gset string)
    (s : session iv_db) :
  tables s = empty_iv sids → forward t l →
  wf (tables (run_iv_ops l s).2) ∧ one_open (tables (run_iv_ops l s).2).
Proof.
  intros Hs Hf. destruct (run_iv_ops_until l s t) as [u [Hw _]].
  - rewrite Hs. split; [apply wf_empty|]. intros sid i x; cbn. by rewrite lookup_empty.
  - done.
  - split; [done|]. by apply wf_one_open.
Qed.

(** OpenOrExtend does what it says, or nothing.  On a well-formed table it
    either fails and leaves every row as it was, or returns the id of the row
    that is now the service's open one: it has the observed status and was last
    seen at the observation; it is the previous open row with its start when the
    status is the same, a row that starts at the observation otherwise, and then
    the previous open row is closed exactly there.  Rows of other services are
    untouched. *)
Theorem OpenOrExtend_spec `{!Driver} sid st b t (s : session iv_db) :
  wf (tables s) →
  let d := tables s in
  let d' := tables (OpenOrExtend sid st b t s).2 in
  match (OpenOrExtend sid st b t s).1 with
  | Err _ => d' = d
  | Ok id =>
      (∃ x, intervals d' !! id = Some x ∧ ServiceID x = sid ∧ Status x = st ∧
        LastSeenAt x = t ∧ EndsAt x = None ∧
        match find_open sid d with
        | Some o => if String.eqb (Status o) st then id = IvID o ∧ StartsAt x = StartsAt o
                    else StartsAt x = t ∧ intervals d' !! IvID o = Some (close_interval t o)
        | None => StartsAt x = t
        end) ∧
      (∀ j y, ServiceID y ≠ sid → intervals d !! j = Some y → intervals d' !! j = Some y)
  end.
Proof.
  intros Hw. cbv zeta. destruct (OpenOrExtend sid st b t s) as [r s'] eqn:E.
  apply OpenOrExtend_inv in E as [(e & -> & Ht)|(id & -> & Hrec)]; cbn; [done|].
  pose proof (find_open_valid sid (tables s) Hw) as Hv. split.
  - by apply (recorded_row _ _ _ _ _ _ _ _ Hrec).
  - intros j y Hy Hj. by eapply recorded_other.
Qed.

(** pruning is invisible to every query of the retention window.  A pruner
    cycle removes only closed rows that ended before [now - retention], and for
    any window that starts no earlier than that, ListOverlapping answers the
    same rows before and after. *)
Theorem prune_invisible `{!Driver} lock now retention sids from until_ (s s1 : session iv_db) :
  time_add now (- retention) ≤ from →
  s1 = (runCycle lock now retention s).2 →
  (∀ i x, intervals (tables s) !! i = Some x →
    intervals (tables s1) !! i = Some x ∨ (∃ e, EndsAt x = Some e ∧ e < now - retention)) ∧
  (∀ r r1, (ListOverlapping sids from until_ s).1 = Ok r →
    (ListOverlapping sids from until_ s1).1 = Ok r1 → r1 ≡ₚ r).
Proof.
  intros Hc ->. split.
  - intros i x Hi. apply (runCycle_tables (λ d, intervals d !! i = Some x ∨ _)); [by left|].
    destruct (closed_before (time_add now (- retention)) x) eqn:E.
    + right. unfold closed_before, time_add in E. destruct (EndsAt x) as [e|]; [|done].
      exists e. split; [done|]. apply Z.ltb_lt in E. lia.
    + left. cbn. apply map_lookup_filter_Some. cbn. by rewrite E.
  - intros r r1. unfold ListOverlapping. case_bool_decide; [by intros [= <-] [= <-]|].
    set (s1 := (runCycle lock now retention s).2). unfold query, stmt.
    destruct (aborted s); [done|]. destruct (event_fails (tick s)); [done|]. intros [= <-].
    destruct (aborted s1); [done|]. destruct (event_fails (tick s1)); [done|]. intros [= <-].
    rewrite !merge_sort_Permutation. subst s1.
    apply (runCycle_tables (λ d, filter _ (rows d) ≡ₚ _)); [done|].
    rewrite rows_filter, list_filter_filter_l; [done|].
    intros x Hx Hclosed. by rewrite (overlapping_not_pruned sids from until_ _ x Hc Hx) in Hclosed.
Qed.

(** C16: concurrent writers do not lose or rewrite what was recorded.  Start any
    number of writers on a well-formed table; whatever the interleaving of their
    locks, writes, commits and failures: each service has at most one open row; a
    row that is closed at any moment is there unchanged at every later one, so an
    interval is closed once and never extended afterwards; a commit acts on the
    row that is open at that moment, not on an older one, which it extends or
    closes at its own time, and leaves its status open; and a writer that saw no
    open row while another's is open gets ErrIntervalRaceLost and writes nothing. *)
Theorem concurrent_writers_safe `{!Driver} d ws d1 ws1 d' ws' :
  wf d → Forall (λ w, w_phase w = Waiting) ws →
  rtc wstep (d, ws) (d1, ws1) → rtc wstep (d1, ws1) (d', ws') →
  one_open d' ∧
  (∀ j y, intervals d1 !! j = Some y → EndsAt y ≠ None → intervals d' !! j = Some y) ∧
  (∀ i w open s id s', ws' !! i = Some w → w_phase w = Locked open → tables s = d' →
     write w open s = (Ok id, s') → find_open (w_sid w) d' = open ∧ commit_recorded w open id (tables s')) ∧
  (∀ w o s, find_open (w_sid w) d' = Some o → w_sid w ∈ service_ids d' → tables s = d' →
     aborted s = false → event_fails (tick s) = false →
     (write w None s).1 = Err ErrIntervalRaceLost ∧ tables (write w None s).2 = d').
Proof.
  intros Hw Hall Hr1 Hr2. pose proof (wsteps_inv _ _ Hr1 (winv_start d ws Hw Hall)) as Hi1.
  pose proof (wsteps_inv _ _ Hr2 Hi1) as Hi. split_and!.
  - by apply Hi.
  - intros j y. by apply (wsteps_closed _ _ j y Hr2 Hi1).
  - intros i w open s id s' Hi' Hp Ht Hwr. by eapply commit_on_open.
  - intros w o s Ho Hs <- Ha He. unfold write, record_status, insertOpenInterval, stmt.
    rewrite Ha, He, bool_decide_true by done. cbn. rewrite Ho.
    by destruct (intervals (tables s) !! gen_uuid (tick s)).
Qed.

(** ** Examples and witnesses *)

Definition demo_iv : session iv_db := Session (empty_iv {["svc-a"; "svc-b"]}) "" false None false 0.
Definition demo_history : list iv_op :=
  [OpObserve "svc-a" "operational" 1%float 10; OpObserve "svc-a" "outage" 1%float 20;
   OpPruneCycle (Ok true) 100 50; OpObserve "svc-a" "outage" 1%float 30].

(** Two rows remain of a service seen operational and then down. *)
Example demo_history_rows :
  ((λ x, (Status x, StartsAt x, LastSeenAt x, EndsAt x)) <$>
     rows (tables (@run_iv_ops reliable (take 2 demo_history) demo_iv).2)) ≡ₚ
  [("operational", 10, 10, Some 20); ("outage", 20, 20, None)].
Proof. vm_compute. apply Permutation_refl || apply Permutation_swap. Qed.

Lemma interval_history_wf_witness :
  wf (tables (@run_iv_ops reliable demo_history demo_iv).2) ∧
  one_open (tables (@run_iv_ops reliable demo_history demo_iv).2).
Proof.
  apply (@interval_history_wf reliable demo_history 0 {["svc-a"; "svc-b"]}); [reflexivity|].
  cbn. lia.
Defined.

Lemma OpenOrExtend_spec_witness :
  let s := (@run_iv_ops reliable (take 1 demo_history) demo_iv).2 in
  ∃ id x, (@OpenOrExtend reliable "svc-a" "outage" 1%float 20 s).1 = Ok id ∧
    intervals (tables (@OpenOrExtend reliable "svc-a" "outage" 1%float 20 s).2) !! id = Some x ∧
    StartsAt x = 20.
Proof.
  intros s. assert (wf (tables s)) as Hw.
  { destruct (@run_iv_ops_until reliable (take 1 demo_history) demo_iv 0) as [u [Hw _]].
    - split; [apply wf_empty|]. intros sid i x; cbn. by rewrite lookup_empty.
    - cbn. lia.
    - exact Hw. }
  pose proof (@OpenOrExtend_spec reliable "svc-a" "outage" 1%float 20 s Hw) as Hspec.
  cbv zeta in Hspec.
  destruct (@OpenOrExtend reliable "svc-a" "outage" 1%float 20 s).1 as [id|e] eqn:E;
    [|vm_compute in E; discriminate E].
  destruct Hspec as [(x & Hx & _ & _ & _ & _ & Hm) _]. exists id, x.
  split; [reflexivity|]. split; [exact Hx|].
  vm_compute find_open in Hm. destruct Hm as [Hm _]. exact Hm.
Defined.

Definition demo_pruned : session iv_db := (@run_iv_ops reliable (take 2 demo_history) demo_iv).2.

Lemma prune_invisible_witness :
  match (@ListOverlapping reliable ["svc-a"] 60 90 demo_pruned).1,
        (@ListOverlapping reliable ["svc-a"] 60 90
           (@runCycle reliable (Ok true) 100 50 demo_pruned).2).1 with
  | Ok r, Ok r1 => r1 ≡ₚ r
  | _, _ => False
  end.
Proof.
  destruct (@prune_invisible reliable (Ok true) 100 50 ["svc-a"] 60 90 demo_pruned
              (@runCycle reliable (Ok true) 100 50 demo_pruned).2) as [_ Hp];
    [vm_compute; discriminate|reflexivity|].
  destruct (ListOverlapping ["svc-a"] 60 90 demo_pruned).1 as [r|e] eqn:E;
    [|vm_compute in E; discriminate E].
  destruct (ListOverlapping ["svc-a"] 60 90 (runCycle (Ok true) 100 50 demo_pruned).2).1
    as [r1|e] eqn:E1; [|vm_compute in E1; discriminate E1].
  apply Hp; reflexivity.
Defined.

(** After one observation a replica sees the service down: it holds the open row
    and commits on it. *)
Definition demo_open : session iv_db := (@run_iv_ops reliable (take 1 demo_history) demo_iv).2.
Definition demo_writer : writer := Writer "svc-a" "outage" 1%float 20 Waiting.

Lemma demo_open_wf : wf (tables demo_open).
Proof.
  destruct (@run_iv_ops_until reliable (take 1 demo_history) demo_iv 0) as [u [Hw _]]; [|cbn; lia|exact Hw].
  split; [apply wf_empty|]. intros sid i x; cbn. by rewrite lookup_empty.
Qed.

Lemma concurrent_writers_safe_witness :
  ∃ o id, find_open "svc-a" (tables demo_open) = Some o ∧
    (@write reliable demo_writer (Some o) demo_open).1 = Ok id ∧ one_open (tables demo_open) ∧
    commit_recorded demo_writer (Some o) id (tables (@write reliable demo_writer (Some o) demo_open).2).
Proof.
  destruct (find_open "svc-a" (tables demo_open)) as [o|] eqn:Ho; [|vm_compute in Ho; discriminate Ho].
  exists o. destruct (@write reliable demo_writer (Some o) demo_open) as [r s'] eqn:Hw.
  assert (∃ id, r = Ok id) as [id ->].
  { vm_compute in Ho. injection Ho as <-. vm_compute in Hw. injection Hw as <- _. by eexists. }
  destruct (@concurrent_writers_safe reliable (tables demo_open) [demo_writer] (tables demo_open) [demo_writer]
    (tables demo_open) (<[0%nat := set_phase (Locked (find_open "svc-a" (tables demo_open))) demo_writer]> [demo_writer]))
    as (H1 & _ & H2 & _).
  - exact demo_open_wf.
  - repeat constructor.
  - reflexivity.
  - apply rtc_once. apply (@wstep_lock reliable); [reflexivity|reflexivity|].
    intros o' _ (k & w & o2 & Hk & Hl & Hp & _). destruct k as [|k]; [done|]. by destruct k.
  - exists id. split; [reflexivity|]. split; [reflexivity|]. split; [exact H1|].
    rewrite Ho in H2.
    exact (proj2 (H2 0%nat (set_phase (Locked (Some o)) demo_writer) (Some o) demo_open id s'
      eq_refl eq_refl eq_refl Hw)).
Defined.
