(* ===== verification/Incidents.v ===== *)
(** * Incidents (internal/db/incident_repository.go)

    The [incidents], [incident_services] and [incident_updates] tables and every
    operation of IncidentRepository, statement by statement, on a session.  The
    three writes that span statements ([Create], [Transition],
    [ConfirmPendingClose]) run on the caller's tenant transaction when there is
    one ([runInTx]). *)

From stdpp Require Import numbers strings gmap sorting list.
From Stdlib Require Import ZArith.
From S2P Require Import Prelude GoNum Db Schema Services.

#[local] Open Scope Z_scope.
#[local] Open Scope go_scope.

(** ** Rows *)

Definition set_inc_status (st : string) (resolved : option Z) (x : Incident) : Incident :=
  {| IncID := IncID x; Title := Title x; IncStatus := st; CreatedAt := CreatedAt x;
     ResolvedAt := resolved; Description := Description x;
     PendingCloseComment := PendingCloseComment x; AutoCreated := AutoCreated x;
     Severity := Severity x |}.
Definition set_description (d : option string) (x : Incident) : Incident :=
  {| IncID := IncID x; Title := Title x; IncStatus := IncStatus x; CreatedAt := CreatedAt x;
     ResolvedAt := ResolvedAt x; Description := d;
     PendingCloseComment := PendingCloseComment x; AutoCreated := AutoCreated x;
     Severity := Severity x |}.
Definition set_pending (c : option string) (x : Incident) : Incident :=
  {| IncID := IncID x; Title := Title x; IncStatus := IncStatus x; CreatedAt := CreatedAt x;
     ResolvedAt := ResolvedAt x; Description := Description x;
     PendingCloseComment := c; AutoCreated := AutoCreated x; Severity := Severity x |}.
Definition set_severity (sev : string) (x : Incident) : Incident :=
  {| IncID := IncID x; Title := Title x; IncStatus := IncStatus x; CreatedAt := CreatedAt x;
     ResolvedAt := ResolvedAt x; Description := Description x;
     PendingCloseComment := PendingCloseComment x; AutoCreated := AutoCreated x;
     Severity := sev |}.

Definition severities : list string := ["minor"; "moderate"; "critical"].

(** The CHECK constraint of migration 0028. *)
Definition severity_check (x : Incident) : bool := bool_decide (Severity x ∈ severities).

Definition resolved_row (x : Incident) : bool := String.eqb (IncStatus x) "resolved".

(** The columns RETURNING gives [transition], [SetSeverity]: the others keep
    their zero value. *)
Definition returned_columns (x : Incident) : Incident :=
  {| IncID := IncID x; Title := Title x; IncStatus := IncStatus x; CreatedAt := CreatedAt x;
     ResolvedAt := ResolvedAt x; Description := None; PendingCloseComment := None;
     AutoCreated := false; Severity := Severity x |}.

(** The columns the public pages read: never pending_close_comment. *)
Definition public_columns (x : Incident) : Incident :=
  {| IncID := IncID x; Title := Title x; IncStatus := IncStatus x; CreatedAt := CreatedAt x;
     ResolvedAt := ResolvedAt x; Description := Description x; PendingCloseComment := None;
     AutoCreated := AutoCreated x; Severity := "" |}.

Section incidents.
Context `{!Driver}.

(** ** Selecting *)

Definition inc_visible (s : session core) (r : incident_row) : bool := visible s (inc_tenant r).

(** SELECT ... FROM incidents WHERE id = $1 *)
Definition find_incident (id : string) (s : session core) : option incident_row :=
  match incidents (tables s) !! id with
  | Some r => if inc_visible s r then Some r else None
  | None => None
  end.

(** ORDER BY created_at DESC *)
Definition newest_first (x y : Incident) : Prop := CreatedAt y ≤ CreatedAt x.
#[global] Instance newest_first_dec x y : Decision (newest_first x y).
Proof. unfold newest_first. apply _. Defined.

Definition visible_incidents (s : session core) : list Incident :=
  inc <$> filter (λ r, inc_visible s r = true) (snd <$> map_to_list (incidents (tables s))).

Definition select_incidents (p : Incident → bool) (s : session core) : list Incident :=
  merge_sort newest_first (filter (λ x, p x = true) (visible_incidents s)).

Definition count_incidents (p : Incident → bool) (s : session core) : Z :=
  Z.of_nat (length (filter (λ x, p x = true) (visible_incidents s))).

Definition mustExist (id : string) : M (session core) db_err unit :=
  found <- query (λ s, bool_decide (is_Some (find_incident id s))) ;;
  if found : bool then ret tt else fail ErrNotFound.

(** ** Create *)

(** COALESCE(NULLIF($4, ''), 'moderate') *)
Definition default_severity (sev : string) : string :=
  if String.eqb sev "" then "moderate" else sev.

Definition inserted_incident (id : string) (now : Z) (x : Incident) : Incident :=
  {| IncID := id; Title := Title x; IncStatus := "investigating"; CreatedAt := now;
     ResolvedAt := None; Description := Description x; PendingCloseComment := None;
     AutoCreated := AutoCreated x; Severity := default_severity (Severity x) |}.

(** The argument after the RETURNING columns are scanned into it. *)
Definition created_incident (row x : Incident) : Incident :=
  {| IncID := IncID row; Title := Title x; IncStatus := IncStatus row;
     CreatedAt := CreatedAt row; ResolvedAt := ResolvedAt x; Description := Description x;
     PendingCloseComment := PendingCloseComment x; AutoCreated := AutoCreated x;
     Severity := Severity row |}.

Definition insert_incident (x : Incident) : M (session core) db_err Incident :=
  stmt (λ s,
    let id := gen_uuid (tick s) in
    let row := inserted_incident id (sql_now s) x in
    match default_tenant s with
    | Err e => Err e
    | Ok t =>
        if negb (severity_check row) then Err ErrCheck
        else match incidents (tables s) !! id with
             | Some _ => Err ErrUnique
             | None => Ok (created_incident row x,
                           set_incidents (<[id := {| inc_tenant := t; inc := row |}]>) (tables s))
             end
    end).

(** INSERT INTO incident_services: its primary key is the pair, and its
    foreign key finds the service whatever its tenant. *)
Definition link_service (id sid : string) : M (session core) db_err unit :=
  stmt (λ s,
    if bool_decide ((id, sid) ∈ incident_services (tables s)) then Err ErrUnique
    else match services (tables s) !! sid with
         | None => Err ErrForeignKey
         | Some _ => Ok (tt, set_incident_services (λ l, l ++ [(id, sid)]) (tables s))
         end).

Fixpoint link_services (id : string) (sids : list string) : M (session core) db_err unit :=
  match sids with
  | [] => ret tt
  | sid :: sids => link_service id sid ;;; link_services id sids
  end.

Definition insert (x : Incident) (sids : list string) : M (session core) db_err Incident :=
  y <- insert_incident x ;;
  link_services (IncID y) sids ;;;
  ret y.

Definition Create (x : Incident) (sids : list string) : M (session core) db_err Incident :=
  runInTx (insert x sids).

(** ** The timeline *)

(** INSERT INTO incident_updates; the author's row is not part of the model. *)
Definition insert_update (id body : string) (author : option string) (ai : bool)
    (at_ : session core → Z) : M (session core) db_err IncidentUpdate :=
  stmt (λ s,
    let u := {| UpdID := gen_uuid (tick s); UpdIncidentID := id; UpdBody := body;
                UpdCreatedAt := at_ s; AuthorID := author; IsAISummary := ai |} in
    match incidents (tables s) !! id with
    | None => Err ErrForeignKey
    | Some _ => Ok (u, set_incident_updates (λ l, l ++ [u]) (tables s))
    end).

Definition AddUpdate (id body : string) (author : option string) (ai : bool) :
    M (session core) db_err IncidentUpdate :=
  mustExist id ;;; insert_update id body author ai sql_now.

(** ORDER BY created_at DESC *)
Definition newest_update (x y : IncidentUpdate) : Prop := UpdCreatedAt y ≤ UpdCreatedAt x.
#[global] Instance newest_update_dec x y : Decision (newest_update x y).
Proof. unfold newest_update. apply _. Defined.

Definition timeline_desc (id : string) (s : session core) : list IncidentUpdate :=
  merge_sort newest_update (timeline id (tables s)).

Definition ListUpdates (id : string) : M (session core) db_err (list IncidentUpdate) :=
  mustExist id ;;; query (timeline_desc id).

Definition countIncidentUpdates (id : string) : M (session core) db_err Z :=
  query (λ s, Z.of_nat (length (timeline id (tables s)))).

Definition ListUpdatesPaginated (id : string) (page pageSize : Z) :
    M (session core) db_err (list IncidentUpdate * Z) :=
  mustExist id ;;;
  rows <- stmt (λ s,
    match limit_offset pageSize (go_mul (wrap64 (page - 1)) pageSize) (timeline_desc id s) with
    | None => Err ErrDriver
    | Some l => Ok ((l, Z.of_nat (length (timeline id (tables s)))), tables s)
    end) ;;
  match rows.1 with
  | [] => total <- countIncidentUpdates id ;; ret ([], total)
  | l => ret (l, rows.2)
  end.

(** ** Reads *)

Definition listServiceIDs (id : string) : M (session core) db_err (list string) :=
  query (λ s, snd <$> filter (λ p, p.1 = id) (incident_services (tables s))).

Definition countIncidents : M (session core) db_err Z :=
  query (count_incidents (λ _, true)).

(** Each incident with its service ids. *)
Fixpoint with_service_ids (l : list Incident) :
    M (session core) db_err (list (Incident * list string)) :=
  match l with
  | [] => ret []
  | x :: l =>
      ids <- listServiceIDs (IncID x) ;;
      rest <- with_service_ids l ;;
      ret ((x, ids) :: rest)
  end.

Definition ListPaginated (page pageSize : Z) :
    M (session core) db_err (list (Incident * list string) * Z) :=
  rows <- stmt (λ s,
    let all := select_incidents (λ _, true) s in
    match limit_offset pageSize (go_mul (wrap64 (page - 1)) pageSize) all with
    | None => Err ErrDriver
    | Some l => Ok ((l, Z.of_nat (length all)), tables s)
    end) ;;
  total <- (match rows.1 with [] => countIncidents | _ => ret rows.2 end) ;;
  l <- with_service_ids rows.1 ;;
  ret (l, total).

Definition CountOpen : M (session core) db_err Z :=
  query (count_incidents (λ x, negb (resolved_row x))).

Definition CountOpenBreakdown : M (session core) db_err (Z * Z) :=
  query (λ s,
    (count_incidents (λ x, negb (resolved_row x) && String.eqb (Severity x) "critical") s,
     count_incidents (λ x, negb (resolved_row x) && String.eqb (IncStatus x) "monitoring") s)).

Definition within (from to : Z) (t : Z) : bool := (from <=? t) && (t <? to).

Definition CountOpenedResolvedBetween (from to : Z) : M (session core) db_err (Z * Z) :=
  query (λ s,
    (count_incidents (λ x, within from to (CreatedAt x)) s,
     count_incidents (λ x, match ResolvedAt x with
                           | Some t => within from to t | None => false end) s)).

(** The names of the linked services the session sees, ORDER BY s.name. *)
Definition text_sorted (x y : string) : Prop := Is_true (text_le x y).
#[global] Instance text_sorted_dec x y : Decision (text_sorted x y).
Proof. unfold text_sorted. apply _. Defined.

Definition linked_names (id : string) (s : session core) : list string :=
  merge_sort text_sorted
    (omap (λ p, match services (tables s) !! p.2 with
                | Some r => if row_visible s r then Some (SvcName (svc r)) else None
                | None => None
                end)
          (filter (λ p, p.1 = id) (incident_services (tables s)))).

Definition ListServiceNames (id : string) : M (session core) db_err (list string) :=
  query (linked_names id).

(** Open at some point of [from, to). *)
Definition active_between (from to : Z) (x : Incident) : bool :=
  (CreatedAt x <? to) &&
  match ResolvedAt x with None => true | Some t => from <=? t end.

Definition ListActiveBetween (from to : Z) :
    M (session core) db_err (list (Incident * list string)) :=
  query (λ s, (λ x, (x, linked_names (IncID x) s)) <$>
                select_incidents (active_between from to) s).

Definition CountByServiceSince (sid : string) (since : Z) : M (session core) db_err Z :=
  query (λ s,
    Z.of_nat (length (filter (λ p, String.eqb p.2 sid &&
       match find_incident p.1 s with
       | Some r => since <=? CreatedAt (inc r) | None => false end = true)
      (incident_services (tables s))))).

Definition HasOpenIncidentForService (sid : string) : M (session core) db_err (option string) :=
  query (λ s,
    head (omap (λ p, match find_incident p.1 s with
                     | Some r => if negb (resolved_row (inc r)) && AutoCreated (inc r)
                                 then Some (IncID (inc r)) else None
                     | None => None
                     end)
               (filter (λ p, p.2 = sid) (incident_services (tables s))))).

(** No linked service the session sees has another status. *)
Definition AllLinkedServicesOperational (id : string) : M (session core) db_err bool :=
  query (λ s,
    forallb (λ p, match services (tables s) !! p.2 with
                  | Some r => negb (row_visible s r) ||
                              String.eqb (CurrentStatus (svc r)) "operational"
                  | None => true
                  end)
            (filter (λ p, p.1 = id) (incident_services (tables s)))).

(** ** Writes *)

(** UPDATE incidents SET ... WHERE id = [id] AND [p]: the rows affected, with
    the row as RETURNING gives it. *)
Definition update_incidents (id : string) (p : Incident → bool)
    (f : session core → Incident → Incident) : M (session core) db_err (option Incident) :=
  stmt (λ s,
    match incidents (tables s) !! id with
    | Some r =>
        if inc_visible s r && p (inc r) then
          if severity_check (f s (inc r)) then
            Ok (Some (f s (inc r)), set_incidents (<[id := set_inc (f s) r]>) (tables s))
          else Err ErrCheck
        else Ok (None, tables s)
    | None => Ok (None, tables s)
    end).

Definition set_transition (st : string) (s : session core) (x : Incident) : Incident :=
  set_inc_status st (if String.eqb st "resolved" then Some (sql_now s) else None) x.

Definition transition (id status note : string) (author : option string) :
    M (session core) db_err (Incident * bool) :=
  updated <- update_incidents id (λ x, negb (String.eqb (IncStatus x) status))
               (set_transition status) ;;
  match updated with
  | None =>
      current <- query (find_incident id) ;;
      match current with
      | None => fail ErrNotFound
      | Some r => ret (returned_columns (inc r), false)
      end
  | Some x =>
      insert_update id (String.append "Status changed to " status) None false sql_now ;;;
      (if String.eqb note "" then ret tt
       else insert_update id note author false clock_timestamp ;;; ret tt) ;;;
      ret (returned_columns x, true)
  end.

Definition Transition (id status note : string) (author : option string) :
    M (session core) db_err (Incident * bool) :=
  runInTx (transition id status note author).

Definition SetSeverity (id sev : string) : M (session core) db_err Incident :=
  updated <- update_incidents id (λ _, true) (λ _, set_severity sev) ;;
  match updated with
  | None => fail ErrNotFound
  | Some x => ret (returned_columns x)
  end.

(** UPDATE ... AND status <> 'resolved', no row meaning already resolved. *)
Definition update_unresolved (id : string) (f : Incident → Incident) :
    M (session core) db_err unit :=
  mustExist id ;;;
  updated <- update_incidents id (λ x, negb (resolved_row x)) (λ _, f) ;;
  match updated with
  | None => fail ErrIncidentAlreadyResolved
  | Some _ => ret tt
  end.

Definition SetDescription (id description : string) : M (session core) db_err unit :=
  update_unresolved id (set_description (Some description)).

Definition SetPendingCloseComment (id comment : string) : M (session core) db_err unit :=
  update_unresolved id (set_pending (Some comment)).

Definition set_confirmed (s : session core) (x : Incident) : Incident :=
  set_pending None (set_inc_status "resolved" (Some (sql_now s)) x).

(** The columns RETURNING gives [confirmPendingClose]. *)
Definition confirmed_columns (x : Incident) : Incident :=
  {| IncID := IncID x; Title := Title x; IncStatus := IncStatus x; CreatedAt := CreatedAt x;
     ResolvedAt := ResolvedAt x; Description := Description x; PendingCloseComment := None;
     AutoCreated := AutoCreated x; Severity := Severity x |}.

Definition confirmPendingClose (id expected : string) : M (session core) db_err Incident :=
  current <- query (find_incident id) ;;
  match current with
  | None => fail ErrNotFound
  | Some r =>
      match PendingCloseComment (inc r) with
      | None => fail ErrNoPendingProposal
      | Some c =>
          if negb (String.eqb c expected) then fail ErrCloseProposalChanged
          else
            updated <- update_incidents id (λ _, true) set_confirmed ;;
            match updated with
            | None => fail ErrDriver        (* pgx.ErrNoRows, wrapped *)
            | Some x =>
                insert_update id expected None true sql_now ;;;
                ret (confirmed_columns x)
            end
      end
  end.

Definition ConfirmPendingClose (id expected : string) : M (session core) db_err Incident :=
  runInTx (confirmPendingClose id expected).

Definition has_proposal (x : Incident) : bool :=
  match PendingCloseComment x with Some _ => true | None => false end.

Definition DiscardCloseProposal (id : string) : M (session core) db_err unit :=
  mustExist id ;;;
  updated <- update_incidents id has_proposal (λ _, set_pending None) ;;
  match updated with
  | None => fail ErrNoPendingProposal
  | Some _ => ret tt
  end.

(** ** The public pages *)

Definition day : Z := 24 * hour.

(** resolved_at > now() - make_interval(days => $1) *)
Definition recently_resolved (now days : Z) (x : Incident) : bool :=
  match ResolvedAt x with None => false | Some t => now - days * day <? t end.

Fixpoint withTimelines (l : list Incident) :
    M (session core) db_err (list (Incident * list IncidentUpdate)) :=
  match l with
  | [] => ret []
  | x :: l =>
      updates <- ListUpdates (IncID x) ;;
      rest <- withTimelines l ;;
      ret ((x, updates) :: rest)
  end.

(** Active and resolved, each in the order given. *)
Fixpoint withTimelinesSplit (l : list Incident) :
    M (session core) db_err
      (list (Incident * list IncidentUpdate) * list (Incident * list IncidentUpdate)) :=
  match l with
  | [] => ret ([], [])
  | x :: l =>
      updates <- ListUpdates (IncID x) ;;
      rest <- withTimelinesSplit l ;;
      if resolved_row x then ret (rest.1, (x, updates) :: rest.2)
      else ret ((x, updates) :: rest.1, rest.2)
  end.

Definition ListPublic (retentionDays : Z) :
    M (session core) db_err
      (list (Incident * list IncidentUpdate) * list (Incident * list IncidentUpdate)) :=
  l <- query (λ s, public_columns <$>
         select_incidents (λ x, negb (resolved_row x) ||
                                recently_resolved (sql_now s) retentionDays x) s) ;;
  withTimelinesSplit l.

(** incidents JOIN incident_services JOIN status_page_services: one row per
    link of an incident to a service of the page. *)
Definition page_links (page : string) (x : Incident) (s : session core) : nat :=
  length (filter (λ p, p.1 = IncID x ∧ is_Some (status_page_services (tables s) !! (page, p.2)))
            (incident_services (tables s))).

Definition page_rows (page : string) (p : Incident → bool) (s : session core) : list Incident :=
  flat_map (λ x, repeat x (page_links page x s)) (select_incidents p s).

(** DISTINCT on the selected columns, i.id among them. *)
Definition distinct_rows (page : string) (p : Incident → bool) (s : session core) :
    list Incident :=
  filter (λ x, (0 < page_links page x s)%nat) (select_incidents p s).

Definition resolved_since (now days : Z) (x : Incident) : bool :=
  resolved_row x && recently_resolved now days x.

Definition countResolvedPublicForStatusPage (page : string) (retentionDays : Z) :
    M (session core) db_err Z :=
  query (λ s,
    Z.of_nat (length (distinct_rows page (resolved_since (sql_now s) retentionDays) s))).

(** The window COUNT is evaluated on the joined rows, before DISTINCT. *)
Definition ListPublicForStatusPage (statusPage : string) (retentionDays page pageSize : Z) :
    M (session core) db_err
      (list (Incident * list IncidentUpdate) * list (Incident * list IncidentUpdate) * Z) :=
  activeIncidents <- query (λ s,
    public_columns <$> distinct_rows statusPage (λ x, negb (resolved_row x)) s) ;;
  rows <- stmt (λ s,
    let p := resolved_since (sql_now s) retentionDays in
    match limit_offset pageSize (go_mul (wrap64 (page - 1)) pageSize) (distinct_rows statusPage p s) with
    | None => Err ErrDriver
    | Some l => Ok ((public_columns <$> l, Z.of_nat (length (page_rows statusPage p s))),
                    tables s)
    end) ;;
  total <- (match rows.1 with
            | [] => countResolvedPublicForStatusPage statusPage retentionDays
            | _ => ret rows.2
            end) ;;
  active <- withTimelines activeIncidents ;;
  resolved <- withTimelines rows.1 ;;
  ret (active, resolved, total).
End incidents.

(** ** What every operation maintains *)

(** A resolved incident has a resolution time and no other has one, the severity
    is one of the three, rows are keyed by their id, and every timeline entry
    and link belongs to an incident. *)
Definition incident_ok (i : string) (x : Incident) : Prop :=
  IncID x = i ∧ (IncStatus x = "resolved" ↔ is_Some (ResolvedAt x)) ∧ Severity x ∈ severities.

Record incidents_wf (d : core) : Prop := {
  iwf_row : ∀ i r, incidents d !! i = Some r → incident_ok i (inc r);
  iwf_update : ∀ u, u ∈ incident_updates d → is_Some (incidents d !! UpdIncidentID u);
  iwf_link : ∀ p, p ∈ incident_services d → is_Some (incidents d !! p.1);
}.

Definition inc_rel (t : string) (b : bool) : relation core :=
  λ d d', isolated t b d d' ∧ (incidents_wf d → incidents_wf d').

#[global] Instance inc_rel_preorder t b : PreOrder (inc_rel t b).
Proof.
  split.
  - intros d. split; [reflexivity|done].
  - intros d1 d2 d3 [H1 W1] [H2 W2]. split; [by etrans|auto].
Qed.

Lemma inc_rel_no_tenant t b d d' : inc_rel "" b d d' → inc_rel t b d d'.
Proof. intros [H1 H2]. split; [by apply isolated_no_tenant|done]. Qed.

Section incident_lemmas.
Context `{!Driver}.
Implicit Types s : session core.

(** The session sees the incident. *)
Definition own_incident (id : string) s : Prop :=
  ∃ r, incidents (tables s) !! id = Some r ∧ visible s (inc_tenant r) = true.

Lemma find_incident_own id s r : find_incident id s = Some r → own_incident id s.
Proof.
  unfold find_incident, own_incident, inc_visible.
  destruct (incidents (tables s) !! id) as [r'|]; [|done].
  destruct (visible s (inc_tenant r')) eqn:E; [|done]. eauto.
Qed.

Lemma visible_settings s s' t :
  app_tenant s' = app_tenant s → bypass_rls s' = bypass_rls s → visible s' t = visible s t.
Proof. unfold visible. by intros -> ->. Qed.

Lemma mustExist_own id s u s' :
  mustExist id s = (Ok u, s') → own_incident id s' ∧ tables s' = tables s.
Proof.
  intros (found & s1 & Hq & Hk)%bind_Ok_inv.
  pose proof (stmt_settings_eq _ _ _ _ Hq) as [E1 E2].
  apply query_Ok_inv in Hq as [Hf Ht].
  destruct found; [|done]. unfold ret in Hk. simplify_eq. split; [|done].
  symmetry in Hf. apply bool_decide_eq_true in Hf as [r Hr].
  apply find_incident_own in Hr as (r' & H1 & H2). exists r'. rewrite Ht.
  by rewrite (visible_settings _ _ _ E1 E2).
Qed.

Lemma incidents_wf_insert_row d i r :
  incidents_wf d → incident_ok i (inc r) → incidents_wf (set_incidents (<[i := r]>) d).
Proof.
  intros [H1 H2 H3] Hr. split; cbn.
  - intros j r' [[<- <-]|[_ Hj]]%lookup_insert_Some; eauto.
  - intros u Hu. apply lookup_insert_is_Some'. eauto.
  - intros p Hp. apply lookup_insert_is_Some'. eauto.
Qed.

Lemma incidents_wf_append_update d u :
  incidents_wf d → is_Some (incidents d !! UpdIncidentID u) →
  incidents_wf (set_incident_updates (λ l, l ++ [u]) d).
Proof.
  intros [H1 H2 H3] Hu. split; cbn; [done| |done].
  intros v [Hv| ->%list_elem_of_singleton]%elem_of_app; eauto.
Qed.

Lemma insert_update_at id body author ai at_ s :
  own_incident id s → preserves_at inc_rel (insert_update id body author ai at_) s.
Proof.
  intros (r & Hr & Hv). apply (preserves_stmt_at inc_rel). intros a d. cbv zeta.
  rewrite Hr. intros [= <- <-]. split.
  - apply isolated_append_update. cbn. intros r'. rewrite Hr. intros [= <-]. eauto with vane.
  - intros Hw. apply incidents_wf_append_update; [done|]. cbn. rewrite Hr. eauto.
Qed.

Lemma insert_update_own id body author ai at_ s u s' :
  insert_update id body author ai at_ s = (Ok u, s') → own_incident id s → own_incident id s'.
Proof.
  intros Hi (r & Hr & Hv). pose proof (stmt_settings_eq _ _ _ _ Hi) as [E1 E2].
  apply stmt_Ok_inv in Hi as (d & Hf & Ht & _). cbv zeta in Hf. rewrite Hr in Hf.
  injection Hf as <- <-. exists r. by rewrite Ht, (visible_settings _ _ _ E1 E2).
Qed.

Lemma update_incidents_rel id p f :
  (∀ s i x, incident_ok i x → Severity (f s x) ∈ severities → incident_ok i (f s x)) →
  preserves inc_rel (update_incidents id p f).
Proof.
  intros Hf. apply (preserves_stmt inc_rel). intros s a d.
  destruct (incidents (tables s) !! id) as [r|] eqn:E; [|intros; by simplify_eq].
  unfold inc_visible. destruct (visible s (inc_tenant r)) eqn:Hv; [|intros; by simplify_eq/=].
  destruct (p (inc r)); [|intros; by simplify_eq/=].
  destruct (severity_check _) eqn:Hc; [|done]. intros [= <- <-]. split.
  - apply isolated_insert_incident; [cbn; eauto with vane|].
    intros r0 ?. simplify_eq. eauto with vane.
  - intros Hw. apply incidents_wf_insert_row; [done|]. cbn. apply Hf.
    + by apply (iwf_row _ Hw).
    + by apply bool_decide_eq_true in Hc.
Qed.

Lemma update_incidents_own id p f s x s' :
  update_incidents id p f s = (Ok (Some x), s') →
  own_incident id s' ∧ ∃ r, incidents (tables s) !! id = Some r ∧
    visible s (inc_tenant r) = true ∧ p (inc r) = true ∧ x = f s (inc r) ∧
    tables s' = set_incidents (<[id := set_inc (f s) r]>) (tables s).
Proof.
  intros Hu. pose proof (stmt_settings_eq _ _ _ _ Hu) as [E1 E2].
  apply stmt_Ok_inv in Hu as (d & Hf & Ht & _).
  destruct (incidents (tables s) !! id) as [r|] eqn:E; [|done].
  unfold inc_visible in Hf. destruct (visible s (inc_tenant r)) eqn:Hv; [|done].
  destruct (p (inc r)) eqn:Hp; [|done]. cbn in Hf.
  destruct (severity_check _); [|done]. injection Hf as <- <-. split; [|eauto 10].
  exists (set_inc (f s) r). rewrite Ht, (visible_settings _ _ _ E1 E2). cbn.
  by rewrite lookup_insert_eq.
Qed.
End incident_lemmas.

(** ** Every operation maintains it *)

Inductive incident_op :=
| OpCreateIncident (x : Incident) (sids : list string)
| OpAddUpdate (id body : string) (author : option string) (ai : bool)
| OpIncidentPage (page pageSize : Z)
| OpCountOpen
| OpCountOpenBreakdown
| OpCountBetween (from to : Z)
| OpActiveBetween (from to : Z)
| OpServiceNames (id : string)
| OpCountByService (sid : string) (since : Z)
| OpUpdates (id : string)
| OpUpdatesPage (id : string) (page pageSize : Z)
| OpTransition (id status note : string) (author : option string)
| OpSetSeverity (id sev : string)
| OpListPublic (days : Z)
| OpListPublicPage (statusPage : string) (days page pageSize : Z)
| OpSetDescription (id d : string)
| OpHasOpen (sid : string)
| OpAllOperational (id : string)
| OpSetPending (id c : string)
| OpConfirmClose (id c : string)
| OpDiscard (id : string).

Section incident_ops.
Context `{!Driver}.

Definition run_incident_op (o : incident_op) : M (session core) db_err unit :=
  match o with
  | OpCreateIncident x sids => discard (Create x sids)
  | OpAddUpdate id body a ai => discard (AddUpdate id body a ai)
  | OpIncidentPage p n => discard (ListPaginated p n)
  | OpCountOpen => discard CountOpen
  | OpCountOpenBreakdown => discard CountOpenBreakdown
  | OpCountBetween f t => discard (CountOpenedResolvedBetween f t)
  | OpActiveBetween f t => discard (ListActiveBetween f t)
  | OpServiceNames id => discard (ListServiceNames id)
  | OpCountByService sid since => discard (CountByServiceSince sid since)
  | OpUpdates id => discard (ListUpdates id)
  | OpUpdatesPage id p n => discard (ListUpdatesPaginated id p n)
  | OpTransition id st note a => discard (Transition id st note a)
  | OpSetSeverity id sev => discard (SetSeverity id sev)
  | OpListPublic days => discard (ListPublic days)
  | OpListPublicPage sp days p n => discard (ListPublicForStatusPage sp days p n)
  | OpSetDescription id d => SetDescription id d
  | OpHasOpen sid => discard (HasOpenIncidentForService sid)
  | OpAllOperational id => discard (AllLinkedServicesOperational id)
  | OpSetPending id c => SetPendingCloseComment id c
  | OpConfirmClose id c => discard (ConfirmPendingClose id c)
  | OpDiscard id => DiscardCloseProposal id
  end.

Fixpoint run_incident_ops (l : list incident_op) : M (session core) db_err unit :=
  match l with
  | [] => ret tt
  | o :: l => attempt (run_incident_op o) ;;; run_incident_ops l
  end.

Lemma maintained_bind {A B} (m : M (session core) db_err A) k :
  preserves inc_rel m → (∀ a : A, preserves inc_rel (k a : M (session core) db_err B)) → preserves inc_rel (bind m k).
Proof. apply (preserves_bind inc_rel). Qed.

Lemma maintained_page {A} (f : session core → option (list A)) (g : session core → Z) :
  preserves inc_rel (stmt (λ s, match f s with None => Err ErrDriver
                         | Some l => Ok ((l, g s), tables s) end)).
Proof. apply (preserves_stmt inc_rel). intros s a d. destruct (f s); [|done]. by intros [= _ <-]. Qed.
End incident_ops.

#[export] Hint Resolve update_incidents_rel maintained_page : vane.
#[export] Hint Extern 1 (preserves inc_rel (query _)) => apply (preserves_query inc_rel) : vane.
#[export] Hint Extern 1 (preserves inc_rel (ret _)) => apply (preserves_ret inc_rel) : vane.
#[export] Hint Extern 1 (preserves inc_rel (fail _)) => apply (preserves_fail inc_rel) : vane.
#[export] Hint Extern 2 (preserves inc_rel (bind _ _)) =>
  apply (preserves_bind inc_rel); [|intros ?] : vane.

Section incident_ops_maintained.
Context `{!Driver}.

Lemma mustExist_rel id : preserves inc_rel (mustExist id).
Proof. apply maintained_bind; [eauto with vane|]. intros []; eauto with vane. Qed.

Lemma discard_rel {A} (m : M (session core) db_err A) :
  preserves inc_rel m → preserves inc_rel (discard m).
Proof. intros. apply maintained_bind; eauto with vane. Qed.

(** An operation that checks the incident exists before it writes. *)
Lemma guarded_rel {A} id (k : M (session core) db_err A) :
  (∀ s, own_incident id s → preserves_at inc_rel k s) → preserves inc_rel (mustExist id ;;; k).
Proof.
  intros Hk s. apply (preserves_bind_at inc_rel); [apply mustExist_rel|].
  intros u s' Hm. apply Hk. by apply (mustExist_own id s u s').
Qed.

Lemma insert_incident_own x s y s' :
  insert_incident x s = (Ok y, s') → own_incident (IncID y) s'.
Proof.
  intros Hi. pose proof (stmt_settings_eq _ _ _ _ Hi) as [E1 E2].
  apply stmt_Ok_inv in Hi as (d & Hf & Ht & _). cbv zeta in Hf.
  destruct (default_tenant s) as [t|] eqn:Hd; [|done].
  destruct (severity_check _); [cbn in Hf|done].
  destruct (incidents (tables s) !! gen_uuid (tick s)); [done|]. injection Hf as <- <-.
  eexists. rewrite Ht, (visible_settings _ _ _ E1 E2). cbn. rewrite lookup_insert_eq.
  split; [done|]. cbn. unfold default_tenant in Hd. unfold visible.
  destruct (String.eqb_spec (app_tenant s) ""); [done|]. simplify_eq.
  by rewrite String.eqb_refl, orb_true_r.
Qed.

Lemma insert_incident_rel x : preserves inc_rel (insert_incident x).
Proof.
  apply (preserves_stmt inc_rel). intros s a d. cbv zeta.
  destruct (default_tenant s) as [t|] eqn:Ht; [|done].
  destruct (severity_check _) eqn:Hc; [cbn|done].
  destruct (incidents (tables s) !! gen_uuid (tick s)) eqn:E; [done|]. intros [= _ <-]. split.
  - apply isolated_insert_incident; [cbn; eauto with vane|]. intros r0. by rewrite E.
  - intros Hw. apply incidents_wf_insert_row; [done|]. split; [done|]. split; [|].
    + cbn. split; [done|]. by intros [? ?].
    + by apply bool_decide_eq_true in Hc.
Qed.

Lemma link_service_at id sid s :
  own_incident id s → preserves_at inc_rel (link_service id sid) s ∧
  own_incident id (link_service id sid s).2.
Proof.
  intros (r & Hr & Hv). split.
  - apply (preserves_stmt_at inc_rel). intros a d.
    case_bool_decide; [done|]. destruct (services (tables s) !! sid); [|done].
    intros [= _ <-]. split; [apply isolated_incident_services|].
    intros [H1 H2 H3]. split; cbn; [done..|].
    intros p [Hp| ->%list_elem_of_singleton]%elem_of_app; [eauto|]. cbn. rewrite Hr. eauto.
  - destruct (link_service id sid s) as [r0 s'] eqn:E.
    pose proof (stmt_settings_eq _ _ _ _ E) as [E1 E2]. exists r. cbn.
    rewrite (visible_settings _ _ _ E1 E2). split; [|done].
    apply stmt_inv in E as [(e & _ & ->)|(a & d & Hf & _ & ->)]; [done|].
    revert Hf. case_bool_decide; [done|]. destruct (services (tables s) !! sid); [|done].
    by intros [= _ <-].
Qed.

Lemma link_services_at id sids s :
  own_incident id s → preserves_at inc_rel (link_services id sids) s.
Proof.
  revert s. induction sids as [|sid sids IH]; intros s Ho.
  { apply (preserves_ret inc_rel). }
  destruct (link_service_at id sid s Ho) as [H1 H2].
  apply (preserves_bind_at inc_rel); [done|]. intros a s' E. rewrite E in H2. by apply IH.
Qed.

Lemma insert_rel x sids : preserves inc_rel (insert x sids).
Proof.
  intros s. apply (preserves_bind_at inc_rel); [apply insert_incident_rel|].
  intros y s' Hy. apply (preserves_bind_at inc_rel);
    [by apply link_services_at; eapply insert_incident_own|].
  intros. apply (preserves_ret inc_rel).
Qed.

Lemma set_transition_ok st s i x :
  incident_ok i x → Severity (set_transition st s x) ∈ severities →
  incident_ok i (set_transition st s x).
Proof.
  intros (H1 & _ & H3) _. split; [done|]. split; [|done]. cbn.
  destruct (String.eqb_spec st "resolved"); split; try done; by intros [? ?].
Qed.

Lemma transition_rel id st note a : preserves inc_rel (transition id st note a).
Proof.
  intros s. apply (preserves_bind_at inc_rel).
  { apply update_incidents_rel. intros. by apply set_transition_ok. }
  intros [x|] s1 Hu.
  - apply update_incidents_own in Hu as [Ho _].
    apply (preserves_bind_at inc_rel); [by apply insert_update_at|].
    intros u s2 Hi. pose proof (insert_update_own _ _ _ _ _ _ _ _ Hi Ho) as Ho2.
    apply (preserves_bind_at inc_rel); [|intros; apply (preserves_ret inc_rel)].
    destruct (String.eqb note ""); [apply (preserves_ret inc_rel)|].
    apply (preserves_bind_at inc_rel); [by apply insert_update_at|].
    intros; apply (preserves_ret inc_rel).
  - apply maintained_bind; [eauto with vane|]. intros []; eauto with vane.
Qed.

Lemma confirmPendingClose_rel id c : preserves inc_rel (confirmPendingClose id c).
Proof.
  apply maintained_bind; [eauto with vane|]. intros [r|]; [|eauto with vane].
  destruct (PendingCloseComment (inc r)) as [c1|]; [|eauto with vane].
  destruct (negb _); [eauto with vane|]. intros s.
  apply (preserves_bind_at inc_rel).
  { apply update_incidents_rel. intros s0 i x (H1 & _ & H3) _. split; [done|].
    split; [|done]. cbn. split; eauto. }
  intros [x|] s1 Hu; [|apply (preserves_fail inc_rel)].
  apply update_incidents_own in Hu as [Ho _].
  apply (preserves_bind_at inc_rel); [by apply insert_update_at|].
  intros. apply (preserves_ret inc_rel).
Qed.

Lemma update_unresolved_rel id f :
  (∀ i x, incident_ok i x → Severity (f x) ∈ severities → incident_ok i (f x)) →
  preserves inc_rel (update_unresolved id f).
Proof.
  intros Hf. apply maintained_bind; [apply mustExist_rel|]. intros _.
  apply maintained_bind; [eauto with vane|]. intros []; eauto with vane.
Qed.

Lemma with_service_ids_rel l : preserves inc_rel (with_service_ids l).
Proof.
  induction l as [|x l IH]; [apply (preserves_ret inc_rel)|].
  apply maintained_bind; [apply (preserves_query inc_rel)|]. intros ids.
  apply maintained_bind; eauto with vane.
Qed.

Lemma ListUpdates_rel id : preserves inc_rel (ListUpdates id).
Proof. apply maintained_bind; [apply mustExist_rel|]. eauto with vane. Qed.

Lemma withTimelines_rel l : preserves inc_rel (withTimelines l).
Proof.
  induction l as [|x l IH]; [apply (preserves_ret inc_rel)|].
  apply maintained_bind; [apply ListUpdates_rel|]. intros ids.
  apply maintained_bind; eauto with vane.
Qed.

Lemma withTimelinesSplit_rel l : preserves inc_rel (withTimelinesSplit l).
Proof.
  induction l as [|x l IH]; [apply (preserves_ret inc_rel)|].
  apply maintained_bind; [apply ListUpdates_rel|]. intros ids.
  apply maintained_bind; [done|]. intros rest. destruct (resolved_row x); eauto with vane.
Qed.

Lemma incident_ok_same i x y :
  IncID y = IncID x → IncStatus y = IncStatus x → ResolvedAt y = ResolvedAt x →
  incident_ok i x → Severity y ∈ severities → incident_ok i y.
Proof. unfold incident_ok. intros -> -> ->. naive_solver. Qed.
End incident_ops_maintained.

#[export] Hint Resolve mustExist_rel discard_rel ListUpdates_rel withTimelines_rel
  withTimelinesSplit_rel with_service_ids_rel : vane.

Section incident_specs.
Context `{!Driver}.
Implicit Types s : session core.

Lemma run_incident_op_rel o : preserves inc_rel (run_incident_op o).
Proof.
  destruct o; cbn [run_incident_op];
    try apply discard_rel;
    unfold CountOpen, CountOpenBreakdown, CountOpenedResolvedBetween, ListActiveBetween,
      ListServiceNames, CountByServiceSince, HasOpenIncidentForService,
      AllLinkedServicesOperational; try solve [eauto with vane].
  - apply (preserves_runInTx inc_rel); [apply inc_rel_no_tenant|]. apply insert_rel.
  - apply guarded_rel. intros. by apply insert_update_at.
  - apply maintained_bind; [eauto with vane|]. intros [l n]. cbn.
    apply maintained_bind; [destruct l; unfold countIncidents; eauto with vane|].
    intros t. apply maintained_bind; eauto with vane.
  - apply maintained_bind; [eauto with vane|]. intros _.
    apply maintained_bind; [eauto with vane|]. intros [[] ?]; cbn; [|eauto with vane].
    apply maintained_bind; unfold countIncidentUpdates; eauto with vane.
  - apply (preserves_runInTx inc_rel); [apply inc_rel_no_tenant|]. apply transition_rel.
  - apply maintained_bind; [|intros []; eauto with vane].
    apply update_incidents_rel. intros s i x. by apply incident_ok_same.
  - apply maintained_bind; eauto with vane.
  - apply maintained_bind; [eauto with vane|]. intros l1.
    apply maintained_bind.
    { apply (preserves_stmt inc_rel). intros s a d. cbv zeta.
      destruct (limit_offset _ _ _); [|done]. by intros [= _ <-]. }
    intros [l n]. cbn. apply maintained_bind.
    { destruct l; unfold countResolvedPublicForStatusPage; eauto with vane. }
    intros t. apply maintained_bind; [eauto with vane|]. intros ac.
    apply maintained_bind; eauto with vane.
  - apply update_unresolved_rel. intros i x. by apply incident_ok_same.
  - apply update_unresolved_rel. intros i x. by apply incident_ok_same.
  - apply (preserves_runInTx inc_rel); [apply inc_rel_no_tenant|].
    apply confirmPendingClose_rel.
  - apply maintained_bind; [eauto with vane|]. intros _.
    apply maintained_bind; [|intros []; eauto with vane].
    apply update_incidents_rel. intros s i x. by apply incident_ok_same.
Qed.

Lemma run_incident_ops_rel l : preserves inc_rel (run_incident_ops l).
Proof.
  induction l as [|o l IH]; [apply (preserves_ret inc_rel)|].
  apply maintained_bind; [|done]. apply (preserves_attempt inc_rel), run_incident_op_rel.
Qed.
End incident_specs.

Section transition_spec.
Context `{!Driver}.
Implicit Types s : session core.

(** A timeline entry, as far as its text and author go. *)
Definition entry (body : string) (author : option string) (ai : bool) (id : string)
    (u : IncidentUpdate) : Prop :=
  UpdIncidentID u = id ∧ UpdBody u = body ∧ AuthorID u = author ∧ IsAISummary u = ai.

(** The tables after a status change with its entries. *)
Definition transitioned (id st note : string) (author : option string) (now : Z)
    (r : incident_row) (d d' : core) : Prop :=
  let r' := set_inc (set_inc_status st
              (if String.eqb st "resolved" then Some now else None)) r in
  ∃ u, entry (String.append "Status changed to " st) None false id u ∧ UpdCreatedAt u = now ∧
  if String.eqb note "" then
    d' = set_incident_updates (λ l, l ++ [u]) (set_incidents (<[id := r']>) d)
  else ∃ v, entry note author false id v ∧
    d' = set_incident_updates (λ l, l ++ [v])
           (set_incident_updates (λ l, l ++ [u]) (set_incidents (<[id := r']>) d)).

Lemma insert_update_inv id body author ai at_ s u s' :
  insert_update id body author ai at_ s = (Ok u, s') →
  entry body author ai id u ∧ UpdCreatedAt u = at_ s ∧
  tables s' = set_incident_updates (λ l, l ++ [u]) (tables s).
Proof.
  intros (d & Hf & Ht & _)%stmt_Ok_inv. cbv zeta in Hf.
  destruct (incidents (tables s) !! id); [|done]. injection Hf as <- <-. done.
Qed.

(** Inside a transaction: done in full, or nothing written, or doomed. *)
Lemma transition_inv id st note a s r s' :
  is_Some (tx_start s) → transition id st note a s = (r, s') →
  match r with
  | Ok (x, true) =>
      ∃ r0, find_incident id s = Some r0 ∧ IncStatus (inc r0) ≠ st ∧
        x = returned_columns (set_transition st s (inc r0)) ∧
        transitioned id st note a (sql_now s) r0 (tables s) (tables s')
  | Ok (x, false) =>
      tables s' = tables s ∧ ∃ r0, find_incident id s = Some r0 ∧ IncStatus (inc r0) = st ∧
        x = returned_columns (inc r0)
  | Err e => tables s' = tables s ∨ aborted s' = true
  end.
Proof.
  intros Htx. unfold transition, bind.
  destruct (update_incidents id _ _ s) as [[[x|]|e] s1] eqn:Hu;
    [| |intros; simplify_eq; right; by apply (stmt_Err_inv _ _ _ _ Hu)].
  - assert (tx_start s1 = tx_start s) as E1 by (by eapply stmt_tx).
    pose proof (update_incidents_own _ _ _ _ _ _ Hu) as [_ (r0 & Hr & Hv & Hp & -> & Ht1)].
    apply negb_true_iff, String.eqb_neq in Hp.
    assert (find_incident id s = Some r0) as Hfind.
    { unfold find_incident, inc_visible. by rewrite Hr, Hv. }
    destruct (insert_update id (String.append "Status changed to " st) None false sql_now s1)
      as [[u|e] s2] eqn:Hi;
      [|intros; simplify_eq; right; apply (stmt_Err_inv _ _ _ _ Hi); by rewrite E1].
    assert (tx_start s2 = tx_start s) as E2 by (rewrite <- E1; by eapply stmt_tx).
    apply insert_update_inv in Hi as (Hen & Hat & Ht2).
    rewrite (sql_now_tx s s1) in Hat by done.
    destruct (String.eqb note "") eqn:Hn.
    + unfold ret. intros; simplify_eq. exists r0. split_and!; try done.
      exists u. rewrite Hn, Ht2, Ht1. done.
    + unfold ret.
      destruct (insert_update id note a false clock_timestamp s2) as [[v|e] s3] eqn:Hi2;
        [|intros; simplify_eq; right; apply (stmt_Err_inv _ _ _ _ Hi2); by rewrite E2].
      apply insert_update_inv in Hi2 as (Hen2 & _ & Ht3).
      intros; simplify_eq. exists r0. split_and!; try done.
      exists u. rewrite Hn. split_and!; try done. exists v. by rewrite Ht3, Ht2, Ht1.
  - assert (tables s1 = tables s ∧ app_tenant s1 = app_tenant s ∧ bypass_rls s1 = bypass_rls s ∧
      ∀ r0, find_incident id s = Some r0 → IncStatus (inc r0) = st) as (Ht1 & Ea & Eb & Hst).
    { pose proof (stmt_settings_eq _ _ _ _ Hu) as [Ea Eb].
      apply stmt_Ok_inv in Hu as (d & Hf & Ht & _). unfold find_incident.
      destruct (incidents (tables s) !! id) as [r0|]; [|by simplify_eq].
      destruct (inc_visible s r0); [|by simplify_eq/=]. cbn in Hf.
      destruct (String.eqb_spec (IncStatus (inc r0)) st) as [Hs|].
      - injection Hf as <-. split_and!; try done. by intros ? [= <-].
      - cbn in Hf. by destruct (severity_check _). }
    assert (tx_start s1 = tx_start s) as E1 by (by eapply stmt_tx).
    destruct (query (find_incident id) s1) as [[c|e] s2] eqn:Hq;
      [|intros; simplify_eq; right; apply (stmt_Err_inv _ _ _ _ Hq); by rewrite E1].
    apply query_Ok_inv in Hq as [-> Ht2].
    assert (find_incident id s1 = find_incident id s) as ->.
    { unfold find_incident, inc_visible, visible. by rewrite Ht1, Ea, Eb. }
    destruct (find_incident id s) as [r0|] eqn:Hf; unfold ret, fail; intros; simplify_eq.
    + split; [congruence|]. eauto.
    + left. congruence.
Qed.
End transition_spec.

Section confirm_spec.
Context `{!Driver}.
Implicit Types s : session core.

Definition confirmed (id c : string) (now : Z) (r : incident_row) (d d' : core) : Prop :=
  ∃ u, entry c None true id u ∧ UpdCreatedAt u = now ∧
  d' = set_incident_updates (λ l, l ++ [u])
         (set_incidents (<[id := set_inc (λ x, set_pending None
                                            (set_inc_status "resolved" (Some now) x)) r]>) d).

Lemma confirmPendingClose_inv id c s r s' :
  is_Some (tx_start s) → confirmPendingClose id c s = (r, s') →
  match r with
  | Ok x => ∃ r0, find_incident id s = Some r0 ∧ PendingCloseComment (inc r0) = Some c ∧
      ResolvedAt x = Some (sql_now s) ∧ confirmed id c (sql_now s) r0 (tables s) (tables s')
  | Err e => tables s' = tables s ∨ aborted s' = true
  end.
Proof.
  intros Htx. unfold confirmPendingClose, bind, fail, ret.
  destruct (query (find_incident id) s) as [[cur|e] s1] eqn:Hq;
    [|intros; simplify_eq; right; by apply (stmt_Err_inv _ _ _ _ Hq)].
  assert (tx_start s1 = tx_start s) as E1 by (by eapply stmt_tx).
  apply query_Ok_inv in Hq as [-> Ht1].
  destruct (find_incident id s) as [r0|] eqn:Hf; [|intros; simplify_eq/=; left; congruence].
  destruct (PendingCloseComment (inc r0)) as [c0|] eqn:Hp; [|intros; simplify_eq/=; left; congruence].
  destruct (String.eqb_spec c0 c) as [->|]; [|intros; simplify_eq/=; left; congruence]. cbn [negb].
  destruct (update_incidents id _ _ s1) as [[[x|]|e] s2] eqn:Hu.
  - assert (tx_start s2 = tx_start s) as E2 by (rewrite <- E1; by eapply stmt_tx).
    pose proof (update_incidents_own _ _ _ _ _ _ Hu) as [_ (r1 & Hr & _ & _ & -> & Ht2)].
    assert (r1 = r0) as ->.
    { unfold find_incident in Hf. rewrite Ht1 in Hr. rewrite Hr in Hf.
      destruct (inc_visible s r1); by simplify_eq. }
    assert (sql_now s1 = sql_now s) as En by (by apply sql_now_tx).
    destruct (insert_update id c None true sql_now s2) as [[u|e] s3] eqn:Hi;
      [|intros; simplify_eq; right; apply (stmt_Err_inv _ _ _ _ Hi); by rewrite E2].
    apply insert_update_inv in Hi as (Hen & Hat & Ht3). intros [= <- <-].
    exists r0. split_and!; try done; [cbn; by rewrite En|]. exists u.
    rewrite Hat. rewrite (sql_now_tx s s2) by done. split_and!; try done.
    rewrite Ht3, Ht2, Ht1. unfold set_confirmed. by rewrite En.
  - pose proof Hu as Hu'. apply stmt_Ok_inv in Hu' as (d & Hf2 & Ht2 & _).
    intros [= <- <-]. left. rewrite Ht2, <- Ht1.
    destruct (incidents (tables s1) !! id) as [r1|]; [|by simplify_eq].
    destruct (inc_visible s1 r1); [|by simplify_eq/=]. cbn in Hf2.
    by destruct (severity_check _).
  - intros; simplify_eq. right. apply (stmt_Err_inv _ _ _ _ Hu). by rewrite E1.
Qed.

(** On an answering server with no other obstacle the confirmation succeeds. *)
Lemma confirmPendingClose_Ok id c s r0 :
  (∀ n, event_fails n = false) → aborted s = false →
  find_incident id s = Some r0 → PendingCloseComment (inc r0) = Some c →
  Severity (inc r0) ∈ severities →
  is_ok (confirmPendingClose id c s).1 = true.
Proof.
  intros He Ha Hf Hp Hsev. unfold confirmPendingClose, bind, query, stmt.
  rewrite Ha, He. cbn. rewrite Hf, Hp, String.eqb_refl. cbn.
  unfold update_incidents, stmt. cbn. rewrite Ha, He.
  unfold find_incident in Hf. destruct (incidents (tables s) !! id) as [r1|] eqn:Hr; [|done].
  unfold inc_visible in *. cbn. replace (visible _ (inc_tenant r1)) with (visible s (inc_tenant r1)) by done.
  destruct (visible s (inc_tenant r1)); [|done]. simplify_eq. cbn.
  unfold severity_check. cbn. rewrite bool_decide_true by done. cbn.
  unfold insert_update, stmt. cbn. rewrite Ha, He, lookup_insert_eq. done.
Qed.
End confirm_spec.

Section answering.
Context `{!Driver}.
Implicit Types s : session core.

(** On an answering server a change of status goes through. *)
Lemma transition_Ok id st note a s r0 :
  (∀ n, event_fails n = false) → aborted s = false →
  find_incident id s = Some r0 → IncStatus (inc r0) ≠ st → Severity (inc r0) ∈ severities →
  ∃ x, (transition id st note a s).1 = Ok (x, true).
Proof.
  intros He Ha Hf Hst Hsev. unfold transition, bind, update_incidents, stmt.
  rewrite Ha, He. unfold find_incident in Hf.
  destruct (incidents (tables s) !! id) as [r1|] eqn:Hr; [|done].
  destruct (inc_visible s r1); [|done]. injection Hf as ->. cbn.
  rewrite (proj2 (String.eqb_neq _ _) Hst). cbn.
  unfold severity_check, set_transition. cbn. rewrite bool_decide_true by done. cbn.
  unfold insert_update, stmt. cbn. rewrite Ha, He, lookup_insert_eq. cbn.
  destruct (String.eqb note ""); cbn; [eauto|]. rewrite Ha, He, lookup_insert_eq. cbn. eauto.
Qed.
End answering.

(** ** What the public pages show *)

Section public_pages.
Context `{!Driver}.
Implicit Types s : session core.

(** The incident is the tenant's and affects a service of the page. *)
Definition on_page (page : string) s (x : Incident) : Prop :=
  own_incident (IncID x) s ∧
  ∃ sid, (IncID x, sid) ∈ incident_services (tables s) ∧
         is_Some (status_page_services (tables s) !! (page, sid)).

Lemma visible_incidents_own s x :
  incidents_wf (tables s) → x ∈ visible_incidents s → own_incident (IncID x) s.
Proof.
  intros Hw. unfold visible_incidents. intros (r & -> & Hr)%list_elem_of_fmap.
  apply list_elem_of_filter in Hr as [Hv Hr].
  apply list_elem_of_fmap in Hr as ([i r'] & -> & Hi%elem_of_map_to_list). cbn in *.
  destruct (iwf_row _ Hw i r' Hi) as [-> _]. by exists r'.
Qed.

Lemma distinct_rows_on_page page p s x :
  incidents_wf (tables s) → x ∈ distinct_rows page p s → on_page page s x ∧ p x = true.
Proof.
  intros Hw. unfold distinct_rows, select_incidents.
  intros [Hl Hx]%list_elem_of_filter. rewrite merge_sort_Permutation in Hx.
  apply list_elem_of_filter in Hx as [Hp Hx]. split; [|done]. split.
  - by apply visible_incidents_own.
  - unfold page_links in Hl.
    destruct (filter _ (incident_services (tables s))) as [|[i sid] l] eqn:E; [cbn in Hl; lia|].
    assert ((i, sid) ∈ (i, sid) :: l) as Hin by left. rewrite <- E in Hin.
    apply list_elem_of_filter in Hin as [[Hi Hs] Hin]. cbn in *. subst i. eauto.
Qed.

Lemma ListUpdates_tables id s : tables (ListUpdates id s).2 = tables s.
Proof.
  unfold ListUpdates, mustExist, bind, query, stmt, ret, fail.
  repeat (case_match; simplify_eq/=); congruence.
Qed.

(** The incidents come out as they went in, each with its timeline. *)
Lemma withTimelines_fst l s l' s' :
  withTimelines l s = (Ok l', s') → l'.*1 = l ∧ tables s' = tables s.
Proof.
  revert s l'. induction l as [|x l IH]; intros s l'; cbn [withTimelines].
  { unfold ret. intros; by simplify_eq. }
  intros (u & s1 & Hu & (rest & s2 & Hr & Hk)%bind_Ok_inv)%bind_Ok_inv.
  unfold ret in Hk. simplify_eq. apply IH in Hr as [Hr Ht]. cbn. split; [by rewrite Hr|].
  pose proof (ListUpdates_tables (IncID x) s) as Hl. rewrite Hu in Hl. cbn in Hl. congruence.
Qed.
End public_pages.

(** ** Properties *)

(** incident operations never cross a tenant.  Whatever operations of
    IncidentRepository a session subject to row-level security runs, in any
    order and with any failures, every incident, timeline, service and
    integration of another tenant is afterwards what it was before. *)
Theorem incident_ops_isolated `{!Driver} (l : list incident_op) (s : session core) :
  bypass_rls s = false →
  isolated_from (app_tenant s) (tables s) (tables (run_incident_ops l s).2).
Proof. intros Hb. by apply (run_incident_ops_rel l s). Qed.

(** C14: an incident has a resolution time exactly while it is resolved.  The
    invariant (with it: rows keyed by their id, a severity of the three, no
    timeline entry and no link without its incident) survives every sequence of
    repository operations, whatever fails, on any session. *)
Theorem incident_ops_invariant `{!Driver} (l : list incident_op) (s : session core) :
  incidents_wf (tables s) → incidents_wf (tables (run_incident_ops l s).2).
Proof. apply (run_incident_ops_rel l s). Qed.

(** a status change is whole, idempotent, and never half committed.  On the
    caller's tenant transaction, [Transition] either reports a change, and then
    the incident had another status, has the new one with resolved_at set to
    now() exactly for "resolved", and its timeline has the system entry followed
    by the note when there is one; or reports no change, and then the incident
    already had the status and nothing was written; or fails, and then nothing
    was written or the transaction is aborted and can no longer commit.  On a
    transaction of its own a failure leaves the tables as they were. *)
Theorem Transition_spec `{!Driver} id st note a (s : session core) r s' :
  Transition id st note a s = (r, s') →
  (tx_start s = None → ∀ e, r = Err e → tables s' = tables s) ∧
  (is_Some (tx_start s) →
   match r with
   | Ok (x, true) =>
       ∃ r0, find_incident id s = Some r0 ∧ IncStatus (inc r0) ≠ st ∧
         x = returned_columns (set_transition st s (inc r0)) ∧
         transitioned id st note a (sql_now s) r0 (tables s) (tables s')
   | Ok (x, false) =>
       tables s' = tables s ∧ ∃ r0, find_incident id s = Some r0 ∧ IncStatus (inc r0) = st ∧
         x = returned_columns (inc r0)
   | Err e => tables s' = tables s ∨ (aborted s' = true ∧ ∀ p, (tx_commit s' p).1 = Err ErrTxRollback)
   end).
Proof.
  unfold Transition, runInTx. intros HT. destruct (tx_start s) as [t|] eqn:Htx.
  - split; [done|]. intros _. eapply transition_inv in HT; [|by rewrite Htx].
    destruct r as [[x []]|e]; [done..|]. destruct HT as [HT|HT]; [by left|right].
    split; [done|]. intros p. unfold tx_commit. by rewrite HT.
  - split; [|by intros [? ?]]. intros _ e ->. apply with_pool_tx_inv in HT as [(? & _ & ?)|(? & ? & _ & ? & _)]; done.
Qed.

(** a close proposal is confirmed with the text that was reviewed, or not at
    all.  On the caller's tenant transaction, [ConfirmPendingClose] succeeds only
    when the stored proposal is exactly the expected text; then the incident is
    resolved at now(), the proposal is cleared and that text is appended once as
    an AI entry.  In every other case nothing was written or the transaction is
    aborted. *)
Theorem ConfirmPendingClose_spec `{!Driver} id c (s : session core) r s' :
  is_Some (tx_start s) → ConfirmPendingClose id c s = (r, s') →
  match r with
  | Ok x => ∃ r0, find_incident id s = Some r0 ∧ PendingCloseComment (inc r0) = Some c ∧
      ResolvedAt x = Some (sql_now s) ∧ confirmed id c (sql_now s) r0 (tables s) (tables s')
  | Err e => tables s' = tables s ∨ (aborted s' = true ∧ ∀ p, (tx_commit s' p).1 = Err ErrTxRollback)
  end.
Proof.
  intros Htx. unfold ConfirmPendingClose, runInTx. destruct Htx as [t Htx]. rewrite Htx. intros HC.
  eapply confirmPendingClose_inv in HC; [|by rewrite Htx].
  destruct r as [x|e]; [done|]. destruct HC as [HC|HC]; [by left|right].
  split; [done|]. intros p. unfold tx_commit. by rewrite HC.
Qed.

(** resolving an incident by hand leaves its close proposal alive.  After an
    operator resolved an incident with a pending proposal, confirming that
    proposal later succeeds again: the incident that was resolved at the first
    time is resolved once more and its resolution time is overwritten (and the
    API mails the resolution a second time). *)
Theorem resolved_incident_reconfirmed `{!Driver} id note a c t1 t2 (s s2 : session core) r0 :
  (∀ n, event_fails n = false) →
  tx_start s = Some t1 → aborted s = false → find_incident id s = Some r0 →
  IncStatus (inc r0) ≠ "resolved" → PendingCloseComment (inc r0) = Some c →
  Severity (inc r0) ∈ severities →
  tables s2 = tables (Transition id "resolved" note a s).2 → app_tenant s2 = app_tenant s →
  bypass_rls s2 = bypass_rls s → tx_start s2 = Some t2 → aborted s2 = false →
  ∃ x y, (Transition id "resolved" note a s).1 = Ok (x, true) ∧ ResolvedAt x = Some t1 ∧
    (ConfirmPendingClose id c s2).1 = Ok y ∧ ResolvedAt y = Some t2.
Proof.
  intros He Htx Ha Hf Hst Hp Hsev Ht2 Eapp Eb Htx2 Ha2.
  destruct (transition_Ok id "resolved" note a s r0) as [x Hx]; try done.
  unfold Transition, runInTx in *. rewrite Htx in *.
  destruct (transition id "resolved" note a s) as [r s1] eqn:ET. cbn in *. subst r.
  apply transition_inv in ET as (r1 & Hf1 & _ & -> & Htr); [|by rewrite Htx].
  simplify_eq. assert (sql_now s = t1) as Hnow by (unfold sql_now; by rewrite Htx).
  assert (∃ d u, tables s1 = set_incident_updates (λ l, l ++ u) (set_incidents
     (<[id := set_inc (set_inc_status "resolved" (Some t1)) r0]>) d)) as (d & us & Ht1).
  { destruct Htr as (u & _ & _ & Htr). rewrite Hnow in Htr. cbn in Htr.
    destruct (String.eqb note ""); [by eexists _, [u]|].
    destruct Htr as (v & _ & ->). exists (tables s), [u; v]. unfold set_incident_updates. cbn.
    by rewrite <- app_assoc. }
  assert (find_incident id s2 = Some (set_inc (set_inc_status "resolved" (Some t1)) r0)) as Hf2.
  { unfold find_incident, inc_visible in *. rewrite Ht2, Ht1. cbn. rewrite lookup_insert_eq. cbn.
    rewrite (visible_settings s s2) by done.
    destruct (incidents (tables s) !! id) as [r1|]; [|done].
    destruct (visible s (inc_tenant r1)) eqn:Hv; [|done]. simplify_eq. by rewrite Hv. }
  pose proof (confirmPendingClose_Ok id c s2 _ He Ha2 Hf2 Hp Hsev) as Hok.
  unfold ConfirmPendingClose, runInTx. rewrite Htx2.
  destruct (confirmPendingClose id c s2) as [[y|e] s3] eqn:EC; [|done].
  apply confirmPendingClose_inv in EC as (r1 & _ & _ & Hy & _); [|by rewrite Htx2].
  eexists _, y. split; [done|]. cbn. rewrite Hnow. split; [done|]. split; [done|].
  rewrite Hy. unfold sql_now. by rewrite Htx2.
Qed.

(** a public status page shows its own services' incidents and nothing of
    the admin's.  Every incident [ListPublicForStatusPage] returns belongs to the
    session's tenant and affects a service attached to that page, never carries
    the close proposal, and is in the half its status says: the active ones are
    not resolved, the resolved ones were resolved within the retention. *)
Theorem public_page_scoped `{!Driver} page days n size (s s' : session core) active resolved total now :
  incidents_wf (tables s) → tx_start s = Some now →
  ListPublicForStatusPage page days n size s = (Ok (active, resolved, total), s') →
  (∀ x, x ∈ active.*1 → on_page page s x ∧ PendingCloseComment x = None ∧
     IncStatus x ≠ "resolved") ∧
  (∀ x, x ∈ resolved.*1 → on_page page s x ∧ PendingCloseComment x = None ∧
     IncStatus x = "resolved" ∧ ∃ t, ResolvedAt x = Some t ∧ now - days * day < t).
Proof.
  intros Hw Htx. unfold ListPublicForStatusPage.
  intros (act & s1 & Hq & (rows & s2 & Hst & (tot & s3 & _ & (ac & s4 & Hac &
    (rs & s5 & Hrs & Hk)%bind_Ok_inv)%bind_Ok_inv)%bind_Ok_inv)%bind_Ok_inv)%bind_Ok_inv.
  unfold ret in Hk. simplify_eq.
  pose proof (stmt_tx _ _ _ _ Hq) as E1. pose proof (stmt_settings_eq _ _ _ _ Hq) as [Ea Eb].
  apply query_Ok_inv in Hq as [-> Ht1].
  apply withTimelines_fst in Hac as [-> _]. apply withTimelines_fst in Hrs as [-> _].
  apply stmt_Ok_inv in Hst as (d & Hst & _). cbv zeta in Hst.
  assert (sql_now s1 = now) as Hnow by (unfold sql_now; by rewrite E1, Htx). rewrite Hnow in Hst.
  assert (∀ p, distinct_rows page p s1 = distinct_rows page p s) as Hd.
  { intros p. unfold distinct_rows, select_incidents, visible_incidents, page_links,
      inc_visible, visible. by rewrite Ht1, Ea, Eb. }
  split.
  - intros x (y & -> & Hy)%list_elem_of_fmap.
    apply distinct_rows_on_page in Hy as [Hon Hp]; [|done]. split; [done|]. split; [done|].
    by apply negb_true_iff, String.eqb_neq in Hp.
  - rewrite Hd in Hst. destruct (limit_offset _ _ _) as [l|] eqn:El; [|done].
    injection Hst as <- _. cbn. intros x (y & -> & Hy)%list_elem_of_fmap.
    eapply limit_offset_subseteq in Hy; [|done].
    apply distinct_rows_on_page in Hy as [Hon Hp]; [|done]. split; [done|]. split; [done|].
    unfold resolved_since, recently_resolved in Hp. apply andb_true_iff in Hp as [H1 H2].
    split; [by apply String.eqb_eq in H1|]. cbn. destruct (ResolvedAt y) as [t|]; [|done].
    exists t. split; [done|]. by apply Z.ltb_lt in H2.
Qed.

(** ** Examples and witnesses *)

Definition demo_incident : Incident :=
  {| IncID := "inc-1"; Title := "outage"; IncStatus := "monitoring"; CreatedAt := 1;
     ResolvedAt := None; Description := None; PendingCloseComment := Some "all good again";
     AutoCreated := true; Severity := "critical" |}.
Definition demo_incident_row : incident_row :=
  {| inc_tenant := "tenant-a"; inc := demo_incident |}.
Definition demo_link : link_row :=
  {| link_group := None; link_parent := None; link_position := 0 |}.
Definition demo_incident_core : core :=
  {| services := <["svc-a" := demo_row]> (<["svc-c" := demo_row]> ∅);
     status_page_services := <[("page-1", "svc-a") := demo_link]> {[("page-1", "svc-c") := demo_link]};
     integrations := ∅; incidents := {["inc-1" := demo_incident_row]};
     incident_services := [("inc-1", "svc-a"); ("inc-1", "svc-c")]; incident_updates := [];
     status_pages := ∅; status_page_service_groups := ∅; domains := ∅ |}.
Definition demo_incident_session : session core :=
  Session demo_incident_core "tenant-a" false (Some 5) false 0.
(** The same tenant, in a transaction opened at 90. *)
Definition later (d : core) : session core := Session d "tenant-a" false (Some 90) false 7.

Lemma demo_incidents_wf : incidents_wf demo_incident_core.
Proof.
  split; cbn.
  - intros i r [<- <-]%lookup_singleton_Some. split; [done|]. split.
    + split; [done|]. by intros [? ?].
    + apply list_elem_of_In. cbn. auto.
  - intros u Hu. by apply elem_of_nil in Hu.
  - intros p Hp. repeat (apply elem_of_cons in Hp as [->|Hp]; [by eexists|]).
    by apply elem_of_nil in Hp.
Qed.

(** the total of the public page counts links, not incidents.  The window
    COUNT of the resolved query runs before DISTINCT, so one resolved incident
    that affects two services of the page is returned once with a total of 2,
    while a page past the end reports the true total of 1. *)
Theorem public_total_counts_links :
  let d := tables (@Transition reliable "inc-1" "resolved" "" None demo_incident_session).2 in
  ∃ x u, (@ListPublicForStatusPage reliable "page-1" 90 1 25 (later d)).1 =
           Ok ([], [(x, u)], 2) ∧
         (@ListPublicForStatusPage reliable "page-1" 90 2 25 (later d)).1 = Ok ([], [], 1).
Proof. cbv zeta. eexists _, _. split; vm_compute; reflexivity. Qed.

Lemma incident_ops_isolated_witness :
  let l := [OpTransition "inc-1" "resolved" "done" None; OpConfirmClose "inc-1" "x"] in
  isolated_from "tenant-a" demo_incident_core
    (tables (@run_incident_ops reliable l demo_incident_session).2).
Proof. cbv zeta. apply (@incident_ops_isolated reliable _ demo_incident_session). reflexivity. Defined.

Lemma incident_ops_invariant_witness :
  let l := [OpTransition "inc-1" "resolved" "done" None; OpTransition "inc-1" "monitoring" "" None] in
  incidents_wf (tables (@run_incident_ops reliable l demo_incident_session).2).
Proof.
  cbv zeta. apply (@incident_ops_invariant reliable _ demo_incident_session), demo_incidents_wf.
Defined.

Lemma Transition_spec_witness :
  let '(r, s') := @Transition reliable "inc-1" "resolved" "done" None demo_incident_session in
  ∃ r0, find_incident "inc-1" demo_incident_session = Some r0 ∧
    transitioned "inc-1" "resolved" "done" None 5 r0 demo_incident_core (tables s').
Proof.
  destruct (@Transition reliable "inc-1" "resolved" "done" None demo_incident_session)
    as [r s'] eqn:E.
  destruct (@Transition_spec reliable _ _ _ _ _ _ _ E) as [_ H].
  assert (r = (@Transition reliable "inc-1" "resolved" "done" None demo_incident_session).1) as Hr
    by (rewrite E; reflexivity).
  vm_compute in Hr. subst r.
  destruct (H ltac:(eexists; reflexivity)) as (r0 & H1 & _ & _ & H2). exists r0. split; assumption.
Defined.

Lemma ConfirmPendingClose_spec_witness :
  ∃ r0, find_incident "inc-1" demo_incident_session = Some r0 ∧
    PendingCloseComment (inc r0) = Some "all good again".
Proof.
  destruct (@ConfirmPendingClose reliable "inc-1" "all good again" demo_incident_session)
    as [r s'] eqn:E.
  pose proof (@ConfirmPendingClose_spec reliable "inc-1" "all good again" demo_incident_session r s'
    ltac:(eexists; reflexivity) E) as H.
  assert (r = (@ConfirmPendingClose reliable "inc-1" "all good again" demo_incident_session).1) as Hr
    by (rewrite E; reflexivity).
  vm_compute in Hr. subst r. destruct H as (r0 & H1 & H2 & _). exists r0. split; assumption.
Defined.

Lemma resolved_incident_reconfirmed_witness :
  let s := demo_incident_session in
  let s2 := later (tables (@Transition reliable "inc-1" "resolved" "fixed" None s).2) in
  ∃ x y, (@Transition reliable "inc-1" "resolved" "fixed" None s).1 = Ok (x, true) ∧
    ResolvedAt x = Some 5 ∧
    (@ConfirmPendingClose reliable "inc-1" "all good again" s2).1 = Ok y ∧ ResolvedAt y = Some 90.
Proof.
  intros s s2.
  apply (@resolved_incident_reconfirmed reliable "inc-1" "fixed" None "all good again" 5 90 s s2
    demo_incident_row); try reflexivity.
  - discriminate.
  - apply list_elem_of_In. cbn. auto.
Defined.

Lemma public_page_scoped_witness :
  let r := (@ListPublicForStatusPage reliable "page-1" 90 1 25 demo_incident_session) in
  match r with
  | (Ok (active, _, _), _) => ∀ x, x ∈ active.*1 → PendingCloseComment x = None
  | _ => False
  end.
Proof.
  cbv zeta.
  destruct (@ListPublicForStatusPage reliable "page-1" 90 1 25 demo_incident_session)
    as [r s'] eqn:E.
  assert (r = (@ListPublicForStatusPage reliable "page-1" 90 1 25 demo_incident_session).1) as Hr
    by (rewrite E; reflexivity).
  vm_compute in Hr. subst r.
  destruct (@public_page_scoped reliable "page-1" 90 1 25 demo_incident_session s' _ _ _ 5
    demo_incidents_wf ltac:(reflexivity) E) as [H _].
  intros x Hx. apply (H x Hx).
Defined.
