(* ===== verification/GoStrings.v ===== *)
(** * Go strings: UTF-8, white space, host and port

    A Go string is its bytes.  [rune_count] is utf8.RuneCountInString and
    [TrimSpace] is strings.TrimSpace: a rune that is not valid UTF-8 counts as
    one rune of one byte and is never white space.  [SplitHostPort] is
    net.SplitHostPort. *)

From stdpp Require Import numbers strings list.
From Stdlib Require Import Ascii Lia.
From S2P Require Import Prelude.

#[local] Open Scope nat_scope.

Definition byte_at (n : nat) (s : string) : option nat :=
  nat_of_ascii <$> String.get n s.

Definition in_range (lo hi : nat) (b : option nat) : bool :=
  match b with Some n => (lo <=? n) && (n <=? hi) | None => false end.
Definition continuation (b : option nat) : bool := in_range 128 191 b.

(** The width of the first rune of a non-empty string (utf8.DecodeRune). *)
Definition rune_width (s : string) : nat :=
  match byte_at 0 s with
  | None => 0
  | Some b0 =>
      let b1 := byte_at 1 s in
      let b2 := byte_at 2 s in
      let b3 := byte_at 3 s in
      if b0 <? 128 then 1
      else if in_range 194 223 (Some b0) then if continuation b1 then 2 else 1
      else if in_range 224 239 (Some b0) then
        let lo := if b0 =? 224 then 160 else 128 in
        let hi := if b0 =? 237 then 159 else 191 in
        if in_range lo hi b1 && continuation b2 then 3 else 1
      else if in_range 240 244 (Some b0) then
        let lo := if b0 =? 240 then 144 else 128 in
        let hi := if b0 =? 244 then 143 else 191 in
        if in_range lo hi b1 && continuation b2 && continuation b3 then 4 else 1
      else 1
  end.

Fixpoint drop_bytes (n : nat) (s : string) : string :=
  match n, s with
  | S n, String _ s => drop_bytes n s
  | _, _ => s
  end.

(** Runes, with at most [fuel] of them: the length is always enough. *)
Fixpoint rune_count_fuel (fuel : nat) (s : string) : nat :=
  match fuel, s with
  | S fuel, String _ _ => S (rune_count_fuel fuel (drop_bytes (rune_width s) s))
  | _, _ => 0
  end.
Definition rune_count (s : string) : nat := rune_count_fuel (String.length s) s.

(** The UTF-8 encodings of the runes with property White_Space. *)
Definition bytes (l : list nat) : string :=
  foldr (λ n s, String (ascii_of_nat n) s) EmptyString l.
Definition spaces : list string :=
  bytes <$> ([[9]; [10]; [11]; [12]; [13]; [32]; [194; 133]; [194; 160]; [225; 154; 128]] ++
             ((λ n, [226; 128; n]) <$> [128; 129; 130; 131; 132; 133; 134; 135; 136; 137; 138;
                                        168; 169; 175]) ++
             [[226; 129; 159]; [227; 128; 128]]).

Definition suffix (p s : string) : bool :=
  (String.length p <=? String.length s) &&
  String.eqb (String.substring (String.length s - String.length p) (String.length p) s) p.

(** The first space the string starts, or ends, with. *)
Definition leading_space (s : string) : option string :=
  find (λ p, String.prefix p s) spaces.
Definition trailing_space (s : string) : option string :=
  find (λ p, suffix p s) spaces.

Fixpoint trim_left (fuel : nat) (s : string) : string :=
  match fuel, leading_space s with
  | S fuel, Some p => trim_left fuel (drop_bytes (String.length p) s)
  | _, _ => s
  end.
Fixpoint trim_right (fuel : nat) (s : string) : string :=
  match fuel, trailing_space s with
  | S fuel, Some p => trim_right fuel (String.substring 0 (String.length s - String.length p) s)
  | _, _ => s
  end.
Definition TrimSpace (s : string) : string :=
  let s := trim_left (String.length s) s in trim_right (String.length s) s.

(** ** Lemmas *)

Lemma drop_bytes_length n s : String.length (drop_bytes n s) = String.length s - n.
Proof. revert s. induction n as [|n IH]; intros [|a s]; simpl; try lia. by rewrite IH. Qed.

Lemma rune_width_pos a s : 0 < rune_width (String a s).
Proof. unfold rune_width. cbn [byte_at String.get fmap option_fmap option_map]. repeat case_match; lia. Qed.

Lemma rune_count_fuel_le fuel s : rune_count_fuel fuel s ≤ String.length s.
Proof.
  revert s. induction fuel as [|fuel IH]; intros [|a s]; cbn [rune_count_fuel]; try (simpl; lia).
  pose proof (IH (drop_bytes (rune_width (String a s)) (String a s))) as H.
  rewrite drop_bytes_length in H. pose proof (rune_width_pos a s). simpl in *. lia.
Qed.

(** Never more runes than bytes. *)
Lemma rune_count_le s : rune_count s ≤ String.length s.
Proof. apply rune_count_fuel_le. Qed.

Example trim_example : TrimSpace "  closing note " = "closing note".
Proof. vm_compute. reflexivity. Qed.
Example runes_example : rune_count (bytes [195; 169; 226; 130; 172; 255]) = 3.
Proof. vm_compute. reflexivity. Qed.

(** ** net.SplitHostPort *)

Fixpoint index_byte (a : ascii) (s : string) : option nat :=
  match s with
  | EmptyString => None
  | String b s => if Ascii.eqb b a then Some O else S <$> index_byte a s
  end.
Fixpoint last_index_byte (a : ascii) (s : string) : option nat :=
  match s with
  | EmptyString => None
  | String b s => match last_index_byte a s with
                  | Some i => Some (S i)
                  | None => if Ascii.eqb b a then Some O else None
                  end
  end.
Definition has_byte (a : ascii) (s : string) : bool :=
  match index_byte a s with Some _ => true | None => false end.
(** [s[i:]] and [s[:i]]. *)
Definition slice_from (i : nat) (s : string) : string := String.substring i (String.length s - i) s.
Definition slice_to (i : nat) (s : string) : string := String.substring 0 i s.

(** Host and port, [None] for an error. *)
Definition SplitHostPort (hostport : string) : option (string * string) :=
  match last_index_byte ":"%char hostport with
  | None => None
  | Some i =>
      let finish := λ host j k,
        if has_byte "["%char (slice_from j hostport) || has_byte "]"%char (slice_from k hostport)
        then None else Some (host, slice_from (S i) hostport) in
      if String.prefix "[" hostport then
        match index_byte "]"%char hostport with
        | None => None
        | Some e => if Nat.eqb (S e) i
                    then finish (String.substring 1 (e - 1) hostport) 1%nat (S e)
                    else None
        end
      else
        let host := slice_to i hostport in
        if has_byte ":"%char host then None else finish host O O
  end.

Example split_examples :
  (SplitHostPort "a.b.com:443", SplitHostPort "a.b.com", SplitHostPort "[::1]:80", SplitHostPort "::1",
   SplitHostPort "[::1]", SplitHostPort "h:", SplitHostPort "a:b:c", SplitHostPort "[a]b:1") =
  (Some ("a.b.com", "443"), None, Some ("::1", "80"), None, None, Some ("h", ""), None, None).
Proof. vm_compute. reflexivity. Qed.

(** *** Lemmas *)

Lemma substring_all s : String.substring 0 (String.length s) s = s.
Proof. induction s as [|a s IH]; [done|]. cbn. by rewrite IH. Qed.

Lemma substring_prefix a b : String.substring 0 (String.length a) (String.append a b) = a.
Proof. induction a as [|c a IH]; simpl; [by destruct b|]. by rewrite IH. Qed.

Lemma substring_skip a b n m :
  String.substring (String.length a + n) m (String.append a b) = String.substring n m b.
Proof. by induction a as [|c a IH]. Qed.

Lemma length_append a b : String.length (String.append a b) = String.length a + String.length b.
Proof. induction a as [|c a IH]; simpl; [done|]. by rewrite IH. Qed.

Lemma slice_from_0 s : slice_from 0 s = s.
Proof. unfold slice_from. rewrite Nat.sub_0_r. apply substring_all. Qed.

Lemma slice_to_app a b : slice_to (String.length a) (String.append a b) = a.
Proof. apply substring_prefix. Qed.

(** Behind the byte that follows [a]. *)
Lemma slice_from_app a c b :
  slice_from (S (String.length a)) (String.append a (String c b)) = b.
Proof.
  unfold slice_from. rewrite length_append. simpl String.length.
  rewrite <- Nat.add_1_r, substring_skip. cbn [String.substring].
  replace (_ - _) with (String.length b) by lia. apply substring_all.
Qed.

Lemma has_byte_cons c a s : has_byte c (String a s) = Ascii.eqb a c || has_byte c s.
Proof.
  unfold has_byte. cbn. destruct (Ascii.eqb a c); [done|]. by destruct (index_byte c s).
Qed.

Lemma has_byte_app c a b : has_byte c (String.append a b) = has_byte c a || has_byte c b.
Proof.
  induction a as [|d a IH]; [done|].
  change (String.append (String d a) b) with (String d (String.append a b)).
  rewrite !has_byte_cons, IH. by destruct (Ascii.eqb d c).
Qed.

Lemma prefix_byte c s : has_byte c s = false → String.prefix (String c EmptyString) s = false.
Proof.
  destruct s as [|a s]; [done|]. rewrite has_byte_cons. intros [Ha _]%orb_false_iff. simpl.
  destruct ascii_dec as [<-|]; [by rewrite Ascii.eqb_refl in Ha|done].
Qed.

Lemma prefix_byte_app c a d b :
  has_byte c a = false → Ascii.eqb d c = false →
  String.prefix (String c EmptyString) (String.append a (String d b)) = false.
Proof.
  destruct a as [|e a]; [|rewrite has_byte_cons; intros [He _]%orb_false_iff _]; simpl;
    [intros _ He|]; (destruct ascii_dec as [<-|]; [by rewrite Ascii.eqb_refl in He|done]).
Qed.

Lemma last_index_none c s : has_byte c s = false → last_index_byte c s = None.
Proof.
  induction s as [|a s IH]; [done|]. rewrite has_byte_cons.
  intros [Ha Hs]%orb_false_iff. cbn. by rewrite IH, Ha.
Qed.

Lemma last_index_app c a b :
  has_byte c b = false → last_index_byte c (String.append a (String c b)) = Some (String.length a).
Proof.
  intros Hb. induction a as [|d a IH]; simpl.
  - by rewrite last_index_none, Ascii.eqb_refl.
  - by rewrite IH.
Qed.

(** A host and a port without brackets and colons are split where they were
    joined. *)
Definition plain (s : string) : Prop :=
  has_byte ":"%char s = false ∧ has_byte "["%char s = false ∧ has_byte "]"%char s = false.

Lemma SplitHostPort_plain h p :
  plain h → plain p → SplitHostPort (String.append h (String ":"%char p)) = Some (h, p).
Proof.
  intros (Hc & Ho & Hx) (Pc & Po & Px). unfold SplitHostPort. rewrite last_index_app by done.
  rewrite prefix_byte_app by done.
  rewrite slice_to_app, Hc, !slice_from_0, slice_from_app, !has_byte_app, !has_byte_cons.
  by rewrite Ho, Hx, Po, Px.
Qed.

Lemma index_byte_app c a b :
  has_byte c a = false → index_byte c (String.append a (String c b)) = Some (String.length a).
Proof.
  induction a as [|d a IH]; [intros _; simpl; by rewrite Ascii.eqb_refl|].
  rewrite has_byte_cons. intros [Hd Ha]%orb_false_iff. simpl. by rewrite Hd, IH.
Qed.

Lemma index_byte_early c a b i :
  has_byte c a = true → index_byte c (String.append a b) = Some i → i < String.length a.
Proof.
  revert i. induction a as [|d a IH]; [done|]. intros i. rewrite has_byte_cons. simpl.
  destruct (Ascii.eqb d c); cbn [orb]; [intros _ [= <-]; lia|].
  intros Ha. destruct (index_byte c (String.append a b)); [|done].
  intros [= <-]. specialize (IH _ Ha eq_refl). lia.
Qed.
