(* ===== verification/GoTime.v ===== *)
(** * Go's time package: civil dates and zones

    What the program asks of it beyond instants: the calendar fields of a time in
    a location, time.Date with its overflowing fields, AddDate, Weekday, Truncate
    and the few layouts of the mails.  The calendar is the proleptic Gregorian one,
    computed from days since 1970-01-01; the zone database is a parameter,
    [lookup], with its laws. *)

From stdpp Require Import numbers strings pretty.
From Stdlib Require Import ZArith Lia.
From S2P Require Import Prelude GoNum.

#[local] Open Scope Z_scope.

(** ** The zone database *)

Class Zones := {
  Location : Type;
  UTC : Location;
  LoadLocation : string → option Location;
  (** The offset in force at a Unix second, and since and until when it is. *)
  lookup_zone : Location → Z → Z * Z * Z;
}.

Definition zone_offset `{!Zones} (l : Location) (sec : Z) : Z := (lookup_zone l sec).1.1.

Class ZonesLaws `(ZN : Zones) : Prop := {
  utc_offset sec : zone_offset UTC sec = 0;
  zone_span l sec o st en : lookup_zone l sec = (o, st, en) → st ≤ sec < en;
  zone_same l sec o st en sec' : lookup_zone l sec = (o, st, en) → st ≤ sec' < en → zone_offset l sec' = o;
}.

(** ** The calendar *)

Definition seconds_per_day : Z := 86400.

(** Days since 1970-01-01 of a date whose day may overflow its month; the
    month is 1 to 12. *)
Definition days_of_civil (y m d : Z) : Z :=
  let y' := if m <=? 2 then y - 1 else y in
  let yoe := y' mod 400 in
  let doy := (153 * (m + (if 2 <? m then -3 else 9)) + 2) / 5 + d - 1 in
  y' / 400 * 146097 + (yoe * 365 + yoe / 4 - yoe / 100 + doy) - 719468.

Definition year_of_era (doe : Z) : Z := (doe - doe / 1460 + doe / 36524 - doe / 146096) / 365.

(** Year, month and day of a day number. *)
Definition civil_of_days (z : Z) : Z * Z * Z :=
  let doe := (z + 719468) mod 146097 in
  let yoe := year_of_era doe in
  let doy := doe - (365 * yoe + yoe / 4 - yoe / 100) in
  let mp := (5 * doy + 2) / 153 in
  let m := if mp <? 10 then mp + 3 else mp - 9 in
  let y := yoe + (z + 719468) / 146097 * 400 in
  (if m <=? 2 then y + 1 else y, m, doy - (153 * mp + 2) / 5 + 1).

Example civil_examples :
  (civil_of_days 0, civil_of_days (-1), civil_of_days 19782, days_of_civil 2024 2 29) =
  ((1970, 1, 1), (1969, 12, 31), (2024, 2, 29), 19782).
Proof. vm_compute. reflexivity. Qed.

Lemma doy_range doe : 0 ≤ doe < 146097 →
  let yoe := year_of_era doe in
  0 ≤ yoe < 400 ∧ 0 ≤ doe - (365 * yoe + yoe / 4 - yoe / 100) ≤ 365.
Proof. intros H. cbv zeta. unfold year_of_era. split; Z.to_euclidean_division_equations; lia. Qed.

Lemma month_range doy : 0 ≤ doy ≤ 365 →
  let mp := (5 * doy + 2) / 153 in 0 ≤ mp ≤ 11 ∧ 1 ≤ doy - (153 * mp + 2) / 5 + 1 ≤ 31.
Proof. intros H. cbv zeta. Z.to_euclidean_division_equations; lia. Qed.

(** Going back from a date, its day moved by [k]. *)
Lemma days_of_civil_of_days z k :
  let '(y, m, d) := civil_of_days z in days_of_civil y m (d + k) = z + k.
Proof.
  unfold civil_of_days. set (doe := (z + 719468) mod 146097). set (era := (z + 719468) / 146097).
  assert (0 ≤ doe < 146097) as Hd by (apply Z.mod_pos_bound; lia).
  assert (z + 719468 = 146097 * era + doe) as Hz by (apply Z.div_mod; lia).
  destruct (doy_range doe Hd) as [Hy Hdoy]. set (yoe := year_of_era doe) in *.
  set (doy := doe - (365 * yoe + yoe / 4 - yoe / 100)) in *.
  destruct (month_range doy Hdoy) as [Hm _]. set (mp := (5 * doy + 2) / 153) in *. cbv zeta.
  assert ((yoe + era * 400) / 400 = era ∧ (yoe + era * 400) mod 400 = yoe) as [E1 E2].
  { split; [rewrite Z.div_add by lia; rewrite Z.div_small by lia; lia|].
    rewrite Z.mod_add by lia. apply Z.mod_small. lia. }
  unfold days_of_civil.
  destruct (Z.ltb_spec mp 10).
  - destruct (Z.leb_spec (mp + 3) 2); [lia|]. destruct (Z.ltb_spec 2 (mp + 3)); [|lia].
    rewrite E1, E2. replace (mp + 3 + -3) with mp by lia. lia.
  - destruct (Z.leb_spec (mp - 9) 2); [|lia]. destruct (Z.ltb_spec 2 (mp - 9)); [lia|].
    replace (yoe + era * 400 + 1 - 1) with (yoe + era * 400) by lia.
    rewrite E1, E2. replace (mp - 9 + 9) with mp by lia. lia.
Qed.

Lemma civil_month_range z : 1 ≤ (civil_of_days z).1.2 ≤ 12.
Proof.
  unfold civil_of_days. set (doe := (z + 719468) mod 146097).
  assert (0 ≤ doe < 146097) as Hd by (apply Z.mod_pos_bound; lia).
  destruct (doy_range doe Hd) as [_ Hdoy]. destruct (month_range _ Hdoy) as [Hm _]. cbn in *.
  case_match; lia.
Qed.

(** ** Times in a location *)

Section times.
Context `{!Zones}.

Definition unix (t : Z) : Z := t / second.
Definition nsec_of (t : Z) : Z := t mod second.

(** The local clock's seconds, as if they were UTC. *)
Definition local_seconds (t : Z) (l : Location) : Z := unix t + zone_offset l (unix t).
Definition local_days (t : Z) (l : Location) : Z := local_seconds t l / seconds_per_day.
Definition local_clock (t : Z) (l : Location) : Z := local_seconds t l mod seconds_per_day.

Definition Year (t : Z) (l : Location) : Z := (civil_of_days (local_days t l)).1.1.
Definition Month (t : Z) (l : Location) : Z := (civil_of_days (local_days t l)).1.2.
Definition Day (t : Z) (l : Location) : Z := (civil_of_days (local_days t l)).2.
(** Sunday is 0; 1970-01-01 was a Thursday. *)
Definition Sunday : Z := 0.
Definition Monday : Z := 1.
Definition Weekday (t : Z) (l : Location) : Z := (local_days t l + 4) mod 7.
Definition Hour (t : Z) (l : Location) : Z := local_clock t l / 3600.
Definition Minute (t : Z) (l : Location) : Z := local_clock t l mod 3600 / 60.
Definition Second (t : Z) (l : Location) : Z := local_clock t l mod 60.

(** time.Date's last step: the instant whose local clock shows [sec]. *)
Definition resolve (sec : Z) (l : Location) : Z :=
  let '(offset, st, en) := lookup_zone l sec in
  if offset =? 0 then sec
  else
    let utc := sec - offset in
    if (utc <? st) || (en <=? utc) then sec - zone_offset l utc else utc.

Definition Date (year month day hour min sec nsec : Z) (l : Location) : Z :=
  let m := month - 1 in
  let year := year + m / 12 in
  let month := m mod 12 + 1 in
  let sec := sec + nsec / second in
  let nsec := nsec mod second in
  let min := min + sec / 60 in
  let sec := sec mod 60 in
  let hour := hour + min / 60 in
  let min := min mod 60 in
  let day := day + hour / 24 in
  let hour := hour mod 24 in
  resolve (days_of_civil year month day * seconds_per_day + hour * 3600 + min * 60 + sec) l * second + nsec.

Definition AddDate (t years months days : Z) (l : Location) : Z :=
  Date (Year t l + years) (Month t l + months) (Day t l + days) (Hour t l) (Minute t l) (Second t l) (nsec_of t) l.

(** t.Truncate(d) counts from the zero time, a whole number of days before the
    epoch. *)
Definition Truncate (t d : Z) : Z := if d <=? 0 then t else t - (t + 62135596800 * second) mod d.

(** The zero time.Time. *)
Definition time_zero : Z := - 62135596800 * second.
Definition IsZero (t : Z) : bool := t =? time_zero.

(** *** Lemmas *)

(** A wall-clock time given by day number and second of the day. *)
Lemma Date_of_days z k secs l :
  0 ≤ secs < seconds_per_day →
  Date (civil_of_days z).1.1 (civil_of_days z).1.2 ((civil_of_days z).2 + k) 0 0 secs 0 l =
  resolve ((z + k) * seconds_per_day + secs) l * second.
Proof.
  intros Hs. unfold Date. pose proof (civil_month_range z) as Hm. pose proof (days_of_civil_of_days z k) as Hd.
  destruct (civil_of_days z) as [[y m] d]. cbn in Hm, Hd. cbn [fst snd]. cbv zeta.
  rewrite (Z.div_small (m - 1)), (Z.mod_small (m - 1)) by lia.
  rewrite (Z.div_small 0 second), (Z.mod_small 0 second) by (unfold second, millisecond, nanosecond; lia).
  rewrite !Z.add_0_l, !Z.add_0_r, Z.sub_add. unfold seconds_per_day in *.
  pose proof (Z.div_mod secs 60 ltac:(lia)) as D1. pose proof (Z.div_mod (secs / 60) 60 ltac:(lia)) as D2.
  assert (0 ≤ secs / 60 / 60 < 24) as Hh by (Z.to_euclidean_division_equations; lia).
  rewrite (Z.div_small (secs / 60 / 60)), (Z.mod_small (secs / 60 / 60)) by lia.
  rewrite Z.add_0_r, Hd. f_equal. f_equal. lia.
Qed.

(** Where the clock changes at most once nearby: offset [a] before [T], [b] from
    [T] on, both within a day. *)
Record one_change (l : Location) (lo hi T a b : Z) : Prop := {
  oc_before x : lo ≤ x < T → zone_offset l x = a;
  oc_after x : T ≤ x < hi → zone_offset l x = b;
  oc_a : - seconds_per_day < a < seconds_per_day;
  oc_b : - seconds_per_day < b < seconds_per_day;
}.

(** A wall-clock time that exists is resolved to an instant that shows it. *)
Lemma resolve_shows `{!ZonesLaws _} l lo hi T a b sec u :
  one_change l lo hi T a b → lo + 2 * seconds_per_day ≤ sec < hi - 2 * seconds_per_day →
  lo ≤ u < hi → u + zone_offset l u = sec →
  let v := resolve sec l in v + zone_offset l v = sec ∧ - seconds_per_day < v - sec < seconds_per_day.
Proof.
  intros Hoc Hsec Hu Hshow. unfold resolve. destruct (lookup_zone l sec) as [[o st] en] eqn:El.
  pose proof (zone_span _ _ _ _ _ El) as Hspan.
  assert (zone_offset l sec = o) as Eo by by unfold zone_offset; rewrite El.
  pose proof (oc_before _ _ _ _ _ _ Hoc) as Hb. pose proof (oc_after _ _ _ _ _ _ Hoc) as Hf.
  pose proof (oc_a _ _ _ _ _ _ Hoc). pose proof (oc_b _ _ _ _ _ _ Hoc).
  destruct (Z.eqb_spec o 0) as [->|Hne]; [split; [lia|unfold seconds_per_day; lia]|].
  assert (st ≤ sec - o < en → zone_offset l (sec - o) = o) as Hin by by apply (zone_same l sec o st en).
  assert (o = a ∧ sec < T ∨ o = b ∧ T ≤ sec) as Ho.
  { destruct (Z.lt_ge_cases sec T); [left|right]; (split; [|lia]); rewrite <- Eo; [apply Hb|apply Hf]; lia. }
  assert (u + a = sec ∧ u < T ∨ u + b = sec ∧ T ≤ u) as Hu'.
  { destruct (Z.lt_ge_cases u T); [left; rewrite Hb in Hshow by lia|right; rewrite Hf in Hshow by lia]; lia. }
  destruct (((sec - o) <? st) || (en <=? (sec - o))) eqn:Hout.
  - assert (zone_offset l (sec - o) = if sec - o <? T then a else b) as E1.
    { destruct (Z.ltb_spec (sec - o) T); [apply Hb|apply Hf]; lia. }
    rewrite E1. destruct (Z.ltb_spec (sec - o) T).
    + split; [|lia]. destruct (Z.lt_ge_cases (sec - a) T); [rewrite Hb; lia|]. lia.
    + split; [|lia]. destruct (Z.lt_ge_cases (sec - b) T); [|rewrite Hf; lia]. lia.
  - apply orb_false_iff in Hout as [Hlo%Z.ltb_ge Hhi%Z.leb_gt]. rewrite Hin by lia. split; [lia|].
    destruct Ho as [[-> _]|[-> _]]; lia.
Qed.
End times.
