(* ===== verification/GoNet.v ===== *)
(** * Go's IP addresses (net.ParseIP, net.ParseCIDR, net.IPNet)

    An IP is its bytes: four, or sixteen with an IPv4 address in the last four
    behind ten zeros and two 255 (its IPv4-mapped form, what net.ParseIP gives).
    The parsers are those of net/netip, over a string's bytes. *)

From stdpp Require Import numbers strings list.
From Stdlib Require Import Ascii ZArith Lia.
From S2P Require Import Prelude GoStrings.

#[local] Open Scope Z_scope.

Definition IP : Type := list Z.

Definition bytes_of (s : string) : list Z :=
  (λ a, Z.of_nat (nat_of_ascii a)) <$> String.list_ascii_of_string s.

(** [Addr.As16] of an IPv4 address, and [IP.To4]. *)
Definition mapped (ip : IP) : IP := replicate 10 0 ++ [255; 255] ++ ip.
Definition To4 (ip : IP) : option IP :=
  if Nat.eqb (length ip) 4 then Some ip
  else if bool_decide (length ip = 16%nat ∧ take 12 ip = replicate 10 0 ++ [255; 255])
  then Some (drop 12 ip) else None.

(** ** Parsing *)

Definition dec_val (c : Z) : option Z := if (48 <=? c) && (c <=? 57) then Some (c - 48) else None.
Definition hex_val (c : Z) : option Z :=
  if (48 <=? c) && (c <=? 57) then Some (c - 48)
  else if (97 <=? c) && (c <=? 102) then Some (c - 97 + 10)
  else if (65 <=? c) && (c <=? 70) then Some (c - 65 + 10)
  else None.

(** [parseIPv4Fields]: [edge] at the start and behind a dot, [val] and [digLen] the
    current octet and its digits, [fields] the octets before it. *)
Fixpoint parseIPv4Fields (edge : bool) (val digLen : Z) (fields : list Z) (s : list Z) :
    option (list Z) :=
  match s with
  | [] => if Nat.ltb (length fields) 3 then None else Some (fields ++ [val])
  | c :: s =>
      match dec_val c with
      | Some d =>
          if (digLen =? 1) && (val =? 0) then None
          else if 255 <? val * 10 + d then None
          else parseIPv4Fields false (val * 10 + d) (digLen + 1) fields s
      | None =>
          if negb (c =? 46) then None
          else if edge || bool_decide (s = []) || Nat.eqb (length fields) 3 then None
          else parseIPv4Fields true 0 0 (fields ++ [val]) s
      end
  end.
Definition parseIPv4 (s : list Z) : option (list Z) := parseIPv4Fields true 0 0 [] s.

(** A group of hex digits: its value, whether there were any, what follows; more
    than four are an error. *)
Fixpoint hex_group (acc : Z) (off : nat) (s : list Z) : option (Z * nat * list Z) :=
  match s with
  | c :: s' =>
      match hex_val c with
      | Some d => if Nat.ltb 3 off then None else hex_group (acc * 16 + d) (S off) s'
      | None => Some (acc, off, s)
      end
  | [] => Some (acc, off, [])
  end.

(** The loop over the groups: the bytes so far, where the ellipsis was, what is
    left.  Every turn adds two bytes and there are at most sixteen. *)
Fixpoint ipv6_loop (fuel : nat) (ip : list Z) (ellipsis : option nat) (s : list Z) :
    option (list Z * option nat * list Z) :=
  match fuel with
  | O => Some (ip, ellipsis, s)
  | S fuel =>
      match hex_group 0 0 s with
      | None => None
      | Some (_, O, _) => None
      | Some (acc, _, rest) =>
          match rest with
          | 46 :: _ =>
              if bool_decide (ellipsis = None) && negb (Nat.eqb (length ip) 12) then None
              else if Nat.ltb 16 (length ip + 4) then None
              else match parseIPv4 s with
                   | Some fields => Some (ip ++ fields, ellipsis, [])
                   | None => None
                   end
          | _ =>
              let ip := ip ++ [Z.shiftr acc 8; Z.land acc 255] in
              match rest with
              | [] => Some (ip, ellipsis, [])
              | 58 :: [] => None
              | 58 :: 58 :: s =>
                  match ellipsis with
                  | Some _ => None
                  | None =>
                      match s with
                      | [] => Some (ip, Some (length ip), [])
                      | _ => ipv6_loop fuel ip (Some (length ip)) s
                      end
                  end
              | 58 :: s => ipv6_loop fuel ip ellipsis s
              | _ => None
              end
          end
      end
  end.

(** [parseIPv6] once the zone is cut off: the whole string must have been used, and
    the ellipsis stands for the bytes that are missing. *)
Definition ipv6_finish (r : option (list Z * option nat * list Z)) : option IP :=
  match r with
  | None => None
  | Some (ip, ellipsis, s) =>
      if negb (bool_decide (s = [])) then None
      else if Nat.ltb (length ip) 16 then
        match ellipsis with
        | None => None
        | Some e => Some (take e ip ++ replicate (16 - length ip) 0 ++ drop e ip)
        end
      else match ellipsis with Some _ => None | None => Some ip end
  end.
Definition parseIPv6 (s : list Z) : option IP :=
  match s with
  | 58 :: 58 :: [] => Some (replicate 16 0)
  | 58 :: 58 :: s => ipv6_finish (ipv6_loop 8 [] (Some 0%nat) s)
  | _ => ipv6_finish (ipv6_loop 8 [] None s)
  end.

(** [netip.ParseAddr]: the first of '.', ':' and '%' says what it is. *)
Fixpoint addr_kind (s : list Z) : option Z :=
  match s with
  | [] => None
  | c :: s => if bool_decide (c ∈ [46; 58; 37]) then Some c else addr_kind s
  end.
(** What precedes the first [c] and what follows it. *)
Fixpoint cut (c : Z) (s : list Z) : option (list Z * list Z) :=
  match s with
  | [] => None
  | d :: s => if d =? c then Some ([], s)
              else match cut c s with Some (a, m) => Some (d :: a, m) | None => None end
  end.
(** The address and its zone. *)
Definition ParseAddr (s : list Z) : option (IP * list Z) :=
  match addr_kind s with
  | Some 46 => (λ ip, (ip, [])) <$> parseIPv4 s
  | Some 58 =>
      match cut 37 s with
      | None => (λ ip, (ip, [])) <$> parseIPv6 s
      | Some (_, []) => None
      | Some (a, zone) => (λ ip, (ip, zone)) <$> parseIPv6 a
      end
  | _ => None
  end.

Definition To16 (ip : IP) : IP := if Nat.eqb (length ip) 4 then mapped ip else ip.

Definition ParseIP (s : string) : option IP :=
  match ParseAddr (bytes_of s) with
  | Some (ip, []) => Some (To16 ip)
  | _ => None
  end.

(** ** Networks *)

Record IPNet := {
  NetIP : IP;
  NetMask : list Z;
}.

(** [CIDRMask]: the bytes of [bits] bits of which the first [ones] are set. *)
Fixpoint CIDRMask (ones : Z) (len : nat) : list Z :=
  match len with
  | O => []
  | S len =>
      if 8 <=? ones then 255 :: CIDRMask (ones - 8) len
      else Z.land (Z.lnot (Z.shiftr 255 ones)) 255 :: CIDRMask 0 len
  end.

(** The decimal number a string is; [dtoi] stops short of 0xFFFFFF. *)
Fixpoint dtoi (acc : Z) (s : list Z) : option Z :=
  match s with
  | [] => Some acc
  | c :: s => match dec_val c with
              | Some d => if 16777215 <=? acc * 10 + d then None else dtoi (acc * 10 + d) s
              | None => None
              end
  end.

Definition ParseCIDR (s : string) : option IPNet :=
  match cut 47 (bytes_of s) with
  | None => None
  | Some (addr, mask) =>
      match ParseAddr addr, mask, dtoi 0 mask with
      | Some (ip, []), _ :: _, Some n =>
          if 8 * Z.of_nat (length ip) <? n then None
          else let m := CIDRMask n (length ip) in
               Some {| NetIP := zip_with Z.land ip m; NetMask := m |}
      | _, _, _ => None
      end
  end.

(** [networkNumberAndMask] and [IPNet.Contains] *)
Definition networkNumberAndMask (n : IPNet) : option (IP * list Z) :=
  let ip := default (NetIP n) (To4 (NetIP n)) in
  match length (NetMask n), length ip with
  | 4%nat, 4%nat | 16%nat, 16%nat => Some (ip, NetMask n)
  | 16%nat, 4%nat => Some (ip, drop 12 (NetMask n))
  | _, _ => None
  end.
Definition Contains (n : IPNet) (ip : IP) : bool :=
  match networkNumberAndMask n with
  | None => Nat.eqb (length (default ip (To4 ip))) 0
  | Some (nn, m) =>
      let ip := default ip (To4 ip) in
      Nat.eqb (length ip) (length nn) &&
      bool_decide (zip_with Z.land nn m = zip_with Z.land ip m)
  end.

(** ** Rendering *)

(** strconv.Itoa of a natural number: its decimal digits, with enough fuel for
    every 64-bit number. *)
Fixpoint digits (fuel : nat) (n : Z) (acc : string) : string :=
  match fuel with
  | O => acc
  | S fuel =>
      let acc := String (ascii_of_nat (Z.to_nat (48 + n mod 10))) acc in
      if n / 10 =? 0 then acc else digits fuel (n / 10) acc
  end.
Definition itoa (n : Z) : string := digits 20 n EmptyString.

(** [Addr.String] of the four bytes of an IPv4 address. *)
Fixpoint dotted (ip : list Z) : string :=
  match ip with
  | [] => EmptyString
  | [a] => itoa a
  | a :: ip => String.append (itoa a) (String.append "." (dotted ip))
  end.

(** [Addr.appendTo6]: the eight 16-bit words in hex, the first longest run of at
    least two zero words left out. *)
Definition hex_digit (n : Z) : string :=
  String (ascii_of_nat (Z.to_nat (if n <? 10 then 48 + n else 87 + n))) EmptyString.
Definition appendHex (w : Z) : string :=
  let d := λ k, hex_digit (Z.land (Z.shiftr w k) 15) in
  String.append (if 4096 <=? w then d 12 else EmptyString)
    (String.append (if 256 <=? w then d 8 else EmptyString)
      (String.append (if 16 <=? w then d 4 else EmptyString) (d 0))).
Fixpoint words (ip : list Z) : list Z :=
  match ip with
  | a :: b :: ip => Z.lor (Z.shiftl a 8) b :: words ip
  | _ => []
  end.
Fixpoint zeros (l : list Z) : nat :=
  match l with w :: l => if w =? 0 then S (zeros l) else O | [] => O end.
(** Where the run left out starts, and its length. *)
Fixpoint zero_run (i : nat) (l : list Z) (best : option (nat * nat)) : option (nat * nat) :=
  match l with
  | [] => best
  | _ :: l' =>
      let n := zeros l in
      let better := Nat.leb 2 n && match best with Some (_, m) => Nat.ltb m n | None => true end in
      zero_run (S i) l' (if better then Some (i, n) else best)
  end.
Fixpoint colons (l : list Z) : string :=
  match l with
  | [] => EmptyString
  | [w] => appendHex w
  | w :: l => String.append (appendHex w) (String.append ":" (colons l))
  end.
Definition appendTo6 (ip : IP) : string :=
  let ws := words ip in
  match zero_run 0 ws None with
  | None => colons ws
  | Some (i, n) => String.append (colons (take i ws)) (String.append "::" (colons (drop (i + n) ws)))
  end.

Definition hexString (ip : IP) : string :=
  foldr (λ b s, String.append (hex_digit (Z.shiftr b 4)) (String.append (hex_digit (Z.land b 15)) s))
    EmptyString ip.

(** [ipEmptyString]: [IP.String], and nothing for no address. *)
Definition ipEmptyString (ip : IP) : string :=
  match ip with
  | [] => EmptyString
  | _ =>
      match To4 ip with
      | Some ip4 => dotted ip4
      | None => if Nat.eqb (length ip) 16 then appendTo6 ip else String.append "?" (hexString ip)
      end
  end.

(** [JoinHostPort] *)
Definition JoinHostPort (host port : string) : string :=
  if has_byte ":"%char host
  then String.append "[" (String.append host (String.append "]:" port))
  else String.append host (String.append ":" port).

(** [TCPAddr.String] *)
Record IPAddr := {
  AddrIP : IP;
  Zone : string;
}.
Definition TCPAddr_String (a : IPAddr) (port : Z) : string :=
  let ip := ipEmptyString (AddrIP a) in
  JoinHostPort
    (if String.eqb (Zone a) "" then ip else String.append ip (String.append "%" (Zone a)))
    (itoa port).

Example parse_examples :
  ParseIP <$> ["192.0.2.1"; "192.0.2.01"; "256.0.0.1"; "1.2.3"; "::1"; "2001:db8::ff00:42:8329"; "::";
               "::ffff:10.0.0.1"; "1:2:3:4:5:6:7:8"; "1:2:3:4:5:6:7::"; "::1%eth0"; "1::2::3"; "12345::";
               "localhost"; ":1"; "1:2:3:4:5:6:1.2.3.4"; "fe80:"] =
  [Some (mapped [192; 0; 2; 1]); None; None; None; Some (replicate 15 0 ++ [1]);
   Some [32; 1; 13; 184; 0; 0; 0; 0; 0; 0; 255; 0; 0; 66; 131; 41]; Some (replicate 16 0);
   Some (mapped [10; 0; 0; 1]); Some [0; 1; 0; 2; 0; 3; 0; 4; 0; 5; 0; 6; 0; 7; 0; 8];
   Some [0; 1; 0; 2; 0; 3; 0; 4; 0; 5; 0; 6; 0; 7; 0; 0]; None; None; None; None; None;
   Some [0; 1; 0; 2; 0; 3; 0; 4; 0; 5; 0; 6; 1; 2; 3; 4]; None].
Proof. vm_compute. reflexivity. Qed.

Example string_examples :
  ipEmptyString <$> [[192; 0; 2; 1]; mapped [10; 0; 0; 1]; replicate 15 0 ++ [1]; replicate 16 0;
                     [32; 1; 13; 184; 0; 0; 0; 0; 0; 0; 255; 0; 0; 66; 131; 41];
                     [0; 1; 0; 0; 0; 3; 0; 4; 0; 5; 0; 6; 0; 0; 0; 0]] =
  ["192.0.2.1"; "10.0.0.1"; "::1"; "::"; "2001:db8::ff00:42:8329"; "1:0:3:4:5:6::"].
Proof. vm_compute. reflexivity. Qed.

(** ** Lemmas *)

(** An IP's bytes are bytes. *)
Definition octets (ip : IP) : Prop := Forall (λ b, 0 ≤ b < 256) ip.

Lemma To4_length ip ip4 : To4 ip = Some ip4 → length ip4 = 4%nat.
Proof.
  unfold To4. destruct (Nat.eqb_spec (length ip) 4); [by intros [= <-]|].
  case_bool_decide as Hm; [|done]. intros [= <-]. rewrite length_drop. lia.
Qed.

Lemma To4_octets ip ip4 : octets ip → To4 ip = Some ip4 → octets ip4.
Proof.
  unfold To4, octets. destruct (Nat.eqb_spec (length ip) 4); [by intros ? [= <-]|].
  case_bool_decide; [|done]. intros Ho [= <-]. by apply Forall_drop.
Qed.

Lemma To4_mapped ip4 : length ip4 = 4%nat → To4 (mapped ip4) = Some ip4.
Proof.
  intros Hl. unfold To4, mapped. rewrite !length_app, Hl. cbn [length replicate Nat.add Nat.eqb].
  rewrite bool_decide_eq_true_2; [done|]. done.
Qed.

Lemma bytes_of_app a b : bytes_of (String.append a b) = bytes_of a ++ bytes_of b.
Proof.
  unfold bytes_of. rewrite <- fmap_app. f_equal.
  induction a as [|c a IH]; [done|]. change (c :: String.list_ascii_of_string (String.append a b) = c :: (String.list_ascii_of_string a ++ String.list_ascii_of_string b)). by f_equal.
Qed.

(** *** Octets *)

(** What Itoa writes for an octet, and that the parser reads it back. *)
Lemma octet_cases (P : Z → Prop) : Forall P (seqZ 0 256) → ∀ b, 0 ≤ b < 256 → P b.
Proof. intros HP b Hb. rewrite Forall_forall in HP. apply HP, elem_of_seqZ. lia. Qed.

Definition octet_ok (b : Z) : Prop :=
  Forall (λ c, 48 ≤ c ≤ 57) (bytes_of (itoa b)) ∧ bytes_of (itoa b) ≠ [] ∧
  ∀ fields rest, ∃ k,
    parseIPv4Fields true 0 0 fields (bytes_of (itoa b) ++ rest) =
    parseIPv4Fields false b k fields rest.

Lemma itoa_octet b : 0 ≤ b < 256 → octet_ok b.
Proof.
  revert b. apply octet_cases.
  let l := eval vm_compute in (seqZ 0 256) in change (seqZ 0 256) with l.
  repeat (apply Forall_cons; split; [split_and!;
    [vm_compute; repeat constructor; discriminate | vm_compute; discriminate
    | intros fields rest; eexists; reflexivity]|]).
  by apply Forall_nil.
Qed.

(** *** Dotted quads *)

Lemma addr_kind_digits l r :
  Forall (λ c, 48 ≤ c ≤ 57) l → addr_kind (l ++ 46 :: r) = Some 46.
Proof.
  induction 1 as [|c l Hc _ IH]; [done|]. cbn [app addr_kind].
  rewrite bool_decide_eq_false_2; [done|].
  rewrite !elem_of_cons, elem_of_nil. lia.
Qed.

(** An octet and the dot behind it. *)
Lemma parse_octet_dot b fields r :
  0 ≤ b < 256 → r ≠ [] → (length fields < 3)%nat →
  parseIPv4Fields true 0 0 fields (bytes_of (itoa b) ++ 46 :: r) =
  parseIPv4Fields true 0 0 (fields ++ [b]) r.
Proof.
  intros Hb Hr Hl. destruct (itoa_octet b Hb) as (_ & _ & Hp).
  destruct (Hp fields (46 :: r)) as [k ->]. cbn [parseIPv4Fields dec_val].
  rewrite (bool_decide_eq_false_2 _ Hr). cbn.
  destruct (Nat.eqb_spec (length fields) 3); [lia|done].
Qed.

Lemma octet_app_nonempty b r : 0 ≤ b < 256 → bytes_of (itoa b) ++ r ≠ [].
Proof. intros Hb. destruct (itoa_octet b Hb) as (_ & Hn & _). by destruct (bytes_of (itoa b)). Qed.

(** The round trip of an IPv4 address through its text. *)
Lemma ParseIP_dotted ip :
  octets ip → length ip = 4%nat → ParseIP (dotted ip) = Some (mapped ip).
Proof.
  intros Ho Hl. destruct ip as [|a [|b [|c [|d [|]]]]]; try discriminate Hl.
  inversion Ho as [|?? Ha Hx]; inversion Hx as [|?? Hb Hy]; inversion Hy as [|?? Hc Hz];
    inversion Hz as [|?? Hd _]; subst.
  unfold ParseIP, ParseAddr. cbn [dotted]. rewrite !bytes_of_app.
  change (bytes_of ".") with [46]. cbn [app].
  rewrite addr_kind_digits by (by destruct (itoa_octet a Ha)).
  unfold parseIPv4. rewrite <- (app_nil_r (bytes_of (itoa d))).
  rewrite !parse_octet_dot by (done || (by apply octet_app_nonempty) || (cbn; lia)).
  destruct (itoa_octet d Hd) as (_ & _ & Hp). destruct (Hp [a; b; c] []) as [k E].
  cbn [app]. by rewrite E.
Qed.

(** *** What the dialer's control hook is given *)

Lemma digits_digits fuel n acc :
  0 ≤ n → Forall (λ c, 48 ≤ c ≤ 57) (bytes_of acc) →
  Forall (λ c, 48 ≤ c ≤ 57) (bytes_of (digits fuel n acc)).
Proof.
  revert n acc. induction fuel as [|fuel IH]; intros n acc Hn Ha; [done|]. cbn [digits].
  pose proof (Z.mod_pos_bound n 10 ltac:(lia)) as Hm.
  assert (Forall (λ c, 48 ≤ c ≤ 57)
    (bytes_of (String (ascii_of_nat (Z.to_nat (48 + n mod 10))) acc))) as Hb.
  { unfold bytes_of. simpl String.list_ascii_of_string. rewrite fmap_cons. constructor; [|done].
    rewrite nat_ascii_embedding by lia. lia. }
  destruct (n / 10 =? 0); [done|]. apply IH; [|done]. apply Z.div_pos; lia.
Qed.

Lemma itoa_digits n : 0 ≤ n → Forall (λ c, 48 ≤ c ≤ 57) (bytes_of (itoa n)).
Proof. intros Hn. by apply digits_digits. Qed.

Lemma has_byte_bytes c s :
  Forall (λ b, b ≠ Z.of_nat (nat_of_ascii c)) (bytes_of s) → has_byte c s = false.
Proof.
  induction s as [|a s IH]; [done|]. unfold bytes_of. simpl String.list_ascii_of_string.
  rewrite fmap_cons. intros [Ha Hs]%Forall_cons. rewrite has_byte_cons, (IH Hs), orb_false_r.
  apply Ascii.eqb_neq. by intros ->.
Qed.

Lemma itoa_plain n : 0 ≤ n → plain (itoa n).
Proof.
  intros Hn. pose proof (itoa_digits n Hn) as Hd.
  split_and!; apply has_byte_bytes; apply (Forall_impl _ _ _ Hd);
    intros x Hx ->; vm_compute in Hx; by destruct Hx as [_ []].
Qed.

(** Whatever the host, what is split off a joined address is that host, unless it
    starts like a bracketed one. *)
Lemma SplitHostPort_bracket h p h' q :
  plain p → SplitHostPort (String.append (String "["%char (String.append h "]")) (String ":"%char p))
            = Some (h', q) → h' = h.
Proof.
  intros (Pc & Po & Px). unfold SplitHostPort. rewrite last_index_app by done.
  simpl. change (String.append ?x "]") with (String.append x (String "]"%char "")).
  assert (String.append (String.append h (String "]"%char "")) (String ":"%char p) =
          String.append h (String "]"%char (String ":"%char p))) as ->.
  { clear. induction h as [|c h IH]; [done|]. apply (f_equal (String c)), IH. }
  rewrite length_append. cbn [String.length].
  assert (String.prefix "" (String.append h (String "]"%char (String ":"%char p))) = true) as ->
    by (by destruct (String.append h _)).
  destruct (has_byte "]" h) eqn:Hx.
  - destruct (index_byte "]" _) as [i|] eqn:Hi; [|done]. apply index_byte_early in Hi; [|done].
    cbn [fmap option_fmap option_map]. destruct (Nat.eqb_spec (S i) (String.length h + 1)); [lia|done].
  - rewrite index_byte_app by done. cbn [fmap option_fmap option_map].
    rewrite Nat.add_1_r, Nat.eqb_refl. cbn [Nat.sub]. rewrite Nat.sub_0_r, substring_prefix.
    by case_match; intros [= <- _].
Qed.

Lemma SplitHostPort_JoinHostPort h p h' q :
  plain p → String.prefix "[" h = false → SplitHostPort (JoinHostPort h p) = Some (h', q) → h' = h.
Proof.
  intros Hpl Hp. unfold JoinHostPort. destruct (has_byte ":" h) eqn:Hc.
  - intros Hs. apply (SplitHostPort_bracket h p h' q Hpl). rewrite <- Hs. f_equal.
    clear. apply (f_equal (String "["%char)).
    induction h as [|c h IH]; [done|]. apply (f_equal (String c)), IH.
  - destruct Hpl as (Pc & _ & _). change (String.append ":" p) with (String ":"%char p).
    unfold SplitHostPort. rewrite last_index_app, slice_to_app, Hc by done.
    assert (String.prefix "[" (String.append h (String ":"%char p)) = false) as ->.
    { destruct h as [|c h]; [done|]. revert Hp.
      change (String.append (String c h) ?x) with (String c (String.append h x)).
      generalize ("["%char). intros d. cbn [String.prefix].
      destruct (ascii_dec d c); [by destruct h|done]. }
    by case_match; intros [= <- _].
Qed.

(** *** Parsed addresses are bytes *)

Lemma dec_val_range c d : dec_val c = Some d → 0 ≤ d < 10.
Proof. unfold dec_val. case_match eqn:E; [|done]. intros [= <-]. lia. Qed.

Lemma hex_val_range c d : hex_val c = Some d → 0 ≤ d < 16.
Proof. unfold hex_val. repeat case_match; intros [= <-]; lia. Qed.

Lemma parseIPv4Fields_octets edge val digLen fields s ip :
  0 ≤ val < 256 → octets fields → parseIPv4Fields edge val digLen fields s = Some ip → octets ip.
Proof.
  revert edge val digLen fields.
  induction s as [|c s IH]; intros edge val digLen fields Hv Hf; cbn [parseIPv4Fields].
  { case_match; [done|]. intros [= <-]. apply Forall_app; split; [done|]. by constructor. }
  destruct (dec_val c) as [d|] eqn:Hd.
  - apply dec_val_range in Hd. case_match; [done|]. case_match eqn:Hle; [done|].
    apply IH; [lia|done].
  - case_match; [done|]. case_match; [done|]. apply IH; [lia|].
    apply Forall_app; split; [done|]. by constructor.
Qed.

Lemma hex_group_range acc off s r n rest :
  0 ≤ acc < 16 ^ Z.of_nat off → (off ≤ 4)%nat →
  hex_group acc off s = Some (r, n, rest) → 0 ≤ r < 65536.
Proof.
  revert acc off. induction s as [|c s IH]; intros acc off Ha Ho; cbn [hex_group].
  - intros [= <- _ _]. pose proof (Z.pow_le_mono_r 16 (Z.of_nat off) 4). lia.
  - destruct (hex_val c) as [d|] eqn:Hd.
    + apply hex_val_range in Hd. destruct (Nat.ltb_spec 3 off); [done|].
      apply IH; [|lia]. rewrite Nat2Z.inj_succ, Z.pow_succ_r; lia.
    + intros [= <- _ _]. pose proof (Z.pow_le_mono_r 16 (Z.of_nat off) 4). lia.
Qed.

Lemma word_octets w : 0 ≤ w < 65536 → octets [Z.shiftr w 8; Z.land w 255].
Proof.
  intros Hw. repeat constructor.
  - apply Z.shiftr_nonneg. lia.
  - rewrite Z.shiftr_div_pow2 by lia. apply Z.div_lt_upper_bound; lia.
  - apply Z.land_nonneg. lia.
  - change 255 with (Z.ones 8). rewrite Z.land_ones by lia. pose proof (Z.mod_pos_bound w (2 ^ 8)). lia.
Qed.

Lemma ipv6_loop_octets fuel ip e s ip' e' s' :
  octets ip → ipv6_loop fuel ip e s = Some (ip', e', s') → octets ip'.
Proof.
  revert ip e s. induction fuel as [|fuel IH]; intros ip e s Hip; cbn [ipv6_loop].
  { by intros [= <- _ _]. }
  destruct (hex_group 0 0 s) as [[[acc [|n]] rest]|] eqn:Hg; [done| |done].
  apply hex_group_range in Hg; [|cbn; lia|lia].
  assert (octets (ip ++ [Z.shiftr acc 8; Z.land acc 255])) as Hip2.
  { apply Forall_app; split; [done|]. by apply word_octets. }
  repeat (case_match; simplify_eq/=; try done); try (by intros [= <- _ _]); try (by apply IH).
  intros [= <- _ _]. apply Forall_app; split; [done|].
  eapply parseIPv4Fields_octets; [| |eassumption]; [lia|by constructor].
Qed.

Lemma ipv6_finish_octets e t ip : ipv6_finish (ipv6_loop 8 [] e t) = Some ip → octets ip.
Proof.
  destruct (ipv6_loop 8 [] e t) as [[[ip' e'] s']|] eqn:Hl; [|done].
  apply ipv6_loop_octets in Hl; [|by constructor].
  unfold ipv6_finish. repeat case_match; intros [= <-]; [|done].
  unfold octets. rewrite !Forall_app. split_and!; [by apply Forall_take| |by apply Forall_drop].
  apply Forall_replicate. lia.
Qed.

Lemma parseIPv6_octets s ip : parseIPv6 s = Some ip → octets ip.
Proof.
  assert (∃ e t, parseIPv6 s = Some (replicate 16 0) ∨
                 parseIPv6 s = ipv6_finish (ipv6_loop 8 [] e t)) as (e & t & [-> | ->]).
  { unfold parseIPv6. generalize (ipv6_loop 8 []). intros f.
    repeat case_match; first [by do 2 eexists; right | by exists None, []; left]. }
  - intros [= <-]. apply (Forall_replicate _ 16). lia.
  - apply ipv6_finish_octets.
Qed.

Lemma ParseAddr_octets s ip zone : ParseAddr s = Some (ip, zone) → octets ip.
Proof.
  unfold ParseAddr. repeat case_match; try done; intros (ip' & E & [= -> ->])%fmap_Some;
    first [by eapply parseIPv6_octets | eapply parseIPv4Fields_octets; [| |exact E]];
    first [lia | by constructor].
Qed.

Lemma To16_octets ip : octets ip → octets (To16 ip).
Proof.
  intros Ho. unfold To16, mapped. case_match; [|done].
  unfold octets. rewrite !Forall_app. split_and!; [by apply (Forall_replicate _ 10)| |done].
  repeat constructor; lia.
Qed.

(** *** What ParseIP makes of a joined host *)

Lemma dotted_plain ip : octets ip → plain (dotted ip).
Proof.
  intros Ho. assert (Forall (λ c, 46 ≤ c ≤ 57) (bytes_of (dotted ip))) as Hd.
  { induction Ho as [|b ip Hb _ IH]; [by apply Forall_nil|].
    assert (Forall (λ c, 46 ≤ c ≤ 57) (bytes_of (itoa b))) as Hi.
    { apply (Forall_impl _ _ _ (itoa_digits b ltac:(lia))). lia. }
    destruct ip as [|c ip]; [done|]. cbn [dotted] in *. rewrite !bytes_of_app, !Forall_app.
    split_and!; [done| |done]. vm_compute. repeat constructor; discriminate. }
  split_and!; apply has_byte_bytes; apply (Forall_impl _ _ _ Hd);
    intros x Hx ->; vm_compute in Hx; by destruct Hx as [? []].
Qed.

(** A quad with a zone behind it is no address. *)
Lemma ParseIP_dotted_zone ip z :
  octets ip → length ip = 4%nat → ParseIP (String.append (dotted ip) (String.append "%" z)) = None.
Proof.
  intros Ho Hl. destruct ip as [|a [|b [|c [|d [|]]]]]; try discriminate Hl.
  inversion Ho as [|?? Ha Hx]; inversion Hx as [|?? Hb Hy]; inversion Hy as [|?? Hc Hz];
    inversion Hz as [|?? Hd _]; subst.
  unfold ParseIP, ParseAddr. cbn [dotted]. rewrite !bytes_of_app.
  change (bytes_of ".") with [46]. change (bytes_of "%") with [37].
  rewrite <- !app_assoc. cbn [app].
  rewrite addr_kind_digits by (by destruct (itoa_octet a Ha)).
  unfold parseIPv4. rewrite !parse_octet_dot by (done || (by apply octet_app_nonempty) || (cbn; lia)).
  destruct (itoa_octet d Hd) as (_ & _ & Hp). destruct (Hp [a; b; c] (37 :: bytes_of z)) as [k E].
  cbn [app]. by rewrite E.
Qed.

Lemma prefix_dotted ip s : octets ip → String.prefix "[" (String.append (dotted ip) (String.append "%" s)) = false.
Proof. intros Ho. apply prefix_byte_app; [|done]. apply dotted_plain in Ho. by destruct Ho as (_ & ? & _). Qed.

(** The text the hook is given for an IPv4 address is refused, or read back as that
    address. *)
Lemma hook_reads_back a port ip4 host q :
  octets (AddrIP a) → 0 ≤ port → To4 (AddrIP a) = Some ip4 →
  SplitHostPort (TCPAddr_String a port) = Some (host, q) →
  ParseIP host = None ∨ ParseIP host = Some (mapped ip4).
Proof.
  intros Ho Hp Ht. pose proof (To4_length _ _ Ht) as Hl. pose proof (To4_octets _ _ Ho Ht) as Ho4.
  unfold TCPAddr_String. assert (ipEmptyString (AddrIP a) = dotted ip4) as ->.
  { unfold ipEmptyString. rewrite Ht. destruct (AddrIP a); [done|done]. }
  case_match.
  - intros ->%SplitHostPort_JoinHostPort; [|by apply itoa_plain|].
    + right. by apply ParseIP_dotted.
    + apply dotted_plain in Ho4 as (_ & Hb & _). by apply prefix_byte.
  - intros ->%SplitHostPort_JoinHostPort; [|by apply itoa_plain|by apply prefix_dotted].
    left. by apply ParseIP_dotted_zone.
Qed.
