(* ===== verification/Checks.v ===== *)
(** * Health checks of polled targets (internal/checks)

    What a target may look like ([ValidateTargetFormat]), what it may resolve to
    ([ValidateTargetSafety], [isBlockedIP]) and a check's own connections
    ([RunCheck], through the dialer whose control hook looks at every address
    before connect).  net.Dialer is followed through its resolution, its split
    into primaries and fallbacks and the race between the two; what the network
    answers is the parameter [Wire]. *)

From stdpp Require Import numbers strings list.
From Stdlib Require Import Ascii ZArith Lia.
From S2P Require Import Prelude GoStrings GoNet.

#[local] Open Scope Z_scope.
#[local] Open Scope go_scope.

Definition PollTypeHTTP : string := "http".
Definition PollTypeTCP : string := "tcp".
Definition PollTypePing : string := "ping".
Definition defaultPingPort : string := "80".

Inductive check_err :=
| ErrUnrecognizedPollType
| ErrInvalidTarget
| errBlockedTarget
| ErrNoSuchHost
| ErrDialAddress                (* no host:port, or no port number *)
| ErrNotLiteral                 (* the hook's address is not a literal IP *)
| ErrMissingAddress
| ErrConnect
| ErrTimeout
| ErrRequest                    (* no request could be made of the URL *)
| ErrStatus (code : Z).

#[global] Instance check_err_eq_dec : EqDecision check_err.
Proof. solve_decision. Defined.

(** ** URLs (net/url) *)

Record URL := {
  Scheme : string;
  Host : string;
}.

Definition is_digit (a : ascii) : bool :=
  (48 <=? Z.of_nat (nat_of_ascii a)) && (Z.of_nat (nat_of_ascii a) <=? 57).
Fixpoint all_digits (s : string) : bool :=
  match s with EmptyString => true | String a s => is_digit a && all_digits s end.
Definition validOptionalPort (port : string) : bool :=
  match port with
  | EmptyString => true
  | String a port => Ascii.eqb a ":" && all_digits port
  end.
Definition drop_ends (s : string) : string := String.substring 1 (String.length s - 2) s.
(** url.splitHostPort: the host without its brackets, and the port. *)
Definition splitHostPort (hostPort : string) : string * string :=
  let '(host, port) :=
    match last_index_byte ":" hostPort with
    | Some colon =>
        if validOptionalPort (slice_from colon hostPort)
        then (slice_to colon hostPort, slice_from (S colon) hostPort)
        else (hostPort, ""%string)
    | None => (hostPort, ""%string)
    end in
  (if String.prefix "[" host && suffix "]" host then drop_ends host else host, port).
Definition Hostname (u : URL) : string := (splitHostPort (Host u)).1.
Definition Port (u : URL) : string := (splitHostPort (Host u)).2.

(** ** Blocked ranges (dial.go) *)

Fixpoint mustParseCIDRs (cidrs : list string) : option (list IPNet) :=
  match cidrs with
  | [] => Some []
  | c :: cidrs =>
      match ParseCIDR c, mustParseCIDRs cidrs with
      | Some n, Some nets => Some (n :: nets)
      | _, _ => None
      end
  end.

(** A literal that does not parse panics when the program starts. *)
Definition blockedRanges : option (list IPNet) :=
  mustParseCIDRs ["127.0.0.0/8"; "10.0.0.0/8"; "172.16.0.0/12"; "192.168.0.0/16";
                  "169.254.0.0/16"].

Definition isBlockedIP (ip : IP) : bool :=
  existsb (λ n, Contains n ip) (default [] blockedRanges).

(** ** The network *)

Class Wire := {
  url_parse : string → option URL;                      (* url.Parse *)
  lookup_port : string → option Z;                      (* a port's number, or a service's *)
  lookup_ip : nat → string → option (list IPAddr);      (* a name, at the n-th question *)
  idna_ascii : string → option string;
  connects : nat → IPAddr → Z → bool;                   (* connect(2) *)
  fallback_turn : nat → bool;                           (* who moves next in a race *)
  expired : nat → bool;                                 (* the check's deadline *)
  idle_conn : nat → string → bool;                      (* a kept connection is there *)
  http_answer : nat → string → option Z;                (* the response's status *)
}.

(** How often the network was asked, and the connects that were made: address,
    port, and whether it was established. *)
Record wire := {
  w_tick : nat;
  w_log : list (IPAddr * Z * bool);
}.

Definition check (A : Type) : Type := M wire check_err A.

Definition ask_wire {A} (f : nat → A) : check A :=
  λ s, (Ok (f (w_tick s)), {| w_tick := S (w_tick s); w_log := w_log s |}).
Definition log_connect (a : IPAddr) (port : Z) (ok : bool) : check unit :=
  λ s, (Ok tt, {| w_tick := w_tick s; w_log := w_log s ++ [(a, port, ok)] |}).

Section checks.
Context `{!Wire}.

(** ** net.Dialer *)

Definition IPv6unspecified : IP := replicate 16 0.
Definition IPv4zero : IP := mapped [0; 0; 0; 0].

Definition of_bytes (l : list Z) : string :=
  String.string_of_list_ascii ((λ b, ascii_of_nat (Z.to_nat b)) <$> l).

(** [Resolver.lookupIPAddr]: a literal is its own answer. *)
Definition LookupIPAddr (host : string) : check (list IPAddr) :=
  if String.eqb host "" then fail ErrNoSuchHost
  else match ParseAddr (bytes_of host) with
       | Some (ip, zone) => ret [{| AddrIP := To16 ip; Zone := of_bytes zone |}]
       | None =>
           r <- ask_wire (λ n, lookup_ip n host) ;;
           match r with Some l => ret l | None => fail ErrNoSuchHost end
       end.

Definition LookupPort (service : string) : option Z :=
  match lookup_port service with
  | Some port => if (port <? 0) || (65535 <? port) then None else Some port
  | None => None
  end.

(** [Resolver.internetAddrList]: the addresses to try, and the port. *)
Definition internetAddrList (address : string) : check (list IPAddr * Z) :=
  match SplitHostPort address with
  | None => fail ErrDialAddress
  | Some (host, service) =>
      match LookupPort service with
      | None => fail ErrDialAddress
      | Some port =>
          if String.eqb host "" then ret ([{| AddrIP := []; Zone := ""%string |}], port)
          else
            ips <- LookupIPAddr host ;;
            match ips with
            | [a] =>
                if bool_decide (AddrIP a = IPv6unspecified)
                then ret ([a; {| AddrIP := IPv4zero; Zone := ""%string |}], port)
                else ret ([a], port)
            | _ => ret (ips, port)
            end
      end
  end.

(** [safeDialer]'s Control. *)
Definition Control (address : string) : res check_err unit :=
  match SplitHostPort address with
  | None => Err ErrDialAddress
  | Some (host, _) =>
      match ParseIP host with
      | None => Err ErrNotLiteral
      | Some ip => if isBlockedIP ip then Err errBlockedTarget else Ok tt
      end
  end.

(** [dialSingle]: the hook is asked before connect is called. *)
Definition dialSingle (a : IPAddr) (port : Z) : check unit :=
  match Control (TCPAddr_String a port) with
  | Err e => fail e
  | Ok _ =>
      ok <- ask_wire (λ n, connects n a port) ;;
      log_connect a port ok ;;;
      if ok : bool then ret tt else fail ErrConnect
  end.

(** [addrList.partition(isIPv4)]: the addresses of the first one's family, and the
    others. *)
Definition isIPv4 (a : IPAddr) : bool :=
  match To4 (AddrIP a) with Some _ => true | None => false end.
Definition partition (l : list IPAddr) : list IPAddr * list IPAddr :=
  match l with
  | [] => ([], [])
  | a :: _ => (filter (λ b, isIPv4 b = isIPv4 a) l, filter (λ b, isIPv4 b ≠ isIPv4 a) l)
  end.

(** [dialParallel]: both lists are walked in order, one step at a time, until a
    connection stands; when neither has one the primaries' first error is
    returned.  Without fallbacks this is [dialSerial]. *)
Fixpoint race (fuel : nat) (ps fs : list IPAddr) (port : Z) (pe : option check_err) :
    check unit :=
  match fuel with
  | O => fail (default ErrMissingAddress pe)
  | S fuel =>
      late <- ask_wire expired ;;
      if late : bool then fail ErrTimeout
      else
        fb <- ask_wire fallback_turn ;;
        match ps, fs, fb with
        | a :: ps, [], _ | a :: ps, _, false =>
            r <- attempt (dialSingle a port) ;;
            match r with Ok _ => ret tt | Err e => race fuel ps fs port (Some (default e pe)) end
        | _, a :: fs, _ =>
            r <- attempt (dialSingle a port) ;;
            match r with Ok _ => ret tt | Err _ => race fuel ps fs port pe end
        | [], [], _ => fail (default ErrMissingAddress pe)
        end
  end.

Definition dialContext (address : string) : check unit :=
  r <- internetAddrList address ;;
  let '(ps, fs) := partition r.1 in
  race (S (length r.1)) ps fs r.2 None.

(** ** Formats (format.go) *)

Definition validateHTTPFormat (target : string) : res check_err unit :=
  match url_parse target with
  | None => Err ErrInvalidTarget
  | Some u =>
      if String.eqb (Scheme u) "" || String.eqb (Host u) "" then Err ErrInvalidTarget
      else if negb (String.eqb (Scheme u) "http") && negb (String.eqb (Scheme u) "https")
      then Err ErrInvalidTarget
      else Ok tt
  end.

Definition validateTCPFormat (target : string) : res check_err unit :=
  match SplitHostPort target with
  | None => Err ErrInvalidTarget
  | Some (host, port) =>
      if String.eqb host "" || String.eqb port "" then Err ErrInvalidTarget else Ok tt
  end.

Definition validatePingFormat (target : string) : res check_err unit :=
  if String.eqb target "" then Err ErrInvalidTarget
  else match SplitHostPort target with
       | Some (host, port) =>
           if String.eqb host "" || String.eqb port "" then Err ErrInvalidTarget else Ok tt
       | None => Ok tt
       end.

Definition ValidateTargetFormat (pollType target : string) : res check_err unit :=
  if String.eqb pollType PollTypeHTTP then validateHTTPFormat target
  else if String.eqb pollType PollTypeTCP then validateTCPFormat target
  else if String.eqb pollType PollTypePing then validatePingFormat target
  else Err ErrUnrecognizedPollType.

(** ** Safety (safety.go) *)

Definition targetHost (pollType target : string) : res check_err string :=
  if String.eqb pollType PollTypeHTTP then
    match url_parse target with
    | None => Err ErrInvalidTarget
    | Some u => Ok (Hostname u)
    end
  else if String.eqb pollType PollTypeTCP then
    match SplitHostPort target with
    | None => Err ErrInvalidTarget
    | Some (host, _) => Ok host
    end
  else if String.eqb pollType PollTypePing then
    match SplitHostPort target with
    | Some (host, _) => Ok host
    | None => Ok target
    end
  else Err ErrUnrecognizedPollType.

Definition ValidateTargetSafety (pollType target : string) : check unit :=
  match targetHost pollType target with
  | Err e => fail e
  | Ok host =>
      addrs <- attempt (LookupIPAddr host) ;;
      match addrs with
      | Err _ => ret tt
      | Ok addrs =>
          if existsb (λ a, isBlockedIP (AddrIP a)) addrs then fail errBlockedTarget else ret tt
      end
  end.

Definition targetHostPort (pollType target : string) : res check_err string :=
  if String.eqb pollType PollTypeTCP then Ok target
  else if String.eqb pollType PollTypePing then
    match SplitHostPort target with
    | Some _ => Ok target
    | None => Ok (JoinHostPort target defaultPingPort)
    end
  else Err ErrUnrecognizedPollType.

(** ** Checks (check.go) *)

(** http.Transport's dial address of a URL. *)
Definition canonicalAddr (u : URL) : string :=
  let port := if String.eqb (Port u) "" then
                if String.eqb (Scheme u) "http" then "80"%string
                else if String.eqb (Scheme u) "https" then "443"%string else ""%string
              else Port u in
  JoinHostPort (default (Hostname u) (idna_ascii (Hostname u))) port.

(** [httpClient.Do]: no proxy, no redirect is followed; a kept connection was
    itself dialled by an earlier check. *)
Definition runHTTPCheck (target : string) : check unit :=
  match url_parse target with
  | None => fail ErrRequest
  | Some u =>
      if negb (String.eqb (Scheme u) "http") && negb (String.eqb (Scheme u) "https")
      then fail ErrRequest
      else if String.eqb (Host u) "" then fail ErrRequest
      else
        kept <- ask_wire (λ n, idle_conn n (canonicalAddr u)) ;;
        (if kept : bool then ret tt else dialContext (canonicalAddr u)) ;;;
        status <- ask_wire (λ n, http_answer n target) ;;
        match status with
        | None => fail ErrConnect
        | Some code => if (code <? 200) || (400 <=? code) then fail (ErrStatus code) else ret tt
        end
  end.

Definition runDialCheck (pollType target : string) : check unit :=
  match targetHostPort pollType target with
  | Err e => fail e
  | Ok hostPort => dialContext hostPort
  end.

Definition RunCheck (pollType target : string) : check unit :=
  if String.eqb pollType PollTypeHTTP then runHTTPCheck target
  else if String.eqb pollType PollTypeTCP || String.eqb pollType PollTypePing
  then runDialCheck pollType target
  else fail ErrUnrecognizedPollType.
End checks.

(** ** Lemmas *)

(** The five blocks by their addresses' bytes. *)
Definition in_block (ip4 : list Z) : bool :=
  match ip4 with
  | [a; b; _; _] =>
      (a =? 127) || (a =? 10) || ((a =? 172) && (16 <=? b) && (b <=? 31)) ||
      ((a =? 192) && (b =? 168)) || ((a =? 169) && (b =? 254))
  | _ => false
  end.
Definition private (ip : IP) : bool :=
  match To4 ip with Some ip4 => in_block ip4 | None => false end.

Lemma land_octet (f : Z → bool) : forallb f (seqZ 0 256) = true → ∀ b, 0 ≤ b < 256 → f b = true.
Proof. rewrite forallb_forall. intros Hf b Hb. apply Hf, list_elem_of_In, elem_of_seqZ. lia. Qed.

Lemma land_255 a : 0 ≤ a < 256 → Z.land a 255 = a.
Proof. intros Ha. change 255 with (Z.ones 8). rewrite Z.land_ones by lia. by apply Z.mod_small. Qed.

Lemma land_240 b : 0 ≤ b < 256 → (16 =? Z.land b 240) = (16 <=? b) && (b <=? 31).
Proof.
  intros Hb. apply Bool.eqb_prop.
  revert b Hb. apply land_octet. vm_compute. reflexivity.
Qed.

Lemma bytes_eq4 (a b c d a' b' c' d' : Z) :
  bool_decide ([a; b; c; d] = [a'; b'; c'; d']) =
  (a =? a') && (b =? b') && (c =? c') && (d =? d').
Proof. apply eq_iff_eq_true. rewrite bool_decide_eq_true, !andb_true_iff, !Z.eqb_eq. split; [by intros [= -> -> -> ->]|].
  by intros [[[-> ->] ->] ->]. Qed.

Lemma blockedRanges_are : blockedRanges = Some
  [{| NetIP := [127; 0; 0; 0]; NetMask := [255; 0; 0; 0] |};
   {| NetIP := [10; 0; 0; 0]; NetMask := [255; 0; 0; 0] |};
   {| NetIP := [172; 16; 0; 0]; NetMask := [255; 240; 0; 0] |};
   {| NetIP := [192; 168; 0; 0]; NetMask := [255; 255; 0; 0] |};
   {| NetIP := [169; 254; 0; 0]; NetMask := [255; 255; 0; 0] |}].
Proof. vm_compute. reflexivity. Qed.

Lemma Contains_none nn m ip :
  length nn = 4%nat → length m = 4%nat → To4 ip = None →
  Contains {| NetIP := nn; NetMask := m |} ip = false.
Proof.
  intros Hn Hm Ht. unfold Contains, networkNumberAndMask. cbn [NetIP NetMask].
  assert (To4 nn = Some nn) as -> by (unfold To4; by rewrite Hn).
  cbn [default from_option id]. rewrite Hn, Hm, Ht. cbn [default from_option].
  destruct (Nat.eqb_spec (length ip) (length nn)) as [He|]; [|done].
  unfold To4 in Ht. by rewrite He, Hn in Ht.
Qed.

Lemma Contains_some n0 n1 n2 n3 m0 m1 m2 m3 ip a b c d :
  To4 ip = Some [a; b; c; d] →
  Contains {| NetIP := [n0; n1; n2; n3]; NetMask := [m0; m1; m2; m3] |} ip =
  (Z.land n0 m0 =? Z.land a m0) && (Z.land n1 m1 =? Z.land b m1) &&
  (Z.land n2 m2 =? Z.land c m2) && (Z.land n3 m3 =? Z.land d m3).
Proof.
  intros Ht. unfold Contains. rewrite Ht. cbn -[Z.land Z.eqb]. apply bytes_eq4.
Qed.

(** [isBlockedIP] is membership in the five blocks, for every spelling of an
    IPv4 address; an IPv6 address is never blocked. *)
Lemma isBlockedIP_private ip : octets ip → isBlockedIP ip = private ip.
Proof.
  intros Ho. unfold isBlockedIP, private. rewrite blockedRanges_are. cbn [default from_option id existsb].
  destruct (To4 ip) as [ip4|] eqn:Ht; [|by rewrite !Contains_none].
  pose proof (To4_length _ _ Ht) as Hl. pose proof (To4_octets _ _ Ho Ht) as Ho4.
  destruct ip4 as [|a [|b [|c [|d [|]]]]]; try discriminate Hl.
  inversion Ho4 as [|?? Ha Hx]; inversion Hx as [|?? Hb _]; subst.
  rewrite !(Contains_some _ _ _ _ _ _ _ _ _ a b c d Ht), !Z.land_0_r, !land_255, land_240 by lia.
  cbn [in_block]. rewrite !andb_true_r, orb_false_r.
  apply eq_iff_eq_true. rewrite !orb_true_iff, !andb_true_iff. lia.
Qed.

Lemma any_blocked (l : list IPAddr) :
  Forall (λ a, octets (AddrIP a)) l →
  existsb (λ a, isBlockedIP (AddrIP a)) l = existsb (λ a, private (AddrIP a)) l.
Proof. induction 1 as [|a l Ha _ IH]; [done|]. cbn [existsb]. by rewrite isBlockedIP_private, IH. Qed.

(** *** What a check connects to *)

Section traces.
Context `{!Wire}.

(** The resolver's addresses are bytes, as Go's are. *)
Class WireOctets : Prop :=
  lookup_octets n host l a : lookup_ip n host = Some l → a ∈ l → octets (AddrIP a).

(** A connect that was made went to an address outside the blocks. *)
Definition public (e : IPAddr * Z * bool) : Prop := private (AddrIP e.1.1) = false.

(** The connects of a run that ended with [r]: all public, none established but
    the last, and that one exactly when the run succeeded. *)
Definition run_spec {A} (r : res check_err A) (l : list (IPAddr * Z * bool)) : Prop :=
  Forall public l ∧
  match r with
  | Ok _ => ∃ l' e, l = l' ++ [e] ∧ e.2 = true ∧ Forall (λ e, e.2 = false) l'
  | Err _ => Forall (λ e, e.2 = false) l
  end.

(** [m] adds connects [l] to the log, and [P] holds of its result and of them. *)
Definition logs {A} (m : check A) (P : res check_err A → list (IPAddr * Z * bool) → Prop) : Prop :=
  ∀ s, ∃ l, w_log (m s).2 = w_log s ++ l ∧ P (m s).1 l.

Lemma logs_ret {A} (a : A) P : P (Ok a) [] → logs (ret a) P.
Proof. intros HP s. exists []. by rewrite app_nil_r. Qed.
Lemma logs_fail {A} e P : P (Err e) [] → logs (A := A) (fail e) P.
Proof. intros HP s. exists []. by rewrite app_nil_r. Qed.

(** A step that logs nothing and whose result satisfies [Q]. *)
Definition silent {A} (m : check A) (Q : res check_err A → Prop) : Prop :=
  ∀ s, w_log (m s).2 = w_log s ∧ Q (m s).1.

Lemma silent_ask {A} (f : nat → A) (Q : res check_err A → Prop) :
  (∀ n, Q (Ok (f n))) → silent (ask_wire f) Q.
Proof. intros HQ s. split; [done|apply HQ]. Qed.

Lemma logs_after {A B} (m : check A) (k : A → check B) Q P :
  silent m Q → (∀ e, Q (Err e) → P (Err e) []) → (∀ a, Q (Ok a) → logs (k a) P) →
  logs (bind m k) P.
Proof.
  intros Hm He Hk s. destruct (Hm s) as [Hl HQ]. unfold bind.
  destruct (m s) as [[a|e] s1]; cbn in *.
  - destruct (Hk a HQ s1) as (l & Hl' & HP). exists l. by rewrite Hl', Hl.
  - exists []. rewrite app_nil_r. eauto.
Qed.

Lemma logs_ask {A B} (f : nat → A) (k : A → check B) P :
  (∀ n, logs (k (f n)) P) → logs (bind (ask_wire f) k) P.
Proof.
  intros Hk. apply (logs_after _ _ (λ r, ∃ n, r = Ok (f n))).
  - apply silent_ask. eauto.
  - by intros e [n Hn].
  - by intros a [n [= ->]].
Qed.

(** The hook lets no private address pass. *)
Lemma Control_public a port :
  octets (AddrIP a) → 0 ≤ port → Control (TCPAddr_String a port) = Ok tt →
  private (AddrIP a) = false.
Proof.
  intros Ho Hp. unfold Control, private.
  destruct (To4 (AddrIP a)) as [ip4|] eqn:Ht; [|done].
  destruct (SplitHostPort _) as [[host q]|] eqn:Hs; [|done].
  pose proof (To4_length _ _ Ht). pose proof (To4_octets _ _ Ho Ht) as Ho4.
  destruct (hook_reads_back a port ip4 host q Ho Hp Ht Hs) as [-> | ->]; [done|].
  rewrite isBlockedIP_private; [|unfold octets, mapped; rewrite !Forall_app; split_and!;
    [by apply (Forall_replicate _ 10)|by repeat constructor|done]].
  unfold private. rewrite To4_mapped by done. by destruct (in_block ip4).
Qed.

Lemma dialSingle_logs a port :
  octets (AddrIP a) → 0 ≤ port → logs (dialSingle a port) run_spec.
Proof.
  intros Ho Hp. unfold dialSingle. destruct (Control _) as [[]|e] eqn:Hc.
  2:{ apply logs_fail. split; constructor. }
  apply Control_public in Hc; [|done..].
  apply logs_ask. intros n s. exists [(a, port, connects n a port)].
  destruct (connects n a port); (split; [done|]); (split; [by repeat constructor|]).
  - by exists [], (a, port, true).
  - by repeat constructor.
Qed.

(** An attempt that failed leaves the rest of the walk to succeed or fail. *)
Lemma logs_attempt (m : check unit) (h : check_err → check unit) :
  logs m run_spec → (∀ e, logs (h e) run_spec) →
  logs (r <- attempt m ;; match r with Ok _ => ret tt | Err e => h e end) run_spec.
Proof.
  intros Hm Hh s. destruct (Hm s) as (l & Hl & HP). unfold bind, attempt.
  destruct (m s) as [[a|e] s1]; cbn in *; [by exists l|].
  destruct (Hh e s1) as (l' & Hl' & HP'). exists (l ++ l').
  rewrite Hl', Hl, app_assoc. split; [done|]. destruct HP as [Hp Hf], HP' as [Hp' Hr].
  split; [by apply Forall_app|]. destruct (h e s1) as [[b|e'] s2]; cbn in *.
  - destruct Hr as (l0 & x & -> & Hx & Hf'). exists (l ++ l0), x.
    split_and!; [by rewrite app_assoc|done|by apply Forall_app].
  - by apply Forall_app.
Qed.

Lemma race_logs fuel ps fs port pe :
  0 ≤ port → Forall (λ a, octets (AddrIP a)) ps → Forall (λ a, octets (AddrIP a)) fs →
  logs (race fuel ps fs port pe) run_spec.
Proof.
  intros Hp. revert ps fs pe. induction fuel as [|fuel IH]; intros ps fs pe Hps Hfs; cbn [race].
  { apply logs_fail. split; constructor. }
  apply logs_ask. intros n. destruct (expired n); [apply logs_fail; split; constructor|].
  apply logs_ask. intros n'.
  destruct ps as [|a ps], fs as [|b fs], (fallback_turn n');
    repeat match goal with H : Forall _ (_ :: _) |- _ => apply Forall_cons in H as [??] end;
    try (apply logs_fail; split; constructor); apply logs_attempt; auto using dialSingle_logs.
Qed.

(** The addresses a dial is given are bytes, the port is one. *)
Definition good_list (r : res check_err (list IPAddr * Z)) : Prop :=
  match r with
  | Ok (l, port) => 0 ≤ port ∧ Forall (λ a, octets (AddrIP a)) l
  | Err _ => True
  end.

Lemma silent_bind {A B} (m : check A) (k : A → check B) (Q : res check_err A → Prop)
    (R : res check_err B → Prop) :
  silent m Q → (∀ e, R (Err e)) → (∀ a, Q (Ok a) → silent (k a) R) → silent (bind m k) R.
Proof.
  intros Hm He Hk s. destruct (Hm s) as [Hl HQ]. unfold bind.
  destruct (m s) as [[a|e] s1]; cbn in *; [|by split].
  destruct (Hk a HQ s1) as [Hl' HR]. split; [by rewrite Hl', Hl|done].
Qed.

Lemma LookupIPAddr_silent host `{!WireOctets} :
  silent (LookupIPAddr host)
    (λ r, match r with Ok l => Forall (λ a, octets (AddrIP a)) l | Err _ => True end).
Proof.
  unfold LookupIPAddr. destruct (String.eqb host ""); [by intros s|].
  destruct (ParseAddr (bytes_of host)) as [[ip z]|] eqn:Hp.
  - intros s. split; [done|]. cbn. constructor; [|done]. cbn.
    eapply To16_octets, ParseAddr_octets, Hp.
  - eapply (silent_bind _ _ (λ r, ∃ n, r = Ok (lookup_ip n host))).
    + apply silent_ask. eauto.
    + done.
    + intros r [n [= ->]] s. destruct (lookup_ip n host) as [l|] eqn:Hl; [|done].
      split; [done|]. apply Forall_forall. intros a Ha. by eapply lookup_octets.
Qed.

Lemma internetAddrList_silent address `{!WireOctets} : silent (internetAddrList address) good_list.
Proof.
  unfold internetAddrList. destruct (SplitHostPort address) as [[host service]|]; [|by intros s].
  destruct (LookupPort service) as [port|] eqn:Hport; [|by intros s].
  assert (0 ≤ port) as Hp.
  { unfold LookupPort in Hport. destruct (lookup_port service); [|done].
    case_match eqn:Hr; [done|]. injection Hport as <-. apply orb_false_iff in Hr. lia. }
  destruct (String.eqb host "").
  { intros s. split; [done|]. split; [done|]. repeat constructor. }
  eapply silent_bind; [by apply LookupIPAddr_silent|done|].
  intros ips Hips. destruct ips as [|a [|b ips]]; try by intros s.
  apply Forall_cons in Hips as [Ha _].
  case_bool_decide; intros s; (split; [done|]); (split; [done|]); repeat constructor; try done;
    cbn; lia.
Qed.

Lemma dialContext_logs address `{!WireOctets} : logs (dialContext address) run_spec.
Proof.
  unfold dialContext. eapply logs_after; [by apply internetAddrList_silent|by split; constructor|].
  intros [l port] [Hp Hl]. unfold partition. destruct l as [|a l].
  - apply race_logs; [done|constructor|constructor].
  - rewrite Forall_forall in Hl.
    apply race_logs; [done| |]; apply Forall_forall; intros x [_ Hx]%list_elem_of_filter; auto.
Qed.

Lemma runDialCheck_logs pollType target `{!WireOctets} : logs (runDialCheck pollType target) run_spec.
Proof.
  unfold runDialCheck. destruct (targetHostPort pollType target).
  - by apply dialContext_logs.
  - apply logs_fail. split; constructor.
Qed.

(** An HTTP check that passed had an answer of the 200s or 300s. *)
Definition answered (target : string) (r : res check_err unit) : Prop :=
  r = Ok tt → ∃ n code, http_answer n target = Some code ∧ 200 ≤ code < 400.

(** The connects of an HTTP check: none but the last was established. *)
Definition http_spec (target : string) (r : res check_err unit)
    (l : list (IPAddr * Z * bool)) : Prop :=
  Forall public l ∧ answered target r ∧
  ∀ l' e, l = l' ++ [e] → Forall (λ e, e.2 = false) l'.

Lemma answer_silent target :
  silent (status <- ask_wire (λ n, http_answer n target) ;;
          match status with
          | None => fail ErrConnect
          | Some code => if (code <? 200) || (400 <=? code) then fail (ErrStatus code) else ret tt
          end) (answered target).
Proof.
  intros s. unfold bind, ask_wire. cbn. destruct (http_answer (w_tick s) target) as [code|] eqn:Ha;
    [|by split].
  case_match eqn:Hr; (split; [done|]); intros [=]. exists (w_tick s), code.
  apply orb_false_iff in Hr. split; [done|lia].
Qed.

Lemma runHTTPCheck_logs target `{!WireOctets} : logs (runHTTPCheck target) (http_spec target).
Proof.
  assert (∀ e : check_err, http_spec target (Err e) []) as Hnil.
  { intros e. split; [constructor|]. split; [done|]. by intros [] ?. }
  unfold runHTTPCheck. destruct (url_parse target) as [u|]; [|by apply logs_fail].
  case_match; [by apply logs_fail|]. case_match; [by apply logs_fail|].
  apply logs_ask. intros n. destruct (idle_conn n (canonicalAddr u)).
  - intros s. change (bind (ret tt) ?k s) with (k tt s). cbv beta. destruct (answer_silent target s) as [Hl Ha].
    exists []. rewrite app_nil_r. split; [done|]. split; [constructor|]. split; [done|]. by intros [] ?.
  - intros s. destruct (dialContext_logs (canonicalAddr u) s) as (l & Hl & Hp & Hr).
    destruct (dialContext (canonicalAddr u) s) as [[[]|e] s1] eqn:E;
      rewrite (bind_run _ _ _ _ _ E); cbn in Hl, Hr.
    + destruct (answer_silent target s1) as [Hl1 Ha]. exists l. rewrite Hl1, Hl.
      split; [done|]. split; [done|]. split; [exact Ha|].
      destruct Hr as (l0 & x & -> & _ & Hf). by intros l' e [-> ->]%app_inj_tail.
    + exists l. split; [done|]. split; [done|]. split; [by intros [=]|].
      intros l' x ->. by apply Forall_app in Hr as [? _].
Qed.
End traces.

(** *** Which errors a dial can end with *)

Section errors.
Context `{!Wire}.

Definition dial_error (e : check_err) : Prop :=
  match e with
  | errBlockedTarget | ErrNoSuchHost | ErrDialAddress | ErrNotLiteral | ErrMissingAddress
  | ErrConnect | ErrTimeout => True
  | _ => False
  end.
Definition fails_with {A} (m : check A) (P : check_err → Prop) : Prop :=
  ∀ s e, (m s).1 = Err e → P e.

Lemma fails_fail {A} e (P : check_err → Prop) : P e → fails_with (A := A) (fail e) P.
Proof. by intros He s e' [= <-]. Qed.
Lemma fails_ret {A} (a : A) P : fails_with (ret a) P.
Proof. done. Qed.
Lemma fails_ask {A} (f : nat → A) P : fails_with (ask_wire f) P.
Proof. done. Qed.
Lemma fails_bind {A B} (m : check A) (k : A → check B) P :
  fails_with m P → (∀ a, fails_with (k a) P) → fails_with (bind m k) P.
Proof.
  intros Hm Hk s e. unfold bind. specialize (Hm s). destruct (m s) as [[a|e'] s1]; [apply Hk|].
  intros [= ->]. by apply Hm.
Qed.
Lemma fails_attempt {A B} (m : check A) (k : res check_err A → check B) P Q :
  fails_with m Q → (∀ a, fails_with (k (Ok a)) P) → (∀ e, Q e → fails_with (k (Err e)) P) →
  fails_with (bind (attempt m) k) P.
Proof.
  intros Hm Ho He s e. unfold bind, attempt. specialize (Hm s).
  destruct (m s) as [[a|e'] s1]; [apply Ho|]. apply He. by apply Hm.
Qed.

#[local] Hint Resolve fails_ret fails_ask : core.
#[local] Hint Extern 1 (fails_with (fail _) _) => apply fails_fail; exact I : core.

Lemma dialSingle_fails a port : fails_with (dialSingle a port) dial_error.
Proof.
  unfold dialSingle. destruct (Control _) as [[]|e] eqn:Hc.
  - apply fails_bind; [auto|]. intros ok. apply fails_bind; [done|]. intros _. destruct ok; auto.
  - unfold Control in Hc. repeat case_match; simplify_eq; auto.
Qed.

Lemma race_fails fuel ps fs port pe :
  (∀ e, pe = Some e → dial_error e) → fails_with (race fuel ps fs port pe) dial_error.
Proof.
  revert ps fs pe. induction fuel as [|fuel IH]; intros ps fs pe Hpe; cbn [race].
  { apply fails_fail. destruct pe; [by apply Hpe|done]. }
  apply fails_bind; [auto|]. intros late. destruct late; [auto|].
  apply fails_bind; [auto|]. intros fb.
  assert (∀ ps fs, fails_with (race fuel ps fs port pe) dial_error) as Hrec by auto.
  assert (∀ ps fs e, dial_error e →
    fails_with (race fuel ps fs port (Some (default e pe))) dial_error) as Hrec'.
  { intros ps' fs' e He. apply IH. intros e' [= <-]. by destruct pe; [apply Hpe|]. }
  destruct ps as [|a ps], fs as [|b fs], fb;
    first [eapply fails_attempt; [apply dialSingle_fails|auto|by auto]
          | apply fails_fail; destruct pe; [by apply Hpe|done]].
Qed.

Lemma dialContext_fails address : fails_with (dialContext address) dial_error.
Proof.
  unfold dialContext. apply fails_bind.
  - unfold internetAddrList. repeat (case_match; auto). apply fails_bind.
    + unfold LookupIPAddr. repeat (case_match; auto).
      apply fails_bind; [auto|]. intros r. case_match; auto.
    + intros ips. repeat (case_match; auto).
  - intros r. destruct (partition r.1) as [ps fs]. by apply race_fails.
Qed.
End errors.

(** A dial of one address the hook lets pass makes one connect. *)
Lemma dial_one `{!Wire} address a port s :
  internetAddrList address = ret ([a], port) → Control (TCPAddr_String a port) = Ok tt →
  expired (w_tick s) = false →
  ∃ ok, w_log (dialContext address s).2 = w_log s ++ [(a, port, ok)].
Proof.
  intros Ha Hc He. unfold dialContext. rewrite Ha.
  change (bind (ret ([a], port)) ?k s) with (k ([a], port) s). cbv beta. cbn [fst snd].
  assert (partition [a] = ([a], [])) as ->.
  { unfold partition. rewrite !filter_cons, !filter_nil. rewrite decide_True by done.
    by rewrite decide_False by (intros Hn; by apply Hn). }
  cbn [length race]. unfold bind, ask_wire, attempt. cbn [w_tick]. rewrite He. unfold dialSingle.
  rewrite Hc. exists (connects (S (S (w_tick s))) a port).
  unfold bind, ask_wire, log_connect. cbn [w_tick w_log fst snd].
  destruct (connects _ a port); cbn [race w_tick]; [done|].
  unfold fail. cbn [w_tick w_log]. by destruct (expired (S _)).
Qed.

(** ** A wire to run checks on

    One name, whose address is public when it is first asked for and loopback from
    then on. *)
Definition demo_wire : Wire := {|
  url_parse t :=
    if String.eqb t "http://rebind.example/health"
    then Some {| Scheme := "http"; Host := "rebind.example" |} else None;
  lookup_port p := if String.eqb p "80" then Some 80 else if String.eqb p "6379" then Some 6379 else None;
  lookup_ip n h :=
    if String.eqb h "rebind.example"
    then Some [{| AddrIP := if Nat.eqb n 0 then [93; 184; 216; 34] else mapped [127; 0; 0; 1];
                  Zone := "" |}]
    else None;
  idna_ascii h := Some h;
  connects _ _ _ := true;
  fallback_turn _ := false;
  expired _ := false;
  idle_conn _ _ := false;
  http_answer _ _ := Some 204 |}.

Lemma demo_wire_octets : @WireOctets demo_wire.
Proof.
  intros n host l a Hl Ha. cbn in Hl. case_match; [|done]. injection Hl as <-.
  apply list_elem_of_singleton in Ha as ->. cbn.
  destruct (Nat.eqb n 0); unfold octets, mapped; cbn; repeat constructor; lia.
Qed.

Definition wire0 : wire := {| w_tick := 0; w_log := [] |}.

(** The same target is accepted, then checked once it has been rebound. *)
Example rebound :
  (let v := @ValidateTargetSafety demo_wire PollTypeTCP "rebind.example:80" wire0 in
   let r := @RunCheck demo_wire PollTypeTCP "rebind.example:80" v.2 in
   (v.1, r.1, w_log r.2)) = (Ok tt, Err errBlockedTarget, []).
Proof. vm_compute. reflexivity. Qed.

Example http_rebound :
  (@RunCheck demo_wire PollTypeHTTP "http://rebind.example/health" wire0).1 = Err errBlockedTarget.
Proof. vm_compute. reflexivity. Qed.

(** ** Properties *)

(** C11: no check of any poll type and target ever calls connect on an address in
    the five blocked blocks, whatever names resolve to and whenever they are
    rebound: the connects a run adds to the log are to public addresses. *)
Theorem checks_stay_public `{!Wire} `{!WireOctets} pollType target s :
  ∃ l, w_log (RunCheck pollType target s).2 = w_log s ++ l ∧ Forall public l.
Proof.
  unfold RunCheck. case_match.
  - destruct (runHTTPCheck_logs target s) as (l & Hl & Hp & _). eauto.
  - case_match.
    + destruct (runDialCheck_logs pollType target s) as (l & Hl & Hp & _). eauto.
    + exists []. by rewrite app_nil_r.
Qed.

Lemma checks_stay_public_witness :
  ∃ l, w_log (@RunCheck demo_wire PollTypeTCP "rebind.example:80" wire0).2 = [] ++ l ∧
       Forall public l.
Proof. exact (@checks_stay_public demo_wire demo_wire_octets _ _ wire0). Defined.

(** a TCP or ping check passes exactly when one of its connects was established,
    which is then the last one made and the only one; an HTTP check that passed
    got a status from 200 to 399. *)
Theorem check_verdict `{!Wire} `{!WireOctets} pollType target s :
  let r := RunCheck pollType target s in
  ∃ l, w_log r.2 = w_log s ++ l ∧
    (pollType = PollTypeTCP ∨ pollType = PollTypePing → 
       (r.1 = Ok tt ↔ Exists (λ e, e.2 = true) l) ∧
       (r.1 = Ok tt → ∃ l' e, l = l' ++ [e] ∧ Forall (λ e, e.2 = false) l')) ∧
    (pollType = PollTypeHTTP → answered target r.1) ∧
    (pollType ∉ [PollTypeHTTP; PollTypeTCP; PollTypePing] →
       r.1 = Err ErrUnrecognizedPollType ∧ l = []).
Proof.
  cbv zeta. unfold RunCheck. destruct (String.eqb_spec pollType PollTypeHTTP) as [->|Hh].
  { destruct (runHTTPCheck_logs target s) as (l & Hl & _ & Ha & _). exists l.
    split_and!; [done|by intros [|]|done|]. intros []. by left. }
  destruct (String.eqb pollType PollTypeTCP || String.eqb pollType PollTypePing) eqn:Htp.
  - destruct (runDialCheck_logs pollType target s) as (l & Hl & _ & Hr). exists l.
    split_and!; [done|intros _|done|].
    + destruct (runDialCheck pollType target s) as [[[]|e] s1]; cbn in *.
      * destruct Hr as (l' & e & -> & He & Hf). split; [|eauto].
        split; [intros _|done]. apply Exists_app. right. by left.
      * split; [|done]. split; [done|]. intros (x & Hx & Ht)%Exists_exists.
        rewrite Forall_forall in Hr. specialize (Hr x Hx). congruence.
    + intros Hn. apply orb_true_iff in Htp as [->%String.eqb_eq| ->%String.eqb_eq];
        destruct Hn; [right; by left|do 2 right; by left].
  - exists []. apply orb_false_iff in Htp as [?%String.eqb_neq ?%String.eqb_neq].
    split_and!; [by rewrite app_nil_r|naive_solver|naive_solver|done].
Qed.

Lemma check_verdict_witness :
  ∃ l, w_log (@RunCheck demo_wire PollTypePing "93.184.216.34" wire0).2 = [] ++ l ∧
    Exists (λ e, e.2 = true) l.
Proof.
  destruct (@check_verdict demo_wire demo_wire_octets PollTypePing "93.184.216.34" wire0)
    as (l & Hl & Hv & _).
  exists l. split; [exact Hl|].
  apply (proj1 (proj1 (Hv (or_intror eq_refl)))). vm_compute. reflexivity.
Defined.

(** the blocked ranges are the five blocks, by the first bytes of an IPv4
    address: for an address of four bytes, for its IPv4-mapped form and for the
    address read back from its dotted text; no other IPv6 address is in them. *)
Theorem blocked_ranges_meaning :
  (∀ ip4, octets ip4 → length ip4 = 4%nat →
     isBlockedIP ip4 = in_block ip4 ∧ isBlockedIP (mapped ip4) = in_block ip4 ∧
     ∃ ip, ParseIP (dotted ip4) = Some ip ∧ isBlockedIP ip = in_block ip4) ∧
  (∀ ip, octets ip → To4 ip = None → isBlockedIP ip = false).
Proof.
  split.
  - intros ip4 Ho Hl.
    assert (isBlockedIP (mapped ip4) = in_block ip4) as Hm.
    { rewrite isBlockedIP_private; [|by apply (To16_octets ip4) in Ho; unfold To16 in Ho; rewrite Hl in Ho].
      unfold private. by rewrite To4_mapped. }
    split_and!; [|done|eauto using ParseIP_dotted].
    rewrite isBlockedIP_private by done. unfold private, To4. by rewrite Hl.
  - intros ip Ho Ht. rewrite isBlockedIP_private by done. unfold private. by rewrite Ht.
Qed.

Lemma blocked_ranges_meaning_witness :
  isBlockedIP [172; 31; 255; 1] = true ∧ isBlockedIP (mapped [172; 32; 0; 1]) = false.
Proof.
  split.
  - apply (proj1 blocked_ranges_meaning [172; 31; 255; 1]); [repeat constructor; lia|reflexivity].
  - apply (proj1 blocked_ranges_meaning [172; 32; 0; 1]); [repeat constructor; lia|reflexivity].
Defined.

(** [ValidateTargetSafety] makes no connection; a target whose host cannot be
    read is an error, one that does not resolve is allowed, and one that resolves is
    refused exactly when some address it resolves to is in a blocked block. *)
Theorem safety_verdict `{!Wire} `{!WireOctets} pollType target s :
  let r := ValidateTargetSafety pollType target s in
  w_log r.2 = w_log s ∧
  match targetHost pollType target with
  | Err e => r.1 = Err e
  | Ok host =>
      match (LookupIPAddr host s).1 with
      | Err _ => r.1 = Ok tt
      | Ok addrs =>
          r.1 = (if existsb (λ a, private (AddrIP a)) addrs then Err errBlockedTarget else Ok tt)
      end
  end.
Proof.
  cbv zeta. unfold ValidateTargetSafety. destruct (targetHost pollType target) as [host|e]; [|done].
  destruct (LookupIPAddr_silent host s) as [Hl Ho]. unfold bind, attempt.
  destruct (LookupIPAddr host s) as [[addrs|e] s1]; cbn [fst snd] in *; [|done].
  rewrite any_blocked by done. by destruct (existsb _ addrs).
Qed.

Lemma safety_verdict_witness :
  (@ValidateTargetSafety demo_wire PollTypePing "10.1.2.3" wire0).1 = Err errBlockedTarget.
Proof.
  exact (proj2 (@safety_verdict demo_wire demo_wire_octets PollTypePing "10.1.2.3" wire0)).
Defined.

(** loopback is reachable all the same, by the unspecified IPv4 address and by
    IPv6: both targets pass the format and the safety check and a check of them
    calls connect. *)
Theorem loopback_reached `{!Wire} s :
  lookup_port "6379" = Some 6379 → expired (w_tick s) = false →
  Forall (λ p, let '(target, ip) := (p : string * IP) in
    ValidateTargetFormat PollTypeTCP target = Ok tt ∧
    ValidateTargetSafety PollTypeTCP target s = (Ok tt, s) ∧
    ∃ ok, w_log (RunCheck PollTypeTCP target s).2 =
          w_log s ++ [({| AddrIP := ip; Zone := "" |}, 6379, ok)])
    [("0.0.0.0:6379"%string, mapped [0; 0; 0; 0]);
     ("[::1]:6379"%string, replicate 15 0 ++ [1])].
Proof.
  intros Hp He. assert (LookupPort "6379" = Some 6379) as Hport by (unfold LookupPort; by rewrite Hp).
  apply Forall_cons; split; [|apply Forall_cons; split; [|by apply Forall_nil]].
  all: split; [vm_compute; reflexivity|]; split; [vm_compute; reflexivity|].
  all: change (RunCheck PollTypeTCP ?t) with (dialContext t).
  all: apply dial_one; [|vm_compute; reflexivity|done].
  all: unfold internetAddrList.
  - change (SplitHostPort "0.0.0.0:6379") with (Some ("0.0.0.0", "6379")%string).
    cbv iota. rewrite Hport. reflexivity.
  - change (SplitHostPort "[::1]:6379") with (Some ("::1", "6379")%string).
    cbv iota. rewrite Hport. reflexivity.
Qed.

Lemma loopback_reached_witness :
  ∃ ok, w_log (@RunCheck demo_wire PollTypeTCP "[::1]:6379" wire0).2 =
        [] ++ [({| AddrIP := replicate 15 0 ++ [1]; Zone := "" |}, 6379, ok)].
Proof.
  pose proof (@loopback_reached demo_wire wire0 eq_refl eq_refl) as Hl.
  apply Forall_cons in Hl as [_ Hl]. apply Forall_cons in Hl as [(_ & _ & Hl) _]. exact Hl.
Defined.

(** a target that passed the format check never fails a check for its form: a
    check of it passes, or ends with a dial's own error or with the status of the
    answer. *)
Theorem format_accepts `{!Wire} pollType target s e :
  ValidateTargetFormat pollType target = Ok tt →
  (RunCheck pollType target s).1 = Err e → dial_error e ∨ ∃ code, e = ErrStatus code.
Proof.
  unfold ValidateTargetFormat, RunCheck. destruct (String.eqb_spec pollType PollTypeHTTP) as [->|Hh].
  - unfold validateHTTPFormat, runHTTPCheck. destruct (url_parse target) as [u|]; [|done].
    destruct (String.eqb (Scheme u) "" || String.eqb (Host u) "") eqn:Hn; [done|].
    apply orb_false_iff in Hn as [_ ->]. case_match; [done|]. intros _. revert s e.
    apply fails_bind; [done|]. intros kept. apply fails_bind.
    + destruct kept; [done|]. intros s e He. left. by apply (dialContext_fails _ _ _ He).
    + intros _. apply fails_bind; [done|]. intros [code|]; [|by apply fails_fail; left].
      case_match; [apply fails_fail; eauto|done].
  - destruct (String.eqb_spec pollType PollTypeTCP) as [->|Ht]; [|
      destruct (String.eqb_spec pollType PollTypePing) as [->|Hp]; [|done]]; cbn [orb]; intros _;
      unfold runDialCheck, targetHostPort; cbn [String.eqb]; intros He; left;
      revert He; repeat case_match; intros He; try discriminate; by apply (dialContext_fails _ _ _ He).
Qed.

Lemma format_accepts_witness :
  dial_error errBlockedTarget ∨ ∃ code, errBlockedTarget = ErrStatus code.
Proof.
  apply (@format_accepts demo_wire PollTypeTCP "127.0.0.1:80" wire0); vm_compute; reflexivity.
Defined.
