(* ===== verification/World.v ===== *)
(** * What the background jobs act on

    The state the poller, its analyzer and the manual scheduler share: the
    database session the caller's context stands for, the status-interval
    repository's own connection, the analyzer's dispatch bookkeeping, the
    enrichment goroutines that were started and have not run yet, the mails
    handed to the notifier, and the provider client in use.  What is not under
    src/ (Datadog, the LLM and mail services, the wall clock and timers) is the
    parameter [Outside]: its answer to the n-th question. *)

From stdpp Require Import numbers strings gmap list.
From Stdlib Require Import ZArith Floats.
From S2P Require Import Prelude GoNum Db Schema Retry BurnRate Intervals.

#[local] Open Scope Z_scope.
#[local] Open Scope go_scope.

(** ** Datadog's data (internal/connectors/datadog) *)

Record SLOStatus := {
  SsState : string;
  SsErrorBudgetRemaining : float;
  SsSLI : float;
  SsTarget : float;
  SsTimeframe : string;
  SsRequestCount : Z;
}.

Record SLOWindows := {
  SwTarget : float;
  SwTimeframe : string;
  SwState : string;
  SwSLI : float;
  SwShort : windowCounts;
  SwLong : windowCounts;
  HasSeries : bool;
}.

(** [llm.AnalysisInput]: what the prompts are built from. *)
Record AnalysisInput := {
  ServiceName : string;
  SLOState : string;
  AiSLI : float;
  AiTarget : float;
  AiTimeframe : string;
  AiErrorBudgetRemaining : float;
  CauseType : string;
  CauseMessage : string;
  BurnRateShort : float;
  BurnRateLong : float;
  WindowErrors : Z;
  WindowRequests : Z;
  NoRecentTraffic : bool;
}.

Inductive generation := GenDegraded | GenOutage | GenClosing.

(** ** The outside *)

(** A provider client, by the tenant's credentials it was built from. *)
Definition client : Type := string.

(** The errors the jobs see. *)
Inductive perr :=
| PDb (e : db_err)
| PFetch (e : fetch_err).

Class Outside := {
  core_driver : Driver;                 (* the server, on the caller's session *)
  iv_driver : Driver;                   (* the server, on the intervals' connection *)
  time_now : nat → Z;                   (* time.Now() *)
  timer_fires_first : nat → bool;       (* a backoff wait ends before the context *)
  fetch_windows : nat → client → string → Z → Z → Z → res fetch_err SLOWindows;
  fetch_status : nat → client → string → Z → Z → res fetch_err SLOStatus;
  run_check : nat → string → string → bool;        (* checks.Check's verdict *)
  generate : nat → generation → AnalysisInput → res unit string;
  enrichment_enabled : nat → res db_err bool;      (* the tenant's toggle *)
  search_issues : nat → client → string → string → Z → Z →
                  res fetch_err (option (string * string));
  resolve_client : nat → string → res db_err client;
  err_text : perr → string;             (* err.Error() *)
}.

(** ** The state *)

Inductive job :=
| JobDegraded (tenant : string) (svc : Service) (status : SLOStatus)
    (reading : option ServiceReading) (intervalID : string) (cause : option client)
| JobOutage (tenant : string) (svc : Service) (status : SLOStatus)
    (reading : option ServiceReading) (incidentID : string) (cause : option client)
| JobClosing (tenant : string) (input : AnalysisInput) (incidentID : string).

(** [notify.IncidentSummary] as its callers fill it. *)
Record IncidentSummary := {
  SumIncidentID : string;
  SumTitle : string;
  SumSeverity : string;
  SumServiceName : string;
  SumStatus : string;
  SumOpenedAt : Z;
  SumResolvedAt : option Z;
  SumDescription : string;
}.

Record pstate := PState {
  p_core : session core;
  p_iv : session iv_db;
  in_flight : nat;                       (* slots of sem in use *)
  lastDispatch : gmap string Z;
  jobs : list job;                       (* goroutines started, oldest first *)
  mails : list (string * IncidentSummary);
  provider : client;                     (* p.provider *)
  ctx_tenant : string;                   (* tenantIDFromContext *)
  ev : nat;                              (* questions put to the outside so far *)
}.

Definition set_core (c : session core) (s : pstate) : pstate :=
  PState c (p_iv s) (in_flight s) (lastDispatch s) (jobs s) (mails s) (provider s) (ctx_tenant s) (ev s).
Definition set_iv (c : session iv_db) (s : pstate) : pstate :=
  PState (p_core s) c (in_flight s) (lastDispatch s) (jobs s) (mails s) (provider s) (ctx_tenant s) (ev s).
Definition set_analyzer (n : nat) (l : gmap string Z) (s : pstate) : pstate :=
  PState (p_core s) (p_iv s) n l (jobs s) (mails s) (provider s) (ctx_tenant s) (ev s).
Definition set_jobs (l : list job) (s : pstate) : pstate :=
  PState (p_core s) (p_iv s) (in_flight s) (lastDispatch s) l (mails s) (provider s) (ctx_tenant s) (ev s).
Definition set_mails (l : list (string * IncidentSummary)) (s : pstate) : pstate :=
  PState (p_core s) (p_iv s) (in_flight s) (lastDispatch s) (jobs s) l (provider s) (ctx_tenant s) (ev s).
Definition set_provider (c : client) (s : pstate) : pstate :=
  PState (p_core s) (p_iv s) (in_flight s) (lastDispatch s) (jobs s) (mails s) c (ctx_tenant s) (ev s).
Definition set_ctx_tenant (t : string) (s : pstate) : pstate :=
  PState (p_core s) (p_iv s) (in_flight s) (lastDispatch s) (jobs s) (mails s) (provider s) t (ev s).
Definition bump_ev (s : pstate) : pstate :=
  PState (p_core s) (p_iv s) (in_flight s) (lastDispatch s) (jobs s) (mails s) (provider s) (ctx_tenant s)
    (Datatypes.S (ev s)).

Definition P (A : Type) : Type := M pstate perr A.

(** A question to the outside. *)
Definition ask {A} (f : nat → A) : P A := λ s, (Ok (f (ev s)), bump_ev s).

(** A repository call on the caller's session, or on the intervals' own. *)
Definition on_core {A} (m : M (session core) db_err A) : P A :=
  λ s, let '(r, c) := m (p_core s) in
       (match r with Ok a => Ok a | Err e => Err (PDb e) end, set_core c s).
Definition on_iv {A} (m : M (session iv_db) db_err A) : P A :=
  λ s, let '(r, c) := m (p_iv s) in
       (match r with Ok a => Ok a | Err e => Err (PDb e) end, set_iv c s).

(** A repository call that runs on the caller's transaction but writes
    status_intervals: it needs a live transaction, and its failure aborts it. *)
Definition on_tx_iv {A} (m : M (session iv_db) db_err A) : P A :=
  λ s, if aborted (p_core s) then (Err (PDb ErrTxAborted), s)
       else match m (p_iv s) with
            | (Ok a, c) => (Ok a, set_iv c s)
            | (Err e, c) => (Err (PDb e), set_core (abort (p_core s)) (set_iv c s))
            end.

(** A call whose error is logged and dropped. *)
Definition logged {A} (m : P A) : P unit := attempt m ;;; ret tt.

(** ** Lemmas *)

(** A computation that always returns. *)
Definition never_fails {A} (m : P A) : Prop := ∀ s, is_ok (m s).1 = true.

Lemma never_fails_ret {A} (a : A) : never_fails (ret a).
Proof. done. Qed.
Lemma never_fails_attempt {A} (m : P A) : never_fails (attempt m).
Proof. intros s. unfold attempt. by destruct (m s). Qed.
Lemma never_fails_ask {A} (f : nat → A) : never_fails (ask f).
Proof. done. Qed.
Lemma never_fails_bind {A B} (m : P A) (k : A → P B) :
  never_fails m → (∀ a, never_fails (k a)) → never_fails (bind m k).
Proof.
  intros Hm Hk s. unfold bind. specialize (Hm s). destruct (m s) as [[a|e] s1]; [|done].
  apply Hk.
Qed.
Lemma never_fails_logged {A} (m : P A) : never_fails (logged m).
Proof. apply never_fails_bind; [apply never_fails_attempt|intros; apply never_fails_ret]. Qed.

#[export] Hint Resolve never_fails_ret never_fails_attempt never_fails_ask never_fails_logged : vane.
#[export] Hint Extern 2 (never_fails (bind _ _)) => apply never_fails_bind; [|intros ?] : vane.

(** *** Relations along a computation

    [along R m]: running [m] from any state relates the states before and after
    by [R], a reflexive and transitive relation. *)
Section along.
Context (R : relation pstate) `{!PreOrder R}.

Definition along {A} (m : P A) : Prop := ∀ s, R s (m s).2.

Lemma along_ret {A} (a : A) : along (ret a).
Proof. intros s. cbn. reflexivity. Qed.
Lemma along_fail {A} e : along (fail e : P A).
Proof. intros s. cbn. reflexivity. Qed.
Lemma along_attempt {A} (m : P A) : along m → along (attempt m).
Proof. intros Hm s. unfold attempt. specialize (Hm s). by destruct (m s). Qed.
Lemma along_bind {A B} (m : P A) (k : A → P B) :
  along m → (∀ a, along (k a)) → along (bind m k).
Proof.
  intros Hm Hk s. unfold bind. specialize (Hm s). destruct (m s) as [[a|e] s1]; [|done].
  cbn in *. etrans; [done|]. apply Hk.
Qed.
Lemma along_logged {A} (m : P A) : along m → along (logged m).
Proof. intros. apply along_bind; [by apply along_attempt|]. intros. apply along_ret. Qed.
(** A question to the outside, and the retries made of them. *)
Lemma along_ask {A} (f : nat → A) : (∀ s, R s (bump_ev s)) → along (ask f).
Proof. intros Hb s. apply Hb. Qed.
Lemma along_retry {T} fetch wait (zero : T) m s :
  (∀ s, R s (fetch s).2) → (∀ d s, R s (wait d s).2) →
  R s (retryFetch fetch wait zero m s).2.
Proof.
  intros Hf Hw. unfold retryFetch. generalize 1, (None : option fetch_err).
  revert s. generalize (Z.to_nat m) as left. intros left.
  induction left as [|left IH]; intros s a le; [cbn; reflexivity|].
  cbn [retry_loop]. specialize (Hf s). destruct (fetch s) as [[r|e] s1]; [done|]. cbn in Hf.
  destruct (negb _); [done|]. destruct (a <? m); [|by etrans].
  pose proof (Hw (go_mul backoffBase (wrap64 (Z.shiftl 1 (a - 1)))) s1) as Hw1.
  destruct (wait _ s1) as [[] s2]; cbn in Hw1.
  - etrans; [done|]. etrans; [done|]. apply IH.
  - by etrans.
Qed.
End along.

(** An outside where Datadog rejects the credentials, for the examples. *)
Definition unreachable_outside : Outside := {|
  core_driver := reliable; iv_driver := reliable; time_now _ := 0;
  timer_fires_first _ := true;
  fetch_windows _ _ _ _ _ _ := Err ErrUnauthorized;
  fetch_status _ _ _ _ _ := Err ErrServer;
  run_check _ _ _ := true; generate _ _ _ := Err tt; enrichment_enabled _ := Ok false;
  search_issues _ _ _ _ _ _ := Ok None; resolve_client _ t := Ok t; err_text _ := "error";
|}.
