(* ===== verification/Analyzer.v ===== *)
(** * The SLO analyzer (internal/poller/analyzer.go)

    [HandleTransition] does its database writes on the poll cycle's session and
    starts enrichment goroutines; a goroutine is a [job] value holding what its
    closure captured, appended to [jobs] when it is started and run by
    [run_job], at any later time, in a tenant transaction of its own.  The
    analyzer is the production one: notifier, enrichment settings and tenant
    transactions installed, no static cause provider. *)

From stdpp Require Import numbers strings gmap list.
From Stdlib Require Import ZArith Floats Lia.
From S2P Require Import Prelude GoNum GoStrings Db Schema Services Intervals Incidents Retry BurnRate World.

#[local] Open Scope Z_scope.
#[local] Open Scope go_scope.

Definition errorTrackingWindow : Z := 10 * minute.
Definition errorTrackingEnv : string := "production".
Definition maxConcurrentEnrichments : nat := 4.
Definition enrichmentCooldown : Z := 2 * minute.

Definition genericOutageDescription (serviceName : string) : string :=
  "Uma indisponibilidade foi detectada automaticamente para " +:+ serviceName +:+ ".".

Definition buildAnalysisInput (svc : Service) (st : SLOStatus) (reading : option ServiceReading) :
    AnalysisInput :=
  {| ServiceName := SvcName svc; SLOState := SsState st; AiSLI := SsSLI st;
     AiTarget := SsTarget st; AiTimeframe := SsTimeframe st;
     AiErrorBudgetRemaining := SsErrorBudgetRemaining st;
     CauseType := ""; CauseMessage := "";
     BurnRateShort := match reading with Some r => BurnShort r | None => 0%float end;
     BurnRateLong := match reading with Some r => BurnLong r | None => 0%float end;
     WindowErrors := match reading with Some r => ShortErrors r | None => 0 end;
     WindowRequests := match reading with Some r => ShortRequests r | None => 0 end;
     NoRecentTraffic := match reading with Some r => ShortRequests r <=? 0 | None => false end |}.

Definition with_cause (c : string * string) (x : AnalysisInput) : AnalysisInput :=
  {| ServiceName := ServiceName x; SLOState := SLOState x; AiSLI := AiSLI x;
     AiTarget := AiTarget x; AiTimeframe := AiTimeframe x;
     AiErrorBudgetRemaining := AiErrorBudgetRemaining x;
     CauseType := c.1; CauseMessage := c.2;
     BurnRateShort := BurnRateShort x; BurnRateLong := BurnRateLong x;
     WindowErrors := WindowErrors x; WindowRequests := WindowRequests x;
     NoRecentTraffic := NoRecentTraffic x |}.

Section analyzer.
Context `{!Outside}.

(** [resolveCauseHint]: two empty strings on every early return. *)
Definition resolveCauseHint (svc : Service) (cause : option client) : P (string * string) :=
  match cause with
  | None => ret ("", "")
  | Some c =>
      enabled <- ask enrichment_enabled ;;
      match enabled with
      | Err _ => ret ("", "")
      | Ok false => ret ("", "")
      | Ok true =>
          if negb (String.eqb (SLOType svc) "metric") || String.eqb (DatadogServiceTag svc) ""
          then ret ("", "")
          else
            to <- ask time_now ;;
            let from := time_add to (- errorTrackingWindow) in
            r <- ask (λ n, search_issues n c (DatadogServiceTag svc) errorTrackingEnv from to) ;;
            match r with
            | Err _ => ret ("", "")
            | Ok None => ret ("", "")
            | Ok (Some hint) => ret hint
            end
      end
  end.

(** ** The dispatch gates *)

Definition tryAcquire (key : string) : P bool :=
  λ s,
    let acquire s :=
      if Nat.ltb (in_flight s) maxConcurrentEnrichments then
        let now := time_now (ev s) in
        (Ok true, set_analyzer (Datatypes.S (in_flight s)) (<[key := now]> (lastDispatch s)) (bump_ev s))
      else (Ok false, s) in
    match lastDispatch s !! key with
    | Some last =>
        if time_sub (time_now (ev s)) last <? enrichmentCooldown then (Ok false, bump_ev s)
        else acquire (bump_ev s)
    | None => acquire s
    end.

Definition release (s : pstate) : pstate :=
  set_analyzer (Nat.pred (in_flight s)) (lastDispatch s) s.

(** go func() { ... }() *)
Definition start (j : job) : P unit := λ s, (Ok tt, set_jobs (jobs s ++ [j]) s).

(** ** Dispatching *)

Definition dispatchDegradedEnrichment (svc : Service) (st : SLOStatus)
    (reading : option ServiceReading) (intervalID : string) (cause : option client) : P unit :=
  ok <- tryAcquire ("degraded:" +:+ SvcID svc) ;;
  if negb ok then ret tt
  else λ s, start (JobDegraded (ctx_tenant s) svc st reading intervalID cause) s.

Definition dispatchOutageEnrichment (svc : Service) (st : SLOStatus)
    (reading : option ServiceReading) (incidentID : string) (cause : option client) : P unit :=
  ok <- tryAcquire ("outage:" +:+ incidentID) ;;
  if negb ok then ret tt
  else λ s, start (JobOutage (ctx_tenant s) svc st reading incidentID cause) s.

Definition dispatchClosingCommentEnrichment (svc : Service) (st : SLOStatus)
    (reading : option ServiceReading) (incidentID : string) : P unit :=
  ok <- tryAcquire ("close:" +:+ incidentID) ;;
  if negb ok then ret tt
  else λ s, start (JobClosing (ctx_tenant s) (buildAnalysisInput svc st reading) incidentID) s.

(** ** Transitions *)

(** [NotifyIncidentOpened]: the mail is handed over when the cycle has a
    tenant; a failed send is logged and dropped. *)
Definition notify_opened (x : IncidentSummary) : P unit :=
  λ s, (Ok tt, if String.eqb (ctx_tenant s) "" then s
               else set_mails (mails s ++ [(ctx_tenant s, x)]) s).

Definition outage_incident (svc : Service) : Incident :=
  {| IncID := ""; Title := "Indisponibilidade detectada: " +:+ SvcName svc; IncStatus := "";
     CreatedAt := 0; ResolvedAt := None;
     Description := Some (genericOutageDescription (SvcName svc));
     PendingCloseComment := None; AutoCreated := true; Severity := "" |}.

Definition handleOutageTransition (svc : Service) (st : SLOStatus)
    (reading : option ServiceReading) (cause : option client) : P unit :=
  found <- attempt (on_core (@HasOpenIncidentForService core_driver (SvcID svc))) ;;
  match found with
  | Err _ => ret tt
  | Ok (Some _) => ret tt
  | Ok None =>
      created <- attempt (on_core (@Create core_driver (outage_incident svc) [SvcID svc])) ;;
      match created with
      | Err _ => ret tt
      | Ok incident =>
          notify_opened {|
            SumIncidentID := IncID incident; SumTitle := Title incident;
            SumSeverity := Severity incident; SumServiceName := SvcName svc;
            SumStatus := IncStatus incident; SumOpenedAt := CreatedAt incident; SumResolvedAt := None;
            SumDescription := genericOutageDescription (SvcName svc) |} ;;;
          dispatchOutageEnrichment svc st reading (IncID incident) cause
      end
  end.

Definition handleRecoveryTransition (svc : Service) (st : SLOStatus)
    (reading : option ServiceReading) : P unit :=
  found <- attempt (on_core (@HasOpenIncidentForService core_driver (SvcID svc))) ;;
  match found with
  | Err _ => ret tt
  | Ok None => ret tt
  | Ok (Some incidentID) =>
      all <- attempt (on_core (@AllLinkedServicesOperational core_driver incidentID)) ;;
      match all with
      | Err _ => ret tt
      | Ok false => ret tt
      | Ok true => dispatchClosingCommentEnrichment svc st reading incidentID
      end
  end.

Definition HandleTransition (svc : Service) (previousStatus newStatus : string)
    (st : SLOStatus) (reading : option ServiceReading) (intervalID : string)
    (cause : option client) : P unit :=
  if String.eqb previousStatus newStatus then ret tt
  else
    let enteringDegraded := String.eqb newStatus "degraded" in
    let leavingDegraded :=
      String.eqb previousStatus "degraded" && negb (String.eqb newStatus "degraded") in
    (if enteringDegraded || leavingDegraded
     then logged (on_core (@UpdateStatusAnalysis core_driver (SvcID svc) None))
     else ret tt) ;;;
    (if enteringDegraded
     then dispatchDegradedEnrichment svc st reading intervalID cause else ret tt) ;;;
    (if String.eqb newStatus "outage"
     then handleOutageTransition svc st reading cause else ret tt) ;;;
    (if String.eqb newStatus "operational"
     then handleRecoveryTransition svc st reading else ret tt).

(** ** Running a goroutine *)

Definition fail_with {A} : P A := fail (PDb ErrDriver).

(** The generated text, refused when it is blank. *)
Definition generated (g : generation) (x : AnalysisInput) : P string :=
  r <- ask (λ n, generate n g x) ;;
  match r with
  | Err _ => fail_with
  | Ok text => if String.eqb (TrimSpace text) "" then fail_with else ret text
  end.

(** What the goroutine does on its own transaction before it commits; an
    error returns without a commit. *)
Definition job_body (j : job) : P unit :=
  match j with
  | JobDegraded _ svc st reading intervalID cause =>
      hint <- resolveCauseHint svc cause ;;
      analysis <- generated GenDegraded (with_cause hint (buildAnalysisInput svc st reading)) ;;
      logged (on_core (@UpdateStatusAnalysis core_driver (SvcID svc) (Some analysis))) ;;;
      logged (on_tx_iv (@SetIntervalAnalysis iv_driver intervalID analysis))
  | JobOutage _ svc st reading incidentID cause =>
      hint <- resolveCauseHint svc cause ;;
      description <- generated GenOutage (with_cause hint (buildAnalysisInput svc st reading)) ;;
      on_core (@SetDescription core_driver incidentID description)
  | JobClosing _ x incidentID =>
      comment <- generated GenClosing x ;;
      on_core (@SetPendingCloseComment core_driver incidentID comment)
  end.

Definition job_tenant (j : job) : string :=
  match j with JobDegraded t _ _ _ _ _ | JobOutage t _ _ _ _ _ | JobClosing t _ _ => t end.

(** The goroutine of [j], from the pool session: its own tenant transaction,
    the body, commit or the deferred rollback, and the released slot. *)
Definition run_job (j : job) (s : pstate) : pstate :=
  release
    match @BeginTenantTx core core_driver "" (job_tenant j) (p_core s) with
    | (Err _, pool) => set_core pool s
    | (Ok tx, pool) =>
        let undone s1 := set_iv (set_tables (tables (p_iv s)) (p_iv s1)) s1 in
        match job_body j (set_core tx s) with
        | (Ok _, s1) =>
            match @tx_commit core core_driver (p_core s1) pool with
            | (Ok _, pool1) => set_core pool1 s1
            | (Err _, pool1) => set_core pool1 (undone s1)
            end
        | (Err _, s1) => set_core (tx_rollback (p_core s1) pool) (undone s1)
        end
    end.
End analyzer.

(** ** Lemmas *)

(** Every started goroutine that has not run holds one of the slots. *)
Definition slots_ok (s : pstate) : Prop :=
  in_flight s = length (jobs s) ∧ (in_flight s ≤ maxConcurrentEnrichments)%nat.

(** Code that neither starts nor ends a goroutine. *)
Definition same_slots (s s' : pstate) : Prop := in_flight s' = in_flight s ∧ jobs s' = jobs s.

#[global] Instance same_slots_preorder : PreOrder same_slots.
Proof.
  split; [done|]. intros s1 s2 s3 [E1 E2] [E3 E4]. split; congruence.
Qed.

Section analyzer_lemmas.
Context `{!Outside}.

Definition keeps_slots {A} : P A → Prop := along same_slots.
Definition slots {A} (m : P A) : Prop := ∀ s, slots_ok s → slots_ok (m s).2.

Lemma keeps_slots_slots {A} (m : P A) : keeps_slots m → slots m.
Proof. intros Hm s [H1 H2]. destruct (Hm s) as [E1 E2]. unfold slots_ok. by rewrite E1, E2. Qed.

Lemma keeps_slots_ret {A} (a : A) : keeps_slots (ret a).
Proof. done. Qed.
Lemma keeps_slots_fail {A} e : keeps_slots (fail e : P A).
Proof. done. Qed.
Lemma keeps_slots_ask {A} (f : nat → A) : keeps_slots (ask f).
Proof. done. Qed.
Lemma keeps_slots_attempt {A} (m : P A) : keeps_slots m → keeps_slots (attempt m).
Proof. apply along_attempt. Qed.
Lemma keeps_slots_on_core {A} (m : M (session core) db_err A) : keeps_slots (on_core m).
Proof. intros s. unfold on_core. by destruct (m (p_core s)). Qed.
Lemma keeps_slots_on_iv {A} (m : M (session iv_db) db_err A) : keeps_slots (on_iv m).
Proof. intros s. unfold on_iv. by destruct (m (p_iv s)). Qed.
Lemma keeps_slots_on_tx_iv {A} (m : M (session iv_db) db_err A) : keeps_slots (on_tx_iv m).
Proof.
  intros s. unfold on_tx_iv. destruct (aborted (p_core s)); [done|].
  by destruct (m (p_iv s)) as [[]].
Qed.
Lemma keeps_slots_bind {A B} (m : P A) (k : A → P B) :
  keeps_slots m → (∀ a, keeps_slots (k a)) → keeps_slots (bind m k).
Proof. apply (along_bind same_slots). Qed.

Lemma slots_bind {A B} (m : P A) (k : A → P B) :
  slots m → (∀ a, slots (k a)) → slots (bind m k).
Proof.
  intros Hm Hk s Hs. unfold bind. specialize (Hm s Hs). destruct (m s) as [[a|e] s1]; [|done].
  by apply Hk.
Qed.

(** A dispatch takes a slot for the goroutine it starts, or neither. *)
Lemma slots_dispatch key (j : pstate → job) :
  slots (ok <- tryAcquire key ;; if negb ok then ret tt else λ s, start (j s) s).
Proof.
  intros s [H1 H2]. unfold bind, tryAcquire.
  assert (∀ s0, in_flight s0 = in_flight s → jobs s0 = jobs s →
    slots_ok (match (if Nat.ltb (in_flight s0) maxConcurrentEnrichments
       then (Ok true, set_analyzer (Datatypes.S (in_flight s0))
               (<[key := time_now (ev s0)]> (lastDispatch s0)) (bump_ev s0))
       else (Ok false, s0)) with
     | (Ok ok, s1) => (if negb ok then ret tt else λ s, start (j s) s) s1
     | (Err e, s1) => (Err e : res perr unit, s1)
     end).2) as Hacq.
  { intros s0 E1 E2. destruct (Nat.ltb_spec (in_flight s0) maxConcurrentEnrichments); cbn.
    - unfold slots_ok. cbn. rewrite length_app. cbn. rewrite E2. lia.
    - unfold slots_ok. by rewrite E1, E2. }
  destruct (lastDispatch s !! key) as [last|]; [|by apply Hacq].
  destruct (_ <? _); [done|]. by apply Hacq.
Qed.

Lemma keeps_slots_notify x : keeps_slots (notify_opened x).
Proof. intros s. unfold notify_opened. by destruct (String.eqb (ctx_tenant s) ""). Qed.
End analyzer_lemmas.

#[export] Hint Resolve keeps_slots_slots keeps_slots_ret keeps_slots_fail keeps_slots_ask
  keeps_slots_attempt keeps_slots_on_core keeps_slots_on_iv keeps_slots_on_tx_iv
  keeps_slots_notify slots_dispatch : vane.
#[export] Hint Extern 2 (keeps_slots (bind _ _)) => apply keeps_slots_bind; [|intros ?] : vane.
#[export] Hint Extern 3 (slots (bind _ _)) => apply slots_bind; [|intros ?] : vane.
#[export] Hint Extern 2 (keeps_slots (logged _)) =>
  apply keeps_slots_bind; [|intros ?; apply keeps_slots_ret] : vane.

Section analyzer_slots.
Context `{!Outside}.

Lemma handleOutageTransition_slots svc st rd c : slots (handleOutageTransition svc st rd c).
Proof.
  apply slots_bind; [eauto with vane|]. intros [[|]|]; eauto with vane.
  apply slots_bind; [eauto with vane|]. intros [inc|]; [|eauto with vane].
  apply slots_bind; [eauto with vane|]. intros _. apply slots_dispatch.
Qed.

Lemma handleRecoveryTransition_slots svc st rd : slots (handleRecoveryTransition svc st rd).
Proof.
  apply slots_bind; [eauto with vane|]. intros [[|]|]; eauto with vane.
  apply slots_bind; [eauto with vane|]. intros [[]|]; eauto with vane.
Qed.

Lemma HandleTransition_slots svc prev new st rd iv c :
  slots (HandleTransition svc prev new st rd iv c).
Proof.
  unfold HandleTransition. destruct (String.eqb prev new); [eauto with vane|].
  apply slots_bind; [destruct (_ || _); eauto with vane|]. intros _.
  apply slots_bind; [destruct (String.eqb new "degraded"); [apply slots_dispatch|eauto with vane]|].
  intros _. apply slots_bind.
  - destruct (String.eqb new "outage"); [apply handleOutageTransition_slots|eauto with vane].
  - intros _. destruct (String.eqb new "operational");
      [apply handleRecoveryTransition_slots|eauto with vane].
Qed.

Lemma generated_slots g x : keeps_slots (generated g x).
Proof.
  apply keeps_slots_bind; [eauto with vane|]. intros [t|]; [|unfold fail_with; eauto with vane].
  destruct (String.eqb _ _); unfold fail_with; eauto with vane.
Qed.

Lemma resolveCauseHint_slots svc c : keeps_slots (resolveCauseHint svc c).
Proof.
  unfold resolveCauseHint. destruct c as [c|]; [|eauto with vane].
  apply keeps_slots_bind; [eauto with vane|]. intros [[]|]; eauto with vane.
  destruct (_ || _); [eauto with vane|].
  apply keeps_slots_bind; [eauto with vane|]. intros t.
  apply keeps_slots_bind; [eauto with vane|]. intros [[|]|]; eauto with vane.
Qed.

Lemma job_body_slots j : keeps_slots (job_body j).
Proof.
  destruct j; cbn [job_body];
    repeat (apply keeps_slots_bind;
      [first [apply resolveCauseHint_slots|apply generated_slots|solve [eauto with vane]]|intros ?]);
    eauto with vane.
Qed.

Lemma tryAcquire_never_fails key : never_fails (tryAcquire key).
Proof. intros s. unfold tryAcquire. repeat case_match; done. Qed.
Lemma start_never_fails (j : pstate → job) : never_fails (λ s, start (j s) s).
Proof. done. Qed.

Lemma dispatch_never_fails key (j : pstate → job) :
  never_fails (ok <- tryAcquire key ;; if negb ok then ret tt else λ s, start (j s) s).
Proof.
  apply never_fails_bind; [apply tryAcquire_never_fails|]. intros []; cbn;
    [apply start_never_fails|apply never_fails_ret].
Qed.

Lemma HandleTransition_never_fails svc prev new st rd iv c :
  never_fails (HandleTransition svc prev new st rd iv c).
Proof.
  unfold HandleTransition. destruct (String.eqb prev new); [eauto with vane|].
  apply never_fails_bind; [destruct (_ || _); eauto with vane|]. intros _.
  apply never_fails_bind;
    [destruct (String.eqb new "degraded"); [apply dispatch_never_fails|eauto with vane]|].
  intros _. apply never_fails_bind.
  - destruct (String.eqb new "outage"); [|eauto with vane].
    apply never_fails_bind; [eauto with vane|]. intros [[|]|]; eauto with vane.
    apply never_fails_bind; [eauto with vane|]. intros [inc|]; [|eauto with vane].
    apply never_fails_bind; [done|]. intros _. apply dispatch_never_fails.
  - intros _. destruct (String.eqb new "operational"); [|eauto with vane].
    apply never_fails_bind; [eauto with vane|]. intros [[|]|]; eauto with vane.
    apply never_fails_bind; [eauto with vane|]. intros [[]|]; eauto with vane.
    apply dispatch_never_fails.
Qed.

Lemma run_job_slots j s : in_flight (run_job j s) = Nat.pred (in_flight s) ∧ jobs (run_job j s) = jobs s.
Proof.
  unfold run_job, release. cbn. destruct (BeginTenantTx "" (job_tenant j) (p_core s)) as [[tx|e] pool];
    [|done]. destruct (job_body_slots j (set_core tx s)) as [E1 E2].
  destruct (job_body j (set_core tx s)) as [[[]|e] s1]; cbn in *; [|by rewrite E1, E2].
  destruct (tx_commit (p_core s1) pool) as [[|] pool1]; cbn; by rewrite E1, E2.
Qed.
End analyzer_slots.

(** ** Late enrichment *)

Definition same_core (s s' : pstate) : Prop := p_core s' = p_core s.
#[global] Instance same_core_preorder : PreOrder same_core.
Proof. split; [done|]. unfold same_core. intros s1 s2 s3 ? ?. congruence. Qed.

Section late_enrichment.
Context `{!Outside}.

Lemma generated_same_core g x : along same_core (generated g x).
Proof.
  apply (along_bind same_core); [done|]. intros [t|]; [|done]. by destruct (String.eqb _ _).
Qed.

Lemma resolveCauseHint_same_core svc c : along same_core (resolveCauseHint svc c).
Proof.
  unfold resolveCauseHint. destruct c as [c|]; [|done].
  apply (along_bind same_core); [done|]. intros [[]|]; [|done..].
  destruct (_ || _); [done|]. apply (along_bind same_core); [done|]. intros t.
  apply (along_bind same_core); [done|]. by intros [[|]|].
Qed.

(** A resolved incident refuses the late write. *)
Lemma update_unresolved_resolved (D : Driver) id f (c : session core) r :
  incidents (tables c) !! id = Some r → resolved_row (inc r) = true →
  ∃ e, (update_unresolved id f c).1 = Err e.
Proof.
  intros Hr Hres. unfold update_unresolved, bind.
  destruct (mustExist id c) as [[u|e] c1] eqn:Em; [|eauto].
  apply mustExist_own in Em as [_ Ht].
  destruct (update_incidents id _ _ c1) as [[o|e] c2] eqn:Eu; [|eauto].
  destruct o as [x|]; [|cbn; eauto].
  apply update_incidents_own in Eu as [_ (r1 & Hr1 & _ & Hp & _)].
  rewrite Ht in Hr1. simplify_eq. by rewrite Hres in Hp.
Qed.

(** The incident a goroutine writes, if it writes one. *)
Definition job_incident (j : job) : option string :=
  match j with
  | JobDegraded _ _ _ _ _ _ => None
  | JobOutage _ _ _ _ i _ | JobClosing _ _ i => Some i
  end.

Lemma job_body_resolved j s i r :
  job_incident j = Some i → incidents (tables (p_core s)) !! i = Some r →
  resolved_row (inc r) = true → ∃ e, (job_body j s).1 = Err e.
Proof.
  assert (∀ A (m : P A) (k : A → P unit), along same_core m →
    (∀ a s1, p_core s1 = p_core s → ∃ e, (k a s1).1 = Err e) → ∃ e, (bind m k s).1 = Err e) as Hb.
  { intros A m k Hm Hk. unfold bind. specialize (Hm s). destruct (m s) as [[a|e] s1]; [|eauto].
    by apply Hk. }
  assert (∀ s1 f, p_core s1 = p_core s → incidents (tables (p_core s)) !! i = Some r →
    resolved_row (inc r) = true →
    ∃ e, (on_core (@update_unresolved core_driver i f) s1).1 = Err e) as Hu.
  { intros s1 f E Hr Hres. unfold on_core. rewrite E.
    destruct (update_unresolved_resolved core_driver i f (p_core s) r Hr Hres) as [e He].
    destruct (update_unresolved i f (p_core s)) as [r1 c]. cbn in He. subst r1. eauto. }
  intros Hi Hr Hres. destruct j; cbn in Hi; simplify_eq; cbn [job_body].
  - apply Hb; [apply resolveCauseHint_same_core|]. intros h s1 E1. unfold bind.
    pose proof (generated_same_core GenOutage
      (with_cause h (buildAnalysisInput svc status reading)) s1) as E2.
    destruct (generated _ _ s1) as [[t|e] s2]; [|eauto]. apply Hu; [|done..].
    unfold same_core in E2. cbn in E2. congruence.
  - apply Hb; [apply generated_same_core|]. intros h s1 E1. by apply Hu.
Qed.
End late_enrichment.

(** ** Properties *)

Inductive analyzer_event :=
| Transitioned (svc : Service) (previous new : string) (st : SLOStatus)
    (reading : option ServiceReading) (intervalID : string) (cause : option client)
| JobRuns (k : nat).

Definition analyzer_step `{!Outside} (e : analyzer_event) (s : pstate) : pstate :=
  match e with
  | Transitioned x prev new st rd iv c => (HandleTransition x prev new st rd iv c s).2
  | JobRuns k => match jobs s !! k with
                 | Some j => run_job j (set_jobs (delete k (jobs s)) s)
                 | None => s
                 end
  end.

(** enrichment is bounded and never fails the poll.  Whatever transitions
    arrive and whenever the goroutines run, at most four are in flight, each
    holding exactly one slot that its end gives back; and [HandleTransition]
    always returns without an error. *)
Theorem enrichment_bounded `{!Outside} (l : list analyzer_event) (s : pstate) :
  slots_ok s →
  slots_ok (fold_left (λ s e, analyzer_step e s) l s) ∧
  ∀ x prev new st rd iv c, is_ok (HandleTransition x prev new st rd iv c s).1 = true.
Proof.
  intros Hs. split; [|intros; apply HandleTransition_never_fails].
  revert s Hs. induction l as [|e l IH]; intros s Hs; [done|]. cbn. apply IH. destruct e; cbn.
  - by apply HandleTransition_slots.
  - destruct (jobs s !! k) as [j|] eqn:Hk; [|done].
    destruct (run_job_slots j (set_jobs (delete k (jobs s)) s)) as [E1 E2].
    destruct Hs as [H1 H2]. unfold slots_ok. rewrite E1, E2. cbn.
    apply lookup_lt_Some in Hk as Hlt. rewrite length_delete by done. lia.
Qed.

(** late enrichment cannot touch a resolved incident.  When an operator
    resolves an incident while its description or its closing comment is being
    generated, the goroutine that finishes later changes no table, whatever the
    text it brings. *)
Theorem late_enrichment_discarded `{!Outside} j (s : pstate) i r :
  job_incident j = Some i → incidents (tables (p_core s)) !! i = Some r →
  IncStatus (inc r) = "resolved" →
  tables (p_core (run_job j s)) = tables (p_core s) ∧
  tables (p_iv (run_job j s)) = tables (p_iv s).
Proof.
  intros Hi Hr Hres. unfold run_job. cbn zeta.
  assert (tables (@BeginTenantTx core core_driver "" (job_tenant j) (p_core s)).2 = tables (p_core s) ∧
    ∀ tx, (@BeginTenantTx core core_driver "" (job_tenant j) (p_core s)).1 = Ok tx → tables tx = tables (p_core s))
    as [Hpool Htx].
  { destruct (BeginTenantTx "" (job_tenant j) (p_core s)) as [r' p'] eqn:EB.
    apply BeginTenantTx_inv in EB as (Hp & _ & _ & Ht). split; [done|]. cbn. intros tx ->. apply Ht. }
  destruct (@BeginTenantTx core core_driver "" (job_tenant j) (p_core s)) as [[tx|e] pool]; [|done]. cbn in *.
  specialize (Htx tx eq_refl).
  destruct (job_body_resolved j (set_core tx s) i r Hi) as [e He].
  - cbn. by rewrite Htx.
  - unfold resolved_row. by rewrite Hres.
  - destruct (job_body j (set_core tx s)) as [r1 s1]. cbn in He. subst r1. cbn. done.
Qed.

(** ** Witnesses *)

Definition demo_job : job :=
  JobClosing "tenant-a" (buildAnalysisInput demo_service
    {| SsState := "ok"; SsErrorBudgetRemaining := 1%float; SsSLI := 100%float;
       SsTarget := 99%float; SsTimeframe := "7d"; SsRequestCount := 1 |} None) "inc-1".

Definition demo_resolved_state : pstate :=
  PState (Session (tables (@Transition reliable "inc-1" "resolved" "" None demo_incident_session).2)
            "" false None false 9)
    demo_iv 0 ∅ [] [] "" "" 0.

Lemma enrichment_bounded_witness :
  let l := [Transitioned demo_service "operational" "degraded"
              {| SsState := "ok"; SsErrorBudgetRemaining := 1%float; SsSLI := 100%float;
                 SsTarget := 99%float; SsTimeframe := "7d"; SsRequestCount := 1 |} None "iv" None;
            JobRuns 0] in
  slots_ok (fold_left (λ s e, @analyzer_step unreachable_outside e s) l demo_resolved_state).
Proof.
  cbv zeta. apply (@enrichment_bounded unreachable_outside _ demo_resolved_state).
  split; [reflexivity|]. vm_compute. lia.
Defined.

Lemma late_enrichment_discarded_witness :
  tables (p_core (@run_job unreachable_outside demo_job demo_resolved_state)) =
  tables (p_core demo_resolved_state).
Proof.
  destruct (incidents (tables (p_core demo_resolved_state)) !! "inc-1") as [r|] eqn:E;
    [|vm_compute in E; discriminate E].
  apply (@late_enrichment_discarded unreachable_outside demo_job demo_resolved_state "inc-1" r);
    [reflexivity|exact E|].
  vm_compute in E. injection E as <-. reflexivity.
Defined.
