(* ===== verification/Poller.v ===== *)
(** * The Datadog poller (internal/poller/poller.go)

    One cycle: per tenant, a transaction with that tenant's client; per service,
    a fetch, a classification, an interval on a connection of its own, the status
    on the tenant's transaction, and the analyzer on a transition. *)

From stdpp Require Import numbers strings gmap list sorting.
From Stdlib Require Import ZArith Floats.
From S2P Require Import Prelude GoNum GoFloat Db Schema Services Intervals Incidents Retry BurnRate World Analyzer.

#[local] Open Scope Z_scope.
#[local] Open Scope go_scope.

Definition maxFetchAttempts : Z := 3.
Definition recentWindowLag : Z := 60 * second.
Definition sloTypeMetric : string := "metric".

(** ** Classification helpers *)

Definition normalizeStatus (state : string) : string :=
  if String.eqb state "ok" then "operational"
  else if String.eqb state "warning" then "degraded"
  else if String.eqb state "breached" then "outage"
  else "degraded".

Definition classifyByState (state : string) : string := normalizeStatus state.

Definition newServiceReading (short long : windowCounts) (target : float)
    (previousErrorAt : option Z) (now : Z) : ServiceReading :=
  let burnShort := burnRate (Errors short) (Requests short) target in
  let burnLong := if 0 <? Requests long then burnRate (Errors long) (Requests long) target
                  else burnShort in
  let lastErrorAt := if 0 <? Errors short then Some now else previousErrorAt in
  {| BurnShort := burnShort; BurnLong := burnLong; ShortErrors := Errors short;
     ShortRequests := Requests short; ReadAt := now; ReadingLastErrorAt := lastErrorAt |}.

Definition sloStatusFromWindows (w : SLOWindows) : SLOStatus :=
  let requests := Requests (SwShort w) in
  let sli :=
    if 0 <? requests then
      let errs := Z.min (Z.max (Errors (SwShort w)) 0) requests in
      (100 * float_of_int64 (wrap64 (requests - errs)) / float_of_int64 requests)%float
    else if Requests (SwLong w) <=? 0 then 100%float
    else SwSLI w in
  {| SsState := SwState w; SsErrorBudgetRemaining := (sli - SwTarget w)%float; SsSLI := sli;
     SsTarget := SwTarget w; SsTimeframe := SwTimeframe w; SsRequestCount := requests |}.

Section poller.
Context `{!Outside}.

(** ** Fetching *)

Definition zero_windows : SLOWindows :=
  {| SwTarget := 0%float; SwTimeframe := ""; SwState := ""; SwSLI := 0%float;
     SwShort := WindowCounts 0 0; SwLong := WindowCounts 0 0; HasSeries := false |}.
Definition zero_status : SLOStatus :=
  {| SsState := ""; SsErrorBudgetRemaining := 0%float; SsSLI := 0%float; SsTarget := 0%float;
     SsTimeframe := ""; SsRequestCount := 0 |}.

Definition wait_backoff (_ : Z) (s : pstate) : bool * pstate := (timer_fires_first (ev s), bump_ev s).

Definition fetching {T} (r : pstate → res fetch_err T * pstate) : P T :=
  λ s, match r s with
       | (Ok a, s1) => (Ok a, s1)
       | (Err e, s1) => (Err (PFetch e), s1)
       end.

Definition FetchWindowsWithRetry (sloID : string) (end_ short long maxAttempts : Z) : P SLOWindows :=
  fetching (retryFetch
    (λ s, (fetch_windows (ev s) (provider s) sloID end_ short long, bump_ev s))
    wait_backoff zero_windows maxAttempts).

Definition FetchStatusWithRetry (sloID : string) (from to maxAttempts : Z) : P SLOStatus :=
  fetching (retryFetch
    (λ s, (fetch_status (ev s) (provider s) sloID from to, bump_ev s))
    wait_backoff zero_status maxAttempts).

(** ** One service *)

Definition zeroed_windows (svc : Service) (w : SLOWindows) : SLOWindows :=
  if negb (HasSeries w) && String.eqb (SLOType svc) sloTypeMetric then
    {| SwTarget := SwTarget w; SwTimeframe := SwTimeframe w; SwState := SwState w;
       SwSLI := SwSLI w; SwShort := WindowCounts 0 0; SwLong := WindowCounts 0 0;
       HasSeries := HasSeries w |}
  else w.

Definition burn_path (svc : Service) (w : SLOWindows) : bool :=
  flt 0%float (SwTarget w) && (HasSeries w || String.eqb (SLOType svc) sloTypeMetric).

(** The classification of a service: its new status, the reading of the burn
    path, and Datadog's view for the analyzer. *)
Definition classify (svc : Service) (now end_ : Z) (w : SLOWindows) :
    P (string * option ServiceReading * SLOStatus) :=
  let short := SwShort w in
  let long := SwLong w in
  if burn_path svc w then
    let current := classifyBurn {|
      Short := short; Long := long; Target := SwTarget w; Previous := CurrentStatus svc;
      LastErrorAt := SvcLastErrorAt svc; LastChangeAt := LastStatusChangeAt svc; Now := now |} in
    ret (current, Some (newServiceReading short long (SwTarget w) (SvcLastErrorAt svc) now),
         sloStatusFromWindows w)
  else
    status <- FetchStatusWithRetry (SLOID svc) (time_add end_ (- shortWindow)) end_ maxFetchAttempts ;;
    ret (classifyByState (SsState status), None, status).

(** The service's status, with its reading when there is one. *)
Definition persist_status (svc : Service) (current : string) (reading : option ServiceReading) :
    P unit :=
  match reading with
  | Some rd => on_core (@UpdateStatusAndReading core_driver (SvcID svc) current rd)
  | None => on_core (@UpdateStatus core_driver (SvcID svc) current)
  end.

Definition pollService (svc : Service) : P unit :=
  now <- ask time_now ;;
  let end_ := time_add now (- recentWindowLag) in
  windows <- FetchWindowsWithRetry (SLOID svc) end_ shortWindow longWindow maxFetchAttempts ;;
  let windows := zeroed_windows svc windows in
  c <- classify svc now end_ windows ;;
  let '(current, reading, status) := c in
  let transitioned := negb (String.eqb current (CurrentStatus svc)) in
  intervalID <- on_iv (@OpenOrExtend iv_driver (SvcID svc) current
                         (SsErrorBudgetRemaining status) now) ;;
  persist_status svc current reading ;;;
  if transitioned then
    λ s, HandleTransition svc (CurrentStatus svc) current status reading intervalID
           (Some (provider s)) s
  else ret tt.

(** ** One tenant *)

(** The loop over the services: whether one succeeded, and the last error. *)
Fixpoint poll_services (l : list Service) (anySuccess : bool) (lastErr : option perr) :
    P (bool * option perr) :=
  match l with
  | [] => ret (anySuccess, lastErr)
  | svc :: l =>
      if String.eqb (MonitorMode svc) "polling" then poll_services l anySuccess lastErr
      else
        r <- attempt (pollService svc) ;;
        match r with
        | Err e => poll_services l anySuccess (Some e)
        | Ok _ => poll_services l true lastErr
        end
  end.

Definition mark_outcome (anySuccess : bool) (lastErr : option perr) : P unit :=
  if anySuccess then logged (on_core (@MarkDatadogChecked core_driver))
  else match lastErr with
       | Some e => logged (on_core (@MarkDatadogInvalid core_driver (err_text e)))
       | None => ret tt
       end.

Definition pollOnce : P unit :=
  services <- attempt (on_core (@List core_driver)) ;;
  match services with
  | Err _ => ret tt
  | Ok l =>
      outcome <- poll_services l false None ;;
      mark_outcome outcome.1 outcome.2
  end.

(** ** One cycle *)

(** The turn of one tenant: its transaction, its client, its services, and
    the commit (or the rollback after a failed one). *)
Definition poll_tenant (per_tenant_clients : bool) (tenant : string) (s : pstate) : pstate :=
  match @BeginTenantTx core core_driver "" tenant (p_core s) with
  | (Err _, pool) => set_core pool s
  | (Ok tx, pool) =>
      let s0 := set_ctx_tenant tenant (set_core tx s) in
      let turn s1 :=
        let s2 := set_ctx_tenant (ctx_tenant s) (pollOnce s1).2 in
        match @tx_commit core core_driver (p_core s2) pool with
        | (Ok _, pool1) => set_core pool1 s2
        | (Err _, pool1) => set_core (tx_rollback (p_core s2) pool1) s2
        end in
      if per_tenant_clients then
        let answer := resolve_client (ev s0) tenant in
        match answer with
        | Err _ => set_core (tx_rollback (p_core s0) pool) (bump_ev s)
        | Ok c => turn (set_provider c (bump_ev s0))
        end
      else turn s0
  end.

(** [TenantIterationEnabled]: the tenants' listing is [Some], what it answers
    its argument. *)
Definition TenantIterationEnabled (tenants : option (res db_err (list string))) : bool :=
  match tenants with Some _ => true | None => false end.

Definition pollCycle (tenants : option (res db_err (list string))) (per_tenant_clients : bool)
    (s : pstate) : pstate :=
  match tenants with
  | None => (pollOnce s).2
  | Some (Err _) => s
  | Some (Ok l) => foldl (λ s t, poll_tenant per_tenant_clients t s) s l
  end.

(** [Run]: one cycle at once and one per tick until the context is done; the
    goroutines the analyzer started run in between, the k-th oldest first. *)
Inductive run_event :=
| Tick (tenants : option (res db_err (list string)))
| Finish (k : nat).

Definition run_event_step (per_tenant_clients : bool) (e : run_event) (s : pstate) : pstate :=
  match e with
  | Tick tenants => pollCycle tenants per_tenant_clients s
  | Finish k =>
      match jobs s !! k with
      | Some j => run_job j (set_jobs (delete k (jobs s)) s)
      | None => s
      end
  end.

Definition Run (per_tenant_clients done : bool) (tenants : option (res db_err (list string)))
    (events : list run_event) (s : pstate) : pstate :=
  if done then s
  else foldl (λ s e, run_event_step per_tenant_clients e s) (pollCycle tenants per_tenant_clients s)
         events.
End poller.

(** ** Lemmas: what a cycle may touch *)

Record prel (s s' : pstate) : Prop := {
  pr_core : isolated (app_tenant (p_core s)) (bypass_rls (p_core s))
              (tables (p_core s)) (tables (p_core s'));
  pr_app : app_tenant (p_core s') = app_tenant (p_core s);
  pr_bypass : bypass_rls (p_core s') = bypass_rls (p_core s);
  pr_ctx : ctx_tenant s' = ctx_tenant s;
  pr_jobs : ∀ j, j ∈ jobs s' → j ∈ jobs s ∨ job_tenant j = ctx_tenant s;
  pr_mails : ∀ m, m ∈ mails s' → m ∈ mails s ∨ m.1 = ctx_tenant s;
}.

#[global] Instance prel_preorder : PreOrder prel.
Proof.
  split.
  - intros s. split; try done; by left.
  - intros s1 s2 s3 [C1 A1 B1 X1 J1 M1] [C2 A2 B2 X2 J2 M2]. split; try congruence.
    + rewrite A1, B1 in C2. by etrans.
    + intros j [H| ->]%J2; [auto|]. right. congruence.
    + intros m [H| ->]%M2; [auto|]. right. congruence.
Qed.

Section poller_lemmas.
Context `{!Outside}.

Definition contained {A} : P A → Prop := along prel.

Lemma contained_bind {A B} (m : P A) (k : A → P B) :
  contained m → (∀ a, contained (k a)) → contained (bind m k).
Proof. apply (along_bind prel). Qed.
Lemma contained_ret {A} (a : A) : contained (ret a).
Proof. apply (along_ret prel). Qed.
Lemma contained_fail {A} e : contained (fail e : P A).
Proof. apply (along_fail prel). Qed.
Lemma contained_attempt {A} (m : P A) : contained m → contained (attempt m).
Proof. apply (along_attempt prel). Qed.
Lemma contained_logged {A} (m : P A) : contained m → contained (logged m).
Proof. apply (along_logged prel). Qed.

(** Any change but to the session, the jobs, the mails and the tenant. *)
Lemma prel_same s s' :
  p_core s' = p_core s → ctx_tenant s' = ctx_tenant s → jobs s' = jobs s → mails s' = mails s →
  prel s s'.
Proof.
  intros E1 E2 E3 E4. split; rewrite ?E1, ?E2, ?E3, ?E4; try done; by left.
Qed.

Lemma contained_ask {A} (f : nat → A) : contained (ask f).
Proof. intros s. by apply prel_same. Qed.
Lemma contained_on_core {A} (m : M (session core) db_err A) :
  preserves isolated m → contained (on_core m).
Proof.
  intros Hm s. unfold on_core. destruct (Hm (p_core s)) as (H1 & H2 & H3).
  destruct (m (p_core s)) as [r c]. cbn in *. split; cbn; try done; by left.
Qed.
Lemma contained_on_iv {A} (m : M (session iv_db) db_err A) : contained (on_iv m).
Proof. intros s. unfold on_iv. destruct (m (p_iv s)). by apply prel_same. Qed.
Lemma contained_on_tx_iv {A} (m : M (session iv_db) db_err A) : contained (on_tx_iv m).
Proof.
  intros s. unfold on_tx_iv. destruct (aborted (p_core s)); [by apply prel_same|].
  destruct (m (p_iv s)) as [[a|e] c]; [by apply prel_same|].
  split; cbn; try done; by left.
Qed.
Lemma contained_fetch {T} (f : pstate → res fetch_err T * pstate) :
  (∀ s, prel s (f s).2) → contained (fetching f).
Proof. intros Hf s. unfold fetching. specialize (Hf s). by destruct (f s) as [[]]. Qed.

Lemma preserves_isolated {A} (m : M (session core) db_err A) :
  preserves inc_rel m → preserves isolated m.
Proof. intros Hm s. destruct (Hm s) as ([Hi _] & ?). done. Qed.

Lemma contained_dispatch key (j : pstate → job) :
  (∀ s, job_tenant (j s) = ctx_tenant s) →
  contained (ok <- tryAcquire key ;; if negb ok then ret tt else λ s, start (j s) s).
Proof.
  intros Hj. apply contained_bind.
  - intros s. unfold tryAcquire. destruct (lastDispatch s !! key).
    + destruct (_ <? _); [by apply prel_same|].
      destruct (Nat.ltb _ _); by apply prel_same.
    + destruct (Nat.ltb _ _); by apply prel_same.
  - intros []; [|apply contained_ret]. intros s. split; cbn; try done; [|by left].
    intros j' [?| ->%list_elem_of_singleton]%elem_of_app; auto.
Qed.

Lemma contained_notify x : contained (notify_opened x).
Proof.
  intros s. unfold notify_opened. destruct (String.eqb (ctx_tenant s) ""); [by apply prel_same|].
  split; cbn; try done; [by left|].
  intros m [?| ->%list_elem_of_singleton]%elem_of_app; auto.
Qed.
End poller_lemmas.

#[export] Hint Resolve contained_ret contained_fail contained_attempt contained_logged
  contained_ask contained_on_core contained_on_iv contained_on_tx_iv contained_dispatch
  contained_notify preserves_isolated : vane.
#[export] Hint Extern 2 (contained (bind _ _)) => apply contained_bind; [|intros ?] : vane.

Section poller_contained.
Context `{!Outside}.

Lemma UpdateStatusAnalysis_isolated id a :
  preserves isolated (@UpdateStatusAnalysis core_driver id a).
Proof. apply (run_service_op_isolated (OpUpdateStatusAnalysis id a)). Qed.

Lemma HasOpen_isolated id : preserves isolated (@HasOpenIncidentForService core_driver id).
Proof. apply (preserves_query isolated). Qed.
Lemma AllLinked_isolated id : preserves isolated (@AllLinkedServicesOperational core_driver id).
Proof. apply (preserves_query isolated). Qed.
Lemma Create_incident_isolated x l : preserves isolated (@Incidents.Create core_driver x l).
Proof.
  apply (preserves_runInTx isolated); [apply isolated_no_tenant|].
  apply preserves_isolated, insert_rel.
Qed.

Lemma handleOutageTransition_contained svc st rd c :
  contained (handleOutageTransition svc st rd c).
Proof.
  apply contained_bind; [auto using contained_attempt, contained_on_core, HasOpen_isolated|].
  intros [[|]|]; eauto with vane.
  apply contained_bind; [auto using contained_attempt, contained_on_core, Create_incident_isolated|].
  intros [x|]; [|eauto with vane].
  apply contained_bind; [eauto with vane|]. intros _. by apply contained_dispatch.
Qed.

Lemma handleRecoveryTransition_contained svc st rd :
  contained (handleRecoveryTransition svc st rd).
Proof.
  apply contained_bind; [auto using contained_attempt, contained_on_core, HasOpen_isolated|].
  intros [[|]|]; eauto with vane.
  apply contained_bind; [auto using contained_attempt, contained_on_core, AllLinked_isolated|].
  intros [[]|]; eauto with vane.
Qed.

Lemma HandleTransition_contained svc prev new st rd iv c :
  contained (HandleTransition svc prev new st rd iv c).
Proof.
  unfold HandleTransition. destruct (String.eqb prev new); [eauto with vane|].
  apply contained_bind.
  { destruct (_ || _); [|eauto with vane].
    auto using contained_logged, contained_on_core, UpdateStatusAnalysis_isolated. }
  intros _. apply contained_bind.
  { destruct (String.eqb new "degraded"); [by apply contained_dispatch|eauto with vane]. }
  intros _. apply contained_bind.
  { destruct (String.eqb new "outage");
      [apply handleOutageTransition_contained|eauto with vane]. }
  intros _. destruct (String.eqb new "operational");
    [apply handleRecoveryTransition_contained|eauto with vane].
Qed.

Lemma bump_ev_prel s : prel s (bump_ev s).
Proof. by apply prel_same. Qed.

Lemma classify_contained svc now end_ w : contained (classify svc now end_ w).
Proof.
  unfold classify. destruct (burn_path svc w); [eauto with vane|].
  apply contained_bind; [|eauto with vane]. apply contained_fetch. intros s.
  apply (along_retry prel); intros; apply bump_ev_prel.
Qed.

Lemma persist_status_contained svc cur rd : contained (persist_status svc cur rd).
Proof.
  destruct rd as [rd|]; cbn; apply contained_on_core.
  - apply (run_service_op_isolated (OpUpdateStatusAndReading (SvcID svc) cur rd)).
  - apply (run_service_op_isolated (OpUpdateStatus (SvcID svc) cur)).
Qed.

Lemma pollService_contained svc : contained (pollService svc).
Proof.
  apply contained_bind; [eauto with vane|]. intros now. cbv zeta.
  apply contained_bind.
  { apply contained_fetch. intros s. apply (along_retry prel); intros; apply bump_ev_prel. }
  intros w. apply contained_bind; [apply classify_contained|]. intros [[cur rd] st].
  apply contained_bind; [eauto with vane|]. intros ivid.
  apply contained_bind; [apply persist_status_contained|]. intros _.
  destruct (negb _); [|eauto with vane]. intros s. apply HandleTransition_contained.
Qed.

Lemma poll_services_contained l any last : contained (poll_services l any last).
Proof.
  revert any last. induction l as [|svc l IH]; intros any last; cbn [poll_services];
    [eauto with vane|].
  destruct (String.eqb _ _); [done|].
  apply contained_bind; [apply contained_attempt, pollService_contained|]. intros []; done.
Qed.

Lemma pollOnce_contained : contained pollOnce.
Proof.
  apply contained_bind; [apply contained_attempt, contained_on_core, (preserves_query isolated)|].
  intros [l|]; [|eauto with vane].
  apply contained_bind; [apply poll_services_contained|]. intros [[] [e|]]; cbn;
    try apply contained_ret; apply contained_logged, contained_on_core.
  - apply (run_service_op_isolated OpMarkDatadogChecked).
  - apply (run_service_op_isolated OpMarkDatadogChecked).
  - apply (run_service_op_isolated (OpMarkDatadogInvalid (err_text e))).
Qed.

Lemma generated_contained g x : contained (generated g x).
Proof.
  apply contained_bind; [eauto with vane|]. intros [t|]; [|apply contained_fail].
  destruct (String.eqb _ _); [apply contained_fail|eauto with vane].
Qed.

Lemma resolveCauseHint_contained svc c : contained (resolveCauseHint svc c).
Proof.
  unfold resolveCauseHint. destruct c as [c|]; [|eauto with vane].
  apply contained_bind; [eauto with vane|]. intros [[]|]; eauto with vane.
  destruct (_ || _); [eauto with vane|].
  apply contained_bind; [eauto with vane|]. intros t.
  apply contained_bind; [eauto with vane|]. intros [[|]|]; eauto with vane.
Qed.

Lemma job_body_contained j : contained (job_body j).
Proof.
  destruct j; cbn [job_body].
  - apply contained_bind; [apply resolveCauseHint_contained|]. intros h.
    apply contained_bind; [apply generated_contained|]. intros a.
    apply contained_bind; [|eauto with vane].
    auto using contained_logged, contained_on_core, UpdateStatusAnalysis_isolated.
  - apply contained_bind; [apply resolveCauseHint_contained|]. intros h.
    apply contained_bind; [apply generated_contained|]. intros a. apply contained_on_core.
    apply preserves_isolated, update_unresolved_rel. intros i x. by apply incident_ok_same.
  - apply contained_bind; [apply generated_contained|]. intros a. apply contained_on_core.
    apply preserves_isolated, update_unresolved_rel. intros i x. by apply incident_ok_same.
Qed.
End poller_contained.

(** ** Lemmas: cycles *)

Section cycles.
Context `{!Outside}.

(** A pool session and goroutines that never were tenant [u]'s business. *)
Record away (u : string) (s : pstate) : Prop := {
  aw_app : app_tenant (p_core s) = "";
  aw_bypass : bypass_rls (p_core s) = false;
  aw_ctx : ctx_tenant s = "";
  aw_jobs : ∀ j, j ∈ jobs s → job_tenant j ≠ u;
}.

(** From [s] to [s'] nothing of tenant [u] changed and no mail is [u]'s. *)
Definition spares (u : string) (s s' : pstate) : Prop :=
  untouched u (tables (p_core s)) (tables (p_core s')) ∧
  (∀ m, m ∈ mails s' → m ∈ mails s ∨ m.1 ≠ u).

#[global] Instance spares_preorder u : PreOrder (spares u).
Proof.
  split.
  - intros s. split; [reflexivity|by left].
  - intros s1 s2 s3 [U1 M1] [U2 M2]. split; [by etrans|].
    intros m [H1|H1]%M2; [auto|by right].
Qed.

Lemma tx_commit_tables (D : Driver) (tx p : session core) r p' :
  tx_commit tx p = (r, p') →
  app_tenant p' = app_tenant p ∧ bypass_rls p' = bypass_rls p ∧
  tables p' = match r with Ok _ => tables tx | Err _ => tables p end.
Proof.
  unfold tx_commit. destruct (aborted tx); [intros; by simplify_eq|].
  destruct (event_fails _); intros; by simplify_eq.
Qed.

(** The turn of another tenant, or of none. *)
Lemma turn_spares u t (s tx s2 : pstate) :
  away u s → u ≠ "" → (t ≠ u) →
  app_tenant (p_core tx) = t → bypass_rls (p_core tx) = false → ctx_tenant tx = t →
  tables (p_core tx) = tables (p_core s) → jobs tx = jobs s → mails tx = mails s →
  prel tx s2 →
  untouched u (tables (p_core s)) (tables (p_core s2)) ∧
  (∀ j, j ∈ jobs s2 → job_tenant j ≠ u) ∧ (∀ m, m ∈ mails s2 → m ∈ mails s ∨ m.1 ≠ u).
Proof.
  intros [Ha Hb Hc Hj] Hu Ht Ea Eb Ec Et Ej Em [C A B X J L]. split_and!.
  - rewrite <- Et. eapply isolated_untouched; [by apply C|]. right. congruence.
  - intros j [H1| ->]%J; [apply Hj; congruence|congruence].
  - intros m [H1| ->]%L; [left; congruence|right; congruence].
Qed.

Lemma poll_tenant_spares u clients t s :
  u ≠ "" → t ≠ u → away u s → away u (poll_tenant clients t s) ∧ spares u s (poll_tenant clients t s).
Proof.
  intros Hu Ht Haw. pose proof Haw as [Ha Hb Hc Hj]. unfold poll_tenant.
  destruct (BeginTenantTx "" t (p_core s)) as [[tx|e] pool] eqn:EB;
    apply BeginTenantTx_inv in EB as (Ep1 & Ep2 & Ep3 & Htx).
  2:{ split; [split; cbn; try congruence; done|split; cbn; [by rewrite Ep1|by left]]. }
  destruct Htx as (Et1 & Et2 & Et3 & _). cbn zeta.
  assert (∀ s1, p_core s1 = tx → ctx_tenant s1 = t → jobs s1 = jobs s → mails s1 = mails s →
    let s2 := set_ctx_tenant (ctx_tenant s) (pollOnce s1).2 in
    let s3 := match @tx_commit core core_driver (p_core s2) pool with
              | (Ok _, pool1) => set_core pool1 s2
              | (Err _, pool1) => set_core (tx_rollback (p_core s2) pool1) s2
              end in away u s3 ∧ spares u s s3) as Hturn.
  { intros s1 E1 E2 E3 E4. cbn zeta.
    destruct (turn_spares u t s s1 (pollOnce s1).2) as (U & J & L); try congruence.
    { apply pollOnce_contained. }
    destruct (tx_commit _ pool) as [r pool1] eqn:EC.
    apply tx_commit_tables in EC as (F1 & F2 & F3). cbn in F3.
    destruct r as [[]|e]; (split; [split; cbn; [congruence|congruence|done|done]|split; cbn; [|done]]).
    - by rewrite F3.
    - by rewrite F3, Ep1. }
  destruct clients; [|by apply (Hturn (set_ctx_tenant t (set_core tx s)))].
  destruct (resolve_client _ t) as [c|];
    [by apply (Hturn (set_provider c (bump_ev (set_ctx_tenant t (set_core tx s)))))|].
  split; [split; cbn; try congruence; done|]. split; cbn; [by rewrite Ep1|by left].
Qed.

Lemma run_job_spares u j s :
  u ≠ "" → job_tenant j ≠ u → away u s →
  away u (run_job j s) ∧ spares u s (run_job j s).
Proof.
  intros Hu Hj Haw. pose proof Haw as [Ha Hb Hc Hjs].
  assert (∀ s3, away u s3 → spares u s s3 → away u (release s3) ∧ spares u s (release s3)) as Hrel
    by (intros s3 [] []; split; split; done).
  unfold run_job. cbn zeta.
  destruct (BeginTenantTx "" (job_tenant j) (p_core s)) as [[tx|e] pool] eqn:EB;
    apply BeginTenantTx_inv in EB as (Ep1 & Ep2 & Ep3 & Htx).
  2:{ apply Hrel; split; cbn; try congruence; try done; [by rewrite Ep1|by left]. }
  destruct Htx as (Et1 & Et2 & Et3 & _).
  pose proof (job_body_slots j (set_core tx s)) as [_ Ej].
  pose proof (job_body_contained j (set_core tx s)) as Hp.
  destruct (job_body j (set_core tx s)) as [r s1]. cbn [snd] in *.
  assert (untouched u (tables (p_core s)) (tables (p_core s1))) as Hun.
  { destruct Hp as [C _ _ _ _ _]. cbn in C. rewrite <- Et1. eapply isolated_untouched;
      [apply C; congruence|]. right. congruence. }
  assert (∀ m, m ∈ mails s1 → m ∈ mails s ∨ m.1 ≠ u) as Hm.
  { intros m [?|Hm]%(pr_mails _ _ Hp); [by left|right]. cbn in Hm. congruence. }
  assert (ctx_tenant s1 = "") as Hc1 by (rewrite (pr_ctx _ _ Hp); done).
  cbn in Ej. destruct r as [[]|e].
  - destruct (tx_commit (p_core s1) pool) as [r2 pool1] eqn:EC.
    apply tx_commit_tables in EC as (F1 & F2 & F3).
    destruct r2 as [[]|e2]; apply Hrel; split; cbn; rewrite ?Ej; try congruence; try done;
      by rewrite F3, ?Ep1.
  - apply Hrel; split; cbn; rewrite ?Ej; try congruence; try done; by rewrite Ep1.
Qed.

(** The tenants of a run. *)
Definition tick_tenants (e : run_event) : list string :=
  match e with Tick (Some (Ok l)) => l | _ => [] end.

Lemma pollCycle_spares u clients tenants s :
  u ≠ "" → u ∉ tick_tenants (Tick tenants) → away u s →
  away u (pollCycle tenants clients s) ∧ spares u s (pollCycle tenants clients s).
Proof.
  intros Hu Hnot Haw. destruct tenants as [[l|e]|]; cbn in *.
  - revert s Haw. induction l as [|t l IH]; intros s Haw; cbn; [split; [done|reflexivity]|].
    apply not_elem_of_cons in Hnot as [Ht Hl].
    destruct (poll_tenant_spares u clients t s) as [A1 S1]; [done|congruence|done|].
    destruct (IH Hl _ A1) as [A2 S2]. split; [done|by etrans].
  - split; [done|reflexivity].
  - pose proof Haw as [Ha Hb Hc Hj]. pose proof (pollOnce_contained s) as [C A B X J L].
    split; [split; try congruence|split].
    + intros j [?| ->]%J; [by apply Hj|congruence].
    + eapply isolated_untouched; [by apply C|]. by left.
    + intros m [?|Hm]%L; [by left|right; congruence].
Qed.

Lemma run_event_spares u clients e s :
  u ≠ "" → u ∉ tick_tenants e → away u s →
  away u (run_event_step clients e s) ∧ spares u s (run_event_step clients e s).
Proof.
  intros Hu Hnot Haw. destruct e as [tenants|k]; [by apply pollCycle_spares|]. cbn.
  destruct (jobs s !! k) as [j|] eqn:Hk; [|split; [done|reflexivity]].
  pose proof Haw as [Ha Hb Hc Hj].
  assert (away u (set_jobs (delete k (jobs s)) s)) as Haw'.
  { split; try done. intros j' Hj'. apply Hj. cbn in Hj'.
    by eapply elem_of_submseteq, submseteq_delete. }
  apply (run_job_spares u j (set_jobs (delete k (jobs s)) s)); [done| |done].
  apply Hj. by eapply list_elem_of_lookup_2.
Qed.

Lemma run_events_spares u clients l s :
  u ≠ "" → (∀ e, e ∈ l → u ∉ tick_tenants e) → away u s →
  away u (foldl (λ s e, run_event_step clients e s) s l) ∧
  spares u s (foldl (λ s e, run_event_step clients e s) s l).
Proof.
  intros Hu. revert s. induction l as [|e l IH]; intros s Hl Haw; cbn; [split; [done|reflexivity]|].
  destruct (run_event_spares u clients e s) as [A1 S1]; [done|apply Hl; by left|done|].
  destruct (IH (run_event_step clients e s)) as [A2 S2]; [intros; apply Hl; by right|done|].
  split; [done|by etrans].
Qed.
End cycles.

(** ** Lemmas: one service *)

(** Nothing was dispatched, created or mailed. *)
Definition silent (s s' : pstate) : Prop :=
  jobs s' = jobs s ∧ mails s' = mails s ∧ lastDispatch s' = lastDispatch s.
(** Nothing but the outside was asked. *)
Definition quiet (s s' : pstate) : Prop :=
  silent s s' ∧ p_core s' = p_core s ∧ p_iv s' = p_iv s ∧ provider s' = provider s.

#[global] Instance silent_preorder : PreOrder silent.
Proof. split; [done|]. unfold silent. intros s1 s2 s3 ? ?. naive_solver congruence. Qed.
#[global] Instance quiet_preorder : PreOrder quiet.
Proof. split; [done|]. unfold quiet, silent. intros s1 s2 s3 ? ?. naive_solver congruence. Qed.

(** The burn-path update of a service's row: [svc] is what the cycle read, [x]
    the row. *)
Definition burn_cycle (svc : Service) (w : SLOWindows) (now sqlnow : Z) (x : Service) : Service :=
  set_reading
    (newServiceReading (SwShort w) (SwLong w) (SwTarget w) (SvcLastErrorAt svc) now)
    (set_status
       (classifyBurn {| Short := SwShort w; Long := SwLong w; Target := SwTarget w;
          Previous := CurrentStatus svc; LastErrorAt := SvcLastErrorAt svc;
          LastChangeAt := LastStatusChangeAt svc; Now := now |}) sqlnow x).

(** The columns classification reads back. *)
Definition status_fields (x : Service) :=
  (CurrentStatus x, LastStatusChangeAt x, SvcLastErrorAt x, LastReadingAt x,
   (LastBurnRateShort x, LastBurnRateLong x, LastWindowErrors x, LastWindowRequests x)).

(** No row's status columns change. *)
Definition keeps_status (t : string) (b : bool) : relation core :=
  λ d d', ∀ i r, services d !! i = Some r →
    ∃ r', services d' !! i = Some r' ∧ status_fields (svc r') = status_fields (svc r).

#[global] Instance keeps_status_preorder t b : PreOrder (keeps_status t b).
Proof.
  split; [intros d i r; eauto|]. intros d1 d2 d3 H1 H2 i r Hr.
  destruct (H1 i r Hr) as (r1 & Hr1 & E1). destruct (H2 i r1 Hr1) as (r2 & Hr2 & E2).
  exists r2. split; [done|congruence].
Qed.

(** On the state of the jobs. *)
Definition keeps_rows (s s' : pstate) : Prop :=
  keeps_status "" false (tables (p_core s)) (tables (p_core s')).
#[global] Instance keeps_rows_preorder : PreOrder keeps_rows.
Proof.
  split; [intros s; apply keeps_status_preorder|].
  intros s1 s2 s3 H1 H2. by eapply (keeps_status_preorder "" false).
Qed.

Section one_service.
Context `{!Outside}.

Lemma fetching_quiet {T} f wait (zero : T) m :
  (∀ s, quiet s (f s).2) → (∀ d s, quiet s (wait d s).2) →
  along quiet (fetching (retryFetch f wait zero m)).
Proof.
  intros Hf Hw s. unfold fetching. pose proof (along_retry quiet f wait zero m s Hf Hw) as H1.
  by destruct (retryFetch f wait zero m s) as [[]].
Qed.

Lemma FetchWindows_quiet id e s l m : along quiet (FetchWindowsWithRetry id e s l m).
Proof. by apply fetching_quiet. Qed.
Lemma FetchStatus_quiet id f t m : along quiet (FetchStatusWithRetry id f t m).
Proof. by apply fetching_quiet. Qed.

Lemma classify_quiet svc now end_ w : along quiet (classify svc now end_ w).
Proof.
  unfold classify. destruct (burn_path svc w); [apply (along_ret quiet)|].
  apply (along_bind quiet); [apply FetchStatus_quiet|]. intros. apply (along_ret quiet).
Qed.

Lemma on_core_silent {A} (m : M (session core) db_err A) : along silent (on_core m).
Proof. intros s. unfold on_core. by destruct (m (p_core s)). Qed.
Lemma on_iv_silent {A} (m : M (session iv_db) db_err A) : along silent (on_iv m).
Proof. intros s. unfold on_iv. by destruct (m (p_iv s)). Qed.
Lemma persist_silent svc c rd : along silent (persist_status svc c rd).
Proof. destruct rd; apply on_core_silent. Qed.

(** [early m]: a failure of [m] left no goroutine and no mail behind, and if
    the provider failed, no write either. *)
Definition early {A} (m : P A) : Prop :=
  ∀ s e s', m s = (Err e, s') → silent s s' ∧ (∀ fe, e = PFetch fe → quiet s s').
(** The same once writes have begun: then no provider call is left to fail. *)
Definition late {A} (m : P A) : Prop :=
  ∀ s e s', m s = (Err e, s') → silent s s' ∧ (∀ fe, e ≠ PFetch fe).

Lemma late_early {A} (m : P A) : late m → early m.
Proof. intros Hm s e s' E. destruct (Hm s e s' E) as [H1 H2]. split; [done|]. intros fe ->. by destruct (H2 fe). Qed.

Lemma early_quiet {A} (m : P A) : along quiet m → early m.
Proof. intros Hm s e s' E. specialize (Hm s). rewrite E in Hm. split; [apply Hm|done]. Qed.

Lemma early_bind {A B} (m : P A) (k : A → P B) :
  along quiet m → (∀ a, early (k a)) → early (bind m k).
Proof.
  intros Hm Hk s e s'. unfold bind. pose proof (Hm s) as Q.
  destruct (m s) as [[a|e1] s1] eqn:E; cbn in Q; intros E2.
  - destruct (Hk a s1 e s' E2) as [H1 H2]. split; [etrans; [apply Q|done]|].
    intros fe ->. etrans; [done|]. by eapply H2.
  - simplify_eq. split; [apply Q|done].
Qed.

Lemma late_bind {A B} (m : P A) (k : A → P B) :
  along silent m → late m → (∀ a, late (k a)) → late (bind m k).
Proof.
  intros Hm Hl Hk s e s'. unfold bind. pose proof (Hm s) as Q.
  destruct (m s) as [[a|e1] s1] eqn:E; cbn in Q; intros E2.
  - destruct (Hk a s1 e s' E2) as [H1 H2]. split; [by etrans|done].
  - simplify_eq. split; [done|]. by destruct (Hl s e s' E).
Qed.

Lemma late_on_core {A} (m : M (session core) db_err A) : late (on_core m).
Proof.
  intros s e s' E. pose proof (on_core_silent m s) as Q. rewrite E in Q. split; [done|].
  unfold on_core in E. destruct (m (p_core s)) as [[a|e1] c]; by simplify_eq.
Qed.
Lemma late_on_iv {A} (m : M (session iv_db) db_err A) : late (on_iv m).
Proof.
  intros s e s' E. pose proof (on_iv_silent m s) as Q. rewrite E in Q. split; [done|].
  unfold on_iv in E. destruct (m (p_iv s)) as [[a|e1] c]; by simplify_eq.
Qed.
Lemma late_never {A} (m : P A) : never_fails m → late m.
Proof. intros Hm s e s' E. specialize (Hm s). by rewrite E in Hm. Qed.

(** How a failing poll ends: before any write, or at a write. *)
Lemma pollService_early svc : early (pollService svc).
Proof.
  apply early_bind; [done|]. intros now. cbv zeta.
  apply early_bind; [apply FetchWindows_quiet|]. intros w.
  apply early_bind; [apply classify_quiet|]. intros [[cur rd] st].
  apply late_early, late_bind; [apply on_iv_silent|apply late_on_iv|]. intros ivid.
  apply late_bind; [apply persist_silent|destruct rd; apply late_on_core|]. intros _.
  destruct (negb _); [|apply late_never, never_fails_ret].
  apply late_never. intros s. apply HandleTransition_never_fails.
Qed.

(** The analyzer never touches a status column. *)
Lemma keeps_rows_on_core {A} (m : M (session core) db_err A) :
  preserves keeps_status m → along keeps_rows (on_core m).
Proof.
  intros Hm s. unfold on_core. destruct (Hm (p_core s)) as [H1 _].
  destruct (m (p_core s)) as [r c]. exact H1.
Qed.

Lemma update_services_keeps id p f :
  (∀ s r, status_fields (svc (f s r)) = status_fields (svc r)) →
  preserves keeps_status (@update_services core_driver id p f).
Proof.
  intros Hf. apply (preserves_stmt keeps_status). intros s a d.
  destruct (services (tables s) !! id) as [r|] eqn:E; [|intros; by simplify_eq].
  destruct (_ && _); [|intros; by simplify_eq].
  destruct (service_checks _); [|done]. intros [= _ <-] i r0 Hr0. cbn.
  destruct (decide (i = id)) as [->|]; [|rewrite lookup_insert_ne by done; eauto].
  rewrite lookup_insert_eq. simplify_eq. eauto.
Qed.

Lemma same_services_keeps {A} (f : session core → res db_err (A * core)) :
  (∀ s a d, f s = Ok (a, d) → services d = services (tables s)) →
  preserves keeps_status (@stmt core core_driver A f).
Proof.
  intros Hf. apply (preserves_stmt keeps_status). intros s a d Hd i r Hr.
  rewrite (Hf s a d Hd). eauto.
Qed.

Lemma keeps_no_tenant t b d d' : keeps_status "" b d d' → keeps_status t b d d'.
Proof. done. Qed.

Lemma Create_incident_keeps x l : preserves keeps_status (@Incidents.Create core_driver x l).
Proof.
  apply (preserves_runInTx keeps_status); [done|].
  apply (preserves_bind keeps_status).
  - apply same_services_keeps. intros s a d. cbv zeta.
    destruct (default_tenant s); [|done]. destruct (severity_check _); [cbn|done].
    destruct (incidents (tables s) !! gen_uuid (tick s)); [done|]. by intros [= _ <-].
  - intros y. apply (preserves_bind keeps_status); [|intros; apply (preserves_ret keeps_status)].
    induction l as [|sid l IH]; [apply (preserves_ret keeps_status)|].
    apply (preserves_bind keeps_status); [|done].
    apply same_services_keeps. intros s a d. case_bool_decide; [done|].
    destruct (services (tables s) !! sid); [|done]. by intros [= _ <-].
Qed.

Lemma along_keeps_bind {A B} (m : P A) (k : A → P B) :
  along keeps_rows m → (∀ a, along keeps_rows (k a)) → along keeps_rows (bind m k).
Proof. apply (along_bind keeps_rows). Qed.

Lemma dispatch_keeps key (j : pstate → job) :
  along keeps_rows (ok <- tryAcquire key ;; if negb ok then ret tt else λ s, start (j s) s).
Proof.
  apply along_keeps_bind.
  - intros s. unfold tryAcquire, keeps_rows. repeat case_match; cbn; apply keeps_status_preorder.
  - intros []; intros s; apply keeps_status_preorder.
Qed.

Lemma HandleTransition_keeps svc prev new st rd iv c :
  along keeps_rows (HandleTransition svc prev new st rd iv c).
Proof.
  unfold HandleTransition. destruct (String.eqb prev new); [apply (along_ret keeps_rows)|].
  apply along_keeps_bind.
  { destruct (_ || _); [|apply (along_ret keeps_rows)].
    apply (along_logged keeps_rows), keeps_rows_on_core.
    apply (preserves_bind keeps_status); [by apply update_services_keeps|].
    intros. apply (preserves_ret keeps_status). }
  intros _. apply along_keeps_bind.
  { destruct (String.eqb new "degraded"); [apply dispatch_keeps|apply (along_ret keeps_rows)]. }
  intros _. apply along_keeps_bind.
  - destruct (String.eqb new "outage"); [|apply (along_ret keeps_rows)].
    apply along_keeps_bind.
    { apply (along_attempt keeps_rows), keeps_rows_on_core, (preserves_query keeps_status). }
    intros [[|]|]; try apply (along_ret keeps_rows).
    apply along_keeps_bind.
    { apply (along_attempt keeps_rows), keeps_rows_on_core, Create_incident_keeps. }
    intros [x|]; [|apply (along_ret keeps_rows)].
    apply along_keeps_bind; [|intros _; apply dispatch_keeps].
    intros s. unfold notify_opened. destruct (String.eqb _ _); apply keeps_status_preorder.
  - intros _. destruct (String.eqb new "operational"); [|apply (along_ret keeps_rows)].
    apply along_keeps_bind.
    { apply (along_attempt keeps_rows), keeps_rows_on_core, (preserves_query keeps_status). }
    intros [[|]|]; try apply (along_ret keeps_rows).
    apply along_keeps_bind.
    { apply (along_attempt keeps_rows), keeps_rows_on_core, (preserves_query keeps_status). }
    intros [[]|]; try apply (along_ret keeps_rows). apply dispatch_keeps.
Qed.
End one_service.

Section burn_poll.
Context `{!Outside}.

Lemma on_core_Ok_inv {A} (m : M (session core) db_err A) s a s' :
  on_core m s = (Ok a, s') → m (p_core s) = (Ok a, p_core s').
Proof. unfold on_core. destruct (m (p_core s)) as [[a'|e] c]; intros; by simplify_eq. Qed.

Lemma FetchWindows_first id e l1 l2 s w :
  fetch_windows (ev s) (provider s) id e l1 l2 = Ok w →
  FetchWindowsWithRetry id e l1 l2 maxFetchAttempts s = (Ok w, bump_ev s).
Proof.
  intros Hw. unfold FetchWindowsWithRetry, fetching, retryFetch, maxFetchAttempts.
  change (Z.to_nat 3) with 3%nat. cbn [retry_loop]. by rewrite Hw.
Qed.

Lemma UpdateStatusAndReading_row id st rd (c c' : session core) r :
  services (tables c) !! id = Some r → visible c (svc_tenant r) = true →
  @UpdateStatusAndReading core_driver id st rd c = (Ok tt, c') →
  services (tables c') !! id =
    Some (set_svc (λ x, set_reading rd (set_status st (@sql_now core core_driver c) x)) r).
Proof.
  intros Hr Hv (n & c1 & Hu & Hk)%bind_Ok_inv. injection Hk as <-.
  apply stmt_Ok_inv in Hu as (d & Hf & -> & _). rewrite Hr in Hf.
  unfold row_visible in Hf. rewrite Hv in Hf. cbn in Hf. destruct (service_checks _); [|done].
  injection Hf as _ <-. cbn. by rewrite lookup_insert_eq.
Qed.
End burn_poll.

(** ** Properties *)

(** a failed poll leaves no trace.  When [pollService] fails, no incident
    goroutine was started, no mail was sent and no cooldown was touched; and
    when what failed is the provider (after its retries), nothing at all was
    written: the tenant's session and the status intervals are what they were,
    so the last known status stays visible. *)
Theorem pollService_failure `{!Outside} svc (s s' : pstate) e :
  pollService svc s = (Err e, s') →
  jobs s' = jobs s ∧ mails s' = mails s ∧ lastDispatch s' = lastDispatch s ∧
  (∀ fe, e = PFetch fe → p_core s' = p_core s ∧ p_iv s' = p_iv s).
Proof.
  intros E. destruct (pollService_early svc s e s' E) as [(H1 & H2 & H3) H4].
  split_and!; [done..|]. intros fe He. by destruct (H4 fe He) as (_ & ? & ? & _).
Qed.

(** C27: a successful burn-path poll stores exactly its classification.  When the
    provider answers and the SLO is classified by burn rate, the service's row
    has afterwards the status [classifyBurn] gives for the windows, the previous
    status and the error times the cycle read, the change time moved only on a
    change, and the cycle's reading, whatever the analyzer did in between. *)
Theorem pollService_burn `{!Outside} x (s s' : pstate) r w0 :
  services (tables (p_core s)) !! SvcID x = Some r →
  visible (p_core s) (svc_tenant r) = true →
  let now := time_now (ev s) in
  fetch_windows (S (ev s)) (provider s) (SLOID x) (now - recentWindowLag) shortWindow longWindow
    = Ok w0 →
  let w := zeroed_windows x w0 in
  burn_path x w = true →
  pollService x s = (Ok tt, s') →
  ∃ r', services (tables (p_core s')) !! SvcID x = Some r' ∧
    status_fields (svc r') =
    status_fields (burn_cycle x w now (@sql_now core core_driver (p_core s)) (svc r)).
Proof.
  intros Hr Hv now Hw w Hb. unfold pollService.
  intros (now' & s1 & E1 & E)%bind_Ok_inv. unfold ask in E1. injection E1 as <- <-.
  change (time_now (ev s)) with now in E. cbv zeta in E.
  apply bind_Ok_inv in E as (w1 & s2 & E2 & E).
  assert (fetch_windows (ev (bump_ev s)) (provider (bump_ev s)) (SLOID x)
    (time_add now (- recentWindowLag)) shortWindow longWindow = Ok w0) as Hw' by exact Hw.
  rewrite (FetchWindows_first _ _ _ _ _ _ Hw') in E2. injection E2 as <- <-.
  change (zeroed_windows x w0) with w in E.
  apply bind_Ok_inv in E as (c & s3 & E3 & E). unfold classify in E3. rewrite Hb in E3.
  injection E3 as <- <-. cbn iota beta in E.
  apply bind_Ok_inv in E as (ivid & s4 & E4 & E).
  assert (p_core s4 = p_core s) as Ec.
  { unfold on_iv in E4. destruct (OpenOrExtend _ _ _ _ _) as [[]]; by simplify_eq. }
  apply bind_Ok_inv in E as ([] & s5 & E5 & E).
  cbn [persist_status] in E5. apply on_core_Ok_inv in E5. rewrite Ec in E5.
  apply UpdateStatusAndReading_row with (r := r) in E5; [|done..].
  assert (keeps_rows s5 s') as Hk.
  { destruct (negb _).
    - assert (∀ A (m : P A) a, along keeps_rows m → m s5 = (a, s') → keeps_rows s5 s') as Hm
        by (intros A m a Ha Em; specialize (Ha s5); by rewrite Em in Ha).
      eapply Hm; [apply HandleTransition_keeps|exact E].
    - injection E as <-. apply keeps_rows_preorder. }
  destruct (Hk _ _ E5) as (r' & Hr' & Ef). exists r'. split; [done|]. rewrite Ef. done.
Qed.

(** ** Lemmas: whose intervals a cycle may touch

    status_intervals has no row-level security: a row is its service's, and the
    poller only records services it read under the tenant's. *)

(** The services with their tenants and ids, which no job changes. *)
Definition service_owners (d : core) : gmap string (string * string) :=
  (λ r, (svc_tenant r, SvcID (svc r))) <$> services d.
Definition same_owners (t : string) (b : bool) : relation core :=
  λ d d', service_owners d' = service_owners d.
#[global] Instance same_owners_preorder t b : PreOrder (same_owners t b).
Proof. split; [done|]. unfold same_owners. intros d1 d2 d3. congruence. Qed.

Section owners.
Context `{!Outside}.

Lemma same_services_owners {A} (f : session core → res db_err (A * core)) :
  (∀ s a d, f s = Ok (a, d) → services d = services (tables s)) →
  preserves same_owners (@stmt core core_driver A f).
Proof.
  intros Hf. apply (preserves_stmt same_owners). intros s a d Hd.
  unfold same_owners, service_owners. by rewrite (Hf s a d Hd).
Qed.
Lemma update_services_owners id p f :
  (∀ s r, svc_tenant (f s r) = svc_tenant r ∧ SvcID (svc (f s r)) = SvcID (svc r)) →
  preserves same_owners (@update_services core_driver id p f).
Proof.
  intros Hf. apply (preserves_stmt same_owners). intros s a d.
  destruct (services (tables s) !! id) as [r|] eqn:E; [|by intros [= _ <-]].
  destruct (_ && _); [|by intros [= _ <-]]. destruct (service_checks _); [|done]. intros [= _ <-].
  unfold same_owners, service_owners. cbn. rewrite fmap_insert. apply insert_id.
  rewrite lookup_fmap, E. cbn. by destruct (Hf s r) as [-> ->].
Qed.
Lemma persist_owners svc cur rd :
  match rd with
  | Some rd => preserves same_owners (@UpdateStatusAndReading core_driver (SvcID svc) cur rd)
  | None => preserves same_owners (@UpdateStatus core_driver (SvcID svc) cur)
  end.
Proof.
  destruct rd; (apply (preserves_bind same_owners); [by apply update_services_owners|]);
    intros; apply (preserves_ret same_owners).
Qed.
Lemma UpdateStatusAnalysis_owners id a : preserves same_owners (@UpdateStatusAnalysis core_driver id a).
Proof.
  apply (preserves_bind same_owners); [by apply update_services_owners|]. intros. apply (preserves_ret same_owners).
Qed.
Lemma marks_owners : preserves same_owners (@MarkDatadogChecked core_driver) ∧
  ∀ e, preserves same_owners (@MarkDatadogInvalid core_driver e).
Proof. split; [|intros e]; apply same_services_owners; intros s a d; by intros [= _ <-]. Qed.
Lemma Create_incident_owners x l : preserves same_owners (@Incidents.Create core_driver x l).
Proof.
  apply (preserves_runInTx same_owners); [done|]. apply (preserves_bind same_owners).
  - apply same_services_owners. intros s a d. cbv zeta.
    destruct (default_tenant s); [|done]. destruct (severity_check _); [cbn|done].
    destruct (incidents (tables s) !! gen_uuid (tick s)); [done|]. by intros [= _ <-].
  - intros y. apply (preserves_bind same_owners); [|intros; apply (preserves_ret same_owners)].
    induction l as [|sid l IH]; [apply (preserves_ret same_owners)|].
    apply (preserves_bind same_owners); [|done].
    apply same_services_owners. intros s a d. case_bool_decide; [done|].
    destruct (services (tables s) !! sid); [|done]. by intros [= _ <-].
Qed.
Lemma update_unresolved_owners id f : preserves same_owners (@update_unresolved core_driver id f).
Proof.
  apply (preserves_bind same_owners).
  { apply (preserves_bind same_owners); [apply (preserves_query same_owners)|].
    intros []; [apply (preserves_ret same_owners)|apply (preserves_fail same_owners)]. }
  intros _. apply (preserves_bind same_owners).
  - apply same_services_owners. intros s a d. destruct (incidents (tables s) !! id); [|by intros [= _ <-]].
    destruct (_ && _); [|by intros [= _ <-]]. destruct (severity_check _); [|done]. by intros [= _ <-].
  - intros []; [apply (preserves_ret same_owners)|apply (preserves_fail same_owners)].
Qed.
End owners.

(** A selected service is the record of a row the session sees. *)
Lemma select_services_row `{!Driver} p s x :
  x ∈ select_services p s → ∃ i r, x = svc r ∧ services (tables s) !! i = Some r ∧ visible s (svc_tenant r) = true.
Proof.
  unfold select_services. rewrite merge_sort_Permutation. intros (r & -> & Hr)%list_elem_of_fmap.
  apply list_elem_of_filter in Hr as [Hv ([i r'] & -> & Hi)%list_elem_of_fmap]. apply elem_of_map_to_list in Hi.
  exists i, r'. rewrite !andb_true_iff in Hv. by destruct Hv as [[Hv _] _].
Qed.

Section whose_intervals.
Context `{!Outside} (u : string) (owners : gmap string (string * string)).

(** An interval of one of [u]'s services. *)
Definition of_tenant (x : StatusInterval) : Prop := ∃ id, owners !! ServiceID x = Some (u, id).
(** From [d] to [d'] the intervals of [u] are the same. *)
Definition iv_kept (d d' : iv_db) : Prop :=
  ∀ k x, of_tenant x → intervals d !! k = Some x ↔ intervals d' !! k = Some x.
Definition free_interval (k : string) (d : iv_db) : Prop :=
  ∀ x, intervals d !! k = Some x → ¬ of_tenant x.
(** What a goroutine will write. *)
Definition job_free (d : iv_db) (j : job) : Prop :=
  match j with JobDegraded _ _ _ _ k _ => free_interval k d | _ => True end.

(** Kept true: the services are [owners]', intervals are filed by their id, and
    neither a goroutine nor the interval in hand, [k], is [u]'s. *)
Record guarded (k : option string) (s : pstate) : Prop := {
  gd_owners : service_owners (tables (p_core s)) = owners;
  gd_keyed : ∀ i x, intervals (tables (p_iv s)) !! i = Some x → IvID x = i;
  gd_jobs : ∀ j, j ∈ jobs s → job_free (tables (p_iv s)) j;
  gd_hand : ∀ i, k = Some i → free_interval i (tables (p_iv s));
}.
Definition guard (k : option string) (s s' : pstate) : Prop :=
  guarded k s → guarded k s' ∧ iv_kept (tables (p_iv s)) (tables (p_iv s')).

#[global] Instance iv_kept_preorder : PreOrder iv_kept.
Proof. split; [done|]. intros d1 d2 d3 H1 H2 k x Hx. by rewrite (H1 k x Hx), (H2 k x Hx). Qed.
#[global] Instance guard_preorder k : PreOrder (guard k).
Proof.
  split; [done|]. intros s1 s2 s3 H1 H2 [G1 K1]%H1. destruct (H2 G1) as [G2 K2]. split; [done|by etrans].
Qed.
Lemma free_kept k d d' : iv_kept d d' → free_interval k d → free_interval k d'.
Proof. intros Hk Hf x Hx Ht. apply (Hf x); [|done]. by apply Hk. Qed.
Lemma job_free_kept j d d' : iv_kept d d' → job_free d j → job_free d' j.
Proof. destruct j; [|done..]. apply free_kept. Qed.

(** A step on the services' session, or on neither session. *)
Lemma guard_same k s s' :
  service_owners (tables (p_core s')) = service_owners (tables (p_core s)) →
  tables (p_iv s') = tables (p_iv s) → (∀ j, j ∈ jobs s' → j ∈ jobs s) → guard k s s'.
Proof.
  intros E1 E2 E3 [G1 G2 G3 G4]. rewrite E2. split; [|done].
  split; rewrite ?E2; [congruence|done|auto|done].
Qed.
(** A step on the intervals that keeps [u]'s. *)
Lemma guard_iv k c s :
  iv_kept (tables (p_iv s)) (tables c) →
  ((∀ i x, intervals (tables (p_iv s)) !! i = Some x → IvID x = i) →
   ∀ i x, intervals (tables c) !! i = Some x → IvID x = i) → guard k s (set_iv c s).
Proof.
  intros Hk Hi [G1 G2 G3 G4]. split; [|done]. split; cbn; [done|auto| |].
  - intros j Hj. by eapply job_free_kept, G3.
  - intros i Hi'. by eapply free_kept, G4.
Qed.

Lemma guard_on_core {A} k (m : M (session core) db_err A) :
  preserves same_owners m → along (guard k) (on_core m).
Proof.
  intros Hm s. unfold on_core. destruct (Hm (p_core s)) as [H1 _]. destruct (m (p_core s)) as [r c].
  by apply guard_same.
Qed.
Lemma guard_ask {A} k (f : nat → A) : along (guard k) (ask f).
Proof. intros s. by apply guard_same. Qed.
Lemma guard_bind {A B} k (m : P A) (f : A → P B) :
  along (guard k) m → (∀ a, along (guard k) (f a)) → along (guard k) (bind m f).
Proof. apply (along_bind (guard k)). Qed.
Lemma guard_quiet {A} k (m : P A) : along quiet m → along (guard k) m.
Proof. intros Hm s. destruct (Hm s) as ((E1 & _) & E2 & E3 & _). apply guard_same; [by rewrite E2|by rewrite E3|by rewrite E1]. Qed.

(** A goroutine is started with the interval in hand, or with none. *)
Lemma guard_dispatch k key (j : pstate → job) :
  (∀ s, guarded k s → job_free (tables (p_iv s)) (j s)) →
  along (guard k) (ok <- tryAcquire key ;; if negb ok then ret tt else λ s, start (j s) s).
Proof.
  intros Hj. apply guard_bind.
  - intros s. unfold tryAcquire. destruct (lastDispatch s !! key).
    + destruct (_ <? _); [by apply guard_same|]. destruct (Nat.ltb _ _); by apply guard_same.
    + destruct (Nat.ltb _ _); by apply guard_same.
  - intros []; [|apply (along_ret (guard k))]. intros s G. split; [|done].
    pose proof (Hj s G) as Hf. destruct G as [G1 G2 G3 G4]. split; cbn; [done..| |done].
    intros j' [?| ->%list_elem_of_singleton]%elem_of_app; auto.
Qed.

Lemma HandleTransition_guard svc prev new st rd iv c :
  along (guard (Some iv)) (HandleTransition svc prev new st rd iv c).
Proof.
  unfold HandleTransition. destruct (String.eqb prev new); [apply (along_ret (guard _))|].
  apply guard_bind.
  { destruct (_ || _); [|apply (along_ret (guard _))].
    apply (along_logged (guard _)), guard_on_core, UpdateStatusAnalysis_owners. }
  intros _. apply guard_bind.
  { destruct (String.eqb new "degraded"); [|apply (along_ret (guard _))].
    apply guard_dispatch. intros s G. by apply (gd_hand _ _ G). }
  intros _. apply guard_bind.
  - destruct (String.eqb new "outage"); [|apply (along_ret (guard _))]. apply guard_bind.
    { apply (along_attempt (guard _)), guard_on_core, (preserves_query same_owners). }
    intros [[|]|]; try apply (along_ret (guard _)). apply guard_bind.
    { apply (along_attempt (guard _)), guard_on_core, Create_incident_owners. }
    intros [x|]; [|apply (along_ret (guard _))].
    apply guard_bind; [|intros _; by apply guard_dispatch].
    intros s. unfold notify_opened. destruct (String.eqb _ _); by apply guard_same.
  - intros _. destruct (String.eqb new "operational"); [|apply (along_ret (guard _))]. apply guard_bind.
    { apply (along_attempt (guard _)), guard_on_core, (preserves_query same_owners). }
    intros [[|]|]; try apply (along_ret (guard _)). apply guard_bind.
    { apply (along_attempt (guard _)), guard_on_core, (preserves_query same_owners). }
    intros [[]|]; try apply (along_ret (guard _)). by apply guard_dispatch.
Qed.

(** Recording a service of another tenant. *)
Lemma OpenOrExtend_guard sid st b t s r c :
  (∀ id, owners !! sid ≠ Some (u, id)) → guarded None s →
  @OpenOrExtend iv_driver sid st b t (p_iv s) = (r, c) →
  guard None s (set_iv c s) ∧ ∀ id, r = Ok id → guarded (Some id) (set_iv c s).
Proof.
  intros Hs G E. apply OpenOrExtend_inv in E as [(e & -> & Et)|(id & -> & R)].
  { split; [|done]. apply guard_same; [done|by cbn; rewrite Et|done]. }
  assert (open_valid (find_open sid (tables (p_iv s))) sid (tables (p_iv s))) as Hv.
  { intros o (? & ? & i & Hi)%find_open_Some. by rewrite (gd_keyed _ _ G i o Hi). }
  assert (∀ x, of_tenant x → ServiceID x ≠ sid) as Hne by (intros x [id' Hx] <-; by apply (Hs id')).
  assert (iv_kept (tables (p_iv s)) (tables c)) as Hk.
  { intros k x Hx. split; [by eapply recorded_other, Hne|by eapply recorded_back, Hne]. }
  assert (guard None s (set_iv c s)) as Hg by (apply guard_iv; [done|by eapply recorded_key]).
  split; [done|]. intros ? [= <-]. destruct (Hg G) as [[G1 G2 G3 _] _]. split; [done..|].
  intros ? [= <-] x Hx Ht. apply (Hne x Ht).
  destruct (recorded_row _ _ _ _ _ _ _ _ R Hv) as (x' & Hx' & Hsid & _). cbn in Hx. congruence.
Qed.

Lemma guard_weaken k s : guarded (Some k) s → guarded None s.
Proof. intros [G1 G2 G3 G4]. by split. Qed.

Lemma pollService_guard svc :
  (∀ id, owners !! SvcID svc ≠ Some (u, id)) → along (guard None) (pollService svc).
Proof.
  intros Hs. unfold pollService. apply guard_bind; [apply guard_ask|]. intros now. cbv zeta.
  apply guard_bind; [apply guard_quiet, FetchWindows_quiet|]. intros w.
  apply guard_bind; [apply guard_quiet, classify_quiet|]. intros [[cur rd] st] s G.
  destruct (@OpenOrExtend iv_driver (SvcID svc) cur (SsErrorBudgetRemaining st) now (p_iv s)) as [r c] eqn:E.
  assert (on_iv (@OpenOrExtend iv_driver (SvcID svc) cur (SsErrorBudgetRemaining st) now) s =
    (match r with Ok a => Ok a | Err e => Err (PDb e) end, set_iv c s)) as Eo by (unfold on_iv; by rewrite E).
  match goal with |- context [bind _ ?k s] =>
    assert (bind (on_iv (@OpenOrExtend iv_driver (SvcID svc) cur (SsErrorBudgetRemaining st) now)) k s =
      match r with Ok a => k a (set_iv c s) | Err e => (Err (PDb e), set_iv c s) end) as Ek
      by (unfold bind; rewrite Eo; by destruct r)
  end. rewrite Ek.
  destruct (OpenOrExtend_guard _ _ _ _ _ _ _ Hs G E) as [Hg Hid]. destruct (Hg G) as [G1 K1].
  destruct r as [ivid|e]; [|exact (conj G1 K1)]. specialize (Hid ivid eq_refl).
  assert (guard (Some ivid) (set_iv c s)
    ((persist_status svc cur rd ;;; (if negb (String.eqb cur (CurrentStatus svc)) then
        λ s, HandleTransition svc (CurrentStatus svc) cur st rd ivid (Some (provider s)) s else ret tt)) (set_iv c s)).2)
    as Hr.
  { apply guard_bind; [unfold persist_status; pose proof (persist_owners svc cur rd);
      destruct rd; by apply guard_on_core|]. intros _.
    destruct (negb _); [|apply (along_ret (guard _))]. intros s2. apply HandleTransition_guard. }
  destruct (Hr Hid) as [G2 K2]. split; [by eapply guard_weaken|]. by etrans.
Qed.

Lemma poll_services_guard l any last :
  (∀ svc, svc ∈ l → ∀ id, owners !! SvcID svc ≠ Some (u, id)) → along (guard None) (poll_services l any last).
Proof.
  revert any last. induction l as [|svc l IH]; intros any last Hl; cbn [poll_services].
  { apply (along_ret (guard _)). }
  assert (∀ a e, along (guard None) (poll_services l a e)) as IH' by (intros; apply IH; intros; apply Hl; by right).
  destruct (String.eqb _ _); [done|].
  apply guard_bind; [apply (along_attempt (guard _)), pollService_guard, Hl; by left|]. by intros [].
Qed.

Context (owned_by_id : ∀ i t id, owners !! i = Some (t, id) → id = i).

Lemma guard_bind_at {A B} k (m : P A) (f : A → P B) s :
  guard k s (m s).2 → (∀ a s1, m s = (Ok a, s1) → guard k s1 (f a s1).2) → guard k s (bind m f s).2.
Proof.
  intros Hm Hf. unfold bind. destruct (m s) as [[a|e] s1]; [|done]. etrans; [exact Hm|by apply Hf].
Qed.

(** A turn reads the services the session sees: none of [u]'s. *)
Lemma pollOnce_guard s :
  app_tenant (p_core s) ≠ u → bypass_rls (p_core s) = false → guard None s (pollOnce s).2.
Proof.
  intros Ht Hb G. revert G. apply (guard_bind_at None (attempt (on_core (@List core_driver)))).
  { apply (along_attempt (guard _)), guard_on_core, (preserves_query same_owners). }
  intros [l|e] s1 E; [|reflexivity]. intros G1.
  assert (∃ c, @List core_driver (p_core s) = (Ok l, c) ∧ s1 = set_core c s) as (c & El & ->).
  { unfold attempt, on_core in E. destruct (List (p_core s)) as [[l'|e'] c']; [|done].
    injection E as <- <-. by exists c'. }
  apply query_Ok_inv in El as [-> Etab].
  assert (∀ svc, svc ∈ list_columns <$> @select_services core_driver any_row (p_core s) →
    ∀ id, owners !! SvcID svc ≠ Some (u, id)) as Hsvc.
  { intros x Hx id Hid. apply list_elem_of_fmap in Hx as (y & -> & Hy).
    apply select_services_row in Hy as (i & r & -> & Hr & Hv).
    assert (owners !! i = Some (svc_tenant r, SvcID (svc r))) as Ho.
    { rewrite <- (gd_owners _ _ G1). unfold service_owners. cbn. by rewrite Etab, lookup_fmap, Hr. }
    cbn in Hid. rewrite (owned_by_id _ _ _ Ho) in Hid.
    apply (visible_own _ _ Hb) in Hv as [Hv _]. congruence. }
  revert G1. apply guard_bind; [by apply poll_services_guard|]. intros [any last]. unfold mark_outcome. cbn [fst snd].
  destruct marks_owners as [Hok Hbad].
  destruct any; [apply (along_logged (guard _)), guard_on_core, Hok|].
  destruct last; [|apply (along_ret (guard _))].
  apply (along_logged (guard _)), guard_on_core. apply Hbad.
Qed.

Lemma resolveCauseHint_guard k svc c : along (guard k) (resolveCauseHint svc c).
Proof.
  unfold resolveCauseHint. destruct c as [c|]; [|apply (along_ret (guard k))].
  apply guard_bind; [apply guard_ask|]. intros [[]|]; try apply (along_ret (guard k)).
  destruct (_ || _); [apply (along_ret (guard k))|]. apply guard_bind; [apply guard_ask|]. intros t. cbv zeta.
  apply guard_bind; [apply guard_ask|]. intros [[|]|]; apply (along_ret (guard k)).
Qed.
Lemma generated_guard k g x : along (guard k) (generated g x).
Proof.
  apply guard_bind; [apply guard_ask|]. intros [t|]; [|apply (along_fail (guard k))].
  destruct (String.eqb _ _); [apply (along_fail (guard k))|apply (along_ret (guard k))].
Qed.
Lemma SetIntervalAnalysis_guard i a : along (guard (Some i)) (on_tx_iv (@SetIntervalAnalysis iv_driver i a)).
Proof.
  intros s G. unfold on_tx_iv. destruct (aborted (p_core s)); [by apply guard_same|].
  destruct (SetIntervalAnalysis i a (p_iv s)) as [r c] eqn:E. unfold SetIntervalAnalysis, update_interval in E.
  assert (guard (Some i) s (set_iv c s)) as Hg.
  { apply stmt_inv in E as [(e & -> & Et)|([] & d & Hd & -> & Et)]; [by apply guard_same; [|cbn; rewrite Et|]|].
    injection Hd as <-. pose proof (gd_hand _ _ G i eq_refl) as Hf.
    assert (∀ k y, alter (set_interval_analysis a) i (intervals (tables (p_iv s))) !! k = Some y →
      ∃ x, intervals (tables (p_iv s)) !! k = Some x ∧ ServiceID y = ServiceID x ∧ IvID y = IvID x ∧ (k ≠ i → y = x)) as Ha.
    { intros k y [[-> (x & Hx & ->)]|[Hne Hy]]%alter_lookup_Some; [by exists x|]. by exists y. }
    apply guard_iv; rewrite Et; cbn [tables set_tables intervals set_intervals].
    - intros k x Hx. cbn [intervals set_intervals]. split.
      + intros Hk. rewrite lookup_alter_ne; [done|]. intros <-. by apply (Hf x).
      + intros Hk. destruct (Ha k x Hk) as (y & Hy & Es & _ & Hne). destruct (decide (k = i)) as [->|Hki].
        * destruct (Hf y Hy). destruct Hx as [id Hx]. exists id. by rewrite <- Es.
        * by rewrite (Hne Hki).
    - intros Hk k x Hx. destruct (Ha k x Hx) as (y & Hy & _ & -> & _). by apply Hk. }
  destruct r; [by apply Hg|]. cut (guard (Some i) s (set_core (abort (p_core s)) (set_iv c s))); [by auto|].
  etrans; [exact Hg|by apply guard_same].
Qed.
Lemma job_body_guard j s :
  guarded None s → job_free (tables (p_iv s)) j →
  guarded None (job_body j s).2 ∧ iv_kept (tables (p_iv s)) (tables (p_iv (job_body j s).2)).
Proof.
  intros G Hj. destruct j as [t svc st rd i c|t svc st rd id c|t x id]; cbn [job_body].
  - assert (guarded (Some i) s) as Gi by (destruct G as [G1 G2 G3 G4]; split; [done..|by intros ? [= <-]]).
    cut (∀ s, guarded (Some i) s → ∀ s', guard (Some i) s s' → guarded None s' ∧ iv_kept (tables (p_iv s)) (tables (p_iv s'))).
    + intros Hc. apply Hc; [done|]. apply guard_bind; [apply resolveCauseHint_guard|]. intros h.
      apply guard_bind; [apply generated_guard|]. intros a. apply guard_bind; [|intros _].
      * apply (along_logged (guard _)), guard_on_core, UpdateStatusAnalysis_owners.
      * apply (along_logged (guard _)), SetIntervalAnalysis_guard.
    + intros s0 G0 s' Hg. destruct (Hg G0). by split; [eapply guard_weaken|].
  - revert s G Hj. intros s G _. revert G. apply guard_bind; [apply resolveCauseHint_guard|]. intros h.
    apply guard_bind; [apply generated_guard|]. intros a. apply guard_on_core, update_unresolved_owners.
  - revert G. apply guard_bind; [apply generated_guard|]. intros a. apply guard_on_core, update_unresolved_owners.
Qed.

(** Transactions end with their own tables or the ones they began with. *)
Lemma guarded_end s s2 s3 :
  guarded None s → guarded None s2 →
  (tables (p_core s3) = tables (p_core s2) ∨ tables (p_core s3) = tables (p_core s)) →
  tables (p_iv s3) = tables (p_iv s2) → jobs s3 = jobs s2 → guarded None s3.
Proof.
  intros G G2 Hc Hi Hj. destruct G2 as [A1 A2 A3 _]. split; rewrite ?Hi, ?Hj; [|done..].
  destruct Hc as [-> | ->]; [done|by apply G].
Qed.

Lemma poll_tenant_guard clients t s : t ≠ u → away u s → guard None s (poll_tenant clients t s).
Proof.
  intros Ht Haw G. pose proof Haw as [Ha Hb Hc Hj]. unfold poll_tenant.
  destruct (BeginTenantTx "" t (p_core s)) as [[tx|e] pool] eqn:EB;
    apply BeginTenantTx_inv in EB as (Ep1 & Ep2 & Ep3 & Htx).
  2:{ apply guard_same; cbn; [by rewrite Ep1|done..]. }
  destruct Htx as (Et1 & Et2 & Et3 & _). cbn zeta.
  assert (∀ s1, p_core s1 = tx → p_iv s1 = p_iv s → jobs s1 = jobs s →
    let s2 := set_ctx_tenant (ctx_tenant s) (pollOnce s1).2 in
    let s3 := match @tx_commit core core_driver (p_core s2) pool with
              | (Ok _, pool1) => set_core pool1 s2
              | (Err _, pool1) => set_core (tx_rollback (p_core s2) pool1) s2
              end in guarded None s3 ∧ iv_kept (tables (p_iv s)) (tables (p_iv s3))) as Hturn.
  { intros s1 E1 E2 E3. cbn zeta.
    assert (guard None s (pollOnce s1).2) as Hg.
    { etrans; [apply (guard_same _ s s1); [by rewrite E1, Et1|by rewrite E2|by rewrite E3]|].
      apply pollOnce_guard; congruence. }
    destruct (Hg G) as [G2 K2]. destruct (tx_commit _ pool) as [r pool1] eqn:EC.
    apply tx_commit_tables in EC as (F1 & F2 & F3). cbn in F3.
    destruct r as [[]|e]; (split; [eapply guarded_end; [exact G|exact G2|cbn..]|exact K2]); auto.
    right. congruence. }
  destruct clients; [|by apply (Hturn (set_ctx_tenant t (set_core tx s)))].
  destruct (resolve_client _ t) as [c|];
    [by apply (Hturn (set_provider c (bump_ev (set_ctx_tenant t (set_core tx s)))))|].
  apply guard_same; cbn; [by rewrite Ep1|done..].
Qed.

Lemma run_job_guard j s :
  job_free (tables (p_iv s)) j → guard None s (run_job j s).
Proof.
  intros Hj G. unfold run_job. cbn zeta.
  assert (∀ s3, guarded None s3 → guarded None (release s3)) as Hrel by (intros s3 []; by split).
  destruct (BeginTenantTx "" (job_tenant j) (p_core s)) as [[tx|e] pool] eqn:EB;
    apply BeginTenantTx_inv in EB as (Ep1 & Ep2 & Ep3 & Htx).
  2:{ split; [|done]. eapply Hrel, (guarded_end s s); [done..|by right|done|done]. }
  destruct Htx as (Et1 & Et2 & Et3 & _).
  assert (guarded None (set_core tx s)) as G0 by (eapply (guarded_end s s); [done..|right; by cbn|done|done]).
  destruct (job_body_guard j (set_core tx s) G0 Hj) as [G1 K1].
  pose proof (job_body_slots j (set_core tx s)) as [_ Ej]. cbn in Ej.
  destruct (job_body j (set_core tx s)) as [r s1]. cbn [snd] in *.
  assert (∀ c pool1, tables pool1 = tables (p_core s) → tables c = tables (p_iv s) →
    guarded None (set_core pool1 (set_iv c s1))) as Hundo.
  { intros c pool1 E1 E2. destruct G as [A1 A2 A3 A4]. split; cbn; rewrite ?E1, ?E2, ?Ej; done. }
  destruct r as [[]|e].
  - destruct (tx_commit (p_core s1) pool) as [r2 pool1] eqn:EC.
    apply tx_commit_tables in EC as (F1 & F2 & F3). destruct r2 as [[]|e2]; (split; [apply Hrel|]).
    + eapply (guarded_end s s1); [done..|left; exact F3|done|done].
    + exact K1.
    + apply Hundo; [cbn; by rewrite F3, Ep1|done].
    + done.
  - split; [apply Hrel, Hundo; [exact Ep1|done]|done].
Qed.

Lemma pollCycle_guard clients tenants s :
  u ≠ "" → u ∉ tick_tenants (Tick tenants) → away u s → guard None s (pollCycle tenants clients s).
Proof.
  intros Hu Hnot Haw. destruct tenants as [[l|e]|]; cbn in *; [|reflexivity|].
  - revert s Haw. induction l as [|t l IH]; intros s Haw; cbn; [reflexivity|].
    apply not_elem_of_cons in Hnot as [Ht Hl].
    destruct (poll_tenant_spares u clients t s) as [A1 _]; [done|congruence|done|].
    etrans; [apply poll_tenant_guard; [by apply not_eq_sym|done]|by apply IH].
  - apply pollOnce_guard; [by rewrite (aw_app _ _ Haw); apply not_eq_sym|apply Haw].
Qed.

Lemma run_events_guard clients l s :
  u ≠ "" → (∀ e, e ∈ l → u ∉ tick_tenants e) → away u s →
  guard None s (foldl (λ s e, run_event_step clients e s) s l).
Proof.
  intros Hu. revert s. induction l as [|e l IH]; intros s Hl Haw; cbn [foldl]; [reflexivity|].
  destruct (run_event_spares u clients e s) as [A1 _]; [done|apply Hl; by left|done|].
  etrans; [|apply IH; [intros; apply Hl; by right|exact A1]].
  destruct e as [tenants|k]; [apply pollCycle_guard; [done|apply Hl; by left|done]|].
  cbn. destruct (jobs s !! k) as [j|] eqn:Hk; [|reflexivity]. intros G.
  assert (guard None s (set_jobs (delete k (jobs s)) s)) as Hd.
  { apply guard_same; [done..|]. intros j' Hj'. cbn in Hj'. by eapply elem_of_submseteq, submseteq_delete. }
  assert (guard None (set_jobs (delete k (jobs s)) s) (run_job j (set_jobs (delete k (jobs s)) s))) as Hr.
  { apply run_job_guard. apply (gd_jobs _ _ G). by eapply list_elem_of_lookup_2. }
  exact (transitivity Hd Hr G).
Qed.
End whose_intervals.

(** C13: a run of the poller leaves alone a tenant it was not told to poll.
    Start from the pool session of a role subject to row-level security, with no
    goroutine of tenant [u] pending and none about one of its intervals.  Whatever
    the ticks, failures and interleaved enrichment goroutines, if no tick lists
    [u]: its services, integrations, incidents and timelines stay, and so do its
    rows of status_intervals, a table without row-level security that the poller
    writes on a connection of its own (none changes, goes or is added); and every
    new mail is another tenant's.  LLM provider rows are not part of this state:
    LlmRun.v says what a question records. *)
Theorem Run_spares_other_tenants `{!Outside} u clients done_ tenants events (s : pstate) :
  u ≠ "" → app_tenant (p_core s) = "" → bypass_rls (p_core s) = false → ctx_tenant s = "" →
  let d := tables (p_core s) in
  let owners := service_owners d in
  (∀ i r, services d !! i = Some r → SvcID (svc r) = i) →
  (∀ i x, intervals (tables (p_iv s)) !! i = Some x → IvID x = i) →
  (∀ j, j ∈ jobs s → job_tenant j ≠ u ∧ job_free u owners (tables (p_iv s)) j) →
  (∀ e, e ∈ Tick tenants :: events → u ∉ tick_tenants e) →
  let s' := Run clients done_ tenants events s in
  untouched u d (tables (p_core s')) ∧
  (∀ k x, (∃ r, services d !! ServiceID x = Some r ∧ svc_tenant r = u) →
     intervals (tables (p_iv s)) !! k = Some x ↔ intervals (tables (p_iv s')) !! k = Some x) ∧
  (∀ m, m ∈ mails s' → m ∈ mails s ∨ m.1 ≠ u).
Proof.
  intros Hu Ha Hb Hc d owners Hsk Hik Hj Hl s'. subst s'. unfold Run.
  destruct done_; [split_and!; [reflexivity|done|by left]|].
  assert (away u s) as Haw by (split; [done..|]; intros j Hin; by apply Hj).
  assert (∀ i t id, owners !! i = Some (t, id) → id = i) as Hown.
  { intros i t id. unfold owners, service_owners. rewrite lookup_fmap. destruct (services d !! i) as [r|] eqn:Hr; [|done].
    intros [= _ <-]. by apply Hsk. }
  assert (guarded u owners None s) as G by (split; [done..|by apply Hj|done]).
  destruct (pollCycle_spares u clients tenants s) as [A1 S1]; [done|apply Hl; by left|done|].
  destruct (run_events_spares u clients events (pollCycle tenants clients s)) as [_ S2];
    [done|intros; apply Hl; by right|done|].
  pose proof (pollCycle_guard u owners Hown clients tenants s Hu (Hl _ (list_elem_of_here _ _)) Haw) as G1.
  pose proof (run_events_guard u owners Hown clients events (pollCycle tenants clients s) Hu
    (λ e He, Hl e (list_elem_of_further _ _ _ He)) A1) as G2.
  assert (spares u s (foldl (λ s e, run_event_step clients e s) (pollCycle tenants clients s) events))
    as [HS HM] by (by etrans).
  split_and!; [exact HS| |exact HM]. intros k x (r & Hr & Ht). destruct (G1 G) as [G' K1]. destruct (G2 G') as [_ K2].
  assert (iv_kept u owners (tables (p_iv s))
    (tables (p_iv (foldl (λ s e, run_event_step clients e s) (pollCycle tenants clients s) events)))) as HK by (by etrans).
  apply HK. exists (SvcID (svc r)). unfold owners, service_owners. by rewrite lookup_fmap, Hr, <- Ht.
Qed.

(** a service without traffic recovers after the grace, and not before.
    Take a service in "outage" or "degraded" and any sequence of burn-path
    cycles whose short windows are empty.  Its status stays until the first cycle
    at least 15 minutes after its last error (its last change when no error was
    ever seen), is "operational" from that cycle on, and the reference time is
    never moved by the empty cycles before it. *)
Theorem zero_traffic_grace (l : list (SLOWindows * Z * Z)) (x : Service) :
  CurrentStatus x = "outage" ∨ CurrentStatus x = "degraded" →
  Forall (λ c, Requests (SwShort c.1.1) ≤ 0 ∧ Errors (SwShort c.1.1) ≤ 0) l →
  let since := default (LastStatusChangeAt x) (SvcLastErrorAt x) in
  let x' := fold_left (λ x c, burn_cycle x c.1.1 c.1.2 c.2 x) l x in
  CurrentStatus x' =
    (if existsb (λ c, zeroTrafficGrace <=? time_sub c.1.2 since) l then "operational"
     else CurrentStatus x) ∧
  SvcLastErrorAt x' = SvcLastErrorAt x ∧
  (CurrentStatus x' = CurrentStatus x → LastStatusChangeAt x' = LastStatusChangeAt x).
Proof.
  intros Hst Hl since. cbv zeta.
  assert (∀ l y, Forall (λ c : SLOWindows * Z * Z, Requests (SwShort c.1.1) ≤ 0 ∧ Errors (SwShort c.1.1) ≤ 0) l →
    CurrentStatus y = "operational" →
    let y' := fold_left (λ x c, burn_cycle x c.1.1 c.1.2 c.2 x) l y in
    CurrentStatus y' = "operational" ∧ SvcLastErrorAt y' = SvcLastErrorAt y) as Hop.
  { clear. intros l. induction l as [|[[w now] t] l IH]; intros y Hl Hy; [done|]. cbn.
    apply Forall_cons in Hl as [[H1 H2] Hl]. cbn in H1, H2.
    destruct (IH (burn_cycle y w now t y) Hl) as [E1 E2].
    - cbn. unfold classifyBurn. cbn. rewrite (proj2 (Z.leb_le _ _) H1), Hy. done.
    - rewrite E1, E2. split; [done|]. cbn. by rewrite (proj2 (Z.ltb_ge _ _) H2). }
  revert x Hst since. induction l as [|[[w now] t] l IH]; intros x Hst since; [done|].
  apply Forall_cons in Hl as [[H1 H2] Hl]. cbn in H1, H2.
  assert (SvcLastErrorAt (burn_cycle x w now t x) = SvcLastErrorAt x) as Ee
    by (cbn; by rewrite (proj2 (Z.ltb_ge _ _) H2)).
  assert (CurrentStatus (burn_cycle x w now t x) =
    if zeroTrafficGrace <=? time_sub now since then "operational" else CurrentStatus x) as Es.
  { cbn. unfold classifyBurn. cbn. rewrite (proj2 (Z.leb_le _ _) H1).
    destruct Hst as [-> | ->]; cbn; subst since; by destruct (SvcLastErrorAt x). }
  cbn [fold_left existsb fst snd].
  destruct (zeroTrafficGrace <=? time_sub now since) eqn:Eg; cbn [orb].
  - destruct (Hop l _ Hl Es) as [F1 F2]. rewrite F1, F2. split; [done|]. split; [done|].
    intros F3. by destruct Hst as [Hst|Hst]; rewrite Hst in F3.
  - assert (LastStatusChangeAt (burn_cycle x w now t x) = LastStatusChangeAt x) as Ec.
    { unfold burn_cycle, set_reading, set_status in *. cbn in *. by rewrite Es, String.eqb_refl. }
    specialize (IH Hl (burn_cycle x w now t x)). rewrite Es, Ee, Ec in IH.
    destruct (IH Hst) as (F1 & F2 & F3). done.
Qed.

(** ** Examples and witnesses *)

Definition demo_windows (errors : Z) : SLOWindows :=
  {| SwTarget := 99%float; SwTimeframe := "30d"; SwState := "breached"; SwSLI := 50%float;
     SwShort := WindowCounts 100 errors; SwLong := WindowCounts 1000 (10 * errors);
     HasSeries := true |}.

(** Datadog reports 60 % errors; the server drops the interactions listed. *)
Definition demo_outside (failing : list nat) : Outside := {|
  core_driver := failing_at failing;
  iv_driver := reliable;
  time_now n := Z.of_nat n * minute;
  timer_fires_first _ := true;
  fetch_windows _ _ _ _ _ _ := Ok (demo_windows 60);
  fetch_status _ _ _ _ _ := Err ErrServer;
  run_check _ _ _ := true;
  generate _ _ _ := Ok "text";
  enrichment_enabled _ := Ok false;
  search_issues _ _ _ _ _ _ := Ok None;
  resolve_client _ t := Ok t;
  err_text _ := "error";
|}.

Definition demo_pool_core : core :=
  {| services := {["svc-a" := demo_row]}; status_page_services := ∅; integrations := ∅;
     incidents := ∅; incident_services := []; incident_updates := []; status_pages := ∅;
     status_page_service_groups := ∅; domains := ∅ |}.
Definition demo_state : pstate :=
  PState (Session demo_pool_core "" false None false 0) demo_iv 0 ∅ [] [] "" "" 0.
Definition demo_tick : option (res db_err (list string)) := Some (Ok ["tenant-a"]).

Definition stored_statuses (s : pstate) : list string * list string :=
  ((λ p, CurrentStatus (svc p.2)) <$> map_to_list (services (tables (p_core s))),
   Status <$> rows (tables (p_iv s))).

(** a cycle whose commit fails has already acted.  The outage of a service is
    recorded in status_intervals, which commit on a connection of their own, and
    its incident is mailed; then the tenant's transaction fails to commit (the
    8th interaction with the server is lost): the service is still
    "operational", the incident does not exist, and the next cycle finds the same
    transition again and mails a second incident. *)
Theorem lost_commit_mails_twice :
  let s1 := @pollCycle (demo_outside [8%nat]) demo_tick true demo_state in
  let s2 := @pollCycle (demo_outside [8%nat]) demo_tick true s1 in
  stored_statuses s1 = (["operational"], ["outage"]) ∧
  size (incidents (tables (p_core s1))) = 0%nat ∧ length (mails s1) = 1%nat ∧
  stored_statuses s2 = (["outage"], ["outage"]) ∧
  size (incidents (tables (p_core s2))) = 1%nat ∧ length (mails s2) = 2%nat.
Proof. vm_compute. split_and!; reflexivity. Qed.

Definition demo_tx_state : pstate :=
  PState (Session demo_pool_core "tenant-a" false (Some 5) false 0) demo_iv 0 ∅ [] [] "" "tenant-a" 0.

Lemma pollService_failure_witness :
  p_core (@pollService unreachable_outside demo_service demo_tx_state).2 = p_core demo_tx_state.
Proof.
  destruct (@pollService unreachable_outside demo_service demo_tx_state) as [r s'] eqn:E.
  assert (r = (@pollService unreachable_outside demo_service demo_tx_state).1) as Hr
    by (rewrite E; reflexivity).
  vm_compute in Hr. subst r.
  destruct (@pollService_failure unreachable_outside demo_service demo_tx_state s' _ E)
    as (_ & _ & _ & Hf).
  apply (Hf ErrUnauthorized). reflexivity.
Defined.

Lemma pollService_burn_witness :
  ∃ r', services (tables (p_core (@pollService (demo_outside []) demo_service demo_tx_state).2))
          !! "svc-a" = Some r' ∧
    CurrentStatus (svc r') = "outage".
Proof.
  destruct (@pollService (demo_outside []) demo_service demo_tx_state) as [r s'] eqn:E.
  assert (r = (@pollService (demo_outside []) demo_service demo_tx_state).1) as Hr
    by (rewrite E; reflexivity).
  vm_compute in Hr. subst r.
  destruct (@pollService_burn (demo_outside []) demo_service demo_tx_state s' demo_row (demo_windows 60))
    as (r' & H1 & H2); [reflexivity|reflexivity|reflexivity|vm_compute; reflexivity|exact E|].
  exists r'. split; [exact H1|]. vm_compute in H2. injection H2 as H2 _. exact H2.
Defined.

(** Two tenants, each with a service; the second one's has an open interval. *)
Definition row_of_b : service_row :=
  {| svc_tenant := "tenant-b"; deleted_at := None;
     svc := {| SvcID := "svc-b"; SvcName := "web"; SLOID := "slo-2"; SLOName := ""; SLOType := "metric";
       DatadogServiceTag := ""; Environment := ""; MonitorMode := "slo"; PollType := None; PollTarget := None;
       PollIntervalSeconds := None; CurrentStatus := "operational"; LastStatusChangeAt := 0; StatusAnalysis := None;
       LastBurnRateShort := None; LastBurnRateLong := None; LastWindowErrors := None; LastWindowRequests := None;
       LastReadingAt := None; SvcLastErrorAt := None |} |}.
Definition interval_of_b : StatusInterval := new_interval "iv-b" "svc-b" "operational" 1%float 0.
Definition shared_pool : pstate :=
  PState (Session (set_services <["svc-b" := row_of_b]> demo_pool_core) "" false None false 0)
    (set_tables (set_intervals <["iv-b" := interval_of_b]> (tables demo_iv)) demo_iv) 0 ∅ [] [] "" "" 0.

Lemma Run_spares_other_tenants_witness :
  let s' := @Run (demo_outside []) true false demo_tick [Finish 0; Tick demo_tick] shared_pool in
  stored_statuses s' = (["outage"; "operational"], ["operational"; "outage"]) ∧
  intervals (tables (p_iv s')) !! "iv-b" = Some interval_of_b.
Proof.
  cbv zeta. split; [vm_compute; reflexivity|].
  refine (proj1 (proj1 (proj2 (@Run_spares_other_tenants (demo_outside []) "tenant-b" true false demo_tick
           [Finish 0; Tick demo_tick] shared_pool _ eq_refl eq_refl eq_refl _ _ _ _)) "iv-b" interval_of_b _) eq_refl).
  - discriminate.
  - intros i r Hr. cbn in Hr. apply lookup_insert_Some in Hr as [[<- <-]|[_ Hr]]; [reflexivity|].
    apply lookup_singleton_Some in Hr as [<- <-]. reflexivity.
  - intros i x Hx. cbn in Hx. apply lookup_insert_Some in Hx as [[<- <-]|[_ Hx]]; [reflexivity|]. discriminate Hx.
  - intros j Hj. inversion Hj.
  - intros e He. rewrite !elem_of_cons, elem_of_nil in He.
    destruct He as [-> | [-> | [-> | []]]]; cbn; rewrite ?elem_of_cons, ?elem_of_nil;
      intros Hin; decompose [or False] Hin; discriminate.
  - exists row_of_b. split; reflexivity.
Defined.

Lemma zero_traffic_grace_witness :
  let w := demo_windows 0 in
  let empty := {| SwTarget := 99%float; SwTimeframe := "30d"; SwState := "no_data";
                  SwSLI := 0%float; SwShort := WindowCounts 0 0; SwLong := WindowCounts 9 0;
                  HasSeries := true |} in
  let x := set_reading demo_reading (set_status "outage" 0 demo_service) in
  let l := [(empty, 10 * minute, 10 * minute); (empty, 20 * minute, 20 * minute)] in
  CurrentStatus (fold_left (λ x c, burn_cycle x c.1.1 c.1.2 c.2 x) l x) = "operational".
Proof.
  cbv zeta. match goal with |- CurrentStatus (fold_left _ ?l ?x) = _ =>
    destruct (zero_traffic_grace l x) as [H _] end.
  - left. reflexivity.
  - repeat constructor; vm_compute; discriminate.
  - rewrite H. vm_compute. reflexivity.
Defined.
