(* ===== verification/Manual.v ===== *)
(** * The manual scheduler (internal/poller/manual_scheduler.go)

    Services in polling mode are discovered by [reconcile] and checked by one
    loop each.  A loop's [failureStreak] and [currentStatus] are its own; every
    check persists its status in a short tenant transaction, the interval on a
    connection of its own. *)

From stdpp Require Import numbers strings gmap list.
From Stdlib Require Import ZArith Floats Lia.
From S2P Require Import Prelude GoNum Db Schema Services Intervals Retry BurnRate World.

#[local] Open Scope Z_scope.
#[local] Open Scope go_scope.

Definition manualFailureThreshold : Z := 2.

Section manual.
Context `{!Outside}.

(** ** One check *)

(** The status a check result asks for, and the new streak. *)
Definition check_status (passed : bool) (currentStatus : string) (failureStreak : Z) : string * Z :=
  if passed then ("operational", 0)
  else
    let failureStreak := wrap64 (failureStreak + 1) in
    if manualFailureThreshold <=? failureStreak then ("outage", failureStreak)
    else (currentStatus, failureStreak).

(** The short transaction that persists it: [true] when it committed. *)
Definition persist_check (tenantID serviceID status : string) (s : pstate) : bool * pstate :=
  match @BeginTenantTx core core_driver "" tenantID (p_core s) with
  | (Err _, pool) => (false, set_core pool s)
  | (Ok tx, pool) =>
      let write :=
        at_ <- ask time_now ;;
        on_iv (@OpenOrExtend iv_driver serviceID status 0%float at_) ;;;
        on_core (@UpdateStatus core_driver serviceID status) in
      match write (set_core tx s) with
      | (Err _, s1) => (false, set_core (tx_rollback (p_core s1) pool) s1)
      | (Ok _, s1) =>
          match @tx_commit core core_driver (p_core s1) pool with
          | (Err _, pool1) => (false, set_core (tx_rollback (p_core s1) pool1) s1)
          | (Ok _, pool1) => (true, set_core pool1 s1)
          end
      end
  end.

(** [runCheck]: the status carried into the next check and the streak. *)
Definition runCheck (tenantID serviceID pollType pollTarget currentStatus : string)
    (failureStreak : Z) (s : pstate) : string * Z * pstate :=
  let passed := run_check (ev s) pollType pollTarget in
  let '(status, streak) := check_status passed currentStatus failureStreak in
  let '(stored, s1) := persist_check tenantID serviceID status (bump_ev s) in
  (if stored then status else currentStatus, streak, s1).

(** [runServiceLoop] for [ticks] checks after the first; a service without a
    positive interval is skipped, a done context checks nothing. *)
Fixpoint check_loop (n : nat) (tenantID serviceID pollType pollTarget currentStatus : string)
    (failureStreak : Z) (s : pstate) : string * Z * pstate :=
  match n with
  | O => (currentStatus, failureStreak, s)
  | Datatypes.S n =>
      let '(status, streak, s1) :=
        runCheck tenantID serviceID pollType pollTarget currentStatus failureStreak s in
      check_loop n tenantID serviceID pollType pollTarget status streak s1
  end.

Definition runServiceLoop (done_ : bool) (ticks : nat) (tenantID : string) (x : Service)
    (s : pstate) : string * Z * pstate :=
  if default 0 (PollIntervalSeconds x) <=? 0 then (CurrentStatus x, 0, s)
  else if done_ then (CurrentStatus x, 0, s)
  else check_loop (Datatypes.S ticks) tenantID (SvcID x) (default "" (PollType x))
         (default "" (PollTarget x)) (CurrentStatus x) 0 s.

(** ** Discovery *)

(** What [reconcile] works on: the services it has a goroutine for, by id with
    their tenant, and what it did in this pass. *)
Record reconciler := Reconciler {
  tracked : gmap string string;
  spawned : list (string * Service);
  cancelled : list string;
  liveIDs : gset string;
  failedTenantIDs : gset string;
}.

(** One live service: a goroutine unless it already has one. *)
Definition track (tenantID : string) (r : reconciler) (x : Service) : reconciler :=
  let live := {[SvcID x]} ∪ liveIDs r in
  match tracked r !! SvcID x with
  | Some _ => Reconciler (tracked r) (spawned r) (cancelled r) live (failedTenantIDs r)
  | None => Reconciler (<[SvcID x := tenantID]> (tracked r)) (spawned r ++ [(tenantID, x)])
              (cancelled r) live (failedTenantIDs r)
  end.

Definition mark_failed (tenantID : string) (r : reconciler) : reconciler :=
  Reconciler (tracked r) (spawned r) (cancelled r) (liveIDs r) ({[tenantID]} ∪ failedTenantIDs r).

(** The tenant's services, listed in a short transaction that is committed. *)
Definition list_tenant (tenantID : string) (p : session core) :
    res db_err (list Service) * session core :=
  match @BeginTenantTx core core_driver "" tenantID p with
  | (Err e, pool) => (Err e, pool)
  | (Ok tx, pool) =>
      match @ListPollingManual core_driver tx with
      | (Err e, tx1) => (Err e, tx_rollback tx1 pool)
      | (Ok l, tx1) =>
          match @tx_commit core core_driver tx1 pool with
          | (Err e, pool1) => (Err e, tx_rollback tx1 pool1)
          | (Ok _, pool1) => (Ok l, pool1)
          end
      end
  end.

Definition reconcile_tenant (tenantID : string) (rp : reconciler * session core) :
    reconciler * session core :=
  let '(r, p) := rp in
  match list_tenant tenantID p with
  | (Err _, p1) => (mark_failed tenantID r, p1)
  | (Ok l, p1) => (foldl (track tenantID) r l, p1)
  end.

(** The services that are neither live nor of a failed tenant are stopped. *)
Definition kept (r : reconciler) (p : string * string) : bool :=
  bool_decide (p.1 ∈ liveIDs r) || bool_decide (p.2 ∈ failedTenantIDs r).
Definition sweep (r : reconciler) : reconciler :=
  Reconciler (filter (λ p, kept r p = true) (tracked r)) (spawned r)
    (cancelled r ++ (fst <$> map_to_list (filter (λ p, kept r p ≠ true) (tracked r))))
    (liveIDs r) (failedTenantIDs r).

Definition reconcile (tenants : res db_err (list string)) (tr : gmap string string)
    (p : session core) : reconciler * session core :=
  let r := Reconciler tr [] [] ∅ ∅ in
  match tenants with
  | Err _ => (r, p)
  | Ok l =>
      let '(r1, p1) := foldl (λ rp t, reconcile_tenant t rp) (r, p) l in
      (sweep r1, p1)
  end.
End manual.

(** ** Lemmas *)

(** *** The checks a loop makes *)

(** Failed checks at the end of a history, oldest first. *)
Definition trailing_failures (l : list bool) : Z :=
  foldl (λ k passed, if passed : bool then 0 else k + 1) 0 l.

(** Two checks in a row failed somewhere in it. *)
Definition two_in_a_row (l : list bool) : Prop := ∃ a b, l = a ++ [false; false] ++ b.

Lemma trailing_snoc l v :
  trailing_failures (l ++ [v]) = if v : bool then 0 else trailing_failures l + 1.
Proof. unfold trailing_failures. by rewrite foldl_app. Qed.

Lemma trailing_range l : 0 ≤ trailing_failures l ≤ Z.of_nat (length l).
Proof.
  induction l as [|v l IH] using rev_ind; [done|]. rewrite trailing_snoc, length_app.
  cbn [length]. destruct v; lia.
Qed.

Lemma trailing_one l : 1 ≤ trailing_failures l → last l = Some false.
Proof.
  destruct l as [|v l _] using rev_ind; [cbn; lia|].
  rewrite trailing_snoc, last_snoc. destruct v; [lia|done].
Qed.

Lemma trailing_two l : 2 ≤ trailing_failures l → two_in_a_row l.
Proof.
  destruct l as [|v l _] using rev_ind; [cbn; lia|].
  rewrite trailing_snoc. destruct v; [lia|]. intros Hl.
  assert (last l = Some false) as [l' ->]%last_Some by (apply trailing_one; lia).
  exists l', []. by rewrite <- app_assoc.
Qed.

Lemma two_in_a_row_app l k : two_in_a_row l → two_in_a_row (l ++ k).
Proof. intros (a & b & ->). exists a, (b ++ k). by rewrite <- !app_assoc. Qed.

Section loop.
Context `{!Outside}.

(** What each check of a loop found, and whether its result was stored. *)
Fixpoint check_log (n : nat) (t i ty ta cur : string) (streak : Z) (s : pstate) :
    list (bool * bool) :=
  match n with
  | O => []
  | Datatypes.S n =>
      let r := runCheck t i ty ta cur streak s in
      let status := (check_status (run_check (ev s) ty ta) cur streak).1 in
      (run_check (ev s) ty ta, (persist_check t i status (bump_ev s)).1)
        :: check_log n t i ty ta r.1.1 r.1.2 r.2
  end.

(** What the carried status says about the history: an outage was two failures
    in a row; with every result stored, two trailing failures are an outage and
    a success is operational. *)
Definition carries (all_stored : bool) (pre : list bool) (cur : string) : Prop :=
  (cur = "outage" → two_in_a_row pre) ∧
  (all_stored = true →
    (2 ≤ trailing_failures pre → cur = "outage") ∧
    (last pre = Some true → cur = "operational")).

Lemma runCheck_carries t i ty ta cur pre s ok :
  Z.of_nat (length pre) < 2 ^ 62 →
  let v := run_check (ev s) ty ta in
  let stored := (persist_check t i (check_status v cur (trailing_failures pre)).1 (bump_ev s)).1 in
  let r := runCheck t i ty ta cur (trailing_failures pre) s in
  (ok = true → stored = true) →
  carries ok pre cur →
  carries ok (pre ++ [v]) r.1.1 ∧ r.1.2 = trailing_failures (pre ++ [v]).
Proof.
  intros Hlen v stored r Hok [H1 H2]. pose proof (trailing_range pre) as Hr.
  unfold r, runCheck. fold v. unfold carries. rewrite trailing_snoc, last_snoc.
  revert stored Hok. destruct v; cbn [check_status fst].
  - destruct (persist_check t i "operational" (bump_ev s)) as [b s1]. cbn. intros Hok.
    split_and!; [|intros ->; specialize (Hok eq_refl); subst b; split; [lia|done]|done].
    destruct b; [done|]. intros. by apply two_in_a_row_app, H1.
  - rewrite wrap64_id by (unfold in_int64, int64_min, int64_max; lia).
    unfold manualFailureThreshold. destruct (Z.leb_spec 2 (trailing_failures pre + 1)) as [Hg|Hg]; cbn [fst].
    + destruct (persist_check t i "outage" (bump_ev s)) as [b s1]. cbn. intros Hok.
      split_and!; [|intros ->; specialize (Hok eq_refl); subst b; done|done].
      intros _. apply trailing_two. rewrite trailing_snoc. lia.
    + destruct (persist_check t i cur (bump_ev s)) as [b s1]. cbn. intros Hok.
      assert ((if b then cur else cur) = cur) as -> by (by destruct b).
      split_and!; [|intros; split; [lia|done]|done].
      intros. by apply two_in_a_row_app, H1.
Qed.

Lemma check_loop_carries n t i ty ta cur pre s ok :
  Z.of_nat (length pre) + Z.of_nat n < 2 ^ 62 →
  let log := check_log n t i ty ta cur (trailing_failures pre) s in
  let r := check_loop n t i ty ta cur (trailing_failures pre) s in
  (ok = true → Forall (λ p, p.2 = true) log) →
  carries ok pre cur →
  carries ok (pre ++ log.*1) r.1.1 ∧ r.1.2 = trailing_failures (pre ++ log.*1).
Proof.
  revert cur pre s. induction n as [|n IH]; intros cur pre s Hlen log r Hok Hc.
  { unfold log, r. cbn. by rewrite app_nil_r. }
  unfold log, r in *. cbn [check_log check_loop fmap list_fmap fst] in *.
  destruct (runCheck_carries t i ty ta cur pre s ok) as [Hc' Hk]; [lia| |done|].
  { intros Hs. specialize (Hok Hs). by inversion Hok. }
  destruct (runCheck t i ty ta cur (trailing_failures pre) s) as [[st k] s1]. cbn in Hk, Hc', Hok |- *.
  subst k. rewrite cons_middle, app_assoc. apply IH; [rewrite length_app; cbn; lia| |done].
  intros Hs. specialize (Hok Hs). by inversion Hok.
Qed.
End loop.

(** *** A discovery pass *)

Section discovery.
Context `{!Outside}.

(** What the pass was told about each tenant. *)
Fixpoint listings (l : list string) (p : session core) :
    list (string * res db_err (list Service)) :=
  match l with
  | [] => []
  | t :: l => (t, (list_tenant t p).1) :: listings l (list_tenant t p).2
  end.

(** A service the pass was told is live, and a tenant it could not list. *)
Definition listed (ls : list (string * res db_err (list Service))) (id : string) : Prop :=
  ∃ t svcs x, (t, Ok svcs) ∈ ls ∧ x ∈ svcs ∧ SvcID x = id.
Definition unlisted (ls : list (string * res db_err (list Service))) (t : string) : Prop :=
  ∃ e, (t, Err e) ∈ ls.

(** What holds of a pass that started from [tr] and was told [ls] so far. *)
Record pass (tr : gmap string string) (ls : list (string * res db_err (list Service)))
    (r : reconciler) : Prop := Pass {
  pass_live : ∀ id, id ∈ liveIDs r ↔ listed ls id;
  pass_failed : ∀ t, t ∈ failedTenantIDs r ↔ unlisted ls t;
  pass_old : tr ⊆ tracked r;
  pass_new : ∀ id, is_Some (tracked r !! id) ↔
               is_Some (tr !! id) ∨ id ∈ SvcID ∘ snd <$> spawned r;
  pass_once : NoDup (SvcID ∘ snd <$> spawned r);
  pass_spawned : ∀ t x, (t, x) ∈ spawned r → tr !! SvcID x = None ∧ SvcID x ∈ liveIDs r;
  pass_tracked : ∀ id, id ∈ liveIDs r → is_Some (tracked r !! id);
  pass_cancelled : cancelled r = [];
}.

Lemma track_spec tr ls r t x done_ :
  pass tr (ls ++ [(t, Ok done_)]) r →
  pass tr (ls ++ [(t, Ok (done_ ++ [x]))]) (track t r x).
Proof.
  intros [H1 H2 H3 H4 H5 H6 H7 H8].
  assert (∀ id, id ∈ ({[SvcID x]} ∪ liveIDs r : gset string) ↔
                listed (ls ++ [(t, Ok (done_ ++ [x]))]) id) as Hl.
  { intros id. rewrite elem_of_union, elem_of_singleton, H1. unfold listed.
    setoid_rewrite elem_of_app. setoid_rewrite list_elem_of_singleton. split.
    - intros [->|(t' & sv & y & [Hi|[= -> ->]] & Hy & <-)]; [|by eauto 10|].
      + eexists t, _, x. split; [by right|]. split; [|done]. set_solver.
      + eexists t, _, y. split; [by right|]. split; [|done]. set_solver.
    - intros (t' & sv & y & [Hi|[= -> ->]] & Hy & <-); [right; by eauto 10|].
      apply elem_of_app in Hy as [Hy| ->%list_elem_of_singleton]; [right; by eauto 10|by left]. }
  assert (∀ u, u ∈ failedTenantIDs r ↔ unlisted (ls ++ [(t, Ok (done_ ++ [x]))]) u) as Hf.
  { intros u. rewrite H2. unfold unlisted. setoid_rewrite elem_of_app.
    setoid_rewrite list_elem_of_singleton. naive_solver. }
  unfold track. destruct (tracked r !! SvcID x) as [u|] eqn:Hx; split; cbn; try done.
  - intros u' y Hy. destruct (H6 u' y Hy). set_solver.
  - intros id [->%elem_of_singleton|Hi]%elem_of_union; eauto.
  - assert (tr !! SvcID x = None) as Hn.
    { destruct (tr !! SvcID x) eqn:E; [|done]. apply (lookup_weaken _ _ _ _ E) in H3. congruence. }
    by apply insert_subseteq_r.
  - intros id. rewrite fmap_app, elem_of_app. cbn. rewrite list_elem_of_singleton.
    destruct (decide (id = SvcID x)) as [->|Hne].
    { rewrite lookup_insert_eq. naive_solver. }
    rewrite lookup_insert_ne by done. rewrite H4. naive_solver.
  - rewrite fmap_app. apply NoDup_app. split_and!; [done| |apply NoDup_singleton].
    cbn. intros id Hi ->%list_elem_of_singleton.
    destruct (proj2 (H4 (SvcID x)) (or_intror Hi)). congruence.
  - intros u y [Hy|[= -> ->]%list_elem_of_singleton]%elem_of_app.
    { destruct (H6 u y Hy). split; [done|]. set_solver. }
    split; [|set_solver].
    destruct (tr !! SvcID x) eqn:E; [|done]. apply (lookup_weaken _ _ _ _ E) in H3. congruence.
  - intros id Hi. destruct (decide (id = SvcID x)) as [->|Hne]; [by rewrite lookup_insert_eq|].
    rewrite lookup_insert_ne by done. apply H7. set_solver.
Qed.

Lemma track_all_spec tr ls r t svcs done_ :
  pass tr (ls ++ [(t, Ok done_)]) r →
  pass tr (ls ++ [(t, Ok (done_ ++ svcs))]) (foldl (track t) r svcs).
Proof.
  revert r done_. induction svcs as [|x svcs IH]; intros r done_ Hp; cbn.
  { by rewrite app_nil_r. }
  rewrite (cons_middle x done_ svcs), (app_assoc done_). by apply IH, track_spec.
Qed.

Lemma pass_told tr ls r t :
  pass tr ls r → pass tr (ls ++ [(t, Ok [])]) r.
Proof.
  intros [H1 H2 H3 H4 H5 H6 H7 H8]. split; [| |done..].
  - intros id. rewrite H1. unfold listed. setoid_rewrite elem_of_app.
    setoid_rewrite list_elem_of_singleton. split; [naive_solver|].
    intros (t' & sv & x & [Hi|[= -> ->]] & Hx & <-); [by eauto 10|set_solver].
  - intros u. rewrite H2. unfold unlisted. setoid_rewrite elem_of_app.
    setoid_rewrite list_elem_of_singleton. naive_solver.
Qed.

Lemma pass_mark tr ls r t e :
  pass tr ls r → pass tr (ls ++ [(t, Err e)]) (mark_failed t r).
Proof.
  intros [H1 H2 H3 H4 H5 H6 H7 H8]. split; cbn; [| |done..].
  - intros id. rewrite H1. unfold listed. setoid_rewrite elem_of_app.
    setoid_rewrite list_elem_of_singleton. naive_solver.
  - intros u. rewrite elem_of_union, elem_of_singleton, H2. unfold unlisted.
    setoid_rewrite elem_of_app. setoid_rewrite list_elem_of_singleton. naive_solver.
Qed.

Lemma pass_all tr l r p ls :
  pass tr ls r →
  pass tr (ls ++ listings l p) (foldl (λ rp t, reconcile_tenant t rp) (r, p) l).1.
Proof.
  revert r p ls. induction l as [|t l IH]; intros r p ls Hp; cbn; [by rewrite app_nil_r|].
  rewrite cons_middle, app_assoc.
  destruct (list_tenant t p) as [[svcs|e] p1]; cbn; apply IH.
  - apply (track_all_spec _ _ _ _ svcs []). by apply pass_told.
  - by apply pass_mark.
Qed.

Lemma pass_start tr : pass tr [] (Reconciler tr [] [] ∅ ∅).
Proof.
  split; cbn; [..|by intros ? ?%elem_of_empty|done].
  - intros id. split; [by intros ?%elem_of_empty|]. intros (? & ? & ? & ?%elem_of_nil & _). done.
  - intros t. split; [by intros ?%elem_of_empty|]. intros (? & ?%elem_of_nil). done.
  - done.
  - intros id. rewrite elem_of_nil. naive_solver.
  - apply NoDup_nil_2.
  - by intros ? ? ?%elem_of_nil.
Qed.
End discovery.

(** ** Properties *)

(** a service's own check loop never reports an outage before two checks in a
    row have failed, whatever the database does with the results; its streak
    counts the failures since the last success; and as long as every result is
    stored, two trailing failures are an outage and one success ends it. *)
Theorem manual_hysteresis `{!Outside} (n : nat) (t i ty ta cur : string) (s : pstate) :
  Z.of_nat n < 2 ^ 62 → cur ≠ "outage" →
  let log := check_log n t i ty ta cur 0 s in
  let r := check_loop n t i ty ta cur 0 s in
  r.1.2 = trailing_failures log.*1 ∧
  (r.1.1 = "outage" → two_in_a_row log.*1) ∧
  (Forall (λ p, p.2 = true) log →
   (2 ≤ trailing_failures log.*1 → r.1.1 = "outage") ∧
   (last log.*1 = Some true → r.1.1 = "operational")).
Proof.
  intros Hn Hc log r.
  assert (∀ ok, carries ok [] cur) as Hstart by (split; [done|split; [cbn; lia|done]]).
  assert (∀ ok, (ok = true → Forall (λ p, p.2 = true) log) →
                carries ok log.*1 r.1.1 ∧ r.1.2 = trailing_failures log.*1) as Hall.
  { intros ok Hok. apply (check_loop_carries n t i ty ta cur [] s ok); [cbn; lia|done|done]. }
  destruct (Hall false) as [[H1 _] Hk]; [done|]. split_and!; [done..|].
  intros Hs. destruct (Hall true) as [[_ H2] _]; [done|]. by apply H2.
Qed.

(** a discovery pass leaves a check loop running for exactly the services it
    was told are live and those of the tenants it could not list; it starts a
    loop once for each live service that had none and for no other, stops the
    loops of exactly the tracked services that are gone from a tenant it could
    list, and does nothing when the tenants themselves cannot be listed. *)
Theorem reconcile_pass `{!Outside} (tenants : res db_err (list string))
    (tr : gmap string string) (p : session core) :
  let r := (reconcile tenants tr p).1 in
  match tenants with
  | Err _ => r = Reconciler tr [] [] ∅ ∅
  | Ok l =>
      let ls := listings l p in
      NoDup (SvcID ∘ snd <$> spawned r) ∧
      (∀ id, id ∈ SvcID ∘ snd <$> spawned r ↔ listed ls id ∧ tr !! id = None) ∧
      (∀ id, id ∈ cancelled r ↔
         ∃ t, tr !! id = Some t ∧ ¬ listed ls id ∧ ¬ unlisted ls t) ∧
      (∀ id, is_Some (tracked r !! id) ↔
         listed ls id ∨ ∃ t, tr !! id = Some t ∧ unlisted ls t)
  end.
Proof.
  destruct tenants as [l|e]; [|done]. cbn zeta. unfold reconcile.
  pose proof (pass_all tr l (Reconciler tr [] [] ∅ ∅) p [] (pass_start tr)) as Hp.
  rewrite app_nil_l in Hp. destruct (foldl _ _ l) as [r p1]. cbn in *.
  destruct Hp as [H1 H2 H3 H4 H5 H6 H7 H8].
  assert (∀ id, id ∈ SvcID ∘ snd <$> spawned r ↔ listed (listings l p) id ∧ tr !! id = None) as Hsp.
  { intros id. split.
    - intros ([t x] & -> & Hx)%list_elem_of_fmap. cbn. rewrite <- H1. destruct (H6 t x Hx). done.
    - intros [Hl Hn]. apply H1, H7, H4 in Hl as [[u Hu]|Hl]; [congruence|done]. }
  assert (∀ id t, kept r (id, t) = true ↔ listed (listings l p) id ∨ unlisted (listings l p) t) as Hk.
  { intros id t. unfold kept. cbn. rewrite orb_true_iff, !bool_decide_eq_true. by rewrite H1, H2. }
  split_and!; [done|done| |].
  - intros id. rewrite H8. cbn. rewrite list_elem_of_fmap. split.
    + intros ([id' t] & -> & Hin). apply elem_of_map_to_list, map_lookup_filter_Some in Hin as [Hl Hnk].
      cbn. rewrite Hk in Hnk. exists t. split; [|by split; intros ?; apply Hnk; auto].
      destruct (proj1 (H4 id') (mk_is_Some _ _ Hl)) as [[u Hu]|Hs].
      { pose proof (lookup_weaken _ _ _ _ Hu H3). congruence. }
      apply Hsp in Hs as [Hs _]. destruct Hnk. by left.
    + intros (t & Ht & Hnl & Hnu). exists (id, t). split; [done|].
      apply elem_of_map_to_list, map_lookup_filter_Some. split; [by eapply lookup_weaken|].
      rewrite Hk. by intros [?|?].
  - intros id. split.
    + intros [t Ht]. apply map_lookup_filter_Some in Ht as [Hl Hkept]. apply Hk in Hkept as [?|Hu]; [by left|].
      destruct (proj1 (H4 id) (mk_is_Some _ _ Hl)) as [[u Ho]|Hs]; [|left; by apply Hsp in Hs as [? _]].
      right. exists t. split; [|done]. pose proof (lookup_weaken _ _ _ _ Ho H3). congruence.
    + intros [Hl|(t & Ht & Hu)].
      * pose proof Hl as [t Ht]%H1%H7. exists t. apply map_lookup_filter_Some. split; [done|].
        apply Hk. by left.
      * exists t. apply map_lookup_filter_Some. split; [by eapply lookup_weaken|]. apply Hk. by right.
Qed.

(** ** Examples and witnesses *)

(** The target answers the checks whose number is not in [down]. *)
Definition manual_outside (down : list nat) : Outside := {|
  core_driver := reliable; iv_driver := reliable; time_now n := Z.of_nat n * second;
  timer_fires_first _ := true;
  fetch_windows _ _ _ _ _ _ := Err ErrUnauthorized;
  fetch_status _ _ _ _ _ := Err ErrServer;
  run_check n _ _ := negb (bool_decide (n ∈ down));
  generate _ _ _ := Err tt; enrichment_enabled _ := Ok false;
  search_issues _ _ _ _ _ _ := Ok None; resolve_client _ t := Ok t; err_text _ := "error";
|}.

Definition manual_state : pstate :=
  PState (Session demo_core "" false None false 0) demo_iv 0 ∅ [] [] "" "" 0.

(** Checks number 2, 4 and 6 of the outside are the second to fourth checks. *)
Example one_failure_is_no_outage :
  (@check_loop (manual_outside [2%nat]) 2 "tenant-a" "svc-a" "http" "t" "operational" 0 manual_state).1
  = ("operational", 1).
Proof. vm_compute. reflexivity. Qed.
Example two_failures_are :
  (@check_loop (manual_outside [2; 4]%nat) 3 "tenant-a" "svc-a" "http" "t" "operational" 0 manual_state).1
  = ("outage", 2).
Proof. vm_compute. reflexivity. Qed.

Lemma manual_hysteresis_witness :
  (@check_loop (manual_outside [2; 4]%nat) 3 "tenant-a" "svc-a" "http" "t" "operational" 0 manual_state).1.1
  = "outage".
Proof.
  destruct (@manual_hysteresis (manual_outside [2; 4]%nat) 3 "tenant-a" "svc-a" "http" "t"
              "operational" manual_state) as (_ & _ & Hall); [lia|discriminate|].
  apply Hall; [repeat constructor|vm_compute; discriminate].
Defined.

(** A polling service of tenant-a, without a goroutine; one of a service that is
    gone; and one of a tenant that is not listed. *)
Definition polling_row : service_row :=
  {| svc_tenant := "tenant-a"; deleted_at := None;
     svc := {| SvcID := "svc-p"; SvcName := "site"; SLOID := ""; SLOName := ""; SLOType := "";
               DatadogServiceTag := ""; Environment := ""; MonitorMode := "polling";
               PollType := Some "http"; PollTarget := Some "https://example.com";
               PollIntervalSeconds := Some 60; CurrentStatus := "operational";
               LastStatusChangeAt := 0; StatusAnalysis := None; LastBurnRateShort := None;
               LastBurnRateLong := None; LastWindowErrors := None; LastWindowRequests := None;
               LastReadingAt := None; SvcLastErrorAt := None |} |}.
Definition polling_pool : session core :=
  Session {| services := {["svc-p" := polling_row]}; status_page_services := ∅; integrations := ∅;
             incidents := ∅; incident_services := []; incident_updates := []; status_pages := ∅;
     status_page_service_groups := ∅; domains := ∅ |} "" false None false 0.

Example reconcile_starts_and_stops :
  let r := (@reconcile (manual_outside []) (Ok ["tenant-a"]) {["gone" := "tenant-a"]} polling_pool).1 in
  (SvcID ∘ snd <$> spawned r, cancelled r, map_to_list (tracked r)) =
  (["svc-p"], ["gone"], [("svc-p", "tenant-a")]).
Proof. vm_compute. reflexivity. Qed.
