(* ===== verification/History.v ===== *)
(** * The public history: buckets and uptime (internal/history, internal/api/time_range.go)

    What the status page draws from a service's status intervals: one bucket per
    local span of the selected range, coloured by the worst status that touched
    it, and the uptime percentage of the window.  The time-zone database is not
    under src/: local midnight of an instant is the parameter [midnight]. *)

From stdpp Require Import numbers strings sets list sorting.
From Stdlib Require Import ZArith Floats Lia.
From S2P Require Import Prelude GoNum GoFloat Intervals.

#[local] Open Scope Z_scope.

(** ** Ranges *)

Record rangeSpec := RangeSpec {
  rs_window : Z;
  rs_bucketWidth : Z;
  rs_bucketCount : Z;
}.

Definition rangeSpecs (key : string) : option rangeSpec :=
  if String.eqb key "24h" then Some (RangeSpec (24 * hour) (1 * hour) 24)
  else if String.eqb key "7d" then Some (RangeSpec (7 * 24 * hour) (6 * hour) 28)
  else if String.eqb key "30d" then Some (RangeSpec (30 * 24 * hour) (24 * hour) 30)
  else if String.eqb key "90d" then Some (RangeSpec (90 * 24 * hour) (24 * hour) 90)
  else None.

(** [parseRange] of the query's raw value. *)
Definition parseRange (raw : string) : option rangeSpec :=
  if String.eqb raw "" then rangeSpecs "24h" else rangeSpecs raw.

(** ** Buckets *)

Definition NoData : string := "no_data".

(** A status that is not in the map has priority 0. *)
Definition statusPriority (status : string) : Z :=
  if String.eqb status "outage" then 3
  else if String.eqb status "degraded" then 2
  else if String.eqb status "operational" then 1
  else 0.

Record Episode := {
  EpStartsAt : Z;
  EpEndsAt : option Z;
  EpAnalysis : option string;
}.

Record Bucket := {
  BkStart : Z;
  BkStatus : string;
  Episodes : list Episode;
}.

Definition episode (x : StatusInterval) : Episode :=
  {| EpStartsAt := StartsAt x; EpEndsAt := EndsAt x; EpAnalysis := Analysis x |}.

(** The body of the innermost loop: one interval on one bucket. *)
Definition paint_bucket (x : StatusInterval) (b : Bucket) : Bucket :=
  {| BkStart := BkStart b;
     BkStatus := if statusPriority (BkStatus b) <? statusPriority (Status x)
                 then Status x else BkStatus b;
     Episodes := if String.eqb (Status x) "degraded" then Episodes b ++ [episode x]
                 else Episodes b |}.

(** [for i := first; i <= last; i++], an index out of range skipped. *)
Definition paint_range (x : StatusInterval) (first last_ : Z) (bs : list Bucket) : list Bucket :=
  foldl (λ bs i, if (i <? 0) || (Z.of_nat (length bs) <=? i) then bs
                 else alter (paint_bucket x) (Z.to_nat i) bs)
    bs (seqZ first (last_ - first + 1)).

(** When an interval ends, as far as the poller has confirmed it. *)
Definition end_of (asOf : Z) (x : StatusInterval) : Z := default asOf (EndsAt x).

Definition firstIndex (leftmostStart bucketWidth : Z) (x : StatusInterval) : Z :=
  let i := go_div (time_sub (StartsAt x) leftmostStart) bucketWidth in
  if i <? 0 then 0 else i.

Definition lastIndex (leftmostStart bucketWidth bucketCount asOf : Z) (x : StatusInterval) : Z :=
  let endOffset := time_sub (end_of asOf x) leftmostStart in
  let i := go_div endOffset bucketWidth in
  let rem := go_mod endOffset bucketWidth in
  let i := if rem =? 0 then i - 1 else if rem <? 0 then i - 1 else i in
  if bucketCount <=? i then bucketCount - 1 else i.

Definition paint (leftmostStart bucketWidth bucketCount asOf : Z) (bs : list Bucket)
    (x : StatusInterval) : list Bucket :=
  if negb (time_after (end_of asOf x) (StartsAt x)) then bs
  else paint_range x (firstIndex leftmostStart bucketWidth x)
         (lastIndex leftmostStart bucketWidth bucketCount asOf x) bs.

(** sort.Slice by StartsAt, latest first; Go leaves the order of equal keys open. *)
Definition later_first (a b : Episode) : Prop := EpStartsAt b ≤ EpStartsAt a.
#[global] Instance later_first_dec : RelDecision later_first.
Proof. intros a b. unfold later_first. apply _. Defined.

Definition sort_episodes (b : Bucket) : Bucket :=
  {| BkStart := BkStart b; BkStatus := BkStatus b;
     Episodes := merge_sort later_first (Episodes b) |}.

Section buckets.
(** time.Date(year, month, day, 0, 0, 0, 0, loc) of the instant's local date. *)
Variable midnight : Z → Z.

Definition current_start (now bucketWidth : Z) : Z :=
  let dayStart := midnight now in
  let elapsed := time_sub now dayStart in
  time_add dayStart (go_mul (go_div elapsed bucketWidth) bucketWidth).

Definition leftmost_start (now bucketCount bucketWidth : Z) : Z :=
  time_add (current_start now bucketWidth) (go_mul (- (bucketCount - 1)) bucketWidth).

Definition empty_buckets (leftmostStart bucketCount bucketWidth : Z) : list Bucket :=
  (λ i, {| BkStart := time_add leftmostStart (go_mul i bucketWidth);
           BkStatus := NoData; Episodes := [] |}) <$> seqZ 0 bucketCount.

Definition BuildBuckets (ivs : list StatusInterval) (now asOf bucketCount bucketWidth : Z) :
    list Bucket :=
  let leftmostStart := leftmost_start now bucketCount bucketWidth in
  let buckets := empty_buckets leftmostStart bucketCount bucketWidth in
  sort_episodes <$> foldl (paint leftmostStart bucketWidth bucketCount asOf) buckets ivs.
End buckets.

(** ** Uptime *)

Definition earliest (x : StatusInterval) (ivs : list StatusInterval) : Z :=
  foldl (λ e y, if time_before (StartsAt y) e then StartsAt y else e) (StartsAt x) ivs.

Definition denominator_start (x : StatusInterval) (ivs : list StatusInterval) (windowStart : Z) : Z :=
  if time_after (earliest x ivs) windowStart then earliest x ivs else windowStart.

(** How long one interval was down within [denominatorStart, asOf]. *)
Definition overlap (denominatorStart asOf : Z) (x : StatusInterval) : Z :=
  let start := if time_before (StartsAt x) denominatorStart then denominatorStart else StartsAt x in
  let end_ := match EndsAt x with
              | Some e => if time_before e asOf then e else asOf
              | None => asOf
              end in
  let end_ := if time_after end_ asOf then asOf else end_ in
  time_sub end_ start.

Definition downtime (denominatorStart asOf : Z) (ivs : list StatusInterval) : Z :=
  foldl (λ d x, if negb (String.eqb (Status x) "outage") then d
                else if 0 <? overlap denominatorStart asOf x
                     then go_add d (overlap denominatorStart asOf x) else d) 0 ivs.

Definition percent (down total : Z) : float :=
  let pct := ((1 - float_of_int64 down / float_of_int64 total) * 100)%float in
  let pct := if flt pct 0%float then 0%float else pct in
  let pct := if fgt pct 100%float then 100%float else pct in
  (math_Floor (pct * 10) / 10)%float.

(** [None] is [ok = false]: a dash is rendered. *)
Definition UptimePercent (ivs : list StatusInterval) (windowStart asOf : Z) : option float :=
  match ivs with
  | [] => None
  | x :: rest =>
      let denominatorStart := denominator_start x rest windowStart in
      let total := time_sub asOf denominatorStart in
      if total <=? 0 then None
      else Some (percent (downtime denominatorStart asOf ivs) total)
  end.

(** ** Lemmas *)

(** *** Painting *)

Lemma paint_range_length x f l bs : length (paint_range x f l bs) = length bs.
Proof.
  unfold paint_range. generalize (seqZ f (l - f + 1)) as is_. intros is_. revert bs.
  induction is_ as [|i is_ IH]; intros bs; [done|]. cbn. rewrite IH.
  destruct (_ || _); [done|]. by rewrite length_alter.
Qed.

Lemma paint_range_lookup x f l bs (i : nat) :
  paint_range x f l bs !! i =
  (if bool_decide (f ≤ Z.of_nat i ≤ l) then paint_bucket x else id) <$> bs !! i.
Proof.
  unfold paint_range.
  enough (∀ is_, NoDup is_ → ∀ bs,
    foldl (λ bs i, if (i <? 0) || (Z.of_nat (length bs) <=? i) then bs
                   else alter (paint_bucket x) (Z.to_nat i) bs) bs is_ !! i =
    (if bool_decide (Z.of_nat i ∈ is_) then paint_bucket x else id) <$> bs !! i) as Hgen.
  { rewrite Hgen by apply NoDup_seqZ. f_equal.
    rewrite (bool_decide_ext _ (f ≤ Z.of_nat i ≤ l)); [done|]. rewrite elem_of_seqZ. lia. }
  clear bs. intros is_ Hnd. induction Hnd as [|j is_ Hj Hnd IH]; intros bs.
  { cbn. by destruct (bs !! i). }
  cbn. rewrite IH. clear IH.
  destruct (decide (j = Z.of_nat i)) as [->|Hne].
  - rewrite (bool_decide_false (Z.of_nat i ∈ is_)) by done.
    rewrite (bool_decide_true (_ ∈ _ :: _)) by left.
    destruct (bs !! i) as [b|] eqn:Hb.
    + pose proof (lookup_lt_Some _ _ _ Hb).
      destruct (Z.ltb_spec (Z.of_nat i) 0), (Z.leb_spec (Z.of_nat (length bs)) (Z.of_nat i)); try lia.
      cbn. rewrite Nat2Z.id, list_lookup_alter_eq, Hb. done.
    + destruct (_ || _); rewrite ?Nat2Z.id, ?list_lookup_alter_eq, Hb; done.
  - rewrite (bool_decide_ext (Z.of_nat i ∈ j :: is_) (Z.of_nat i ∈ is_))
      by (rewrite elem_of_cons; naive_solver).
    f_equal. destruct (Z.ltb_spec j 0); [done|]. cbn.
    destruct (Z.leb_spec (Z.of_nat (length bs)) j); [done|].
    rewrite list_lookup_alter_ne by lia. done.
Qed.

(** The interval was going on at some time of the bucket that starts at [b]. *)
Definition touches (bucketWidth asOf b : Z) (x : StatusInterval) : Prop :=
  StartsAt x < end_of asOf x ∧ StartsAt x < b + bucketWidth ∧ b < end_of asOf x.
#[global] Instance touches_dec w a b x : Decision (touches w a b x).
Proof. unfold touches. apply _. Defined.

(** The index arithmetic, saturation and truncation included, is overlap. *)
Lemma index_range left w n asOf x i :
  0 < w → (n + 1) * w ≤ int64_max → 0 ≤ i < n → StartsAt x < end_of asOf x →
  firstIndex left w x ≤ i ≤ lastIndex left w n asOf x ↔ touches w asOf (left + i * w) x.
Proof.
  intros Hw Hn Hi Hx. unfold touches.
  assert ((i + 1) * w ≤ int64_max ∧ i * w < int64_max) as [Hi1 Hi2] by (split; nia).
  assert (firstIndex left w x ≤ i ↔ StartsAt x < left + i * w + w) as ->.
  { unfold firstIndex, go_div. pose proof (quot_le_iff (time_sub (StartsAt x) left) w i Hw ltac:(lia)).
    rewrite time_sub_lt in H by (unfold int64_min; nia).
    destruct (Z.ltb_spec (Z.quot (time_sub (StartsAt x) left) w) 0); lia. }
  enough (i ≤ lastIndex left w n asOf x ↔ left + i * w < end_of asOf x) as -> by tauto.
  unfold lastIndex, go_div, go_mod.
  pose proof (quot_last_iff (time_sub (end_of asOf x) left) w i Hw) as Hq.
  assert (i * w < time_sub (end_of asOf x) left ↔ left + i * w < end_of asOf x) as Hs.
  { pose proof (time_sub_le (end_of asOf x) left (i * w)) as Hle.
    unfold int64_min in Hle. specialize (Hle ltac:(nia)). lia. }
  rewrite Hs in Hq. match goal with |- context [if ?c then n - 1 else ?e] => set (k := e) in * end.
  destruct (Z.leb_spec n k); lia.
Qed.

(** What one interval does to one bucket. *)
Definition paint_one (w asOf b0 : Z) (b : Bucket) (x : StatusInterval) : Bucket :=
  if decide (touches w asOf b0 x) then paint_bucket x b else b.

Lemma paint_lookup left w n asOf bs x i b :
  0 < w → (n + 1) * w ≤ int64_max → Z.of_nat (length bs) = n →
  bs !! i = Some b →
  paint left w n asOf bs x !! i = Some (paint_one w asOf (left + Z.of_nat i * w) b x).
Proof.
  intros Hw Hn Hl Hb. unfold paint, time_after, paint_one.
  destruct (Z.ltb_spec (StartsAt x) (end_of asOf x)) as [Hx|Hx]; cbn [negb].
  - pose proof (lookup_lt_Some _ _ _ Hb). rewrite paint_range_lookup, Hb. cbn. f_equal.
    rewrite (bool_decide_ext _ _ (index_range left w n asOf x (Z.of_nat i) Hw Hn ltac:(lia) Hx)).
    by destruct (decide _) as [Ht|Ht]; [rewrite bool_decide_true|rewrite bool_decide_false].
  - rewrite decide_False; [done|]. intros (? & _). lia.
Qed.

Lemma paint_length left w n asOf bs x : length (paint left w n asOf bs x) = length bs.
Proof. unfold paint. destruct (negb _); [done|]. apply paint_range_length. Qed.

Lemma paint_all_length left w n asOf ivs bs :
  length (foldl (paint left w n asOf) bs ivs) = length bs.
Proof. revert bs. induction ivs as [|x ivs IH]; intros bs; [done|]. cbn. by rewrite IH, paint_length. Qed.

Lemma paint_all_lookup left w n asOf ivs bs i b :
  0 < w → (n + 1) * w ≤ int64_max → Z.of_nat (length bs) = n →
  bs !! i = Some b →
  foldl (paint left w n asOf) bs ivs !! i =
    Some (foldl (paint_one w asOf (left + Z.of_nat i * w)) b ivs).
Proof.
  intros Hw Hn. revert bs b. induction ivs as [|x ivs IH]; intros bs b Hl Hb; [done|]. cbn.
  apply IH; [by rewrite paint_length|]. by apply paint_lookup.
Qed.

(** A bucket after every interval: the worst status and all degraded episodes. *)
Lemma paint_one_all w asOf b0 ivs start :
  let b := foldl (paint_one w asOf b0) {| BkStart := start; BkStatus := NoData; Episodes := [] |} ivs in
  BkStart b = start ∧
  (∀ x, x ∈ ivs → touches w asOf b0 x → statusPriority (Status x) ≤ statusPriority (BkStatus b)) ∧
  (BkStatus b = NoData ∨ ∃ x, x ∈ ivs ∧ touches w asOf b0 x ∧ Status x = BkStatus b) ∧
  Episodes b = episode <$> filter (λ x, touches w asOf b0 x ∧ Status x = "degraded"%string) ivs.
Proof.
  induction ivs as [|x ivs IH] using rev_ind; [cbn; split_and!; [done|set_solver|by left|done]|].
  cbn zeta in *. rewrite foldl_snoc. destruct IH as (H1 & H2 & H3 & H4).
  set (b := foldl _ _ ivs) in *. rewrite filter_app, fmap_app. unfold paint_one.
  rewrite filter_cons, filter_nil. destruct (decide (touches w asOf b0 x)) as [Ht|Ht].
  - cbn [BkStart BkStatus Episodes paint_bucket]. split_and!; [done| | |].
    + intros y [Hy| ->%list_elem_of_singleton]%elem_of_app Hty;
        destruct (Z.ltb_spec (statusPriority (BkStatus b)) (statusPriority (Status x)));
        try specialize (H2 y Hy Hty); lia.
    + destruct (_ <? _); [right; exists x; set_solver|].
      destruct H3 as [?|(y & ? & ? & ?)]; [by left|right; exists y; set_solver].
    + rewrite H4. destruct (String.eqb_spec (Status x) "degraded") as [E|E].
      * by rewrite decide_True.
      * rewrite decide_False by tauto. by rewrite app_nil_r.
  - rewrite decide_False by tauto. cbn. rewrite app_nil_r. split_and!; [done| | |done].
    + intros y [Hy| ->%list_elem_of_singleton]%elem_of_app Hty; [by apply H2|done].
    + destruct H3 as [?|(y & ? & ? & ?)]; [by left|right; exists y; set_solver].
Qed.

#[global] Instance later_first_total : Total later_first.
Proof. intros a b. unfold later_first. lia. Qed.
#[global] Instance later_first_trans : Transitive later_first.
Proof. intros a b c. unfold later_first. lia. Qed.

(** *** The window *)

Lemma go_mul_exact i w n :
  0 < w → (n + 1) * w ≤ int64_max → - n ≤ i ≤ n → go_mul i w = i * w.
Proof.
  intros. unfold go_mul. apply wrap64_id. assert (- (n * w) ≤ i * w ≤ n * w) by (split; nia).
  unfold in_int64, int64_min, int64_max in *. lia.
Qed.

Lemma current_start_spec midnight now w :
  0 < w → 0 ≤ now - midnight now ≤ int64_max →
  current_start midnight now w ≤ now < current_start midnight now w + w.
Proof.
  intros Hw Hm. unfold current_start, time_add, go_div, go_mul.
  rewrite time_sub_exact by (unfold in_int64, int64_min; lia).
  rewrite (Z.quot_div_nonneg (now - midnight now)) by lia.
  pose proof (Z.div_mod (now - midnight now) w ltac:(lia)).
  pose proof (Z.mod_pos_bound (now - midnight now) w Hw).
  pose proof (Z.div_pos (now - midnight now) w ltac:(lia) Hw).
  assert (0 ≤ (now - midnight now) / w * w ≤ now - midnight now) by nia.
  rewrite wrap64_id by (unfold in_int64, int64_min, int64_max in *; lia). lia.
Qed.

Lemma empty_buckets_lookup left n w i b :
  0 < w → (n + 1) * w ≤ int64_max → empty_buckets left n w !! i = Some b →
  b = {| BkStart := left + Z.of_nat i * w; BkStatus := NoData; Episodes := [] |} ∧ Z.of_nat i < n.
Proof.
  intros Hw Hn. unfold empty_buckets. rewrite list_lookup_fmap, fmap_Some.
  intros (j & [-> Hj]%lookup_seqZ & ->). split; [|lia]. unfold time_add.
  rewrite (go_mul_exact _ _ n) by lia. done.
Qed.

Lemma empty_buckets_length left n w : 0 ≤ n → Z.of_nat (length (empty_buckets left n w)) = n.
Proof. intros. unfold empty_buckets. rewrite length_fmap, length_seqZ. lia. Qed.

(** *** Counting the instants of an outage *)

(** Some outage among the intervals was going on at [t]. *)
Definition down_at (asOf : Z) (ivs : list StatusInterval) (t : Z) : bool :=
  existsb (λ x, String.eqb (Status x) "outage" && (StartsAt x <=? t) && (t <? end_of asOf x)) ivs.

Definition count (P : Z → bool) (from : Z) (n : Z) : Z :=
  Z.of_nat (length (filter (λ t, P t = true) (seqZ from n))).

Lemma count_range P from n : 0 ≤ n → 0 ≤ count P from n ≤ n.
Proof.
  intros Hn. unfold count. pose proof (length_filter (λ t, P t = true) (seqZ from n)).
  rewrite length_seqZ in H. lia.
Qed.

Lemma count_succ P from n :
  0 ≤ n → count P from (n + 1) = count P from n + (if P (from + n) then 1 else 0).
Proof.
  intros Hn. unfold count. rewrite seqZ_app by lia. rewrite filter_app, length_app.
  change (seqZ (from + n) 1) with [Z.of_nat 0 + (from + n)].
  rewrite filter_cons, filter_nil. cbn [Z.of_nat]. rewrite Z.add_0_l.
  destruct (P (from + n)); [rewrite decide_True by done|rewrite decide_False by done];
    cbn [length]; lia.
Qed.

Lemma count_or P Q from n :
  0 ≤ n → (∀ t, P t = true → Q t = false) →
  count (λ t, P t || Q t) from n = count P from n + count Q from n.
Proof.
  intros Hn Hd. revert n Hn. apply natlike_ind; [done|]. intros n Hn IH.
  rewrite <- !Z.add_1_r, !count_succ, IH by done. cbn.
  destruct (P (from + n)) eqn:E; [rewrite (Hd _ E); cbn; lia|cbn; lia].
Qed.

Lemma count_ext P Q from n : (∀ t, P t = Q t) → count P from n = count Q from n.
Proof. intros H. unfold count. do 2 f_equal. apply list_filter_iff. intros t. by rewrite H. Qed.

Lemma count_false from n : 0 ≤ n → count (λ _, false) from n = 0.
Proof.
  revert n. apply natlike_ind; [done|]. intros n Hn IH.
  by rewrite <- Z.add_1_r, count_succ, IH.
Qed.

Lemma count_interval a b from n :
  0 ≤ n →
  count (λ t, (a <=? t) && (t <? b)) from n = Z.max 0 (Z.min b (from + n) - Z.max a from).
Proof.
  revert n. apply natlike_ind; [change (count _ _ 0) with 0; lia|]. intros n Hn IH.
  rewrite <- Z.add_1_r, count_succ, IH by done.
  destruct (Z.leb_spec a (from + n)), (Z.ltb_spec (from + n) b); cbn [andb]; lia.
Qed.

Lemma overlap_count ds asOf x :
  0 ≤ asOf - ds ≤ int64_max →
  (if 0 <? overlap ds asOf x then overlap ds asOf x else 0) =
  count (λ t, (StartsAt x <=? t) && (t <? end_of asOf x)) ds (asOf - ds).
Proof.
  intros Hr. rewrite count_interval by lia. replace (ds + (asOf - ds)) with asOf by lia.
  unfold overlap, time_before, time_after, end_of. unfold int64_max in Hr.
  set (st := if StartsAt x <? ds then ds else StartsAt x).
  assert (st = Z.max (StartsAt x) ds) as -> by (unfold st; destruct (Z.ltb_spec (StartsAt x) ds); lia).
  match goal with |- context [time_sub ?e _] => set (en := e) end.
  assert (en = Z.min (default asOf (EndsAt x)) asOf) as ->.
  { unfold en. destruct (EndsAt x) as [e|]; cbn [from_option id]; [|rewrite Z.ltb_irrefl; lia].
    destruct (Z.ltb_spec e asOf); [|rewrite Z.ltb_irrefl; lia].
    destruct (Z.ltb_spec asOf e); lia. }
  pose proof (time_sub_pos (Z.min (default asOf (EndsAt x)) asOf) (Z.max (StartsAt x) ds)) as Hp.
  destruct (Z.ltb_spec 0 (time_sub (Z.min (default asOf (EndsAt x)) asOf) (Z.max (StartsAt x) ds)));
    [|lia].
  rewrite time_sub_exact; [lia|]. unfold in_int64, int64_min, int64_max. lia.
Qed.

(** The intervals of one service, in any order, do not overlap. *)
Definition apart (x y : StatusInterval) : Prop := before x y ∨ before y x.

Lemma apart_down asOf x y t :
  apart x y → StartsAt x ≤ t < end_of asOf x → StartsAt y ≤ t < end_of asOf y → False.
Proof.
  unfold apart, before, end_of. intros [(e & He & ?)|(e & He & ?)]; rewrite He; cbn; lia.
Qed.

Definition all_apart (ivs : list StatusInterval) : Prop :=
  ∀ i j x y, ivs !! i = Some x → ivs !! j = Some y → i ≠ j → apart x y.

Lemma all_apart_snoc ivs x :
  all_apart (ivs ++ [x]) → all_apart ivs ∧ ∀ y, y ∈ ivs → apart y x.
Proof.
  intros Ha. split.
  - intros i j y z Hy Hz. apply Ha; by apply lookup_app_l_Some.
  - intros y [i Hi]%list_elem_of_lookup. pose proof (lookup_lt_Some _ _ _ Hi).
    apply (Ha i (length ivs)); [by apply lookup_app_l_Some|apply list_lookup_middle; done|lia].
Qed.

Lemma downtime_count ds asOf ivs :
  0 ≤ asOf - ds ≤ int64_max → all_apart ivs →
  downtime ds asOf ivs = count (down_at asOf ivs) ds (asOf - ds).
Proof.
  intros Hr. induction ivs as [|x ivs IH] using rev_ind; intros Hp.
  { unfold downtime, down_at. cbn. by rewrite count_false by lia. }
  apply all_apart_snoc in Hp as [Hp Hx]. specialize (IH Hp).
  unfold downtime in *. rewrite foldl_snoc, IH.
  set (P := λ t, String.eqb (Status x) "outage" && ((StartsAt x <=? t) && (t <? end_of asOf x))).
  assert (count (down_at asOf (ivs ++ [x])) ds (asOf - ds) =
          count (down_at asOf ivs) ds (asOf - ds) + count P ds (asOf - ds)) as Hc.
  { rewrite <- count_or; [|lia|].
    - apply count_ext. intros t. unfold down_at, P. rewrite existsb_app. cbn.
      by rewrite orb_false_r, andb_assoc.
    - intros t (y & Hy & Ht)%existsb_exists. rewrite !andb_true_iff, Z.leb_le, Z.ltb_lt in Ht.
      apply not_true_iff_false. unfold P. rewrite !andb_true_iff, Z.leb_le, Z.ltb_lt. intros Ht'.
      apply list_elem_of_In in Hy. apply (apart_down asOf y x t); [by apply Hx|lia|lia]. }
  pose proof (count_range (down_at asOf (ivs ++ [x])) ds (asOf - ds) ltac:(lia)) as Hb.
  pose proof (overlap_count ds asOf x Hr) as Ho.
  pose proof (count_range (down_at asOf ivs) ds (asOf - ds) ltac:(lia)).
  rewrite Hc in *. revert Hb. unfold P.
  destruct (String.eqb (Status x) "outage"); cbn [negb andb].
  - rewrite <- Ho. destruct (0 <? overlap ds asOf x); [|lia]. intros. unfold go_add.
    apply wrap64_id. unfold in_int64, int64_min, int64_max in *. lia.
  - rewrite count_false by lia. lia.
Qed.

Lemma earliest_spec x ivs :
  (∀ y, y ∈ x :: ivs → earliest x ivs ≤ StartsAt y) ∧
  ∃ y, y ∈ x :: ivs ∧ earliest x ivs = StartsAt y.
Proof.
  unfold earliest. induction ivs as [|y ivs [IH1 (z & Hz & IH2)]] using rev_ind.
  { split; [intros y ->%list_elem_of_singleton; done|exists x; set_solver]. }
  rewrite foldl_snoc. unfold time_before.
  set (e := foldl _ _ ivs) in *. split.
  - intros u [Hu| ->%list_elem_of_singleton]%(elem_of_app (x :: ivs));
      [specialize (IH1 u Hu)|]; destruct (Z.ltb_spec (StartsAt y) e); lia.
  - destruct (Z.ltb_spec (StartsAt y) e); [exists y|exists z]; set_solver.
Qed.

Lemma earliest_permutation x ivs y ivs' :
  x :: ivs ≡ₚ y :: ivs' → earliest x ivs = earliest y ivs'.
Proof.
  intros Hp. destruct (earliest_spec x ivs) as [Hx (u & Hu & Eu)].
  destruct (earliest_spec y ivs') as [Hy (v & Hv & Ev)].
  assert (earliest x ivs ≤ StartsAt v) by (apply Hx; by rewrite Hp).
  assert (earliest y ivs' ≤ StartsAt u) by (apply Hy; by rewrite <- Hp). lia.
Qed.

(** The uptime of a set of intervals does not depend on their order. *)
Lemma UptimePercent_permutation l l' from asOf :
  l ≡ₚ l' → UptimePercent l from asOf = UptimePercent l' from asOf.
Proof.
  intros Hp. destruct l as [|x l], l' as [|y l']; [done|by apply Permutation_nil_cons in Hp|
    symmetry in Hp; by apply Permutation_nil_cons in Hp|].
  unfold UptimePercent, denominator_start. rewrite (earliest_permutation _ _ _ _ Hp).
  destruct (time_sub _ _ <=? 0); [done|]. do 2 f_equal. unfold downtime.
  apply foldl_permutation; [|done]. intros d u v.
  set (o := overlap _ asOf).
  destruct (negb (String.eqb (Status u) _)), (negb (String.eqb (Status v) _)), (0 <? o u), (0 <? o v);
    try done.
  apply go_add_comm.
Qed.

Lemma denominator_start_spec x ivs windowStart :
  let ds := denominator_start x ivs windowStart in
  windowStart ≤ ds ∧ (∀ y, y ∈ x :: ivs → ds = windowStart ∨ ds ≤ StartsAt y) ∧
  (ds = windowStart ∨ ∃ y, y ∈ x :: ivs ∧ ds = StartsAt y) ∧
  (∃ y, y ∈ x :: ivs ∧ StartsAt y ≤ ds).
Proof.
  destruct (earliest_spec x ivs) as [H1 H2]. unfold denominator_start, time_after.
  destruct (Z.ltb_spec windowStart (earliest x ivs)); cbn.
  - split_and!; [lia| |by right|]; [intros y Hy; right; by apply H1|].
    destruct H2 as (y & Hy & E). exists y. split; [done|lia].
  - split_and!; [lia|by left|by left|]. destruct H2 as (y & Hy & E). exists y. split; [done|lia].
Qed.

Lemma percent_no_downtime total : 0 < total ≤ int64_max → percent 0 total = 100%float.
Proof.
  intros Ht. destruct (float_of_int64_pos total Ht) as (m & e & Hm). unfold percent.
  change (float_of_int64 0) with 0%float. rewrite (fdiv_zero _ _ _ Hm). vm_compute. reflexivity.
Qed.

(** ** Properties *)

(** for every selectable range the chart has one bucket per span, back to
    back, the last one containing now.  Each bucket shows the worst status of the
    intervals that touch its span up to the last confirmed time, "no_data" only
    when none with a known status does, and lists the degraded ones among them as
    episodes, latest first, whatever the order of the intervals. *)
Theorem BuildBuckets_spec (midnight : Z → Z) (raw : string) (rs : rangeSpec)
    (ivs : list StatusInterval) (now asOf : Z) :
  parseRange raw = Some rs →
  0 ≤ now - midnight now ≤ int64_max →
  let w := rs_bucketWidth rs in
  let bs := BuildBuckets midnight ivs now asOf (rs_bucketCount rs) w in
  Z.of_nat (length bs) = rs_bucketCount rs ∧ Z.of_nat (length bs) * w = rs_window rs ∧
  (∃ b, last bs = Some b ∧ BkStart b ≤ now < BkStart b + w) ∧
  (∀ i b b', bs !! i = Some b → bs !! S i = Some b' → BkStart b' = BkStart b + w) ∧
  (∀ i b, bs !! i = Some b →
     (∀ x, x ∈ ivs → touches w asOf (BkStart b) x →
        statusPriority (Status x) ≤ statusPriority (BkStatus b)) ∧
     (BkStatus b = NoData ∨
      ∃ x, x ∈ ivs ∧ touches w asOf (BkStart b) x ∧ Status x = BkStatus b) ∧
     Episodes b ≡ₚ episode <$>
       filter (λ x, touches w asOf (BkStart b) x ∧ Status x = "degraded"%string) ivs ∧
     StronglySorted later_first (Episodes b)).
Proof.
  intros Hrs Hm w bs.
  assert (0 < w ∧ 0 < rs_bucketCount rs ∧ (rs_bucketCount rs + 1) * w ≤ int64_max ∧
          rs_bucketCount rs * w = rs_window rs) as (Hw & Hn & Hmax & Hwin).
  { revert Hrs. subst w. unfold parseRange, rangeSpecs. repeat case_match; intros [= <-];
      vm_compute; intuition discriminate. }
  set (n := rs_bucketCount rs) in *. set (left := leftmost_start midnight now n w).
  assert (∀ i b, bs !! i = Some b → Z.of_nat i < n ∧
    b = sort_episodes (foldl (paint_one w asOf (left + Z.of_nat i * w))
          {| BkStart := left + Z.of_nat i * w; BkStatus := NoData; Episodes := [] |} ivs)) as Hb.
  { intros i b. unfold bs, BuildBuckets. fold left. rewrite list_lookup_fmap, fmap_Some.
    intros (b1 & Hb1 & ->). pose proof (lookup_lt_Some _ _ _ Hb1) as Hlt.
    rewrite paint_all_length in Hlt.
    destruct (lookup_lt_is_Some_2 _ _ Hlt) as [b0 Hb0].
    erewrite paint_all_lookup in Hb1 by (try apply empty_buckets_length; try done; lia).
    injection Hb1 as <-. apply empty_buckets_lookup in Hb0 as [-> Hi]; done. }
  assert (Z.of_nat (length bs) = n) as Hlen.
  { unfold bs, BuildBuckets. rewrite length_fmap, paint_all_length.
    apply empty_buckets_length. lia. }
  assert (∀ i b, bs !! i = Some b → BkStart b = left + Z.of_nat i * w) as Hst.
  { intros i b [_ ->]%Hb. cbn. by destruct (paint_one_all w asOf (left + Z.of_nat i * w) ivs
      (left + Z.of_nat i * w)). }
  split_and!; [done|by rewrite Hlen| | |].
  - rewrite last_lookup. destruct (lookup_lt_is_Some_2 bs (pred (length bs))) as [b Hbl]; [lia|].
    exists b. split; [done|]. rewrite (Hst _ _ Hbl).
    replace (left + Z.of_nat (pred (length bs)) * w) with (current_start midnight now w);
      [by apply current_start_spec|].
    unfold left, leftmost_start, time_add. rewrite (go_mul_exact _ _ n) by lia.
    rewrite Nat2Z.inj_pred by lia. rewrite Hlen. lia.
  - intros i b b' Hi Hi'. rewrite (Hst _ _ Hi), (Hst _ _ Hi'). lia.
  - intros i b Hi. rewrite (Hst _ _ Hi). apply Hb in Hi as [_ ->].
    destruct (paint_one_all w asOf (left + Z.of_nat i * w) ivs (left + Z.of_nat i * w))
      as (_ & H2 & H3 & H4). cbn zeta in *. cbn [sort_episodes BkStatus Episodes].
    split_and!; [done..| |apply (StronglySorted_merge_sort _)].
    rewrite <- H4. apply merge_sort_Permutation.
Qed.

(** the uptime percentage is defined exactly when some interval starts before
    the last confirmed time, itself after the window's start; it is measured from
    the later of the window's start and the first interval; the downtime it subtracts is the
    number of instants an outage was going on, at most the denominator, so no sum
    overflows; and a window without an outage is 100 %. *)
Theorem UptimePercent_spec (ivs : list StatusInterval) (windowStart asOf : Z) :
  all_apart ivs → asOf - windowStart ≤ int64_max →
  match UptimePercent ivs windowStart asOf with
  | None => asOf ≤ windowStart ∨ ∀ x, x ∈ ivs → asOf ≤ StartsAt x
  | Some p =>
      ∃ ds down, 
        windowStart ≤ ds < asOf ∧ (∀ x, x ∈ ivs → ds = windowStart ∨ ds ≤ StartsAt x) ∧
        (ds = windowStart ∨ ∃ x, x ∈ ivs ∧ ds = StartsAt x) ∧ (∃ x, x ∈ ivs ∧ StartsAt x ≤ ds) ∧
        down = count (down_at asOf ivs) ds (asOf - ds) ∧ 0 ≤ down ≤ asOf - ds ∧
        p = percent down (asOf - ds) ∧
        ((∀ x, x ∈ ivs → Status x ≠ "outage"%string) → p = 100%float)
  end.
Proof.
  intros Ha Hw. destruct ivs as [|x rest]; [right; by intros x ?%elem_of_nil|]. cbn [UptimePercent].
  set (ivs := x :: rest) in *. set (ds := denominator_start x rest windowStart).
  destruct (denominator_start_spec x rest windowStart) as (Hd1 & Hd2 & Hd3 & Hd4).
  fold ds ivs in Hd1, Hd2, Hd3, Hd4.
  destruct (Z.leb_spec (time_sub asOf ds) 0) as [Ht|Ht].
  { pose proof (time_sub_pos asOf ds). destruct (decide (ds = windowStart)); [left; lia|].
    right. intros z Hz. destruct (Hd2 z Hz); lia. }
  apply (proj1 (time_sub_pos _ _)) in Ht.
  assert (time_sub asOf ds = asOf - ds) as Htot by
    (apply time_sub_exact; unfold in_int64, int64_min, int64_max in *; lia).
  rewrite Htot. exists ds, (downtime ds asOf ivs).
  rewrite (downtime_count ds asOf ivs) by (done || lia).
  split_and!; [lia|lia|done..| | | |].
  1,2: apply count_range; lia.
  - done.
  - intros Hno. rewrite (count_ext _ (λ _, false)); [rewrite count_false by lia|].
    + apply percent_no_downtime. lia.
    + intros t. apply not_true_iff_false. intros (y & Hy & Hq)%existsb_exists.
      apply list_elem_of_In in Hy. apply (Hno y Hy).
      rewrite !andb_true_iff, String.eqb_eq in Hq. tauto.
Qed.

(** ** Examples and witnesses *)

Definition demo_interval (status : string) (from : Z) (to : option Z) : StatusInterval :=
  {| IvID := "i"; ServiceID := "svc-a"; Status := status; ErrorBudgetRemaining := 0%float;
     StartsAt := from; LastSeenAt := from; EndsAt := to; Analysis := None |}.

(** Operational, an hour of outage ending at 22:00, degraded since; it is 23:30
    and the poller last confirmed it at 22:50. *)
Definition demo_history : list StatusInterval :=
  [demo_interval "degraded" (22 * hour) None;
   demo_interval "outage" (21 * hour) (Some (22 * hour));
   demo_interval "operational" (2 * hour) (Some (21 * hour))].
Definition demo_now : Z := 23 * hour + 30 * minute.
Definition demo_asOf : Z := 22 * hour + 50 * minute.
Definition utc_midnight (t : Z) : Z := t - t mod (24 * hour).

Example buckets_of_the_day :
  BkStatus <$> BuildBuckets utc_midnight demo_history demo_now demo_asOf 24 hour =
  [NoData; NoData] ++ repeat "operational"%string 19 ++ ["outage"; "degraded"; NoData]%string.
Proof. vm_compute. reflexivity. Qed.

(** On a day of 25 hours the last 24-hour bucket does not start on local midnight
    but 24 hours after it. *)
Example long_day_bucket :
  let midnight := λ _, 0 in
  current_start midnight (24 * hour + 30 * minute) (24 * hour) = 24 * hour.
Proof. vm_compute. reflexivity. Qed.

Lemma BuildBuckets_spec_witness :
  length (BuildBuckets utc_midnight demo_history demo_now demo_asOf 24 hour) = 24%nat.
Proof.
  destruct (BuildBuckets_spec utc_midnight "24h" (RangeSpec (24 * hour) hour 24) demo_history
              demo_now demo_asOf) as [H _].
  - reflexivity.
  - vm_compute. split; discriminate.
  - apply Nat2Z.inj. exact H.
Defined.

Lemma UptimePercent_spec_witness :
  UptimePercent [demo_interval "operational" (2 * hour) None] 0 demo_asOf = Some 100%float.
Proof.
  assert (all_apart [demo_interval "operational" (2 * hour) None]) as Ha.
  { intros [|i] [|j] x y Hi Hj Hij; [by destruct Hij|discriminate Hj|discriminate Hi|discriminate Hi]. }
  assert (demo_asOf - 0 ≤ int64_max) as Hm by (vm_compute; discriminate).
  assert (is_Some (UptimePercent [demo_interval "operational" (2 * hour) None] 0 demo_asOf)) as [p E]
    by (vm_compute; eauto).
  pose proof (UptimePercent_spec [demo_interval "operational" (2 * hour) None] 0 demo_asOf Ha Hm) as H.
  rewrite E in H |- *. destruct H as (ds & down & _ & _ & _ & _ & _ & _ & _ & H).
  f_equal. apply H. intros x ->%list_elem_of_singleton. discriminate.
Defined.
