(* ===== verification/Identity.v ===== *)
(** * The identity tables (internal/db/migrations)

    Rows of users, sessions, tenants, tenant_memberships, tenant_invites, the
    single-use token tables, the two-factor tables, notification_preferences and
    admin_audit_log, with one setter per table.  Users, device sessions and
    tokens are global; tenants, memberships, invites and the audit log have
    row-level-security policies. *)

From stdpp Require Import numbers strings gmap list.
From Stdlib Require Import ZArith.
From S2P Require Import Prelude Db.

#[local] Open Scope Z_scope.

(** ** Rows *)

Record User := {
  UserID : string;
  Email : string;
  PasswordHash : string;
  UserName : string;
  Phone : option string;
  SessionsRevokedAt : option Z;
  EmailVerifiedAt : option Z;
  UserCreatedAt : Z;
}.

Record DeviceSession := {
  DsID : string;
  DsUserID : string;
  UserAgent : option string;
  IP : option string;
  DsCreatedAt : Z;
  DsLastSeenAt : option Z;
  RevokedAt : option Z;
}.

Record Tenant := {
  TenID : string;
  TenName : string;
  TenSlug : option string;
  TenPlan : string;
  TenStatus : string;
  TenContactEmail : string;
  TenLogoData : option string;
  TenLogoContentType : option string;
  TenLegalName : option string;
  TenTaxID : option string;
  TenTaxIDType : option string;
  TenBillingAddress : option string;
  TenLocale : string;
  TenPrimaryColor : option string;
  TenSecondaryColor : option string;
  TenWebsite : option string;
  TenTimezone : option string;
  TenDeletedAt : option Z;
  TenCreatedAt : Z;
  TenLastDigestSentAt : option Z;
}.

(** tenant_memberships, keyed by (user_id, tenant_id). *)
Record membership_row := {
  MbRole : string;
  MbCreatedAt : Z;
}.

Record TenantInvite := {
  InvID : string;
  InvTenantID : string;
  InvEmail : string;
  InvRole : string;
  InvName : string;
  InvPhone : option string;
  InvTokenHash : string;
  InvInvitedByID : string;
  InvExpiresAt : Z;
  InvUsedAt : option Z;
  InvCreatedAt : Z;
}.

(** password_reset_tokens and email_verification_tokens have the same columns
    but for the created_at only the second has. *)
Record PasswordResetToken := {
  PrtID : string;
  PrtUserID : string;
  PrtTokenHash : string;
  PrtExpiresAt : Z;
  PrtUsedAt : option Z;
}.

Record EmailVerificationToken := {
  EvtID : string;
  EvtUserID : string;
  EvtTokenHash : string;
  EvtExpiresAt : Z;
  EvtUsedAt : option Z;
  EvtCreatedAt : Z;
}.

Record TwoFactorSecret := {
  TfsUserID : string;
  EncryptedSecret : string;
  EnabledAt : option Z;
  TfsCreatedAt : Z;
}.

Record recovery_code := {
  RcUserID : string;
  RcCodeHash : string;
  RcUsedAt : option Z;
}.

Record TwoFactorChallenge := {
  TfcID : string;
  TfcUserID : string;
  TfcExpiresAt : Z;
  TfcUsedAt : option Z;
  TfcCreatedAt : Z;
}.

Record audit_row := {
  AuTenant : string;
  AuActorID : string;
  AuTargetID : string;
  AuTargetLabel : option string;
  AuAction : string;
  AuCreatedAt : Z;
}.

Record identity := {
  users : gmap string User;
  device_sessions : gmap string DeviceSession;
  tenants : gmap string Tenant;
  memberships : gmap (string * string) membership_row;   (* user_id, tenant_id *)
  invites : gmap string TenantInvite;
  reset_tokens : gmap string PasswordResetToken;
  verification_tokens : gmap string EmailVerificationToken;
  two_factor_secrets : gmap string TwoFactorSecret;      (* user_id *)
  recovery_codes : gmap string recovery_code;
  challenges : gmap string TwoFactorChallenge;
  notification_preferences : gmap (string * string) bool; (* user_id, type *)
  audit_log : list audit_row;                            (* oldest first *)
}.

(** ** Setters *)

Definition set_users (f : gmap string User → gmap string User) (d : identity) : identity :=
  {| users := f (users d); device_sessions := device_sessions d; tenants := tenants d;
     memberships := memberships d; invites := invites d; reset_tokens := reset_tokens d;
     verification_tokens := verification_tokens d; two_factor_secrets := two_factor_secrets d;
     recovery_codes := recovery_codes d; challenges := challenges d;
     notification_preferences := notification_preferences d; audit_log := audit_log d |}.
Definition set_device_sessions (f : gmap string DeviceSession → gmap string DeviceSession)
    (d : identity) : identity :=
  {| users := users d; device_sessions := f (device_sessions d); tenants := tenants d;
     memberships := memberships d; invites := invites d; reset_tokens := reset_tokens d;
     verification_tokens := verification_tokens d; two_factor_secrets := two_factor_secrets d;
     recovery_codes := recovery_codes d; challenges := challenges d;
     notification_preferences := notification_preferences d; audit_log := audit_log d |}.
Definition set_tenants (f : gmap string Tenant → gmap string Tenant) (d : identity) : identity :=
  {| users := users d; device_sessions := device_sessions d; tenants := f (tenants d);
     memberships := memberships d; invites := invites d; reset_tokens := reset_tokens d;
     verification_tokens := verification_tokens d; two_factor_secrets := two_factor_secrets d;
     recovery_codes := recovery_codes d; challenges := challenges d;
     notification_preferences := notification_preferences d; audit_log := audit_log d |}.
Definition set_memberships
    (f : gmap (string * string) membership_row → gmap (string * string) membership_row)
    (d : identity) : identity :=
  {| users := users d; device_sessions := device_sessions d; tenants := tenants d;
     memberships := f (memberships d); invites := invites d; reset_tokens := reset_tokens d;
     verification_tokens := verification_tokens d; two_factor_secrets := two_factor_secrets d;
     recovery_codes := recovery_codes d; challenges := challenges d;
     notification_preferences := notification_preferences d; audit_log := audit_log d |}.
Definition set_invites (f : gmap string TenantInvite → gmap string TenantInvite)
    (d : identity) : identity :=
  {| users := users d; device_sessions := device_sessions d; tenants := tenants d;
     memberships := memberships d; invites := f (invites d); reset_tokens := reset_tokens d;
     verification_tokens := verification_tokens d; two_factor_secrets := two_factor_secrets d;
     recovery_codes := recovery_codes d; challenges := challenges d;
     notification_preferences := notification_preferences d; audit_log := audit_log d |}.
Definition set_reset_tokens
    (f : gmap string PasswordResetToken → gmap string PasswordResetToken) (d : identity) : identity :=
  {| users := users d; device_sessions := device_sessions d; tenants := tenants d;
     memberships := memberships d; invites := invites d; reset_tokens := f (reset_tokens d);
     verification_tokens := verification_tokens d; two_factor_secrets := two_factor_secrets d;
     recovery_codes := recovery_codes d; challenges := challenges d;
     notification_preferences := notification_preferences d; audit_log := audit_log d |}.
Definition set_verification_tokens
    (f : gmap string EmailVerificationToken → gmap string EmailVerificationToken)
    (d : identity) : identity :=
  {| users := users d; device_sessions := device_sessions d; tenants := tenants d;
     memberships := memberships d; invites := invites d; reset_tokens := reset_tokens d;
     verification_tokens := f (verification_tokens d);
     two_factor_secrets := two_factor_secrets d; recovery_codes := recovery_codes d;
     challenges := challenges d; notification_preferences := notification_preferences d;
     audit_log := audit_log d |}.
Definition set_two_factor_secrets
    (f : gmap string TwoFactorSecret → gmap string TwoFactorSecret) (d : identity) : identity :=
  {| users := users d; device_sessions := device_sessions d; tenants := tenants d;
     memberships := memberships d; invites := invites d; reset_tokens := reset_tokens d;
     verification_tokens := verification_tokens d;
     two_factor_secrets := f (two_factor_secrets d); recovery_codes := recovery_codes d;
     challenges := challenges d; notification_preferences := notification_preferences d;
     audit_log := audit_log d |}.
Definition set_recovery_codes (f : gmap string recovery_code → gmap string recovery_code)
    (d : identity) : identity :=
  {| users := users d; device_sessions := device_sessions d; tenants := tenants d;
     memberships := memberships d; invites := invites d; reset_tokens := reset_tokens d;
     verification_tokens := verification_tokens d; two_factor_secrets := two_factor_secrets d;
     recovery_codes := f (recovery_codes d); challenges := challenges d;
     notification_preferences := notification_preferences d; audit_log := audit_log d |}.
Definition set_challenges (f : gmap string TwoFactorChallenge → gmap string TwoFactorChallenge)
    (d : identity) : identity :=
  {| users := users d; device_sessions := device_sessions d; tenants := tenants d;
     memberships := memberships d; invites := invites d; reset_tokens := reset_tokens d;
     verification_tokens := verification_tokens d; two_factor_secrets := two_factor_secrets d;
     recovery_codes := recovery_codes d; challenges := f (challenges d);
     notification_preferences := notification_preferences d; audit_log := audit_log d |}.
Definition set_notification_preferences
    (f : gmap (string * string) bool → gmap (string * string) bool) (d : identity) : identity :=
  {| users := users d; device_sessions := device_sessions d; tenants := tenants d;
     memberships := memberships d; invites := invites d; reset_tokens := reset_tokens d;
     verification_tokens := verification_tokens d; two_factor_secrets := two_factor_secrets d;
     recovery_codes := recovery_codes d; challenges := challenges d;
     notification_preferences := f (notification_preferences d); audit_log := audit_log d |}.
Definition set_audit_log (f : list audit_row → list audit_row) (d : identity) : identity :=
  {| users := users d; device_sessions := device_sessions d; tenants := tenants d;
     memberships := memberships d; invites := invites d; reset_tokens := reset_tokens d;
     verification_tokens := verification_tokens d; two_factor_secrets := two_factor_secrets d;
     recovery_codes := recovery_codes d; challenges := challenges d;
     notification_preferences := notification_preferences d; audit_log := f (audit_log d) |}.

(** An empty database. *)
Definition empty_identity : identity :=
  {| users := ∅; device_sessions := ∅; tenants := ∅; memberships := ∅; invites := ∅;
     reset_tokens := ∅; verification_tokens := ∅; two_factor_secrets := ∅; recovery_codes := ∅;
     challenges := ∅; notification_preferences := ∅; audit_log := [] |}.

(** ** Column setters *)

Definition set_revoked (t : Z) (x : DeviceSession) : DeviceSession :=
  {| DsID := DsID x; DsUserID := DsUserID x; UserAgent := UserAgent x; IP := IP x;
     DsCreatedAt := DsCreatedAt x; DsLastSeenAt := DsLastSeenAt x; RevokedAt := Some t |}.
Definition set_last_seen (t : Z) (x : DeviceSession) : DeviceSession :=
  {| DsID := DsID x; DsUserID := DsUserID x; UserAgent := UserAgent x; IP := IP x;
     DsCreatedAt := DsCreatedAt x; DsLastSeenAt := Some t; RevokedAt := RevokedAt x |}.
Definition set_sessions_revoked (t : Z) (x : User) : User :=
  {| UserID := UserID x; Email := Email x; PasswordHash := PasswordHash x; UserName := UserName x;
     Phone := Phone x; SessionsRevokedAt := Some t; EmailVerifiedAt := EmailVerifiedAt x;
     UserCreatedAt := UserCreatedAt x |}.
Definition set_user_name (name : string) (x : User) : User :=
  {| UserID := UserID x; Email := Email x; PasswordHash := PasswordHash x; UserName := name;
     Phone := Phone x; SessionsRevokedAt := SessionsRevokedAt x;
     EmailVerifiedAt := EmailVerifiedAt x; UserCreatedAt := UserCreatedAt x |}.
Definition set_password_hash (h : string) (x : User) : User :=
  {| UserID := UserID x; Email := Email x; PasswordHash := h; UserName := UserName x;
     Phone := Phone x; SessionsRevokedAt := SessionsRevokedAt x;
     EmailVerifiedAt := EmailVerifiedAt x; UserCreatedAt := UserCreatedAt x |}.
Definition set_email_verified (t : Z) (x : User) : User :=
  {| UserID := UserID x; Email := Email x; PasswordHash := PasswordHash x; UserName := UserName x;
     Phone := Phone x; SessionsRevokedAt := SessionsRevokedAt x; EmailVerifiedAt := Some t;
     UserCreatedAt := UserCreatedAt x |}.
Definition set_invite_used (t : Z) (x : TenantInvite) : TenantInvite :=
  {| InvID := InvID x; InvTenantID := InvTenantID x; InvEmail := InvEmail x; InvRole := InvRole x;
     InvName := InvName x; InvPhone := InvPhone x; InvTokenHash := InvTokenHash x;
     InvInvitedByID := InvInvitedByID x; InvExpiresAt := InvExpiresAt x; InvUsedAt := Some t;
     InvCreatedAt := InvCreatedAt x |}.
Definition set_invite_token (hash : string) (expires : Z) (x : TenantInvite) : TenantInvite :=
  {| InvID := InvID x; InvTenantID := InvTenantID x; InvEmail := InvEmail x; InvRole := InvRole x;
     InvName := InvName x; InvPhone := InvPhone x; InvTokenHash := hash;
     InvInvitedByID := InvInvitedByID x; InvExpiresAt := expires; InvUsedAt := InvUsedAt x;
     InvCreatedAt := InvCreatedAt x |}.
Definition set_reset_used (t : Z) (x : PasswordResetToken) : PasswordResetToken :=
  {| PrtID := PrtID x; PrtUserID := PrtUserID x; PrtTokenHash := PrtTokenHash x;
     PrtExpiresAt := PrtExpiresAt x; PrtUsedAt := Some t |}.
Definition set_verification_used (t : Z) (x : EmailVerificationToken) : EmailVerificationToken :=
  {| EvtID := EvtID x; EvtUserID := EvtUserID x; EvtTokenHash := EvtTokenHash x;
     EvtExpiresAt := EvtExpiresAt x; EvtUsedAt := Some t; EvtCreatedAt := EvtCreatedAt x |}.
Definition set_code_used (t : Z) (x : recovery_code) : recovery_code :=
  {| RcUserID := RcUserID x; RcCodeHash := RcCodeHash x; RcUsedAt := Some t |}.
Definition set_challenge_used (t : Z) (x : TwoFactorChallenge) : TwoFactorChallenge :=
  {| TfcID := TfcID x; TfcUserID := TfcUserID x; TfcExpiresAt := TfcExpiresAt x;
     TfcUsedAt := Some t; TfcCreatedAt := TfcCreatedAt x |}.
Definition set_enabled (t : Z) (x : TwoFactorSecret) : TwoFactorSecret :=
  {| TfsUserID := TfsUserID x; EncryptedSecret := EncryptedSecret x; EnabledAt := Some t;
     TfsCreatedAt := TfsCreatedAt x |}.
Definition set_role (role : string) (m : membership_row) : membership_row :=
  {| MbRole := role; MbCreatedAt := MbCreatedAt m |}.

(** ** Roles *)

Definition RoleOwner : string := "owner".
Definition RoleOperator : string := "operator".
Definition RoleViewer : string := "viewer".
(** The role column's CHECK. *)
Definition role_check (role : string) : bool :=
  bool_decide (role ∈ [RoleOwner; RoleOperator; RoleViewer]).

(** A tenant's status, and the role a membership gives. *)
Definition role_of (d : identity) (u t : string) : option string := MbRole <$> memberships d !! (u, t).
Definition status_of (d : identity) (t : string) : option string := TenStatus <$> tenants d !! t.
