(* ===== verification/Secrets.v ===== *)
(** * Secrets (internal/auth/password.go, crypto/secretbox.go, token generation)

    Passwords, the encryption of secrets at rest, the random tokens that are
    mailed and stored as hashes, and the mails they travel in.  Randomness, the
    clock, bcrypt, AES-GCM, PBKDF2, SHA-256, TOTP and the mail sender are the
    parameter [Machine]; a random answer is numbered by the question. *)

From stdpp Require Import numbers strings list.
From Stdlib Require Import ZArith Lia Ascii.
From S2P Require Import Prelude GoNum GoStrings.

#[local] Open Scope Z_scope.
#[local] Open Scope go_scope.

(** ** The machine *)

(** internal/email's data of the three account mails. *)
Inductive account_mail :=
| AdminInviteMail (to companyName inviterName inviterEmail role acceptURL : string)
| PasswordResetMail (to companyName resetURL : string)
| SignupVerificationMail (to tenantName verifyURL : string).

(** The goroutine a password-reset request starts: account and address. *)
Inductive task := IssueReset (userID to : string).

Class Machine := {
  time_Now : nat → Z;
  rand_Read : nat → nat → option string;             (* question, bytes *)
  sha256_Sum256 : string → string;
  pbkdf2_Key : string → string;                      (* fixed salt and rounds *)
  bcrypt_Generate : nat → string → option string;
  bcrypt_Compare : string → string → bool;           (* hash, password *)
  gcm_Seal : string → string → string → string;      (* key, nonce, plaintext *)
  gcm_Open : string → string → string → option string;
  totp_Generate : nat → string → string → option (string * string);
  totp_Validate : Z → string → string → bool;        (* now, code, secret *)
  mail_accepted : nat → account_mail → bool;
}.

Definition NonceSize : nat := 12.

(** What the code relies on: a password matches the hashes made of it, and
    what was sealed opens under the same key and nonce. *)
Record machine_laws `{!Machine} : Prop := {
  bcrypt_matches : ∀ n p h, bcrypt_Generate n p = Some h → bcrypt_Compare h p = true;
  gcm_opens : ∀ k n p, gcm_Open k n (gcm_Seal k n p) = Some p;
  rand_length : ∀ n k r, rand_Read n k = Some r → String.length r = k;
}.

(** ** base64.RawURLEncoding *)

Definition url_alphabet : string :=
  "ABCDEFGHIJKLMNOPQRSTUVWXYZabcdefghijklmnopqrstuvwxyz0123456789-_".
Definition url_char (n : nat) : ascii := default "A"%char (String.get n url_alphabet).

(** Three bytes are four characters; a shorter rest is not padded. *)
Fixpoint EncodeToString (s : string) : string :=
  match s with
  | EmptyString => EmptyString
  | String a EmptyString =>
      let x := nat_of_ascii a in
      String (url_char (x / 4)) (String (url_char (x mod 4 * 16)) EmptyString)
  | String a (String b EmptyString) =>
      let x := nat_of_ascii a in
      let y := nat_of_ascii b in
      String (url_char (x / 4)) (String (url_char (x mod 4 * 16 + y / 16))
        (String (url_char (y mod 16 * 4)) EmptyString))
  | String a (String b (String c s)) =>
      let x := nat_of_ascii a in
      let y := nat_of_ascii b in
      let z := nat_of_ascii c in
      String (url_char (x / 4)) (String (url_char (x mod 4 * 16 + y / 16))
        (String (url_char (y mod 16 * 4 + z / 64))
          (String (url_char (z mod 64)) (EncodeToString s))))
  end.

Example encode_example : EncodeToString "light work" = "bGlnaHQgd29yaw".
Proof. vm_compute. reflexivity. Qed.

Section secrets.
Context `{!Machine}.

(** ** Passwords *)

Definition MinPasswordLength : Z := 8.
Definition MaxPasswordLength : Z := 72.

(** Whether ValidatePassword returns nil: a length in bytes. *)
Definition ValidatePassword (plain : string) : bool :=
  let n := Z.of_nat (String.length plain) in
  if n <? MinPasswordLength then false
  else if MaxPasswordLength <? n then false else true.

Definition HashPassword (ev : nat) (plain : string) : option string := bcrypt_Generate ev plain.
Definition VerifyPassword (hash plain : string) : bool := bcrypt_Compare hash plain.

(** ** Secrets at rest *)

Definition deriveKey (masterKey : string) : string := pbkdf2_Key masterKey.

(** The nonce is the prefix of what is stored. *)
Definition Encrypt (ev : nat) (masterKey plaintext : string) : option string :=
  match rand_Read ev NonceSize with
  | None => None
  | Some nonce => Some (String.append nonce (gcm_Seal (deriveKey masterKey) nonce plaintext))
  end.

Definition Decrypt (masterKey ciphertext : string) : option string :=
  if bool_decide (String.length ciphertext < NonceSize)%nat then None
  else
    let nonce := String.substring 0 NonceSize ciphertext in
    let sealed := drop_bytes NonceSize ciphertext in
    gcm_Open (deriveKey masterKey) nonce sealed.

(** ** TOTP *)

Definition GenerateTOTPSecret (ev : nat) (accountEmail issuer : string) : option (string * string) :=
  totp_Generate ev accountEmail issuer.
Definition ValidateTOTPCode (now : Z) (secret code : string) : bool := totp_Validate now code secret.

(** ** Tokens *)

Definition adminInviteTokenBytes : nat := 32.
Definition passwordResetTokenBytes : nat := 32.
Definition recoveryCodeBytes : nat := 10.

Definition generateAdminInviteToken (ev : nat) : option string :=
  EncodeToString <$> rand_Read ev adminInviteTokenBytes.
Definition generateResetToken (ev : nat) : option string :=
  EncodeToString <$> rand_Read ev passwordResetTokenBytes.
Definition generateRecoveryCode (ev : nat) : option string :=
  EncodeToString <$> rand_Read ev recoveryCodeBytes.
Definition hashAdminInviteToken (rawToken : string) : string :=
  EncodeToString (sha256_Sum256 rawToken).
Definition hashResetToken (rawToken : string) : string := EncodeToString (sha256_Sum256 rawToken).
End secrets.

(** ** Links and phones (api/admin_base_url.go) *)

Definition unconfiguredAdminBaseURLPlaceholder : string :=
  "http://vane-admin-base-url-not-configured.invalid".
Definition adminBaseURL (configured : string) : string :=
  if String.eqb configured "" then unconfiguredAdminBaseURLPlaceholder else configured.
Definition nilIfEmpty (s : string) : option string := if String.eqb s "" then None else Some s.

Definition maxPhoneLength : Z := 32.
Definition phone_digit (a : ascii) : bool :=
  let n := Z.of_nat (nat_of_ascii a) in (48 <=? n) && (n <=? 57).
Definition phone_format (a : ascii) : bool :=
  bool_decide (a ∈ ["+"%char; " "%char; "-"%char; "("%char; ")"%char]).
(** The characters of a phone, and whether one was a digit. *)
Fixpoint phone_loop (hasDigit : bool) (s : string) : bool :=
  match s with
  | EmptyString => hasDigit
  | String a s =>
      if phone_digit a then phone_loop true s
      else if phone_format a then phone_loop hasDigit s
      else false
  end.
(** Whether ValidatePhone returns nil. *)
Definition ValidatePhone (phone : string) : bool :=
  if String.eqb phone "" then true
  else if maxPhoneLength <? Z.of_nat (String.length phone) then false
  else phone_loop false phone.

Example phone_examples :
  (ValidatePhone "+55 (11) 98765-4321", ValidatePhone "()", ValidatePhone "12a", ValidatePhone "")
  = (true, false, false, true).
Proof. vm_compute. reflexivity. Qed.

(** ** Lemmas *)

Lemma append_cons a (s t : string) : String.append (String a s) t = String a (String.append s t).
Proof. reflexivity. Qed.
Lemma drop_prefix (s t : string) : drop_bytes (String.length s) (String.append s t) = t.
Proof. induction s as [|a s IH]; [done|]. rewrite append_cons. apply IH. Qed.

Lemma decrypt_encrypted `{!Machine} ev masterKey plaintext ciphertext :
  machine_laws → Encrypt ev masterKey plaintext = Some ciphertext →
  Decrypt masterKey ciphertext = Some plaintext.
Proof.
  intros [_ Hopen Hrand] HE. unfold Decrypt, Encrypt in *.
  destruct (rand_Read ev NonceSize) as [nonce|] eqn:Er; [|done].
  injection HE as <-. apply Hrand in Er. rewrite <- Er, bool_decide_eq_false_2
    by (rewrite length_append; lia).
  rewrite substring_prefix, drop_prefix. apply Hopen.
Qed.

(** ** Properties *)

(** a secret at rest opens under its master key and only says what was put
    in.  What Encrypt returns is never shorter than the nonce and Decrypt under
    the same master key gives the plaintext back; anything shorter than a nonce
    is refused without asking the cipher. *)
Theorem secretbox_round_trip `{!Machine} (ev : nat) (masterKey plaintext ciphertext short : string) :
  machine_laws → Encrypt ev masterKey plaintext = Some ciphertext →
  (String.length short < NonceSize)%nat →
  Decrypt masterKey ciphertext = Some plaintext ∧ Decrypt masterKey short = None.
Proof.
  intros Hlaws HE Hs. split; [by eapply decrypt_encrypted|].
  unfold Decrypt. by rewrite (bool_decide_eq_true_2 _ Hs).
Qed.

(** ** Examples and witnesses *)

Fixpoint repeat_byte (a : ascii) (k : nat) : string :=
  match k with O => EmptyString | S k => String a (repeat_byte a k) end.
Lemma repeat_byte_length a k : String.length (repeat_byte a k) = k.
Proof. induction k as [|k IH]; [done|]. cbn. by rewrite IH. Qed.

(** A machine for the examples: its hashes and ciphertexts are readable, its
    clock is the question's number in seconds. *)
Definition demo_machine : Machine := {|
  time_Now n := Z.of_nat n * second;
  rand_Read n k := Some (repeat_byte (ascii_of_nat (n mod 256)) k);
  sha256_Sum256 s := s;
  pbkdf2_Key k := k;
  bcrypt_Generate n p := Some p;
  bcrypt_Compare h p := String.eqb h p;
  gcm_Seal k n p := String.append k p;
  gcm_Open k n c :=
    if String.prefix k c then Some (drop_bytes (String.length k) c) else None;
  totp_Generate n e i := Some (e, i);
  totp_Validate now code secret := String.eqb code secret;
  mail_accepted n m := true;
|}.

Lemma prefix_append k p : String.prefix k (String.append k p) = true.
Proof. apply String.prefix_correct. apply substring_prefix. Qed.

Lemma demo_machine_laws : @machine_laws demo_machine.
Proof.
  split; cbn.
  - intros n p h [= <-]. apply String.eqb_refl.
  - intros k n p. by rewrite prefix_append, drop_prefix.
  - intros n k r [= <-]. apply repeat_byte_length.
Qed.

Lemma secretbox_round_trip_witness :
  ∃ c, @Encrypt demo_machine 3 "master" "totp-seed" = Some c ∧
    @Decrypt demo_machine "master" c = Some "totp-seed".
Proof.
  eexists. split; [reflexivity|].
  apply (@secretbox_round_trip demo_machine 3 "master" "totp-seed" _ "");
    [apply demo_machine_laws|reflexivity|apply Nat.ltb_lt; reflexivity].
Defined.
