(* ===== verification/Domains.v ===== *)
(** * Domains (internal/db/domain_repository.go)

    The registered root domains: who sees them under the two policies of the
    table, and the repository's operations, statement by statement. *)

From stdpp Require Import numbers strings gmap list sorting.
From Stdlib Require Import ZArith Ascii.
From S2P Require Import Prelude GoNum Db Schema Secrets.

#[local] Open Scope Z_scope.
#[local] Open Scope go_scope.

(** ** Row-level security

    [tenant_isolation] is for every command; [public_published_read] (migration
    0025) lets a session without a tenant read published pages and the domains
    they are published under. *)

Section policies.
Context `{!Driver}.

Definition anonymous (s : session core) : bool := String.eqb (app_tenant s) "".

Definition page_visible (s : session core) (r : page_row) : bool := visible s (page_tenant r).
Definition published (r : page_row) : bool := String.eqb (SpState (spage r)) "published".
Definition page_readable (s : session core) (r : page_row) : bool :=
  page_visible s r || (anonymous s && published r).

Definition on_domain (id : string) (r : page_row) : bool :=
  bool_decide (SpDomainID (spage r) = Some id).

Definition domain_visible (s : session core) (r : domain_row) : bool := visible s (dom_tenant r).
Definition domain_readable (s : session core) (id : string) (r : domain_row) : bool :=
  domain_visible s r ||
  (anonymous s &&
   has_row (λ p, on_domain id p && published p && page_readable s p) (status_pages (tables s))).
End policies.

(** ** The verification token *)

Definition hex_digit (n : nat) : ascii := default "0"%char (String.get n "0123456789abcdef").
Fixpoint hex_EncodeToString (s : string) : string :=
  match s with
  | EmptyString => EmptyString
  | String a s =>
      String (hex_digit (nat_of_ascii a / 16)) (String (hex_digit (nat_of_ascii a mod 16))
        (hex_EncodeToString s))
  end.

Definition domainVerificationTokenBytes : nat := 16.
Definition generateDomainVerificationToken `{!Machine} (ev : nat) : option string :=
  hex_EncodeToString <$> rand_Read ev domainVerificationTokenBytes.

(** ** Columns *)

(** What INSERT gives a new row. *)
Definition new_domain (id hostname token : string) (now : Z) : Domain :=
  {| DomID := id; Hostname := hostname; DomCreatedAt := now; DomainType := "custom";
     DomStatus := "pending"; VerificationToken := token; VerifiedAt := None; DomLastError := None;
     DomExpiresAt := None; Registrar := None; ExpectedNS := None; CurrentNS := None;
     NSDriftDetected := false; LastRDAPCheckAt := None; LastRDAPSuccessAt := None;
     RDAPLastError := None |}.

(** The columns [SetVerificationResult] returns; the health columns keep their
    zero value. *)
Definition verification_columns (x : Domain) : Domain :=
  {| DomID := DomID x; Hostname := Hostname x; DomCreatedAt := DomCreatedAt x;
     DomainType := DomainType x; DomStatus := DomStatus x;
     VerificationToken := VerificationToken x; VerifiedAt := VerifiedAt x;
     DomLastError := DomLastError x; DomExpiresAt := None; Registrar := None; ExpectedNS := None;
     CurrentNS := None; NSDriftDetected := false; LastRDAPCheckAt := None;
     LastRDAPSuccessAt := None; RDAPLastError := None |}.

Definition set_verification (status : string) (lastError : option string) (verifiedAt : Z)
    (x : Domain) : Domain :=
  {| DomID := DomID x; Hostname := Hostname x; DomCreatedAt := DomCreatedAt x;
     DomainType := DomainType x; DomStatus := status; VerificationToken := VerificationToken x;
     VerifiedAt := Some verifiedAt; DomLastError := lastError; DomExpiresAt := DomExpiresAt x;
     Registrar := Registrar x; ExpectedNS := ExpectedNS x; CurrentNS := CurrentNS x;
     NSDriftDetected := NSDriftDetected x; LastRDAPCheckAt := LastRDAPCheckAt x;
     LastRDAPSuccessAt := LastRDAPSuccessAt x; RDAPLastError := RDAPLastError x |}.

(** COALESCE of two nullable columns. *)
Definition coalesce {A} (x y : option A) : option A := match x with Some _ => x | None => y end.

Definition set_health (now : Z) (expiresAt : option Z) (registrar : option string)
    (currentNS : option (list string)) (driftDetected : bool) (rdapErr : option string)
    (x : Domain) : Domain :=
  {| DomID := DomID x; Hostname := Hostname x; DomCreatedAt := DomCreatedAt x;
     DomainType := DomainType x; DomStatus := DomStatus x;
     VerificationToken := VerificationToken x; VerifiedAt := VerifiedAt x;
     DomLastError := DomLastError x; DomExpiresAt := expiresAt; Registrar := registrar;
     ExpectedNS := coalesce (ExpectedNS x) currentNS;
     CurrentNS := coalesce currentNS (CurrentNS x);
     NSDriftDetected := match currentNS with None => NSDriftDetected x | Some _ => driftDetected end;
     LastRDAPCheckAt := Some now;
     LastRDAPSuccessAt := match rdapErr with None => Some now | Some _ => LastRDAPSuccessAt x end;
     RDAPLastError := rdapErr |}.

Definition domain_statuses : list string := ["pending"; "verified"; "error"].

(** ** Operations *)

Section domains.
Context `{!Driver}.

Definition by_hostname (hostname : string) (r : domain_row) : bool :=
  String.eqb (Hostname (dm r)) hostname.

Definition insert_domain (hostname token : string) : M (session core) db_err Domain :=
  stmt (λ s,
    let id := gen_uuid (tick s) in
    match default_tenant s with
    | Err e => Err e
    | Ok t =>
        if has_row (by_hostname hostname) (domains (tables s)) ||
           bool_decide (is_Some (domains (tables s) !! id))
        then Err ErrUnique
        else
          let x := new_domain id hostname token (sql_now s) in
          Ok (x, set_domains (<[id := {| dom_tenant := t; dm := x |}]>) (tables s))
    end).

Definition CreateDomain `{!Machine} (ev : nat) (hostname : string) : M (session core) db_err Domain :=
  match generateDomainVerificationToken ev with
  | None => fail ErrDriver
  | Some token => map_err (unique_as ErrDuplicateHostname) (insert_domain hostname token)
  end.

(** ORDER BY hostname. *)
Definition hostname_le (x y : Domain) : Prop := Is_true (text_le (Hostname x) (Hostname y)).
#[global] Instance hostname_le_dec x y : Decision (hostname_le x y).
Proof. unfold hostname_le. apply _. Defined.

Definition select_domains (p : domain_row → bool) (s : session core) : list Domain :=
  merge_sort hostname_le
    (dm <$> (snd <$> filter (λ kv, domain_readable s kv.1 kv.2 && p kv.2 = true)
                       (map_to_list (domains (tables s))))).
Definition of_tenant (tenantID : string) (r : domain_row) : bool :=
  String.eqb (dom_tenant r) tenantID.

Definition ListDomains (tenantID : string) (page pageSize : Z) :
    M (session core) db_err (list Domain * Z) :=
  paginated (select_domains (of_tenant tenantID)) page pageSize.

Definition GetDomain (id : string) : M (session core) db_err Domain :=
  row <- query (λ s,
    match domains (tables s) !! id with
    | Some r => if domain_readable s id r then Some (dm r) else None
    | None => None
    end) ;;
  or_not_found row.

(** UPDATE domains SET ... WHERE id = [id]: the new row, when there is one. *)
Definition update_domain (id : string) (f : session core → Domain → Domain) :
    M (session core) db_err (option Domain) :=
  stmt (λ s,
    match domains (tables s) !! id with
    | Some r =>
        if domain_visible s r then
          if bool_decide (DomStatus (f s (dm r)) ∈ domain_statuses) then
            Ok (Some (f s (dm r)), set_domains (<[id := set_dm (f s) r]>) (tables s))
          else Err ErrCheck
        else Ok (None, tables s)
    | None => Ok (None, tables s)
    end).

Definition SetVerificationResult (id status : string) (lastError : option string) (verifiedAt : Z) :
    M (session core) db_err Domain :=
  row <- update_domain id (λ _, set_verification status lastError verifiedAt) ;;
  x <- or_not_found row ;;
  ret (verification_columns x).

Definition setHealthCheckResult (id : string) (expiresAt : option Z) (registrar : option string)
    (currentNS : option (list string)) (driftDetected : bool) (rdapErr : option string) :
    M (session core) db_err unit :=
  row <- update_domain id (λ s, set_health (sql_now s) expiresAt registrar currentNS driftDetected
                                  rdapErr) ;;
  _ <- or_not_found row ;;
  ret tt.
Definition SetHealthCheckResult (id : string) (expiresAt : option Z) (registrar : option string)
    (currentNS : option (list string)) (driftDetected : bool) (rdapErr : option string) :
    M (session core) db_err unit :=
  runInTx (setHealthCheckResult id expiresAt registrar currentNS driftDetected rdapErr).

(** The foreign key of status_pages has no ON DELETE: it refuses, whoever's
    page it is. *)
Definition delete_domain (id : string) : M (session core) db_err Z :=
  stmt (λ s,
    match domains (tables s) !! id with
    | Some r =>
        if domain_visible s r then
          if has_row (on_domain id) (status_pages (tables s)) then Err ErrForeignKey
          else Ok (1, set_domains (delete id) (tables s))
        else Ok (0, tables s)
    | None => Ok (0, tables s)
    end).
Definition DeleteDomain (id : string) : M (session core) db_err unit :=
  n <- map_err (λ e, if decide (e = ErrForeignKey) then ErrDomainInUse else e) (delete_domain id) ;;
  affected n.

Definition CountVerified : M (session core) db_err Z :=
  query (λ s, Z.of_nat (length (select_domains (λ r, String.eqb (DomStatus (dm r)) "verified") s))).
Definition countDomains (tenantID : string) : M (session core) db_err Z :=
  query (λ s, Z.of_nat (length (select_domains (of_tenant tenantID) s))).
Definition CountAllDomains (tenantID : string) : M (session core) db_err Z := countDomains tenantID.
End domains.
