(* ===== verification/StatusPages.v ===== *)
(** * Status pages (internal/db/status_page_repository.go)

    The repository of status pages, their groups and their service placements,
    and [ServiceRepository.ListForStatusPage], statement by statement.
    [SetServices], [AttachDomain] and [Delete] open a transaction of their own on
    a fresh connection, which has no tenant ([Db.with_pool_tx]); the links table
    has no row-level security at all. *)

From stdpp Require Import numbers strings gmap list sorting.
From Stdlib Require Import ZArith.
From S2P Require Import Prelude GoNum Db Schema Placements Secrets Domains.

#[local] Open Scope Z_scope.
#[local] Open Scope go_scope.

Definition pendingTLSState : string := "pending_tls".
Definition page_environments : list string := [""; "staging"; "development"].

(** ** Columns *)

Definition new_page (id : string) (now : Z) (x : StatusPage) : StatusPage :=
  {| SpID := id; SpTenantID := ""; SpName := SpName x; SpSubdomain := SpSubdomain x;
     SpDomainID := SpDomainID x; SpState := "draft"; SpTLSLastError := None;
     SpEnvironment := SpEnvironment x; SpCreatedAt := now; SpServiceIDs := [] |}.

(** [Create] fills in the generated columns of its argument. *)
Definition with_generated (row x : StatusPage) : StatusPage :=
  {| SpID := SpID row; SpTenantID := SpTenantID x; SpName := SpName x;
     SpSubdomain := SpSubdomain x; SpDomainID := SpDomainID x; SpState := SpState row;
     SpTLSLastError := SpTLSLastError x; SpEnvironment := SpEnvironment x;
     SpCreatedAt := SpCreatedAt row; SpServiceIDs := SpServiceIDs x |}.
Definition with_services (ids : list string) (x : StatusPage) : StatusPage :=
  {| SpID := SpID x; SpTenantID := SpTenantID x; SpName := SpName x;
     SpSubdomain := SpSubdomain x; SpDomainID := SpDomainID x; SpState := SpState x;
     SpTLSLastError := SpTLSLastError x; SpEnvironment := SpEnvironment x;
     SpCreatedAt := SpCreatedAt x; SpServiceIDs := ids |}.
Definition with_tenant (t : string) (x : StatusPage) : StatusPage :=
  {| SpID := SpID x; SpTenantID := t; SpName := SpName x;
     SpSubdomain := SpSubdomain x; SpDomainID := SpDomainID x; SpState := SpState x;
     SpTLSLastError := SpTLSLastError x; SpEnvironment := SpEnvironment x;
     SpCreatedAt := SpCreatedAt x; SpServiceIDs := SpServiceIDs x |}.

Definition set_attached (domainID subdomain : string) (x : StatusPage) : StatusPage :=
  {| SpID := SpID x; SpTenantID := SpTenantID x; SpName := SpName x;
     SpSubdomain := Some subdomain; SpDomainID := Some domainID; SpState := pendingTLSState;
     SpTLSLastError := SpTLSLastError x; SpEnvironment := SpEnvironment x;
     SpCreatedAt := SpCreatedAt x; SpServiceIDs := SpServiceIDs x |}.
Definition set_page_environment (environment : string) (x : StatusPage) : StatusPage :=
  {| SpID := SpID x; SpTenantID := SpTenantID x; SpName := SpName x;
     SpSubdomain := SpSubdomain x; SpDomainID := SpDomainID x; SpState := SpState x;
     SpTLSLastError := SpTLSLastError x; SpEnvironment := environment;
     SpCreatedAt := SpCreatedAt x; SpServiceIDs := SpServiceIDs x |}.
Definition set_page_state (state : string) (tlsLastError : option string) (x : StatusPage) :
    StatusPage :=
  {| SpID := SpID x; SpTenantID := SpTenantID x; SpName := SpName x;
     SpSubdomain := SpSubdomain x; SpDomainID := SpDomainID x; SpState := state;
     SpTLSLastError := tlsLastError; SpEnvironment := SpEnvironment x;
     SpCreatedAt := SpCreatedAt x; SpServiceIDs := SpServiceIDs x |}.

Definition set_group (name : string) (position : Z) (g : StatusPageServiceGroup) :
    StatusPageServiceGroup :=
  {| GrpID := GrpID g; GrpStatusPageID := GrpStatusPageID g; GrpName := name;
     GrpPosition := position; GrpCreatedAt := GrpCreatedAt g |}.

Definition placement_of (svc : string) (l : link_row) : ServicePlacement :=
  {| PlServiceID := svc; PlGroupID := link_group l; PlParentServiceID := link_parent l;
     PlPosition := link_position l |}.
Definition link_of (p : ServicePlacement) : link_row :=
  {| link_group := PlGroupID p; link_parent := PlParentServiceID p;
     link_position := PlPosition p |}.
Definition default_link : link_row :=
  {| link_group := None; link_parent := None; link_position := 0 |}.

(** ** Operations *)

Section pages.
Context `{!Driver}.

Definition group_visible (s : session core) (r : group_row) : bool := visible s (grp_tenant r).

(** Foreign keys look at every row, whoever's it is. *)
Definition page_exists (d : core) (id : string) : bool := bool_decide (is_Some (status_pages d !! id)).
Definition service_exists (d : core) (id : string) : bool := bool_decide (is_Some (services d !! id)).
Definition null_or {A} (p : A → bool) (x : option A) : bool :=
  match x with Some a => p a | None => true end.
Definition domain_exists (d : core) (id : string) : bool := bool_decide (is_Some (domains d !! id)).
Definition group_exists (d : core) (id : string) : bool :=
  bool_decide (is_Some (status_page_service_groups d !! id)).

(** The unique index on (domain_id, subdomain). *)
Definition same_address (x : StatusPage) (r : page_row) : bool :=
  match SpDomainID x, SpSubdomain x with
  | Some d, Some sub => bool_decide (SpDomainID (spage r) = Some d ∧ SpSubdomain (spage r) = Some sub)
  | _, _ => false
  end.

(** *** Create *)

Definition insert_page (x : StatusPage) : M (session core) db_err StatusPage :=
  stmt (λ s,
    let id := gen_uuid (tick s) in
    let row := new_page id (sql_now s) x in
    match default_tenant s with
    | Err e => Err e
    | Ok t =>
        if negb (bool_decide (SpEnvironment x ∈ page_environments)) then Err ErrCheck
        else if page_exists (tables s) id || has_row (same_address x) (status_pages (tables s))
        then Err ErrUnique
        else if negb (null_or (domain_exists (tables s)) (SpDomainID x)) then Err ErrForeignKey
        else Ok (with_generated row x,
                 set_pages (<[id := {| page_tenant := t; spage := row |}]>) (tables s))
    end).

Definition insert_link (pageID serviceID : string) (l : link_row) : M (session core) db_err unit :=
  stmt (λ s,
    let d := tables s in
    if bool_decide (is_Some (status_page_services d !! (pageID, serviceID))) then Err ErrUnique
    else if page_exists d pageID && service_exists d serviceID &&
            null_or (group_exists d) (link_group l) && null_or (service_exists d) (link_parent l)
    then Ok (tt, set_links (<[(pageID, serviceID) := l]>) d)
    else Err ErrForeignKey).

Fixpoint link_services (pageID : string) (serviceIDs : list string) : M (session core) db_err unit :=
  match serviceIDs with
  | [] => ret tt
  | svc :: serviceIDs =>
      insert_link pageID svc default_link ;;; link_services pageID serviceIDs
  end.

Definition insert_status_page (x : StatusPage) (serviceIDs : list string) :
    M (session core) db_err StatusPage :=
  row <- insert_page x ;;
  link_services (SpID row) serviceIDs ;;;
  ret (with_services serviceIDs row).

Definition CreatePage (x : StatusPage) (serviceIDs : list string) : M (session core) db_err StatusPage :=
  runInTx (insert_status_page x serviceIDs).

(** *** SetServices *)

Definition page_links (pageID : string) (d : core) : list (string * link_row) :=
  (λ kv, (kv.1.2, kv.2)) <$> filter (λ kv, kv.1.1 = pageID) (map_to_list (status_page_services d)).

Definition validGroupIDsTx (statusPageID : string) : M (session core) db_err (gset string) :=
  query (λ s, dom (filter (λ kv, group_visible s kv.2 = true ∧ GrpStatusPageID (grp kv.2) = statusPageID)
                     (status_page_service_groups (tables s)))).

Definition existingServiceIDsTx (statusPageID : string) : M (session core) db_err (gset string) :=
  query (λ s, list_to_set (fst <$> page_links statusPageID (tables s))).

(** DELETE FROM status_page_services WHERE status_page_id = ...: no policy. *)
Definition clear_links (pageID : string) : M (session core) db_err unit :=
  stmt (λ s, Ok (tt, set_links (filter (λ kv, kv.1.1 ≠ pageID)) (tables s))).

Fixpoint insert_placements (pageID : string) (l : list ServicePlacement) :
    M (session core) db_err unit :=
  match l with
  | [] => ret tt
  | p :: l => insert_link pageID (PlServiceID p) (link_of p) ;;; insert_placements pageID l
  end.

(** The SELECT EXISTS reads under the SELECT policies. *)
Definition select_page_exists (id : string) : M (session core) db_err bool :=
  query (λ s, match status_pages (tables s) !! id with
              | Some r => page_readable s r
              | None => false
              end).

Definition lift_res {A} (r : res db_err A) : M (session core) db_err A :=
  match r with Ok a => ret a | Err e => fail e end.

Definition set_services_tx (statusPageID : string) (placements : list ServicePlacement) :
    M (session core) db_err unit :=
  exists_ <- select_page_exists statusPageID ;;
  if negb exists_ then fail ErrNotFound
  else
    validGroupIDs <- validGroupIDsTx statusPageID ;;
    existingServiceIDs <- existingServiceIDsTx statusPageID ;;
    sanitizedPlacements <-
      lift_res (validateAndSanitizeServicePlacements placements validGroupIDs existingServiceIDs) ;;
    clear_links statusPageID ;;;
    insert_placements statusPageID sanitizedPlacements.

Definition SetServices (statusPageID : string) (placements : list ServicePlacement) :
    M (session core) db_err unit :=
  with_pool_tx (set_services_tx statusPageID placements).

(** *** Groups *)

(** MAX(position) over the page's groups the session sees, -1 without one. *)
Definition last_position (s : session core) (pageID : string) : Z :=
  foldr Z.max (-1) (GrpPosition <$> (grp <$> (snd <$>
    filter (λ kv, group_visible s kv.2 = true ∧ GrpStatusPageID (grp kv.2) = pageID)
      (map_to_list (status_page_service_groups (tables s)))))).

Definition CreateGroup (statusPageID name : string) : M (session core) db_err StatusPageServiceGroup :=
  stmt (λ s,
    let id := gen_uuid (tick s) in
    let g := {| GrpID := id; GrpStatusPageID := statusPageID; GrpName := name;
                GrpPosition := last_position s statusPageID + 1; GrpCreatedAt := sql_now s |} in
    match default_tenant s with
    | Err e => Err e
    | Ok t =>
        if group_exists (tables s) id then Err ErrUnique
        else if negb (page_exists (tables s) statusPageID) then Err ErrForeignKey
        else Ok (g, set_groups (<[id := {| grp_tenant := t; grp := g |}]>) (tables s))
    end).

(** WHERE id = $1 AND status_page_id = $2 AND tenant_id = $3. *)
Definition group_match (s : session core) (tenantID statusPageID : string) (r : group_row) : bool :=
  group_visible s r && String.eqb (GrpStatusPageID (grp r)) statusPageID &&
  String.eqb (grp_tenant r) tenantID.

Definition UpdateGroup (tenantID statusPageID id name : string) (position : Z) :
    M (session core) db_err StatusPageServiceGroup :=
  row <- stmt (λ s,
    match status_page_service_groups (tables s) !! id with
    | Some r =>
        if group_match s tenantID statusPageID r then
          let g := set_group name position (grp r) in
          Ok (Some g, set_groups (<[id := {| grp_tenant := grp_tenant r; grp := g |}]>) (tables s))
        else Ok (None, tables s)
    | None => Ok (None, tables s)
    end) ;;
  or_not_found row.

(** ON DELETE SET NULL: the links of a deleted group lose it. *)
Definition ungroup (gone : string → bool) (l : link_row) : link_row :=
  {| link_group := match link_group l with
                   | Some g => if gone g then None else Some g
                   | None => None
                   end;
     link_parent := link_parent l; link_position := link_position l |}.
Definition drop_groups (gone : string → group_row → bool) (d : core) : core :=
  let is_gone := λ g, match status_page_service_groups d !! g with
                      | Some r => gone g r
                      | None => false
                      end in
  set_links (fmap (ungroup is_gone)) (set_groups (filter (λ kv, gone kv.1 kv.2 = false)) d).

Definition DeleteGroup (tenantID statusPageID id : string) : M (session core) db_err unit :=
  n <- stmt (λ s,
    match status_page_service_groups (tables s) !! id with
    | Some r =>
        if group_match s tenantID statusPageID r
        then Ok (1, drop_groups (λ g _, String.eqb g id) (tables s))
        else Ok (0, tables s)
    | None => Ok (0, tables s)
    end) ;;
  affected n.

(** ORDER BY position, id. *)
Definition group_le (x y : StatusPageServiceGroup) : Prop :=
  GrpPosition x < GrpPosition y ∨
  (GrpPosition x = GrpPosition y ∧ Is_true (String.leb (GrpID x) (GrpID y))).
#[global] Instance group_le_dec x y : Decision (group_le x y).
Proof. unfold group_le. apply _. Defined.

Definition ListGroups (statusPageID : string) : M (session core) db_err (list StatusPageServiceGroup) :=
  query (λ s, merge_sort group_le (grp <$> (snd <$>
    filter (λ kv, group_visible s kv.2 = true ∧ GrpStatusPageID (grp kv.2) = statusPageID)
      (map_to_list (status_page_service_groups (tables s)))))).

(** *** Reads *)

(** ORDER BY position. *)
Definition placement_le (x y : ServicePlacement) : Prop := PlPosition x <= PlPosition y.
#[global] Instance placement_le_dec x y : Decision (placement_le x y).
Proof. unfold placement_le. apply _. Defined.

Definition ListServicePlacements (statusPageID : string) :
    M (session core) db_err (list ServicePlacement) :=
  query (λ s, merge_sort placement_le
                ((λ kv, placement_of kv.1 kv.2) <$> page_links statusPageID (tables s))).

(** The links of the given pages; no query without one. *)
Definition serviceIDsByStatusPage (pageIDs : list string) :
    M (session core) db_err (gmap string (list string)) :=
  match pageIDs with
  | [] => ret ∅
  | _ => query (λ s, list_to_map ((λ id, (id, fst <$> page_links id (tables s))) <$> pageIDs))
  end.

Definition GetPage (id : string) : M (session core) db_err StatusPage :=
  row <- query (λ s,
    match status_pages (tables s) !! id with
    | Some r => if page_readable s r then Some (spage r) else None
    | None => None
    end) ;;
  sp <- or_not_found row ;;
  serviceIDsByPage <- serviceIDsByStatusPage [SpID sp] ;;
  ret (with_services (default [] (serviceIDsByPage !! SpID sp)) sp).

(** ORDER BY name. *)
Definition page_le (x y : StatusPage) : Prop := Is_true (text_le (SpName x) (SpName y)).
#[global] Instance page_le_dec x y : Decision (page_le x y).
Proof. unfold page_le. apply _. Defined.

Definition select_pages (s : session core) : list StatusPage :=
  merge_sort page_le (spage <$> (snd <$> filter (λ kv, page_readable s kv.2 = true)
                                   (map_to_list (status_pages (tables s))))).

Definition ListPages (page pageSize : Z) : M (session core) db_err (list StatusPage * Z) :=
  r <- paginated select_pages page pageSize ;;
  serviceIDsByPage <- serviceIDsByStatusPage (SpID <$> r.1) ;;
  ret ((λ sp, with_services (default [] (serviceIDsByPage !! SpID sp)) sp) <$> r.1, r.2).

(** ORDER BY domain_id, created_at, one domain at a time. *)
Definition created_le (x y : StatusPage) : Prop := SpCreatedAt x <= SpCreatedAt y.
#[global] Instance created_le_dec x y : Decision (created_le x y).
Proof. unfold created_le. apply _. Defined.

Definition attached_names (s : session core) (domainID : string) : list string :=
  SpName <$> merge_sort created_le
    (spage <$> (snd <$> filter (λ kv, page_readable s kv.2 && on_domain domainID kv.2 = true)
                          (map_to_list (status_pages (tables s))))).

Definition AttachedNamesByDomainIDs (domainIDs : list string) :
    M (session core) db_err (gmap string (list string)) :=
  match domainIDs with
  | [] => ret ∅
  | _ => query (λ s, filter (λ kv, kv.2 ≠ [])
                       (list_to_map ((λ id, (id, attached_names s id)) <$> domainIDs)))
  end.

(** subdomain || '.' || hostname, NULL without a domain the session reads. *)
Definition address (s : session core) (x : StatusPage) : option string :=
  match SpDomainID x, SpSubdomain x with
  | Some d, Some sub =>
      match domains (tables s) !! d with
      | Some r => if domain_readable s d r then Some (sub +:+ "." +:+ Hostname (dm r)) else None
      | None => None
      end
  | _, _ => None
  end.

Definition PublicHostnameByID (id : string) : M (session core) db_err string :=
  row <- query (λ s,
    match status_pages (tables s) !! id with
    | Some r => if page_readable s r then Some (address s (spage r)) else None
    | None => None
    end) ;;
  hostname <- or_not_found row ;;
  match hostname with Some h => ret h | None => fail ErrNoDomainAttached end.

(** *** AttachDomain, UpdateEnvironment, Delete *)

Definition attach_errors (e : db_err) : db_err :=
  if decide (e = ErrForeignKey) then ErrInvalidDomain
  else if decide (e = ErrUnique) then ErrDuplicateDomainSubdomain
  else e.

(** SELECT domain_id ... FOR UPDATE: the UPDATE policies apply. *)
Definition lock_page (id : string) : M (session core) db_err (option (option string)) :=
  query (λ s, match status_pages (tables s) !! id with
              | Some r => if page_visible s r then Some (SpDomainID (spage r)) else None
              | None => None
              end).

Definition attach_page (id domainID subdomain : string) : M (session core) db_err StatusPage :=
  row <- stmt (λ s,
    match status_pages (tables s) !! id with
    | Some r =>
        if page_visible s r then
          let x := set_attached domainID subdomain (spage r) in
          if has_row (same_address x) (delete id (status_pages (tables s))) then Err ErrUnique
          else if negb (domain_exists (tables s) domainID) then Err ErrForeignKey
          else Ok (Some x, set_pages (<[id := {| page_tenant := page_tenant r; spage := x |}]>) (tables s))
        else Ok (None, tables s)
    | None => Ok (None, tables s)
    end) ;;
  match row with Some x => ret x | None => fail ErrDriver end.

Definition AttachDomain (id domainID subdomain : string) : M (session core) db_err StatusPage :=
  with_pool_tx (
    row <- lock_page id ;;
    currentDomainID <- or_not_found row ;;
    match currentDomainID with
    | Some _ => fail ErrDomainAlreadyAttached
    | None => map_err attach_errors (attach_page id domainID subdomain)
    end).

Definition UpdatePageEnvironment (id environment : string) : M (session core) db_err StatusPage :=
  row <- stmt (λ s,
    match status_pages (tables s) !! id with
    | Some r =>
        if page_visible s r then
          if bool_decide (environment ∈ page_environments) then
            Ok (Some (set_page_environment environment (spage r)),
                set_pages (<[id := set_page (set_page_environment environment) r]>) (tables s))
          else Err ErrCheck
        else Ok (None, tables s)
    | None => Ok (None, tables s)
    end) ;;
  or_not_found row.

Definition clear_groups (pageID : string) : M (session core) db_err unit :=
  stmt (λ s, Ok (tt, drop_groups (λ _ r, group_visible s r &&
                                         String.eqb (GrpStatusPageID (grp r)) pageID) (tables s))).

Definition delete_page (id : string) : M (session core) db_err Z :=
  stmt (λ s,
    let d := tables s in
    match status_pages d !! id with
    | Some r =>
        if page_visible s r then
          if bool_decide (page_links id d ≠ []) ||
             has_row (λ g, String.eqb (GrpStatusPageID (grp g)) id) (status_page_service_groups d)
          then Err ErrForeignKey
          else Ok (1, set_pages (delete id) d)
        else Ok (0, d)
    | None => Ok (0, d)
    end).

Definition DeletePage (id : string) : M (session core) db_err unit :=
  with_pool_tx (
    clear_links id ;;;
    clear_groups id ;;;
    n <- delete_page id ;;
    affected n).

(** *** By hostname *)

(** [hostnameMatch]: a page at the hostname, where the session reads both the page
    and its domain.  The lookups take the first row of the answer: no index makes
    the whole address unique. *)
Definition at_hostname (s : session core) (hostname : string) (r : page_row) : bool :=
  page_readable s r && bool_decide (address s (spage r) = Some hostname).

Definition StateByHostname (hostname : string) : M (session core) db_err string :=
  row <- query (λ s, find_row (at_hostname s hostname) (status_pages (tables s))) ;;
  r <- or_not_found row ;;
  ret (SpState (spage r.2)).

Definition GetByHostname (hostname : string) : M (session core) db_err StatusPage :=
  row <- query (λ s, find_row (at_hostname s hostname) (status_pages (tables s))) ;;
  r <- or_not_found row ;;
  ret (with_tenant (page_tenant r.2) (spage r.2)).

(** UPDATE status_pages sp ... FROM domains d WHERE ...: the rows the session
    may update. *)
Definition update_at_hostname (hostname : string) (f : StatusPage → StatusPage) :
    M (session core) db_err Z :=
  stmt (λ s,
    let hit := λ r, page_visible s r && at_hostname s hostname r in
    Ok (Z.of_nat (size (filter (λ kv, hit kv.2 = true) (status_pages (tables s)))),
        set_pages (fmap (λ r, if hit r then set_page f r else r)) (tables s))).

Definition MarkPublished (hostname : string) : M (session core) db_err unit :=
  n <- update_at_hostname hostname (set_page_state "published" None) ;;
  affected n.
Definition MarkTLSFailed (hostname reason : string) : M (session core) db_err unit :=
  n <- update_at_hostname hostname (set_page_state "tls_failed" (Some reason)) ;;
  affected n.

(** ** ServiceRepository.ListForStatusPage *)

(** A service with its placement on the page. *)
Record PageService := {
  PsService : Service;
  PsGroupID : option string;
  PsGroupName : option string;
  PsParentServiceID : option string;
  PsPosition : Z;
}.

(** The columns the query selects; the others keep their zero value. *)
Definition page_service_columns (x : Service) : Service :=
  {| SvcID := SvcID x; SvcName := SvcName x; SLOID := SLOID x; SLOName := ""; SLOType := "";
     DatadogServiceTag := ""; Environment := ""; MonitorMode := ""; PollType := None;
     PollTarget := None; PollIntervalSeconds := None; CurrentStatus := CurrentStatus x;
     LastStatusChangeAt := LastStatusChangeAt x; StatusAnalysis := StatusAnalysis x;
     LastBurnRateShort := None; LastBurnRateLong := None; LastWindowErrors := None;
     LastWindowRequests := None; LastReadingAt := None; SvcLastErrorAt := None |}.

(** The group of a link the session sees, for the LEFT JOIN. *)
Definition joined_group (s : session core) (l : link_row) : option StatusPageServiceGroup :=
  match link_group l with
  | Some g =>
      match status_page_service_groups (tables s) !! g with
      | Some r => if group_visible s r then Some (grp r) else None
      | None => None
      end
  | None => None
  end.

Definition joined_service (s : session core) (kv : string * link_row) :
    option (option StatusPageServiceGroup * PageService) :=
  match services (tables s) !! kv.1 with
  | Some r =>
      if visible s (svc_tenant r) && bool_decide (deleted_at r = None) then
        let g := joined_group s kv.2 in
        Some (g, {| PsService := page_service_columns (svc r); PsGroupID := link_group kv.2;
                    PsGroupName := GrpName <$> g; PsParentServiceID := link_parent kv.2;
                    PsPosition := link_position kv.2 |})
      else None
  | None => None
  end.

(** ORDER BY g.position NULLS LAST, g.id, sps.position. *)
Definition listed_le (x y : option StatusPageServiceGroup * PageService) : Prop :=
  match x.1, y.1 with
  | Some g, Some h =>
      if bool_decide (GrpPosition g = GrpPosition h ∧ GrpID g = GrpID h)
      then PsPosition x.2 <= PsPosition y.2 else group_le g h
  | Some _, None => True
  | None, Some _ => False
  | None, None => PsPosition x.2 <= PsPosition y.2
  end.
#[global] Instance listed_le_dec x y : Decision (listed_le x y).
Proof. unfold listed_le. destruct x.1, y.1; try apply _. case_match; apply _. Defined.

Definition ListForStatusPage (statusPageID : string) : M (session core) db_err (list PageService) :=
  query (λ s, snd <$> merge_sort listed_le
                (omap (joined_service s) (page_links statusPageID (tables s)))).
End pages.
