(* ===== verification/SiteInv.v ===== *)
(** * The well-formed site

    What the status page tables always satisfy, whoever writes them: keys,
    references across the four tables, the unique indexes, the states a page goes
    through, and placements that form a forest of depth two on every page.  Every
    repository operation of StatusPages.v and Domains.v preserves it. *)

From stdpp Require Import numbers strings gmap list.
From Stdlib Require Import ZArith Lia.
From S2P Require Import Prelude GoNum Db Schema Placements Secrets Domains StatusPages.

#[local] Open Scope Z_scope.
#[local] Open Scope go_scope.

Definition page_states : list string := ["draft"; "pending_tls"; "published"; "tls_failed"].

(** A page outside "draft" has an address. *)
Definition page_ok (d : core) (i : string) (r : page_row) : Prop :=
  SpID (spage r) = i ∧ SpState (spage r) ∈ page_states ∧
  SpEnvironment (spage r) ∈ page_environments ∧
  (∀ k, SpDomainID (spage r) = Some k → is_Some (domains d !! k)) ∧
  (SpState (spage r) ≠ "draft" → is_Some (SpDomainID (spage r)) ∧ is_Some (SpSubdomain (spage r))).

Definition group_ok (d : core) (i : string) (r : group_row) : Prop :=
  GrpID (grp r) = i ∧ is_Some (status_pages d !! GrpStatusPageID (grp r)).

Definition domain_ok (i : string) (r : domain_row) : Prop :=
  DomID (dm r) = i ∧ DomStatus (dm r) ∈ domain_statuses.

(** A link's page, service and parent exist, its group is the page's, and its
    parent is another top-level service of the page. *)
Definition link_ok (d : core) (k : string * string) (l : link_row) : Prop :=
  is_Some (status_pages d !! k.1) ∧ is_Some (services d !! k.2) ∧
  (∀ g, link_group l = Some g →
     ∃ r, status_page_service_groups d !! g = Some r ∧ GrpStatusPageID (grp r) = k.1) ∧
  (∀ q, link_parent l = Some q →
     q ≠ k.2 ∧ ∃ l', status_page_services d !! (k.1, q) = Some l' ∧ link_parent l' = None).

Definition addresses_unique (d : core) : Prop :=
  ∀ i j r r' k sub, status_pages d !! i = Some r → status_pages d !! j = Some r' →
    SpDomainID (spage r) = Some k → SpSubdomain (spage r) = Some sub →
    SpDomainID (spage r') = Some k → SpSubdomain (spage r') = Some sub → i = j.
Definition hostnames_unique (d : core) : Prop :=
  ∀ i j r r', domains d !! i = Some r → domains d !! j = Some r' →
    Hostname (dm r) = Hostname (dm r') → i = j.

Record site_wf (d : core) : Prop := {
  sw_pages : map_Forall (page_ok d) (status_pages d);
  sw_groups : map_Forall (group_ok d) (status_page_service_groups d);
  sw_links : map_Forall (link_ok d) (status_page_services d);
  sw_domains : map_Forall domain_ok (domains d);
  sw_addresses : addresses_unique d;
  sw_hostnames : hostnames_unique d;
}.

Lemma site_wf_empty : site_wf empty_core.
Proof. split; try apply map_Forall_empty; intros i j r r' *; cbn; by rewrite lookup_empty. Qed.

(** ** Updates of the tables *)

Lemma is_Some_insert {K A} `{Countable K} (m : gmap K A) i j x :
  is_Some (m !! j) → is_Some (<[i := x]> m !! j).
Proof. intros Hj. destruct (decide (i = j)) as [->|]; [by rewrite lookup_insert_eq|by rewrite lookup_insert_ne]. Qed.

(** A new page, or a new row of a page: its address is its own. *)
Lemma site_wf_page d i r :
  site_wf d → page_ok d i r →
  (∀ j r' k sub, j ≠ i → status_pages d !! j = Some r' →
     SpDomainID (spage r) = Some k → SpSubdomain (spage r) = Some sub →
     SpDomainID (spage r') = Some k → SpSubdomain (spage r') = Some sub → False) →
  site_wf (set_pages (<[i := r]>) d).
Proof.
  intros [HP HG HL HD HA HH] Hr Hfree. split; cbn; [| | |done| |done].
  - apply map_Forall_insert_2; [done|]. intros j r' Hj. by apply HP.
  - intros j g Hg. destruct (HG j g Hg) as [? ?]. split; [done|]. by apply is_Some_insert.
  - intros k l Hl. destruct (HL k l Hl) as (H1 & H2 & H3 & H4). split_and!; try done.
    by apply is_Some_insert.
  - intros a b ra rb k sub Ha Hb. cbn in *. rewrite lookup_insert_Some in Ha, Hb.
    destruct Ha as [[<- <-]|[Hna Ha]], Hb as [[<- <-]|[Hnb Hb]]; intros; [done|exfalso..|by eapply HA].
    + by eapply (Hfree b rb).
    + by eapply (Hfree a ra).
Qed.

(** A row that keeps its address. *)
Lemma site_wf_page_same d i r r0 :
  site_wf d → status_pages d !! i = Some r0 → page_ok d i r →
  SpDomainID (spage r) = SpDomainID (spage r0) → SpSubdomain (spage r) = SpSubdomain (spage r0) →
  site_wf (set_pages (<[i := r]>) d).
Proof.
  intros Hw H0 Hr E1 E2. apply site_wf_page; [done..|]. intros j r' k sub Hne Hj. rewrite E1, E2.
  intros. apply Hne. by eapply (sw_addresses d Hw).
Qed.

Lemma site_wf_pages_fmap d f :
  site_wf d → (∀ i r, status_pages d !! i = Some r → page_ok d i (f r)) →
  (∀ r, SpDomainID (spage (f r)) = SpDomainID (spage r) ∧
        SpSubdomain (spage (f r)) = SpSubdomain (spage r)) →
  site_wf (set_pages (fmap f) d).
Proof.
  intros [HP HG HL HD HA HH] Hf Hs. split; cbn; [| | |done| |done].
  - intros i r. rewrite lookup_fmap_Some. intros (r0 & <- & H0). by apply Hf.
  - intros j g Hg. destruct (HG j g Hg) as [? ?]. split; [done|]. cbn. by rewrite lookup_fmap, fmap_is_Some.
  - intros k l Hl. destruct (HL k l Hl) as (H1 & H2 & H3 & H4). split_and!; try done.
    cbn. by rewrite lookup_fmap, fmap_is_Some.
  - intros a b ra rb k sub. cbn. rewrite !lookup_fmap_Some. intros (xa & <- & Ha) (xb & <- & Hb).
    destruct (Hs xa) as [-> ->], (Hs xb) as [-> ->]. by apply HA.
Qed.

Lemma site_wf_delete_page d i :
  site_wf d → (∀ s l, status_page_services d !! (i, s) = Some l → False) →
  (∀ g r, status_page_service_groups d !! g = Some r → GrpStatusPageID (grp r) ≠ i) →
  site_wf (set_pages (delete i) d).
Proof.
  intros [HP HG HL HD HA HH] Hl Hg. split; cbn; [| | |done| |done].
  - apply map_Forall_delete. intros j r Hj. by apply HP.
  - intros j g Hj. destruct (HG j g Hj) as [? ?]. split; [done|].
    cbn. rewrite lookup_delete_ne; [done|]. by apply not_eq_sym, (Hg j).
  - intros [p s] l Hk. destruct (HL _ l Hk) as (H1 & H2 & H3 & H4). split_and!; try done. cbn.
    rewrite lookup_delete_ne; [done|]. intros ->. by eapply Hl.
  - intros a b ra rb k sub. cbn. rewrite !lookup_delete_Some. intros [_ ?] [_ ?]. by apply HA.
Qed.

Lemma site_wf_group d i r :
  site_wf d → group_ok d i r →
  (∀ r0, status_page_service_groups d !! i = Some r0 →
     GrpStatusPageID (grp r0) = GrpStatusPageID (grp r)) →
  site_wf (set_groups (<[i := r]>) d).
Proof.
  intros [HP HG HL HD HA HH] Hr H0. split; cbn; [done| | |done..].
  - apply map_Forall_insert_2; [done|]. intros j r' Hj. by apply HG.
  - intros k l Hk. destruct (HL _ l Hk) as (H1 & H2 & H3 & H4). split_and!; try done.
    intros g Hg. destruct (H3 g Hg) as (r' & Hr' & <-). cbn.
    destruct (decide (i = g)) as [->|]; [|rewrite lookup_insert_ne by done; eauto].
    rewrite lookup_insert_eq. eexists. split; [done|]. symmetry. by apply H0.
Qed.

Lemma site_wf_drop_groups d gone : site_wf d → site_wf (drop_groups gone d).
Proof.
  intros [HP HG HL HD HA HH]. split; cbn; [done| | |done..].
  - intros i r. rewrite map_lookup_filter_Some. intros [Hi _]. by apply HG.
  - intros k l'. rewrite lookup_fmap_Some. intros (l & <- & Hl).
    destruct (HL _ l Hl) as (H1 & H2 & H3 & H4). split_and!; [done..| |].
    + cbn. intros g. destruct (link_group l) as [g0|] eqn:Eg; [|done].
      destruct (H3 g0 eq_refl) as (r & Hr & Hp). rewrite Hr.
      destruct (gone g0 r) eqn:Ego; [done|]. intros [= <-]. exists r. split; [|done]. cbn.
      by apply map_lookup_filter_Some_2.
    + cbn. intros q Hq. destruct (H4 q Hq) as (Hne & l1 & Hl1 & Hn). split; [done|].
      cbn. rewrite lookup_fmap, Hl1. by eexists.
Qed.

(** A link at the top level. *)
Lemma site_wf_link d k l :
  site_wf d → status_page_services d !! k = None → link_ok d k l → link_parent l = None →
  site_wf (set_links (<[k := l]>) d).
Proof.
  intros [HP HG HL HD HA HH] Hk Hl Hn. split; cbn; [done..| |done|done|done].
  intros k' l'. rewrite lookup_insert_Some. intros Hk'.
  assert (link_ok d k' l') as (H1 & H2 & H3 & H4).
  { destruct Hk' as [[<- <-]|[_ ?]]; [done|by apply HL]. }
  split_and!; try done. intros q Hq. destruct (H4 q Hq) as (Hne & l1 & Hl1 & Hn1).
  split; [done|]. cbn. rewrite lookup_insert_ne by (intros ->; congruence). eauto.
Qed.

(** A whole page's links at once. *)
Lemma site_wf_links (d : core) (p : string) (m : gmap (string * string) link_row) :
  site_wf d →
  (∀ k, k.1 ≠ p → m !! k = status_page_services d !! k) →
  (∀ s l, m !! (p, s) = Some l → link_ok (set_links (λ _, m) d) (p, s) l) →
  site_wf (set_links (λ _, m) d).
Proof.
  intros [HP HG HL HD HA HH] Hother Hp. split; cbn; [done..| |done|done|done].
  intros [p' s] l Hl. destruct (decide (p' = p)) as [->|Hne]; [by apply Hp|].
  rewrite Hother in Hl by done. destruct (HL _ l Hl) as (H1 & H2 & H3 & H4). split_and!; try done.
  intros q Hq. destruct (H4 q Hq) as (Hq' & l1 & Hl1 & Hn). split; [done|]. cbn.
  exists l1. by rewrite Hother.
Qed.

Lemma site_wf_domain d i r :
  site_wf d → domain_ok i r →
  (∀ j r', domains d !! j = Some r' → Hostname (dm r') = Hostname (dm r) → j = i) →
  site_wf (set_domains (<[i := r]>) d).
Proof.
  intros [HP HG HL HD HA HH] Hr Hfree. split; cbn; [|done|done| |done|].
  - intros j p Hj. destruct (HP j p Hj) as (H1 & H2 & H3 & H4 & H5). split_and!; try done.
    intros k Hk. by apply is_Some_insert, H4.
  - by apply map_Forall_insert_2.
  - intros a b ra rb. cbn. rewrite !lookup_insert_Some.
    intros [[<- <-]|[_ Ha]] [[<- <-]|[_ Hb]] E; [done|symmetry; eauto|eauto|by eapply HH].
Qed.

Lemma site_wf_delete_domain d i :
  site_wf d → (∀ j r, status_pages d !! j = Some r → SpDomainID (spage r) ≠ Some i) →
  site_wf (set_domains (delete i) d).
Proof.
  intros [HP HG HL HD HA HH] Hfree. split; cbn; [|done|done| |done|].
  - intros j p Hj. destruct (HP j p Hj) as (H1 & H2 & H3 & H4 & H5). split_and!; try done.
    intros k Hk. cbn. rewrite lookup_delete_ne; [by apply H4|]. intros ->. by eapply Hfree.
  - by apply map_Forall_delete.
  - intros a b ra rb. cbn. rewrite !lookup_delete_Some. intros [_ ?] [_ ?]. by apply HH.
Qed.

(** ** Placements of one page *)

(** What inserting placements one by one comes to: no service twice, each of them
    and its group and parent there, and the links as asked for. *)
Section placements.
Context `{!Driver}.

Definition inserted_links (pageID : string) (l : list ServicePlacement) (d d' : core) : Prop :=
  d' = set_links (λ _, status_page_services d') d ∧
  (∀ k, k.1 ≠ pageID → status_page_services d' !! k = status_page_services d !! k) ∧
  (∀ s x, status_page_services d' !! (pageID, s) = Some x ↔
     status_page_services d !! (pageID, s) = Some x ∨
     ∃ p, p ∈ l ∧ PlServiceID p = s ∧ link_of p = x) ∧
  (∀ p, p ∈ l → is_Some (status_pages d !! pageID) ∧ is_Some (services d !! PlServiceID p) ∧
     status_page_services d !! (pageID, PlServiceID p) = None) ∧
  NoDup (PlServiceID <$> l).

Lemma set_links_id (d : core) : set_links (λ _, status_page_services d) d = d.
Proof. by destruct d. Qed.

Lemma insert_link_Ok p s l c a c' :
  insert_link p s l c = (Ok a, c') →
  tables c' = set_links (<[(p, s) := l]>) (tables c) ∧
  status_page_services (tables c) !! (p, s) = None ∧
  is_Some (status_pages (tables c) !! p) ∧ is_Some (services (tables c) !! s) ∧
  (∀ g, link_group l = Some g → is_Some (status_page_service_groups (tables c) !! g)) ∧
  (∀ q, link_parent l = Some q → is_Some (services (tables c) !! q)).
Proof.
  intros (d & Hd & <- & _)%stmt_Ok_inv. cbv zeta in Hd. case_bool_decide as Hn; [done|].
  apply eq_None_not_Some in Hn. destruct (_ && _) eqn:E; [|done]. simplify_eq.
  rewrite !andb_true_iff in E. destruct E as [[[E1 E2] E3] E4].
  apply bool_decide_eq_true in E1, E2. split_and!; try done.
  - intros g Hg. rewrite Hg in E3. by apply bool_decide_eq_true in E3.
  - intros q Hq. rewrite Hq in E4. by apply bool_decide_eq_true in E4.
Qed.

Lemma insert_placements_Ok p l c a c' :
  insert_placements p l c = (Ok a, c') → inserted_links p l (tables c) (tables c').
Proof.
  revert c. induction l as [|x l IH]; intros c; cbn [insert_placements].
  - intros [= _ <-]. split_and!; [by rewrite set_links_id|done| | |constructor].
    + intros s y. split; [by left|]. intros [?|(q & Hq & _)]; [done|by apply elem_of_nil in Hq].
    + intros q Hq. by apply elem_of_nil in Hq.
  - intros (b & c1 & (Ht & Hn & Hp & Hs & Hg & Hq)%insert_link_Ok & E)%bind_Ok_inv.
    destruct (IH _ E) as (H1 & H2 & H3 & H4 & H5). rewrite Ht in *. cbn in *. split_and!.
    + rewrite H1. by destruct (tables c).
    + intros k Hk. rewrite (H2 k Hk). cbn. by rewrite lookup_insert_ne by (intros <-; done).
    + intros s y. rewrite H3. cbn. rewrite lookup_insert_Some. split.
      * intros [[[[= <-] <-]|[_ ?]]|(z & Hz & ?)]; [right; exists x; by split; [left|]|by left|].
        right. exists z. split; [by right|done].
      * intros [Hy|(z & [->|Hz]%elem_of_cons & <- & <-)].
        -- left. right. split; [|done]. intros [= <-]. congruence.
        -- left. by left.
        -- right. eauto.
    + intros z [->|Hz]%elem_of_cons; [done|]. destruct (H4 z Hz) as (? & ? & Hz').
      split_and!; [done..|]. apply lookup_insert_None in Hz' as [? _]. done.
    + constructor; [|done]. intros (z & Ez & Hz)%list_elem_of_fmap.
      destruct (H4 z Hz) as (_ & _ & Hz'). rewrite <- Ez, lookup_insert_eq in Hz'. done.
Qed.

(** What a successful [SetServices] does to the tables: the page's links become
    the sanitized placements, and nothing else moves. *)
Lemma set_services_tx_Ok pid placements c a c' :
  set_services_tx pid placements c = (Ok a, c') →
  ∃ vg ex out, validateAndSanitizeServicePlacements placements vg ex = Ok out ∧
    (∀ g, g ∈ vg ↔ ∃ r, status_page_service_groups (tables c) !! g = Some r ∧
       group_visible c r = true ∧ GrpStatusPageID (grp r) = pid) ∧
    (∃ r, status_pages (tables c) !! pid = Some r ∧ page_readable c r = true) ∧
    inserted_links pid out (set_links (filter (λ kv, kv.1.1 ≠ pid)) (tables c)) (tables c').
Proof.
  unfold set_services_tx. intros (e & c1 & Hq & E)%bind_Ok_inv.
  pose proof (stmt_settings_eq _ _ _ _ Hq) as [Ha1 Hb1]. apply query_Ok_inv in Hq as [He Ht1].
  destruct (status_pages (tables c) !! pid) as [r|] eqn:Er; [|by subst e].
  destruct e; [|done]. cbn [negb] in E.
  apply bind_Ok_inv in E as (vg & c2 & Hvg & E).
  apply query_Ok_inv in Hvg as [Hvg Ht2].
  apply bind_Ok_inv in E as (ex & c3 & [_ Ht3]%query_Ok_inv & E).
  apply bind_Ok_inv in E as (out & c4 & Hout & E).
  destruct (validateAndSanitizeServicePlacements placements vg ex) as [o|] eqn:Ev; [|done].
  injection Hout as <- <-.
  apply bind_Ok_inv in E as (b & c5 & (d5 & [= <- <-] & Ht5 & _)%stmt_Ok_inv & E).
  apply insert_placements_Ok in E. rewrite Ht5, Ht3, Ht2, Ht1 in E.
  exists vg, ex, o. split_and!; [done| |by eauto|done].
  intros g. rewrite Hvg, elem_of_dom. unfold is_Some.
  setoid_rewrite map_lookup_filter_Some. unfold group_visible, visible. cbn.
  by rewrite Ht1, Ha1, Hb1.
Qed.
End placements.

(** ** Operations *)

Definition site_rel : string → bool → relation core := λ _ _ d d', site_wf d → site_wf d'.
#[global] Instance site_rel_preorder t b : PreOrder (site_rel t b).
Proof.
  unfold site_rel. split; [by intros d Hd|]. intros d1 d2 d3 H1 H2 Hd. by apply H2, H1.
Qed.

Section operations.
Context `{!Driver}.

Abbreviation keeps_site := (preserves site_rel).

Lemma keeps_pool_tx {A} (m : M (session core) db_err A) : keeps_site m → keeps_site (with_pool_tx m).
Proof. intros Hm. apply (preserves_pool_tx site_rel); [by intros t b d d' Hd|done]. Qed.
Lemma keeps_runInTx {A} (m : M (session core) db_err A) : keeps_site m → keeps_site (runInTx m).
Proof. intros Hm. apply (preserves_runInTx site_rel); [by intros t b d d' Hd|done]. Qed.
Lemma keeps_insert_page x : keeps_site (insert_page x).
Proof.
  apply (preserves_stmt site_rel). intros s a d Hf Hw. cbv zeta in Hf.
  destruct (default_tenant s) as [t|]; [|done]. case_bool_decide as Henv; [|done]. cbn in Hf.
  destruct (page_exists _ _) eqn:Ep; [done|]. destruct (has_row _ _) eqn:Eh; [done|].
  destruct (null_or _ _) eqn:En; [|done]. cbn in Hf. simplify_eq.
  apply site_wf_page; [done| |].
  - split_and!; cbn; [done|set_solver|done| |done].
    intros k Hk. rewrite Hk in En. by apply bool_decide_eq_true in En.
  - cbn. intros j r k sub _ Hj Hd Hs Hd' Hs'. pose proof (has_row_false _ _ _ _ Eh Hj) as Hf.
    unfold same_address in Hf. rewrite Hd, Hs in Hf. by apply bool_decide_eq_false in Hf as [].
Qed.

Lemma keeps_insert_link p s : keeps_site (insert_link p s default_link).
Proof.
  intros c. destruct (stmt_settings_eq _ c _ _ (surjective_pairing (insert_link p s default_link c)))
    as [E1 E2]. split; [|done]. intros Hw.
  destruct (insert_link p s default_link c) as [[a|e] c'] eqn:E.
  - destruct a. apply insert_link_Ok in E as (Ht & Hn & Hp & Hs & _ & _). cbn. rewrite Ht.
    by apply site_wf_link.
  - apply stmt_inv in E as [(? & _ & Ht)|(? & ? & _ & ? & _)]; [cbn; by rewrite Ht|done].
Qed.

Lemma keeps_link_services p l : keeps_site (link_services p l).
Proof.
  induction l as [|s l IH]; [apply (preserves_ret site_rel)|].
  apply (preserves_bind site_rel); [apply keeps_insert_link|auto].
Qed.

Lemma keeps_CreatePage x l : keeps_site (CreatePage x l).
Proof.
  apply keeps_runInTx, (preserves_bind site_rel); [apply keeps_insert_page|intros row].
  apply (preserves_bind site_rel); [apply keeps_link_services|]. intros _. apply (preserves_ret site_rel).
Qed.

(** A page's accepted placements are well formed links. *)
Lemma inserted_links_wf pid out vg d d' :
  site_wf d → placements_ok vg out →
  (∀ g, g ∈ vg → ∃ r, status_page_service_groups d !! g = Some r ∧ GrpStatusPageID (grp r) = pid) →
  inserted_links pid out (set_links (filter (λ kv, kv.1.1 ≠ pid)) d) d' → site_wf d'.
Proof.
  intros Hw Hok Hvg (H1 & H2 & H3 & H4 & _).
  assert (∀ s x, status_page_services d' !! (pid, s) = Some x ↔
            ∃ p, p ∈ out ∧ PlServiceID p = s ∧ link_of p = x) as Hin.
  { intros s x. rewrite H3. cbn. split; [|by right]. intros [Hf|?]; [|done].
    by apply map_lookup_filter_Some in Hf as [_ []]. }
  rewrite H1. change (set_links _ (set_links _ d)) with (set_links (λ _, status_page_services d') d).
  apply site_wf_links with pid; [done| |].
  - intros k Hk. rewrite (H2 k Hk). cbn. rewrite map_lookup_filter.
    destruct (status_page_services d !! k); [|done]. cbn. by rewrite option_guard_True.
  - intros s l (p & Hp & <- & <-)%Hin. destruct (H4 p Hp) as (Hpg & Hsv & _). split_and!; [done..| |].
    + intros g Hg. apply Hvg. by eapply po_group.
    + intros q Hq. split; [intros E; subst q; by apply (po_self _ _ Hok p)|].
      destruct (po_parent _ _ Hok p q Hp Hq) as (p' & Hp' & <-).
      exists (link_of p'). split; [apply Hin; eauto|]. by apply (po_depth _ _ Hok p p').
Qed.

Lemma SetServices_wf pid l s :
  site_wf (tables s) → site_wf (tables (SetServices pid l s).2).
Proof.
  intros Hw. unfold SetServices. destruct (with_pool_tx _ s) as [r s'] eqn:E. cbn.
  apply with_pool_tx_inv in E as [(e & _ & ->)|(a & i & Hm & _ & ->)]; [done|].
  apply set_services_tx_Ok in Hm as (vg & ex & out & Hv & Hvg & _ & Hi).
  apply validate_inv in Hv as [Hok _]. eapply inserted_links_wf; [done|done| |done].
  intros g (r0 & Hr & _ & Hp)%Hvg. eauto.
Qed.
Lemma keeps_SetServices pid l : keeps_site (SetServices pid l).
Proof.
  intros s. split; [intros Hw; by apply SetServices_wf|].
  by eapply with_pool_tx_settings, surjective_pairing.
Qed.

Lemma keeps_CreateGroup p name : keeps_site (CreateGroup p name).
Proof.
  apply (preserves_stmt site_rel). intros s a d Hf Hw. cbv zeta in Hf.
  destruct (default_tenant s) as [t|]; [|done].
  destruct (group_exists _ _) eqn:Eg; [done|]. destruct (page_exists _ _) eqn:Ep; [|done].
  cbn in Hf. simplify_eq. apply bool_decide_eq_false in Eg. apply bool_decide_eq_true in Ep.
  apply site_wf_group; [done|by split|]. intros r0 Hr0. by rewrite Hr0 in Eg; destruct Eg.
Qed.
Lemma keeps_UpdateGroup t p i name pos : keeps_site (UpdateGroup t p i name pos).
Proof.
  apply (preserves_bind site_rel); [|intros; apply (preserves_or_not_found site_rel)].
  apply (preserves_stmt site_rel). intros s a d Hf Hw. destruct (_ !! i) as [r|] eqn:Er; [|by simplify_eq].
  destruct (group_match _ _ _ _); [|by simplify_eq]. cbv zeta in Hf. simplify_eq.
  destruct (sw_groups _ Hw i r Er) as [H1 H2].
  apply site_wf_group; [done|by split|]. intros r0 Hr0. by simplify_eq.
Qed.
Lemma keeps_DeleteGroup t p i : keeps_site (DeleteGroup t p i).
Proof.
  apply (preserves_bind site_rel); [|intros; apply (preserves_affected site_rel)].
  apply (preserves_stmt site_rel). intros s a d Hf Hw. destruct (_ !! i) as [r|]; [|by simplify_eq].
  destruct (group_match _ _ _ _); simplify_eq; [by apply site_wf_drop_groups|done].
Qed.

(** A row rewritten in place. *)
Lemma page_ok_set d i r f :
  page_ok d i r → SpID (f (spage r)) = SpID (spage r) →
  SpEnvironment (f (spage r)) ∈ page_environments →
  SpDomainID (f (spage r)) = SpDomainID (spage r) →
  SpSubdomain (f (spage r)) = SpSubdomain (spage r) →
  SpState (f (spage r)) ∈ page_states →
  (SpState (f (spage r)) = SpState (spage r) ∨
   is_Some (SpDomainID (spage r)) ∧ is_Some (SpSubdomain (spage r))) →
  page_ok d i (set_page f r).
Proof.
  intros (H1 & H2 & H3 & H4 & H5) E1 E2 E3 E4 E5 E6. unfold page_ok. cbn.
  rewrite E1, E3, E4. split_and!; [done..|]. intros Hn. destruct E6 as [E6|?]; [|done].
  apply H5. by rewrite <- E6.
Qed.

Lemma keeps_attach_page i k sub : keeps_site (attach_page i k sub).
Proof.
  apply (preserves_bind site_rel); [|intros [?|]; [apply (preserves_ret site_rel)|apply (preserves_fail site_rel)]].
  apply (preserves_stmt site_rel). intros s a d Hf Hw. destruct (_ !! i) as [r|] eqn:Er; [|by simplify_eq].
  destruct (page_visible _ _); [|by simplify_eq]. cbv zeta in Hf.
  destruct (has_row _ _) eqn:Eh; [done|]. destruct (domain_exists _ _) eqn:Ed; [|done].
  cbn in Hf. simplify_eq. apply bool_decide_eq_true in Ed.
  destruct (sw_pages _ Hw i r Er) as (H1 & H2 & H3 & H4 & H5). apply site_wf_page; [done| |].
  - split_and!; cbn; [done|set_solver|done| |by eauto]. by intros ? [= <-].
  - cbn. intros j r' k' sub' Hne Hj [= <-] [= <-] Hd' Hs'.
    eapply has_row_false in Eh; [|by rewrite lookup_delete_ne by done].
    unfold same_address in Eh. cbn in Eh. by apply bool_decide_eq_false in Eh as [].
Qed.
Lemma keeps_AttachDomain i k sub : keeps_site (AttachDomain i k sub).
Proof.
  apply keeps_pool_tx, (preserves_bind site_rel); [apply (preserves_query site_rel)|intros row].
  apply (preserves_bind site_rel); [apply (preserves_or_not_found site_rel)|]. intros [k0|]; [apply (preserves_fail site_rel)|].
  apply (preserves_map_err site_rel), keeps_attach_page.
Qed.
Lemma keeps_UpdatePageEnvironment i env : keeps_site (UpdatePageEnvironment i env).
Proof.
  apply (preserves_bind site_rel); [|intros; apply (preserves_or_not_found site_rel)].
  apply (preserves_stmt site_rel). intros s a d Hf Hw. destruct (_ !! i) as [r|] eqn:Er; [|by simplify_eq].
  destruct (page_visible _ _); [|by simplify_eq]. case_bool_decide as He; [|done]. simplify_eq.
  pose proof (sw_pages _ Hw i r Er) as Hok. pose proof Hok as (_ & Hst & _).
  eapply site_wf_page_same; [done|done| |done..]. apply page_ok_set; try done. by left.
Qed.

Lemma keeps_clear_groups p : keeps_site (clear_groups p).
Proof. apply (preserves_stmt site_rel). intros s a d [= <- <-] Hw. by apply site_wf_drop_groups. Qed.

Lemma elem_page_links p d s l : (s, l) ∈ page_links p d ↔ status_page_services d !! (p, s) = Some l.
Proof.
  unfold page_links. rewrite list_elem_of_fmap. split.
  - intros ([[p' s'] l'] & [= -> ->] & [<- Hin]%list_elem_of_filter). by apply elem_of_map_to_list in Hin.
  - intros Hl. exists (p, s, l). split; [done|]. apply list_elem_of_filter. split; [done|].
    by apply elem_of_map_to_list.
Qed.

Lemma keeps_clear_links p : keeps_site (clear_links p).
Proof.
  apply (preserves_stmt site_rel). intros s a d [= <- <-] Hw.
  change (set_links _ _) with
    (set_links (λ _, filter (λ kv, kv.1.1 ≠ p) (status_page_services (tables s))) (tables s)).
  apply site_wf_links with p; [done| |].
  - intros k Hk. rewrite map_lookup_filter.
    destruct (status_page_services (tables s) !! k); [|done]. cbn. by rewrite option_guard_True.
  - intros q l. rewrite map_lookup_filter_Some. by intros [_ ?].
Qed.
Lemma keeps_delete_page p : keeps_site (delete_page p).
Proof.
  apply (preserves_stmt site_rel). intros s a d Hf Hw. cbv zeta in Hf.
  destruct (_ !! p) as [r|] eqn:Er; [|by simplify_eq].
  destruct (page_visible _ _); [|by simplify_eq]. case_bool_decide as Hl; [done|].
  destruct (has_row _ _) eqn:Eh; [done|]. cbn in Hf. simplify_eq.
  apply site_wf_delete_page; [done| |].
  - intros q l Hq%elem_page_links. rewrite Hl in Hq. by apply elem_of_nil in Hq.
  - intros g x Hg. pose proof (has_row_false _ _ _ _ Eh Hg) as Hf. by apply String.eqb_neq in Hf.
Qed.
Lemma keeps_DeletePage p : keeps_site (DeletePage p).
Proof.
  apply keeps_pool_tx, (preserves_bind site_rel); [apply keeps_clear_links|intros _].
  apply (preserves_bind site_rel); [apply keeps_clear_groups|intros _].
  apply (preserves_bind site_rel); [apply keeps_delete_page|]. apply (preserves_affected site_rel).
Qed.

Lemma keeps_update_at_hostname h f :
  (∀ x, SpID (f x) = SpID x ∧ SpEnvironment (f x) = SpEnvironment x ∧
        SpDomainID (f x) = SpDomainID x ∧ SpSubdomain (f x) = SpSubdomain x ∧
        SpState (f x) ∈ page_states) →
  keeps_site (update_at_hostname h f).
Proof.
  intros Hf. apply (preserves_stmt site_rel). intros s a d E Hw. cbv zeta in E. injection E as <- <-.
  apply site_wf_pages_fmap; [done| |].
  - intros i r Hr. pose proof (sw_pages _ Hw i r Hr) as Hok. destruct (_ && _) eqn:E; [|done].
    apply andb_true_iff in E as [_ E]. unfold at_hostname in E. apply andb_true_iff in E as [_ E].
    apply bool_decide_eq_true in E. pose proof Hok as (_ & _ & Henv & _).
    destruct (Hf (spage r)) as (E1 & E2 & E3 & E4 & E5).
    apply page_ok_set; [done|done|by rewrite E2|done..|]. right. unfold address in E.
    destruct (SpDomainID (spage r)), (SpSubdomain (spage r)); by eauto.
  - intros r. destruct (_ && _); [|done]. cbn. destruct (Hf (spage r)) as (_ & _ & ? & ? & _). done.
Qed.
Lemma keeps_MarkPublished h : keeps_site (MarkPublished h).
Proof.
  apply (preserves_bind site_rel); [|apply (preserves_affected site_rel)]. apply keeps_update_at_hostname.
  intros x. split_and!; try done. set_solver.
Qed.
Lemma keeps_MarkTLSFailed h reason : keeps_site (MarkTLSFailed h reason).
Proof.
  apply (preserves_bind site_rel); [|apply (preserves_affected site_rel)]. apply keeps_update_at_hostname.
  intros x. split_and!; try done. set_solver.
Qed.

(** *** Domains *)

Lemma keeps_CreateDomain `{!Machine} ev h : keeps_site (CreateDomain ev h).
Proof.
  unfold CreateDomain. destruct (generateDomainVerificationToken ev) as [token|]; [|apply (preserves_fail site_rel)].
  apply (preserves_map_err site_rel), (preserves_stmt site_rel). intros s a d Hf Hw. cbv zeta in Hf.
  destruct (default_tenant s) as [t|]; [|done]. destruct (has_row _ _) eqn:Eh; [done|].
  case_bool_decide; [done|]. cbn in Hf. simplify_eq. apply site_wf_domain; [done| |].
  - split; cbn; [done|set_solver].
  - cbn. intros j r Hj E. pose proof (has_row_false _ _ _ _ Eh Hj) as Hf.
    unfold by_hostname in Hf. by apply String.eqb_neq in Hf.
Qed.
Lemma keeps_update_domain i f :
  (∀ s x, DomID (f s x) = DomID x ∧ Hostname (f s x) = Hostname x) → keeps_site (update_domain i f).
Proof.
  intros Hid. apply (preserves_stmt site_rel). intros s a d Hf Hw.
  destruct (_ !! i) as [r|] eqn:Er; [|by simplify_eq].
  destruct (domain_visible _ _); [|by simplify_eq]. case_bool_decide as Hst; [|done]. simplify_eq.
  destruct (sw_domains _ Hw i r Er) as [H1 H2], (Hid s (dm r)) as [E1 E2].
  apply site_wf_domain; [done|split; cbn; congruence|]. cbn. rewrite E2.
  intros j r' Hj E. by eapply (sw_hostnames _ Hw).
Qed.
Lemma keeps_SetVerificationResult i st e t : keeps_site (SetVerificationResult i st e t).
Proof.
  apply (preserves_bind site_rel); [by apply keeps_update_domain|intros row].
  apply (preserves_bind site_rel); [apply (preserves_or_not_found site_rel)|]. intros x. apply (preserves_ret site_rel).
Qed.
Lemma keeps_SetHealthCheckResult i e r ns b err : keeps_site (SetHealthCheckResult i e r ns b err).
Proof.
  apply keeps_runInTx, (preserves_bind site_rel); [by apply keeps_update_domain|intros row].
  apply (preserves_bind site_rel); [apply (preserves_or_not_found site_rel)|]. intros x. apply (preserves_ret site_rel).
Qed.
Lemma keeps_DeleteDomain i : keeps_site (DeleteDomain i).
Proof.
  apply (preserves_bind site_rel); [|apply (preserves_affected site_rel)]. apply (preserves_map_err site_rel), (preserves_stmt site_rel).
  intros s a d Hf Hw. destruct (_ !! i) as [r|] eqn:Er; [|by simplify_eq].
  destruct (domain_visible _ _); [|by simplify_eq].
  destruct (has_row _ _) eqn:Eh; [done|]. simplify_eq. apply site_wf_delete_domain; [done|].
  intros j p Hj. pose proof (has_row_false _ _ _ _ Eh Hj) as Hf. by apply bool_decide_eq_false in Hf.
Qed.

End operations.
