(* ===== verification/SiteSafety.v ===== *)
(** * What the status page and domain operations promise

    Any sequence of operations of the two repositories keeps the site well formed
    (SiteInv.v) and, on a role subject to row-level security, stays within the
    session's tenant - except [SetServices], which opens a connection without a
    tenant and writes a table without a policy. *)

From stdpp Require Import numbers strings gmap list.
From Stdlib Require Import ZArith Lia.
From S2P Require Import Prelude GoNum Db Schema Placements Secrets Domains StatusPages SiteInv.

#[local] Open Scope Z_scope.
#[local] Open Scope go_scope.

(** ** Sequences of operations *)

Inductive site_op :=
| OpCreatePage (x : StatusPage) (serviceIDs : list string)
| OpSetServices (id : string) (placements : list ServicePlacement)
| OpCreateGroup (pageID name : string)
| OpUpdateGroup (tenantID pageID id name : string) (position : Z)
| OpDeleteGroup (tenantID pageID id : string)
| OpListGroups (pageID : string)
| OpListServicePlacements (pageID : string)
| OpGetPage (id : string)
| OpListPages (page pageSize : Z)
| OpAttachedNames (domainIDs : list string)
| OpPublicHostname (id : string)
| OpAttachDomain (id domainID subdomain : string)
| OpUpdatePageEnvironment (id environment : string)
| OpDeletePage (id : string)
| OpStateByHostname (hostname : string)
| OpGetByHostname (hostname : string)
| OpMarkPublished (hostname : string)
| OpMarkTLSFailed (hostname reason : string)
| OpListForStatusPage (pageID : string)
| OpCreateDomain (ev : nat) (hostname : string)
| OpListDomains (tenantID : string) (page pageSize : Z)
| OpGetDomain (id : string)
| OpSetVerificationResult (id status : string) (lastError : option string) (verifiedAt : Z)
| OpSetHealthCheckResult (id : string) (expiresAt : option Z) (registrar : option string)
    (currentNS : option (list string)) (drift : bool) (rdapErr : option string)
| OpDeleteDomain (id : string)
| OpCountVerified
| OpCountAllDomains (tenantID : string).

Section site_ops.
Context `{!Driver, !Machine}.

Definition run_site_op (o : site_op) : M (session core) db_err unit :=
  match o with
  | OpCreatePage x l => discard (CreatePage x l)
  | OpSetServices id l => SetServices id l
  | OpCreateGroup p name => discard (CreateGroup p name)
  | OpUpdateGroup t p id name pos => discard (UpdateGroup t p id name pos)
  | OpDeleteGroup t p id => DeleteGroup t p id
  | OpListGroups p => discard (ListGroups p)
  | OpListServicePlacements p => discard (ListServicePlacements p)
  | OpGetPage id => discard (GetPage id)
  | OpListPages page size => discard (ListPages page size)
  | OpAttachedNames l => discard (AttachedNamesByDomainIDs l)
  | OpPublicHostname id => discard (PublicHostnameByID id)
  | OpAttachDomain id k sub => discard (AttachDomain id k sub)
  | OpUpdatePageEnvironment id env => discard (UpdatePageEnvironment id env)
  | OpDeletePage id => DeletePage id
  | OpStateByHostname h => discard (StateByHostname h)
  | OpGetByHostname h => discard (GetByHostname h)
  | OpMarkPublished h => MarkPublished h
  | OpMarkTLSFailed h reason => MarkTLSFailed h reason
  | OpListForStatusPage p => discard (ListForStatusPage p)
  | OpCreateDomain ev h => discard (CreateDomain ev h)
  | OpListDomains t page size => discard (ListDomains t page size)
  | OpGetDomain id => discard (GetDomain id)
  | OpSetVerificationResult id st e t => discard (SetVerificationResult id st e t)
  | OpSetHealthCheckResult id e r ns b err => SetHealthCheckResult id e r ns b err
  | OpDeleteDomain id => DeleteDomain id
  | OpCountVerified => discard CountVerified
  | OpCountAllDomains t => discard (CountAllDomains t)
  end.

(** The operations of a list, each whatever became of the ones before. *)
Fixpoint run_site_ops (l : list site_op) : M (session core) db_err unit :=
  match l with
  | [] => ret tt
  | o :: l => attempt (run_site_op o) ;;; run_site_ops l
  end.
End site_ops.

(** ** Both relations at once *)

Section through.
Context `{!Driver, !Machine} (R : string → bool → relation core) `{!∀ t b, PreOrder (R t b)}.

Lemma through_discard {A} (m : M (session core) db_err A) : preserves R m → preserves R (discard m).
Proof. intros Hm. apply (preserves_bind R); [done|]. intros _. apply preserves_ret, _. Qed.
Lemma through_serviceIDs l : preserves R (serviceIDsByStatusPage l).
Proof. destruct l; [by apply preserves_ret|by apply preserves_query]. Qed.

(** The operations that only read. *)
Definition reads_only (o : site_op) : bool :=
  match o with
  | OpListGroups _ | OpListServicePlacements _ | OpGetPage _ | OpListPages _ _ | OpAttachedNames _
  | OpPublicHostname _ | OpStateByHostname _ | OpGetByHostname _ | OpListForStatusPage _
  | OpListDomains _ _ _ | OpGetDomain _ | OpCountVerified | OpCountAllDomains _ => true
  | _ => false
  end.

Lemma through_reads o : reads_only o = true → preserves R (run_site_op o).
Proof.
  intros Ho. destruct o; try done; apply through_discard;
    try (by apply preserves_query); try (apply (preserves_paginated R)).
  - apply (preserves_query_then R). intros row. apply (preserves_bind R); [apply (preserves_or_not_found R)|].
    intros x. apply (preserves_bind R); [apply through_serviceIDs|]. intros. by apply preserves_ret.
  - apply (preserves_bind R); [apply (preserves_paginated R)|]. intros r.
    apply (preserves_bind R); [apply through_serviceIDs|]. intros. by apply preserves_ret.
  - destruct domainIDs; [by apply preserves_ret|by apply preserves_query].
  - apply (preserves_query_then R). intros row. apply (preserves_bind R); [apply (preserves_or_not_found R)|].
    intros [h|]; [by apply preserves_ret|by apply preserves_fail].
  - apply (preserves_query_then R). intros row. apply (preserves_bind R); [apply (preserves_or_not_found R)|].
    intros. by apply preserves_ret.
  - apply (preserves_query_then R). intros row. apply (preserves_bind R); [apply (preserves_or_not_found R)|].
    intros. by apply preserves_ret.
  - apply (preserves_query_then R). intros row. apply (preserves_or_not_found R).
Qed.

Lemma through_ops l : (∀ o, o ∈ l → preserves R (run_site_op o)) → preserves R (run_site_ops l).
Proof.
  induction l as [|o l IH]; intros Hl; [by apply preserves_ret|].
  apply (preserves_bind R).
  - apply (preserves_attempt R), Hl. left.
  - intros _. apply IH. intros o' Ho. apply Hl. by right.
Qed.
End through.

(** ** The site stays well formed *)

Lemma run_site_op_wf `{!Driver, !Machine} o : preserves site_rel (run_site_op o).
Proof.
  destruct (reads_only o) eqn:Ho; [by apply (through_reads site_rel)|].
  destruct o; try done; try apply (through_discard site_rel).
  - apply keeps_CreatePage.
  - apply keeps_SetServices.
  - apply keeps_CreateGroup.
  - apply keeps_UpdateGroup.
  - apply keeps_DeleteGroup.
  - apply keeps_AttachDomain.
  - apply keeps_UpdatePageEnvironment.
  - apply keeps_DeletePage.
  - apply keeps_MarkPublished.
  - apply keeps_MarkTLSFailed.
  - apply keeps_CreateDomain.
  - apply keeps_SetVerificationResult.
  - apply keeps_SetHealthCheckResult.
  - apply keeps_DeleteDomain.
Qed.

(** ** The site stays within its tenant *)

Definition foreign_page (t p : string) (d : core) : Prop :=
  match status_pages d !! p with Some r => foreign t (page_tenant r) | None => False end.

(** A link but for its group, which goes when its group is deleted. *)
Definition link_shape (l : link_row) : option string * Z := (link_parent l, link_position l).

Record site_isolated_from (t : string) (d d' : core) : Prop := {
  si_pages : ∀ i r, foreign t (page_tenant r) →
    status_pages d !! i = Some r ↔ status_pages d' !! i = Some r;
  si_groups : ∀ i r, foreign t (grp_tenant r) →
    status_page_service_groups d !! i = Some r ↔ status_page_service_groups d' !! i = Some r;
  si_domains : ∀ i r, foreign t (dom_tenant r) →
    domains d !! i = Some r ↔ domains d' !! i = Some r;
  si_links : ∀ p s, foreign_page t p d →
    link_shape <$> status_page_services d' !! (p, s) = link_shape <$> status_page_services d !! (p, s);
}.

Definition site_isolated (t : string) (bypass : bool) : relation core :=
  λ d d', bypass = false → site_isolated_from t d d'.

#[global] Instance site_isolated_preorder t b : PreOrder (site_isolated t b).
Proof.
  split; [by intros d _|]. intros d1 d2 d3 H1 H2 Hb.
  destruct (H1 Hb) as [P1 G1 D1 L1], (H2 Hb) as [P2 G2 D2 L2]. split.
  - intros i r Hr. by rewrite P1, P2.
  - intros i r Hr. by rewrite G1, G2.
  - intros i r Hr. by rewrite D1, D2.
  - intros p s Hp. rewrite L2; [by apply L1|]. unfold foreign_page in *.
    destruct (status_pages d1 !! p) as [r|] eqn:E; [|done]. apply P1 in E; [|done]. by rewrite E.
Qed.

(** A session without a tenant may touch no row of these tables. *)
Lemma site_isolated_anonymous t b d d' : site_isolated "" b d d' → site_isolated t b d d'.
Proof.
  intros H Hb. destruct (H Hb) as [P G D L].
  assert (∀ u, foreign "" u) as Hf by (by left). split; eauto.
  intros p s Hp. apply L. unfold foreign_page in *. destruct (_ !! p); [by left|done].
Qed.

(** *** What a session may write *)

Section own_rows.
Context (t : string) (b : bool).
Implicit Types d : core.

(** A map changed at one key only, whose rows there are the session's. *)
Lemma isolated_at {A} (own : A → string) (m m' : gmap string A) i :
  b = false → (∀ j, j ≠ i → m' !! j = m !! j) →
  (∀ r, m !! i = Some r → writable t b (own r)) → (∀ r, m' !! i = Some r → writable t b (own r)) →
  ∀ j r, foreign t (own r) → m !! j = Some r ↔ m' !! j = Some r.
Proof.
  intros Hb Hne H1 H2 j r Hf. destruct (decide (j = i)) as [->|]; [|by rewrite Hne].
  split; intros E; exfalso.
  - by eapply writable_not_foreign; [|apply H1|].
  - by eapply writable_not_foreign; [|apply H2|].
Qed.

Lemma site_isolated_page d f i :
  (∀ j, j ≠ i → f (status_pages d) !! j = status_pages d !! j) →
  (∀ r, status_pages d !! i = Some r → writable t b (page_tenant r)) →
  (∀ r, f (status_pages d) !! i = Some r → writable t b (page_tenant r)) →
  site_isolated t b d (set_pages f d).
Proof. intros H1 H2 H3 Hb. split; try done. cbn. by eapply isolated_at. Qed.

Lemma site_isolated_group d f i :
  (∀ j, j ≠ i → f (status_page_service_groups d) !! j = status_page_service_groups d !! j) →
  (∀ r, status_page_service_groups d !! i = Some r → writable t b (grp_tenant r)) →
  (∀ r, f (status_page_service_groups d) !! i = Some r → writable t b (grp_tenant r)) →
  site_isolated t b d (set_groups f d).
Proof. intros H1 H2 H3 Hb. split; try done. cbn. by eapply isolated_at. Qed.

Lemma site_isolated_domain d f i :
  (∀ j, j ≠ i → f (domains d) !! j = domains d !! j) →
  (∀ r, domains d !! i = Some r → writable t b (dom_tenant r)) →
  (∀ r, f (domains d) !! i = Some r → writable t b (dom_tenant r)) →
  site_isolated t b d (set_domains f d).
Proof. intros H1 H2 H3 Hb. split; try done. cbn. by eapply isolated_at. Qed.

(** A link of a page the session may write. *)
Lemma site_isolated_link d p s l :
  (∀ r, status_pages d !! p = Some r → writable t b (page_tenant r)) →
  site_isolated t b d (set_links (<[(p, s) := l]>) d).
Proof.
  intros Hw Hb. split; try done. intros p' s'. unfold foreign_page.
  destruct (status_pages d !! p') as [r|] eqn:E; [|done]. intros Hf. cbn.
  rewrite lookup_insert_ne; [done|]. intros [= -> ->].
  by eapply writable_not_foreign; [|apply Hw|].
Qed.

Lemma site_isolated_drop_groups d gone :
  (∀ i r, status_page_service_groups d !! i = Some r → gone i r = true →
     writable t b (grp_tenant r)) →
  site_isolated t b d (drop_groups gone d).
Proof.
  intros Hw Hb. split; try done.
  - intros i r Hf. cbn. rewrite map_lookup_filter_Some. split; [|by intros [? _]].
    intros Hi. split; [done|]. cbn. destruct (gone i r) eqn:E; [exfalso|done].
    by eapply writable_not_foreign; [|eapply Hw|].
  - intros p s _. cbn. rewrite lookup_fmap. by destruct (status_page_services d !! (p, s)).
Qed.
End own_rows.

(** *** Operations *)

Section isolation.
Context `{!Driver, !Machine}.

Abbreviation R := site_isolated.

(** A statement that writes the page row [i] of a page the session sees. *)
Lemma page_visible_writable (s : session core) r :
  page_visible s r = true → writable (app_tenant s) (bypass_rls s) (page_tenant r).
Proof. apply visible_writable. Qed.

Lemma insert_page_own x : preserves R (insert_page x).
Proof.
  apply (preserves_stmt R). intros s a d Hf. cbv zeta in Hf.
  destruct (default_tenant s) as [t|] eqn:Et; [|done]. case_bool_decide; [|done]. cbn in Hf.
  destruct (page_exists _ _) eqn:Ep; [done|]. destruct (has_row _ _); [done|].
  destruct (null_or _ _); [|done]. cbn in Hf. simplify_eq.
  apply bool_decide_eq_false, eq_None_not_Some in Ep.
  apply (site_isolated_page _ _ _ _ (gen_uuid (tick s))).
  - intros j Hj. by rewrite lookup_insert_ne.
  - intros r Hr. by rewrite Hr in Ep.
  - intros r. rewrite lookup_insert_eq. intros [= <-]. cbn. by apply default_tenant_writable.
Qed.

(** Links of a page the session has just made. *)
Lemma insert_page_Ok x s row s' :
  insert_page x s = (Ok row, s') →
  ∃ r, status_pages (tables s') !! SpID row = Some r ∧
    writable (app_tenant s') (bypass_rls s') (page_tenant r).
Proof.
  intros E. pose proof (stmt_settings_eq _ _ _ _ E) as [-> ->].
  apply stmt_Ok_inv in E as (d & Hf & <- & _). cbv zeta in Hf.
  destruct (default_tenant s) as [t|] eqn:Et; [|done]. case_bool_decide; [|done]. cbn in Hf.
  destruct (_ || _); [done|]. destruct (null_or _ _); [|done]. cbn in Hf.
  injection Hf as <- <-. cbn. eexists. rewrite lookup_insert_eq. split; [done|]. by apply default_tenant_writable.
Qed.

Lemma link_services_own p l s :
  (∃ r, status_pages (tables s) !! p = Some r ∧
     writable (app_tenant s) (bypass_rls s) (page_tenant r)) →
  preserves_at R (link_services p l) s.
Proof.
  revert s. induction l as [|svc l IH]; intros s Hp; [by apply (preserves_ret R)|].
  apply (preserves_bind_at R).
  - apply (preserves_stmt_at R). intros a d Hf. cbv zeta in Hf. destruct (bool_decide _); [done|].
    destruct (_ && _); [|done]. simplify_eq. apply site_isolated_link.
    intros r Hr. destruct Hp as (r' & Hr' & ?). by simplify_eq.
  - intros a s' E. pose proof (stmt_settings_eq _ _ _ _ E) as [Ea Eb].
    apply insert_link_Ok in E as [Ht _]. apply IH. rewrite Ea, Eb, Ht. done.
Qed.

Lemma CreatePage_own x l : preserves R (CreatePage x l).
Proof.
  apply (preserves_runInTx R); [apply site_isolated_anonymous|]. intros s.
  apply (preserves_bind_at R); [apply insert_page_own|]. intros row s1 E1%insert_page_Ok.
  apply (preserves_bind_at R); [by apply link_services_own|]. intros. apply (preserves_ret R).
Qed.

Lemma CreateGroup_own p name : preserves R (CreateGroup p name).
Proof.
  apply (preserves_stmt R). intros s a d Hf. cbv zeta in Hf.
  destruct (default_tenant s) as [t|] eqn:Et; [|done]. destruct (group_exists _ _) eqn:Eg; [done|].
  destruct (page_exists _ _); [|done]. cbn in Hf. simplify_eq.
  apply bool_decide_eq_false, eq_None_not_Some in Eg.
  apply (site_isolated_group _ _ _ _ (gen_uuid (tick s))).
  - intros j Hj. by rewrite lookup_insert_ne.
  - intros r Hr. by rewrite Hr in Eg.
  - intros r. rewrite lookup_insert_eq. intros [= <-]. cbn. by apply default_tenant_writable.
Qed.

Lemma group_match_writable (s : session core) t p r :
  group_match s t p r = true → writable (app_tenant s) (bypass_rls s) (grp_tenant r).
Proof. unfold group_match. intros [[Hv _]%andb_true_iff _]%andb_true_iff. by apply visible_writable. Qed.

Lemma UpdateGroup_own t p i name pos : preserves R (UpdateGroup t p i name pos).
Proof.
  apply (preserves_bind R); [|intros; apply (preserves_or_not_found R)].
  apply (preserves_stmt R). intros s a d Hf. destruct (_ !! i) as [r|] eqn:Er; [|by simplify_eq].
  destruct (group_match _ _ _ _) eqn:Em; [|by simplify_eq]. cbv zeta in Hf. simplify_eq.
  apply group_match_writable in Em.
  apply (site_isolated_group _ _ _ _ i).
  - intros j Hj. by rewrite lookup_insert_ne.
  - intros r' Hr. by simplify_eq.
  - intros r'. rewrite lookup_insert_eq. by intros [= <-].
Qed.
Lemma DeleteGroup_own t p i : preserves R (DeleteGroup t p i).
Proof.
  apply (preserves_bind R); [|intros; apply (preserves_affected R)].
  apply (preserves_stmt R). intros s a d Hf. destruct (_ !! i) as [r|] eqn:Er; [|by simplify_eq].
  destruct (group_match _ _ _ _) eqn:Em; simplify_eq; [|done].
  apply site_isolated_drop_groups. intros j r' Hr' ->%String.eqb_eq. simplify_eq.
  by eapply group_match_writable.
Qed.

(** A page row the session sees, rewritten. *)
Lemma write_page_own {A} i (s : session core) r r' (a : A) :
  status_pages (tables s) !! i = Some r → page_visible s r = true → page_tenant r' = page_tenant r →
  R (app_tenant s) (bypass_rls s) (tables s) (set_pages (<[i := r']>) (tables s)).
Proof.
  intros Hr Hv Et. apply (site_isolated_page _ _ _ _ i).
  - intros j Hj. by rewrite lookup_insert_ne.
  - intros r0 Hr0. simplify_eq. by apply visible_writable.
  - intros r0. rewrite lookup_insert_eq. intros [= <-]. rewrite Et. by apply visible_writable.
Qed.

Lemma AttachDomain_own i k sub : preserves R (AttachDomain i k sub).
Proof.
  apply (preserves_pool_tx R); [apply site_isolated_anonymous|].
  apply (preserves_query_then R). intros row.
  apply (preserves_bind R); [apply (preserves_or_not_found R)|]. intros [k0|]; [apply (preserves_fail R)|].
  apply (preserves_map_err R), (preserves_bind R);
    [|intros [?|]; [apply (preserves_ret R)|apply (preserves_fail R)]].
  apply (preserves_stmt R). intros s a d Hf. destruct (_ !! i) as [r|] eqn:Er; [|by simplify_eq].
  destruct (page_visible _ _) eqn:Ev; [|by simplify_eq]. cbv zeta in Hf.
  destruct (has_row _ _); [done|]. destruct (domain_exists _ _); [|done]. cbn in Hf. simplify_eq.
  by eapply write_page_own.
Qed.
Lemma UpdatePageEnvironment_own i env : preserves R (UpdatePageEnvironment i env).
Proof.
  apply (preserves_bind R); [|intros; apply (preserves_or_not_found R)].
  apply (preserves_stmt R). intros s a d Hf. destruct (_ !! i) as [r|] eqn:Er; [|by simplify_eq].
  destruct (page_visible _ _) eqn:Ev; [|by simplify_eq]. case_bool_decide; [|done]. simplify_eq.
  by eapply write_page_own.
Qed.

(** [Delete]'s connection has no tenant: it finds no page, and what it did to the
    links is rolled back. *)
Lemma DeletePage_fails p s :
  bypass_rls s = false →
  is_ok (DeletePage p s).1 = false ∧ tables (DeletePage p s).2 = tables s.
Proof.
  intros Hb. unfold DeletePage. set (m := bind _ _). destruct (with_pool_tx m s) as [r s'] eqn:E.
  apply with_pool_tx_inv in E as [(e & -> & Ht)|(a & i & Hm & _ & _)]; [done|exfalso].
  unfold m in Hm. apply bind_Ok_inv in Hm as (b & c1 & H1 & Hm).
  pose proof (stmt_settings_eq _ _ _ _ H1) as [Ea1 Eb1].
  apply bind_Ok_inv in Hm as (b2 & c2 & H2 & Hm).
  pose proof (stmt_settings_eq _ _ _ _ H2) as [Ea2 Eb2].
  apply bind_Ok_inv in Hm as (n & c3 & H3 & Hm). apply stmt_Ok_inv in H3 as (d & Hd & _).
  cbv zeta in Hd. destruct (status_pages (tables c2) !! p) as [r0|]; [|by simplify_eq].
  unfold page_visible in Hd. rewrite visible_unset in Hd; [by simplify_eq| |].
  - by rewrite Eb2, Eb1.
  - by rewrite Ea2, Ea1.
Qed.
Lemma DeletePage_own p : preserves R (DeletePage p).
Proof.
  intros s. destruct (with_pool_tx_settings _ s _ _ (surjective_pairing (DeletePage p s))) as [E1 E2].
  split; [|done]. intros Hb. destruct (DeletePage_fails p s Hb) as [_ ->].
  by apply (site_isolated_preorder (app_tenant s) false).
Qed.

Lemma update_at_hostname_own h f : preserves R (update_at_hostname h f).
Proof.
  apply (preserves_stmt R). intros s a d Hf. cbv zeta in Hf. injection Hf as <- <-.
  intros Hb. split; try done. intros i r Hr. cbn. rewrite lookup_fmap.
  destruct (status_pages (tables s) !! i) as [r0|]; [|done]. cbn.
  destruct (page_visible s r0 && at_hostname s h r0) eqn:E; [|done].
  apply andb_true_iff in E as [E _]. apply visible_writable in E.
  assert (page_tenant r ≠ page_tenant r0) as Hne.
  { intros Et. rewrite Et in Hr. by eapply writable_not_foreign. }
  split; intros [= <-]; done.
Qed.

Lemma CreateDomain_own ev h : preserves R (CreateDomain ev h).
Proof.
  unfold CreateDomain. destruct (generateDomainVerificationToken ev) as [token|];
    [|apply (preserves_fail R)].
  apply (preserves_map_err R), (preserves_stmt R). intros s a d Hf. cbv zeta in Hf.
  destruct (default_tenant s) as [t|] eqn:Et; [|done]. destruct (has_row _ _); [done|].
  case_bool_decide as Hn; [done|]. cbn in Hf. simplify_eq. apply eq_None_not_Some in Hn.
  apply (site_isolated_domain _ _ _ _ (gen_uuid (tick s))).
  - intros j Hj. by rewrite lookup_insert_ne.
  - intros r Hr. by rewrite Hr in Hn.
  - intros r. rewrite lookup_insert_eq. intros [= <-]. cbn. by apply default_tenant_writable.
Qed.
Lemma update_domain_own i f : preserves R (update_domain i f).
Proof.
  apply (preserves_stmt R). intros s a d Hf. destruct (_ !! i) as [r|] eqn:Er; [|by simplify_eq].
  destruct (domain_visible _ _) eqn:Ev; [|by simplify_eq]. case_bool_decide; [|done]. simplify_eq.
  apply (site_isolated_domain _ _ _ _ i).
  - intros j Hj. by rewrite lookup_insert_ne.
  - intros r0 Hr0. simplify_eq. by apply visible_writable.
  - intros r0. rewrite lookup_insert_eq. intros [= <-]. by apply visible_writable.
Qed.
Lemma DeleteDomain_own i : preserves R (DeleteDomain i).
Proof.
  apply (preserves_bind R); [|apply (preserves_affected R)].
  apply (preserves_map_err R), (preserves_stmt R). intros s a d Hf.
  destruct (_ !! i) as [r|] eqn:Er; [|by simplify_eq].
  destruct (domain_visible _ _) eqn:Ev; [|by simplify_eq]. destruct (has_row _ _); [done|].
  simplify_eq. apply (site_isolated_domain _ _ _ _ i).
  - intros j Hj. by rewrite lookup_delete_ne.
  - intros r0 Hr0. simplify_eq. by apply visible_writable.
  - intros r0. by rewrite lookup_delete_eq.
Qed.

(** Every operation but [SetServices]. *)
Definition sets_services (o : site_op) : bool :=
  match o with OpSetServices _ _ => true | _ => false end.

Lemma run_site_op_own o : sets_services o = false → preserves R (run_site_op o).
Proof.
  intros Hs. destruct (reads_only o) eqn:Ho; [by apply (through_reads R)|].
  destruct o; try done; try apply (through_discard R).
  - apply CreatePage_own.
  - apply CreateGroup_own.
  - apply UpdateGroup_own.
  - apply DeleteGroup_own.
  - apply AttachDomain_own.
  - apply UpdatePageEnvironment_own.
  - apply DeletePage_own.
  - apply (preserves_bind R); [apply update_at_hostname_own|apply (preserves_affected R)].
  - apply (preserves_bind R); [apply update_at_hostname_own|apply (preserves_affected R)].
  - apply CreateDomain_own.
  - apply (preserves_bind R); [apply update_domain_own|intros row].
    apply (preserves_bind R); [apply (preserves_or_not_found R)|]. intros. apply (preserves_ret R).
  - apply (preserves_runInTx R); [apply site_isolated_anonymous|].
    apply (preserves_bind R); [apply update_domain_own|intros row].
    apply (preserves_bind R); [apply (preserves_or_not_found R)|]. intros. apply (preserves_ret R).
  - apply DeleteDomain_own.
Qed.
End isolation.

(** ** The theorems *)

(** the site stays well formed.  Whatever operations of the status page and
    domain repositories run, on whatever connections' settings and whatever fails:
    keys, references, states, addresses and hostnames stay as the schema and the
    code mean them, every placement names a service that exists, a group of its
    own page and a parent that is another top-level service of the page. *)
Theorem site_ops_wf `{!Driver, !Machine} (l : list site_op) (s : session core) :
  site_wf (tables s) → site_wf (tables (run_site_ops l s).2).
Proof.
  by destruct (through_ops site_rel l (λ o _, run_site_op_wf o) s) as [Hs _].
Qed.

(** status page administration stays within the tenant.  On a role subject to
    row-level security, no sequence of repository operations on a tenant's
    connection but [SetServices] changes a page, a group, a domain or a placement
    of another tenant, whatever ids it is given and whatever fails. *)
Theorem site_ops_isolated `{!Driver, !Machine} (l : list site_op) (s : session core) :
  bypass_rls s = false → (∀ o, o ∈ l → sets_services o = false) →
  site_isolated_from (app_tenant s) (tables s) (tables (run_site_ops l s).2).
Proof.
  intros Hb Hl. destruct (through_ops site_isolated l (λ o Ho, run_site_op_own o (Hl o Ho)) s)
    as [Hs _].
  by apply Hs.
Qed.

(** [SetServices] replaces a page's placements or leaves everything alone.
    When it succeeds the page has exactly the placements the validation made of
    the request, over the groups and links the page had, and no other row of the
    database is different; when it fails nothing is. *)
Theorem SetServices_spec `{!Driver} (pageID : string) (placements : list ServicePlacement)
    (s : session core) :
  let '(r, s') := SetServices pageID placements s in
  match r with
  | Ok _ => ∃ groups existing out,
      validateAndSanitizeServicePlacements placements groups existing = Ok out ∧
      placements_ok groups out ∧ NoDup (PlServiceID <$> out) ∧
      (∀ g, g ∈ groups → ∃ x, status_page_service_groups (tables s) !! g = Some x ∧
         GrpStatusPageID (grp x) = pageID) ∧
      tables s' = set_links (λ _, status_page_services (tables s')) (tables s) ∧
      (∀ svc x, status_page_services (tables s') !! (pageID, svc) = Some x ↔
         ∃ p, p ∈ out ∧ PlServiceID p = svc ∧ link_of p = x) ∧
      (∀ p svc, p ≠ pageID →
         status_page_services (tables s') !! (p, svc) = status_page_services (tables s) !! (p, svc))
  | Err _ => tables s' = tables s
  end.
Proof.
  destruct (SetServices pageID placements s) as [r s'] eqn:E. unfold SetServices in E.
  apply with_pool_tx_inv in E as [(e & -> & Ht)|(a & i & Hm & -> & Ht)]; [done|].
  apply set_services_tx_Ok in Hm as (vg & ex & out & Hv & Hvg & _ & H1 & H2 & H3 & _ & H5).
  rewrite Ht. exists vg, ex, out. pose proof (validate_inv _ _ _ _ Hv) as [Hok _].
  split_and!; [done..| | | |].
  - intros g (x & Hx & _ & Hp)%Hvg. eauto.
  - rewrite H1 at 1. done.
  - intros svc x. rewrite H3. cbn. split; [|by right]. intros [Hf|?]; [|done].
    by apply map_lookup_filter_Some in Hf as [_ []].
  - intros p svc Hp. rewrite (H2 (p, svc) Hp). cbn. rewrite map_lookup_filter.
    destruct (status_page_services (tables s) !! (p, svc)); [|done]. cbn. by rewrite option_guard_True.
Qed.

(** on a role subject to row-level security, editing loses the tenant, in both
    directions.  [AttachDomain] and [DeletePage] fail for every page and change
    nothing; [SetServices] fails for every page that is not published, the
    caller's own included - and where it succeeds the page is published, whoever
    it belongs to. *)
Theorem page_edits_lose_tenant `{!Driver} (id domainID subdomain : string)
    (placements : list ServicePlacement) (s : session core) :
  bypass_rls s = false →
  (is_ok (AttachDomain id domainID subdomain s).1 = false ∧
   tables (AttachDomain id domainID subdomain s).2 = tables s) ∧
  (is_ok (DeletePage id s).1 = false ∧ tables (DeletePage id s).2 = tables s) ∧
  (is_ok (SetServices id placements s).1 = true →
   ∃ r, status_pages (tables s) !! id = Some r ∧ published r = true).
Proof.
  intros Hb. split; [|split; [by apply DeletePage_fails|]].
  - unfold AttachDomain. destruct (with_pool_tx _ s) as [r s'] eqn:E.
    apply with_pool_tx_inv in E as [(e & -> & Ht)|(a & i & Hm & _)]; [done|exfalso].
    apply bind_Ok_inv in Hm as (row & c1 & [Hrow _]%query_Ok_inv & Hm).
    assert (row = None) as ->; [|done]. rewrite Hrow. cbn.
    destruct (status_pages (tables s) !! id); [|done]. unfold page_visible. by rewrite visible_unset.
  - destruct (SetServices id placements s) as [r s'] eqn:E. unfold SetServices in E.
    apply with_pool_tx_inv in E as [(e & -> & _)|(a & i & Hm & _)]; [done|intros _].
    apply set_services_tx_Ok in Hm as (vg & ex & out & _ & _ & (x & Hx & Hr) & _).
    exists x. split; [done|]. revert Hr. unfold page_readable, page_visible.
    rewrite visible_unset by done. by intros [_ ?]%andb_true_iff.
Qed.

(** ** Another tenant's page *)

Section crossing.
Context `{!Driver} (answers : ∀ n, event_fails n = false).

(** A service at the top level, outside the groups. *)
Definition bare (svc : string) : ServicePlacement :=
  {| PlServiceID := svc; PlGroupID := None; PlParentServiceID := None; PlPosition := 0 |}.

Lemma bare_ok vg l : placements_ok vg (bare <$> l).
Proof.
  assert (∀ p, p ∈ bare <$> l → PlGroupID p = None ∧ PlParentServiceID p = None) as Hb.
  { intros p (svc & -> & _)%list_elem_of_fmap. done. }
  split.
  - intros p g Hp. by destruct (Hb p Hp) as [-> _].
  - intros p Hp. by destruct (Hb p Hp) as [_ ->].
  - intros p q Hp. by destruct (Hb p Hp) as [_ ->].
  - intros p p' Hp. by destruct (Hb p Hp) as [_ ->].
Qed.

Lemma insert_bare_runs pid l c :
  aborted c = false → is_Some (status_pages (tables c) !! pid) → NoDup l →
  (∀ svc, svc ∈ l → is_Some (services (tables c) !! svc) ∧
     status_page_services (tables c) !! (pid, svc) = None) →
  ∃ c', insert_placements pid (bare <$> l) c = (Ok tt, c') ∧ aborted c' = false.
Proof.
  revert c. induction l as [|svc l IH]; intros c Ha Hp Hnd Hl; [by eexists|].
  apply NoDup_cons in Hnd as [Hnin Hnd]. destruct (Hl svc) as [Hs Hn]; [left|].
  cbn [fmap list_fmap insert_placements]. unfold bind, insert_link.
  erewrite (stmt_runs answers); [|done|].
  2:{ cbv zeta. unfold null_or. cbn [bare link_of PlServiceID PlGroupID PlParentServiceID
        link_group link_parent]. rewrite bool_decide_eq_false_2 by (rewrite Hn; by intros [? ?]).
      unfold page_exists, service_exists. rewrite !bool_decide_eq_true_2 by done. reflexivity. }
  apply IH; [done..|]. cbn. intros svc' Hin. destruct (Hl svc') as [? ?]; [by right|].
  split; [done|]. rewrite lookup_insert_ne; [done|]. intros [= <-]. done.
Qed.
End crossing.

(** the services of a published page can be replaced by any tenant.  On a role
    subject to row-level security and a server that answers, [SetServices] of a
    published page succeeds for every caller, whatever tenant the page and the
    caller are of: the page then shows exactly the services the caller named. *)
Theorem SetServices_crosses_tenants `{!Driver} (id : string) (l : list string) (r : page_row)
    (s : session core) :
  (∀ n, event_fails n = false) → bypass_rls s = false →
  status_pages (tables s) !! id = Some r → published r = true →
  NoDup l → (∀ svc, svc ∈ l → is_Some (services (tables s) !! svc)) →
  let '(res, s') := SetServices id (bare <$> l) s in
  res = Ok tt ∧
  ∀ svc, is_Some (status_page_services (tables s') !! (id, svc)) ↔ svc ∈ l.
Proof.
  intros answers Hb Hr Hp Hnd Hl.
  assert (∃ i, set_services_tx id (bare <$> l) (pool_conn s) = (Ok tt, i) ∧ aborted i = false)
    as (i & Hi & Ha).
  { unfold set_services_tx, select_page_exists, validGroupIDsTx, existingServiceIDsTx, clear_links.
    rewrite (query_then answers) by done. cbn [tables pool_conn]. rewrite Hr.
    assert (page_readable (pool_conn s) r = true) as ->.
    { unfold page_readable, anonymous. cbn. by rewrite Hp, orb_true_r. }
    cbn [negb]. rewrite !(query_then answers) by done.
    rewrite validate_ok by apply bare_ok. cbn [lift_res]. erewrite bind_run by reflexivity.
    cbn beta iota. erewrite (stmt_then answers); [|done|reflexivity].
    apply (insert_bare_runs answers); [done|by eexists|done|]. intros svc Hin. split; [by apply Hl|].
    cbn. apply map_lookup_filter_None. right. intros x _. cbn. intros Hne. by apply Hne. }
  unfold SetServices. rewrite (with_pool_tx_runs answers _ _ _ _ Hi Ha). split; [done|]. cbn.
  apply set_services_tx_Ok in Hi as (vg & ex & out & Hv & _ & _ & _ & _ & H3 & _).
  rewrite validate_ok in Hv by apply bare_ok. injection Hv as <-.
  intros svc. unfold is_Some. setoid_rewrite H3. cbn. split.
  - intros (x & [Hf|(p & (svc' & -> & Hin)%list_elem_of_fmap & <- & _)]); [|done].
    by apply map_lookup_filter_Some in Hf as [_ []].
  - intros Hin. eexists. right. exists (bare svc). split_and!; [|done..]. by apply list_elem_of_fmap_2.
Qed.

(** ** Witnesses *)

Definition demo_page (state : string) : StatusPage :=
  {| SpID := "page-b"; SpTenantID := ""; SpName := "B"; SpSubdomain := Some "status";
     SpDomainID := Some "dom-b"; SpState := state; SpTLSLastError := None; SpEnvironment := "";
     SpCreatedAt := 1; SpServiceIDs := [] |}.
Definition demo_site_service (t id : string) : service_row :=
  {| svc_tenant := t; deleted_at := None;
     svc := {| SvcID := id; SvcName := id; SLOID := "slo"; SLOName := ""; SLOType := "metric";
               DatadogServiceTag := ""; Environment := ""; MonitorMode := "slo"; PollType := None;
               PollTarget := None; PollIntervalSeconds := None; CurrentStatus := "operational";
               LastStatusChangeAt := 1; StatusAnalysis := None; LastBurnRateShort := None;
               LastBurnRateLong := None; LastWindowErrors := None; LastWindowRequests := None;
               LastReadingAt := None; SvcLastErrorAt := None |} |}.
Definition demo_domain_row : domain_row :=
  {| dom_tenant := "tenant-b"; dm := new_domain "dom-b" "b.com" "token" 1 |}.

(** Tenant B has a page in the given state that shows svc-b. *)
Definition demo_site (state : string) : core :=
  {| services := <["svc-b" := demo_site_service "tenant-b" "svc-b"]>
                   {["svc-a" := demo_site_service "tenant-a" "svc-a"]};
     status_page_services := {[("page-b", "svc-b") := default_link]};
     integrations := ∅; incidents := ∅; incident_services := []; incident_updates := [];
     status_pages := {["page-b" := {| page_tenant := "tenant-b"; spage := demo_page state |}]};
     status_page_service_groups := ∅;
     domains := {["dom-b" := demo_domain_row]} |}.

(** A connection of tenant A to it, on a role subject to row-level security. *)
Definition a_to_site (state : string) : session core :=
  Session (demo_site state) "tenant-a" false (Some 5) false 0.

Lemma demo_site_wf state : state ∈ page_states → site_wf (demo_site state).
Proof.
  intros Hst. split; cbn.
  - apply map_Forall_singleton. split_and!; cbn; [done|done|set_solver| |by eauto].
    intros k [= <-]. by eexists.
  - apply map_Forall_empty.
  - apply map_Forall_singleton. split_and!; cbn; [by eexists|by eexists|done|done].
  - apply map_Forall_singleton. split; [done|set_solver].
  - intros i j r r' k sub. cbn. by intros [<- _]%lookup_singleton_Some [<- _]%lookup_singleton_Some.
  - intros i j r r'. cbn. by intros [<- _]%lookup_singleton_Some [<- _]%lookup_singleton_Some.
Qed.

Definition demo_site_ops : list site_op :=
  [OpDeletePage "page-b"; OpUpdatePageEnvironment "page-b" "staging"; OpDeleteDomain "dom-b";
   OpCreateDomain 0 "a.com"; OpCreateGroup "page-b" "mine"; OpMarkTLSFailed "status.b.com" "x"].

Lemma site_ops_wf_witness :
  let d := tables (run_site_ops (H := reliable) (H0 := demo_machine) demo_site_ops
                     (a_to_site "published")).2 in
  site_wf (demo_site "published") ∧ size (domains d) = 2%nat ∧ site_wf d.
Proof.
  split; [apply demo_site_wf; set_solver|]. split; [vm_compute; reflexivity|].
  apply site_ops_wf, demo_site_wf. set_solver.
Defined.

Lemma site_ops_isolated_witness :
  let d := tables (run_site_ops (H := reliable) (H0 := demo_machine) demo_site_ops
                     (a_to_site "published")).2 in
  site_isolated_from "tenant-a" (demo_site "published") d ∧
  status_pages d !! "page-b" = status_pages (demo_site "published") !! "page-b".
Proof.
  assert (site_isolated_from "tenant-a" (demo_site "published")
            (tables (run_site_ops (H := reliable) (H0 := demo_machine) demo_site_ops
                       (a_to_site "published")).2)) as Hi.
  { apply (site_ops_isolated (H := reliable) (H0 := demo_machine) demo_site_ops (a_to_site "published"));
      [done|]. intros o Ho.
    repeat (apply elem_of_cons in Ho as [->|Ho]; [done|]). by apply elem_of_nil in Ho. }
  split; [exact Hi|]. destruct Hi as [Hp _ _ _].
  apply (Hp "page-b" {| page_tenant := "tenant-b"; spage := demo_page "published" |}); [by right|done].
Defined.

Lemma page_edits_lose_tenant_witness :
  let b := Session (demo_site "draft") "tenant-b" false (Some 5) false 0 in
  is_ok (SetServices (H := reliable) "page-b" [bare "svc-b"] b).1 = false ∧
  is_ok (DeletePage (H := reliable) "page-b" b).1 = false.
Proof.
  intros b. split; [vm_compute; reflexivity|].
  destruct (page_edits_lose_tenant (H := reliable) "page-b" "dom-b" "x" [] b eq_refl) as (_ & [Hd _] & _).
  exact Hd.
Defined.

Lemma SetServices_crosses_tenants_witness :
  let '(res, s') := SetServices (H := reliable) "page-b" [bare "svc-a"] (a_to_site "published") in
  res = Ok tt ∧
  is_Some (status_page_services (tables s') !! ("page-b", "svc-a")) ∧
  ¬ is_Some (status_page_services (tables s') !! ("page-b", "svc-b")).
Proof.
  pose proof (SetServices_crosses_tenants (H := reliable) "page-b" ["svc-a"]
    {| page_tenant := "tenant-b"; spage := demo_page "published" |} (a_to_site "published")) as Hc.
  cbn [fmap list_fmap] in Hc.
  destruct (SetServices "page-b" [bare "svc-a"] (a_to_site "published")) as [res s'].
  destruct Hc as [Hr Hin]; [done..|apply NoDup_singleton| |].
  { intros svc Hs. apply list_elem_of_singleton in Hs as ->. by eexists. }
  split; [exact Hr|]. split.
  - apply Hin. by left.
  - intros Hb%Hin. by apply list_elem_of_singleton in Hb.
Defined.
