(* ===== verification/Publish.v ===== *)
(** * Publication (internal/tls/manager.go)

    A page goes live when CertMagic obtains a certificate for its address:
    [HostPolicy] decides whether it may try, [OnEvent] records what became of it.
    Both run on a pool connection that has no tenant.  A [handshake] is one
    on-demand attempt: the policy first and, where it agrees, the event CertMagic
    emits, which is the argument. *)

From stdpp Require Import numbers strings gmap list.
From Stdlib Require Import ZArith Lia.
From S2P Require Import Prelude GoNum Db Schema Placements Secrets Domains StatusPages SiteInv SiteSafety.

#[local] Open Scope Z_scope.
#[local] Open Scope go_scope.

Definition draftState : string := "draft".
Definition certObtainedEvent : string := "cert_obtained".
Definition certFailedEvent : string := "cert_failed".

(** The errors of the package: what the decision or the record failed with. *)
Inductive tls_err :=
| ErrLookup (e : db_err)
| ErrDraftPage
| ErrMark (e : db_err).

(** CertMagic's event data: the identifier and the error, where they are there. *)
Record event_data := {
  Identifier : option string;
  EventError : option string;
}.

Section manager.
Context `{!Driver}.

Definition store_call {A} (f : db_err → tls_err) (m : M (session core) db_err A) :
    M (session core) tls_err A :=
  λ s, match m s with (Ok a, s') => (Ok a, s') | (Err e, s') => (Err (f e), s') end.

(** The store's ErrNotFound is not the package's ErrHostnameNotFound, but both
    refuse. *)
Definition HostPolicy (hostname : string) : M (session core) tls_err unit :=
  state <- store_call ErrLookup (StateByHostname hostname) ;;
  if String.eqb state draftState then fail ErrDraftPage else ret tt.

Definition OnEvent (event : string) (data : event_data) : M (session core) tls_err unit :=
  let hostname := default "" (Identifier data) in
  if String.eqb hostname "" then ret tt
  else if String.eqb event certObtainedEvent then store_call ErrMark (MarkPublished hostname)
  else if String.eqb event certFailedEvent then
    let reason := default "unknown error" (EventError data) in
    store_call ErrMark (MarkTLSFailed hostname reason)
  else ret tt.

(** One on-demand attempt for the hostname; CertMagic asks the policy first. *)
Definition handshake (hostname event : string) (error : option string) :
    M (session core) tls_err unit :=
  HostPolicy hostname ;;;
  OnEvent event {| Identifier := Some hostname; EventError := error |}.
End manager.

(** ** Lemmas *)

Section publish.
Context `{!Driver}.

Lemma HostPolicy_inv h s r s' :
  HostPolicy h s = (r, s') →
  tables s' = tables s ∧ app_tenant s' = app_tenant s ∧ bypass_rls s' = bypass_rls s ∧
  (r = Ok tt → ∃ i x, status_pages (tables s) !! i = Some x ∧ at_hostname s h x = true ∧
     SpState (spage x) ≠ "draft").
Proof.
  unfold HostPolicy, store_call, StateByHostname, bind.
  destruct (query _ s) as [q s1] eqn:E.
  pose proof (stmt_settings_eq _ _ _ _ E) as [Ea Eb].
  assert (tables s1 = tables s) as Ht.
  { apply stmt_inv in E as [(e & _ & ->)|(a & d & [= <- <-] & _ & ->)]; done. }
  destruct q as [[[i x]|]|e]; cbn; [|by intros [= <- <-]..].
  apply query_Ok_inv in E as [Hf _]. symmetry in Hf. apply find_row_Some in Hf as [Hi Hx].
  destruct (String.eqb_spec (SpState (spage x)) draftState); intros [= <- <-]; [done|].
  split_and!; [done..|]. intros _. eauto.
Qed.

Lemma store_call_tables {A} f (m : M (session core) db_err A) s :
  tables (store_call f m s).2 = tables (m s).2 ∧
  app_tenant (store_call f m s).2 = app_tenant (m s).2 ∧
  bypass_rls (store_call f m s).2 = bypass_rls (m s).2.
Proof. unfold store_call. by destruct (m s) as [[a|e] s']. Qed.

(** What an event can do to the pages. *)
Lemma mark_tables h f s :
  tables (bind (update_at_hostname h f) affected s).2 = tables s ∨
  tables (bind (update_at_hostname h f) affected s).2 =
    set_pages (fmap (λ r, if page_visible s r && at_hostname s h r then set_page f r else r)) (tables s).
Proof.
  unfold bind. destruct (update_at_hostname h f s) as [r s1] eqn:E.
  apply stmt_inv in E as [(e & -> & Ht)|(a & d & Hf & -> & ->)]; [left; exact Ht|right].
  cbv zeta in Hf. injection Hf as <- <-. unfold affected. by destruct (_ =? 0).
Qed.

Lemma MarkPublished_tables h s :
  tables (MarkPublished h s).2 = tables s ∨
  tables (MarkPublished h s).2 =
    set_pages (fmap (λ r, if page_visible s r && at_hostname s h r
                          then set_page (set_page_state "published" None) r else r)) (tables s).
Proof. exact (mark_tables h _ s). Qed.
Lemma MarkTLSFailed_tables h reason s :
  tables (MarkTLSFailed h reason s).2 = tables s ∨
  tables (MarkTLSFailed h reason s).2 =
    set_pages (fmap (λ r, if page_visible s r && at_hostname s h r
                          then set_page (set_page_state "tls_failed" (Some reason)) r else r)) (tables s).
Proof. exact (mark_tables h _ s). Qed.

Lemma OnEvent_tables ev h err s :
  tables (OnEvent ev {| Identifier := Some h; EventError := err |} s).2 = tables s ∨
  ∃ st e, st ∈ ["published"; "tls_failed"] ∧
    tables (OnEvent ev {| Identifier := Some h; EventError := err |} s).2 =
      set_pages (fmap (λ r, if page_visible s r && at_hostname s h r
                            then set_page (set_page_state st e) r else r)) (tables s).
Proof.
  unfold OnEvent. cbn [from_option Identifier EventError]. change (id h) with h. cbv zeta.
  destruct (String.eqb h ""); [by left|]. destruct (String.eqb ev certObtainedEvent).
  { destruct (store_call_tables ErrMark (MarkPublished h) s) as [-> _].
    destruct (MarkPublished_tables h s) as [->| ->]; [by left|right].
    eexists _, _. split; [|done]. left. }
  destruct (String.eqb ev certFailedEvent); [|by left].
  destruct (store_call_tables ErrMark (MarkTLSFailed h (default "unknown error" err)) s) as [-> _].
  destruct (MarkTLSFailed_tables h (default "unknown error" err) s) as [->| ->]; [by left|right].
  eexists _, _. split; [|done]. right. left.
Qed.

(** Which pages an event marks depends on what the connection sees only. *)
Lemma hit_same_view s s1 h r :
  tables s1 = tables s → app_tenant s1 = app_tenant s → bypass_rls s1 = bypass_rls s →
  page_visible s1 r && at_hostname s1 h r = page_visible s r && at_hostname s h r.
Proof.
  intros Ht Ea Eb. unfold at_hostname, address, domain_readable, domain_visible, page_readable,
    page_visible, visible, anonymous. by rewrite Ht, Ea, Eb.
Qed.

(** One attempt: nothing, or the pages at the hostname the session may update are
    marked, with a page at the hostname that is not a draft. *)
Lemma handshake_tables h ev err s :
  tables (handshake h ev err s).2 = tables s ∨
  (∃ i x, status_pages (tables s) !! i = Some x ∧ at_hostname s h x = true ∧
     SpState (spage x) ≠ "draft") ∧
  ∃ st e, st ∈ ["published"; "tls_failed"] ∧ tables (handshake h ev err s).2 =
    set_pages (fmap (λ r, if page_visible s r && at_hostname s h r
                          then set_page (set_page_state st e) r else r)) (tables s).
Proof.
  unfold handshake. destruct (HostPolicy h s) as [r s1] eqn:E.
  rewrite (bind_run _ _ _ _ _ E). apply HostPolicy_inv in E as (Ht & Ea & Eb & Hok).
  destruct r as [[]|e]; [|by left]. specialize (Hok eq_refl).
  destruct (OnEvent_tables ev h err s1) as [E|(st & e & Hst & E)]; rewrite E, Ht; [by left|].
  right. split; [done|]. exists st, e. split; [done|]. unfold set_pages. f_equal.
  apply map_fmap_ext. intros i r _. by rewrite (hit_same_view s s1 h r Ht Ea Eb).
Qed.
Lemma handshake_settings h ev err s :
  app_tenant (handshake h ev err s).2 = app_tenant s ∧
  bypass_rls (handshake h ev err s).2 = bypass_rls s.
Proof.
  unfold handshake. destruct (HostPolicy h s) as [r s1] eqn:E.
  rewrite (bind_run _ _ _ _ _ E). apply HostPolicy_inv in E as (_ & <- & <- & _).
  destruct r as [[]|e]; [|done]. unfold OnEvent.
  cbn [from_option Identifier EventError]. change (id h) with h. cbv zeta.
  assert (∀ f, let m := bind (update_at_hostname h f) affected in
            app_tenant (m s1).2 = app_tenant s1 ∧ bypass_rls (m s1).2 = bypass_rls s1) as Hm.
  { intros f. cbv zeta. unfold bind. destruct (update_at_hostname h f s1) as [q s2] eqn:E.
    apply stmt_settings_eq in E as [<- <-]. destruct q as [n|]; [|done].
    unfold affected. by destruct (n =? 0). }
  repeat case_match; try done.
  - destruct (store_call_tables ErrMark (MarkPublished h) s1) as (_ & -> & ->). apply Hm.
  - match goal with |- context [MarkTLSFailed h ?x] =>
      destruct (store_call_tables ErrMark (MarkTLSFailed h x) s1) as (_ & -> & ->) end. apply Hm.
Qed.
End publish.

(** ** How administration moves pages

    What an operation of the repository does to the table of pages, but for the
    two that only the TLS manager calls; [keep] is a page that is not deleted. *)

Inductive pages_step (keep : option string) (d d' : core) : Prop :=
| ps_same : status_pages d' = status_pages d → pages_step keep d d'
| ps_new i r : status_pages d !! i = None → SpState (spage r) = "draft" →
    status_pages d' = <[i := r]> (status_pages d) → pages_step keep d d'
| ps_row i r r' : status_pages d !! i = Some r → SpState (spage r') = SpState (spage r) →
    SpDomainID (spage r') = SpDomainID (spage r) →
    status_pages d' = <[i := r']> (status_pages d) → pages_step keep d d'
| ps_attach i r r' : status_pages d !! i = Some r → SpDomainID (spage r) = None →
    SpState (spage r') = "pending_tls" →
    status_pages d' = <[i := r']> (status_pages d) → pages_step keep d d'
| ps_delete i : Some i ≠ keep → status_pages d' = delete i (status_pages d) → pages_step keep d d'.

Definition pages_evolve (keep : option string) : string → bool → relation core :=
  λ _ _, rtc (pages_step keep).

#[global] Instance pages_evolve_preorder keep t b : PreOrder (pages_evolve keep t b).
Proof. unfold pages_evolve. apply _. Qed.

(** The administration: every operation but the marks of the TLS manager. *)
Definition administers (keep : option string) (o : site_op) : bool :=
  match o with
  | OpMarkPublished _ | OpMarkTLSFailed _ _ => false
  | OpDeletePage i => bool_decide (Some i ≠ keep)
  | _ => true
  end.

Section evolve.
Context `{!Driver, !Machine} (keep : option string).

Abbreviation R := (pages_evolve keep).

Lemma evolve_stmt {A} (f : session core → res db_err (A * core)) :
  (∀ s a d, f s = Ok (a, d) → pages_step keep (tables s) d) → preserves R (stmt f).
Proof. intros Hf. apply (preserves_stmt R). intros s a d E. apply rtc_once. eauto. Qed.

(** Statements on the other tables. *)
Lemma evolve_same {A} (f : session core → res db_err (A * core)) :
  (∀ s a d, f s = Ok (a, d) → status_pages d = status_pages (tables s)) → preserves R (stmt f).
Proof. intros Hf. apply evolve_stmt. intros s a d E. apply ps_same. eauto. Qed.

Lemma evolve_pool_tx {A} (m : M (session core) db_err A) : preserves R m → preserves R (with_pool_tx m).
Proof. intros Hm. apply (preserves_pool_tx R); [by intros t b d d' Hd|done]. Qed.
Lemma evolve_runInTx {A} (m : M (session core) db_err A) : preserves R m → preserves R (runInTx m).
Proof. intros Hm. apply (preserves_runInTx R); [by intros t b d d' Hd|done]. Qed.


Lemma evolve_insert_link p svc l : preserves R (insert_link p svc l).
Proof. apply evolve_same. intros s a d E. cbv zeta in E. repeat case_match; by simplify_eq. Qed.
Lemma evolve_link_services p l : preserves R (link_services p l).
Proof.
  induction l; [apply (preserves_ret R)|]. apply (preserves_bind R); [apply evolve_insert_link|intros _; exact IHl].
Qed.
Lemma evolve_insert_placements p l : preserves R (insert_placements p l).
Proof.
  induction l; [apply (preserves_ret R)|]. apply (preserves_bind R); [apply evolve_insert_link|intros _; exact IHl].
Qed.

Lemma evolve_CreatePage x l : preserves R (CreatePage x l).
Proof.
  apply evolve_runInTx, (preserves_bind R).
  - apply evolve_stmt. intros s a d Hf. cbv zeta in Hf.
    destruct (default_tenant s) as [t|]; [|done]. case_bool_decide; [|done]. cbn in Hf.
    destruct (page_exists _ _) eqn:Ep; [done|]. destruct (has_row _ _); [done|].
    destruct (null_or _ _); [|done]. cbn in Hf. simplify_eq.
    apply bool_decide_eq_false, eq_None_not_Some in Ep.
    by eapply ps_new; [exact Ep| |reflexivity].
  - intros row. apply (preserves_bind R); [apply evolve_link_services|]. intros. apply (preserves_ret R).
Qed.

Lemma evolve_SetServices p l : preserves R (SetServices p l).
Proof.
  apply evolve_pool_tx, (preserves_query_then R). intros []; [|apply (preserves_fail R)].
  apply (preserves_query_then R). intros vg. apply (preserves_query_then R). intros ex.
  apply (preserves_bind R).
  { destruct (validateAndSanitizeServicePlacements l vg ex);
      [apply (preserves_ret R)|apply (preserves_fail R)]. }
  intros out. apply (preserves_bind R); [|intros; apply evolve_insert_placements].
  apply evolve_same. intros s a d E. by simplify_eq.
Qed.

Lemma evolve_AttachDomain i k sub : preserves R (AttachDomain i k sub).
Proof.
  apply evolve_pool_tx. intros s. apply (preserves_bind_at R); [apply (preserves_query R)|].
  intros row s1 [Hrow Ht]%query_Ok_inv. apply (preserves_bind_at R); [apply (preserves_or_not_found R)|].
  intros cur s2 E. destruct row as [cur0|]; [|done]. injection E as <- <-.
  destruct cur0 as [k0|]; [apply (preserves_fail R)|].
  assert (preserves_at R (attach_page i k sub) s1) as Hat.
  { apply (preserves_bind_at R).
    2:{ intros [?|] s2 _; [apply (preserves_ret R)|apply (preserves_fail R)]. }
    apply (preserves_stmt_at R). intros a d Hf.
    destruct (status_pages (tables s1) !! i) as [r|] eqn:Er; [|by simplify_eq; apply rtc_refl].
    rewrite <- Ht in Hrow. rewrite Er in Hrow. destruct (page_visible s r); [|done].
    injection Hrow as Hn. destruct (page_visible s1 r); [|by simplify_eq; apply rtc_refl].
    cbv zeta in Hf. destruct (has_row _ _); [done|]. destruct (domain_exists _ _); [|done].
    cbn in Hf. simplify_eq. apply rtc_once.
    by eapply ps_attach; [exact Er|by rewrite <- Hn| |reflexivity]. }
  revert Hat. unfold preserves_at, map_err. by destruct (attach_page i k sub s1) as [[]].
Qed.

Lemma evolve_UpdatePageEnvironment i env : preserves R (UpdatePageEnvironment i env).
Proof.
  apply (preserves_bind R); [|intros; apply (preserves_or_not_found R)].
  apply evolve_stmt. intros s a d Hf. destruct (_ !! i) as [r|] eqn:Er; [|by simplify_eq; apply ps_same].
  destruct (page_visible _ _); [|by simplify_eq; apply ps_same]. case_bool_decide; [|done]. simplify_eq.
  by eapply ps_row; [exact Er| | |reflexivity].
Qed.

Lemma evolve_DeletePage i : Some i ≠ keep → preserves R (DeletePage i).
Proof.
  intros Hi. apply evolve_pool_tx, (preserves_bind R).
  { apply evolve_same. intros s a d E. by simplify_eq. }
  intros _. apply (preserves_bind R).
  { apply evolve_same. intros s a d E. by simplify_eq. }
  intros _. apply (preserves_bind R); [|apply (preserves_affected R)].
  apply evolve_stmt. intros s a d Hf. cbv zeta in Hf.
  destruct (_ !! i) as [r|] eqn:Er; [|by simplify_eq; apply ps_same].
  destruct (page_visible _ _); [|by simplify_eq; apply ps_same]. destruct (_ || _); [done|].
  simplify_eq. by eapply ps_delete; [|reflexivity].
Qed.

Lemma evolve_update_domain i f : preserves R (update_domain i f).
Proof.
  apply evolve_same. intros s a d E. cbv zeta in E. repeat case_match; by simplify_eq.
Qed.

Lemma run_site_op_evolve o : administers keep o = true → preserves R (run_site_op o).
Proof.
  intros Ha. destruct (reads_only o) eqn:Ho; [by apply (through_reads R)|].
  destruct o; try done; try apply (through_discard R).
  - apply evolve_CreatePage.
  - apply evolve_SetServices.
  - apply evolve_same. intros s a d E. cbv zeta in E. repeat case_match; by simplify_eq.
  - apply (preserves_bind R); [|intros; apply (preserves_or_not_found R)].
    apply evolve_same. intros s a d E. cbv zeta in E. repeat case_match; by simplify_eq.
  - apply (preserves_bind R); [|intros; apply (preserves_affected R)].
    apply evolve_same. intros s a d E. cbv zeta in E. repeat case_match; by simplify_eq.
  - apply evolve_AttachDomain.
  - apply evolve_UpdatePageEnvironment.
  - apply evolve_DeletePage. by apply bool_decide_eq_true in Ha.
  - unfold run_site_op, CreateDomain.
    destruct (generateDomainVerificationToken ev) as [token|]; [|apply (preserves_fail R)].
    apply (preserves_map_err R), evolve_same. intros s a d E. cbv zeta in E.
    repeat case_match; by simplify_eq.
  - apply (preserves_bind R); [apply evolve_update_domain|intros row].
    apply (preserves_bind R); [apply (preserves_or_not_found R)|]. intros. apply (preserves_ret R).
  - apply evolve_runInTx, (preserves_bind R); [apply evolve_update_domain|intros row].
    apply (preserves_bind R); [apply (preserves_or_not_found R)|]. intros. apply (preserves_ret R).
  - apply (preserves_bind R); [|intros; apply (preserves_affected R)].
    apply (preserves_map_err R), evolve_same. intros s a d E. repeat case_match; by simplify_eq.
Qed.
End evolve.

(** ** Administration and handshakes together *)

Section publication.
Context `{!Driver, !Machine}.

(** A repository call in a tenant's transaction, committed when it worked. *)
Definition tenant_call (tenantID : string) (o : site_op) (s : session core) : session core :=
  match BeginTenantTx "" tenantID s with
  | (Err _, pool) => pool
  | (Ok tx, pool) =>
      match run_site_op o tx with
      | (Ok _, tx) => (tx_commit tx pool).2
      | (Err _, tx) => tx_rollback tx pool
      end
  end.

Inductive publish_event :=
| Administered (tenantID : string) (o : site_op)
| Handshake (hostname event : string) (error : option string).

Definition publish_step (e : publish_event) (s : session core) : session core :=
  match e with
  | Administered t o => tenant_call t o s
  | Handshake h ev err => (handshake h ev err s).2
  end.
Definition publish_run (l : list publish_event) (s : session core) : session core :=
  foldl (λ s e, publish_step e s) s l.

Definition administered (keep : option string) (l : list publish_event) : Prop :=
  ∀ t o, Administered t o ∈ l → administers keep o = true.

Lemma tenant_call_evolves keep t o s :
  administers keep o = true →
  rtc (pages_step keep) (tables s) (tables (tenant_call t o s)) ∧
  app_tenant (tenant_call t o s) = app_tenant s ∧ bypass_rls (tenant_call t o s) = bypass_rls s.
Proof.
  intros Ho. unfold tenant_call. destruct (BeginTenantTx "" t s) as [r pool] eqn:E.
  apply BeginTenantTx_inv in E as (Ht & Ea & Eb & Hr). destruct r as [tx|e];
    [|by rewrite Ht; split; [apply rtc_refl|]].
  destruct Hr as (Htx & _). destruct (run_site_op_evolve keep o Ho tx) as [Hs _].
  destruct (run_site_op o tx) as [[a|e] tx']; cbn in *; [|by rewrite Ht; split; [apply rtc_refl|]].
  unfold tx_commit. destruct (aborted tx'); [by rewrite <- Ht; split; [apply rtc_refl|]|].
  destruct (event_fails _); [by rewrite <- Ht; split; [apply rtc_refl|]|].
  cbn. by rewrite <- Htx.
Qed.

(** *** Nothing is published without the TLS manager *)

Definition is_published (d : core) (i : string) : Prop :=
  ∃ r, status_pages d !! i = Some r ∧ published r = true.

Lemma steps_published keep d d' i :
  rtc (pages_step keep) d d' → is_published d' i → is_published d i.
Proof.
  induction 1 as [|d d1 d2 Hs _ IH]; [done|]. intros (r & Hr & Hp)%IH. unfold published in Hp.
  destruct Hs as [E|j x Hn Hst E|j x x' Hx Hst Hd E|j x x' Hx Hd Hst E|j Hj E]; rewrite E in Hr.
  - by exists r.
  - apply lookup_insert_Some in Hr as [[<- <-]|[_ Hr]]; [by rewrite Hst in Hp|by exists r].
  - apply lookup_insert_Some in Hr as [[<- <-]|[_ Hr]]; [|by exists r].
    exists x. unfold published. by rewrite <- Hst.
  - apply lookup_insert_Some in Hr as [[<- <-]|[_ Hr]]; [by rewrite Hst in Hp|by exists r].
  - apply lookup_delete_Some in Hr as [_ Hr]. by exists r.
Qed.

(** *** A draft with a domain *)

Definition draft_with_domain (i : string) (d : core) : Prop :=
  ∃ r, status_pages d !! i = Some r ∧ SpState (spage r) = "draft" ∧ is_Some (SpDomainID (spage r)).

Lemma steps_draft i d d' :
  rtc (pages_step (Some i)) d d' → draft_with_domain i d → draft_with_domain i d'.
Proof.
  induction 1 as [|d d1 d2 Hs _ IH]; [done|]. intros (r & Hr & Hst & Hd). apply IH.
  unfold draft_with_domain.
  destruct Hs as [E|j x Hn _ E|j x x' Hx E1 E2 E|j x x' Hx Hn _ E|j Hj E]; rewrite E.
  - eauto.
  - exists r. split; [|done]. rewrite lookup_insert_ne; [done|]. intros ->. congruence.
  - destruct (decide (j = i)) as [->|]; [|exists r; by rewrite lookup_insert_ne].
    exists x'. rewrite lookup_insert_eq. simplify_eq. by rewrite E1, E2.
  - destruct (decide (j = i)) as [->|]; [|exists r; by rewrite lookup_insert_ne].
    simplify_eq. rewrite Hn in Hd. by destruct Hd.
  - exists r. rewrite lookup_delete_ne; [done|]. congruence.
Qed.

Lemma insert_status_page_draft x l s row s' :
  insert_status_page x l s = (Ok row, s') → is_Some (SpDomainID x) →
  draft_with_domain (SpID row) (tables s').
Proof.
  intros (row0 & s1 & E1 & E)%bind_Ok_inv Hd.
  apply bind_Ok_inv in E as (u & s2 & E2 & [= <- <-]). cbn.
  destruct (evolve_link_services (Some (SpID row0)) (SpID row0) l s1) as [Hs _].
  rewrite E2 in Hs. eapply steps_draft; [exact Hs|].
  apply stmt_Ok_inv in E1 as (d & Hf & <- & _). cbv zeta in Hf.
  destruct (default_tenant s) as [t|]; [|done]. case_bool_decide; [|done]. cbn in Hf.
  destruct (_ || _); [done|]. destruct (null_or _ _); [|done]. cbn in Hf. injection Hf as <- <-.
  unfold draft_with_domain. cbn. eexists. rewrite lookup_insert_eq. done.
Qed.

Lemma CreatePage_draft x l s row s' :
  CreatePage x l s = (Ok row, s') → is_Some (SpDomainID x) → draft_with_domain (SpID row) (tables s').
Proof.
  unfold CreatePage, runInTx. destruct (tx_start s); [apply insert_status_page_draft|].
  intros E Hd. apply with_pool_tx_inv in E as [(e & [=] & _)|(a & i & Hm & [= <-] & ->)].
  by eapply insert_status_page_draft.
Qed.
End publication.

(** ** The theorems *)

(** a certificate's outcome reaches only the page it was for.  An on-demand
    attempt for a hostname changes nothing, or some page answers at exactly that
    hostname and is no draft, and then only the state and the TLS error of rows at
    that hostname change, to "published" without an error or to "tls_failed"; no
    other table moves. *)
Theorem handshake_spec `{!Driver} (hostname event : string) (error : option string) (s : session core) :
  let d' := tables (handshake hostname event error s).2 in
  d' = tables s ∨
  (∃ i r, status_pages (tables s) !! i = Some r ∧ address s (spage r) = Some hostname ∧
     SpState (spage r) ≠ "draft") ∧
  d' = set_pages (λ _, status_pages d') (tables s) ∧
  ∀ i, status_pages d' !! i = status_pages (tables s) !! i ∨
    ∃ r st e, status_pages (tables s) !! i = Some r ∧ address s (spage r) = Some hostname ∧
      st ∈ ["published"; "tls_failed"] ∧
      status_pages d' !! i = Some (set_page (set_page_state st e) r).
Proof.
  cbv zeta. destruct (handshake_tables hostname event error s) as [->|(Hx & st & e & Hst & ->)];
    [by left|right].
  assert (∀ r, at_hostname s hostname r = true → address s (spage r) = Some hostname) as Hat.
  { intros r. unfold at_hostname. intros [_ E]%andb_true_iff. by apply bool_decide_eq_true in E. }
  split; [destruct Hx as (i & r & Hr & Hh & Hd); exists i, r; auto|]. split; [by destruct (tables s)|].
  intros i. cbn. rewrite lookup_fmap. destruct (status_pages (tables s) !! i) as [r|]; [|by left]. cbn.
  destruct (page_visible s r && at_hostname s hostname r) eqn:E; [right|by left].
  apply andb_true_iff in E as [_ E]. exists r, st, e. auto.
Qed.

(** under row security no page ever goes live.  On a role subject to row-level
    security, whatever the tenants' administrators do and whatever certificates
    are obtained, in any order, no page is published that was not before: the TLS
    manager's connection has no tenant, so it sees published pages only and may
    update none. *)
Theorem rls_never_publishes `{!Driver, !Machine} (l : list publish_event) (s : session core)
    (i : string) :
  bypass_rls s = false → app_tenant s = "" → administered None l →
  is_published (tables (publish_run l s)) i → is_published (tables s) i.
Proof.
  revert s. induction l as [|e l IH]; intros s Hb Ha Hl; [done|]. cbn [publish_run foldl].
  assert (administered None l) as Hl'.
  { intros t o Ho. apply (Hl t). by right. }
  destruct e as [t o|h ev err]; cbn [publish_step].
  - destruct (tenant_call_evolves None t o s) as (Hs & E1 & E2); [apply (Hl t); left|].
    intros Hp. eapply steps_published; [exact Hs|]. apply IH; [congruence..|done|exact Hp].
  - destruct (handshake_settings h ev err s) as [E1 E2]. intros Hp.
    apply IH in Hp; [|congruence..|done]. revert Hp.
    destruct (handshake_tables h ev err s) as [->|(_ & st & x & _ & ->)]; [done|].
    intros (r & Hr & Hpub). cbn in Hr. rewrite lookup_fmap in Hr.
    destruct (status_pages (tables s) !! i) as [r0|] eqn:E; [|done]. cbn in Hr.
    unfold page_visible in Hr. rewrite visible_unset in Hr by done. cbn in Hr. simplify_eq.
    by exists r.
Qed.

(** a page created with its domain can never be published.  [CreatePage] with a
    domain leaves the page in "draft"; from then on, whatever the administrators
    do short of deleting it, it stays a draft, and no certificate attempt for a
    hostname at which no other page answers changes anything. *)
Theorem created_with_domain_stuck `{!Driver, !Machine} (x : StatusPage) (serviceIDs : list string)
    (s s1 : session core) (row : StatusPage) (l : list (string * site_op)) :
  CreatePage x serviceIDs s = (Ok row, s1) → is_Some (SpDomainID x) →
  (∀ t o, (t, o) ∈ l → administers (Some (SpID row)) o = true) →
  let s2 := publish_run ((λ e, Administered e.1 e.2) <$> l) s1 in
  draft_with_domain (SpID row) (tables s2) ∧
  ∀ h ev err, (∀ i r, status_pages (tables s2) !! i = Some r → at_hostname s2 h r = true →
                 i = SpID row) →
    tables (handshake h ev err s2).2 = tables s2.
Proof.
  intros Hc Hd Hl. cbv zeta. set (s2 := publish_run _ s1).
  assert (draft_with_domain (SpID row) (tables s2)) as Hdraft.
  { apply CreatePage_draft in Hc; [|done]. clear Hd. unfold s2. clear s2. revert s1 Hc Hl.
    induction l as [|[t o] l IH]; intros s1 Hc Hl; [done|]. cbn. apply IH.
    - eapply steps_draft; [|exact Hc]. apply tenant_call_evolves, (Hl t). left.
    - intros t' o' Ho. apply (Hl t'). by right. }
  split; [done|]. intros h ev err Hone.
  destruct (handshake_tables h ev err s2) as [E|((i & r & Hr & Hh & Hst) & _)]; [done|exfalso].
  destruct Hdraft as (r' & Hr' & Hst' & _). rewrite (Hone i r Hr Hh) in Hr. by simplify_eq.
Qed.

(** ** Examples and witnesses *)

(** The pool: no tenant. *)
Definition pool_of (bypass : bool) (d : core) : session core := Session d "" bypass None false 0.

Definition issue_b : list publish_event :=
  [Administered "tenant-b" (OpUpdatePageEnvironment "page-b" "staging");
   Handshake "status.b.com" certObtainedEvent None].

(** A role that bypasses row security publishes the page ... *)
Example bypass_publishes :
  is_published (tables (publish_run (H := reliable) (H0 := demo_machine) issue_b
                          (pool_of true (demo_site "pending_tls")))) "page-b".
Proof. eexists. split; vm_compute; reflexivity. Qed.

(** ... and a role subject to it does not. *)
Lemma rls_never_publishes_witness :
  administered None issue_b ∧
  ¬ is_published (tables (publish_run (H := reliable) (H0 := demo_machine) issue_b
                            (pool_of false (demo_site "pending_tls")))) "page-b".
Proof.
  assert (administered None issue_b) as Ha.
  { intros t o Ho. apply elem_of_cons in Ho as [[= -> ->]|Ho]; [reflexivity|].
    apply elem_of_cons in Ho as [Ho|Ho]; [done|by apply elem_of_nil in Ho]. }
  split; [done|]. intros Hp.
  apply (rls_never_publishes (H := reliable) (H0 := demo_machine) issue_b
           (pool_of false (demo_site "pending_tls")) "page-b" eq_refl eq_refl Ha) in Hp.
  destruct Hp as (r & [= <-] & Hr). vm_compute in Hr. done.
Defined.

Definition demo_request : StatusPage :=
  {| SpID := ""; SpTenantID := ""; SpName := "new"; SpSubdomain := Some "new";
     SpDomainID := Some "dom-b"; SpState := ""; SpTLSLastError := None; SpEnvironment := "";
     SpCreatedAt := 0; SpServiceIDs := [] |}.

(** Attaching the domain again and obtaining the certificate do not help. *)
Lemma created_with_domain_stuck_witness :
  let s := Session (demo_site "published") "tenant-b" true (Some 5) false 7 in
  match CreatePage (H := reliable) demo_request ["svc-b"] s with
  | (Ok row, s1) =>
      draft_with_domain (SpID row)
        (tables (publish_run (H := reliable) (H0 := demo_machine)
                   [Administered "tenant-b" (OpAttachDomain (SpID row) "dom-b" "new")] s1))
  | _ => False
  end.
Proof.
  intros s. destruct (CreatePage (H := reliable) demo_request ["svc-b"] s) as [[row|e] s1] eqn:E.
  - apply (created_with_domain_stuck (H := reliable) (H0 := demo_machine) demo_request ["svc-b"] s s1 row
             [("tenant-b", OpAttachDomain (SpID row) "dom-b" "new")] E); [by eexists|].
    intros t o Ho. apply list_elem_of_singleton in Ho as [= -> ->]. reflexivity.
  - vm_compute in E. discriminate E.
Defined.

(** Two tenants' pages can answer at one hostname: a.b.c.com is "a.b" under c.com
    and "a" under b.c.com, and no index forbids it. *)
Definition collide (d : core) : core :=
  let run := λ t n d l, tables (run_site_ops (H := reliable) (H0 := demo_machine) l
                                  (Session d t false (Some 1) false n)).2 in
  let page := λ sub k, {| SpID := ""; SpTenantID := ""; SpName := "p"; SpSubdomain := Some sub;
                          SpDomainID := Some k; SpState := ""; SpTLSLastError := None;
                          SpEnvironment := ""; SpCreatedAt := 0; SpServiceIDs := [] |} in
  let id := λ n, gen_uuid (Driver := reliable) n in
  run "tenant-b" 20%nat
    (run "tenant-a" 10%nat d [OpCreateDomain 0 "c.com"; OpCreatePage (page "a.b" (id 10%nat)) []])
    [OpCreateDomain 1 "b.c.com"; OpCreatePage (page "a" (id 20%nat)) []].

Example addresses_collide :
  let d := collide empty_core in
  let s := pool_of true d in
  (λ r, (page_tenant r, address s (spage r))) <$> (snd <$> map_to_list (status_pages d)) =
    [("tenant-a", Some "a.b.c.com"); ("tenant-b", Some "a.b.c.com")].
Proof. vm_compute. reflexivity. Qed.
