(* ===== verification/Auth.v ===== *)
(** * Identity and sessions (internal/auth, internal/db/session_repository.go)

    Accounts, their device sessions and their per-tenant roles, and the signed
    tokens that stand for them.  The JWT library is not under src/: signing,
    parsing and its whole-second dates are the parameter [Jwt]. *)

From stdpp Require Import numbers strings gmap list sorting.
From Stdlib Require Import ZArith Lia Ascii.
From S2P Require Import Prelude GoNum Db Identity.

#[local] Open Scope Z_scope.
#[local] Open Scope go_scope.

(** ** Columns *)

Definition live_session (x : DeviceSession) : bool :=
  match RevokedAt x with None => true | Some _ => false end.

(** NULLIF($n, '') *)
Definition nullif_empty (s : string) : option string :=
  if String.eqb s "" then None else Some s.

(** ** Tokens *)

Definition SessionTTL : Z := 24 * hour.
Definition TwoFactorChallengeTTL : Z := 5 * minute.
Definition twoFactorChallengeAudience : string := "2fa_challenge".

(** A token's payload: the registered claims both kinds use, and the two claims
    of a session ("" when the token has none). *)
Record jwt_claims := {
  Subject : string;
  JwtID : string;
  Audience : list string;
  IssuedAt : option Z;
  ExpiresAt : option Z;
  ClaimTenantID : string;
  ClaimSessionID : string;
}.

Record SessionClaims := {
  AdminID : string;
  ScIssuedAt : Z;
  ScTenantID : string;
  ScSessionID : string;
}.

Inductive auth_err :=
| ErrInvalidToken
| ErrMissingSessionID
| ErrSigning.

Class Jwt := {
  jwt_sign : jwt_claims → string → option string;      (* claims, secret *)
  (** What ParseWithClaims returns at a time, None for any error: malformed, not
      HMAC, bad signature, expired. *)
  jwt_parse : Z → string → string → option jwt_claims; (* now, token, secret *)
  NewNumericDate : Z → Z;
}.

Section tokens.
Context `{!Jwt}.

Definition issueSessionWithTTL (now : Z) (adminID tenantID sessionID secret : string) (ttl : Z) :
    res auth_err string :=
  if String.eqb sessionID "" then Err ErrMissingSessionID
  else
    let claims :=
      {| Subject := adminID; JwtID := ""; Audience := [];
         IssuedAt := Some (NewNumericDate now);
         ExpiresAt := Some (NewNumericDate (time_add now ttl));
         ClaimTenantID := tenantID; ClaimSessionID := sessionID |} in
    match jwt_sign claims secret with
    | Some token => Ok token
    | None => Err ErrSigning
    end.

Definition IssueSessionWithTenant (now : Z) (adminID tenantID sessionID secret : string) :
    res auth_err string :=
  issueSessionWithTTL now adminID tenantID sessionID secret SessionTTL.
Definition IssueSession (now : Z) (adminID sessionID secret : string) : res auth_err string :=
  IssueSessionWithTenant now adminID "" sessionID secret.

Definition VerifySessionClaims (now : Z) (token secret : string) : res auth_err SessionClaims :=
  match jwt_parse now token secret with
  | None => Err ErrInvalidToken
  | Some c =>
      match IssuedAt c with
      | None => Err ErrInvalidToken
      | Some iat =>
          if String.eqb (Subject c) "" then Err ErrInvalidToken
          else if (0 <? Z.of_nat (length (Audience c))) then Err ErrInvalidToken
          else if String.eqb (ClaimSessionID c) "" then Err ErrInvalidToken
          else Ok {| AdminID := Subject c; ScIssuedAt := iat; ScTenantID := ClaimTenantID c;
                     ScSessionID := ClaimSessionID c |}
      end
  end.

Definition VerifySession (now : Z) (token secret : string) : res auth_err string :=
  match VerifySessionClaims now token secret with
  | Ok c => Ok (AdminID c)
  | Err e => Err e
  end.

Definition issueTwoFactorChallengeWithTTL (now : Z) (userID jti secret : string) (ttl : Z) :
    res auth_err string :=
  let claims :=
    {| Subject := userID; JwtID := jti; Audience := [twoFactorChallengeAudience];
       IssuedAt := Some (NewNumericDate now);
       ExpiresAt := Some (NewNumericDate (time_add now ttl));
       ClaimTenantID := ""; ClaimSessionID := "" |} in
  match jwt_sign claims secret with
  | Some token => Ok token
  | None => Err ErrSigning
  end.
Definition IssueTwoFactorChallenge (now : Z) (userID jti secret : string) : res auth_err string :=
  issueTwoFactorChallengeWithTTL now userID jti secret TwoFactorChallengeTTL.

Definition VerifyTwoFactorChallenge (now : Z) (token secret : string) :
    res auth_err (string * string) :=
  match jwt_parse now token secret with
  | None => Err ErrInvalidToken
  | Some c =>
      if String.eqb (Subject c) "" || String.eqb (JwtID c) "" then Err ErrInvalidToken
      else
        match Audience c with
        | [a] => if String.eqb a twoFactorChallengeAudience then Ok (Subject c, JwtID c)
                 else Err ErrInvalidToken
        | _ => Err ErrInvalidToken
        end
  end.

(** What the code relies on of the library: a signed token parses back to its
    claims, with the same secret, until it expires, and not from then on; dates
    are cut to the second. *)
Record jwt_laws : Prop := {
  jwt_round_trip : ∀ c secret token now,
    jwt_sign c secret = Some token →
    jwt_parse now token secret =
      match ExpiresAt c with
      | Some e => if now <? e then Some c else None
      | None => Some c
      end;
  numeric_date_floor : ∀ t, NewNumericDate t ≤ t < NewNumericDate t + second;
}.
End tokens.

(** ** Repositories *)

Section identity.
Context `{!Driver}.

(** SessionRepository.Create *)
Definition CreateSession (userID userAgent ip : string) : M (session identity) db_err string :=
  stmt (λ s,
    let id := gen_uuid (tick s) in
    match users (tables s) !! userID with
    | None => Err ErrForeignKey
    | Some _ =>
        match device_sessions (tables s) !! id with
        | Some _ => Err ErrUnique
        | None =>
            Ok (id, set_device_sessions (<[id :=
              {| DsID := id; DsUserID := userID; UserAgent := nullif_empty userAgent;
                 IP := nullif_empty ip; DsCreatedAt := sql_now s; DsLastSeenAt := None;
                 RevokedAt := None |}]>) (tables s))
        end
    end).

Definition GetSession (id : string) : M (session identity) db_err DeviceSession :=
  row <- query (λ s, device_sessions (tables s) !! id) ;;
  match row with Some x => ret x | None => fail ErrNotFound end.

Definition newest_session (x y : DeviceSession) : Prop := DsCreatedAt y ≤ DsCreatedAt x.
#[global] Instance newest_session_dec : RelDecision newest_session.
Proof. intros x y. unfold newest_session. apply _. Defined.

Definition listed_session (userID : string) (now : Z) (x : DeviceSession) : bool :=
  String.eqb (DsUserID x) userID && live_session x && (now - 24 * hour <=? DsCreatedAt x).

Definition ListForUser (userID : string) : M (session identity) db_err (list DeviceSession) :=
  query (λ s, merge_sort newest_session
    (filter (λ x, listed_session userID (sql_now s) x = true)
      (snd <$> map_to_list (device_sessions (tables s))))).

Definition GetByIDAndUser (id userID : string) : M (session identity) db_err DeviceSession :=
  row <- query (λ s, device_sessions (tables s) !! id) ;;
  match row with
  | Some x => if String.eqb (DsUserID x) userID then ret x else fail ErrNotFound
  | None => fail ErrNotFound
  end.

(** UPDATE sessions SET ... WHERE [p]: no row is not an error. *)
Definition update_sessions (p : session identity → DeviceSession → bool)
    (f : session identity → DeviceSession → DeviceSession) : M (session identity) db_err unit :=
  stmt (λ s, Ok (tt, set_device_sessions
    (fmap (λ x, if p s x then f s x else x)) (tables s))).

Definition Revoke (id : string) : M (session identity) db_err unit :=
  update_sessions (λ _ x, String.eqb (DsID x) id && live_session x)
    (λ s, set_revoked (sql_now s)).

Definition TouchLastSeen (id : string) : M (session identity) db_err unit :=
  update_sessions
    (λ s x, String.eqb (DsID x) id &&
            match DsLastSeenAt x with
            | None => true
            | Some t => t <? sql_now s - 5 * minute
            end)
    (λ s, set_last_seen (sql_now s)).

Definition RevokeAllForUser (userID : string) : M (session identity) db_err unit :=
  update_sessions (λ _ x, String.eqb (DsUserID x) userID && live_session x)
    (λ s, set_revoked (sql_now s)).

Definition GetUser (id : string) : M (session identity) db_err User :=
  row <- query (λ s, users (tables s) !! id) ;;
  match row with Some x => ret x | None => fail ErrNotFound end.

(** UserRepository.RevokeSessions *)
Definition RevokeSessions (id : string) : M (session identity) db_err unit :=
  n <- stmt (λ s,
    match users (tables s) !! id with
    | Some u => Ok (1, set_users (<[id := set_sessions_revoked (sql_now s) u]>) (tables s))
    | None => Ok (0, tables s)
    end) ;;
  if n =? 0 then fail ErrNotFound else ret tt.

(** The policy of tenant_memberships, in a session whose app.user_id is
    [app_user]: the user's own rows and the active tenant's. *)
Definition member_visible (s : session identity) (app_user userID tenantID : string) : bool :=
  visible s tenantID || (negb (String.eqb app_user "") && String.eqb userID app_user).

(** TenantMembershipRepository.GetRole, in a transaction whose app.user_id is
    [app_user]: the membership's policy admits the user's own rows and the
    active tenant's, the tenant's policy only the active one. *)
Definition GetRole (app_user userID tenantID : string) : M (session identity) db_err string :=
  row <- query (λ s,
    match memberships (tables s) !! (userID, tenantID), tenants (tables s) !! tenantID with
    | Some m, Some t =>
        if member_visible s app_user userID tenantID && visible s tenantID
           && String.eqb (TenStatus t) "active"
        then Some (MbRole m) else None
    | _, _ => None
    end) ;;
  match row with Some role => ret role | None => fail ErrNotFound end.
End identity.

(** ** Sequences of operations *)

Inductive session_op :=
| OpCreateSession (userID userAgent ip : string)
| OpGetSession (id : string)
| OpListForUser (userID : string)
| OpGetByIDAndUser (id userID : string)
| OpRevoke (id : string)
| OpTouchLastSeen (id : string)
| OpRevokeAllForUser (userID : string)
| OpRevokeSessions (id : string).

Section session_ops.
Context `{!Driver}.

Definition forget {A} (m : M (session identity) db_err A) : M (session identity) db_err unit :=
  m ;;; ret tt.

Definition run_session_op (o : session_op) : M (session identity) db_err unit :=
  match o with
  | OpCreateSession u a i => forget (CreateSession u a i)
  | OpGetSession id => forget (GetSession id)
  | OpListForUser u => forget (ListForUser u)
  | OpGetByIDAndUser id u => forget (GetByIDAndUser id u)
  | OpRevoke id => Revoke id
  | OpTouchLastSeen id => TouchLastSeen id
  | OpRevokeAllForUser u => RevokeAllForUser u
  | OpRevokeSessions id => RevokeSessions id
  end.

(** One after the other, on sessions that may fail at any of them. *)
Fixpoint run_session_ops (l : list session_op) (s : session identity) : session identity :=
  match l with
  | [] => s
  | o :: l => run_session_ops l (run_session_op o s).2
  end.
End session_ops.

(** ** Lemmas *)

(** A row keeps its id, its owner and the time it was revoked. *)
Definition row_kept (x y : DeviceSession) : Prop :=
  DsID y = DsID x ∧ DsUserID y = DsUserID x ∧
  (∀ t, RevokedAt x = Some t → RevokedAt y = Some t).
Definition sessions_kept (d d' : identity) : Prop :=
  ∀ i x, device_sessions d !! i = Some x → ∃ y, device_sessions d' !! i = Some y ∧ row_kept x y.

#[global] Instance sessions_kept_preorder (t : string) (b : bool) :
  PreOrder ((λ _ _, sessions_kept) t b).
Proof.
  split.
  - intros d i x Hx. exists x. done.
  - intros d1 d2 d3 H1 H2 i x (y & Hy & E1 & E2 & E3)%H1.
    destruct (H2 i y Hy) as (z & Hz & F1 & F2 & F3). exists z. split; [done|].
    split_and!; [congruence|congruence|]. intros u ?. by apply F3, E3.
Qed.

Section kept.
Context `{!Driver}.
Definition keeps {A} (m : M (session identity) db_err A) : Prop :=
  preserves (λ _ _, sessions_kept) m.

Lemma update_sessions_keeps p f :
  (∀ s x, p s x = true → row_kept x (f s x)) → keeps (update_sessions p f).
Proof.
  intros Hf. apply (preserves_stmt (λ _ _, sessions_kept)).
  intros s a d [= <- <-] i x Hx. cbn. rewrite lookup_fmap, Hx. cbn.
  eexists. split; [done|]. destruct (p s x) eqn:E; [by apply Hf|done].
Qed.

Lemma Revoke_keeps id : keeps (Revoke id).
Proof.
  apply update_sessions_keeps. intros s x Hp. split_and!; [done..|]. unfold live_session in Hp.
  destruct (RevokedAt x); [by rewrite andb_false_r in Hp|done].
Qed.

Lemma RevokeAllForUser_keeps u : keeps (RevokeAllForUser u).
Proof.
  apply update_sessions_keeps. intros s x Hp. split_and!; [done..|]. unfold live_session in Hp.
  destruct (RevokedAt x); [by rewrite andb_false_r in Hp|done].
Qed.

Lemma TouchLastSeen_keeps id : keeps (TouchLastSeen id).
Proof. by apply update_sessions_keeps. Qed.

Lemma forget_keeps {A} (m : M (session identity) db_err A) : keeps m → keeps (forget m).
Proof.
  intros Hm. apply (preserves_bind (λ _ _, sessions_kept)); [done|].
  intros. apply (preserves_ret (λ _ _, sessions_kept)).
Qed.

Lemma query_row_keeps {A B} (f : session identity → option A) (k : A → M (session identity) db_err B) :
  (∀ a, keeps (k a)) →
  keeps (row <- query f ;; match row with Some x => k x | None => fail ErrNotFound end).
Proof.
  intros Hk. apply (preserves_bind (λ _ _, sessions_kept)).
  - apply (preserves_query (λ _ _, sessions_kept)).
  - intros [a|]; [apply Hk|apply (preserves_fail (λ _ _, sessions_kept))].
Qed.

Lemma GetUser_keeps id : keeps (GetUser id).
Proof. apply query_row_keeps. intros. apply (preserves_ret (λ _ _, sessions_kept)). Qed.
Lemma GetSession_keeps id : keeps (GetSession id).
Proof. apply query_row_keeps. intros. apply (preserves_ret (λ _ _, sessions_kept)). Qed.

Lemma run_session_op_keeps o : keeps (run_session_op o).
Proof.
  destruct o; cbn [run_session_op]; try apply forget_keeps.
  - apply (preserves_stmt (λ _ _, sessions_kept)). intros s a d. cbv zeta.
    destruct (users _ !! _); [|done]. destruct (device_sessions _ !! _) eqn:E; [done|].
    intros [= <- <-] i x Hx. cbn. exists x. split; [|done].
    rewrite lookup_insert_ne by congruence. done.
  - apply GetSession_keeps.
  - apply (preserves_query (λ _ _, sessions_kept)).
  - apply query_row_keeps. intros x. destruct (String.eqb _ _);
      [apply (preserves_ret (λ _ _, sessions_kept))|apply (preserves_fail (λ _ _, sessions_kept))].
  - apply Revoke_keeps.
  - apply TouchLastSeen_keeps.
  - apply RevokeAllForUser_keeps.
  - apply (preserves_bind (λ _ _, sessions_kept)).
    + apply (preserves_stmt (λ _ _, sessions_kept)). intros s a d.
      destruct (users _ !! _); intros [= <- <-]; intros i x Hx; exists x; done.
    + intros n. destruct (n =? 0);
        [apply (preserves_fail (λ _ _, sessions_kept))|apply (preserves_ret (λ _ _, sessions_kept))].
Qed.

Lemma run_session_ops_keeps l s : sessions_kept (tables s) (tables (run_session_ops l s)).
Proof.
  revert s. induction l as [|o l IH]; intros s; cbn; [intros i x Hx; by exists x|].
  destruct (run_session_op_keeps o s) as [Ho _].
  eapply (sessions_kept_preorder "" false).(PreOrder_Transitive); [exact Ho|apply IH].
Qed.
End kept.

(** ** Properties *)

(** the two kinds of token never stand in for each other.  With the signing
    library's documented laws, a session token is verified, until it expires, as
    exactly the account, tenant and device session it was issued for and with an
    issue time that is never later than the real one; it is never a 2FA
    challenge.  A challenge token is never a session, and is a challenge for
    exactly its account and id until it expires. *)
Theorem token_kinds `{!Jwt} (t now : Z) (adminID tenantID sid jti secret tok chal : string) :
  jwt_laws → adminID ≠ "" → sid ≠ "" → jti ≠ "" →
  IssueSessionWithTenant t adminID tenantID sid secret = Ok tok →
  IssueTwoFactorChallenge t adminID jti secret = Ok chal →
  (if now <? NewNumericDate (t + SessionTTL)
   then ∃ c, VerifySessionClaims now tok secret = Ok c ∧ AdminID c = adminID ∧
          ScTenantID c = tenantID ∧ ScSessionID c = sid ∧ ScIssuedAt c ≤ t < ScIssuedAt c + second
   else VerifySessionClaims now tok secret = Err ErrInvalidToken) ∧
  VerifyTwoFactorChallenge now tok secret = Err ErrInvalidToken ∧
  VerifySessionClaims now chal secret = Err ErrInvalidToken ∧
  VerifyTwoFactorChallenge now chal secret =
    (if now <? NewNumericDate (t + TwoFactorChallengeTTL) then Ok (adminID, jti)
     else Err ErrInvalidToken).
Proof.
  intros [Hrt Hfl] Ha%String.eqb_neq Hs%String.eqb_neq Hj%String.eqb_neq.
  unfold IssueSessionWithTenant, issueSessionWithTTL, IssueTwoFactorChallenge,
    issueTwoFactorChallengeWithTTL. rewrite Hs.
  destruct (jwt_sign _ secret) as [k1|] eqn:E1 at 1; [|done].
  destruct (jwt_sign _ secret) as [k2|] eqn:E2 at 1; [|done]. intros [= ->] [= ->].
  pose proof (Hrt _ _ _ now E1) as P1. pose proof (Hrt _ _ _ now E2) as P2. cbn in P1, P2.
  unfold time_add in P1, P2. unfold VerifySessionClaims, VerifyTwoFactorChallenge.
  rewrite P1, P2. specialize (Hfl t).
  destruct (now <? NewNumericDate (t + SessionTTL)), (now <? NewNumericDate (t + TwoFactorChallengeTTL));
    cbn; rewrite ?Ha, ?Hs, ?Hj; cbn; split_and!; try done; by eexists.
Qed.

(** ** Examples and witnesses *)

(** A signing library for the examples: the token spells out its claims and the
    secret, bit by bit. *)
Fixpoint bits (p : positive) : string :=
  match p with
  | xH => ""
  | xO p => String "0"%char (bits p)
  | xI p => String "1"%char (bits p)
  end.
Fixpoint unbits (s : string) : positive :=
  match s with
  | EmptyString => xH
  | String a s => if Ascii.eqb a "0"%char then xO (unbits s) else xI (unbits s)
  end.
Lemma unbits_bits p : unbits (bits p) = p.
Proof. induction p as [p IH|p IH|]; cbn; [by rewrite IH..|done]. Qed.

Definition claims_tuple (c : jwt_claims) :=
  (Subject c, JwtID c, Audience c, IssuedAt c, ExpiresAt c, (ClaimTenantID c, ClaimSessionID c)).
Definition tuple_claims (p : string * string * list string * option Z * option Z * (string * string)) :
    jwt_claims :=
  let '(a, b, c, d, e, (f, g)) := p in
  {| Subject := a; JwtID := b; Audience := c; IssuedAt := d; ExpiresAt := e;
     ClaimTenantID := f; ClaimSessionID := g |}.

#[local] Instance demo_jwt : Jwt := {|
  jwt_sign c secret := Some (bits (encode (claims_tuple c, secret)));
  jwt_parse now token secret :=
    match decode (unbits token) with
    | Some (c, k) =>
        let c := tuple_claims c in
        if String.eqb k secret then
          match ExpiresAt c with
          | Some e => if now <? e then Some c else None
          | None => Some c
          end
        else None
    | None => None
    end;
  NewNumericDate t := t / second * second;
|}.

Lemma demo_jwt_laws : jwt_laws.
Proof.
  split.
  - intros [a b c d e f g] secret token now [= <-]. cbn. rewrite unbits_bits, decode_encode. cbn.
    by rewrite String.eqb_refl.
  - intros t. cbn. pose proof (Z.div_mod t second ltac:(done)).
    pose proof (Z.mod_pos_bound t second ltac:(done)). lia.
Qed.

Lemma token_kinds_witness :
  ∃ tok, IssueSessionWithTenant 0 "user-1" "tenant-a" "sid-1" "secret" = Ok tok ∧
    VerifyTwoFactorChallenge 5 tok "secret" = Err ErrInvalidToken ∧
    ∃ c, VerifySessionClaims 5 tok "secret" = Ok c ∧ ScTenantID c = "tenant-a".
Proof.
  eexists. split; [reflexivity|].
  edestruct (token_kinds 0 5 "user-1" "tenant-a" "sid-1" "jti" "secret") as (H1 & H2 & _);
    [apply demo_jwt_laws|discriminate|discriminate|discriminate|reflexivity|reflexivity|].
  split; [exact H2|].
  assert ((5 <? NewNumericDate (0 + SessionTTL)) = true) as E by reflexivity. rewrite E in H1.
  destruct H1 as (c & Hc & _ & Ht & _). exists c. split; [exact Hc|exact Ht].
Defined.
