(* ===== verification/Accounts.v ===== *)
(** * Accounts (internal/db: user, membership, invite and token repositories)

    UserRepository, TenantMembershipRepository, TenantInviteRepository,
    PasswordResetRepository and EmailVerificationRepository, statement by
    statement on a session of the identity tables.  [app_user] is the session's
    app.user_id, which only the policy of tenant_memberships reads. *)

From stdpp Require Import numbers strings gmap list sorting.
From Stdlib Require Import ZArith Lia.
From S2P Require Import Prelude GoNum Db Identity Auth.

#[local] Open Scope Z_scope.
#[local] Open Scope go_scope.

Section repositories.
Context `{!Driver}.

(** ** UserRepository *)

Definition by_email (email : string) (x : User) : bool := String.eqb (Email x) email.

(** INSERT INTO users: the generated columns, the rest as given. *)
Definition new_user (id : string) (now : Z) (x : User) : User :=
  {| UserID := id; Email := Email x; PasswordHash := PasswordHash x; UserName := UserName x;
     Phone := Phone x; SessionsRevokedAt := None; EmailVerifiedAt := EmailVerifiedAt x;
     UserCreatedAt := now |}.
Definition insert_user (f : session identity → User) : M (session identity) db_err User :=
  stmt (λ s,
    let id := gen_uuid (tick s) in
    let row := new_user id (sql_now s) (f s) in
    if has_row (by_email (Email row)) (users (tables s)) then Err ErrUnique
    else match users (tables s) !! id with
         | Some _ => Err ErrUnique
         | None => Ok (row, set_users (<[id := row]>) (tables s))
         end).

Definition CreateUser (x : User) : M (session identity) db_err User :=
  map_err (unique_as ErrDuplicateEmail) (insert_user (λ _, x)).

Definition GetByEmail (email : string) : M (session identity) db_err User :=
  row <- query (λ s, find_row (by_email email) (users (tables s))) ;;
  r <- or_not_found row ;;
  ret r.2.

Definition update_user (id : string) (f : session identity → User → User) :
    M (session identity) db_err Z :=
  stmt (λ s,
    match users (tables s) !! id with
    | Some u => Ok (1, set_users (<[id := f s u]>) (tables s))
    | None => Ok (0, tables s)
    end).

Definition UpdateName (userID name : string) : M (session identity) db_err unit :=
  n <- update_user userID (λ _, set_user_name name) ;; affected n.
Definition UpdatePasswordHash (userID passwordHash : string) : M (session identity) db_err unit :=
  n <- update_user userID (λ _, set_password_hash passwordHash) ;; affected n.
Definition MarkEmailVerified (id : string) : M (session identity) db_err unit :=
  n <- update_user id (λ s, set_email_verified (sql_now s)) ;; affected n.

(** ON DELETE CASCADE: the rows that name the account go with it. *)
Definition cascade_user (id : string) (d : identity) : identity :=
  {| users := delete id (users d);
     device_sessions := filter (λ kv, DsUserID kv.2 ≠ id) (device_sessions d);
     tenants := tenants d;
     memberships := filter (λ kv, kv.1.1 ≠ id) (memberships d);
     invites := invites d;
     reset_tokens := filter (λ kv, PrtUserID kv.2 ≠ id) (reset_tokens d);
     verification_tokens := filter (λ kv, EvtUserID kv.2 ≠ id) (verification_tokens d);
     two_factor_secrets := delete id (two_factor_secrets d);
     recovery_codes := filter (λ kv, RcUserID kv.2 ≠ id) (recovery_codes d);
     challenges := filter (λ kv, TfcUserID kv.2 ≠ id) (challenges d);
     notification_preferences := filter (λ kv, kv.1.1 ≠ id) (notification_preferences d);
     audit_log := audit_log d |}.

(** tenant_invites.invited_by_id references users without a cascade. *)
Definition DeleteUser (id : string) : M (session identity) db_err unit :=
  n <- stmt (λ s,
    match users (tables s) !! id with
    | None => Ok (0, tables s)
    | Some _ =>
        if has_row (λ x, String.eqb (InvInvitedByID x) id) (invites (tables s))
        then Err ErrForeignKey
        else Ok (1, cascade_user id (tables s))
    end) ;;
  affected n.

(** None when a user already exists: the transaction is rolled back. *)
Definition BootstrapFirst (x : User) : M (session identity) db_err (option User) :=
  r <- attempt (with_pool_tx (
    query (λ _, tt) ;;;                       (* LOCK TABLE users *)
    count <- query (λ s, Z.of_nat (size (users (tables s)))) ;;
    if 0 <? count then fail ErrRolledBack
    else insert_user (λ s, set_email_verified (sql_now s) x))) ;;
  match r with
  | Ok u => ret (Some u)
  | Err ErrRolledBack => ret None
  | Err e => fail e
  end.

Definition CountUsers : M (session identity) db_err Z :=
  query (λ s, Z.of_nat (size (users (tables s)))).

(** ** TenantMembershipRepository *)

Record TenantMembership := {
  TmUserID : string;
  TmTenantID : string;
  TmRole : string;
  TmCreatedAt : Z;
  TmName : string;
  TmPlan : string;
}.

Definition CreateMembership (app_user userID tenantID role : string) :
    M (session identity) db_err Z :=
  map_err (unique_as ErrDuplicateMembership) (stmt (λ s,
    let now := sql_now s in
    if negb (member_visible s app_user userID tenantID) then Err ErrRowSecurity
    else if negb (role_check role) then Err ErrCheck
    else match memberships (tables s) !! (userID, tenantID) with
         | Some _ => Err ErrUnique
         | None =>
             if is_none (users (tables s) !! userID) || is_none (tenants (tables s) !! tenantID)
             then Err ErrForeignKey
             else Ok (now, set_memberships
                    (<[(userID, tenantID) := {| MbRole := role; MbCreatedAt := now |}]>) (tables s))
         end)).

Definition older_membership (x y : TenantMembership) : Prop := TmCreatedAt x ≤ TmCreatedAt y.
#[global] Instance older_membership_dec : RelDecision older_membership.
Proof. intros x y. unfold older_membership. apply _. Defined.

(** The rows of tenant_memberships the session sees. *)
Definition seen_memberships (s : session identity) (app_user : string) :
    list (string * string * membership_row) :=
  filter (λ kv, member_visible s app_user kv.1.1 kv.1.2 = true) (map_to_list (memberships (tables s))).

(** JOIN tenants: the tenant is there, seen and active. *)
Definition joined (s : session identity) (kv : string * string * membership_row) :
    option TenantMembership :=
  match tenants (tables s) !! kv.1.2 with
  | Some t =>
      if visible s kv.1.2 && String.eqb (TenStatus t) "active" then
        Some {| TmUserID := kv.1.1; TmTenantID := kv.1.2; TmRole := MbRole kv.2;
                TmCreatedAt := MbCreatedAt kv.2; TmName := TenName t; TmPlan := TenPlan t |}
      else None
  | None => None
  end.

(** TenantMembershipRepository.ListForUser *)
Definition MembershipsForUser (app_user userID : string) :
    M (session identity) db_err (list TenantMembership) :=
  query (λ s, merge_sort older_membership
    (omap (joined s) (filter (λ kv, kv.1.1 = userID) (seen_memberships s app_user)))).

Definition bare_membership (kv : string * string * membership_row) : TenantMembership :=
  {| TmUserID := kv.1.1; TmTenantID := kv.1.2; TmRole := MbRole kv.2; TmCreatedAt := MbCreatedAt kv.2;
     TmName := ""; TmPlan := "" |}.
Definition ListForTenant (app_user tenantID : string) :
    M (session identity) db_err (list TenantMembership) :=
  query (λ s, merge_sort older_membership
    (bare_membership <$> filter (λ kv, kv.1.2 = tenantID) (seen_memberships s app_user))).

(** TenantMember: an address to notify. *)
Record TenantMember := {
  MemUserID : string;
  MemEmail : string;
  MemRole : string;
}.
Definition member_of (s : session identity) (x : TenantMembership) : option TenantMember :=
  u ← users (tables s) !! TmUserID x;
  Some {| MemUserID := TmUserID x; MemEmail := Email u; MemRole := TmRole x |}.
Definition ListMembersWithEmail (app_user tenantID : string) :
    M (session identity) db_err (list TenantMember) :=
  query (λ s, omap (member_of s) (merge_sort older_membership
    (bare_membership <$> filter (λ kv, kv.1.2 = tenantID) (seen_memberships s app_user)))).

Definition owner_rows (s : session identity) (app_user tenantID : string) :
    list (string * string * membership_row) :=
  filter (λ kv, kv.1.2 = tenantID ∧ MbRole kv.2 = RoleOwner) (seen_memberships s app_user).
Definition isLastOwner (app_user tenantID : string) : M (session identity) db_err bool :=
  ownerCount <- query (λ s, Z.of_nat (length (owner_rows s app_user tenantID))) ;;
  ret (ownerCount <=? 1).

(** UPDATE and DELETE of one membership: the rows affected. *)
Definition write_membership (app_user userID tenantID : string)
    (f : membership_row → option membership_row) : M (session identity) db_err Z :=
  stmt (λ s,
    match memberships (tables s) !! (userID, tenantID) with
    | Some m =>
        if member_visible s app_user userID tenantID then
          match f m with
          | Some m' => if role_check (MbRole m')
                       then Ok (1, set_memberships (<[(userID, tenantID) := m']>) (tables s))
                       else Err ErrCheck
          | None => Ok (1, set_memberships (delete (userID, tenantID)) (tables s))
          end
        else Ok (0, tables s)
    | None => Ok (0, tables s)
    end).

(** The lockout check both writers make before they take an owner away. *)
Definition refuse_last_owner (app_user tenantID : string) : M (session identity) db_err unit :=
  lastOwner <- isLastOwner app_user tenantID ;;
  if lastOwner : bool then fail ErrLastOwner else ret tt.

Definition UpdateRole (app_user userID tenantID role : string) : M (session identity) db_err unit :=
  (if String.eqb role RoleOwner then ret tt
   else
     currentRole <- GetRole app_user userID tenantID ;;
     if String.eqb currentRole RoleOwner then refuse_last_owner app_user tenantID else ret tt) ;;;
  n <- write_membership app_user userID tenantID (λ m, Some (set_role role m)) ;;
  affected n.

(** The role read first, before the owners' rows are locked; then the rest. *)
Definition read_member_role (app_user userID tenantID : string) :
    M (session identity) db_err (option string) :=
  query (λ s,
    match memberships (tables s) !! (userID, tenantID) with
    | Some m => if member_visible s app_user userID tenantID then Some (MbRole m) else None
    | None => None
    end).
Definition delete_member (app_user userID tenantID : string) (row : option string) :
    M (session identity) db_err unit :=
  role <- or_not_found row ;;
  (if String.eqb role RoleOwner then refuse_last_owner app_user tenantID else ret tt) ;;;
  n <- write_membership app_user userID tenantID (λ _, None) ;;
  affected n.
Definition DeleteMembership (app_user userID tenantID : string) : M (session identity) db_err unit :=
  row <- read_member_role app_user userID tenantID ;;
  delete_member app_user userID tenantID row.

Definition CountForUser (app_user userID : string) : M (session identity) db_err Z :=
  query (λ s, Z.of_nat (length (filter (λ kv, kv.1.1 = userID) (seen_memberships s app_user)))).

(** ** TenantInviteRepository *)

Definition by_invite_hash (h : string) (x : TenantInvite) : bool := String.eqb (InvTokenHash x) h.
Definition unused_invite (x : TenantInvite) : bool := is_none (InvUsedAt x).

Definition new_invite (id tenant : string) (now : Z) (x : TenantInvite) : TenantInvite :=
  {| InvID := id; InvTenantID := tenant; InvEmail := InvEmail x; InvRole := InvRole x;
     InvName := InvName x; InvPhone := InvPhone x; InvTokenHash := InvTokenHash x;
     InvInvitedByID := InvInvitedByID x; InvExpiresAt := InvExpiresAt x; InvUsedAt := None;
     InvCreatedAt := now |}.
Definition CreateInvite (x : TenantInvite) : M (session identity) db_err TenantInvite :=
  stmt (λ s,
    let id := gen_uuid (tick s) in
    match (if String.eqb (InvTenantID x) "" then default_tenant s else Ok (InvTenantID x)) with
    | Err e => Err e
    | Ok t =>
        let row := new_invite id t (sql_now s) x in
        if negb (visible s t) then Err ErrRowSecurity
        else if negb (role_check (InvRole x)) then Err ErrCheck
        else if has_row (by_invite_hash (InvTokenHash x)) (invites (tables s)) then Err ErrUnique
        else if is_none (users (tables s) !! InvInvitedByID x) || is_none (tenants (tables s) !! t)
        then Err ErrForeignKey
        else match invites (tables s) !! id with
             | Some _ => Err ErrUnique
             | None => Ok (row, set_invites (<[id := row]>) (tables s))
             end
    end).

Definition seen_invite (s : session identity) (p : TenantInvite → bool) (x : TenantInvite) : bool :=
  visible s (InvTenantID x) && p x.

Definition GetInviteByTokenHash (tokenHash : string) : M (session identity) db_err TenantInvite :=
  row <- query (λ s, find_row (seen_invite s (by_invite_hash tokenHash)) (invites (tables s))) ;;
  r <- or_not_found row ;;
  ret r.2.

(** UPDATE tenant_invites ... WHERE [p] RETURNING, of at most one row. *)
Definition claim_invite (p : session identity → TenantInvite → bool)
    (f : session identity → TenantInvite → TenantInvite) : M (session identity) db_err TenantInvite :=
  row <- stmt (λ s,
    match find_row (seen_invite s (p s)) (invites (tables s)) with
    | Some (k, x) => Ok (Some (f s x), set_invites (<[k := f s x]>) (tables s))
    | None => Ok (None, tables s)
    end) ;;
  or_not_found row.

Definition ClaimForUse (tokenHash : string) : M (session identity) db_err TenantInvite :=
  claim_invite (λ s x, by_invite_hash tokenHash x && unused_invite x && (sql_now s <? InvExpiresAt x))
    (λ s, set_invite_used (sql_now s)).

Definition pending_invite (id tenantID : string) (x : TenantInvite) : bool :=
  String.eqb (InvID x) id && String.eqb (InvTenantID x) tenantID && unused_invite x.

(** A malformed id is ErrNotFound, like an unknown one. *)
Definition Refresh (tenantID id newTokenHash : string) (newExpiresAt : Z) :
    M (session identity) db_err TenantInvite :=
  row <- stmt (λ s,
    match find_row (seen_invite s (pending_invite id tenantID)) (invites (tables s)) with
    | Some (k, x) =>
        if has_row (λ y, by_invite_hash newTokenHash y && negb (String.eqb (InvID y) (InvID x)))
             (invites (tables s)) then Err ErrUnique
        else
          let x := set_invite_token newTokenHash newExpiresAt x in
          Ok (Some x, set_invites (<[k := x]>) (tables s))
    | None => Ok (None, tables s)
    end) ;;
  or_not_found row.
Definition Cancel (tenantID id : string) : M (session identity) db_err TenantInvite :=
  claim_invite (λ _, pending_invite id tenantID) (λ s, set_invite_used (sql_now s)).

Definition update_invites (p : TenantInvite → bool) : M (session identity) db_err Z :=
  stmt (λ s,
    let hit := λ x, seen_invite s p x in
    Ok (Z.of_nat (length (filter (λ kv, hit kv.2 = true) (map_to_list (invites (tables s))))),
        set_invites (fmap (λ x, if hit x then set_invite_used (sql_now s) x else x)) (tables s))).
Definition MarkInviteUsed (id : string) : M (session identity) db_err unit :=
  n <- update_invites (λ x, String.eqb (InvID x) id) ;; affected n.
Definition InvalidatePendingForEmail (tenantID email : string) : M (session identity) db_err unit :=
  update_invites (λ x, String.eqb (InvEmail x) email && String.eqb (InvTenantID x) tenantID &&
                       unused_invite x) ;;; ret tt.

Definition newest_invite (x y : TenantInvite) : Prop := InvCreatedAt y ≤ InvCreatedAt x.
#[global] Instance newest_invite_dec : RelDecision newest_invite.
Proof. intros x y. unfold newest_invite. apply _. Defined.

(** TokenHash and UsedAt are not selected. *)
Definition listed_invite (x : TenantInvite) : TenantInvite :=
  {| InvID := InvID x; InvTenantID := InvTenantID x; InvEmail := InvEmail x; InvRole := InvRole x;
     InvName := InvName x; InvPhone := InvPhone x; InvTokenHash := "";
     InvInvitedByID := InvInvitedByID x; InvExpiresAt := InvExpiresAt x; InvUsedAt := None;
     InvCreatedAt := InvCreatedAt x |}.
Definition ListInvites (tenantID : string) : M (session identity) db_err (list TenantInvite) :=
  query (λ s, listed_invite <$> merge_sort newest_invite
    (snd <$> filter (λ kv, seen_invite s
        (λ x, String.eqb (InvTenantID x) tenantID && unused_invite x) kv.2 = true)
      (map_to_list (invites (tables s))))).

(** ** PasswordResetRepository *)

Definition CreateResetToken (userID tokenHash : string) (expiresAt : Z) :
    M (session identity) db_err PasswordResetToken :=
  stmt (λ s,
    let id := gen_uuid (tick s) in
    let row := {| PrtID := id; PrtUserID := userID; PrtTokenHash := tokenHash;
                  PrtExpiresAt := expiresAt; PrtUsedAt := None |} in
    if has_row (λ x, String.eqb (PrtTokenHash x) tokenHash) (reset_tokens (tables s))
    then Err ErrUnique
    else match users (tables s) !! userID, reset_tokens (tables s) !! id with
    | None, _ => Err ErrForeignKey
    | _, Some _ => Err ErrUnique
    | Some _, None => Ok (row, set_reset_tokens (<[id := row]>) (tables s))
    end).

Definition GetResetByTokenHash (tokenHash : string) : M (session identity) db_err PasswordResetToken :=
  row <- query (λ s, find_row (λ x, String.eqb (PrtTokenHash x) tokenHash) (reset_tokens (tables s))) ;;
  r <- or_not_found row ;;
  ret r.2.

Definition update_reset_tokens (p : PasswordResetToken → bool) : M (session identity) db_err Z :=
  stmt (λ s,
    Ok (Z.of_nat (length (filter (λ kv, p kv.2 = true) (map_to_list (reset_tokens (tables s))))),
        set_reset_tokens (fmap (λ x, if p x then set_reset_used (sql_now s) x else x)) (tables s))).
Definition InvalidateOtherPending (userID excludeID : string) : M (session identity) db_err unit :=
  update_reset_tokens (λ x, String.eqb (PrtUserID x) userID && negb (String.eqb (PrtID x) excludeID) &&
                            is_none (PrtUsedAt x)) ;;; ret tt.
Definition MarkResetUsed (id : string) : M (session identity) db_err unit :=
  n <- update_reset_tokens (λ x, String.eqb (PrtID x) id) ;; affected n.

(** ** EmailVerificationRepository *)

Definition CreateVerificationToken (userID tokenHash : string) (expiresAt : Z) :
    M (session identity) db_err EmailVerificationToken :=
  stmt (λ s,
    let id := gen_uuid (tick s) in
    let row := {| EvtID := id; EvtUserID := userID; EvtTokenHash := tokenHash;
                  EvtExpiresAt := expiresAt; EvtUsedAt := None; EvtCreatedAt := sql_now s |} in
    if has_row (λ x, String.eqb (EvtTokenHash x) tokenHash) (verification_tokens (tables s))
    then Err ErrUnique
    else match users (tables s) !! userID, verification_tokens (tables s) !! id with
         | None, _ => Err ErrForeignKey
         | _, Some _ => Err ErrUnique
         | Some _, None => Ok (row, set_verification_tokens (<[id := row]>) (tables s))
         end).

Definition ClaimVerification (tokenHash : string) : M (session identity) db_err EmailVerificationToken :=
  row <- stmt (λ s,
    match find_row (λ x, String.eqb (EvtTokenHash x) tokenHash && is_none (EvtUsedAt x) &&
                         (sql_now s <? EvtExpiresAt x)) (verification_tokens (tables s)) with
    | Some (k, x) =>
        let x := set_verification_used (sql_now s) x in
        Ok (Some x, set_verification_tokens (<[k := x]>) (tables s))
    | None => Ok (None, tables s)
    end) ;;
  or_not_found row.

Definition InvalidatePendingForUser (userID : string) : M (session identity) db_err unit :=
  stmt (λ s, Ok (tt, set_verification_tokens
    (fmap (λ x, if String.eqb (EvtUserID x) userID && is_none (EvtUsedAt x)
                then set_verification_used (sql_now s) x else x)) (tables s))).
End repositories.
