(* ===== verification/TwoFactor.v ===== *)
(** * Second factors and preferences (internal/db/two_factor*.go, notification_preference_repository.go)

    The TOTP secret of an account, its recovery codes, the server side of a
    challenge token, and the notification toggles. *)

From stdpp Require Import numbers strings gmap list sorting.
From Stdlib Require Import ZArith Lia.
From S2P Require Import Prelude GoNum Db Identity Secrets Auth Accounts.

#[local] Open Scope Z_scope.
#[local] Open Scope go_scope.

Section two_factor.
Context `{!Driver, !Machine}.

(** ** TwoFactorRepository *)

Definition CreatePendingSecret (userID encryptedSecret : string) : M (session identity) db_err unit :=
  stmt (λ s,
    match users (tables s) !! userID with
    | None => Err ErrForeignKey
    | Some _ =>
        let created := match two_factor_secrets (tables s) !! userID with
                       | Some x => TfsCreatedAt x
                       | None => sql_now s
                       end in
        Ok (tt, set_two_factor_secrets (<[userID :=
          {| TfsUserID := userID; EncryptedSecret := encryptedSecret; EnabledAt := None;
             TfsCreatedAt := created |}]>) (tables s))
    end).

Definition GetSecret (userID : string) : M (session identity) db_err TwoFactorSecret :=
  row <- query (λ s, two_factor_secrets (tables s) !! userID) ;;
  or_not_found row.

Definition ConfirmSecret (userID : string) : M (session identity) db_err unit :=
  n <- stmt (λ s,
    match two_factor_secrets (tables s) !! userID with
    | Some x => if is_none (EnabledAt x)
                then Ok (1, set_two_factor_secrets (<[userID := set_enabled (sql_now s) x]>) (tables s))
                else Ok (0, tables s)
    | None => Ok (0, tables s)
    end) ;;
  affected n.

Definition DeleteSecret (userID : string) : M (session identity) db_err unit :=
  stmt (λ s, Ok (tt, set_two_factor_secrets (delete userID) (tables s))).

Definition DeleteRecoveryCodes (userID : string) : M (session identity) db_err unit :=
  stmt (λ s, Ok (tt, set_recovery_codes (filter (λ kv, RcUserID kv.2 ≠ userID)) (tables s))).

Definition insert_code (userID hash : string) : M (session identity) db_err unit :=
  stmt (λ s,
    let id := gen_uuid (tick s) in
    match users (tables s) !! userID, recovery_codes (tables s) !! id with
    | None, _ => Err ErrForeignKey
    | _, Some _ => Err ErrUnique
    | Some _, None =>
        Ok (tt, set_recovery_codes
          (<[id := {| RcUserID := userID; RcCodeHash := hash; RcUsedAt := None |}]>) (tables s))
    end).
Fixpoint insert_codes (userID : string) (hashes : list string) : M (session identity) db_err unit :=
  match hashes with
  | [] => ret tt
  | h :: hashes => insert_code userID h ;;; insert_codes userID hashes
  end.

(** In a transaction of its own, whatever transaction the caller has. *)
Definition CreateRecoveryCodes (userID : string) (hashes : list string) :
    M (session identity) db_err unit :=
  with_pool_tx (DeleteRecoveryCodes userID ;;; insert_codes userID hashes).

Definition unused_code (userID : string) (x : recovery_code) : bool :=
  String.eqb (RcUserID x) userID && is_none (RcUsedAt x).

(** The claim of one code, atomic. *)
Definition claim_code (id : string) : M (session identity) db_err bool :=
  stmt (λ s,
    match recovery_codes (tables s) !! id with
    | Some x => if is_none (RcUsedAt x)
                then Ok (true, set_recovery_codes (<[id := set_code_used (sql_now s) x]>) (tables s))
                else Ok (false, tables s)
    | None => Ok (false, tables s)
    end).
(** The first candidate the code matches is the one claimed. *)
Fixpoint consume_loop (code : string) (candidates : list (string * recovery_code)) :
    M (session identity) db_err bool :=
  match candidates with
  | [] => ret false
  | (id, x) :: candidates =>
      if VerifyPassword (RcCodeHash x) code then claim_code id else consume_loop code candidates
  end.
Definition ConsumeRecoveryCode (userID code : string) : M (session identity) db_err bool :=
  candidates <- query (λ s,
    filter (λ kv, unused_code userID kv.2 = true) (map_to_list (recovery_codes (tables s)))) ;;
  consume_loop code candidates.

(** ** TwoFactorChallengeRepository *)

Definition CreateChallenge (userID : string) (ttl : Z) : M (session identity) db_err (string * Z) :=
  stmt (λ s,
    let id := gen_uuid (tick s) in
    let now := sql_now s in
    match users (tables s) !! userID, challenges (tables s) !! id with
    | None, _ => Err ErrForeignKey
    | _, Some _ => Err ErrUnique
    | Some _, None =>
        Ok ((id, now + ttl), set_challenges (<[id :=
          {| TfcID := id; TfcUserID := userID; TfcExpiresAt := now + ttl; TfcUsedAt := None;
             TfcCreatedAt := now |}]>) (tables s))
    end).

Definition Lookup (jti : string) : M (session identity) db_err TwoFactorChallenge :=
  row <- query (λ s, challenges (tables s) !! jti) ;;
  or_not_found row.

(** The account whose challenge was claimed, None when there was nothing to
    claim. *)
Definition MarkUsed (jti : string) : M (session identity) db_err (option string) :=
  stmt (λ s,
    match challenges (tables s) !! jti with
    | Some x =>
        if is_none (TfcUsedAt x) && (sql_now s <? TfcExpiresAt x)
        then Ok (Some (TfcUserID x),
                 set_challenges (<[jti := set_challenge_used (sql_now s) x]>) (tables s))
        else Ok (None, tables s)
    | None => Ok (None, tables s)
    end).

(** ** NotificationPreferenceRepository *)

Definition NotificationTypeIncidentOpened : string := "incident_opened".
Definition NotificationTypeIncidentResolved : string := "incident_resolved".
Definition NotificationTypeWeeklyDigest : string := "weekly_digest".
Definition NotificationTypeDomainExpiring : string := "domain_expiring".
Definition NotificationTypeDomainNSDrift : string := "domain_ns_drift".

Definition notificationDefaultEnabled : gmap string bool :=
  {[NotificationTypeIncidentOpened := true; NotificationTypeIncidentResolved := true;
    NotificationTypeWeeklyDigest := false; NotificationTypeDomainExpiring := true;
    NotificationTypeDomainNSDrift := true]}.
(** A missing key of a Go map is false. *)
Definition NotificationDefaultEnabled (notificationType : string) : bool :=
  default false (notificationDefaultEnabled !! notificationType).

(** The stored toggles of an account, by type. *)
Definition GetPreferences (userID : string) : M (session identity) db_err (gmap string bool) :=
  query (λ s, list_to_map (prod_map snd id <$>
    filter (λ kv, kv.1.1 = userID) (map_to_list (notification_preferences (tables s))))).

Definition upsert_one (userID notificationType : string) (enabled : bool) :
    M (session identity) db_err unit :=
  stmt (λ s,
    if negb (bool_decide (is_Some (notificationDefaultEnabled !! notificationType))) then Err ErrCheck
    else match users (tables s) !! userID with
         | None => Err ErrForeignKey
         | Some _ => Ok (tt, set_notification_preferences
                           (<[(userID, notificationType) := enabled]>) (tables s))
         end).
(** Ranges over a Go map: the order of [values] is any. *)
Fixpoint Upsert (userID : string) (values : list (string * bool)) : M (session identity) db_err unit :=
  match values with
  | [] => ret tt
  | (t, enabled) :: values => upsert_one userID t enabled ;;; Upsert userID values
  end.

Definition resolve_enabled (stored : gmap string bool) (notificationType userID : string) : bool :=
  match stored !! userID with
  | Some enabled => enabled
  | None => NotificationDefaultEnabled notificationType
  end.
Definition ResolveEnabledForUsers (userIDs : list string) (notificationType : string) :
    M (session identity) db_err (gmap string bool) :=
  match userIDs with
  | [] => ret ∅
  | _ =>
      stored <- query (λ s, list_to_map (prod_map fst id <$>
        filter (λ kv, kv.1.2 = notificationType ∧ kv.1.1 ∈ userIDs)
          (map_to_list (notification_preferences (tables s))))) ;;
      ret (list_to_map ((λ u, (u, resolve_enabled stored notificationType u)) <$> userIDs))
  end.
End two_factor.
