(* ===== verification/LLMProviders.v ===== *)
(** * Provider tables and LLMProviderRepository (db/llm_provider_repository.go)

    email_providers and llm_providers hold one row per tenant and provider,
    email_settings and llm_settings name the active one; a composite foreign key
    ties it to a row of the same tenant and clears it when the row goes (migrations
    0016, 0021, 0024, 0039).  All four tables have tenant_isolation policies.  After
    them the repository of the language model's: the credentials, the model chosen,
    the active provider and the root-cause toggle. *)

From stdpp Require Import numbers strings gmap list sorting.
From Stdlib Require Import ZArith Lia.
From S2P Require Import Prelude GoNum Db.

#[local] Open Scope Z_scope.
#[local] Open Scope go_scope.

(** ** Rows *)

Record EmailProvider := {
  EpID : string;
  EpProvider : string;
  EpEncryptedAPIKey : string;
  EpFromEmail : string;
  EpFromName : string;
  EpStatus : string;
  EpLastCheckedAt : option Z;
  EpLastError : option string;
}.

Record LLMProvider := {
  LpID : string;
  LpProvider : string;
  LpEncryptedAPIKey : string;
  LpModel : string;
  LpStatus : string;
  LpLastCheckedAt : option Z;
  LpLastError : option string;
}.

Record llm_settings_row := {
  LsActiveProvider : option string;
  LsRootCauseEnrichmentEnabled : bool;
}.

(** Keyed by (tenant_id, provider), the settings by tenant_id. *)
Record providers_db := {
  email_providers : gmap (string * string) EmailProvider;
  email_settings : gmap string (option string);
  llm_providers : gmap (string * string) LLMProvider;
  llm_settings : gmap string llm_settings_row;
}.

Definition set_email_providers (f : gmap (string * string) EmailProvider → gmap (string * string) EmailProvider)
    (d : providers_db) : providers_db :=
  {| email_providers := f (email_providers d); email_settings := email_settings d;
     llm_providers := llm_providers d; llm_settings := llm_settings d |}.
Definition set_email_settings (f : gmap string (option string) → gmap string (option string))
    (d : providers_db) : providers_db :=
  {| email_providers := email_providers d; email_settings := f (email_settings d);
     llm_providers := llm_providers d; llm_settings := llm_settings d |}.
Definition set_llm_providers (f : gmap (string * string) LLMProvider → gmap (string * string) LLMProvider)
    (d : providers_db) : providers_db :=
  {| email_providers := email_providers d; email_settings := email_settings d;
     llm_providers := f (llm_providers d); llm_settings := llm_settings d |}.
Definition set_llm_settings (f : gmap string llm_settings_row → gmap string llm_settings_row)
    (d : providers_db) : providers_db :=
  {| email_providers := email_providers d; email_settings := email_settings d;
     llm_providers := llm_providers d; llm_settings := f (llm_settings d) |}.

Definition empty_providers : providers_db :=
  {| email_providers := ∅; email_settings := ∅; llm_providers := ∅; llm_settings := ∅ |}.

(** ** Rows by provider *)

Section rows.
Context `{!Driver} {R : Type}.
Implicit Types s : session providers_db.

(** The rows of a table the session sees, ORDER BY provider. *)
Definition by_provider (x y : string * R) : Prop := Is_true (text_le x.1 y.1).
#[global] Instance by_provider_dec : RelDecision by_provider.
Proof. intros x y. unfold by_provider. apply _. Defined.

Definition seen_rows (tbl : gmap (string * string) R) s : list (string * R) :=
  (λ kv, (kv.1.2, kv.2)) <$> filter (λ kv, visible s kv.1.1 = true) (map_to_list tbl).
Definition listed (tbl : gmap (string * string) R) s : list R :=
  snd <$> merge_sort by_provider (seen_rows tbl s).
(** WHERE provider = [p] *)
Definition row_of (p : string) (tbl : gmap (string * string) R) s : option R :=
  snd <$> head (filter (λ kv, kv.1 = p) (seen_rows tbl s)).

(** UPDATE ... WHERE provider = [p] *)
Definition rewrite_rows (p : string) (f : R → R) s (tbl : gmap (string * string) R) : gmap (string * string) R :=
  map_imap (λ k r, Some (if visible s k.1 && String.eqb k.2 p then f r else r)) tbl.

(** No other row has this id. *)
Definition id_free (id_of : R → string) (id : string) (tbl : gmap (string * string) R) : bool :=
  bool_decide (filter (λ kv, id_of kv.2 = id) (map_to_list tbl) = []).
End rows.

(** ** LLMProviderRepository *)

Module Llm.
Section repository.
Context `{!Driver}.

Definition provider_check (provider : string) : bool := bool_decide (provider ∈ ["openai"]).

Definition set_state (status : string → string) (now : Z) (err : option string) (x : LLMProvider) : LLMProvider :=
  {| LpID := LpID x; LpProvider := LpProvider x; LpEncryptedAPIKey := LpEncryptedAPIKey x;
     LpModel := LpModel x; LpStatus := status (LpStatus x); LpLastCheckedAt := Some now; LpLastError := err |}.
Definition set_model (model : string) (x : LLMProvider) : LLMProvider :=
  {| LpID := LpID x; LpProvider := LpProvider x; LpEncryptedAPIKey := LpEncryptedAPIKey x;
     LpModel := model; LpStatus := LpStatus x; LpLastCheckedAt := LpLastCheckedAt x; LpLastError := LpLastError x |}.

Definition UpsertProvider (provider encryptedAPIKey model : string) : M (session providers_db) db_err unit :=
  stmt (λ s,
    match default_tenant s with
    | Err e => Err e
    | Ok t =>
        if negb (provider_check provider) then Err ErrCheck
        else
          let id := gen_uuid (tick s) in
          match llm_providers (tables s) !! (t, provider) with
          | Some old =>
              Ok (tt, set_llm_providers (<[(t, provider) :=
                {| LpID := LpID old; LpProvider := LpProvider old; LpEncryptedAPIKey := encryptedAPIKey;
                   LpModel := model; LpStatus := "connected"; LpLastCheckedAt := Some (sql_now s);
                   LpLastError := None |}]>) (tables s))
          | None =>
              if id_free LpID id (llm_providers (tables s)) then
                Ok (tt, set_llm_providers (<[(t, provider) :=
                  {| LpID := id; LpProvider := provider; LpEncryptedAPIKey := encryptedAPIKey;
                     LpModel := model; LpStatus := "connected"; LpLastCheckedAt := None;
                     LpLastError := None |}]>) (tables s))
              else Err ErrUnique
          end
    end).

Definition Get (provider : string) : M (session providers_db) db_err LLMProvider :=
  row <- query (λ s, row_of provider (llm_providers (tables s)) s) ;;
  or_not_found row.

Definition ListPaginated (page pageSize : Z) : M (session providers_db) db_err (list LLMProvider * Z) :=
  paginated (λ s, listed (llm_providers (tables s)) s) page pageSize.
Definition countLLMProviders : M (session providers_db) db_err Z :=
  query (λ s, Z.of_nat (length (listed (llm_providers (tables s)) s))).

(** The settings row of the active tenant, when there is one. *)
Definition own_settings (s : session providers_db) : option llm_settings_row :=
  if String.eqb (app_tenant s) "" then None else llm_settings (tables s) !! app_tenant s.

Definition GetActiveProvider : M (session providers_db) db_err string :=
  query (λ s, default "" (own_settings s ≫= LsActiveProvider)).

(** INSERT ... ON CONFLICT (tenant_id) DO UPDATE, the other column at its default. *)
Definition upsert_settings (t : string) (f : llm_settings_row → llm_settings_row) (d : providers_db) : providers_db :=
  set_llm_settings (λ m, <[t := f (default {| LsActiveProvider := None; LsRootCauseEnrichmentEnabled := false |}
                                     (m !! t))]> m) d.

Definition SetActiveProvider (provider : string) : M (session providers_db) db_err unit :=
  stmt (λ s,
    match default_tenant s with
    | Err e => Err e
    | Ok t =>
        match llm_providers (tables s) !! (t, provider) with
        | None => Err ErrForeignKey
        | Some _ => Ok (tt, upsert_settings t (λ r, {| LsActiveProvider := Some provider;
                              LsRootCauseEnrichmentEnabled := LsRootCauseEnrichmentEnabled r |}) (tables s))
        end
    end).

Definition RootCauseEnrichmentEnabled : M (session providers_db) db_err bool :=
  query (λ s, default false (LsRootCauseEnrichmentEnabled <$> own_settings s)).
Definition SetRootCauseEnrichmentEnabled (enabled : bool) : M (session providers_db) db_err unit :=
  stmt (λ s,
    match default_tenant s with
    | Err e => Err e
    | Ok t => Ok (tt, upsert_settings t (λ r, {| LsActiveProvider := LsActiveProvider r;
                        LsRootCauseEnrichmentEnabled := enabled |}) (tables s))
    end).

Definition clear_active (t provider : string) (m : gmap string llm_settings_row) : gmap string llm_settings_row :=
  match m !! t with
  | Some r =>
      if bool_decide (LsActiveProvider r = Some provider)
      then <[t := {| LsActiveProvider := None; LsRootCauseEnrichmentEnabled := LsRootCauseEnrichmentEnabled r |}]> m
      else m
  | None => m
  end.
Definition DeleteProvider (provider : string) : M (session providers_db) db_err unit :=
  stmt (λ s,
    let t := app_tenant s in
    if String.eqb t "" then Ok (tt, tables s)
    else Ok (tt, set_llm_settings (clear_active t provider)
                   (set_llm_providers (delete (t, provider)) (tables s)))).

(** UPDATE llm_providers SET ... WHERE provider = [p] *)
Definition update_rows (p : string) (f : session providers_db → LLMProvider → LLMProvider) :
    M (session providers_db) db_err unit :=
  stmt (λ s, Ok (tt, set_llm_providers (rewrite_rows p (f s) s) (tables s))).

Definition UpdateModel (provider model : string) := update_rows provider (λ _, set_model model).
Definition MarkInvalid (provider lastError : string) :=
  update_rows provider (λ s, set_state (λ _, "invalid") (sql_now s) (Some lastError)).
Definition MarkChecked (provider : string) :=
  update_rows provider (λ s, set_state (λ _, "connected") (sql_now s) None).
Definition MarkTransientFailure (provider lastError : string) :=
  update_rows provider (λ s, set_state id (sql_now s) (Some lastError)).
End repository.
End Llm.
