(* ===== verification/Providers.v ===== *)
(** * EmailProviderRepository (db/email_provider_repository.go), and what both keep

    The tenant's mail credentials and its active provider, over the tables of
    LLMProviders.v; then the invariant of the four tables and what every operation of
    both repositories does to them. *)

From stdpp Require Import numbers strings gmap list sorting.
From Stdlib Require Import ZArith Lia.
From S2P Require Import Prelude GoNum Db LLMProviders.

#[local] Open Scope Z_scope.
#[local] Open Scope go_scope.

(** ** EmailProviderRepository *)

Module Email.
Section repository.
Context `{!Driver}.

(** The provider column's CHECK. *)
Definition provider_check (provider : string) : bool := bool_decide (provider ∈ ["sendgrid"; "resend"]).

Definition UpsertProvider (provider encryptedAPIKey fromEmail fromName : string) :
    M (session providers_db) db_err unit :=
  stmt (λ s,
    match default_tenant s with
    | Err e => Err e
    | Ok t =>
        if negb (provider_check provider) then Err ErrCheck
        else
          let id := gen_uuid (tick s) in
          match email_providers (tables s) !! (t, provider) with
          | Some old =>
              Ok (tt, set_email_providers (<[(t, provider) :=
                {| EpID := EpID old; EpProvider := EpProvider old; EpEncryptedAPIKey := encryptedAPIKey;
                   EpFromEmail := fromEmail; EpFromName := fromName; EpStatus := "connected";
                   EpLastCheckedAt := Some (sql_now s); EpLastError := None |}]>) (tables s))
          | None =>
              if id_free EpID id (email_providers (tables s)) then
                Ok (tt, set_email_providers (<[(t, provider) :=
                  {| EpID := id; EpProvider := provider; EpEncryptedAPIKey := encryptedAPIKey;
                     EpFromEmail := fromEmail; EpFromName := fromName; EpStatus := "connected";
                     EpLastCheckedAt := None; EpLastError := None |}]>) (tables s))
              else Err ErrUnique
          end
    end).

Definition Get (provider : string) : M (session providers_db) db_err EmailProvider :=
  row <- query (λ s, row_of provider (email_providers (tables s)) s) ;;
  or_not_found row.

Definition ListPaginated (page pageSize : Z) : M (session providers_db) db_err (list EmailProvider * Z) :=
  paginated (λ s, listed (email_providers (tables s)) s) page pageSize.
Definition countEmailProviders : M (session providers_db) db_err Z :=
  query (λ s, Z.of_nat (length (listed (email_providers (tables s)) s))).

(** The tenant filter is explicit: nobody's without app.tenant_id. *)
Definition GetActiveProvider : M (session providers_db) db_err string :=
  query (λ s, if String.eqb (app_tenant s) "" then ""
              else match email_settings (tables s) !! app_tenant s with
                   | Some (Some provider) => provider
                   | _ => ""
                   end).

Definition SetActiveProvider (provider : string) : M (session providers_db) db_err unit :=
  stmt (λ s,
    match default_tenant s with
    | Err e => Err e
    | Ok t =>
        match email_providers (tables s) !! (t, provider) with
        | None => Err ErrForeignKey
        | Some _ => Ok (tt, set_email_settings (<[t := Some provider]>) (tables s))
        end
    end).

(** ON DELETE SET NULL (active_provider). *)
Definition clear_active (t provider : string) (m : gmap string (option string)) : gmap string (option string) :=
  match m !! t with
  | Some (Some p) => if String.eqb p provider then <[t := None]> m else m
  | _ => m
  end.
Definition DeleteProvider (provider : string) : M (session providers_db) db_err unit :=
  stmt (λ s,
    let t := app_tenant s in
    if String.eqb t "" then Ok (tt, tables s)
    else Ok (tt, set_email_settings (clear_active t provider)
                   (set_email_providers (delete (t, provider)) (tables s)))).
End repository.
End Email.

(** ** What every operation keeps

    The active provider of a tenant is one it has connected, a row is filed under
    its own provider, and a tenant's rows change only on its own session. *)

Record providers_wf (d : providers_db) : Prop := {
  pw_email_key t p r : email_providers d !! (t, p) = Some r → EpProvider r = p;
  pw_email_active t p : email_settings d !! t = Some (Some p) → is_Some (email_providers d !! (t, p));
  pw_llm_key t p r : llm_providers d !! (t, p) = Some r → LpProvider r = p;
  pw_llm_active t r p : llm_settings d !! t = Some r → LsActiveProvider r = Some p →
    is_Some (llm_providers d !! (t, p));
}.

(** The rows of a tenant. *)
Record same_providers (u : string) (d d' : providers_db) : Prop := {
  sp_email p : email_providers d' !! (u, p) = email_providers d !! (u, p);
  sp_email_settings : email_settings d' !! u = email_settings d !! u;
  sp_llm p : llm_providers d' !! (u, p) = llm_providers d !! (u, p);
  sp_llm_settings : llm_settings d' !! u = llm_settings d !! u;
}.

#[export] Instance same_providers_preorder u : PreOrder (same_providers u).
Proof.
  split; [by intros d|]. intros d1 d2 d3 [E1 E2 E3 E4] [F1 F2 F3 F4].
  split; intros; rewrite ?F1, ?F2, ?F3, ?F4; done.
Qed.

(** A step on a session of tenant [t]: well-formedness is kept, and under row
    security the other tenants' rows are the same. *)
Definition pstep (t : string) (bypass : bool) (d d' : providers_db) : Prop :=
  (providers_wf d → providers_wf d') ∧ (bypass = false → ∀ u, u ≠ t → same_providers u d d').

#[export] Instance pstep_preorder t b : PreOrder (pstep t b).
Proof.
  split; [done|]. intros d1 d2 d3 [H1 H2] [H3 H4]. split; [auto|].
  intros Hb u Hu. etrans; eauto.
Qed.

Section keeps.
Context `{!Driver}.
Implicit Types s : session providers_db.

Lemma own_tenant s t : default_tenant s = Ok t → t = app_tenant s.
Proof. unfold default_tenant. case_match; congruence. Qed.

(** A write on the tenant's own keys. *)
Lemma email_insert_step t b d p r :
  EpProvider r = p → pstep t b d (set_email_providers (<[(t, p) := r]>) d).
Proof.
  intros <-. split.
  - intros [H1 H2 H3 H4]. split; cbn; [|intros t' p' Hs|done|done].
    + intros t' p' r' [[[= <- <-] <-]|[_ Hr]]%lookup_insert_Some; eauto.
    + apply lookup_insert_is_Some'. right. eauto.
  - intros _ u Hu. split; [|done..]. intros p'. cbn. rewrite lookup_insert_ne; congruence.
Qed.
Lemma llm_insert_step t b d p r :
  LpProvider r = p → pstep t b d (set_llm_providers (<[(t, p) := r]>) d).
Proof.
  intros <-. split.
  - intros [H1 H2 H3 H4]. split; cbn; [done|done| |intros t' r' p' Hs Hp].
    + intros t' p' r' [[[= <- <-] <-]|[_ Hr]]%lookup_insert_Some; eauto.
    + apply lookup_insert_is_Some'. right. eauto.
  - intros _ u Hu. split; [done|done| |done]. intros p'. cbn. rewrite lookup_insert_ne; congruence.
Qed.

Lemma email_active_step t b d p r :
  email_providers d !! (t, p) = Some r → pstep t b d (set_email_settings (<[t := Some p]>) d).
Proof.
  intros Hr. split.
  - intros [H1 H2 H3 H4]. split; cbn; [done| |done|done].
    intros t' p' [[<- [= <-]]|[_ Hs]]%lookup_insert_Some; eauto.
  - intros _ u Hu. split; [done| |done|done]. cbn. by rewrite lookup_insert_ne.
Qed.
Lemma llm_settings_step t b d f :
  (∀ r p, LsActiveProvider (f r) = Some p →
     LsActiveProvider r = Some p ∨ is_Some (llm_providers d !! (t, p))) →
  pstep t b d (Llm.upsert_settings t f d).
Proof.
  intros Hf. split.
  - intros [H1 H2 H3 H4]. split; cbn; [done..|].
    intros t' r p [[<- <-]|[_ Hs]]%lookup_insert_Some Hp; [|eauto].
    destruct (Hf _ _ Hp) as [Hd|?]; [|done].
    destruct (llm_settings d !! t) as [r0|] eqn:E; [by eapply H4|done].
  - intros _ u Hu. split; [done..|]. cbn. by rewrite lookup_insert_ne.
Qed.

Lemma email_delete_step t b d p :
  pstep t b d (set_email_settings (Email.clear_active t p) (set_email_providers (delete (t, p)) d)).
Proof.
  assert (∀ u, u ≠ t → Email.clear_active t p (email_settings d) !! u = email_settings d !! u) as Hne.
  { intros u Hu. unfold Email.clear_active. repeat case_match; try done. by rewrite lookup_insert_ne. }
  split.
  - intros [H1 H2 H3 H4]. split; cbn; [|intros t' p' Hs|done|done].
    + intros t' p' r [_ Hr]%lookup_delete_Some. eauto.
    + destruct (decide (t' = t)) as [->|Hn].
      * unfold Email.clear_active in Hs. rewrite lookup_delete_ne; [apply H2|];
          (destruct (email_settings d !! t) as [[p0|]|] eqn:E; [|congruence..]);
          (destruct (String.eqb_spec p0 p) as [->|Hp]; [by rewrite lookup_insert_eq in Hs|]); congruence.
      * rewrite Hne in Hs by done. rewrite lookup_delete_ne by congruence. eauto.
  - intros _ u Hu. split; [|by apply Hne|done|done]. intros p'. cbn. rewrite lookup_delete_ne; congruence.
Qed.
Lemma llm_delete_step t b d p :
  pstep t b d (set_llm_settings (Llm.clear_active t p) (set_llm_providers (delete (t, p)) d)).
Proof.
  assert (∀ u, u ≠ t → Llm.clear_active t p (llm_settings d) !! u = llm_settings d !! u) as Hne.
  { intros u Hu. unfold Llm.clear_active. repeat case_match; try done. by rewrite lookup_insert_ne. }
  split.
  - intros [H1 H2 H3 H4]. split; cbn; [done|done| |intros t' r p' Hs Hp].
    + intros t' p' r [_ Hr]%lookup_delete_Some. eauto.
    + destruct (decide (t' = t)) as [->|Hn].
      * unfold Llm.clear_active in Hs. destruct (llm_settings d !! t) as [r0|] eqn:E; [|congruence].
        case_bool_decide as Hb; [by rewrite lookup_insert_eq in Hs; injection Hs as <-|].
        rewrite E in Hs. injection Hs as ->. rewrite lookup_delete_ne; [by eapply H4|]. congruence.
      * rewrite Hne in Hs by done. rewrite lookup_delete_ne by congruence. eauto.
  - intros _ u Hu. split; [done|done| |by apply Hne]. intros p'. cbn. rewrite lookup_delete_ne; congruence.
Qed.

(** UPDATE rewrites what the session sees. *)
Lemma rewrite_rows_step s p f :
  (∀ r, LpProvider (f r) = LpProvider r) →
  pstep (app_tenant s) (bypass_rls s) (tables s) (set_llm_providers (rewrite_rows p f s) (tables s)).
Proof.
  intros Hf. set (d := tables s).
  assert (∀ k, rewrite_rows p f s (llm_providers d) !! k =
            (λ r, if visible s k.1 && String.eqb k.2 p then f r else r) <$> llm_providers d !! k) as Hl.
  { intros k. unfold rewrite_rows. rewrite map_lookup_imap. by destruct (llm_providers d !! k). }
  split.
  - intros [H1 H2 H3 H4]. split; cbn; [done|done| |].
    + intros t' p' r. rewrite Hl. destruct (llm_providers d !! (t', p')) as [r0|] eqn:E; [|done].
      cbn. intros [= <-]. case_match; rewrite ?Hf; eauto.
    + intros t' r p' Hs Hp. rewrite Hl. apply fmap_is_Some. eauto.
  - intros Hb u Hu. split; [done|done| |done]. intros p'. cbn. rewrite Hl. unfold visible. rewrite Hb. cbn.
    rewrite (proj2 (String.eqb_neq u (app_tenant s)) Hu), andb_false_r. cbn. by destruct (_ !! _).
Qed.

Ltac by_step :=
  apply (preserves_stmt pstep); intros s a d Hf; revert Hf; cbn zeta;
  repeat case_match; intros; simplify_eq;
  repeat match goal with E : default_tenant _ = Ok _ |- _ => apply own_tenant in E; subst end.

Lemma email_upsert_keeps p k e n : preserves pstep (Email.UpsertProvider p k e n).
Proof.
  apply (preserves_stmt pstep). intros s a d. destruct (default_tenant s) as [t|] eqn:Et; [|done].
  apply own_tenant in Et as ->. destruct (negb _); [done|]. intros Hf.
  destruct (email_providers (tables s) !! (app_tenant s, p)) as [old|] eqn:E.
  - injection Hf as <- <-. split.
    + intros Hw. apply (email_insert_step (app_tenant s) true); [|done]. by apply (pw_email_key _ Hw) in E.
    + intros _ u Hu. split; [|done..]. intros p'. cbn. rewrite lookup_insert_ne; congruence.
  - cbn zeta in Hf. revert Hf. case_match; [|done]. intros Hf. injection Hf as <- <-. by apply email_insert_step.
Qed.
Lemma llm_upsert_keeps p k m : preserves pstep (Llm.UpsertProvider p k m).
Proof.
  apply (preserves_stmt pstep). intros s a d. destruct (default_tenant s) as [t|] eqn:Et; [|done].
  apply own_tenant in Et as ->. destruct (negb _); [done|]. intros Hf.
  destruct (llm_providers (tables s) !! (app_tenant s, p)) as [old|] eqn:E.
  - injection Hf as <- <-. split.
    + intros Hw. apply (llm_insert_step (app_tenant s) true); [|done]. by apply (pw_llm_key _ Hw) in E.
    + intros _ u Hu. split; [done|done| |done]. intros p'. cbn. rewrite lookup_insert_ne; congruence.
  - cbn zeta in Hf. revert Hf. case_match; [|done]. intros Hf. injection Hf as <- <-. by apply llm_insert_step.
Qed.
Lemma email_set_active_keeps p : preserves pstep (Email.SetActiveProvider p).
Proof. by_step. by eapply email_active_step. Qed.
Lemma llm_set_active_keeps p : preserves pstep (Llm.SetActiveProvider p).
Proof. by_step. apply llm_settings_step. cbn. intros ? ? [= <-]. right. eauto. Qed.
Lemma llm_set_root_cause_keeps b : preserves pstep (Llm.SetRootCauseEnrichmentEnabled b).
Proof. by_step. apply llm_settings_step. cbn. auto. Qed.
Lemma email_delete_keeps p : preserves pstep (Email.DeleteProvider p).
Proof. by_step; [done|apply email_delete_step]. Qed.
Lemma llm_delete_keeps p : preserves pstep (Llm.DeleteProvider p).
Proof. by_step; [done|apply llm_delete_step]. Qed.
Lemma llm_update_keeps p f : (∀ s r, LpProvider (f s r) = LpProvider r) → preserves pstep (Llm.update_rows p f).
Proof. intros Hf. apply (preserves_stmt pstep). intros s a d [= <- <-]. by apply rewrite_rows_step. Qed.
End keeps.

#[export] Hint Resolve email_upsert_keeps llm_upsert_keeps email_set_active_keeps llm_set_active_keeps
  llm_set_root_cause_keeps email_delete_keeps llm_delete_keeps : vane.
