(* ===== verification/Tenants.v ===== *)
(** * Tenants and the audit log (internal/db/tenant_repository.go, audit)

    TenantRepository, SystemTenantLister and the audit log.  The tenants table's
    policy shows a session its own tenant only; the listing of all of them runs
    in a system transaction of its own. *)

From stdpp Require Import numbers strings gmap list sorting.
From Stdlib Require Import ZArith Lia Ascii.
From S2P Require Import Prelude GoNum Db Identity Secrets Auth Accounts.

#[local] Open Scope Z_scope.
#[local] Open Scope go_scope.

(** ** Columns *)

Definition legacyDataTenantID : string := "00000000-0000-0000-0000-000000000000".

Definition logoServedPath : string := "/uploads/logo".
Definition LogoServedURL (t : Tenant) : option string :=
  match TenLogoContentType t with None => None | Some _ => Some logoServedPath end.

(** INSERT INTO tenants (id, name, contact_email): the rest are defaults. *)
Definition new_tenant (id name contact : string) (now : Z) : Tenant :=
  {| TenID := id; TenName := name; TenSlug := None; TenPlan := "free"; TenStatus := "active";
     TenContactEmail := contact; TenLogoData := None; TenLogoContentType := None;
     TenLegalName := None; TenTaxID := None; TenTaxIDType := None; TenBillingAddress := None;
     TenLocale := "pt-BR"; TenPrimaryColor := None; TenSecondaryColor := None; TenWebsite := None;
     TenTimezone := None; TenDeletedAt := None; TenCreatedAt := now; TenLastDigestSentAt := None |}.

(** None leaves a column unchanged. *)
Record TenantUpdate := {
  UpName : option string;
  UpContactEmail : option string;
  UpLegalName : option string;
  UpTaxID : option string;
  UpTaxIDType : option string;
  UpWebsite : option string;
  UpTimezone : option string;
  UpBillingAddress : option string;
}.

Definition coalesce {A} (x : option A) (y : A) : A := default y x.
Definition or_else {A} (x y : option A) : option A := match x with Some _ => x | None => y end.

Definition apply_update (u : TenantUpdate) (t : Tenant) : Tenant :=
  {| TenID := TenID t; TenName := coalesce (UpName u) (TenName t); TenSlug := TenSlug t;
     TenPlan := TenPlan t; TenStatus := TenStatus t;
     TenContactEmail := coalesce (UpContactEmail u) (TenContactEmail t);
     TenLogoData := TenLogoData t; TenLogoContentType := TenLogoContentType t;
     TenLegalName := or_else (UpLegalName u) (TenLegalName t);
     TenTaxID := or_else (UpTaxID u) (TenTaxID t);
     TenTaxIDType := or_else (UpTaxIDType u) (TenTaxIDType t);
     TenBillingAddress := or_else (UpBillingAddress u) (TenBillingAddress t);
     TenLocale := TenLocale t; TenPrimaryColor := TenPrimaryColor t;
     TenSecondaryColor := TenSecondaryColor t; TenWebsite := or_else (UpWebsite u) (TenWebsite t);
     TenTimezone := or_else (UpTimezone u) (TenTimezone t); TenDeletedAt := TenDeletedAt t;
     TenCreatedAt := TenCreatedAt t; TenLastDigestSentAt := TenLastDigestSentAt t |}.
Definition set_logo (contentType data : string) (t : Tenant) : Tenant :=
  {| TenID := TenID t; TenName := TenName t; TenSlug := TenSlug t; TenPlan := TenPlan t;
     TenStatus := TenStatus t; TenContactEmail := TenContactEmail t; TenLogoData := Some data;
     TenLogoContentType := Some contentType; TenLegalName := TenLegalName t;
     TenTaxID := TenTaxID t; TenTaxIDType := TenTaxIDType t;
     TenBillingAddress := TenBillingAddress t; TenLocale := TenLocale t;
     TenPrimaryColor := TenPrimaryColor t; TenSecondaryColor := TenSecondaryColor t;
     TenWebsite := TenWebsite t; TenTimezone := TenTimezone t; TenDeletedAt := TenDeletedAt t;
     TenCreatedAt := TenCreatedAt t; TenLastDigestSentAt := TenLastDigestSentAt t |}.
Definition set_deleted (now : Z) (t : Tenant) : Tenant :=
  {| TenID := TenID t; TenName := TenName t; TenSlug := TenSlug t; TenPlan := TenPlan t;
     TenStatus := "deleted"; TenContactEmail := TenContactEmail t; TenLogoData := TenLogoData t;
     TenLogoContentType := TenLogoContentType t; TenLegalName := TenLegalName t;
     TenTaxID := TenTaxID t; TenTaxIDType := TenTaxIDType t;
     TenBillingAddress := TenBillingAddress t; TenLocale := TenLocale t;
     TenPrimaryColor := TenPrimaryColor t; TenSecondaryColor := TenSecondaryColor t;
     TenWebsite := TenWebsite t; TenTimezone := TenTimezone t; TenDeletedAt := Some now;
     TenCreatedAt := TenCreatedAt t; TenLastDigestSentAt := TenLastDigestSentAt t |}.
Definition set_digest_sent (at_ : Z) (t : Tenant) : Tenant :=
  {| TenID := TenID t; TenName := TenName t; TenSlug := TenSlug t; TenPlan := TenPlan t;
     TenStatus := TenStatus t; TenContactEmail := TenContactEmail t; TenLogoData := TenLogoData t;
     TenLogoContentType := TenLogoContentType t; TenLegalName := TenLegalName t;
     TenTaxID := TenTaxID t; TenTaxIDType := TenTaxIDType t;
     TenBillingAddress := TenBillingAddress t; TenLocale := TenLocale t;
     TenPrimaryColor := TenPrimaryColor t; TenSecondaryColor := TenSecondaryColor t;
     TenWebsite := TenWebsite t; TenTimezone := TenTimezone t; TenDeletedAt := TenDeletedAt t;
     TenCreatedAt := TenCreatedAt t; TenLastDigestSentAt := Some at_ |}.

(** ** Tax ids *)

Definition cpfDigitCount : nat := 11.
Definition cnpjDigitCount : nat := 14.

(** The digits of a tax id: a rune outside ASCII has no byte that is one. *)
Fixpoint count_digits (s : string) : nat :=
  match s with
  | EmptyString => 0
  | String a s => (if phone_digit a then 1 else 0) + count_digits s
  end%nat.
(** Whether validateTaxID returns nil. *)
Definition validateTaxID (taxID taxIDType : option string) : bool :=
  match taxID, taxIDType with
  | Some id, Some ty =>
      let digits := count_digits id in
      if String.eqb ty "cpf" then bool_decide (digits = cpfDigitCount)
      else if String.eqb ty "cnpj" then bool_decide (digits = cnpjDigitCount)
      else false
  | _, _ => true
  end.
(** The column's CHECK. *)
Definition tax_id_type_check (t : Tenant) : bool :=
  match TenTaxIDType t with None => true | Some ty => bool_decide (ty ∈ ["cpf"; "cnpj"]) end.

Section tenants.
Context `{!Driver}.

(** ** TenantRepository *)

Definition insert_tenant (id name contact : string) : M (session identity) db_err Tenant :=
  stmt (λ s,
    let row := new_tenant id name contact (sql_now s) in
    if negb (visible s id) then Err ErrRowSecurity
    else match tenants (tables s) !! id with
         | Some _ => Err ErrUnique
         | None => Ok (row, set_tenants (<[id := row]>) (tables s))
         end).

(** On the caller's tenant transaction, or in one of its own for a fresh id. *)
Definition CreateTenant (id name contact : string) : M (session identity) db_err Tenant :=
  λ s, match tx_start s with
       | Some _ =>
           if String.eqb id "" then (Err ErrNoTenantID, s) else insert_tenant id name contact s
       | None =>
           (id <- query (λ s, gen_uuid (tick s)) ;;
            λ s, match BeginTenantTx "" id s with
                 | (Err e, s) => (Err e, s)
                 | (Ok tx, s) =>
                     match insert_tenant id name contact tx with
                     | (Err e, tx) => (Err e, tx_rollback tx s)
                     | (Ok t, tx) =>
                         match tx_commit tx s with
                         | (Ok _, s) => (Ok t, s)
                         | (Err e, s) => (Err e, s)
                         end
                     end
                 end) s
       end.

Definition seen_tenant (s : session identity) (id : string) : option Tenant :=
  match tenants (tables s) !! id with
  | Some t => if visible s id then Some t else None
  | None => None
  end.
(** The columns every reader selects: the logo's bytes are not among them. *)
Definition tenant_columns (t : Tenant) : Tenant :=
  {| TenID := TenID t; TenName := TenName t; TenSlug := TenSlug t; TenPlan := TenPlan t;
     TenStatus := TenStatus t; TenContactEmail := TenContactEmail t; TenLogoData := None;
     TenLogoContentType := TenLogoContentType t; TenLegalName := TenLegalName t;
     TenTaxID := TenTaxID t; TenTaxIDType := TenTaxIDType t;
     TenBillingAddress := TenBillingAddress t; TenLocale := TenLocale t;
     TenPrimaryColor := TenPrimaryColor t; TenSecondaryColor := TenSecondaryColor t;
     TenWebsite := TenWebsite t; TenTimezone := TenTimezone t; TenDeletedAt := TenDeletedAt t;
     TenCreatedAt := TenCreatedAt t; TenLastDigestSentAt := TenLastDigestSentAt t |}.

Definition GetTenant (id : string) : M (session identity) db_err Tenant :=
  row <- query (λ s, tenant_columns <$> seen_tenant s id) ;;
  or_not_found row.

(** UPDATE tenants ... WHERE id RETURNING. *)
Definition update_tenant (id : string) (p : Tenant → bool) (f : session identity → Tenant → Tenant) :
    M (session identity) db_err (option Tenant) :=
  stmt (λ s,
    match seen_tenant s id with
    | Some t =>
        if p t then
          if tax_id_type_check (f s t)
          then Ok (Some (tenant_columns (f s t)), set_tenants (<[id := f s t]>) (tables s))
          else Err ErrCheck
        else Ok (None, tables s)
    | None => Ok (None, tables s)
    end).

Definition UpdateTenant (id : string) (u : TenantUpdate) : M (session identity) db_err Tenant :=
  if negb (validateTaxID (UpTaxID u) (UpTaxIDType u)) then fail ErrInvalidTaxID
  else row <- update_tenant id (λ _, true) (λ _, apply_update u) ;; or_not_found row.
Definition UpdateLogo (id contentType data : string) : M (session identity) db_err Tenant :=
  row <- update_tenant id (λ _, true) (λ _, set_logo contentType data) ;; or_not_found row.
Definition SoftDeleteTenant (id : string) : M (session identity) db_err unit :=
  row <- update_tenant id (λ t, String.eqb (TenStatus t) "active") (λ s, set_deleted (sql_now s)) ;;
  or_not_found row ;;; ret tt.
Definition MarkDigestSent (id : string) (at_ : Z) : M (session identity) db_err unit :=
  row <- update_tenant id (λ _, true) (λ _, set_digest_sent at_) ;;
  or_not_found row ;;; ret tt.

Definition oldest_tenant (x y : Tenant) : Prop := TenCreatedAt x ≤ TenCreatedAt y.
#[global] Instance oldest_tenant_dec : RelDecision oldest_tenant.
Proof. intros x y. unfold oldest_tenant. apply _. Defined.

(** [activeTenantPredicate]: the session's tenant, the oldest one seen when it
    has none; never the placeholder of old data. *)
Definition active_tenant (s : session identity) : option Tenant :=
  head (merge_sort oldest_tenant
    (filter (λ t, visible s (TenID t) = true ∧ TenID t ≠ legacyDataTenantID ∧
                  (app_tenant s = "" ∨ TenID t = app_tenant s))
      (snd <$> map_to_list (tenants (tables s))))).

Definition Active : M (session identity) db_err Tenant :=
  row <- query (λ s, tenant_columns <$> active_tenant s) ;;
  or_not_found row.

(** Content type, bytes and whether there is a logo. *)
Definition ActiveLogo : M (session identity) db_err (string * string * bool) :=
  query (λ s,
    match active_tenant s with
    | None => ("", "", false)
    | Some t => match TenLogoData t with
                | None => ("", "", false)
                | Some d => (default "" (TenLogoContentType t), d, true)
                end
    end).

(** TenantRepository.List, in a session whose app.is_system is [is_system]. *)
Definition ListTenants (is_system : bool) : M (session identity) db_err (list Tenant) :=
  query (λ s, tenant_columns <$> merge_sort oldest_tenant
    (filter (λ t, (is_system = true ∨ visible s (TenID t) = true) ∧ TenStatus t = "active" ∧
                  TenID t ≠ legacyDataTenantID)
      (snd <$> map_to_list (tenants (tables s))))).

(** SystemTenantLister.List: its transaction sets app.is_system, runs the
    listing and is rolled back. *)
Definition ListAllTenants : M (session identity) db_err (list Tenant) :=
  λ s, if event_fails (tick s) then (Err ErrDriver, bump s)
       else
         let tx := Session (tables s) "" (bypass_rls s) (Some (clock (tick s))) false (S (tick s)) in
         let '(r, tx) := (query (λ _, tt) ;;; ListTenants true) tx in
         (r, tx_rollback tx s).

(** ** The audit log *)

Definition AuditRecord (actorID targetID targetLabel action : string) : M (session identity) db_err unit :=
  stmt (λ s,
    match default_tenant s with
    | Err e => Err e
    | Ok t => Ok (tt, set_audit_log (λ l, l ++ [
        {| AuTenant := t; AuActorID := actorID; AuTargetID := targetID;
           AuTargetLabel := nilIfEmpty targetLabel; AuAction := action;
           AuCreatedAt := sql_now s |}]) (tables s))
    end).

Record AuditLogEntry := {
  AeAction : string;
  AeTargetLabel : option string;
  AeActorName : string;
  AeActorDeleted : bool;
  AeCreatedAt : Z;
}.
Definition newest_audit (x y : audit_row) : Prop := AuCreatedAt y ≤ AuCreatedAt x.
#[global] Instance newest_audit_dec : RelDecision newest_audit.
Proof. intros x y. unfold newest_audit. apply _. Defined.

(** LEFT JOIN users: an actor whose account is gone has no name. *)
Definition audit_entry (s : session identity) (x : audit_row) : AuditLogEntry :=
  let u := users (tables s) !! AuActorID x in
  {| AeAction := AuAction x; AeTargetLabel := AuTargetLabel x;
     AeActorName := match u with Some u => UserName u | None => "" end; AeActorDeleted := is_none u;
     AeCreatedAt := AuCreatedAt x |}.
Definition ListRecent (limit : Z) : M (session identity) db_err (list AuditLogEntry) :=
  stmt (λ s,
    match limit_offset limit 0 (merge_sort newest_audit
            (filter (λ x, visible s (AuTenant x) = true) (audit_log (tables s)))) with
    | Some rows => Ok (audit_entry s <$> rows, tables s)
    | None => Err ErrDriver
    end).
End tenants.
