(* ===== verification/IdentitySteps.v ===== *)
(** * What the account code can do to the identity tables

    [idstep n d d']: the writes of the repositories, as a step relation over the
    identity tables; a row inserted by the [n]-th interaction with the server has
    the id generated there.  [evolves m]: whatever happens, [m] takes the tables
    along such steps, one interaction at a time.  Every repository operation
    does, so an invariant of the steps is an invariant of the program. *)

From stdpp Require Import numbers strings gmap list sorting relations.
From Stdlib Require Import ZArith Lia.
From S2P Require Import Prelude GoNum Db Identity Secrets Auth Accounts TwoFactor Tenants.

#[local] Open Scope go_scope.

(** ** Steps *)

(** Every row of [m'] comes from a row of [m] it is related to. *)
Definition from_rows {A} (R : A → A → Prop) (m m' : gmap string A) : Prop :=
  ∀ i y, m' !! i = Some y → ∃ x, m !! i = Some x ∧ R x y.

(** The same rows, each related to what it was. *)
Definition rows_kept {A} (R : A → A → Prop) (m m' : gmap string A) : Prop :=
  ∀ i, option_Forall2 R (m !! i) (m' !! i).

(** Once used, used, and then no longer under another hash; the row stays whose
    it is. *)
Definition invite_kept (x y : TenantInvite) : Prop :=
  InvID y = InvID x ∧ InvTenantID y = InvTenantID x ∧ InvInvitedByID y = InvInvitedByID x ∧
  InvRole y = InvRole x ∧
  (is_Some (InvUsedAt x) → is_Some (InvUsedAt y) ∧ InvTokenHash y = InvTokenHash x).
Definition reset_kept (x y : PasswordResetToken) : Prop :=
  PrtID y = PrtID x ∧ PrtUserID y = PrtUserID x ∧ PrtTokenHash y = PrtTokenHash x ∧
  (is_Some (PrtUsedAt x) → is_Some (PrtUsedAt y)).
Definition verification_kept (x y : EmailVerificationToken) : Prop :=
  EvtID y = EvtID x ∧ EvtUserID y = EvtUserID x ∧ (is_Some (EvtUsedAt x) → is_Some (EvtUsedAt y)).
Definition code_kept (x y : recovery_code) : Prop :=
  RcUserID y = RcUserID x ∧ (is_Some (RcUsedAt x) → is_Some (RcUsedAt y)).
Definition challenge_kept (x y : TwoFactorChallenge) : Prop :=
  TfcID y = TfcID x ∧ TfcUserID y = TfcUserID x ∧ (is_Some (TfcUsedAt x) → is_Some (TfcUsedAt y)).

(** The table's key and its UNIQUE token_hash. *)
Definition invites_ok (m : gmap string TenantInvite) : Prop :=
  (∀ i x, m !! i = Some x → InvID x = i) ∧
  (∀ i j x y, m !! i = Some x → m !! j = Some y → InvTokenHash x = InvTokenHash y → i = j).

Section steps.
Context `{!Driver}.

Inductive idstep (n : nat) (d : identity) : identity → Prop :=
| st_user_new x :
    UserID x = gen_uuid n → users d !! UserID x = None →
    (∀ i y, users d !! i = Some y → Email y ≠ Email x) →
    idstep n d (set_users (<[UserID x := x]>) d)
| st_user_set id u u' :
    users d !! id = Some u → UserID u' = UserID u → Email u' = Email u →
    idstep n d (set_users (<[id := u']>) d)
| st_user_gone id :
    (∀ k x, invites d !! k = Some x → InvInvitedByID x ≠ id) →
    idstep n d (cascade_user id d)
| st_session_new x :
    DsID x = gen_uuid n → device_sessions d !! DsID x = None → is_Some (users d !! DsUserID x) →
    idstep n d (set_device_sessions (<[DsID x := x]>) d)
| st_sessions m' :
    rows_kept row_kept (device_sessions d) m' →
    idstep n d (set_device_sessions (λ _, m') d)
| st_tenant_new t :
    tenants d !! TenID t = None → idstep n d (set_tenants (<[TenID t := t]>) d)
| st_tenant_set id t t' :
    tenants d !! id = Some t → TenID t' = TenID t → TenLastDigestSentAt t' = TenLastDigestSentAt t →
    idstep n d (set_tenants (<[id := t']>) d)
| st_member_new u t m :
    memberships d !! (u, t) = None → is_Some (users d !! u) → is_Some (tenants d !! t) →
    role_check (MbRole m) = true → idstep n d (set_memberships (<[(u, t) := m]>) d)
| st_member_set u t m m' :
    memberships d !! (u, t) = Some m → role_check (MbRole m') = true →
    idstep n d (set_memberships (<[(u, t) := m']>) d)
| st_member_gone u t : idstep n d (set_memberships (delete (u, t)) d)
| st_invite_new x :
    InvID x = gen_uuid n → invites d !! InvID x = None → is_Some (users d !! InvInvitedByID x) →
    is_Some (tenants d !! InvTenantID x) → role_check (InvRole x) = true → InvUsedAt x = None →
    (∀ i y, invites d !! i = Some y → InvTokenHash y ≠ InvTokenHash x) →
    idstep n d (set_invites (<[InvID x := x]>) d)
| st_invites m' :
    rows_kept invite_kept (invites d) m' → (invites_ok (invites d) → invites_ok m') →
    idstep n d (set_invites (λ _, m') d)
| st_reset_new x :
    PrtID x = gen_uuid n → reset_tokens d !! PrtID x = None → is_Some (users d !! PrtUserID x) →
    idstep n d (set_reset_tokens (<[PrtID x := x]>) d)
| st_resets m' :
    rows_kept reset_kept (reset_tokens d) m' → idstep n d (set_reset_tokens (λ _, m') d)
| st_verification_new x :
    EvtID x = gen_uuid n → verification_tokens d !! EvtID x = None →
    is_Some (users d !! EvtUserID x) →
    idstep n d (set_verification_tokens (<[EvtID x := x]>) d)
| st_verifications m' :
    rows_kept verification_kept (verification_tokens d) m' →
    idstep n d (set_verification_tokens (λ _, m') d)
| st_secret u x :
    is_Some (users d !! u) → idstep n d (set_two_factor_secrets (<[u := x]>) d)
| st_secret_set u x x' :
    two_factor_secrets d !! u = Some x → idstep n d (set_two_factor_secrets (<[u := x']>) d)
| st_secret_gone u : idstep n d (set_two_factor_secrets (delete u) d)
| st_code_new x :
    recovery_codes d !! gen_uuid n = None → is_Some (users d !! RcUserID x) →
    idstep n d (set_recovery_codes (<[gen_uuid n := x]>) d)
| st_codes m' :
    from_rows code_kept (recovery_codes d) m' → idstep n d (set_recovery_codes (λ _, m') d)
| st_challenge_new x :
    TfcID x = gen_uuid n → challenges d !! TfcID x = None → is_Some (users d !! TfcUserID x) →
    idstep n d (set_challenges (<[TfcID x := x]>) d)
| st_challenges m' :
    rows_kept challenge_kept (challenges d) m' → idstep n d (set_challenges (λ _, m') d)
| st_preference u t b :
    is_Some (users d !! u) → idstep n d (set_notification_preferences (<[(u, t) := b]>) d)
| st_audit l : idstep n d (set_audit_log (λ l0, l0 ++ l) d).

(** An interaction that writes nothing, or makes one step. *)
Inductive cstep : relation (nat * identity) :=
| c_tick n d : cstep (n, d) (S n, d)
| c_write n d d' : idstep n d d' → cstep (n, d) (S n, d').

Definition at_ (s : session identity) : nat * identity := (tick s, tables s).
Definition evolves {A} (m : M (session identity) db_err A) : Prop :=
  ∀ s, rtc cstep (at_ s) (at_ (m s).2).

(** ** Rules *)

Lemma ticks n n' d : n ≤ n' → rtc cstep (n, d) (n', d).
Proof.
  induction 1 as [|m _ IH]; [done|]. etrans; [exact IH|]. apply rtc_once, c_tick.
Qed.
Lemma cstep_tick_le c c' : rtc cstep c c' → c.1 ≤ c'.1.
Proof. induction 1 as [|c1 c2 c3 Hs _ IH]; [done|]. destruct Hs; cbn in *; lia. Qed.

Lemma evolves_ret {A} (a : A) : evolves (ret a).
Proof. intros s. done. Qed.
Lemma evolves_fail {A} e : evolves (fail e : M _ _ A).
Proof. intros s. done. Qed.
Lemma evolves_bind {A B} (m : M _ _ A) (k : A → M (session identity) db_err B) :
  evolves m → (∀ a, evolves (k a)) → evolves (bind m k).
Proof.
  intros Hm Hk s. unfold bind. specialize (Hm s). destruct (m s) as [[a|e] s1]; [|done].
  etrans; [exact Hm|]. apply Hk.
Qed.
Lemma evolves_attempt {A} (m : M _ _ A) : evolves m → evolves (attempt m).
Proof. intros Hm s. unfold attempt. specialize (Hm s). by destruct (m s). Qed.
Lemma evolves_map_err {A} f (m : M _ _ A) : evolves m → evolves (map_err f m).
Proof. intros Hm s. unfold map_err. specialize (Hm s). by destruct (m s) as [[|] ?]. Qed.

Lemma evolves_stmt {A} (f : session identity → res db_err (A * identity)) :
  (∀ s a d, f s = Ok (a, d) → d = tables s ∨ idstep (tick s) (tables s) d) →
  evolves (stmt f).
Proof.
  intros Hf s. unfold stmt, at_. destruct (aborted s); [apply rtc_once, c_tick|].
  destruct (event_fails (tick s)); [apply rtc_once, c_tick|].
  destruct (f s) as [[a d]|e] eqn:E; [|apply rtc_once, c_tick]. cbn.
  apply rtc_once. destruct (Hf s a d E) as [->|Hs]; [apply c_tick|by apply c_write].
Qed.
Lemma evolves_query {A} (f : session identity → A) : evolves (query f).
Proof. apply evolves_stmt. intros; simplify_eq. by left. Qed.

Lemma evolves_pool_tx {A} (m : M _ _ A) : evolves m → evolves (with_pool_tx m).
Proof.
  intros Hm s. unfold with_pool_tx, at_.
  destruct (event_fails (tick s)); [apply rtc_once, c_tick|].
  fold (pool_conn s). pose proof (Hm (pool_conn s)) as Hi. pose proof (cstep_tick_le _ _ Hi) as Hle.
  cbn in Hle. destruct (m (pool_conn s)) as [[a|e] i]; cbn in *;
    [|apply ticks; lia].
  destruct (aborted i); [apply ticks; cbn; lia|].
  destruct (event_fails (tick i)); [apply ticks; cbn; lia|]. cbn.
  etrans; [apply rtc_once, c_tick|]. etrans; [exact Hi|]. apply rtc_once, c_tick.
Qed.

Lemma evolves_or_not_found {A} (o : option A) : evolves (or_not_found o).
Proof. destruct o; [apply evolves_ret|apply evolves_fail]. Qed.
Lemma evolves_affected n : evolves (affected n).
Proof. unfold affected. destruct (n =? 0)%Z; [apply evolves_fail|apply evolves_ret]. Qed.
Lemma evolves_if {A} (b : bool) (m k : M _ _ A) :
  evolves m → evolves k → evolves (if b then m else k).
Proof. by destruct b. Qed.
Lemma evolves_map {A} (m : M _ _ A) (f : A → A) : evolves m → evolves (m1 <- m ;; ret (f m1)).
Proof. intros. apply evolves_bind; [done|intros; apply evolves_ret]. Qed.
End steps.

#[export] Hint Resolve evolves_ret evolves_fail evolves_attempt evolves_map_err evolves_query
  evolves_pool_tx evolves_or_not_found evolves_affected evolves_if : vane.
#[export] Hint Extern 2 (evolves (bind _ _)) => apply evolves_bind; [|intros ?] : vane.

(** ** Rows found by a predicate *)

Lemma from_rows_insert {A} (R : A → A → Prop) (m : gmap string A) k x y :
  (∀ z, R z z) → m !! k = Some x → R x y → from_rows R m (<[k := y]> m).
Proof.
  intros Hr Hk Hxy i z. destruct (decide (i = k)) as [->|].
  - rewrite lookup_insert_eq. intros [= <-]. eauto.
  - rewrite lookup_insert_ne by done. eauto.
Qed.
Lemma from_rows_fmap {A} (R : A → A → Prop) (m : gmap string A) f :
  (∀ x, R x (f x)) → from_rows R m (f <$> m).
Proof. intros Hf i y. rewrite lookup_fmap. intros (x & Hx & ->)%fmap_Some. eauto. Qed.
Lemma rows_kept_insert {A} (R : A → A → Prop) (m : gmap string A) k x y :
  (∀ z, R z z) → m !! k = Some x → R x y → rows_kept R m (<[k := y]> m).
Proof.
  intros Hr Hk Hxy i. destruct (decide (i = k)) as [->|].
  - rewrite lookup_insert_eq, Hk. by constructor.
  - rewrite lookup_insert_ne by done. destruct (m !! i); by constructor.
Qed.
Lemma rows_kept_fmap {A} (R : A → A → Prop) (m : gmap string A) f :
  (∀ x, R x (f x)) → rows_kept R m (f <$> m).
Proof. intros Hf i. rewrite lookup_fmap. destruct (m !! i); by constructor. Qed.
Lemma rows_kept_to {A} (R : A → A → Prop) (m m' : gmap string A) i x :
  rows_kept R m m' → m !! i = Some x → ∃ y, m' !! i = Some y ∧ R x y.
Proof. intros Hk Hi. specialize (Hk i). rewrite Hi in Hk. inversion Hk; eauto. Qed.
Lemma rows_kept_from {A} (R : A → A → Prop) (m m' : gmap string A) i y :
  rows_kept R m m' → m' !! i = Some y → ∃ x, m !! i = Some x ∧ R x y.
Proof. intros Hk Hi. specialize (Hk i). rewrite Hi in Hk. inversion Hk; eauto. Qed.
Lemma rows_kept_hash (m m' : gmap string TenantInvite) :
  rows_kept (λ x y, InvID y = InvID x ∧ InvTokenHash y = InvTokenHash x) m m' →
  invites_ok m → invites_ok m'.
Proof.
  intros Hk [H1 H2]. split.
  - intros i y Hy. destruct (rows_kept_from _ _ _ _ _ Hk Hy) as (x & Hx & -> & _). auto.
  - intros i j x y Hx Hy Hh. destruct (rows_kept_from _ _ _ _ _ Hk Hx) as (x0 & Hx0 & _ & Ex).
    destruct (rows_kept_from _ _ _ _ _ Hk Hy) as (y0 & Hy0 & _ & Ey).
    eapply H2; [done..|congruence].
Qed.
Lemma from_rows_filter {A} (R : A → A → Prop) (m : gmap string A) (P : string * A → Prop)
    `{!∀ x, Decision (P x)} :
  (∀ z, R z z) → from_rows R m (filter P m).
Proof. intros Hr i y [Hy _]%map_lookup_filter_Some. eauto. Qed.

(** ** Every repository operation *)

(** A statement whose function is case analysis down to one step. *)
Ltac one_step :=
  apply evolves_stmt; let s := fresh "s" in intros s ? ?; cbv zeta;
  repeat (case_match; try discriminate); intros; simplify_eq;
  first [by left | right].

Section operations.
Context `{!Driver, !Machine}.

Lemma insert_user_evolves f : evolves (insert_user f).
Proof.
  apply evolves_stmt. intros s a d. cbv zeta. destruct (has_row _ _) eqn:E; [done|].
  destruct (users _ !! gen_uuid _) eqn:En; [done|]. intros [= <- <-]. right.
  apply (st_user_new (tick s) (tables s) (new_user (gen_uuid (tick s)) (sql_now s) (f s)));
    [done|done|].
  intros i y Hy He. pose proof (has_row_false _ _ _ _ E Hy) as Hf. unfold by_email in Hf.
  apply String.eqb_neq in Hf. done.
Qed.
Lemma update_user_evolves id f :
  (∀ s u, UserID (f s u) = UserID u ∧ Email (f s u) = Email u) → evolves (update_user id f).
Proof.
  intros Hf. one_step. eapply st_user_set; [done|apply Hf..].
Qed.
Lemma DeleteUser_evolves id : evolves (DeleteUser id).
Proof.
  unfold DeleteUser. apply evolves_bind; [|auto with vane].
  apply evolves_stmt. intros s a d. destruct (users _ !! id); [|intros [= <- <-]; by left].
  destruct (has_row _ _) eqn:E; [done|]. intros [= <- <-]. right. apply st_user_gone.
  intros k x Hx He. pose proof (has_row_false _ _ _ _ E Hx) as Hf.
  by apply String.eqb_neq in Hf.
Qed.
Lemma BootstrapFirst_evolves x : evolves (BootstrapFirst x).
Proof.
  unfold BootstrapFirst. apply evolves_bind; [|intros [|[]]; auto with vane].
  apply evolves_attempt, evolves_pool_tx. apply evolves_bind; [auto with vane|intros _].
  apply evolves_bind; [auto with vane|intros n]. destruct (0 <? n)%Z; [auto with vane|].
  apply insert_user_evolves.
Qed.

Lemma is_none_false {A} (o : option A) : is_none o = false → is_Some o.
Proof. destruct o; [eauto|done]. Qed.

Lemma CreateMembership_evolves a u t r : evolves (CreateMembership a u t r).
Proof.
  apply evolves_map_err, evolves_stmt. intros s x d. cbv zeta.
  destruct (member_visible _ _ _ _); [|done]. destruct (role_check r) eqn:Er; [|done].
  destruct (memberships _ !! _) eqn:Em; [done|]. destruct (_ || _) eqn:En; [done|].
  intros [= <- <-]. right. apply orb_false_iff in En as [Hu%is_none_false Ht%is_none_false].
  by apply st_member_new.
Qed.
Lemma write_membership_evolves a u t f : evolves (write_membership a u t f).
Proof.
  apply evolves_stmt. intros s x d. destruct (memberships _ !! _) as [m|] eqn:Em;
    [|intros [= <- <-]; by left].
  destruct (member_visible _ _ _ _); [|intros [= <- <-]; by left].
  destruct (f m) as [m'|]; [destruct (role_check _) eqn:Er; [|done]|];
    intros [= <- <-]; right; [by eapply st_member_set|apply st_member_gone].
Qed.

Lemma CreateInvite_evolves x : evolves (CreateInvite x).
Proof.
  apply evolves_stmt. intros s y d. cbv zeta. destruct (if String.eqb _ "" then _ else _) as [t|]; [|done].
  destruct (visible s t); [|done]. destruct (role_check _) eqn:Er; [|done].
  destruct (has_row _ _) eqn:Eh; [done|]. destruct (_ || _) eqn:En; [done|].
  destruct (invites _ !! _) eqn:Ei; [done|]. intros [= <- <-]. right.
  apply orb_false_iff in En as [Hu%is_none_false Ht%is_none_false].
  apply (st_invite_new (tick s) (tables s) (new_invite (gen_uuid (tick s)) t (sql_now s) x)); try done.
  intros i z Hz He. pose proof (has_row_false _ _ _ _ Eh Hz) as Hf.
  by apply String.eqb_neq in Hf.
Qed.
Lemma invite_kept_used t x : invite_kept x (set_invite_used t x).
Proof. by repeat split. Qed.
Lemma invite_kept_refl x : invite_kept x x.
Proof. done. Qed.
Lemma claim_invite_evolves p t : evolves (claim_invite p (λ s, set_invite_used (t s))).
Proof.
  unfold claim_invite. apply evolves_bind; [|auto with vane]. apply evolves_stmt. intros s a d.
  destruct (find_row _ _) as [[k x]|] eqn:E; intros [= <- <-]; [right|by left].
  apply find_row_Some in E as [Hk _].
  apply (st_invites _ (tables s) (<[k := set_invite_used (t s) x]> (invites (tables s)))).
  - eapply rows_kept_insert; [apply invite_kept_refl|done|apply invite_kept_used].
  - by eapply rows_kept_hash, rows_kept_insert.
Qed.
Lemma update_invites_evolves p : evolves (update_invites p).
Proof.
  apply evolves_stmt. intros s a d. cbv zeta. intros [= <- <-]. right.
  apply (st_invites _ (tables s) (_ <$> invites (tables s)));
    [|apply rows_kept_hash]; apply rows_kept_fmap; intros x;
    (destruct (seen_invite _ _ _); [by repeat split|done]).
Qed.
Lemma Refresh_evolves t i h e : evolves (Refresh t i h e).
Proof.
  unfold Refresh. apply evolves_bind; [|auto with vane]. apply evolves_stmt. intros s a d.
  destruct (find_row _ _) as [[k x]|] eqn:E; [|intros [= <- <-]; by left].
  destruct (has_row _ _) eqn:Eh; [done|]. cbv zeta. intros [= <- <-]. right.
  apply find_row_Some in E as [Hk Hp]. unfold seen_invite, pending_invite, unused_invite in Hp.
  apply andb_true_iff in Hp as [_ [_ Hu]%andb_true_iff].
  apply (st_invites _ (tables s) (<[k := set_invite_token h e x]> (invites (tables s)))).
  - eapply rows_kept_insert; [apply invite_kept_refl|done|]. repeat split; cbn;
      destruct (InvUsedAt x); try done; by intros [].
  - intros [H1 H2]. assert (∀ j y, j ≠ k → invites (tables s) !! j = Some y → InvTokenHash y ≠ h) as Hn.
    { intros j y Hj Hy Hh. pose proof (has_row_false _ _ _ _ Eh Hy) as Hf. cbv beta in Hf.
      unfold by_invite_hash in Hf. rewrite Hh, String.eqb_refl, (H1 j y Hy), (H1 k x Hk) in Hf.
      apply negb_false_iff, String.eqb_eq in Hf. done. }
    split.
    + intros j y [[<- <-]|[_ Hy]]%lookup_insert_Some; [exact (H1 k x Hk)|eauto].
    + intros j j' y z [[<- <-]|[Hne Hy]]%lookup_insert_Some [[<- <-]|[Hne' Hz]]%lookup_insert_Some Hh;
        [done| |  |eauto]; exfalso; [eapply Hn; [by apply not_eq_sym|exact Hz|done]|
        eapply Hn; [by apply not_eq_sym|exact Hy|done]].
Qed.

Lemma CreateResetToken_evolves u h e : evolves (CreateResetToken u h e).
Proof.
  apply evolves_stmt. intros s y d. cbv zeta. destruct (has_row _ _); [done|].
  destruct (users _ !! u) eqn:Eu; [|done]. destruct (reset_tokens _ !! _) eqn:Ei; [done|].
  intros [= <- <-]. right.
  by apply (st_reset_new (tick s) (tables s) {| PrtID := gen_uuid (tick s); PrtUserID := u;
    PrtTokenHash := h; PrtExpiresAt := e; PrtUsedAt := None |}).
Qed.
Lemma update_reset_tokens_evolves p : evolves (update_reset_tokens p).
Proof.
  apply evolves_stmt. intros s a d [= <- <-]. right.
  apply (st_resets _ (tables s) (_ <$> reset_tokens (tables s))), rows_kept_fmap.
  intros x. destruct (p x); by repeat split.
Qed.
Lemma CreateVerificationToken_evolves u h e : evolves (CreateVerificationToken u h e).
Proof.
  apply evolves_stmt. intros s y d. cbv zeta. destruct (has_row _ _); [done|].
  destruct (users _ !! u) eqn:Eu; [|done]. destruct (verification_tokens _ !! _) eqn:Ei; [done|].
  intros [= <- <-]. right.
  by apply (st_verification_new (tick s) (tables s) {| EvtID := gen_uuid (tick s); EvtUserID := u;
    EvtTokenHash := h; EvtExpiresAt := e; EvtUsedAt := None; EvtCreatedAt := sql_now s |}).
Qed.
Lemma verification_kept_used t x : verification_kept x (set_verification_used t x).
Proof. by repeat split. Qed.
Lemma ClaimVerification_evolves h : evolves (ClaimVerification h).
Proof.
  unfold ClaimVerification. apply evolves_bind; [|auto with vane]. apply evolves_stmt. intros s a d.
  destruct (find_row _ _) as [[k x]|] eqn:E; cbv zeta; intros [= <- <-]; [right|by left].
  apply find_row_Some in E as [Hk _].
  apply (st_verifications _ (tables s)
    (<[k := set_verification_used (sql_now s) x]> (verification_tokens (tables s)))).
  eapply rows_kept_insert; [done|done|apply verification_kept_used].
Qed.
Lemma InvalidatePendingForUser_evolves u : evolves (InvalidatePendingForUser u).
Proof.
  apply evolves_stmt. intros s a d [= <- <-]. right.
  apply (st_verifications _ (tables s) (_ <$> verification_tokens (tables s))), rows_kept_fmap.
  intros x. case_match; [apply verification_kept_used|done].
Qed.

Lemma CreateSession_evolves u a i : evolves (CreateSession u a i).
Proof.
  apply evolves_stmt. intros s y d. cbv zeta. destruct (users _ !! u) eqn:Eu; [|done].
  destruct (device_sessions _ !! _) eqn:Ei; [done|]. intros [= <- <-]. right.
  by apply (st_session_new (tick s) (tables s) {| DsID := gen_uuid (tick s); DsUserID := u;
    UserAgent := nullif_empty a; IP := nullif_empty i; DsCreatedAt := sql_now s;
    DsLastSeenAt := None; RevokedAt := None |}).
Qed.
Lemma update_sessions_evolves p f :
  (∀ s x, p s x = true → row_kept x (f s x)) → evolves (update_sessions p f).
Proof.
  intros Hf. apply evolves_stmt. intros s a d [= <- <-]. right.
  apply (st_sessions _ (tables s) (_ <$> device_sessions (tables s))), rows_kept_fmap.
  intros x. destruct (p s x) eqn:E; [by apply Hf|done].
Qed.
Lemma revoke_evolves q :
  evolves (update_sessions (λ _ x, q x && live_session x) (λ s, set_revoked (sql_now s))).
Proof.
  apply update_sessions_evolves. intros s x [_ Hl]%andb_true_iff.
  split_and!; try done. intros t Ht. unfold live_session in Hl. by rewrite Ht in Hl.
Qed.
Lemma Revoke_evolves id : evolves (Revoke id).
Proof. apply (revoke_evolves (λ x, String.eqb (DsID x) id)). Qed.
Lemma RevokeAllForUser_evolves u : evolves (RevokeAllForUser u).
Proof. apply (revoke_evolves (λ x, String.eqb (DsUserID x) u)). Qed.
Lemma TouchLastSeen_evolves id : evolves (TouchLastSeen id).
Proof. by apply update_sessions_evolves. Qed.
Lemma RevokeSessions_evolves id : evolves (RevokeSessions id).
Proof.
  unfold RevokeSessions. apply evolves_bind;
    [|intros n; destruct (n =? 0)%Z; auto with vane].
  one_step. by eapply st_user_set.
Qed.
End operations.

#[export] Hint Resolve insert_user_evolves DeleteUser_evolves BootstrapFirst_evolves
  CreateMembership_evolves write_membership_evolves CreateInvite_evolves claim_invite_evolves
  update_invites_evolves Refresh_evolves CreateResetToken_evolves update_reset_tokens_evolves
  CreateVerificationToken_evolves ClaimVerification_evolves InvalidatePendingForUser_evolves
  CreateSession_evolves Revoke_evolves RevokeAllForUser_evolves TouchLastSeen_evolves
  RevokeSessions_evolves : vane.

Section compound.
Context `{!Driver, !Machine}.

Lemma CreateUser_evolves x : evolves (CreateUser x).
Proof. apply evolves_map_err, insert_user_evolves. Qed.
Lemma GetByEmail_evolves e : evolves (GetByEmail e).
Proof. unfold GetByEmail. auto with vane. Qed.
Lemma GetUser_evolves id : evolves (GetUser id).
Proof. unfold GetUser. apply evolves_bind; [auto with vane|intros [|]; auto with vane]. Qed.
Lemma UpdateName_evolves u n : evolves (UpdateName u n).
Proof. apply evolves_bind; [by apply update_user_evolves|auto with vane]. Qed.
Lemma UpdatePasswordHash_evolves u h : evolves (UpdatePasswordHash u h).
Proof. apply evolves_bind; [by apply update_user_evolves|auto with vane]. Qed.
Lemma MarkEmailVerified_evolves u : evolves (MarkEmailVerified u).
Proof. apply evolves_bind; [by apply update_user_evolves|auto with vane]. Qed.

Lemma GetRole_evolves a u t : evolves (GetRole a u t).
Proof. unfold GetRole. apply evolves_bind; [auto with vane|intros [|]; auto with vane]. Qed.
Lemma refuse_last_owner_evolves a t : evolves (refuse_last_owner a t).
Proof.
  apply evolves_bind; [apply evolves_bind; auto with vane|].
  intros [|]; auto with vane.
Qed.
Lemma UpdateRole_evolves a u t r : evolves (UpdateRole a u t r).
Proof.
  apply evolves_bind; [|intros _; apply evolves_bind; auto with vane].
  apply evolves_if; [auto with vane|]. apply evolves_bind; [apply GetRole_evolves|].
  intros. apply evolves_if; [apply refuse_last_owner_evolves|auto with vane].
Qed.
Lemma DeleteMembership_evolves a u t : evolves (DeleteMembership a u t).
Proof.
  apply evolves_bind; [apply evolves_query|intros row]. apply evolves_bind; [auto with vane|intros r].
  apply evolves_bind; [|intros _; apply evolves_bind; auto with vane].
  apply evolves_if; [apply refuse_last_owner_evolves|auto with vane].
Qed.
Lemma GetInviteByTokenHash_evolves h : evolves (GetInviteByTokenHash h).
Proof. unfold GetInviteByTokenHash. auto with vane. Qed.
Lemma ClaimForUse_evolves h : evolves (ClaimForUse h).
Proof. apply claim_invite_evolves. Qed.
Lemma Cancel_evolves t i : evolves (Cancel t i).
Proof. apply claim_invite_evolves. Qed.
Lemma InvalidatePendingForEmail_evolves t e : evolves (InvalidatePendingForEmail t e).
Proof. unfold InvalidatePendingForEmail. auto with vane. Qed.
Lemma GetResetByTokenHash_evolves h : evolves (GetResetByTokenHash h).
Proof. unfold GetResetByTokenHash. auto with vane. Qed.
Lemma InvalidateOtherPending_evolves u x : evolves (InvalidateOtherPending u x).
Proof. unfold InvalidateOtherPending. auto with vane. Qed.
Lemma MarkResetUsed_evolves i : evolves (MarkResetUsed i).
Proof. unfold MarkResetUsed. auto with vane. Qed.
Lemma GetByIDAndUser_evolves i u : evolves (GetByIDAndUser i u).
Proof.
  unfold GetByIDAndUser. apply evolves_bind; [auto with vane|intros [|]; [|auto with vane]].
  destruct (String.eqb _ _); auto with vane.
Qed.

Lemma CreatePendingSecret_evolves u x : evolves (CreatePendingSecret u x).
Proof. one_step; by apply st_secret. Qed.
Lemma GetSecret_evolves u : evolves (GetSecret u).
Proof. unfold GetSecret. auto with vane. Qed.
Lemma ConfirmSecret_evolves u : evolves (ConfirmSecret u).
Proof.
  unfold ConfirmSecret. apply evolves_bind; [|auto with vane]. one_step. by eapply st_secret_set.
Qed.
Lemma DeleteSecret_evolves u : evolves (DeleteSecret u).
Proof. one_step. apply st_secret_gone. Qed.
Lemma DeleteRecoveryCodes_evolves u : evolves (DeleteRecoveryCodes u).
Proof.
  apply evolves_stmt. intros s a d [= <- <-]. right.
  apply (st_codes _ (tables s) (filter _ (recovery_codes (tables s)))), from_rows_filter. done.
Qed.
Lemma insert_codes_evolves u l : evolves (insert_codes u l).
Proof.
  induction l as [|h l IH]; cbn [insert_codes]; [auto with vane|].
  apply evolves_bind; [|done]. one_step. apply st_code_new; [done|eauto].
Qed.
Lemma CreateRecoveryCodes_evolves u l : evolves (CreateRecoveryCodes u l).
Proof.
  apply evolves_pool_tx, evolves_bind; [apply DeleteRecoveryCodes_evolves|].
  intros _. apply insert_codes_evolves.
Qed.
Lemma claim_code_evolves i : evolves (claim_code i).
Proof.
  apply evolves_stmt. intros s a d. destruct (recovery_codes _ !! i) as [x|] eqn:E;
    [|intros [= <- <-]; by left].
  destruct (is_none _); intros [= <- <-]; [right|by left].
  apply (st_codes _ (tables s) (<[i := set_code_used (sql_now s) x]> (recovery_codes (tables s)))).
  eapply from_rows_insert; [done|done|by repeat split].
Qed.
Lemma ConsumeRecoveryCode_evolves u c : evolves (ConsumeRecoveryCode u c).
Proof.
  unfold ConsumeRecoveryCode. apply evolves_bind; [auto with vane|intros l].
  induction l as [|[i x] l IH]; cbn [consume_loop]; [auto with vane|].
  apply evolves_if; [apply claim_code_evolves|done].
Qed.
Lemma CreateChallenge_evolves u ttl : evolves (CreateChallenge u ttl).
Proof.
  apply evolves_stmt. intros s y d. cbv zeta.
  destruct (users _ !! u) eqn:Eu; [|done]. destruct (challenges _ !! _) eqn:Ei; [done|].
  intros [= <- <-]. right.
  by apply (st_challenge_new (tick s) (tables s) {| TfcID := gen_uuid (tick s); TfcUserID := u;
    TfcExpiresAt := sql_now s + ttl; TfcUsedAt := None; TfcCreatedAt := sql_now s |}).
Qed.
Lemma Lookup_evolves j : evolves (Lookup j).
Proof. unfold Lookup. auto with vane. Qed.
Lemma MarkUsed_evolves j : evolves (MarkUsed j).
Proof.
  apply evolves_stmt. intros s a d. destruct (challenges _ !! j) as [x|] eqn:E;
    [|intros [= <- <-]; by left].
  destruct (_ && _); intros [= <- <-]; [right|by left].
  apply (st_challenges _ (tables s) (<[j := set_challenge_used (sql_now s) x]> (challenges (tables s)))).
  eapply rows_kept_insert; [done|done|by repeat split].
Qed.
Lemma Upsert_evolves u l : evolves (Upsert u l).
Proof.
  induction l as [|[t b] l IH]; cbn [Upsert]; [auto with vane|]. apply evolves_bind; [|done].
  one_step. by apply st_preference.
Qed.

Lemma insert_tenant_evolves i n c : evolves (insert_tenant i n c).
Proof.
  apply evolves_stmt. intros s a d. cbv zeta. destruct (visible s i); [|done].
  destruct (tenants _ !! i) eqn:E; [done|]. intros [= <- <-]. right.
  by apply (st_tenant_new (tick s) (tables s) (new_tenant i n c (sql_now s))).
Qed.
Lemma update_tenant_evolves i p f :
  (∀ s t, TenID (f s t) = TenID t ∧ TenLastDigestSentAt (f s t) = TenLastDigestSentAt t) →
  evolves (update_tenant i p f).
Proof.
  intros Hf. apply evolves_stmt. intros s a d. unfold seen_tenant.
  destruct (tenants _ !! i) as [t|] eqn:E; [|intros [= <- <-]; by left].
  destruct (visible s i); [|intros [= <- <-]; by left]. destruct (p t); [|intros [= <- <-]; by left].
  destruct (tax_id_type_check _); [|done]. intros [= <- <-]. right.
  destruct (Hf s t). by eapply st_tenant_set.
Qed.
Lemma GetTenant_evolves i : evolves (GetTenant i).
Proof. unfold GetTenant. auto with vane. Qed.
Lemma SoftDeleteTenant_evolves i : evolves (SoftDeleteTenant i).
Proof.
  unfold SoftDeleteTenant. apply evolves_bind; [by apply update_tenant_evolves|auto with vane].
Qed.
Lemma Active_evolves : evolves Active.
Proof. unfold Active. auto with vane. Qed.
Lemma AuditRecord_evolves a t l x : evolves (AuditRecord a t l x).
Proof. one_step. eapply st_audit. Qed.

(** A transaction opened, worked on and closed, one interaction after the other. *)
Lemma BeginTenantTx_at (u t : string) (s : session identity) r s' :
  BeginTenantTx u t s = (r, s') →
  tables s' = tables s ∧ (tick s ≤ tick s')%nat ∧
  match r with
  | Ok tx => tables tx = tables s ∧ (tick s ≤ tick tx)%nat
  | Err _ => True
  end.
Proof.
  unfold BeginTenantTx. intros Hr. repeat case_match; simplify_eq/=; repeat split; lia.
Qed.
Lemma tx_commit_at (tx s : session identity) r s' :
  tx_commit tx s = (r, s') →
  tick s' = S (tick tx) ∧ (tables s' = tables s ∨ r = Ok tt ∧ tables s' = tables tx).
Proof. unfold tx_commit. intros Hr. repeat case_match; simplify_eq/=; auto. Qed.

(** [BeginTenantTx], code on the transaction, Commit or Rollback. *)
Lemma tenant_tx_run {A} u t (m : M (session identity) db_err A) s tx pool :
  BeginTenantTx u t s = (Ok tx, pool) → evolves m →
  rtc cstep (at_ s) (S (tick (m tx).2), tables s) ∧
  rtc cstep (at_ s) (S (tick (m tx).2), tables (m tx).2).
Proof.
  intros (_ & _ & Et & Hle)%BeginTenantTx_at Hm. specialize (Hm tx).
  pose proof (cstep_tick_le _ _ Hm) as Hle'. cbn in Hle'. unfold at_ in *. rewrite Et in Hm.
  split; [apply ticks; lia|]. etrans; [apply (ticks (tick s) (tick tx)); lia|].
  etrans; [exact Hm|]. apply rtc_once, c_tick.
Qed.
Lemma CreateTenant_evolves i n c : evolves (CreateTenant i n c).
Proof.
  intros s. unfold CreateTenant. destruct (tx_start s).
  { destruct (String.eqb i ""); [done|]. apply insert_tenant_evolves. }
  clear i. match goal with |- rtc cstep (at_ s) (at_ (?m s).2) => assert (evolves m) as Hm; [|apply Hm] end.
  apply evolves_bind; [auto with vane|]. clear s. intros i s.
  destruct (BeginTenantTx "" i s) as [[tx|e] pool] eqn:EB.
  2:{ apply BeginTenantTx_at in EB as (Et & Hle & _). unfold at_. cbn. rewrite Et. by apply ticks. }
  destruct (tenant_tx_run _ _ _ _ _ _ EB (insert_tenant_evolves i n c)) as [H1 H2].
  apply BeginTenantTx_at in EB as (Ep & _ & _).
  destruct (insert_tenant i n c tx) as [[t|e] tx'] eqn:Ei; cbn in H1, H2.
  - destruct (tx_commit tx' pool) as [r s'] eqn:Ec. apply tx_commit_at in Ec as [En Ht].
    destruct r as [[]|e]; unfold at_ in *; cbn; rewrite En; destruct Ht as [->|[_ ->]];
      try done; by rewrite Ep.
  - unfold tx_rollback, at_ in *. cbn. by rewrite Ep.
Qed.
End compound.

#[export] Hint Resolve CreateUser_evolves GetByEmail_evolves GetUser_evolves UpdateName_evolves
  UpdatePasswordHash_evolves MarkEmailVerified_evolves GetRole_evolves UpdateRole_evolves
  DeleteMembership_evolves GetInviteByTokenHash_evolves ClaimForUse_evolves Cancel_evolves
  InvalidatePendingForEmail_evolves GetResetByTokenHash_evolves InvalidateOtherPending_evolves
  MarkResetUsed_evolves GetByIDAndUser_evolves CreatePendingSecret_evolves GetSecret_evolves
  ConfirmSecret_evolves DeleteSecret_evolves DeleteRecoveryCodes_evolves
  CreateRecoveryCodes_evolves ConsumeRecoveryCode_evolves CreateChallenge_evolves Lookup_evolves
  MarkUsed_evolves Upsert_evolves GetTenant_evolves SoftDeleteTenant_evolves Active_evolves
  AuditRecord_evolves CreateTenant_evolves : vane.
