(* ===== verification/IdentityInv.v ===== *)
(** * Invariants of the identity tables

    [identity_wf]: the typing of the schema - keys, roles, references and the
    unique address of an account; every step of the account code keeps it.  Used
    invites and challenges stay spent, whatever comes after. *)

From stdpp Require Import numbers strings gmap list relations.
From Stdlib Require Import ZArith Lia.
From S2P Require Import Prelude GoNum Db Identity Secrets Auth Accounts TwoFactor Tenants IdentitySteps.

#[local] Open Scope go_scope.

(** ** Well-formedness *)

(** The row a foreign key names. *)
Definition live {A} (m : gmap string A) (k : string) : Prop := is_Some (m !! k).

Record identity_wf (d : identity) : Prop := {
  wf_user : ∀ i x, users d !! i = Some x → UserID x = i;
  wf_email : ∀ i j x y, users d !! i = Some x → users d !! j = Some y → Email x = Email y → i = j;
  wf_session : ∀ i x, device_sessions d !! i = Some x → DsID x = i ∧ live (users d) (DsUserID x);
  wf_tenant : ∀ i x, tenants d !! i = Some x → TenID x = i;
  wf_member : ∀ u t m, memberships d !! (u, t) = Some m →
    live (users d) u ∧ live (tenants d) t ∧ role_check (MbRole m) = true;
  wf_invites : invites_ok (invites d);
  wf_invite : ∀ i x, invites d !! i = Some x →
    live (users d) (InvInvitedByID x) ∧ live (tenants d) (InvTenantID x) ∧
    role_check (InvRole x) = true;
  wf_reset : ∀ i x, reset_tokens d !! i = Some x → PrtID x = i ∧ live (users d) (PrtUserID x);
  wf_verification : ∀ i x, verification_tokens d !! i = Some x →
    EvtID x = i ∧ live (users d) (EvtUserID x);
  wf_secret : ∀ u x, two_factor_secrets d !! u = Some x → live (users d) u;
  wf_code : ∀ i x, recovery_codes d !! i = Some x → live (users d) (RcUserID x);
  wf_challenge : ∀ i x, challenges d !! i = Some x → TfcID x = i ∧ live (users d) (TfcUserID x);
  wf_preference : ∀ u t b, notification_preferences d !! (u, t) = Some b → live (users d) u;
}.

(** A row that is there stays, but for its own deletion. *)
Lemma live_insert {A} (m : gmap string A) k i x : live m k → live (<[i := x]> m) k.
Proof.
  unfold live. destruct (decide (k = i)) as [->|]; [rewrite lookup_insert_eq|
    rewrite lookup_insert_ne by done]; eauto.
Qed.
Lemma live_delete {A} (m : gmap string A) k i : k ≠ i → live m k → live (delete i m) k.
Proof. unfold live. intros. by rewrite lookup_delete_ne by done. Qed.
#[local] Hint Resolve live_insert live_delete mk_is_Some : vane.

(** Where a row of an updated table comes from. *)
Ltac row_origin :=
  repeat match goal with
  | H : <[_ := _]> _ !! _ = Some _ |- _ => apply lookup_insert_Some in H as [[? ?]|[? ?]]; simplify_eq
  | H : delete _ _ !! _ = Some _ |- _ => apply lookup_delete_Some in H as [? ?]
  | H : filter _ _ !! _ = Some _ |- _ => apply map_lookup_filter_Some in H as [? ?]
  | K : rows_kept _ _ ?m, H : ?m !! _ = Some _ |- _ =>
      apply (rows_kept_from _ _ _ _ _ K) in H as (? & ? & ?)
  | K : from_rows _ _ ?m, H : ?m !! _ = Some _ |- _ => apply K in H as (? & ? & ?)
  end.
(** What the tables' typing says of the rows at hand. *)
Ltac row_facts :=
  repeat match goal with
  | W : identity_wf ?d, H : users ?d !! _ = Some _ |- _ => learn_hyp (wf_user d W _ _ H)
  | W : identity_wf ?d, H : device_sessions ?d !! _ = Some _ |- _ => learn_hyp (wf_session d W _ _ H)
  | W : identity_wf ?d, H : tenants ?d !! _ = Some _ |- _ => learn_hyp (wf_tenant d W _ _ H)
  | W : identity_wf ?d, H : memberships ?d !! _ = Some _ |- _ => learn_hyp (wf_member d W _ _ _ H)
  | W : identity_wf ?d, H : invites ?d !! _ = Some _ |- _ => learn_hyp (wf_invite d W _ _ H)
  | W : identity_wf ?d, H : reset_tokens ?d !! _ = Some _ |- _ => learn_hyp (wf_reset d W _ _ H)
  | W : identity_wf ?d, H : verification_tokens ?d !! _ = Some _ |- _ =>
      learn_hyp (wf_verification d W _ _ H)
  | W : identity_wf ?d, H : two_factor_secrets ?d !! _ = Some _ |- _ => learn_hyp (wf_secret d W _ _ H)
  | W : identity_wf ?d, H : recovery_codes ?d !! _ = Some _ |- _ => learn_hyp (wf_code d W _ _ H)
  | W : identity_wf ?d, H : challenges ?d !! _ = Some _ |- _ => learn_hyp (wf_challenge d W _ _ H)
  | W : identity_wf ?d, H : notification_preferences ?d !! _ = Some _ |- _ =>
      learn_hyp (wf_preference d W _ _ _ H)
  end; destruct_and?.

Section steps.
Context `{!Driver}.

Lemma invites_ok_new m x :
  invites_ok m → (∀ i y, m !! i = Some y → InvTokenHash y ≠ InvTokenHash x) →
  invites_ok (<[InvID x := x]> m).
Proof.
  intros [H1 H2] Hn. split.
  - intros i y [[<- <-]|[_ Hy]]%lookup_insert_Some; eauto.
  - intros i j y z [[<- <-]|[_ Hy]]%lookup_insert_Some [[<- <-]|[_ Hz]]%lookup_insert_Some Hh;
      [done|exfalso; naive_solver..|eauto].
Qed.

Lemma emails_insert (m : gmap string User) k x :
  (∀ i y, i ≠ k → m !! i = Some y → Email y ≠ Email x) →
  (∀ i j x y, m !! i = Some x → m !! j = Some y → Email x = Email y → i = j) →
  ∀ i j y z, <[k := x]> m !! i = Some y → <[k := x]> m !! j = Some z → Email y = Email z → i = j.
Proof.
  intros Hn Hm i j y z [[<- <-]|[? Hy]]%lookup_insert_Some [[<- <-]|[? Hz]]%lookup_insert_Some Hh;
    [done| | |eauto]; exfalso; [eapply Hn; [|exact Hz|]|eapply Hn; [|exact Hy|]]; done.
Qed.

Lemma idstep_wf n d d' : idstep n d d' → identity_wf d → identity_wf d'.
Proof.
  intros Hs W.
  destruct Hs; constructor; cbn; try apply W;
    try (intros; row_origin; row_facts; unfold row_kept, invite_kept, reset_kept,
           verification_kept, code_kept, challenge_kept in *; destruct_and?; subst; split_and?;
         repeat match goal with E : ?f ?y = ?f ?x |- context [?f ?y] => rewrite E end;
         eauto with vane; congruence).
  - apply emails_insert; [|apply W]. eauto.
  - apply emails_insert; [|apply W]. intros i y Hi Hy He. apply Hi.
    eapply (wf_email d W); [done..|congruence].
  - intros. row_origin. by eapply (wf_email d W).
  - apply invites_ok_new; [apply W|done].
  - match goal with K : _ → invites_ok _ |- _ => apply K, W end.
Qed.

Lemma cstep_wf c c' : rtc cstep c c' → identity_wf c.2 → identity_wf c'.2.
Proof.
  induction 1 as [|c1 c2 c3 Hs _ IH]; [done|]. intros W. apply IH.
  destruct Hs; [done|by eapply idstep_wf].
Qed.
End steps.

Lemma empty_wf : identity_wf empty_identity.
Proof. constructor; cbn; try done. Qed.

(** ** Spent tokens *)

(** An invite whose mailed token is [h] was used. *)
Definition spent_invite (h : string) (d : identity) : Prop :=
  ∃ i x, invites d !! i = Some x ∧ InvTokenHash x = h ∧ is_Some (InvUsedAt x).
(** The challenge [jti] was given out before interaction [n], and has no unused
    row: it was used, or is gone with its account. *)
Definition spent_challenge `{!Driver} (jti : string) (n : nat) (d : identity) : Prop :=
  (∃ k, (k < n)%nat ∧ gen_uuid k = jti) ∧
  ∀ x, challenges d !! jti = Some x → is_Some (TfcUsedAt x).

Section spent.
Context `{!Driver}.

Lemma idstep_spent_invite h n d d' : idstep n d d' → spent_invite h d → spent_invite h d'.
Proof.
  intros Hs (i & x & Hx & Hh & Hu). destruct Hs; try (by exists i, x); cbn.
  - exists i, x. cbn. split; [|done]. rewrite lookup_insert_ne; [done|]. congruence.
  - destruct (rows_kept_to _ _ _ _ _ ltac:(eassumption) Hx) as (y & Hy & _ & _ & _ & _ & Hk).
    destruct (Hk Hu). exists i, y. split_and!; [done|congruence|done].
Qed.
Lemma cstep_spent_invite h c c' : rtc cstep c c' → spent_invite h c.2 → spent_invite h c'.2.
Proof.
  induction 1 as [|c1 c2 c3 Hs _ IH]; [done|]. intros W. apply IH.
  destruct Hs; [done|by eapply idstep_spent_invite].
Qed.

(** No invite can be claimed under a spent hash. *)
Lemma spent_invite_used h d i x :
  invites_ok (invites d) → spent_invite h d → invites d !! i = Some x → InvTokenHash x = h →
  is_Some (InvUsedAt x).
Proof.
  intros [_ Hu] (j & y & Hy & Hh & Hy2) Hx Hxh. assert (i = j) as -> by (eapply Hu; [done..|congruence]).
  naive_solver.
Qed.

(** Every challenge's id was generated before. *)
Definition challenges_dated (n : nat) (d : identity) : Prop :=
  ∀ i x, challenges d !! i = Some x → ∃ k, (k < n)%nat ∧ gen_uuid k = i.
Lemma cstep_dated c c' :
  rtc cstep c c' → challenges_dated c.1 c.2 → challenges_dated c'.1 c'.2.
Proof.
  induction 1 as [|c1 c2 c3 Hs _ IH]; [done|]. intros W. apply IH. clear IH.
  assert (∀ n d, challenges_dated n d → challenges_dated (S n) d) as Hup.
  { intros n d Hd i x (k & Hk & E)%Hd. exists k. split; [lia|done]. }
  destruct Hs as [n d|n d d' Hs]; cbn in *; [by apply Hup|].
  destruct Hs; try (by apply Hup in W); intros i y; cbn.
  - intros [Hy _]%map_lookup_filter_Some. by eapply Hup.
  - intros [[<- <-]|[_ Hy]]%lookup_insert_Some; [exists n; split; [lia|done]|by eapply Hup].
  - intros Hy. destruct (rows_kept_from _ _ _ _ _ ltac:(eassumption) Hy) as (x & Hx & _).
    by eapply Hup.
Qed.

Context (uuid_fresh : ∀ j k, gen_uuid j = gen_uuid k → j = k).

Lemma cstep_spent_challenge jti c c' :
  rtc cstep c c' → spent_challenge jti c.1 c.2 → spent_challenge jti c'.1 c'.2.
Proof.
  induction 1 as [|c1 c2 c3 Hs _ IH]; [done|]. intros W. apply IH. clear IH.
  destruct W as [(k & Hk & Ek) W]. split; [exists k; split; [destruct Hs; cbn in *; lia|done]|].
  destruct Hs as [n d|n d d' Hs]; cbn in *; [done|].
  destruct Hs; try done; cbn.
  - intros x [Hx _]%map_lookup_filter_Some. eauto.
  - intros y [[E <-]|[_ Hy]]%lookup_insert_Some; [|eauto].
    assert (k = n) by (apply uuid_fresh; congruence). lia.
  - intros y Hy. destruct (rows_kept_from _ _ _ _ _ ltac:(eassumption) Hy) as (x & Hx & _ & _ & Hu).
    eauto.
Qed.

(** A session's id, given out before interaction [n], whose row - while there is
    one - has the property. *)
Definition session_fact (Q : DeviceSession → Prop) (sid : string) (n : nat) (d : identity) : Prop :=
  (∃ k, (k < n)%nat ∧ gen_uuid k = sid) ∧ ∀ x, device_sessions d !! sid = Some x → Q x.
Lemma cstep_session_fact (Q : DeviceSession → Prop) sid c c' :
  (∀ x y, row_kept x y → Q x → Q y) →
  rtc cstep c c' → session_fact Q sid c.1 c.2 → session_fact Q sid c'.1 c'.2.
Proof.
  intros HQ. induction 1 as [|c1 c2 c3 Hs _ IH]; [done|]. intros W. apply IH. clear IH.
  destruct W as [(k & Hk & Ek) W]. split; [exists k; split; [destruct Hs; cbn in *; lia|done]|].
  destruct Hs as [n d|n d d' Hs]; cbn in *; [done|].
  destruct Hs; try done; cbn.
  - intros x [Hx _]%map_lookup_filter_Some. eauto.
  - intros y [[E <-]|[_ Hy]]%lookup_insert_Some; [|eauto].
    assert (k = n) by (apply uuid_fresh; congruence). lia.
  - intros y Hy. destruct (rows_kept_from _ _ _ _ _ ltac:(eassumption) Hy) as (x & Hx & Hxy).
    eapply HQ; [exact Hxy|eauto].
Qed.
End spent.

(** Every device session's id was generated before. *)
Definition sessions_dated `{!Driver} (n : nat) (d : identity) : Prop :=
  ∀ i x, device_sessions d !! i = Some x → ∃ k, (k < n)%nat ∧ gen_uuid k = i.
Lemma cstep_sessions_dated `{!Driver} c c' :
  rtc cstep c c' → sessions_dated c.1 c.2 → sessions_dated c'.1 c'.2.
Proof.
  induction 1 as [|c1 c2 c3 Hs _ IH]; [done|]. intros W. apply IH. clear IH.
  assert (∀ n d, sessions_dated n d → sessions_dated (S n) d) as Hup.
  { intros n d Hd i x (k & Hk & E)%Hd. exists k. split; [lia|done]. }
  destruct Hs as [n d|n d d' Hs]; cbn in *; [by apply Hup|].
  destruct Hs; try (by apply Hup in W); intros i y; cbn.
  - intros [Hy _]%map_lookup_filter_Some. by eapply Hup.
  - intros [[<- <-]|[_ Hy]]%lookup_insert_Some; [exists n; split; [lia|done]|by eapply Hup].
  - intros Hy. destruct (rows_kept_from _ _ _ _ _ ltac:(eassumption) Hy) as (x & Hx & _).
    by eapply Hup.
Qed.
