(* ===== verification/Api.v ===== *)
(** * Requests (internal/api: middleware, tenant context, pagination)

    An HTTP request runs on one database, [database], through a chain of
    middleware: [RequireAuth] on a pooled connection, [TenantContext] that opens
    the tenant transaction the handler runs in, [RequireRole].  A handler is code
    in the error monad whose error is the response it has already written. *)

From stdpp Require Import numbers strings gmap list.
From Stdlib Require Import ZArith Lia Ascii.
From S2P Require Import Prelude GoNum Db Schema Intervals World Identity Secrets Auth LLMProviders Providers.

#[local] Open Scope Z_scope.
#[local] Open Scope go_scope.

(** ** Responses *)

(** A body: [ErrorBody msg] is the object whose "error" is [msg]. *)
Inductive body (P : Type) :=
| ErrorBody (msg : string)
| Json (p : P).
Arguments ErrorBody {P} msg.
Arguments Json {P} p.

Record response (P : Type) := Response {
  rsp_status : Z;
  rsp_body : body P;
}.
Arguments Response {P} _ _.
Arguments rsp_status {P} _.
Arguments rsp_body {P} _.

Definition StatusOK : Z := 200.
Definition StatusCreated : Z := 201.
Definition StatusUnauthorized : Z := 401.
Definition StatusForbidden : Z := 403.
Definition StatusNotFound : Z := 404.
Definition StatusConflict : Z := 409.
Definition StatusUnprocessableEntity : Z := 422.
Definition StatusInternalServerError : Z := 500.

Definition writeUnauthorized {P} : response P := Response StatusUnauthorized (ErrorBody "unauthorized").
Definition writeForbidden {P} : response P := Response StatusForbidden (ErrorBody "forbidden").
Definition writeInternalError {P} : response P :=
  Response StatusInternalServerError (ErrorBody "internal server error").

(** ** Pagination *)

Definition digit_of (a : ascii) : option Z :=
  let n := Z.of_nat (nat_of_ascii a) in
  if (48 <=? n) && (n <=? 57) then Some (n - 48) else None.

Fixpoint digits (acc : Z) (s : string) : option Z :=
  match s with
  | EmptyString => Some acc
  | String a s =>
      match digit_of a with
      | Some d => digits (10 * acc + d) s
      | None => None
      end
  end.

(** strconv.Atoi: an optional sign and decimal digits, within the range of int. *)
Definition Atoi (s : string) : option Z :=
  let '(sign, rest) :=
    match s with
    | String a rest =>
        if Ascii.eqb a "-"%char then (-1, rest)
        else if Ascii.eqb a "+"%char then (1, rest) else (1, s)
    | EmptyString => (1, EmptyString)
    end in
  match rest with
  | EmptyString => None
  | _ => match digits 0 rest with
         | Some n => if decide (in_int64 (sign * n)) then Some (sign * n) else None
         | None => None
         end
  end.

(** [parsePage] of the query's raw value. *)
Definition parsePage (raw : string) : Z :=
  if String.eqb raw "" then 1
  else match Atoi raw with
       | Some page => if page <? 1 then 1 else page
       | None => 1
       end.

(** ** One database *)

Record database := {
  db_identity : identity;
  db_core : core;
  db_intervals : gmap string StatusInterval;
  db_providers : providers_db;
}.
Definition set_identity (i : identity) (d : database) : database :=
  {| db_identity := i; db_core := db_core d; db_intervals := db_intervals d; db_providers := db_providers d |}.
Definition set_db_core (c : core) (d : database) : database :=
  {| db_identity := db_identity d; db_core := c; db_intervals := db_intervals d; db_providers := db_providers d |}.
Definition set_db_providers (p : providers_db) (d : database) : database :=
  {| db_identity := db_identity d; db_core := db_core d; db_intervals := db_intervals d; db_providers := p |}.
(** The intervals' side of it: their foreign key is the services there are. *)
Definition iv_of (d : database) : iv_db :=
  {| intervals := db_intervals d; service_ids := dom (services (db_core d)) |}.
Definition set_iv (v : iv_db) (d : database) : database :=
  {| db_identity := db_identity d; db_core := db_core d; db_intervals := intervals v;
     db_providers := db_providers d |}.

Definition retable {D E} (d : E) (s : session D) : session E :=
  Session d (app_tenant s) (bypass_rls s) (tx_start s) (aborted s) (tick s).

(** Code that works on a part of the database, on a session of the whole. *)
Definition focus {D E A} (proj : D → E) (inj : E → D → D) (m : M (session E) db_err A) :
    M (session D) db_err A :=
  λ s, let '(r, s') := m (retable (proj (tables s)) s) in
       (r, retable (inj (tables s') (tables s)) s').

Definition on_identity {A} (m : M (session identity) db_err A) : M (session database) db_err A :=
  focus db_identity set_identity m.
Definition on_db_core {A} (m : M (session core) db_err A) : M (session database) db_err A :=
  focus db_core set_db_core m.
Definition on_intervals {A} (m : M (session iv_db) db_err A) : M (session database) db_err A :=
  focus iv_of set_iv m.
Definition on_providers {A} (m : M (session providers_db) db_err A) : M (session database) db_err A :=
  focus db_providers set_db_providers m.

(** ** A request's state and context *)

(** The connection the request's context stands for, the notifications handed to
    the notify service (tenant, resolved or opened, summary), the account mails
    the sender accepted, the goroutines started and not run yet, and how many
    questions were put to the machine; and when each status page and each domain
    was last verified (the two handlers' [lastVerifyAt]).  [h_own] is the database
    as it is committed while a request's transaction is open: what a rollback goes
    back to.  It is not where the request found it when the handler called a
    repository method that commits a transaction of its own. *)
Record hstate := HState {
  h_db : session database;
  h_mails : list (string * bool * IncidentSummary);
  h_sent : list account_mail;
  h_tasks : list task;
  h_ev : nat;
  h_page_checks : gmap string Z;
  h_domain_checks : gmap string Z;
  h_own : database;
}.
Definition set_h_db (c : session database) (s : hstate) : hstate :=
  HState c (h_mails s) (h_sent s) (h_tasks s) (h_ev s)
    (h_page_checks s) (h_domain_checks s) (h_own s).
Definition add_mail (m : string * bool * IncidentSummary) (s : hstate) : hstate :=
  HState (h_db s) (h_mails s ++ [m]) (h_sent s) (h_tasks s) (h_ev s)
    (h_page_checks s) (h_domain_checks s) (h_own s).
Definition add_sent (m : account_mail) (s : hstate) : hstate :=
  HState (h_db s) (h_mails s) (h_sent s ++ [m]) (h_tasks s) (h_ev s)
    (h_page_checks s) (h_domain_checks s) (h_own s).
Definition set_tasks (l : list task) (s : hstate) : hstate :=
  HState (h_db s) (h_mails s) (h_sent s) l (h_ev s)
    (h_page_checks s) (h_domain_checks s) (h_own s).
Definition bump_h_ev (s : hstate) : hstate :=
  HState (h_db s) (h_mails s) (h_sent s) (h_tasks s) (S (h_ev s))
    (h_page_checks s) (h_domain_checks s) (h_own s).
Definition set_page_checks (m : gmap string Z) (s : hstate) : hstate :=
  HState (h_db s) (h_mails s) (h_sent s) (h_tasks s) (h_ev s) m (h_domain_checks s) (h_own s).
Definition set_domain_checks (m : gmap string Z) (s : hstate) : hstate :=
  HState (h_db s) (h_mails s) (h_sent s) (h_tasks s) (h_ev s) (h_page_checks s) m (h_own s).
Definition set_h_own (d : database) (s : hstate) : hstate :=
  HState (h_db s) (h_mails s) (h_sent s) (h_tasks s) (h_ev s) (h_page_checks s) (h_domain_checks s) d.

(** What the middleware puts in the context: the user and tenant of
    [RequireAuth], the device session, the role of [TenantContext]. *)
Record rctx := RCtx {
  cx_user : User;
  cx_tenant : string;
  cx_session : string;
  cx_role : option string;
}.
Definition WithRole (role : string) (c : rctx) : rctx :=
  RCtx (cx_user c) (cx_tenant c) (cx_session c) (Some role).

Definition handler (P : Type) : Type := rctx → hstate → response P * hstate.

(** The headers the middleware reads. *)
Record credentials := {
  Authorization : string;
  SessionCookie : option string;
}.

Definition bearerToken (header : string) : string :=
  if String.prefix "Bearer " header
  then String.substring 7 (String.length header - 7) header else "".
Definition sessionCookieToken (c : credentials) : string := default "" (SessionCookie c).
Definition request_token (c : credentials) : string :=
  let token := bearerToken (Authorization c) in
  if String.eqb token "" then sessionCookieToken c else token.

(** ** Middleware *)

Section middleware.
Context `{!Driver, !Jwt} {P : Type}.

Definition RequireAuth (now : Z) (secret : string) (req : credentials) (next : handler P)
    (s : hstate) : response P * hstate :=
  let token := request_token req in
  if String.eqb token "" then (writeUnauthorized, s)
  else
    match VerifySessionClaims now token secret with
    | Err _ => (writeUnauthorized, s)
    | Ok claims =>
        match on_identity (GetUser (AdminID claims)) (h_db s) with
        | (Err _, c) => (writeUnauthorized, set_h_db c s)
        | (Ok user, c) =>
            let revoked := match SessionsRevokedAt user with
                           | Some t => time_before (ScIssuedAt claims) t
                           | None => false
                           end in
            if revoked then (writeUnauthorized, set_h_db c s)
            else
              match on_identity (GetSession (ScSessionID claims)) c with
              | (Err _, c) => (writeUnauthorized, set_h_db c s)
              | (Ok sess, c) =>
                  match RevokedAt sess with
                  | Some _ => (writeUnauthorized, set_h_db c s)
                  | None =>
                      let '(_, c) := on_identity (TouchLastSeen (DsID sess)) c in
                      next (RCtx user (ScTenantID claims) (DsID sess) None) (set_h_db c s)
                  end
              end
        end
    end.

(** The role of the caller in the active tenant, "" without one. *)
Definition resolve_role (c : rctx) (tx : session database) : res db_err string * session database :=
  if String.eqb (cx_tenant c) "" then (Ok "", tx)
  else
    match on_identity (GetRole (UserID (cx_user c)) (UserID (cx_user c)) (cx_tenant c)) tx with
    | (Ok role, tx) => (Ok role, tx)
    | (Err ErrNotFound, tx) => (Ok "", tx)
    | (Err e, tx) => (Err e, tx)
    end.

(** The pool connection after the request's transaction was rolled back. *)
Definition rolled_back (s1 : hstate) (pool : session database) : session database :=
  set_tables (h_own s1) (tx_rollback (h_db s1) pool).

Definition TenantContext (next : handler P) (c : rctx) (s : hstate) : response P * hstate :=
  match BeginTenantTx (UserID (cx_user c)) (cx_tenant c) (h_db s) with
  | (Err _, pool) => (writeInternalError, set_h_db pool s)
  | (Ok tx, pool) =>
      match resolve_role c tx with
      | (Err _, tx) => (writeInternalError, set_h_db (tx_rollback tx pool) s)
      | (Ok role, tx) =>
          let '(rsp, s1) := next (WithRole role c) (set_h_own (tables pool) (set_h_db tx s)) in
          if StatusInternalServerError <=? rsp_status rsp
          then (rsp, set_h_db (rolled_back s1 pool) s1)
          else
            match tx_commit (h_db s1) pool with
            | (Ok _, pool) => (rsp, set_h_db pool s1)
            | (Err _, pool) => (rsp, set_h_db (rolled_back s1 pool) s1)
            end
      end
  end.

Definition RequireRole (roles : list string) (next : handler P) (c : rctx) (s : hstate) :
    response P * hstate :=
  match cx_role c with
  | None => (writeForbidden, s)
  | Some role => if bool_decide (role ∈ roles) then next c s else (writeForbidden, s)
  end.
End middleware.

(** ** Lemmas *)

Section api_lemmas.
Context `{!Driver, !Jwt} {P : Type}.
Implicit Types next : handler P.

(** Code on a part of the database keeps what that part's relation keeps. *)
Lemma focus_preserves {D E A} (proj : D → E) (inj : E → D → D)
    (R : string → bool → relation E) (m : M (session E) db_err A) :
  (∀ e d, proj (inj e d) = e) → preserves R m →
  preserves (λ t b d d', R t b (proj d) (proj d')) (focus proj inj m).
Proof.
  intros Hl Hm s. unfold focus. destruct (Hm (retable (proj (tables s)) s)) as (H1 & H2 & H3).
  destruct (m _) as [r s']. cbn in *. by rewrite Hl, H2, H3.
Qed.

(** Identity code leaves the rest of the database and the settings alone. *)
Lemma on_identity_rest {A} (m : M (session identity) db_err A) s :
  keeps m →
  app_tenant (on_identity m s).2 = app_tenant s ∧ bypass_rls (on_identity m s).2 = bypass_rls s ∧
  db_core (tables (on_identity m s).2) = db_core (tables s).
Proof.
  intros Hm. unfold on_identity, focus. destruct (Hm (retable (db_identity (tables s)) s)) as (_ & H1 & H2).
  by destruct (m _) as [r s'].
Qed.

Lemma GetUser_inv id s r s' :
  on_identity (GetUser id) s = (r, s') → tables s' = tables s.
Proof.
  unfold on_identity, focus, GetUser, bind. destruct (query _ _) as [q s1] eqn:Eq.
  assert (tables s1 = db_identity (tables s)) as Ht.
  { apply stmt_inv in Eq as [(e & _ & ->)|(a & d & [= <- <-] & _ & ->)]; done. }
  destruct q as [[x|]|e]; cbn; intros [= _ <-]; cbn; rewrite Ht; by destruct (tables s).
Qed.

Lemma GetSession_inv id s r s' :
  on_identity (GetSession id) s = (r, s') →
  tables s' = tables s ∧
  ∀ x, r = Ok x → device_sessions (db_identity (tables s)) !! id = Some x.
Proof.
  unfold on_identity, focus, GetSession, bind. destruct (query _ _) as [q s1] eqn:Eq.
  assert (tables s1 = db_identity (tables s)) as Ht.
  { apply stmt_inv in Eq as [(e & _ & ->)|(a & d & [= <- <-] & _ & ->)]; done. }
  destruct q as [[x|]|e]; cbn; intros [= <- <-]; cbn; rewrite Ht; (split; [by destruct (tables s)|]);
    [|done..].
  intros y [= <-]. by apply query_Ok_inv in Eq as [Hx _].
Qed.

Lemma GetRole_inv u t s r s' :
  on_identity (GetRole u u t) s = (r, s') →
  tables s' = tables s ∧ app_tenant s' = app_tenant s ∧ bypass_rls s' = bypass_rls s ∧
  tx_start s' = tx_start s ∧
  ∀ role, r = Ok role → role_of (db_identity (tables s)) u t = Some role ∧
    status_of (db_identity (tables s)) t = Some "active".
Proof.
  unfold on_identity, focus, GetRole, bind. destruct (query _ _) as [q s1] eqn:Eq.
  assert (tables s1 = db_identity (tables s) ∧ app_tenant s1 = app_tenant s ∧
          bypass_rls s1 = bypass_rls s ∧ tx_start s1 = tx_start s) as (Ht & Ha & Hb & Hx0).
  { pose proof Eq as Eq'. unfold query in Eq'. pose proof (stmt_tx _ _ _ _ Eq').
    apply stmt_settings_eq in Eq' as [Ea Eb].
    apply stmt_inv in Eq as [(e & _ & ->)|(a & d & [= <- <-] & _ & ->)]; done. }
  destruct q as [[x|]|e]; cbn; intros [= <- <-]; cbn; rewrite Ht;
    (split_and!; [by destruct (tables s)|done|done|done|]); [|done..].
  intros y [= <-]. apply query_Ok_inv in Eq as [Hx _]. cbn in Hx.
  unfold role_of, status_of.
  destruct (memberships _ !! _) as [m|]; [|done]. destruct (tenants _ !! t) as [st|]; [|done].
  destruct (String.eqb_spec (TenStatus st) "active") as [Est|Est]; [|by rewrite andb_false_r in Hx].
  cbn. rewrite Est. match type of Hx with context [if ?b then _ else _] => destruct b end; [|done].
  by injection Hx as <-.
Qed.

Lemma resolve_role_inv c tx r tx' :
  resolve_role c tx = (r, tx') →
  tables tx' = tables tx ∧ app_tenant tx' = app_tenant tx ∧ bypass_rls tx' = bypass_rls tx ∧
  tx_start tx' = tx_start tx ∧
  ∀ role, r = Ok role → role = "" ∨
    (cx_tenant c ≠ "" ∧
     role_of (db_identity (tables tx)) (UserID (cx_user c)) (cx_tenant c) = Some role ∧
     status_of (db_identity (tables tx)) (cx_tenant c) = Some "active").
Proof.
  unfold resolve_role. destruct (String.eqb_spec (cx_tenant c) "") as [|Hne].
  { intros [= <- <-]. split_and!; [done..|]. intros role [= <-]. by left. }
  destruct (on_identity _ tx) as [q tx1] eqn:Eq. apply GetRole_inv in Eq as (H1 & H2 & H3 & H5 & H4).
  intros Hr. assert (tx1 = tx') as -> by (destruct q as [|[]]; by simplify_eq).
  split_and!; [done..|]. intros role ->.
  destruct q as [role'|[]]; simplify_eq; [right|by left]. split; [done|]. by apply H4.
Qed.

(** What a request through the tenant context can do: nothing, or what its
    handler did in a run that was committed, or what the handler's own transactions
    did in a run that was rolled back. *)
Lemma TenantContext_inv next c s rsp s' :
  TenantContext next c s = (rsp, s') →
  app_tenant (h_db s') = app_tenant (h_db s) ∧ bypass_rls (h_db s') = bypass_rls (h_db s) ∧
  ((tables (h_db s') = tables (h_db s) ∧ h_mails s' = h_mails s ∧ rsp = writeInternalError) ∨
   ∃ role h h', next (WithRole role c) h = (rsp, h') ∧
     tables (h_db h) = tables (h_db s) ∧ h_own h = tables (h_db s) ∧ h_mails h = h_mails s ∧
     app_tenant (h_db h) = cx_tenant c ∧ bypass_rls (h_db h) = bypass_rls (h_db s) ∧
     is_Some (tx_start (h_db h)) ∧
     (role = "" ∨
      (cx_tenant c ≠ "" ∧
       role_of (db_identity (tables (h_db s))) (UserID (cx_user c)) (cx_tenant c) = Some role ∧
       status_of (db_identity (tables (h_db s))) (cx_tenant c) = Some "active")) ∧
     h_mails s' = h_mails h' ∧
     (tables (h_db s') = h_own h' ∨
      (rsp_status rsp < 500 ∧ aborted (h_db h') = false ∧
       tables (h_db s') = tables (h_db h')))).
Proof.
  unfold TenantContext. destruct (BeginTenantTx _ _ _) as [[tx|e] pool] eqn:EB;
    apply BeginTenantTx_inv in EB as (E1 & E2 & E3 & Htx).
  2:{ intros [= <- <-]. cbn. split_and!; [done..|]. by left. }
  destruct Htx as (F1 & F2 & F3 & F4 & _).
  destruct (resolve_role c tx) as [[role|e] tx1] eqn:ER; apply resolve_role_inv in ER as (G1 & G2 & G3 & G5 & G4).
  2:{ intros [= <- <-]. cbn. split_and!; [done..|]. by left. }
  destruct (next (WithRole role c) (set_h_own (tables pool) (set_h_db tx1 s))) as [rsp1 s1] eqn:EN.
  match goal with |- _ → ?G =>
    assert (∀ pool', (tables pool' = h_own s1 ∨
        (rsp_status rsp1 < 500 ∧ aborted (h_db s1) = false ∧ tables pool' = tables (h_db s1))) →
      app_tenant pool' = app_tenant (h_db s) → bypass_rls pool' = bypass_rls (h_db s) →
      (rsp1, set_h_db pool' s1) = (rsp, s') → G) as Hrun
  end.
  2:{ destruct (Z.leb_spec StatusInternalServerError (rsp_status rsp1)) as [Hs|Hs].
      - apply Hrun; [by left|done|done].
      - unfold tx_commit. destruct (aborted (h_db s1)) eqn:Hab;
          [apply Hrun; [by left|done|done]|].
        destruct (event_fails _); apply Hrun; cbn; try done; [by left|by right]. }
  intros pool' Ht Ha Hb [= -> <-]. cbn. split_and!; [done..|]. right.
  exists role, (set_h_own (tables pool) (set_h_db tx1 s)), s1. rewrite <- F1.
  split_and!; cbn; try done; try congruence. by apply G4.
Qed.
End api_lemmas.

(** ** Properties *)

(** C34: logging a device out is final.  Once a session row was revoked, by its id
    or with all of its user's, no later sequence of session operations, whatever
    of it fails, makes a token of that session pass: RequireAuth answers 401 and
    neither runs the handler nor changes the database. *)
Theorem logout_is_final `{!Driver, !Jwt} {P} (l : list session_op) (id : string) (x : DeviceSession)
    (s0 s1 : session identity) (now : Z) (secret : string) (req : credentials) (next : handler P)
    (s : hstate) :
  device_sessions (tables s0) !! id = Some x → DsID x = id →
  Revoke id s0 = (Ok tt, s1) ∨ RevokeAllForUser (DsUserID x) s0 = (Ok tt, s1) →
  db_identity (tables (h_db s)) = tables (run_session_ops l s1) →
  (∀ c, VerifySessionClaims now (request_token req) secret = Ok c → ScSessionID c = id) →
  let '(rsp, s') := RequireAuth now secret req next s in
  rsp = writeUnauthorized ∧ tables (h_db s') = tables (h_db s) ∧ h_mails s' = h_mails s.
Proof.
  intros Hx Hid Hr Hd Hc.
  assert (∃ y t, device_sessions (db_identity (tables (h_db s))) !! id = Some y ∧
                 RevokedAt y = Some t) as (y & t & Hy & Hrev).
  { assert (∃ y t, device_sessions (tables s1) !! id = Some y ∧ RevokedAt y = Some t)
      as (y & t & Hy & Hrev).
    { destruct Hr as [Hr|Hr]; unfold Revoke, RevokeAllForUser, update_sessions in Hr;
        apply stmt_Ok_inv in Hr as (d & [= <-] & -> & _); cbn; rewrite lookup_fmap, Hx; cbn;
        rewrite ?Hid, String.eqb_refl; unfold live_session; destruct (RevokedAt x) eqn:E; eauto. }
    destruct (run_session_ops_keeps l s1 id y Hy) as (z & Hz & _ & _ & Hk).
    rewrite Hd. eauto. }
  unfold RequireAuth. destruct (String.eqb _ ""); [done|].
  destruct (VerifySessionClaims now _ secret) as [c|e] eqn:Ev; [|done].
  specialize (Hc c eq_refl). destruct (on_identity (GetUser _) _) as [[u|e] c1] eqn:Eu;
    apply GetUser_inv in Eu; [|done].
  destruct (match SessionsRevokedAt u with Some _ => _ | None => _ end); [done|].
  destruct (on_identity (GetSession _) c1) as [[z|e] c2] eqn:Es;
    apply GetSession_inv in Es as [Et Ez]; rewrite Eu in Et; [|done].
  specialize (Ez z eq_refl). rewrite Hc, Eu, Hy in Ez. injection Ez as <-. by rewrite Hrev.
Qed.

(** the role gate fails closed.  A role-gated route does nothing, and answers
    403 or 500, unless the session's active tenant is active and the caller's
    membership there has one of the route's roles at the time of the request. *)
Theorem role_gate `{!Driver} {P} (roles : list string) (next : handler P) (c : rctx) (s : hstate) :
  "" ∉ roles →
  let '(rsp, s') := TenantContext (RequireRole roles next) c s in
  (∃ role, role ∈ roles ∧ cx_tenant c ≠ "" ∧
     role_of (db_identity (tables (h_db s))) (UserID (cx_user c)) (cx_tenant c) = Some role ∧
     status_of (db_identity (tables (h_db s))) (cx_tenant c) = Some "active") ∨
  (tables (h_db s') = tables (h_db s) ∧ h_mails s' = h_mails s ∧
   (rsp = writeForbidden ∨ rsp = writeInternalError)).
Proof.
  intros Hroles. destruct (TenantContext _ c s) as [rsp s'] eqn:ET.
  apply TenantContext_inv in ET as (_ & _ & [(H1 & H2 & H3)|(role & h & h' & Hn & H1 & Ho & H2 & _ & _ & _ & Hrole & Hm & Ht)]).
  { right. auto. }
  unfold RequireRole in Hn. cbn in Hn. destruct (bool_decide_reflect (role ∈ roles)) as [Hin|Hin].
  - left. exists role. destruct Hrole as [->|(? & ? & ?)]; [done|]. done.
  - right. injection Hn as <- <-. split_and!; [|congruence|by left].
    destruct Ht as [->|(_ & _ & ->)]; congruence.
Qed.

(** C36: what a request through the tenant context can leave.  The database as it
    was; or its handler ran, for exactly the session's active tenant, on a
    transaction that started from the database as it was, and then one of two: it
    answered under 500 and left the transaction sound, and the database is what the
    handler made of it; or the transaction is not committed, and the database is
    what the handler's own transactions committed, even behind a 500 -- the
    database as it was when there were none. *)
Theorem TenantContext_atomic `{!Driver} {P} (next : handler P) (c : rctx) (s : hstate) :
  let '(rsp, s') := TenantContext next c s in
  tables (h_db s') = tables (h_db s) ∨
  ∃ role h h', next (WithRole role c) h = (rsp, h') ∧ tables (h_db h) = tables (h_db s) ∧
    h_own h = tables (h_db s) ∧
    app_tenant (h_db h) = cx_tenant c ∧ bypass_rls (h_db h) = bypass_rls (h_db s) ∧
    (tables (h_db s') = h_own h' ∨
     (rsp_status rsp < 500 ∧ aborted (h_db h') = false ∧ tables (h_db s') = tables (h_db h'))).
Proof.
  destruct (TenantContext next c s) as [rsp s'] eqn:ET.
  apply TenantContext_inv in ET as
    (_ & _ & [(H1 & _)|(role & h & h' & Hn & H1 & Ho & _ & H3 & H4 & _ & _ & _ & Ht)]); [by left|].
  right. by exists role, h, h'.
Qed.

(** ** Examples and witnesses *)

Definition demo_user : User :=
  {| UserID := "user-1"; Email := "a@example.com"; PasswordHash := ""; UserName := "A"; Phone := None;
     SessionsRevokedAt := None; EmailVerifiedAt := None; UserCreatedAt := 0 |}.
Definition demo_device : DeviceSession :=
  {| DsID := "sid-1"; DsUserID := "user-1"; UserAgent := None; IP := None; DsCreatedAt := 0;
     DsLastSeenAt := None; RevokedAt := None |}.
Definition demo_tenant : Tenant :=
  {| TenID := "tenant-a"; TenName := "A"; TenSlug := None; TenPlan := "free"; TenStatus := "active";
     TenContactEmail := ""; TenLogoData := None; TenLogoContentType := None; TenLegalName := None;
     TenTaxID := None; TenTaxIDType := None; TenBillingAddress := None; TenLocale := "pt-BR";
     TenPrimaryColor := None; TenSecondaryColor := None; TenWebsite := None; TenTimezone := None;
     TenDeletedAt := None; TenCreatedAt := 0; TenLastDigestSentAt := None |}.
Definition demo_identity : identity :=
  set_users (λ _, {["user-1" := demo_user]})
    (set_device_sessions (λ _, {["sid-1" := demo_device]})
    (set_memberships (λ _, {[("user-1", "tenant-a") := {| MbRole := RoleOperator; MbCreatedAt := 0 |}]})
    (set_tenants (λ _, {["tenant-a" := demo_tenant]}) empty_identity))).
Definition demo_id_session : session identity := Session demo_identity "" false None false 0.
Definition empty_core : core :=
  {| services := ∅; status_page_services := ∅; integrations := ∅; incidents := ∅;
     incident_services := []; incident_updates := []; status_pages := ∅;
     status_page_service_groups := ∅; domains := ∅ |}.
Definition demo_hstate (i : identity) (d : core) : hstate :=
  HState (Session {| db_identity := i; db_core := d; db_intervals := ∅; db_providers := empty_providers |} "" false None false 0) [] [] [] 0 ∅ ∅ {| db_identity := i; db_core := d; db_intervals := ∅; db_providers := empty_providers |}.

(** A token of the demo session, for tenant-a. *)
Definition demo_token : string :=
  match @IssueSessionWithTenant demo_jwt 0 "user-1" "tenant-a" "sid-1" "secret" with
  | Ok t => t
  | Err _ => ""
  end.
Definition demo_credentials : credentials :=
  {| Authorization := String.append "Bearer " demo_token; SessionCookie := None |}.

(** A handler that answers 200 and mails, to see whether it runs. *)
Definition demo_next : handler unit := λ _ s,
  (Response 200 (Json tt),
   add_mail ("tenant-a", true,
             {| SumIncidentID := ""; SumTitle := ""; SumSeverity := ""; SumServiceName := "";
                SumStatus := ""; SumOpenedAt := 0; SumResolvedAt := None; SumDescription := "" |}) s).

Example live_session_passes :
  rsp_status (@RequireAuth reliable demo_jwt unit 5 "secret" demo_credentials demo_next
                (demo_hstate demo_identity empty_core)).1 = 200.
Proof. vm_compute. reflexivity. Qed.

Example page_examples :
  (parsePage "", parsePage "3", parsePage "-2", parsePage "x", parsePage "99999999999999999999")
  = (1, 3, 1, 1, 1).
Proof. vm_compute. reflexivity. Qed.

Lemma logout_is_final_witness :
  (@RequireAuth reliable demo_jwt unit 5 "secret" demo_credentials demo_next
     (demo_hstate (tables (@run_session_ops reliable [OpTouchLastSeen "sid-1"; OpRevoke "sid-1"]
        (@Revoke reliable "sid-1" demo_id_session).2)) empty_core)).1 = writeUnauthorized.
Proof.
  pose proof (@logout_is_final reliable demo_jwt unit [OpTouchLastSeen "sid-1"; OpRevoke "sid-1"]
    "sid-1" demo_device demo_id_session (@Revoke reliable "sid-1" demo_id_session).2 5 "secret"
    demo_credentials demo_next
    (demo_hstate (tables (@run_session_ops reliable [OpTouchLastSeen "sid-1"; OpRevoke "sid-1"]
        (@Revoke reliable "sid-1" demo_id_session).2)) empty_core)) as Hl.
  destruct (RequireAuth 5 "secret" demo_credentials demo_next _) as [rsp s'].
  apply Hl; [reflexivity|reflexivity|left; reflexivity|reflexivity|].
  assert (@VerifySessionClaims demo_jwt 5 (request_token demo_credentials) "secret" =
    Ok {| AdminID := "user-1"; ScIssuedAt := 0; ScTenantID := "tenant-a"; ScSessionID := "sid-1" |})
    as Hv by (vm_compute; reflexivity).
  intros c Hc. rewrite Hv in Hc. injection Hc as <-. reflexivity.
Defined.

(** A handler that empties the account tables and answers [code]. *)
Definition demo_erasing (code : Z) : handler unit := λ _ s,
  (Response code (Json tt), set_h_db (set_tables (set_identity empty_identity (tables (h_db s))) (h_db s)) s).
Lemma TenantContext_atomic_witness :
  let c := RCtx demo_user "tenant-a" "sid-1" None in
  let s := demo_hstate demo_identity empty_core in
  let run code := @TenantContext reliable unit (demo_erasing code) c s in
  tables (h_db (run 500).2) = tables (h_db s) ∧
  ∃ role h h', demo_erasing 200 (WithRole role c) h = ((run 200).1, h') ∧
    app_tenant (h_db h) = "tenant-a" ∧ tables (h_db (run 200).2) = tables (h_db h').
Proof.
  cbv zeta. split; [vm_compute; reflexivity|].
  pose proof (@TenantContext_atomic reliable unit (demo_erasing 200) (RCtx demo_user "tenant-a" "sid-1" None)
    (demo_hstate demo_identity empty_core)) as Ht.
  assert (∀ x, x = (@TenantContext reliable unit (demo_erasing 200) (RCtx demo_user "tenant-a" "sid-1" None)
    (demo_hstate demo_identity empty_core)).2 →
    tables (h_db x) ≠ tables (h_db (demo_hstate demo_identity empty_core))) as Hne.
  { intros x -> E. apply (f_equal (λ d, size (users (db_identity d)))) in E. vm_compute in E. discriminate E. }
  destruct (@TenantContext reliable unit (demo_erasing 200) _ _) as [rsp s']. specialize (Hne s' eq_refl).
  destruct Ht as [Ht|(role & h & h' & Hn & _ & Ho & Ha & _ & [Ht|(_ & _ & Ht)])]; [destruct (Hne Ht)| |].
  - destruct Hne. rewrite Ht, <- Ho. unfold demo_erasing in Hn. injection Hn as _ <-. reflexivity.
  - exists role, h, h'. split; [exact Hn|]. split; [exact Ha|exact Ht].
Defined.

Lemma role_gate_witness :
  let c := RCtx demo_user "tenant-b" "sid-1" None in
  let '(rsp, s') := @TenantContext reliable unit
    (RequireRole [RoleOwner; RoleOperator] demo_next) c (demo_hstate demo_identity empty_core) in
  h_mails s' = [].
Proof.
  cbv zeta. pose proof (@role_gate reliable unit [RoleOwner; RoleOperator] demo_next
    (RCtx demo_user "tenant-b" "sid-1" None) (demo_hstate demo_identity empty_core)) as Hg.
  destruct (TenantContext _ _ _) as [rsp s'].
  destruct Hg as [(role & _ & _ & Hm & _)|(_ & Hm & _)].
  - rewrite !elem_of_cons, elem_of_nil. intros [?|[?|[]]]; discriminate.
  - vm_compute in Hm. discriminate Hm.
  - exact Hm.
Defined.
