(* ===== verification/Inert.v ===== *)
(** * Reading only

    [inert m]: whatever happens, [m] leaves the tables and the connection's
    settings as they are.  The repositories' reads are. *)

From stdpp Require Import numbers strings gmap list sorting.
From Stdlib Require Import ZArith Lia.
From S2P Require Import Prelude GoNum Db Schema Services Placements Secrets Domains StatusPages Intervals Incidents Identity Accounts TwoFactor LLMProviders Providers Tenants Api.

#[local] Open Scope Z_scope.
#[local] Open Scope go_scope.

Definition untouched_db {D} : string → bool → relation D := λ _ _, eq.
#[global] Instance untouched_db_preorder {D} t b : PreOrder (@untouched_db D t b).
Proof. unfold untouched_db. apply _. Qed.

(** Whatever happens, the tables and the connection's settings stay. *)
Abbreviation inert := (preserves untouched_db).

Section inert.
Context `{!Driver}.

Lemma inert_query {D A} (f : session D → A) : inert (query f).
Proof.
  intros s. destruct (stmt_settings (λ s, Ok (f s, tables s)) s) as (E1 & E2 & _).
  split; [|done]. unfold untouched_db, query.
  destruct (stmt _ s) as [r s'] eqn:E.
  apply stmt_inv in E as [(e & _ & Ht)|(a & d & [= <- <-] & _ & ->)]; [done|done].
Qed.

Lemma focus_inert {D E A} (proj : D → E) (inj : E → D → D) (m : M (session E) db_err A) :
  (∀ d, inj (proj d) d = d) → inert m → inert (focus proj inj m).
Proof.
  intros Hl Hm s. unfold focus. destruct (Hm (retable (proj (tables s)) s)) as (H1 & H2 & H3).
  destruct (m _) as [r s']. cbn in *. unfold untouched_db in *. split; [|done]. by rewrite <- H1, Hl.
Qed.
Lemma core_inert {A} (m : M (session core) db_err A) : inert m → inert (on_db_core m).
Proof. apply focus_inert. by intros []. Qed.
Lemma identity_inert {A} (m : M (session identity) db_err A) : inert m → inert (on_identity m).
Proof. apply focus_inert. by intros []. Qed.
Lemma intervals_inert {A} (m : M (session iv_db) db_err A) : inert m → inert (on_intervals m).
Proof. apply focus_inert. by intros []. Qed.

Lemma inert_then {D A B} (f : session D → A) (k : A → M (session D) db_err B) :
  (∀ a, inert (k a)) → inert (bind (query f) k).
Proof. intros Hk. apply (preserves_bind untouched_db); [apply inert_query|done]. Qed.

Lemma GetPage_inert id : inert (GetPage id).
Proof.
  apply inert_then. intros row. apply (preserves_bind untouched_db); [apply (preserves_or_not_found untouched_db)|].
  intros sp. apply inert_then. intros. by apply (preserves_ret untouched_db).
Qed.
Lemma GetDomain_inert id : inert (GetDomain id).
Proof. apply inert_then. intros. apply (preserves_or_not_found untouched_db). Qed.
Lemma GetByHostname_inert h : inert (GetByHostname h).
Proof.
  apply inert_then. intros row. apply (preserves_bind untouched_db); [apply (preserves_or_not_found untouched_db)|].
  intros sp. by apply (preserves_ret untouched_db).
Qed.
Lemma withTimelines_inert l : inert (withTimelines l).
Proof.
  induction l as [|x l IH]; cbn [withTimelines]; [by apply (preserves_ret untouched_db)|].
  apply (preserves_bind untouched_db).
  { unfold ListUpdates, mustExist. apply (preserves_bind untouched_db); [|intros; apply inert_query].
    apply inert_then. intros []; [by apply (preserves_ret untouched_db)|by apply (preserves_fail untouched_db)]. }
  intros u. apply (preserves_bind untouched_db); [done|]. intros. by apply (preserves_ret untouched_db).
Qed.
Lemma ListPublic_inert p days n size : inert (Incidents.ListPublicForStatusPage p days n size).
Proof.
  apply inert_then. intros act. apply (preserves_bind untouched_db).
  { apply (preserves_stmt untouched_db). intros s a d Hf. cbv zeta in Hf.
    destruct (limit_offset _ _ _); [|done]. by simplify_eq. }
  intros rows. apply (preserves_bind untouched_db).
  { destruct rows.1; [apply inert_query|by apply (preserves_ret untouched_db)]. }
  intros tot. apply (preserves_bind untouched_db); [apply withTimelines_inert|intros ac].
  apply (preserves_bind untouched_db); [apply withTimelines_inert|intros rs]. by apply (preserves_ret untouched_db).
Qed.
Lemma Active_inert : inert Active.
Proof. apply inert_then. intros. apply (preserves_or_not_found untouched_db). Qed.
Lemma ListOverlapping_inert l a b : inert (ListOverlapping l a b).
Proof. unfold ListOverlapping. case_bool_decide; [by apply (preserves_ret untouched_db)|apply inert_query]. Qed.

Lemma providers_inert {A} (m : M (session providers_db) db_err A) : inert m → inert (on_providers m).
Proof. apply focus_inert. by intros []. Qed.
Lemma members_inert u t : inert (ListMembersWithEmail u t).
Proof. apply inert_query. Qed.
Lemma ResolveEnabled_inert us n : inert (ResolveEnabledForUsers us n).
Proof.
  unfold ResolveEnabledForUsers. destruct us; [by apply (preserves_ret untouched_db)|].
  apply inert_then. intros. by apply (preserves_ret untouched_db).
Qed.
Lemma GetTenant_inert id : inert (GetTenant id).
Proof. apply inert_then. intros. apply (preserves_or_not_found untouched_db). Qed.
Lemma ListUpdatesPaginated_inert id p n : inert (ListUpdatesPaginated id p n).
Proof.
  unfold ListUpdatesPaginated, mustExist. apply (preserves_bind untouched_db).
  { apply inert_then. intros []; [by apply (preserves_ret untouched_db)|by apply (preserves_fail untouched_db)]. }
  intros _. apply (preserves_bind untouched_db).
  - apply (preserves_stmt untouched_db). intros s a d Hf. destruct (limit_offset _ _ _); [|done]. by simplify_eq.
  - intros [[|x l] n']; cbn; [|by apply (preserves_ret untouched_db)].
    apply inert_then. intros. by apply (preserves_ret untouched_db).
Qed.
Lemma email_Get_inert p : inert (Email.Get p).
Proof. apply inert_then. intros. apply (preserves_or_not_found untouched_db). Qed.

Lemma inert_keeps {D A} (m : M (session D) db_err A) s r s' :
  inert m → m s = (r, s') →
  tables s' = tables s ∧ app_tenant s' = app_tenant s ∧ bypass_rls s' = bypass_rls s.
Proof. intros Hm E. specialize (Hm s). rewrite E in Hm. destruct Hm as (H1 & H2 & H3). cbn in *. done. Qed.

End inert.

#[export] Hint Resolve core_inert identity_inert intervals_inert providers_inert GetPage_inert GetDomain_inert
  members_inert ResolveEnabled_inert GetTenant_inert ListUpdatesPaginated_inert email_Get_inert
  ListOverlapping_inert Active_inert : vane.
#[export] Hint Extern 1 (preserves untouched_db (query _)) => apply inert_query : vane.
