(* ===== verification/PublicPage.v ===== *)
(** * The public page (internal/router/host_router.go, api/public_status_handler.go)

    A visitor's request: [HostRouter] finds the published page of the Host
    header, opens a transaction for its tenant, lets [PublicStatusHandler] compose
    the answer on it and rolls it back.  The preview serves the same composition
    by id. *)

From stdpp Require Import numbers strings gmap list sorting.
From Stdlib Require Import ZArith Lia Floats.
From S2P Require Import Prelude GoNum GoStrings Db Schema Placements Secrets Domains StatusPages SiteSafety Intervals Incidents History Identity LLMProviders Providers Tenants Api Inert.

#[local] Open Scope Z_scope.
#[local] Open Scope go_scope.

(** ** The response *)

Record publicServiceResponse := {
  PubID : string;
  PubName : string;
  PubStatus : string;
  PubLastUpdatedAt : Z;
  PubHistory : list Bucket;
  PubUptimePercent : option float;
  PubStatusAnalysis : option string;
  PubGroupID : option string;
  PubGroupName : option string;
  PubParentServiceID : option string;
  PubParentServiceName : option string;
}.

Record publicIncidentResponse := {
  PubIncID : string;
  PubIncTitle : string;
  PubIncStatus : string;
  PubIncCreatedAt : Z;
  PubIncResolvedAt : option Z;
  PubIncUpdates : list (string * Z);
  PubIncDescription : option string;
}.

Record publicStatusResponse := {
  PubCompany : string * option string;
  PubServices : list publicServiceResponse;
  PubActive : list publicIncidentResponse;
  PubResolved : list publicIncidentResponse;
  PubResolvedTotal : Z;
  PubResolvedPage : Z;
  PubResolvedPageSize : Z;
  PubGroups : list (string * string * Z);
  PubDomainHealth : option string;
  PubEnvironment : string;
}.

Definition toPublicIncidentResponse (x : Incident * list IncidentUpdate) : publicIncidentResponse :=
  {| PubIncID := IncID x.1; PubIncTitle := Title x.1; PubIncStatus := IncStatus x.1;
     PubIncCreatedAt := CreatedAt x.1; PubIncResolvedAt := ResolvedAt x.1;
     PubIncUpdates := (λ u, (UpdBody u, UpdCreatedAt u)) <$> x.2;
     PubIncDescription := Description x.1 |}.
Definition toPublicIncidentResponses (l : list (Incident * list IncidentUpdate)) :
    list publicIncidentResponse := toPublicIncidentResponse <$> l.
Definition toPublicGroupResponses (l : list StatusPageServiceGroup) : list (string * string * Z) :=
  (λ g, (GrpID g, GrpName g, GrpPosition g)) <$> l.
(** The buckets carry what their response shows. *)
Definition toPublicHistoryResponses (l : list Bucket) : list Bucket := l.

Definition domainHealthExpiryAttentionDays : Z := 30.
Definition incidentRetentionDays : Z := 90.
Definition publicResolvedIncidentsPageSize : Z := 10.

(** time.Time{}: midnight of January 1 of the year 1. *)
Definition zero_time : Z := - 62135596800 * second.

Definition StatusServiceUnavailable : Z := 503.
Definition invalidRangeErrorBody : string := "range must be one of 24h, 7d, 30d, 90d".

(** ** Composition *)

Section public.
Context `{!Driver, !Machine}.
(** Local midnight in America/Sao_Paulo. *)
Context (midnight : Z → Z).

Definition is_zero (t : option Z) : bool :=
  match t with None => true | Some t => t =? zero_time end.

(** [resolveDomainHealth]: [now] is the clock of its time.Until. *)
Definition domain_verdict (now : Z) (x : Domain) : option string :=
  if is_zero (LastRDAPSuccessAt x) then None
  else
    let expiringSoon := negb (is_zero (DomExpiresAt x)) &&
      match DomExpiresAt x with
      | Some t => time_sub t now <=? domainHealthExpiryAttentionDays * (24 * hour)
      | None => false
      end in
    Some (if NSDriftDetected x || expiringSoon then "attention" else "ok").

Definition resolveDomainHealth (now : Z) (x : StatusPage) :
    M (session database) db_err (option string) :=
  match SpDomainID x with
  | None => ret None
  | Some id => domain <- on_db_core (GetDomain id) ;; ret (domain_verdict now domain)
  end.

Definition shown (x : PageService) : bool :=
  negb (String.eqb (CurrentStatus (PsService x)) "not_configured").

(** The instant up to which a service's history is known: the last time its open
    interval was confirmed, where that is past. *)
Definition as_of (open : gmap string StatusInterval) (id : string) (now : Z) : Z :=
  match open !! id with
  | Some x => if time_before (LastSeenAt x) now then LastSeenAt x else now
  | None => now
  end.

(** The Go map's last write wins for a repeated id. *)
Definition names_by_id (services : list PageService) : gmap string string :=
  foldl (λ m x, <[SvcID (PsService x) := SvcName (PsService x)]> m) ∅ services.

Definition service_response (rng : rangeSpec) (now : Z) (names : gmap string string)
    (open : gmap string StatusInterval) (overlapping : list StatusInterval) (x : PageService) :
    publicServiceResponse :=
  let id := SvcID (PsService x) in
  let ivs := filter (λ v, ServiceID v = id) overlapping in
  let asOf := as_of open id now in
  {| PubID := id; PubName := SvcName (PsService x); PubStatus := CurrentStatus (PsService x);
     PubLastUpdatedAt := match open !! id with Some v => LastSeenAt v | None => zero_time end;
     PubHistory := toPublicHistoryResponses
                     (BuildBuckets midnight ivs now asOf (rs_bucketCount rng) (rs_bucketWidth rng));
     PubUptimePercent := UptimePercent ivs (time_add now (- rs_window rng)) asOf;
     PubStatusAnalysis := if String.eqb (CurrentStatus (PsService x)) "degraded"
                          then StatusAnalysis (PsService x) else None;
     PubGroupID := PsGroupID x; PubGroupName := PsGroupName x;
     PubParentServiceID := PsParentServiceID x;
     PubParentServiceName := match PsParentServiceID x with
                             | Some p => names !! p
                             | None => None
                             end |}.

(** The environment and the domain's health: a failure omits them. *)
Definition page_extras (statusPageID : string) (now : Z) :
    M (session database) db_err (option string * string) :=
  r <- attempt (on_db_core (GetPage statusPageID)) ;;
  match r with
  | Err _ => ret (None, "")
  | Ok sp =>
      h <- attempt (resolveDomainHealth now sp) ;;
      ret (match h with Ok d => d | Err _ => None end, SpEnvironment sp)
  end.

Definition composeResponse (ev : nat) (statusPageID : string) (resolvedPage : Z) (rng : rangeSpec) :
    M (session database) db_err publicStatusResponse :=
  services <- on_db_core (ListForStatusPage statusPageID) ;;
  openIntervals <- on_intervals OpenIntervalsByService ;;
  incidents <- on_db_core (ListPublicForStatusPage statusPageID incidentRetentionDays resolvedPage
                               publicResolvedIncidentsPageSize) ;;
  company <- on_identity Active ;;
  groups <- on_db_core (ListGroups statusPageID) ;;
  extras <- page_extras statusPageID (time_Now ev) ;;
  let now := time_Now (S ev) in
  let shownServices := filter (λ x, shown x = true) services in
  let serviceIDs := SvcID ∘ PsService <$> shownServices in
  overlapping <- on_intervals
    (ListOverlapping serviceIDs (time_add now (- rs_window rng)) now) ;;
  let '(active, resolved, total) := incidents in
  ret {| PubCompany := (TenName company, LogoServedURL company);
         PubServices := service_response rng now (names_by_id services) openIntervals overlapping
                          <$> shownServices;
         PubActive := toPublicIncidentResponses active;
         PubResolved := toPublicIncidentResponses resolved;
         PubResolvedTotal := total; PubResolvedPage := resolvedPage;
         PubResolvedPageSize := publicResolvedIncidentsPageSize;
         PubGroups := toPublicGroupResponses groups;
         PubDomainHealth := extras.1; PubEnvironment := extras.2 |}.

(** ** The handlers *)

(** [PublicStatusHandler.Get]: [statusPageID] is what the router put in the
    context, [range] and [page] the raw query values. *)
Definition PublicGet (ev : nat) (statusPageID : option string) (range page : string)
    (s : session database) : response publicStatusResponse * session database :=
  match statusPageID with
  | None => (writeInternalError, s)
  | Some id =>
      match parseRange range with
      | None => (Response StatusUnprocessableEntity (ErrorBody invalidRangeErrorBody), s)
      | Some rng =>
          match composeResponse ev id (parsePage page) rng s with
          | (Ok r, s) => (Response StatusOK (Json r), s)
          | (Err _, s) => (writeInternalError, s)
          end
      end
  end.

(** [PublicStatusPreviewHandler.Get], in the request's tenant transaction. *)
Definition PreviewGet (ev : nat) (statusPageID range page : string) (s : session database) :
    response publicStatusResponse * session database :=
  match on_db_core (GetPage statusPageID) s with
  | (Err e, s) => (if decide (e = ErrNotFound) then Response StatusNotFound (ErrorBody "404 page not found")
                   else writeInternalError, s)
  | (Ok _, s) => PublicGet ev (Some statusPageID) range page s
  end.

(** ** The router *)

(** The host without its port. *)
Definition stripPort (host : string) : string :=
  match SplitHostPort host with Some (h, _) => h | None => host end.

Inductive routed :=
| Fallback
| Answered (rsp : response publicStatusResponse).

(** The request [Host: host] for the page's data, on a pool connection. *)
Definition HostRouter (ev : nat) (host range page : string) (s : session database) :
    routed * session database :=
  match on_db_core (GetByHostname (stripPort host)) s with
  | (Err _, s) => (Fallback, s)
  | (Ok sp, s) =>
      if negb (String.eqb (SpState sp) "published") then (Fallback, s)
      else
        match BeginTenantTx "" (SpTenantID sp) s with
        | (Err _, s) => (Answered (Response StatusServiceUnavailable (ErrorBody "service unavailable")), s)
        | (Ok tx, s) =>
            let '(rsp, tx) := PublicGet ev (Some (SpID sp)) range page tx in
            (Answered rsp, tx_rollback tx s)
        end
  end.
End public.

(** ** Reading only *)

Section inert.
Context `{!Driver, !Machine}.

Lemma page_extras_inert p now : inert (page_extras p now).
Proof.
  apply (preserves_bind untouched_db); [apply (preserves_attempt untouched_db), core_inert, GetPage_inert|].
  intros [sp|e]; [|by apply (preserves_ret untouched_db)].
  apply (preserves_bind untouched_db); [|intros; by apply (preserves_ret untouched_db)].
  apply (preserves_attempt untouched_db). unfold resolveDomainHealth. destruct (SpDomainID sp); [|by apply (preserves_ret untouched_db)].
  apply (preserves_bind untouched_db); [apply core_inert, GetDomain_inert|intros; by apply (preserves_ret untouched_db)].
Qed.

Lemma composeResponse_inert midnight ev p n rng : inert (composeResponse midnight ev p n rng).
Proof.
  apply (preserves_bind untouched_db); [apply core_inert, inert_query|intros services].
  apply (preserves_bind untouched_db); [apply intervals_inert, inert_query|intros open].
  apply (preserves_bind untouched_db); [apply core_inert, ListPublic_inert|intros incs].
  apply (preserves_bind untouched_db); [apply identity_inert, Active_inert|intros company].
  apply (preserves_bind untouched_db); [apply core_inert, inert_query|intros groups].
  apply (preserves_bind untouched_db); [apply page_extras_inert|intros extras].
  apply (preserves_bind untouched_db); [apply intervals_inert, ListOverlapping_inert|intros over].
  destruct incs as [[a r] t]. by apply (preserves_ret untouched_db).
Qed.
End inert.


(** ** What a visitor may be told *)

(** The session's view of the core tables. *)
Definition core_view (s : session database) : session core := retable (db_core (tables s)) s.

(** A service of page [i] as its row stands: linked, alive, of the page's tenant
    (row-level security), configured, its analysis told only while degraded. *)
Definition told_service (i tenant : string) (s : session database) (x : publicServiceResponse) : Prop :=
  ∃ k l r, status_page_services (tables (core_view s)) !! (i, k) = Some l ∧
    services (tables (core_view s)) !! k = Some r ∧ PubID x = SvcID (svc r) ∧
    deleted_at r = None ∧ (bypass_rls s = false → svc_tenant r = tenant) ∧
    PubName x = SvcName (svc r) ∧ PubStatus x = CurrentStatus (svc r) ∧
    PubStatus x ≠ "not_configured" ∧
    (PubStatusAnalysis x ≠ None → PubStatus x = "degraded").
Definition told_group (i tenant : string) (s : session database) (g : string * string * Z) : Prop :=
  ∃ k r, status_page_service_groups (tables (core_view s)) !! k = Some r ∧
    (bypass_rls s = false → grp_tenant r = tenant) ∧
    GrpStatusPageID (grp r) = i ∧ g = (GrpID (grp r), GrpName (grp r), GrpPosition (grp r)).

Lemma visible_tenant {D} (s : session D) t :
  visible s t = true → bypass_rls s = false → t = app_tenant s.
Proof. unfold visible. intros Hv Hb. rewrite Hb in Hv. cbn in Hv. by apply andb_prop in Hv as [_ ?%String.eqb_eq]. Qed.

Lemma page_links_elem p (d : core) svc l :
  (svc, l) ∈ StatusPages.page_links p d → status_page_services d !! (p, svc) = Some l.
Proof.
  unfold StatusPages.page_links. intros ([[p' svc'] l'] & [= -> ->] & [Hp Hin]%list_elem_of_filter)%list_elem_of_fmap.
  cbn in Hp. subst p'. by apply elem_of_map_to_list in Hin.
Qed.

Section told.
Context `{!Driver, !Machine}.

(** One step of the composition: its result, and an unchanged view. *)
Lemma core_step {A B} (m : M (session core) db_err A) (k : A → M (session database) db_err B) s b s' :
  inert m → bind (on_db_core m) k s = (Ok b, s') →
  ∃ a s1 c, m (core_view s) = (Ok a, c) ∧ k a s1 = (Ok b, s') ∧
    tables s1 = tables s ∧ app_tenant s1 = app_tenant s ∧ bypass_rls s1 = bypass_rls s.
Proof.
  intros Hm (a & s1 & E & Hk)%bind_Ok_inv.
  pose proof (inert_keeps _ _ _ _ (core_inert _ Hm) E) as Hv.
  unfold on_db_core, focus in E. change (retable _ s) with (core_view s) in E.
  destruct (m (core_view s)) as [r c] eqn:Em. injection E as -> _. eauto 10.
Qed.
Lemma other_step {A B} (m : M (session database) db_err A) (k : A → M (session database) db_err B) s b s' :
  inert m → bind m k s = (Ok b, s') →
  ∃ a s1, k a s1 = (Ok b, s') ∧
    tables s1 = tables s ∧ app_tenant s1 = app_tenant s ∧ bypass_rls s1 = bypass_rls s.
Proof. intros Hm (a & s1 & E & Hk)%bind_Ok_inv. pose proof (inert_keeps _ _ _ _ Hm E). eauto 10. Qed.

Lemma core_view_eq (s s1 : session database) :
  tables s1 = tables s → app_tenant s1 = app_tenant s → bypass_rls s1 = bypass_rls s →
  tables (core_view s1) = tables (core_view s) ∧
  ∀ t, visible (core_view s1) t = visible (core_view s) t.
Proof. intros E1 E2 E3. split; [cbn; by rewrite E1|]. intros t. unfold visible. cbn. by rewrite E2, E3. Qed.

Lemma listed_told i s x rng now names open over midnight :
  x ∈ snd <$> merge_sort listed_le
        (omap (joined_service (core_view s)) (StatusPages.page_links i (tables (core_view s)))) →
  shown x = true →
  told_service i (app_tenant s) s (service_response midnight rng now names open over x).
Proof.
  intros ([g y] & -> & Hy)%list_elem_of_fmap Hs. rewrite merge_sort_Permutation in Hy.
  apply list_elem_of_omap in Hy as ([k l] & Hin%page_links_elem & Hj).
  unfold joined_service in Hj. cbn [fst snd] in *.
  destruct (services _ !! k) as [r|] eqn:Er; [|done].
  destruct (visible _ _ && _) eqn:Ev; [|done]. injection Hj as _ <-.
  apply andb_prop in Ev as [Hv Hd%bool_decide_eq_true].
  exists k, l, r. unfold shown in Hs. cbn in Hs. apply negb_true_iff, String.eqb_neq in Hs.
  split_and!; [done..| |done|done|done|].
  - intros Hb. by apply (visible_tenant (core_view s)).
  - cbn. by destruct (String.eqb_spec (CurrentStatus (svc r)) "degraded").
Qed.

Lemma listed_group_told i s (g : string * string * Z) :
  g ∈ toPublicGroupResponses (merge_sort group_le (grp <$> (snd <$>
    filter (λ kv, group_visible (core_view s) kv.2 = true ∧ GrpStatusPageID (grp kv.2) = i)
      (map_to_list (status_page_service_groups (tables (core_view s))))))) →
  told_group i (app_tenant s) s g.
Proof.
  intros (x & -> & Hx)%list_elem_of_fmap. rewrite merge_sort_Permutation in Hx.
  apply list_elem_of_fmap in Hx as (r & -> & ([k r'] & -> & [[Hv Hp] Hin]%list_elem_of_filter)%list_elem_of_fmap).
  apply elem_of_map_to_list in Hin. exists k, r'. split_and!; [done| |done|done].
  intros Hb. by apply (visible_tenant (core_view s)).
Qed.

Lemma composeResponse_tells midnight ev i n rng s v s' :
  composeResponse midnight ev i n rng s = (Ok v, s') →
  (∀ x, x ∈ PubServices v → told_service i (app_tenant s) s x) ∧
  (∀ g, g ∈ PubGroups v → told_group i (app_tenant s) s g).
Proof.
  intros E. apply (core_step _ _ _ _ _ (inert_query _)) in E as (svcs & s1 & c & Eq & E & T1 & A1 & B1).
  apply query_Ok_inv in Eq as [-> _].
  apply (other_step _ _ _ _ _ (intervals_inert _ (inert_query _))) in E as (open & s2 & E & T2 & A2 & B2).
  apply (core_step _ _ _ _ _ (ListPublic_inert _ _ _ _)) in E as (incs & s3 & c3 & _ & E & T3 & A3 & B3).
  apply (other_step _ _ _ _ _ (identity_inert _ Active_inert)) in E as (co & s4 & E & T4 & A4 & B4).
  apply (core_step _ _ _ _ _ (inert_query _)) in E as (groups & s5 & c5 & Eq & E & _).
  apply query_Ok_inv in Eq as [-> _].
  apply (other_step _ _ _ _ _ (page_extras_inert _ _)) in E as (extras & s6 & E & _).
  apply (other_step _ _ _ _ _ (intervals_inert _ (ListOverlapping_inert _ _ _))) in E as (over & s7 & E & _).
  destruct incs as [[act res] total]. injection E as <- _. cbn [PubServices PubGroups]. split.
  - intros x (y & -> & [Hy Hin]%list_elem_of_filter)%list_elem_of_fmap. by apply listed_told.
  - intros g Hg. apply listed_group_told.
    assert (tables s4 = tables s ∧ app_tenant s4 = app_tenant s ∧ bypass_rls s4 = bypass_rls s) as (Et & Ea & Eb)
      by (split_and!; congruence).
    unfold core_view, group_visible, visible in *. cbn in *. by rewrite Et, Ea, Eb in Hg.
Qed.
End told.

Section router.
Context `{!Driver, !Machine}.
Context (midnight : Z → Z).

Lemma PublicGet_reads ev o range page s r s' :
  PublicGet midnight ev o range page s = (r, s') →
  tables s' = tables s ∧
  ∀ v, r = Response StatusOK (Json v) → ∃ i, o = Some i ∧
    (∀ x, x ∈ PubServices v → told_service i (app_tenant s) s x) ∧
    (∀ g, g ∈ PubGroups v → told_group i (app_tenant s) s g).
Proof.
  unfold PublicGet. destruct o as [i|]; [|by intros [= <- <-]].
  destruct (parseRange range) as [rng|]; [|by intros [= <- <-]].
  destruct (composeResponse _ _ _ _ _ _) as [[w|e] s1] eqn:E.
  - pose proof (inert_keeps _ _ _ _ (composeResponse_inert _ _ _ _ _) E) as (Ht & _).
    intros [= <- <-]. split; [done|]. intros v [= <-]. exists i. split; [done|].
    by eapply composeResponse_tells.
  - pose proof (inert_keeps _ _ _ _ (composeResponse_inert _ _ _ _ _) E) as (Ht & _).
    by intros [= <- <-].
Qed.

(** C9: a visitor reads one published page and nothing else.  Whatever the Host
    header and the query, the request leaves every table as it was; a 200 comes
    only from a page the anonymous connection may read, published, whose address
    is the host without its port; every service in it is linked to that page,
    alive, configured, of the page's tenant under row-level security, its
    analysis told only while it is degraded; every group is one of that page and
    tenant; and a host no published page answers to falls through to the
    fallback. *)
Theorem visitor_request_spec ev host range page (s s' : session database) r :
  HostRouter midnight ev host range page s = (r, s') →
  tables s' = tables s ∧
  (∀ v, r = Answered (Response StatusOK (Json v)) → ∃ i row,
     status_pages (tables (core_view s)) !! i = Some row ∧
     page_readable (core_view s) row = true ∧
     address (core_view s) (spage row) = Some (stripPort host) ∧
     SpState (spage row) = "published" ∧
     (∀ x, x ∈ PubServices v → told_service (SpID (spage row)) (page_tenant row) s x) ∧
     (∀ g, g ∈ PubGroups v → told_group (SpID (spage row)) (page_tenant row) s g)) ∧
  ((∀ i row, status_pages (tables (core_view s)) !! i = Some row →
      at_hostname (core_view s) (stripPort host) row = true → published row = false) →
   r = Fallback).
Proof.
  unfold HostRouter. intros E.
  destruct (on_db_core _ s) as [[sp|e] s1] eqn:Eg.
  2:{ pose proof (inert_keeps _ _ _ _ (core_inert _ (GetByHostname_inert _)) Eg) as (Ht & _).
      injection E as <- <-. done. }
  pose proof (inert_keeps _ _ _ _ (core_inert _ (GetByHostname_inert _)) Eg) as (T1 & A1 & B1).
  unfold on_db_core, focus in Eg. change (retable _ s) with (core_view s) in Eg.
  destruct (GetByHostname _ _) as [rr c] eqn:Eb. injection Eg as -> _.
  apply bind_Ok_inv in Eb as (found & c1 & Eq & Eb). apply query_Ok_inv in Eq as [-> _].
  apply bind_Ok_inv in Eb as ([i row] & c2 & Eq & [= <- _]).
  destruct (find_row _ _) as [x|] eqn:Ef; [|done]. injection Eq as -> _.
  apply find_row_Some in Ef as (Hi & Hat).
  destruct (String.eqb_spec (SpState (spage row)) "published") as [Hp|Hp];
    cbn [with_tenant SpState SpID SpTenantID snd] in E.
  2:{ rewrite (proj2 (String.eqb_neq _ _) Hp) in E. by injection E as <- <-. }
  rewrite Hp, String.eqb_refl in E. cbn [negb] in E. split_and!.
  3:{ intros Hno. specialize (Hno i row Hi Hat). unfold published in Hno.
      by rewrite Hp, String.eqb_refl in Hno. }
  all: destruct (BeginTenantTx _ _ s1) as [[tx|e] s2] eqn:Et;
    apply BeginTenantTx_inv in Et as (T2 & _ & _ & Htx); cbn [fst snd] in *.
  2,4: injection E as <- <-; congruence.
  all: destruct Htx as (T3 & A3 & B3 & _ & _); destruct (PublicGet _ _ _ _ _ tx) as [rsp tx'] eqn:Ep;
    apply PublicGet_reads in Ep as (_ & Hv); injection E as <- <-.
  - cbn. congruence.
  - intros v [= ->]. destruct (Hv v eq_refl) as (j & [= <-] & Hs & Hg).
    exists i, row. apply andb_prop in Hat as [Hr Ha%bool_decide_eq_true].
    assert (tables tx = tables s) as Tx by congruence.
    assert (bypass_rls tx = bypass_rls s) as Bx by congruence.
    split_and!; [done..| |].
    + intros x Hx. specialize (Hs x Hx). unfold told_service in *. cbn in *. by rewrite Tx, Bx, A3 in Hs.
    + intros g Hx. specialize (Hg g Hx). unfold told_group in *. cbn in *. by rewrite Tx, Bx, A3 in Hg.
Qed.
End router.

(** ** Examples *)

(** Tenant B's page, on a pool connection subject to row-level security. *)
Definition visited (state : string) : session database :=
  Session {| db_identity := set_tenants (λ _, {["tenant-b" := new_tenant "tenant-b" "B" "" 0]})
                              empty_identity;
             db_core := demo_site state;
             db_intervals := {[ "iv" := new_interval "iv" "svc-b" "operational" 1%float 0 ]};
             db_providers := empty_providers |}
    "" false None false 0.

Definition visit (d : Driver) (state host : string) : routed :=
  (HostRouter (H := d) (H0 := demo_machine) id 0 host "" "" (visited state)).1.

(** What of an answer the examples look at: its code and its services. *)
Definition seen (r : routed) : option (Z * list (string * string)) :=
  match r with
  | Fallback => None
  | Answered (Response code (Json v)) => Some (code, (λ x, (PubID x, PubStatus x)) <$> PubServices v)
  | Answered (Response code _) => Some (code, [])
  end.

Example visit_published : seen (visit reliable "published" "status.b.com:443") = Some (200, [("svc-b", "operational")]).
Proof. vm_compute. reflexivity. Qed.
Example visit_draft : visit reliable "draft" "status.b.com" = Fallback.
Proof. vm_compute. reflexivity. Qed.

(** The page's row and its domain's are read for cosmetic fields, and a failure
    to read them is logged and the fields omitted; but the failure has aborted the
    transaction, so the next query, the services' history, fails and the visitor
    gets a 500 all the same. *)
Definition page_read : nat := 10.
Definition domain_read : nat := 12.
Example cosmetic_failure_is_500 :
  seen (visit (failing_at [page_read]) "published" "status.b.com") = Some (500, []) ∧
  seen (visit (failing_at [domain_read]) "published" "status.b.com") = Some (500, []) ∧
  (page_extras (H := failing_at [3%nat]) "page-b" 0
     (Session (tables (visited "published")) "tenant-b" false (Some 0) false 3)).1 = Ok (None, "").
Proof. split_and!; vm_compute; reflexivity. Qed.

Lemma visitor_request_spec_witness :
  let s := visited "published" in
  let '(r, s') := HostRouter (H := reliable) (H0 := demo_machine) id 0 "status.b.com:443" "" "" s in
  tables s' = tables s ∧
  ∀ v, r = Answered (Response StatusOK (Json v)) → ∃ i row,
    status_pages (tables (core_view s)) !! i = Some row ∧ SpState (spage row) = "published" ∧
    ∀ x, x ∈ PubServices v → told_service (SpID (spage row)) (page_tenant row) s x.
Proof.
  intros s. destruct (HostRouter id 0 "status.b.com:443" "" "" s) as [r s'] eqn:E.
  destruct (visitor_request_spec (H := reliable) (H0 := demo_machine) id 0 "status.b.com:443" "" "" s s' r E)
    as (Ht & Hv & _).
  split; [exact Ht|]. intros v Hr. destruct (Hv v Hr) as (i & row & H1 & _ & _ & H2 & H3 & _). eauto.
Defined.
