(* ===== verification/Handler.v ===== *)
(** * Handler code (the shape every handler of internal/api has)

    A handler is code in the error monad over a request's state whose error is
    the response it has already written: an early return.  Repository calls run
    on the connection the request's context stands for; a public route that
    needs a tenant opens a transaction of its own.  [along R m] is the reasoning
    principle: whatever happens, [m] relates the states before and after by
    [R]. *)

From stdpp Require Import numbers strings gmap list.
From Stdlib Require Import ZArith Lia.
From S2P Require Import Prelude GoNum Db Schema World Identity Secrets Auth Api.

#[local] Open Scope Z_scope.
#[local] Open Scope go_scope.

Definition Handle (P A : Type) : Type := M hstate (response P) A.

(** What decoding a size-limited body gives. *)
Inductive decoded (A : Type) :=
| Decoded (a : A)
| TooLarge
| Malformed.
Arguments Decoded {A} a.
Arguments TooLarge {A}.
Arguments Malformed {A}.

(** [Page]: the envelope of a paginated list. *)
Record Page (T : Type) := {
  Items : list T;
  Total : Z;
  PageNo : Z;
  PageSize : Z;
}.
Arguments Items {T} _.
Arguments Total {T} _.
Arguments PageNo {T} _.
Arguments PageSize {T} _.

Section handlers.
Context `{!Driver} {P : Type}.

(** A database call on the request's connection, its errors answered. *)
Definition call_db {A} (m : M (session database) db_err A) (on_err : db_err → response P) :
    Handle P A :=
  λ s, match m (h_db s) with
       | (Ok a, c) => (Ok a, set_h_db c s)
       | (Err e, c) => (Err (on_err e), set_h_db c s)
       end.
Definition call {A} (m : M (session core) db_err A) (on_err : db_err → response P) : Handle P A :=
  call_db (on_db_core m) on_err.
Definition call_id {A} (m : M (session identity) db_err A) (on_err : db_err → response P) :
    Handle P A :=
  call_db (on_identity m) on_err.

(** A call of a method that commits a transaction of its own: it runs on what is
    committed and outlives the request's transaction, which sees its writes. *)
Definition call_own {A} (m : M (session database) db_err A) (on_err : db_err → response P) :
    Handle P A :=
  λ s,
    let '(r, o) := m (set_tables (h_own s) (h_db s)) in
    let v := (m (h_db s)).2 in
    let seen := λ d, set_tables d (set_tick (Nat.max (tick o) (tick v)) (h_db s)) in
    match r with
    | Ok a => (Ok a, set_h_own (tables o) (set_h_db (seen (tables v)) s))
    | Err e => (Err (on_err e), set_h_db (seen (tables (h_db s))) s)
    end.

(** The same, its error inspected by the handler. *)
Definition try_db {A} (m : M (session database) db_err A) : Handle P (res db_err A) :=
  λ s, let '(r, c) := m (h_db s) in (Ok r, set_h_db c s).
Definition try_id {A} (m : M (session identity) db_err A) : Handle P (res db_err A) :=
  try_db (on_identity m).
Definition try_core {A} (m : M (session core) db_err A) : Handle P (res db_err A) :=
  try_db (on_db_core m).

(** A lookup whose ErrNotFound is an answer and whose other errors are 500. *)
Definition find_id {A} (m : M (session identity) db_err A) : Handle P (option A) :=
  r <- try_id m ;;
  match r with
  | Ok a => ret (Some a)
  | Err ErrNotFound => ret None
  | Err _ => fail writeInternalError
  end.

(** BeginTenantTx, [m] on it, Commit; a failed [m] is rolled back. *)
Definition own_tx {A} (userID tenantID : string) (m : M (session identity) db_err A) :
    Handle P (res db_err A) :=
  λ s, match BeginTenantTx userID tenantID (h_db s) with
       | (Err e, pool) => (Ok (Err e), set_h_db pool s)
       | (Ok tx, pool) =>
           match on_identity m tx with
           | (Err e, tx) => (Ok (Err e), set_h_db (tx_rollback tx pool) s)
           | (Ok a, tx) =>
               let '(r, pool) := tx_commit tx pool in
               (Ok (match r with Ok _ => Ok a | Err e => Err e end), set_h_db pool s)
           end
       end.

(** A question to the machine. *)
Definition ask {A} (f : nat → A) : Handle P A := λ s, (Ok (f (h_ev s)), bump_h_ev s).

Definition reject {A} (b : bool) (rsp : response P) (k : Handle P A) : Handle P A :=
  if b then fail rsp else k.
(** The value of a call that succeeded, 500 for one that failed. *)
Definition or_500 {E A} (r : res E A) : Handle P A :=
  match r with Ok a => ret a | Err _ => fail writeInternalError end.
Definition some_or_500 {A} (o : option A) : Handle P A :=
  match o with Some a => ret a | None => fail writeInternalError end.
Definition internal_error (_ : db_err) : response P := writeInternalError.

(** The response written, by an early return or at the end. *)
Definition written (h : rctx → Handle P (response P)) : handler P :=
  λ c s, match h c s with (Ok r, s') => (r, s') | (Err r, s') => (r, s') end.
(** A public route: there is no context. *)
Definition answered (m : Handle P (response P)) (s : hstate) : response P * hstate :=
  match m s with (Ok r, s') => (r, s') | (Err r, s') => (r, s') end.
End handlers.

(** ** Relations along handler code *)

Section along.
Context {P : Type} (R : relation hstate) `{!PreOrder R}.

Definition h_along {A} (m : Handle P A) : Prop := ∀ s, R s (m s).2.

Lemma h_along_ret {A} (a : A) : h_along (ret a).
Proof. intros s. cbn. reflexivity. Qed.
Lemma h_along_fail {A} r : h_along (fail r : Handle P A).
Proof. intros s. cbn. reflexivity. Qed.
Lemma h_along_bind {A B} (m : Handle P A) (k : A → Handle P B) :
  h_along m → (∀ a, h_along (k a)) → h_along (bind m k).
Proof.
  intros Hm Hk s. unfold bind. specialize (Hm s). destruct (m s) as [[a|e] s1]; [|done].
  cbn in *. etrans; [done|]. apply Hk.
Qed.
Lemma h_along_reject {A} b r (k : Handle P A) : h_along k → h_along (reject b r k).
Proof. intros Hk. destruct b; [apply h_along_fail|done]. Qed.
Lemma h_along_some {A} (o : option A) : h_along (some_or_500 o).
Proof. destruct o; [apply h_along_ret|apply h_along_fail]. Qed.
Lemma h_along_or_500 {E A} (r : res E A) : h_along (or_500 r).
Proof. destruct r; [apply h_along_ret|apply h_along_fail]. Qed.
Lemma h_along_if {A} (b : bool) (m k : Handle P A) :
  h_along m → h_along k → h_along (if b then m else k).
Proof. by destruct b. Qed.
Lemma h_along_written (h : rctx → Handle P (response P)) c s :
  h_along (h c) → R s (written h c s).2.
Proof. intros Hh. unfold written. specialize (Hh s). by destruct (h c s) as [[r|r] s1]. Qed.
Lemma h_along_answered (m : Handle P (response P)) s : h_along m → R s (answered m s).2.
Proof. intros Hm. unfold answered. specialize (Hm s). by destruct (m s) as [[r|r] s1]. Qed.
End along.

(** ** Refusals

    [quiet m] changes nothing but the counters and only fails with an error
    answer; [barred Q m] never succeeds from a state with [Q], and changes
    nothing either; [ensures R Q m]: every success of [m] leaves [Q], a property
    the steps of [R] keep. *)

Definition still (s s' : hstate) : Prop :=
  tables (h_db s') = tables (h_db s) ∧ bypass_rls (h_db s') = bypass_rls (h_db s) ∧
  h_mails s' = h_mails s ∧ h_sent s' = h_sent s ∧ h_tasks s' = h_tasks s.

#[global] Instance still_preorder : PreOrder still.
Proof.
  split; [by repeat split|]. intros s1 s2 s3 (?&?&?&?&?) (?&?&?&?&?). repeat split; congruence.
Qed.

(** Repository code that reads. *)
Definition reads {D A} (m : M (session D) db_err A) : Prop :=
  ∀ s, tables (m s).2 = tables s ∧ bypass_rls (m s).2 = bypass_rls s.

Section reads.
Context `{!Driver} {D : Type}.
Lemma reads_ret {A} (a : A) : reads (ret a : M (session D) _ _).
Proof. done. Qed.
Lemma reads_fail {A} e : reads (fail e : M (session D) db_err A).
Proof. done. Qed.
Lemma reads_query {A} (f : session D → A) : reads (query f).
Proof.
  intros s. unfold query. pose proof (stmt_settings (λ s, Ok (f s, tables s)) s) as (_ & E & _).
  split; [|exact E]. destruct (stmt _ s) as [r s'] eqn:Es.
  apply stmt_inv in Es as [(e & _ & Ht)|(a & d & [= <- <-] & _ & ->)]; [exact Ht|done].
Qed.
Lemma reads_bind {A B} (m : M (session D) db_err A) (k : A → M (session D) db_err B) :
  reads m → (∀ a, reads (k a)) → reads (bind m k).
Proof.
  intros Hm Hk s. unfold bind. specialize (Hm s). destruct (m s) as [[a|e] s1]; [|done].
  destruct (Hk a s1), Hm. cbn in *. split; congruence.
Qed.
End reads.

Section refusals.
Context `{!Driver} {P : Type}.

Definition quiet {A} (m : Handle P A) : Prop :=
  ∀ s, still s (m s).2 ∧ ∀ e, (m s).1 = Err e → 400 <= rsp_status e.
Definition barred {A} (Q : hstate → Prop) (m : Handle P A) : Prop :=
  ∀ s, Q s → ∃ e s', m s = (Err e, s') ∧ still s s' ∧ 400 <= rsp_status e.

Lemma quiet_ret {A} (a : A) : quiet (ret a).
Proof. intros s. by repeat split. Qed.
Lemma quiet_fail {A} r : 400 <= rsp_status r → quiet (fail r : Handle P A).
Proof. intros Hr s. split; [done|]. by intros e [= <-]. Qed.
Lemma quiet_bind {A B} (m : Handle P A) (k : A → Handle P B) :
  quiet m → (∀ a, quiet (k a)) → quiet (bind m k).
Proof.
  intros Hm Hk s. unfold bind. destruct (Hm s) as [H1 H2].
  destruct (m s) as [[a|e] s1]; [|split; [done|]; cbn in *; intros e0 [= <-]; by apply H2].
  destruct (Hk a s1) as [H3 H4]. split; [|done]. cbn in *. by etrans.
Qed.
Lemma quiet_ask {A} (f : nat → A) : quiet (ask f).
Proof. intros s. by repeat split. Qed.
Lemma quiet_some {A} (o : option A) : quiet (some_or_500 o).
Proof. destruct o; [apply quiet_ret|by apply quiet_fail]. Qed.
Lemma quiet_or_500 {E A} (r : res E A) : quiet (or_500 r).
Proof. destruct r; [apply quiet_ret|by apply quiet_fail]. Qed.
Lemma quiet_reject {A} b r (k : Handle P A) : 400 <= rsp_status r → quiet k → quiet (reject b r k).
Proof. intros. destruct b; [by apply quiet_fail|done]. Qed.

Lemma on_identity_reads {A} (m : M (session identity) db_err A) c :
  reads m → tables (on_identity m c).2 = tables c ∧
            bypass_rls (on_identity m c).2 = bypass_rls c.
Proof.
  intros Hm. unfold on_identity, focus. destruct (Hm (retable (db_identity (tables c)) c)) as [H1 H2].
  destruct (m _) as [r s']. cbn in *. rewrite H1, H2. by destruct (tables c).
Qed.
Lemma quiet_try {A} (m : M (session identity) db_err A) : reads m → quiet (try_id m).
Proof.
  intros Hm s. unfold try_id, try_db. destruct (on_identity_reads m (h_db s) Hm) as [H1 H2].
  destruct (on_identity m (h_db s)) as [r c]. by repeat split.
Qed.
Lemma quiet_call {A} (m : M (session identity) db_err A) f :
  reads m → (∀ e, 400 <= rsp_status (f e)) → quiet (call_id m f).
Proof.
  intros Hm Hf s. unfold call_id, call_db. destruct (on_identity_reads m (h_db s) Hm) as [H1 H2].
  destruct (on_identity m (h_db s)) as [[r|e] c]; split; try by repeat split.
  cbn. intros e0 [= <-]. apply Hf.
Qed.
Lemma quiet_find {A} (m : M (session identity) db_err A) : reads m → quiet (find_id m).
Proof.
  intros Hm. apply quiet_bind; [by apply quiet_try|].
  intros [a|[]]; first [apply quiet_ret|by apply quiet_fail].
Qed.

(** Where [Q] is about the tables, a quiet prefix does not matter. *)
Lemma barred_quiet {A B} (Q : hstate → Prop) (m : Handle P A) (k : A → Handle P B) :
  (∀ s s', still s s' → Q s → Q s') → quiet m → (∀ a, barred Q (k a)) → barred Q (bind m k).
Proof.
  intros HQ Hm Hk s Hs. unfold bind. destruct (Hm s) as [H1 H2].
  destruct (m s) as [[a|e] s1]; cbn in *.
  - destruct (Hk a s1) as (e & s2 & -> & H3 & H4); [by eapply HQ|].
    exists e, s2. split; [done|]. split; [by etrans|done].
  - exists e, s1. eauto.
Qed.
Lemma barred_first {A B} Q (m : Handle P A) (k : A → Handle P B) : barred Q m → barred Q (bind m k).
Proof.
  intros Hm s Hs. unfold bind. destruct (Hm s Hs) as (e & s1 & -> & H1 & H2). by exists e, s1.
Qed.
Lemma barred_fail {A} Q r : 400 <= rsp_status r → barred Q (fail r : Handle P A).
Proof. intros Hr s _. by exists r, s. Qed.
Lemma barred_reject {A} Q b r (k : Handle P A) :
  400 <= rsp_status r → barred Q k → barred Q (reject b r k).
Proof. intros. destruct b; [by apply barred_fail|done]. Qed.

Lemma barred_answered Q (m : Handle P (response P)) s :
  barred Q m → Q s → 400 <= rsp_status (answered m s).1 ∧ still s (answered m s).2.
Proof. intros Hm Hs. unfold answered. by destruct (Hm s Hs) as (e & s1 & -> & H1 & H2). Qed.

(** A lookup answers with the row there is, or fails as a whole. *)
Lemma find_query {A} (f : session identity → option A) (Q : hstate → Prop) {B}
    (k : option A → Handle P B) :
  (∀ s s', still s s' → Q s → Q s') →
  (∀ s, Q s → ∀ s', still s s' →
     ∃ e s2, k (f (retable (db_identity (tables (h_db s))) (h_db s))) s' = (Err e, s2) ∧
       still s' s2 ∧ 400 <= rsp_status e) →
  barred Q (bind (find_id (bind (query f)
    (λ row, match row with Some x => ret x | None => fail ErrNotFound end))) k).
Proof.
  intros HQ Hk s Hs. unfold bind at 1, find_id, bind at 1, try_id, try_db, on_identity, focus.
  set (c := retable (db_identity (tables (h_db s))) (h_db s)) in *. specialize (Hk s Hs). fold c in Hk.
  unfold bind at 1. destruct (reads_query f c) as [Ht Hb]. destruct (query f c) as [[o|e] c1] eqn:Eq.
  - apply query_Ok_inv in Eq as [-> _]. cbn in Ht, Hb.
    assert (∀ c', tables c' = tables c → bypass_rls c' = bypass_rls c →
      still s (set_h_db (retable (set_identity (tables c') (tables (h_db s))) c') s)) as Hst.
    { intros c' E1 E2. repeat split; cbn; rewrite ?E1, ?E2; [by destruct (tables (h_db s))|done]. }
    destruct (f c) as [x|]; cbn.
    + destruct (Hk _ (Hst c1 Ht Hb)) as (e & s2 & -> & H1 & H2). exists e, s2.
      split; [done|]. split; [|done]. etrans; [apply (Hst c1 Ht Hb)|done].
    + destruct (Hk _ (Hst c1 Ht Hb)) as (e & s2 & -> & H1 & H2). exists e, s2.
      split; [done|]. split; [|done]. etrans; [apply (Hst c1 Ht Hb)|done].
  - cbn in Ht, Hb. cbn. destruct e;
      try (eexists _, _; split; [reflexivity|split; [repeat split; cbn; rewrite ?Ht, ?Hb;
        [by destruct (tables (h_db s))|done]|done]]).
    exfalso. revert Eq. unfold query, stmt. repeat case_match; discriminate.
Qed.
End refusals.

Section ensures.
Context {P : Type} (R : relation hstate) `{!PreOrder R} (Q : hstate → Prop).
Context (Q_stable : ∀ s s', R s s' → Q s → Q s').

Definition ensures {A} (m : Handle P A) : Prop := ∀ s a s', m s = (Ok a, s') → Q s'.

Lemma ensures_fail {A} r : ensures (fail r : Handle P A).
Proof. intros s a s' [=]. Qed.
Lemma ensures_reject {A} b r (k : Handle P A) : ensures k → ensures (reject b r k).
Proof. intros. destruct b; [apply ensures_fail|done]. Qed.
Lemma ensures_first {A B} (m : Handle P A) (k : A → Handle P B) :
  ensures m → (∀ a, h_along R (k a)) → ensures (bind m k).
Proof.
  intros Hm Hk s b s' (a & s1 & H1%Hm & H2)%bind_Ok_inv. specialize (Hk a s1). rewrite H2 in Hk.
  by eapply Q_stable.
Qed.
Lemma ensures_then {A B} (m : Handle P A) (k : A → Handle P B) :
  (∀ a, ensures (k a)) → ensures (bind m k).
Proof. intros Hk s b s' (a & s1 & _ & H2)%bind_Ok_inv. by eapply Hk. Qed.
End ensures.

(** ** Early returns *)

Section early.
Context `{!Driver} {P : Type}.

(** Whatever [m] returns early with is an error answer. *)
Definition early_errors {A} (m : Handle P A) : Prop :=
  ∀ s e s', m s = (Err e, s') → 400 <= rsp_status e.

Lemma early_ret {A} (a : A) : early_errors (ret a).
Proof. intros s e s' [=]. Qed.
Lemma early_fail {A} r : 400 <= rsp_status r → early_errors (fail r : Handle P A).
Proof. by intros ? s e s' [= <- _]. Qed.
Lemma early_then {A B} (m : Handle P A) (k : A → Handle P B) :
  early_errors m → (∀ a, early_errors (k a)) → early_errors (bind m k).
Proof.
  intros Hm Hk s e s'. unfold bind. destruct (m s) as [[a|e0] s1] eqn:E; [apply Hk|].
  intros [= <- <-]. by eapply Hm.
Qed.
Lemma early_reject {A} b r (k : Handle P A) :
  400 <= rsp_status r → early_errors k → early_errors (reject b r k).
Proof. intros. destruct b; [by apply early_fail|done]. Qed.
Lemma early_ask {A} (f : nat → A) : early_errors (ask f).
Proof. intros s e s' [=]. Qed.
Lemma early_some {A} (o : option A) : early_errors (some_or_500 o).
Proof. destruct o; [apply early_ret|by apply early_fail]. Qed.
Lemma early_or_500 {E A} (r : res E A) : early_errors (or_500 r).
Proof. destruct r; [apply early_ret|by apply early_fail]. Qed.
Lemma early_try {A} (m : M (session identity) db_err A) : early_errors (try_id m).
Proof. intros s e s'. unfold try_id, try_db. by destruct (on_identity m (h_db s)). Qed.
Lemma early_call {A} (m : M (session identity) db_err A) f :
  (∀ e, 400 <= rsp_status (f e)) → early_errors (call_id m f).
Proof.
  intros Hf s e s'. unfold call_id, call_db. destruct (on_identity m (h_db s)) as [[a|q] c];
    intros [= <- _]. apply Hf.
Qed.
Lemma early_call_own {A} (m : M (session database) db_err A) f :
  (∀ e, 400 <= rsp_status (f e)) → early_errors (call_own m f).
Proof.
  intros Hf s e s'. unfold call_own. destruct (m (set_tables _ _)) as [[a|q] c];
    intros [= <- _]. apply Hf.
Qed.
Lemma early_find {A} (m : M (session identity) db_err A) : early_errors (find_id m).
Proof.
  apply early_then; [apply early_try|].
  intros [a|[]]; first [apply early_ret|by apply early_fail].
Qed.
Lemma early_own_tx {A} u t (m : M (session identity) db_err A) : early_errors (own_tx u t m).
Proof. intros s e s'. unfold own_tx. by repeat case_match. Qed.
End early.

#[export] Hint Resolve early_ret early_ask early_some early_or_500 early_try early_find early_own_tx
  : vane.
(** Goes through handler code. *)
Ltac erring :=
  repeat match goal with
  | |- early_errors (bind _ _) => apply early_then; [|intros ?]
  | |- early_errors (reject _ _ _) => apply early_reject; [done|]
  | |- early_errors (fail _) => by apply early_fail
  | |- early_errors (call_id _ _) =>
      apply early_call; let e := fresh in intros e; destruct e; done
  | |- early_errors (call_own _ _) =>
      apply early_call_own; let e := fresh in intros e; destruct e; done
  | |- early_errors (match ?x with _ => _ end) => destruct x
  | |- early_errors _ => solve [auto with vane]
  end.

(** ** Code that commits nothing on its own *)

Definition own_same (s s' : hstate) : Prop := h_own s' = h_own s.
#[global] Instance own_same_preorder : PreOrder own_same.
Proof. split; [done|]. intros s1 s2 s3 E1 E2. unfold own_same in *. congruence. Qed.

Section own_same.
Context `{!Driver} {P : Type}.
Lemma own_same_call {A} (m : M (session identity) db_err A) f :
  h_along own_same (call_id (P := P) m f).
Proof. intros s. unfold call_id, call_db. by destruct (on_identity m (h_db s)) as [[a|e] c]. Qed.
Lemma own_same_try {A} (m : M (session identity) db_err A) : h_along own_same (try_id (P := P) m).
Proof. intros s. unfold try_id, try_db. by destruct (on_identity m (h_db s)). Qed.
End own_same.

Ltac owning :=
  repeat match goal with
  | |- h_along _ (bind _ _) => apply h_along_bind; [apply _| |intros ?]
  | |- h_along _ (reject _ _ _) => apply h_along_reject; [apply _|]
  | |- h_along _ (ret _) => apply h_along_ret, _
  | |- h_along _ (fail _) => apply h_along_fail, _
  | |- h_along own_same (call_id _ _) => apply own_same_call
  | |- h_along own_same (try_id _) => apply own_same_try
  | |- h_along _ (match ?x with _ => _ end) => destruct x
  end.

(** ** Requests on the database

    [R] is what the operations of a component keep on a tenant's connection,
    whatever happens to the accounts; a whole request then keeps it for the tenant
    its token was issued for. *)

(** What authentication may do to the account tables. *)
(** The same sessions, some of them seen again. *)
Definition seen_again (m m' : gmap string DeviceSession) : Prop :=
  ∀ i, option_relation (λ x y, y = x ∨ ∃ t, y = set_last_seen t x) (λ _, False) (λ _, False) (m !! i) (m' !! i).
#[export] Instance seen_again_preorder : PreOrder seen_again.
Proof.
  split; [intros m i; destruct (m !! i); [by left|done]|].
  intros m1 m2 m3 H12 H23 i. specialize (H12 i). specialize (H23 i).
  destruct (m1 !! i) as [x|], (m2 !! i) as [y|], (m3 !! i) as [z|]; cbn in *; try done.
  destruct H12 as [->|[t1 ->]], H23 as [->|[t2 ->]]; eauto.
Qed.
Definition moves_sessions {A} (m : M (session identity) db_err A) : Prop :=
  ∀ s, ∃ f, tables (m s).2 = set_device_sessions f (tables s) ∧
    seen_again (device_sessions (tables s)) (f (device_sessions (tables s))).
Lemma reads_sessions {A} (m : M (session identity) db_err A) : reads m → moves_sessions m.
Proof. intros Hm s. exists id. destruct (Hm s) as [-> _]. split; [by destruct (tables s)|done]. Qed.

Section authentication.
Context `{!Driver}.
Lemma GetUser_sessions id : moves_sessions (GetUser id).
Proof. apply reads_sessions, reads_bind; [apply reads_query|]. by intros []. Qed.
Lemma GetSession_sessions id : moves_sessions (GetSession id).
Proof. apply reads_sessions, reads_bind; [apply reads_query|]. by intros []. Qed.
Lemma TouchLastSeen_sessions id : moves_sessions (TouchLastSeen id).
Proof.
  intros s. unfold TouchLastSeen, update_sessions. destruct (stmt _ s) as [r s'] eqn:E.
  apply stmt_inv in E as [(e & _ & Ht)|(a & d & [= _ <-] & _ & ->)].
  - exists (λ x, x). cbn. rewrite Ht. split; [by destruct (tables s)|done].
  - eexists. split; [done|]. intros i. rewrite lookup_fmap. destruct (_ !! i) as [x|]; cbn; [|done].
    case_match; eauto.
Qed.
End authentication.

Section db_requests.
Context `{!Driver, !Jwt} {P : Type} (R : string → bool → relation database) `{!∀ t b, PreOrder (R t b)}.
Context (blind : ∀ t b f d, seen_again (device_sessions (db_identity d)) (f (device_sessions (db_identity d))) →
  R t b d (set_identity (set_device_sessions f (db_identity d)) d)).

Definition db_moves (s s' : hstate) : Prop :=
  app_tenant (h_db s') = app_tenant (h_db s) ∧ bypass_rls (h_db s') = bypass_rls (h_db s) ∧
  R (app_tenant (h_db s)) (bypass_rls (h_db s)) (tables (h_db s)) (tables (h_db s')) ∧
  R (app_tenant (h_db s)) (bypass_rls (h_db s)) (h_own s) (h_own s').

#[export] Instance db_moves_preorder : PreOrder db_moves.
Proof.
  split; [by intros s|]. intros s1 s2 s3 (A1 & B1 & C1 & D1) (A2 & B2 & C2 & D2).
  rewrite A1, B1 in C2, D2. split_and!; [congruence..| |]; by etrans.
Qed.

Lemma db_moves_try {A} (m : M (session database) db_err A) :
  preserves R m → h_along db_moves (try_db (P := P) m).
Proof. intros Hm s. unfold try_db. destruct (Hm (h_db s)) as (K1 & K2 & K3). by destruct (m (h_db s)). Qed.
Lemma db_moves_call {A} (m : M (session database) db_err A) f :
  preserves R m → h_along db_moves (call_db (P := P) m f).
Proof.
  intros Hm s. unfold call_db. destruct (Hm (h_db s)) as (K1 & K2 & K3). by destruct (m (h_db s)) as [[a|e] c].
Qed.
Lemma db_moves_ask {A} (f : nat → A) : h_along db_moves (ask (P := P) f).
Proof. intros s. by split_and!. Qed.

Lemma on_identity_moves {A} (m : M (session identity) db_err A) :
  (∀ t b i d, R t b d (set_identity i d)) → keeps m → preserves R (on_identity m).
Proof.
  intros Hall Hm s. destruct (on_identity_rest m s Hm) as (E1 & E2 & _). split; [|done].
  unfold on_identity, focus. destruct (m _) as [r c]. apply Hall.
Qed.

Definition db_request_moves (t : string) (s s' : hstate) : Prop :=
  app_tenant (h_db s') = app_tenant (h_db s) ∧ bypass_rls (h_db s') = bypass_rls (h_db s) ∧
  R t (bypass_rls (h_db s)) (tables (h_db s)) (tables (h_db s')).

Lemma TenantContext_db_moves roles (h : rctx → Handle P (response P)) c s :
  (∀ c', h_along db_moves (h c')) →
  db_request_moves (cx_tenant c) s (TenantContext (RequireRole roles (written h)) c s).2.
Proof.
  intros Hh. destruct (TenantContext _ c s) as [rsp s'] eqn:ET.
  apply TenantContext_inv in ET as (Ha & Hb & HT). split; [done|]. split; [done|]. cbn.
  destruct HT as [(-> & _)|(role & h0 & h' & Hn & Ht & Ho & _ & Happ & Hby & _ & _ & _ & Ht')]; [done|].
  assert (db_moves h0 h') as (_ & _ & HR & HO).
  { unfold RequireRole in Hn. cbn in Hn. case_bool_decide; [|by injection Hn as _ <-].
    pose proof (h_along_written db_moves h (WithRole role c) h0 (Hh _)) as Hw. by rewrite Hn in Hw. }
  rewrite Happ, Hby, Ht in HR. rewrite Happ, Hby, Ho in HO. destruct Ht' as [->|(_ & _ & ->)]; [exact HO|exact HR].
Qed.

Lemma RequireAuth_db_moves now secret req (next : handler P) s :
  (∀ c s, db_request_moves (cx_tenant c) s (next c s).2) →
  db_request_moves "" s (RequireAuth now secret req next s).2 ∨
  ∃ c, VerifySessionClaims now (request_token req) secret = Ok c ∧
    db_request_moves (ScTenantID c) s (RequireAuth now secret req next s).2.
Proof.
  intros Hn.
  assert (∀ A (m : M (session identity) db_err A) c t, keeps m → moves_sessions m →
    let c' := (on_identity m c).2 in
    app_tenant c' = app_tenant c ∧ bypass_rls c' = bypass_rls c ∧
    R t (bypass_rls c) (tables c) (tables c')) as Hid.
  { intros A m c t Hm Hm'. destruct (on_identity_rest m c Hm) as (E1 & E2 & _). split_and!; [done..|].
    unfold on_identity, focus. destruct (Hm' (retable (db_identity (tables c)) c)) as (f & Hf & Hs).
    destruct (m _) as [r s0]. cbn in *. rewrite Hf. by apply blind. }
  unfold RequireAuth. destruct (String.eqb _ ""); [by left|].
  destruct (VerifySessionClaims now _ secret) as [c|e]; [|by left].
  assert (∀ t, _) as R1 by (intros t; exact (Hid _ (GetUser (AdminID c)) (h_db s) t (GetUser_keeps _) (GetUser_sessions _))).
  destruct (on_identity (GetUser _) _) as [[u|e] c1]; cbn in R1; [|left; exact (R1 "")].
  destruct (match SessionsRevokedAt u with Some _ => _ | None => _ end); [left; exact (R1 "")|].
  assert (∀ t, _) as R2 by (intros t; exact (Hid _ (GetSession (ScSessionID c)) c1 t (GetSession_keeps _) (GetSession_sessions _))).
  assert (∀ t c2, app_tenant c2 = app_tenant c1 ∧ bypass_rls c2 = bypass_rls c1 ∧
    R t (bypass_rls c1) (tables c1) (tables c2) → db_request_moves t s (set_h_db c2 s)) as H12.
  { intros t c2 (A2 & B2 & C2). destruct (R1 t) as (A1 & B1 & C1). split_and!; cbn; [congruence..|].
    rewrite B1 in C2. by etrans. }
  destruct (on_identity (GetSession _) c1) as [[z|e] c2]; cbn in R2; [|left; apply H12, R2].
  destruct (RevokedAt z); [left; apply H12, R2|].
  assert (∀ t, _) as R3 by (intros t; exact (Hid _ (TouchLastSeen (DsID z)) c2 t (TouchLastSeen_keeps _) (TouchLastSeen_sessions _))).
  destruct (on_identity (TouchLastSeen _) c2) as [q c3]. cbn in R3.
  right. exists c. split; [done|].
  destruct (Hn (RCtx u (ScTenantID c) (DsID z) None) (set_h_db c3 s)) as (F1 & F2 & F3). cbn in F1, F2, F3.
  destruct (R3 (ScTenantID c)) as (A3 & B3 & C3), (R2 (ScTenantID c)) as (A2 & B2 & C2), (R1 (ScTenantID c)) as (A1 & B1 & C1).
  split_and!; [congruence..|]. rewrite B3, B2, B1 in F3. rewrite B2, B1 in C3. rewrite B1 in C2.
  etrans; [exact C1|]. etrans; [exact C2|]. by etrans.
Qed.
End db_requests.

(** ** Requests on the operational tables

    [R] is what the operations of a component keep on a tenant's connection; a
    whole request then keeps it for the tenant its token was issued for. *)

Section core_requests.
Context `{!Driver, !Jwt} {P : Type} (R : string → bool → relation core) `{!∀ t b, PreOrder (R t b)}.

Definition core_moves (s s' : hstate) : Prop :=
  app_tenant (h_db s') = app_tenant (h_db s) ∧ bypass_rls (h_db s') = bypass_rls (h_db s) ∧
  R (app_tenant (h_db s)) (bypass_rls (h_db s)) (db_core (tables (h_db s))) (db_core (tables (h_db s'))) ∧
  R (app_tenant (h_db s)) (bypass_rls (h_db s)) (db_core (h_own s)) (db_core (h_own s')).

#[export] Instance core_moves_preorder : PreOrder core_moves.
Proof.
  split; [by intros s|]. intros s1 s2 s3 (A1 & B1 & C1 & D1) (A2 & B2 & C2 & D2).
  rewrite A1, B1 in C2, D2. split_and!; [congruence..| |]; by etrans.
Qed.

Lemma core_moves_call {A} (m : M (session core) db_err A) f :
  preserves R m → h_along core_moves (call (P := P) m f).
Proof.
  intros Hm s. unfold call, call_db, on_db_core, focus.
  destruct (Hm (retable (db_core (tables (h_db s))) (h_db s))) as (K1 & K2 & K3).
  by destruct (m _) as [[a|e] s1].
Qed.
Lemma core_moves_own {A} (m : M (session core) db_err A) f :
  preserves R m → h_along core_moves (call_own (P := P) (on_db_core m) f).
Proof.
  intros Hm s. unfold call_own, on_db_core, focus.
  destruct (Hm (retable (db_core (tables (h_db s))) (h_db s))) as (K1 & K2 & K3).
  destruct (Hm (retable (db_core (h_own s)) (h_db s))) as (L1 & _ & _). cbn in *.
  change (retable (db_core (h_own s)) (set_tables (h_own s) (h_db s))) with
    (retable (db_core (h_own s)) (h_db s)).
  destruct (m (retable (db_core (h_own s)) (h_db s))) as [r' s2].
  destruct (m _) as [r s1]. by destruct r'.
Qed.
Lemma core_moves_try {A} (m : M (session core) db_err A) :
  preserves R m → h_along core_moves (try_core (P := P) m).
Proof.
  intros Hm s. unfold try_core, try_db, on_db_core, focus.
  destruct (Hm (retable (db_core (tables (h_db s))) (h_db s))) as (K1 & K2 & K3).
  by destruct (m _) as [r s1].
Qed.
Lemma core_moves_id {A} (m : M (session identity) db_err A) :
  keeps m → h_along core_moves (try_id (P := P) m).
Proof.
  intros Hm s. unfold try_id, try_db. destruct (on_identity_rest m (h_db s) Hm) as (E1 & E2 & E3).
  destruct (on_identity m (h_db s)) as [r c]. cbn in *. unfold core_moves. cbn. by rewrite E3.
Qed.
Lemma core_moves_ask {A} (f : nat → A) : h_along core_moves (ask (P := P) f).
Proof. intros s. by split_and!. Qed.

Definition request_moves (t : string) (s s' : hstate) : Prop :=
  app_tenant (h_db s') = app_tenant (h_db s) ∧ bypass_rls (h_db s') = bypass_rls (h_db s) ∧
  R t (bypass_rls (h_db s)) (db_core (tables (h_db s))) (db_core (tables (h_db s'))).

Definition on_core (t : string) (b : bool) (d d' : database) : Prop := R t b (db_core d) (db_core d').
#[local] Instance on_core_preorder t b : PreOrder (on_core t b).
Proof.
  unfold on_core. split; [intros d; reflexivity|]. intros d1 d2 d3 E1 E2. by etrans.
Qed.

Lemma TenantContext_moves roles (h : rctx → Handle P (response P)) c s :
  (∀ c', h_along core_moves (h c')) →
  request_moves (cx_tenant c) s (TenantContext (RequireRole roles (written h)) c s).2.
Proof. exact (TenantContext_db_moves on_core roles h c s). Qed.

Lemma RequireAuth_moves now secret req (next : handler P) s :
  (∀ c s, request_moves (cx_tenant c) s (next c s).2) →
  request_moves "" s (RequireAuth now secret req next s).2 ∨
  ∃ c, VerifySessionClaims now (request_token req) secret = Ok c ∧
    request_moves (ScTenantID c) s (RequireAuth now secret req next s).2.
Proof.
  apply (RequireAuth_db_moves on_core). intros. unfold on_core. cbn. reflexivity.
Qed.
End core_requests.
