(* ===== verification/IncidentApi.v ===== *)
(** * The incident routes (internal/api/incidents_handler.go)

    The eight handlers over the incident repository, as they are mounted: behind
    [RequireAuth], [TenantContext] and [RequireRole] (internal/cli/routes.go).  A
    notification is recorded when it is handed to the notify service; JSON
    decoding gives the handler its body, [None] when it fails. *)

From stdpp Require Import numbers strings gmap list.
From Stdlib Require Import ZArith Lia.
From S2P Require Import Prelude GoNum Db Schema World GoStrings Incidents Identity LLMProviders Providers Auth Api Handler.

#[local] Open Scope Z_scope.
#[local] Open Scope go_scope.

(** ** Requests and responses *)

Record createIncidentRequest := {
  ReqTitle : string;
  ReqServiceIDs : list string;
  ReqSeverity : string;
  ReqDescription : string;
}.

Record transitionIncidentRequest := {
  ReqStatus : string;
  ReqNote : string;
}.

Record incidentResponse := {
  RespID : string;
  RespTitle : string;
  RespStatus : string;
  RespCreatedAt : Z;
  RespResolvedAt : option Z;
  RespServiceIDs : list string;
  RespDescription : option string;
  RespPendingCloseComment : option string;
  RespAutoCreated : bool;
  RespSeverity : string;
}.

Definition toIncidentResponse (x : Incident) (serviceIDs : list string) : incidentResponse :=
  {| RespID := IncID x; RespTitle := Title x; RespStatus := IncStatus x;
     RespCreatedAt := CreatedAt x; RespResolvedAt := ResolvedAt x; RespServiceIDs := serviceIDs;
     RespDescription := Description x; RespPendingCloseComment := PendingCloseComment x;
     RespAutoCreated := AutoCreated x; RespSeverity := Severity x |}.

Inductive payload :=
| IncidentJson (x : incidentResponse)
| IncidentsJson (p : Page incidentResponse)
| TimelineJson (l : list IncidentUpdate)
| TimelinePageJson (p : Page IncidentUpdate)
| Discarded.

Definition incidentsPageSize : Z := 25.
Definition maxClosingNoteRunes : nat := 2000.

Definition validIncidentSeverities (s : string) : bool :=
  bool_decide (s ∈ ["minor"; "moderate"; "critical"]).
Definition validIncidentStatuses (s : string) : bool :=
  bool_decide (s ∈ ["investigating"; "identified"; "monitoring"; "resolved"]).

Definition invalidIncidentRequestBody : string := "title and at least one service_id are required".
Definition invalidIncidentSeverityBody : string := "severity must be one of minor, moderate, critical".
Definition invalidIncidentUpdateRequestBody : string := "body is required".
Definition invalidIncidentStatusBody : string :=
  "status must be one of investigating, identified, monitoring, resolved".
Definition closingNoteTooLongBody : string := "note must be at most 2000 characters".
Definition transitionBodyTooLargeBody : string := "request body is too large".
Definition noPendingCloseProposalBody : string := "incident has no pending close proposal".
Definition invalidConfirmCloseRequestBody : string :=
  "comment is required and must match the currently pending close proposal".
Definition closeProposalChangedBody : string :=
  "the pending close proposal changed since it was displayed - reload and try again".

Definition writeUnprocessable (msg : string) : response payload :=
  Response StatusUnprocessableEntity (ErrorBody msg).
Definition writeIncidentNotFound : response payload :=
  Response StatusNotFound (ErrorBody "incident not found").
Definition writeNoPendingCloseProposal : response payload :=
  writeUnprocessable noPendingCloseProposalBody.

(** ** Handlers *)

Abbreviation H := (Handle payload).

Section handlers.
Context `{!Driver}.

(** 404 for a missing incident, 500 for the rest. *)
Definition not_found_or_500 (e : db_err) : response payload :=
  if decide (e = ErrNotFound) then writeIncidentNotFound else writeInternalError.

(** [notifyIncident]: the summary handed to the notify service, whatever
    becomes of it. *)
Definition incident_summary (x : Incident) : IncidentSummary :=
  {| SumIncidentID := IncID x; SumTitle := Title x; SumSeverity := Severity x;
     SumServiceName := ""; SumStatus := IncStatus x; SumOpenedAt := CreatedAt x;
     SumResolvedAt := ResolvedAt x; SumDescription := default "" (Description x) |}.
Definition notifyIncident (c : rctx) (x : Incident) (resolved : bool) : H unit :=
  λ s, (Ok tt, add_mail (cx_tenant c, resolved, incident_summary x) s).

(** The incident a create request asks for; its generated columns are the
    repository's. *)
Definition requested_incident (req : createIncidentRequest) : Incident :=
  {| IncID := ""; Title := ReqTitle req; IncStatus := ""; CreatedAt := 0; ResolvedAt := None;
     Description := if String.eqb (ReqDescription req) "" then None else Some (ReqDescription req);
     PendingCloseComment := None; AutoCreated := false; Severity := ReqSeverity req |}.

Definition CreateIncident (req : option createIncidentRequest) (c : rctx) : H (response payload) :=
  match req with
  | None => fail (writeUnprocessable invalidIncidentRequestBody)
  | Some req =>
      reject (String.eqb (ReqTitle req) "" || (Z.of_nat (length (ReqServiceIDs req)) =? 0))
        (writeUnprocessable invalidIncidentRequestBody) (
      reject (negb (validIncidentSeverities (ReqSeverity req)))
        (writeUnprocessable invalidIncidentSeverityBody) (
      incident <- call (Create (requested_incident req) (ReqServiceIDs req))
                       (λ _, writeInternalError) ;;
      notifyIncident c incident false ;;;
      ret (Response StatusCreated
             (Json (IncidentJson (toIncidentResponse incident (ReqServiceIDs req)))))))
  end.

Definition ListIncidents (page : string) (c : rctx) : H (response payload) :=
  let page := parsePage page in
  r <- call (ListPaginated page incidentsPageSize) (λ _, writeInternalError) ;;
  ret (Response StatusOK (Json (IncidentsJson
    {| Items := (λ p, toIncidentResponse p.1 p.2) <$> r.1; Total := r.2; PageNo := page;
       PageSize := incidentsPageSize |}))).

Definition AddIncidentUpdate (id : string) (body : option string) (c : rctx) :
    H (response payload) :=
  match body with
  | None => fail (writeUnprocessable invalidIncidentUpdateRequestBody)
  | Some body =>
      reject (String.eqb body "") (writeUnprocessable invalidIncidentUpdateRequestBody) (
      call (AddUpdate id body (Some (UserID (cx_user c))) false) not_found_or_500 ;;;
      r <- call (ListUpdatesPaginated id 1 incidentsPageSize) (λ _, writeInternalError) ;;
      ret (Response StatusCreated (Json (TimelineJson r.1))))
  end.

Definition ListIncidentUpdates (id page : string) (c : rctx) : H (response payload) :=
  let page := parsePage page in
  r <- call (ListUpdatesPaginated id page incidentsPageSize) not_found_or_500 ;;
  ret (Response StatusOK (Json (TimelinePageJson
    {| Items := r.1; Total := r.2; PageNo := page; PageSize := incidentsPageSize |}))).

(** The closing note: only of a resolve, trimmed. *)
Definition closing_note (req : transitionIncidentRequest) : string :=
  if String.eqb (ReqStatus req) "resolved" then TrimSpace (ReqNote req) else "".

Definition TransitionIncident (id : string) (body : decoded transitionIncidentRequest) (c : rctx) :
    H (response payload) :=
  match body with
  | TooLarge => fail (writeUnprocessable transitionBodyTooLargeBody)
  | Malformed => fail (writeUnprocessable invalidIncidentStatusBody)
  | Decoded req =>
      let note := closing_note req in
      let authorID := if String.eqb note "" then None else Some (UserID (cx_user c)) in
      reject (negb (validIncidentStatuses (ReqStatus req)))
        (writeUnprocessable invalidIncidentStatusBody) (
      reject (String.eqb (ReqStatus req) "resolved" &&
              bool_decide (maxClosingNoteRunes < rune_count note)%nat)
        (writeUnprocessable closingNoteTooLongBody) (
      r <- call (Transition id (ReqStatus req) note authorID) not_found_or_500 ;;
      (if r.2 && String.eqb (ReqStatus req) "resolved" then notifyIncident c r.1 true
       else ret tt) ;;;
      ret (Response StatusOK (Json (IncidentJson (toIncidentResponse r.1 []))))))
  end.

Definition confirm_errors (e : db_err) : response payload :=
  if decide (e = ErrNotFound) then writeIncidentNotFound
  else if decide (e = ErrNoPendingProposal) then writeNoPendingCloseProposal
  else if decide (e = ErrCloseProposalChanged)
       then Response StatusConflict (ErrorBody closeProposalChangedBody)
  else writeInternalError.

Definition ConfirmClose (id : string) (comment : option string) (c : rctx) : H (response payload) :=
  match comment with
  | None => fail (writeUnprocessable invalidConfirmCloseRequestBody)
  | Some comment =>
      reject (String.eqb comment "") (writeUnprocessable invalidConfirmCloseRequestBody) (
      incident <- call (ConfirmPendingClose id comment) confirm_errors ;;
      notifyIncident c incident true ;;;
      ret (Response StatusOK (Json (IncidentJson (toIncidentResponse incident [])))))
  end.

Definition SetIncidentSeverity (id : string) (severity : option string) (c : rctx) :
    H (response payload) :=
  match severity with
  | None => fail (writeUnprocessable invalidIncidentSeverityBody)
  | Some severity =>
      reject (negb (validIncidentSeverities severity))
        (writeUnprocessable invalidIncidentSeverityBody) (
      incident <- call (SetSeverity id severity) not_found_or_500 ;;
      ret (Response StatusOK (Json (IncidentJson (toIncidentResponse incident [])))))
  end.

Definition discard_errors (e : db_err) : response payload :=
  if decide (e = ErrNotFound) then writeIncidentNotFound
  else if decide (e = ErrNoPendingProposal) then writeNoPendingCloseProposal
  else writeInternalError.

Definition DiscardProposal (id : string) (c : rctx) : H (response payload) :=
  call (DiscardCloseProposal id) discard_errors ;;;
  ret (Response StatusOK (Json Discarded)).

End handlers.

(** ** Routes *)

Inductive incident_request :=
| PostIncident (body : option createIncidentRequest)
| GetIncidents (page : string)
| PostUpdate (id : string) (body : option string)
| GetUpdates (id page : string)
| PatchIncident (id : string) (body : decoded transitionIncidentRequest)
| PostConfirmClose (id : string) (comment : option string)
| PostDiscardProposal (id : string)
| PatchSeverity (id : string) (severity : option string).

Definition writeRoles : list string := [RoleOwner; RoleOperator].
Definition anyRole : list string := [RoleOwner; RoleOperator; RoleViewer].

Definition route_roles (r : incident_request) : list string :=
  match r with
  | GetIncidents _ | GetUpdates _ _ => anyRole
  | _ => writeRoles
  end.

Section routes.
Context `{!Driver, !Jwt}.

Definition route_handler (r : incident_request) : rctx → H (response payload) :=
  match r with
  | PostIncident body => CreateIncident body
  | GetIncidents page => ListIncidents page
  | PostUpdate id body => AddIncidentUpdate id body
  | GetUpdates id page => ListIncidentUpdates id page
  | PatchIncident id body => TransitionIncident id body
  | PostConfirmClose id comment => ConfirmClose id comment
  | PostDiscardProposal id => DiscardProposal id
  | PatchSeverity id severity => SetIncidentSeverity id severity
  end.

(** A route behind its tenant context and role. *)
Definition tenant_route (r : incident_request) : handler payload :=
  TenantContext (RequireRole (route_roles r) (written (route_handler r))).

(** A whole request. *)
Definition serve (now : Z) (secret : string) (req : credentials) (r : incident_request) (s : hstate) :
    response payload * hstate :=
  RequireAuth now secret req (tenant_route r) s.

Fixpoint serve_all (secret : string) (l : list (Z * credentials * incident_request)) (s : hstate) :
    hstate :=
  match l with
  | [] => s
  | (now, req, r) :: l => serve_all secret l (serve now secret req r s).2
  end.
End routes.

(** ** Lemmas *)

Section handler_lemmas.
Context `{!Driver, !Jwt}.

(** What handler code keeps: the settings, the identity tables, and the
    relation every incident operation keeps; its mails are the tenant's. *)
Definition hrel (t : string) (s s' : hstate) : Prop :=
  app_tenant (h_db s') = app_tenant (h_db s) ∧ bypass_rls (h_db s') = bypass_rls (h_db s) ∧
  db_identity (tables (h_db s')) = db_identity (tables (h_db s)) ∧
  inc_rel (app_tenant (h_db s)) (bypass_rls (h_db s)) (db_core (tables (h_db s)))
    (db_core (tables (h_db s'))) ∧
  (∀ m, m ∈ h_mails s' → m ∈ h_mails s ∨ m.1.1 = t) ∧ h_own s' = h_own s.

Definition hkeeps (t : string) {A} (m : H A) : Prop := ∀ s, hrel t s (m s).2.

Lemma hrel_refl t s : hrel t s s.
Proof. split_and!; try done. by left. Qed.

Lemma hrel_trans t s1 s2 s3 : hrel t s1 s2 → hrel t s2 s3 → hrel t s1 s3.
Proof.
  intros (A1 & B1 & C1 & D1 & M1 & O1) (A2 & B2 & C2 & D2 & M2 & O2). split_and!; [congruence..| | |congruence].
  - rewrite A1, B1 in D2. by etrans.
  - intros m Hm. destruct (M2 m Hm); [by apply M1|by right].
Qed.

Lemma hkeeps_ret t {A} (a : A) : hkeeps t (ret a).
Proof. intros s. apply hrel_refl. Qed.
Lemma hkeeps_fail t {A} r : hkeeps t (fail r : H A).
Proof. intros s. apply hrel_refl. Qed.
Lemma hkeeps_mail c x b : hkeeps (cx_tenant c) (notifyIncident c x b).
Proof.
  intros s. split_and!; try done. cbn. intros m [Hm| ->%list_elem_of_singleton]%elem_of_app;
    [by left|by right].
Qed.
Lemma hkeeps_reject t {A} b r (k : H A) : hkeeps t k → hkeeps t (reject b r k).
Proof. intros Hk. destruct b; [apply hkeeps_fail|apply Hk]. Qed.

Lemma hkeeps_bind t {A B} (m : H A) (k : A → H B) :
  hkeeps t m → (∀ a, hkeeps t (k a)) → hkeeps t (bind m k).
Proof.
  intros Hm Hk s. unfold bind. specialize (Hm s). destruct (m s) as [[a|e] s1]; [|done].
  eapply hrel_trans; [done|apply Hk].
Qed.

Lemma hkeeps_call t {A} (m : M (session core) db_err A) f :
  preserves inc_rel m → hkeeps t (call m f).
Proof.
  intros Hm s. unfold call, call_db, on_db_core, focus.
  destruct (Hm (retable (db_core (tables (h_db s))) (h_db s))) as (K1 & K2 & K3).
  destruct (m _) as [[a|e] s1]; cbn in *; split_and!; try done; by left.
Qed.

(** An operation whose result is looked at is one whose result is dropped. *)
Lemma op_keeps {A} (m : M (session core) db_err A) o :
  run_incident_op o = (m ;;; ret tt) → preserves inc_rel m.
Proof.
  intros E s. pose proof (run_incident_op_rel o s) as Ho. rewrite E in Ho.
  unfold bind in Ho. by destruct (m s) as [[a|e] s1].
Qed.

Lemma Create_keeps x l : preserves inc_rel (Create x l).
Proof. by apply (op_keeps _ (OpCreateIncident x l)). Qed.
Lemma AddUpdate_keeps i b a ai : preserves inc_rel (AddUpdate i b a ai).
Proof. by apply (op_keeps _ (OpAddUpdate i b a ai)). Qed.
Lemma ListPaginated_keeps p n : preserves inc_rel (ListPaginated p n).
Proof. by apply (op_keeps _ (OpIncidentPage p n)). Qed.
Lemma ListUpdatesPaginated_keeps i p n : preserves inc_rel (ListUpdatesPaginated i p n).
Proof. by apply (op_keeps _ (OpUpdatesPage i p n)). Qed.
Lemma Transition_keeps i st note a : preserves inc_rel (Transition i st note a).
Proof. by apply (op_keeps _ (OpTransition i st note a)). Qed.
Lemma SetSeverity_keeps i sev : preserves inc_rel (SetSeverity i sev).
Proof. by apply (op_keeps _ (OpSetSeverity i sev)). Qed.
Lemma ConfirmPendingClose_keeps i c : preserves inc_rel (ConfirmPendingClose i c).
Proof. by apply (op_keeps _ (OpConfirmClose i c)). Qed.
Lemma DiscardCloseProposal_keeps i : preserves inc_rel (DiscardCloseProposal i).
Proof. apply (run_incident_op_rel (OpDiscard i)). Qed.
End handler_lemmas.

#[export] Hint Resolve hkeeps_ret hkeeps_fail hkeeps_mail hkeeps_reject hkeeps_bind hkeeps_call
  Create_keeps AddUpdate_keeps ListPaginated_keeps ListUpdatesPaginated_keeps Transition_keeps
  SetSeverity_keeps ConfirmPendingClose_keeps DiscardCloseProposal_keeps : vane.

Section route_lemmas.
Context `{!Driver, !Jwt}.

Lemma route_handler_keeps r c : hkeeps (cx_tenant c) (route_handler r c).
Proof.
  destruct r; cbn [route_handler];
    unfold CreateIncident, ListIncidents, AddIncidentUpdate, ListIncidentUpdates,
      TransitionIncident, ConfirmClose, DiscardProposal, SetIncidentSeverity;
    try case_match; auto 8 with vane.
  apply hkeeps_reject, hkeeps_reject, hkeeps_bind; [auto with vane|]. intros x.
  apply hkeeps_bind; [destruct (_ && _); auto with vane|auto with vane].
Qed.

Lemma written_keeps (h : rctx → H (response payload)) c s :
  hkeeps (cx_tenant c) (h c) → hrel (cx_tenant c) s (written h c s).2.
Proof. intros Hh. unfold written. specialize (Hh s). by destruct (h c s) as [[r|r] s1]. Qed.

(** What a request behind its tenant context can do. *)
Definition route_rel (t : string) (s s' : hstate) : Prop :=
  app_tenant (h_db s') = app_tenant (h_db s) ∧ bypass_rls (h_db s') = bypass_rls (h_db s) ∧
  inc_rel t (bypass_rls (h_db s)) (db_core (tables (h_db s))) (db_core (tables (h_db s'))) ∧
  (∀ m, m ∈ h_mails s' → m ∈ h_mails s ∨ m.1.1 = t).

Lemma tenant_route_rel r c s : route_rel (cx_tenant c) s (tenant_route r c s).2.
Proof.
  unfold tenant_route. destruct (TenantContext _ c s) as [rsp s'] eqn:ET.
  apply TenantContext_inv in ET as (Ha & Hb & HT). split; [done|]. split; [done|]. cbn.
  destruct HT as [(-> & -> & _)|(role & h & h' & Hn & Ht & Ho & Hm & Happ & Hby & _ & _ & Hm' & Ht')];
    [split; [done|by left]|].
  assert (hrel (cx_tenant c) h h') as (_ & _ & HI & HR & HM & HO).
  { unfold RequireRole in Hn. cbn in Hn. case_bool_decide; [|injection Hn as _ <-; apply hrel_refl].
    pose proof (written_keeps (route_handler r) (WithRole role c) h
      (route_handler_keeps r (WithRole role c))) as Hw. by rewrite Hn in Hw. }
  rewrite Hm', <- Hm. split; [|done]. rewrite Happ, Hby, Ht in HR.
  destruct Ht' as [->|(_ & _ & ->)]; [by rewrite HO, Ho|exact HR].
Qed.

Lemma serve_rel now secret req r s :
  route_rel "" s (serve now secret req r s).2 ∨
  ∃ c, VerifySessionClaims now (request_token req) secret = Ok c ∧
    route_rel (ScTenantID c) s (serve now secret req r s).2.
Proof.
  assert (∀ t s', tables (h_db s') = tables (h_db s) ∨
      db_core (tables (h_db s')) = db_core (tables (h_db s)) →
    app_tenant (h_db s') = app_tenant (h_db s) → bypass_rls (h_db s') = bypass_rls (h_db s) →
    h_mails s' = h_mails s → route_rel t s s') as Hsame.
  { intros t s' Ht Ha Hb Hm. split_and!; [done..| |rewrite Hm; by left].
    destruct Ht as [->| ->]; done. }
  unfold serve, RequireAuth. destruct (String.eqb _ ""); [left; apply Hsame; auto|].
  destruct (VerifySessionClaims now _ secret) as [c|e]; [|left; apply Hsame; auto].
  pose proof (on_identity_rest (GetUser (AdminID c)) (h_db s) (GetUser_keeps _)) as R1.
  destruct (on_identity (GetUser _) _) as [[u|e] c1]; [|left; apply Hsame; tauto].
  destruct (match SessionsRevokedAt u with Some _ => _ | None => _ end); [left; apply Hsame; tauto|].
  pose proof (on_identity_rest (GetSession (ScSessionID c)) c1 (GetSession_keeps _)) as R2.
  destruct (on_identity (GetSession _) c1) as [[z|e] c2]; cbn in R1, R2;
    destruct R1 as (A1 & B1 & C1), R2 as (A2 & B2 & C2);
    [|left; apply Hsame; cbn; [right| | |]; congruence].
  destruct (RevokedAt z); [left; apply Hsame; cbn; [right| | |]; congruence|].
  pose proof (on_identity_rest (TouchLastSeen (DsID z)) c2 (TouchLastSeen_keeps _)) as R3.
  destruct (on_identity (TouchLastSeen _) c2) as [q c3]. destruct R3 as (A3 & B3 & C3). cbn in *.
  right. exists c. split; [done|].
  destruct (tenant_route_rel r (RCtx u (ScTenantID c) (DsID z) None) (set_h_db c3 s))
    as (F1 & F2 & F3 & F4). cbn in *.
  split_and!; [congruence|congruence| |exact F4].
  by rewrite B3, B2, B1, C3, C2, C1 in F3.
Qed.
End route_lemmas.

Section transition_lemmas.
Context `{!Driver}.

Lemma stmt_NotFound {D A} (f : session D → res db_err (A * D)) s s' :
  (∀ s, f s ≠ Err ErrNotFound) → stmt f s = (Err ErrNotFound, s') → False.
Proof.
  intros Hf. unfold stmt. destruct (aborted s); [done|]. destruct (event_fails _); [done|].
  destruct (f s) as [[a d]|e] eqn:E; [done|]. intros [= -> _]. by apply (Hf s).
Qed.

Lemma update_incidents_NotFound id p f s s' :
  update_incidents id p f s = (Err ErrNotFound, s') → False.
Proof. apply stmt_NotFound. intros u. repeat case_match; done. Qed.

Lemma insert_update_NotFound id b a ai t s s' :
  insert_update id b a ai t s = (Err ErrNotFound, s') → False.
Proof. apply stmt_NotFound. intros u. cbv zeta. repeat case_match; done. Qed.

(** ErrNotFound is the answer for an incident the session does not see. *)
Lemma transition_NotFound id st note a s s' :
  transition id st note a s = (Err ErrNotFound, s') →
  find_incident id s = None ∧ tables s' = tables s.
Proof.
  unfold transition, bind at 1. destruct (update_incidents id _ _ s) as [[[x|]|e] s1] eqn:Hu.
  - unfold bind at 1. destruct (insert_update id _ None _ _ s1) as [[u|e] s2] eqn:H1.
    2:{ intros [= -> <-]. by apply insert_update_NotFound in H1. }
    destruct (String.eqb note ""); cbn; [done|]. unfold bind at 1 2.
    destruct (insert_update id note _ _ _ s2) as [[v|e] s3] eqn:H2; cbn; [done|].
    intros [= -> <-]. by apply insert_update_NotFound in H2.
  - assert (tables s1 = tables s) as Ht.
    { apply stmt_Ok_inv in Hu as (d & Hd & -> & _). repeat case_match; congruence. }
    unfold bind. destruct (query (find_incident id) s1) as [[q|e] s2] eqn:Hq.
    2:{ intros [= -> <-]. exfalso. revert Hq. apply stmt_NotFound. done. }
    apply query_Ok_inv in Hq as [-> Ht2]. destruct (find_incident id s1) as [r|] eqn:Hf; [done|].
    intros [= <-]. apply stmt_settings_eq in Hu as [Ea Eb].
    split; [|congruence]. revert Hf. unfold find_incident, inc_visible, visible.
    by rewrite Ht, Ea, Eb.
  - intros [= -> <-]. by apply update_incidents_NotFound in Hu.
Qed.

(** What a decoded PATCH request is answered and has done. *)
Definition transition_outcome (id : string) (req : transitionIncidentRequest) (c : rctx)
    (h h' : hstate) (rsp : response payload) : Prop :=
  let s := retable (db_core (tables (h_db h))) (h_db h) in
  let note := closing_note req in
  let bad := negb (validIncidentStatuses (ReqStatus req)) ||
             String.eqb (ReqStatus req) "resolved" && bool_decide (maxClosingNoteRunes < rune_count note)%nat in
  if bad then rsp_status rsp = 422 ∧ h' = h
  else
    (rsp = writeIncidentNotFound ∧ find_incident id s = None ∧
     tables (h_db h') = tables (h_db h) ∧ h_mails h' = h_mails h) ∨
    (rsp = writeInternalError ∧ h_mails h' = h_mails h) ∨
    (∃ r0 x, find_incident id s = Some r0 ∧
     rsp = Response 200 (Json (IncidentJson (toIncidentResponse x []))) ∧
     IncStatus x = ReqStatus req ∧
     if String.eqb (IncStatus (inc r0)) (ReqStatus req)
     then tables (h_db h') = tables (h_db h) ∧ h_mails h' = h_mails h
     else transitioned id (ReqStatus req) note
            (if String.eqb note "" then None else Some (UserID (cx_user c))) (sql_now s) r0
            (tables s) (db_core (tables (h_db h'))) ∧
          h_mails h' = h_mails h ++
            (if String.eqb (ReqStatus req) "resolved"
             then [(cx_tenant c, true, incident_summary x)] else [])).

Lemma TransitionIncident_inv id req c h h' rsp :
  is_Some (tx_start (h_db h)) →
  written (TransitionIncident id (Decoded req)) c h = (rsp, h') →
  transition_outcome id req c h h' rsp.
Proof.
  intros Htx. unfold transition_outcome. cbn zeta. unfold written, TransitionIncident, reject.
  destruct (negb (validIncidentStatuses _)); [intros [= <- <-]; done|].
  destruct (String.eqb (ReqStatus req) "resolved" && _) eqn:Elong; [intros [= <- <-]; done|]. cbn [orb].
  set (s := retable (db_core (tables (h_db h))) (h_db h)).
  set (note := closing_note req). set (a := if String.eqb note "" then _ else _).
  assert (is_Some (tx_start s)) as [t Hs] by exact Htx.
  assert (Transition id (ReqStatus req) note a s = transition id (ReqStatus req) note a s) as Etr
    by (unfold Transition, runInTx; by rewrite Hs).
  unfold bind at 1, call, call_db, on_db_core, focus. fold s. rewrite Etr.
  destruct (transition id (ReqStatus req) note a s) as [r s1] eqn:ET.
  pose proof ET as HT. apply transition_inv in HT; [|by rewrite Hs].
  destruct r as [[x changed]|e]; cbn.
  - intros E. right; right. destruct changed.
    + destruct HT as (r0 & Hf & Hst & Hx & Htr). exists r0, x. split; [done|].
      rewrite (proj2 (String.eqb_neq _ _) Hst). subst x.
      destruct (String.eqb (ReqStatus req) "resolved") eqn:Eres; unfold bind in E; cbn in E;
        injection E as <- <-; (split_and!; [done|done|exact Htr|]); cbn; by rewrite ?app_nil_r.
    + destruct HT as (Ht & r0 & Hf & Hst & Hx). exists r0, x. split; [done|].
      rewrite Hst, String.eqb_refl. unfold bind in E; cbn in E. injection E as <- <-. subst x.
      split_and!; [done|done| |done]. cbn. rewrite Ht. by destruct (tables (h_db h)).
  - unfold not_found_or_500. destruct (decide (e = ErrNotFound)) as [->|He]; intros [= <- <-].
    + left. apply transition_NotFound in ET as [Hf Ht]. split_and!; [done|done| |done].
      cbn. rewrite Ht. by destruct (tables (h_db h)).
    + right; left. done.
Qed.
End transition_lemmas.

(** ** Properties *)

(** C1: whatever a sequence of requests to the incident routes carries, by
    whoever, and whatever fails while they are served: a tenant that is not the
    active one of any of their tokens keeps every row, timeline entry and
    mailbox, and the incident invariant survives. *)
Theorem incident_requests_isolated `{!Driver, !Jwt} (secret : string)
    (l : list (Z * credentials * incident_request)) (u : string) (s : hstate) :
  bypass_rls (h_db s) = false →
  (∀ now req r c, (now, req, r) ∈ l →
     VerifySessionClaims now (request_token req) secret = Ok c → ScTenantID c ≠ u) →
  let s' := serve_all secret l s in
  untouched u (db_core (tables (h_db s))) (db_core (tables (h_db s'))) ∧
  (u ≠ "" → ∀ m, m ∈ h_mails s' → m.1.1 = u → m ∈ h_mails s) ∧
  (incidents_wf (db_core (tables (h_db s))) → incidents_wf (db_core (tables (h_db s')))).
Proof.
  revert s. induction l as [|[[now req] r] l IH]; intros s Hb Hl; [done|]. cbn zeta. cbn [serve_all].
  assert (bypass_rls (h_db (serve now secret req r s).2) = false ∧
    ∃ t, (t = "" ∨ t ≠ u) ∧ route_rel t s (serve now secret req r s).2) as (Hb1 & t & Ht & _ & _ & HR & HM).
  { destruct (serve_rel now secret req r s) as [HR|(c & Hc & HR)]; pose proof HR as (_ & -> & _);
      (split; [done|]); eexists; (split; [|exact HR]); [by left|right].
    apply (Hl now req r c); [by left|done]. }
  destruct (IH _ Hb1) as (U1 & U2 & U3); [intros; eapply Hl; [by right|done]|].
  rewrite Hb in HR. destruct HR as [HI HW]. split_and!.
  - etrans; [|exact U1]. apply (isolated_untouched t); [by apply HI|].
    destruct Ht as [->|Ht]; [by left|right; congruence].
  - intros Hu m Hm E. specialize (U2 Hu m Hm E). destruct (HM m U2) as [|E']; [done|].
    destruct Ht as [->|Ht]; congruence.
  - intros Hw. by apply U3, HW.
Qed.

(** C37: PATCH /api/incidents/{id} answers what happened.  On its tenant
    transaction: 422, and nothing was done, exactly for a status it does not know
    or a closing note over 2000 characters; 404 only for an incident the tenant
    does not have, and nothing was done; 500 without a mail; and 200 either for
    the status the incident already had, with no change and no mail, or for a
    whole transition, whose one mail is sent exactly when it resolves. *)
Theorem TransitionIncident_spec `{!Driver} (id : string) (req : transitionIncidentRequest) (c : rctx)
    (h h' : hstate) (rsp : response payload) :
  is_Some (tx_start (h_db h)) →
  written (TransitionIncident id (Decoded req)) c h = (rsp, h') →
  transition_outcome id req c h h' rsp.
Proof. intros Htx Hw. by apply TransitionIncident_inv. Qed.

(** resolving a resolved incident is silent.  Once the incident is resolved, a
    further request to resolve it, by anyone of any tenant, with whatever note
    and whatever failing, changes nothing and mails nobody. *)
Theorem resolve_again_silent `{!Driver} (id note : string) (c : rctx) (s : hstate) (r : incident_row) :
  incidents (db_core (tables (h_db s))) !! id = Some r → IncStatus (inc r) = "resolved" →
  let '(rsp, s') := tenant_route (PatchIncident id
    (Decoded {| ReqStatus := "resolved"; ReqNote := note |})) c s in
  tables (h_db s') = tables (h_db s) ∧ h_mails s' = h_mails s.
Proof.
  intros Hr Hres. destruct (tenant_route _ c s) as [rsp s'] eqn:E. unfold tenant_route in E.
  apply TenantContext_inv in E as (_ & _ & [(H1 & H2 & _)|(role & h & h' & Hn & H1 & Ho & H2 & _ & _ & Htx & _ & H3 & H4)]);
    [done|].
  assert (h_own h' = h_own h) as K0.
  { unfold RequireRole in Hn. cbn [cx_role WithRole] in Hn.
    case_bool_decide; [|by injection Hn as <- <-].
    destruct (written_keeps _ _ h (route_handler_keeps (PatchIncident id (Decoded {| ReqStatus := "resolved"; ReqNote := note |})) (WithRole role c)))
      as (_ & _ & _ & _ & _ & HO). by rewrite Hn in HO. }
  assert (h_mails h' = h_mails h ∧ (rsp_status rsp < 500 → tables (h_db h') = tables (h_db h))) as [K1 K2].
  { unfold RequireRole in Hn. cbn [cx_role WithRole] in Hn.
    case_bool_decide; [|by injection Hn as <- <-].
    apply TransitionIncident_inv in Hn; [|done]. unfold transition_outcome in Hn. cbn zeta in Hn.
    destruct (negb _ || _) in Hn; [by destruct Hn as [_ ->]|].
    destruct Hn as [(_ & _ & -> & ->)|[(-> & ->)|(r0 & x & Hf & _ & _ & Hc)]]; [done|done|].
    assert (r0 = r) as ->.
    { unfold find_incident in Hf. cbn in Hf. rewrite H1, Hr in Hf.
      destruct (inc_visible _ r); [by injection Hf|done]. }
    rewrite Hres in Hc. cbn in Hc. by destruct Hc as [-> ->]. }
  split; [destruct H4 as [->|(H4 & _ & H5)]; [congruence|]; rewrite H5, K2; done|congruence].
Qed.

(** ** Examples and witnesses *)

Definition demo_state (d : core) : hstate := demo_hstate demo_identity d.
Definition demo_ctx : rctx := RCtx demo_user "tenant-a" "sid-1" None.
Definition resolve : incident_request :=
  PatchIncident "inc-1" (Decoded {| ReqStatus := "resolved"; ReqNote := " fixed " |}).

(** the resolution mail and the 200 do not wait for the commit.  When the
    commit of the request's transaction is the interaction that fails, the caller
    is told the incident is resolved and the mail is sent, the incident is still
    open, and the next click resolves it and mails a second time. *)
Theorem lost_commit_answers_200 :
  let first := @tenant_route (failing_at [7%nat]) resolve demo_ctx (demo_state demo_incident_core) in
  let second := @tenant_route reliable resolve demo_ctx first.2 in
  rsp_status first.1 = 200 ∧ length (h_mails first.2) = 1%nat ∧
  tables (h_db first.2) = tables (h_db (demo_state demo_incident_core)) ∧
  rsp_status second.1 = 200 ∧ length (h_mails second.2) = 2%nat.
Proof. cbv zeta. split_and!; vm_compute; reflexivity. Qed.

(** A page number Atoi accepts whose offset overflows to a negative one. *)
Example huge_page_fails :
  rsp_status (@tenant_route reliable (GetIncidents "1152921504606846977") demo_ctx
                (demo_state demo_incident_core)).1 = 500.
Proof. vm_compute. reflexivity. Qed.

Example first_page :
  rsp_status (@tenant_route reliable (GetIncidents "") demo_ctx (demo_state demo_incident_core)).1 = 200.
Proof. vm_compute. reflexivity. Qed.

Lemma incident_requests_isolated_witness :
  let s := demo_state demo_incident_core in
  untouched "tenant-b" demo_incident_core
    (db_core (tables (h_db (@serve_all reliable demo_jwt "secret" [(5, demo_credentials, resolve)] s)))).
Proof.
  cbv zeta.
  apply (@incident_requests_isolated reliable demo_jwt "secret" [(5, demo_credentials, resolve)]
           "tenant-b" (demo_state demo_incident_core)).
  - reflexivity.
  - assert (@VerifySessionClaims demo_jwt 5 (request_token demo_credentials) "secret" =
      Ok {| AdminID := "user-1"; ScIssuedAt := 0; ScTenantID := "tenant-a"; ScSessionID := "sid-1" |})
      as Hv by (vm_compute; reflexivity).
    intros now req r c [= -> -> ->]%list_elem_of_singleton Hc. rewrite Hv in Hc.
    injection Hc as <-. discriminate.
Defined.

(** The same request on an open tenant transaction. *)
Definition demo_open : hstate :=
  HState (Session {| db_identity := demo_identity; db_core := demo_incident_core; db_intervals := ∅; db_providers := empty_providers |} "tenant-a" false
            (Some 5) false 0) [] [] [] 0 ∅ ∅
    {| db_identity := demo_identity; db_core := demo_incident_core; db_intervals := ∅; db_providers := empty_providers |}.

Lemma TransitionIncident_spec_witness :
  let req := {| ReqStatus := "resolved"; ReqNote := "fixed" |} in
  length (h_mails (written (@TransitionIncident reliable "inc-1" (Decoded req)) demo_ctx demo_open).2)
  = 1%nat.
Proof.
  cbv zeta. set (req := {| ReqStatus := "resolved"; ReqNote := "fixed" |}).
  destruct (written (@TransitionIncident reliable "inc-1" (Decoded req)) demo_ctx demo_open)
    as [rsp h'] eqn:E.
  assert (rsp_status rsp = 200) as Hs.
  { change rsp with (rsp, h').1. rewrite <- E. vm_compute. reflexivity. }
  pose proof (@TransitionIncident_spec reliable "inc-1" req demo_ctx demo_open h' rsp
                (mk_is_Some _ 5 eq_refl) E) as Hsp.
  unfold transition_outcome in Hsp. cbn zeta in Hsp.
  match type of Hsp with (if ?b then _ else _) => assert (b = false) as Hb by (vm_compute; reflexivity) end.
  rewrite Hb in Hsp. clear E.
  destruct Hsp as [(-> & _)|[(-> & _)|(r0 & x & Hf & _ & _ & Hc)]]; [discriminate Hs..|].
  assert (r0 = demo_incident_row) as -> by (vm_compute in Hf; injection Hf as <-; reflexivity).
  destruct Hc as [_ Hm]. cbn [snd]. rewrite Hm. reflexivity.
Defined.

Definition demo_resolved : hstate :=
  (@tenant_route reliable resolve demo_ctx (demo_state demo_incident_core)).2.

Lemma demo_resolved_row :
  ∃ r, incidents (db_core (tables (h_db demo_resolved))) !! "inc-1" = Some r ∧
       IncStatus (inc r) = "resolved".
Proof.
  exists (default demo_incident_row
            (incidents (db_core (tables (h_db demo_resolved))) !! "inc-1")).
  split; vm_compute; reflexivity.
Qed.

Lemma resolve_again_silent_witness :
  h_mails (@tenant_route (failing_at [30%nat])
    (PatchIncident "inc-1" (Decoded {| ReqStatus := "resolved"; ReqNote := "again" |}))
    demo_ctx demo_resolved).2 = h_mails demo_resolved.
Proof.
  destruct demo_resolved_row as (r & Hr & Hst).
  pose proof (@resolve_again_silent (failing_at [30%nat]) "inc-1" "again" demo_ctx demo_resolved r
                Hr Hst) as Hq.
  revert Hq. generalize demo_resolved. intros s0.
  destruct (@tenant_route (failing_at [30%nat]) _ demo_ctx s0) as [rsp s'].
  intros [_ Hm]. exact Hm.
Defined.
