(* ===== verification/SiteApi.v ===== *)
(** * Status page and domain routes (internal/api/status_pages_handler.go, domains_handler.go)

    Creating, listing and deleting status pages, attaching a domain, the
    environment tag, the services shown and their groups; registering, listing,
    verifying and deleting domains; the two DNS verifiers around their resolver.
    Each handler is the code of its request; the routes put them behind the tenant
    context and the role the router asks for. *)

From stdpp Require Import numbers strings gmap list.
From Stdlib Require Import ZArith Lia Ascii.
From S2P Require Import Prelude GoNum Db Schema World Placements Identity Secrets Domains StatusPages SiteInv SiteSafety Auth Api Tenants Handler IncidentApi.

#[local] Open Scope Z_scope.
#[local] Open Scope go_scope.

Definition StatusNoContent : Z := 204.
Definition StatusTooManyRequests : Z := 429.

(** ** Requests and responses *)

Record createStatusPageRequest := {
  CspName : string;
  CspSubdomain : string;
  CspDomainID : string;
  CspServiceIDs : list string;
  CspEnvironment : string;
}.
Record attachDomainRequest := {
  AdrDomainID : string;
  AdrSubdomain : string;
}.
(** Field for field the placement it asks for. *)
Definition servicePlacementRequest : Type := ServicePlacement.
Record updateGroupRequest := {
  UgrName : string;
  UgrPosition : Z;
}.

Record statusPageResponse := {
  SprID : string;
  SprName : string;
  SprSubdomain : option string;
  SprDomainID : option string;
  SprState : string;
  SprTLSLastError : option string;
  SprCreatedAt : Z;
  SprServiceIDs : list string;
  SprEnvironment : string;
}.
Definition toStatusPageResponse (x : StatusPage) : statusPageResponse :=
  {| SprID := SpID x; SprName := SpName x; SprSubdomain := SpSubdomain x;
     SprDomainID := SpDomainID x; SprState := SpState x; SprTLSLastError := SpTLSLastError x;
     SprCreatedAt := SpCreatedAt x; SprServiceIDs := SpServiceIDs x;
     SprEnvironment := SpEnvironment x |}.

(** A group's and a placement's responses are their rows. *)
Definition toStatusPageServiceGroupResponses (l : list StatusPageServiceGroup) :
    list StatusPageServiceGroup := l.
Definition toServicePlacementResponses (l : list ServicePlacement) : list servicePlacementRequest := l.

Record domainResponse := {
  DrsID : string;
  DrsHostname : string;
  DrsCreatedAt : Z;
  DrsDomainType : string;
  DrsStatus : string;
  DrsVerifiedAt : option Z;
  DrsLastError : option string;
  DrsVerificationTxtValue : string;
  DrsExpiresAt : option Z;
  DrsRegistrar : option string;
  DrsExpectedNS : option (list string);
  DrsCurrentNS : option (list string);
  DrsNSDriftDetected : bool;
  DrsLastRDAPCheckAt : option Z;
  DrsRDAPLastError : option string;
  DrsAttachedPageName : option string;
  DrsAttachedPageCount : Z;
}.
(** With the names of the pages attached, none outside of a list. *)
Definition toDomainResponseWithAttachedPages (x : Domain) (names : list string) : domainResponse :=
  {| DrsID := DomID x; DrsHostname := Hostname x; DrsCreatedAt := DomCreatedAt x;
     DrsDomainType := DomainType x; DrsStatus := DomStatus x; DrsVerifiedAt := VerifiedAt x;
     DrsLastError := DomLastError x; DrsVerificationTxtValue := VerificationToken x;
     DrsExpiresAt := DomExpiresAt x; DrsRegistrar := Registrar x; DrsExpectedNS := ExpectedNS x;
     DrsCurrentNS := CurrentNS x; DrsNSDriftDetected := NSDriftDetected x;
     DrsLastRDAPCheckAt := LastRDAPCheckAt x; DrsRDAPLastError := RDAPLastError x;
     DrsAttachedPageName := head names; DrsAttachedPageCount := Z.of_nat (length names) |}.
Definition toDomainResponse (x : Domain) : domainResponse := toDomainResponseWithAttachedPages x [].

Record verifyDomainResponse := {
  VdrHostname : string;
  VdrResolvedIPs : list string;
  VdrDNSResolved : bool;
  VdrDNSMatchesTarget : option bool;
  VdrTLSReachable : bool;
  VdrTLSCertValid : bool;
  VdrTLSError : option string;
  VdrState : string;
  VdrTLSLastError : option string;
  VdrCheckedAt : Z;
}.

Inductive site_payload :=
| PageJson (x : statusPageResponse)
| PagesJson (l : Page statusPageResponse)
| GroupJson (g : StatusPageServiceGroup)
| GroupsJson (l : list StatusPageServiceGroup)
| PlacementsJson (l : list servicePlacementRequest)
| VerifyJson (x : verifyDomainResponse)
| DomainJson (x : domainResponse)
| DomainsJson (l : Page domainResponse) (dnsTarget : option string)
| NoContent.

Definition verifyDomainCooldown : Z := 15 * second.
Definition statusPagesPageSize : Z := 20.
Definition domainsPageSize : Z := 20.

Definition validStatusPageEnvironments (e : string) : bool :=
  String.eqb e "" || String.eqb e "staging" || String.eqb e "development".

Definition invalidStatusPageRequestBody : string := "name is required".
Definition partialDomainStatusPageRequestBody : string :=
  "subdomain and domain_id must be set together, or not at all".
Definition in_quotes (x : string) : string :=
  let q := String (ascii_of_nat 34) EmptyString in String.append q (String.append x q).
Definition invalidStatusPageEnvironmentBody : string :=
  String.concat EmptyString ["environment must be "; in_quotes EmptyString; ", "; in_quotes "staging"; ", or ";
                    in_quotes "development"].
Definition invalidAttachDomainRequestBody : string := "domain_id and subdomain are required".
Definition domainAlreadyAttachedBody : string := "this status page already has a domain attached".
Definition invalidDomainIDBody : string := "domain_id does not reference an existing domain".
Definition duplicateDomainSubdomainBody : string := "this domain/subdomain pair is already in use".
Definition invalidSetServicesRequestBody : string := "services is required".
Definition groupCrossPageRequestBody : string := "group_id does not belong to this status page".
Definition selfReferenceRequestBody : string := "a service cannot be its own parent".
Definition parentNotInSetRequestBody : string :=
  "parent_service_id must reference another service in this same request".
Definition maxDepthExceededRequestBody : string :=
  "nesting is limited to one level: a service that is already a parent cannot also have a parent".
Definition invalidGroupNameRequestBody : string := "name is required".
Definition noDomainAttachedBody : string := "this status page has no domain attached yet".
Definition verifyDomainRateLimitedBody : string := "please wait a few seconds before checking again".
Definition invalidDomainRequestBody : string := "hostname is required".
Definition duplicateDomainBody : string := "hostname already registered".
Definition domainInUseBody : string := "domain is still attached to a status page".
Definition txtNotFoundError : string :=
  "TXT record not found: publish the verification token as a TXT record at _vane-verify.<hostname>".
Definition txtMismatchError : string :=
  "TXT record found but its value does not match the verification token".

Abbreviation SM := (Handle site_payload).

Definition site_error (code : Z) (msg : string) : response site_payload := Response code (ErrorBody msg).
Definition site_answer (code : Z) (p : site_payload) : response site_payload := Response code (Json p).
(** http.NotFound *)
Definition site_not_found : response site_payload := site_error StatusNotFound "404 page not found".
Definition site_not_found_or_500 (e : db_err) : response site_payload :=
  if decide (e = ErrNotFound) then site_not_found else writeInternalError.

(** ** The verifiers *)

(** The network: what the resolver answers (its error is [None]), and what
    dialling a host's port 443 gives: reachable, a valid certificate, the error. *)
Class Network := {
  LookupTXT : nat → string → option (list string);
  LookupHost : nat → string → option (list string);
  dialTLS : nat → string → bool * bool * option string;
}.

Record apexTXTResult := {
  TXTFound : bool;
  TXTMatches : bool;
}.
Record domainVerificationResult := {
  ResolvedIPs : list string;
  DNSResolved : bool;
  DNSMatchesTarget : option bool;
  TLSReachable : bool;
  TLSCertValid : bool;
  TLSError : option string;
}.

Definition apexTXTRecordPrefix : string := "_vane-verify.".

Definition ipSetsOverlap (a b : list string) : bool :=
  existsb (λ ip, bool_decide (ip ∈ a)) b.

Section site_handlers.
Context `{!Driver, !Machine, !Network}.
(** config.Config.PublicDNSTarget, "" when it was never set. *)
Context (dnsTarget : string).

(** [netApexTXTVerifier.Verify] *)
Definition verifyApexTXT (ev : nat) (hostname expectedToken : string) : apexTXTResult :=
  match LookupTXT ev (String.append apexTXTRecordPrefix hostname) with
  | None | Some [] => {| TXTFound := false; TXTMatches := false |}
  | Some values => {| TXTFound := true; TXTMatches := bool_decide (expectedToken ∈ values) |}
  end.

(** [checkDNS]: the addresses, whether there are any, whether the target shares one. *)
Definition checkDNS (ev : nat) (hostname expectedTarget : string) : list string * bool * option bool :=
  match LookupHost ev hostname with
  | None => ([], false, None)
  | Some hostIPs =>
      if String.eqb expectedTarget "" then (hostIPs, true, None)
      else
        match LookupHost ev expectedTarget with
        | None => (hostIPs, true, None)
        | Some targetIPs => (hostIPs, true, Some (ipSetsOverlap hostIPs targetIPs))
        end
  end.

(** [netDomainVerifier.Verify] *)
Definition verifyHostname (ev : nat) (hostname expectedTarget : string) : domainVerificationResult :=
  let '(ips, resolved, matches) := checkDNS ev hostname expectedTarget in
  let '(reachable, valid, err) := dialTLS ev hostname in
  {| ResolvedIPs := ips; DNSResolved := resolved; DNSMatchesTarget := matches;
     TLSReachable := reachable; TLSCertValid := valid; TLSError := err |}.

(** ** Status pages *)

(** The audit entry of a change made, best effort. *)
Definition record_site (c : rctx) (id label action : string) : SM (res db_err unit) :=
  try_id (AuditRecord (UserID (cx_user c)) id label action).

Definition CreateStatusPage (req : option createStatusPageRequest) (c : rctx) : SM (response site_payload) :=
  match req with
  | None => fail (site_error StatusUnprocessableEntity invalidStatusPageRequestBody)
  | Some req =>
      reject (String.eqb (CspName req) "")
        (site_error StatusUnprocessableEntity invalidStatusPageRequestBody) (
      reject (negb (Bool.eqb (String.eqb (CspSubdomain req) "") (String.eqb (CspDomainID req) "")))
        (site_error StatusUnprocessableEntity partialDomainStatusPageRequestBody) (
      reject (negb (validStatusPageEnvironments (CspEnvironment req)))
        (site_error StatusUnprocessableEntity invalidStatusPageEnvironmentBody) (
      let bound := negb (String.eqb (CspSubdomain req) "") in
      statusPage <- call (CreatePage
        {| SpID := ""; SpTenantID := ""; SpName := CspName req;
           SpSubdomain := if bound then Some (CspSubdomain req) else None;
           SpDomainID := if bound then Some (CspDomainID req) else None;
           SpState := ""; SpTLSLastError := None; SpEnvironment := CspEnvironment req;
           SpCreatedAt := 0; SpServiceIDs := [] |} (CspServiceIDs req)) internal_error ;;
      record_site c (SpID statusPage) (SpName statusPage) "status_page_created" ;;;
      ret (site_answer StatusCreated (PageJson (toStatusPageResponse statusPage))))))
  end.

Definition attach_answers (e : db_err) : response site_payload :=
  if decide (e = ErrNotFound) then site_not_found
  else if decide (e = ErrDomainAlreadyAttached) then site_error StatusConflict domainAlreadyAttachedBody
  else if decide (e = ErrInvalidDomain) then site_error StatusUnprocessableEntity invalidDomainIDBody
  else if decide (e = ErrDuplicateDomainSubdomain) then site_error StatusConflict duplicateDomainSubdomainBody
  else writeInternalError.

Definition AttachPageDomain (id : string) (req : option attachDomainRequest) (c : rctx) :
    SM (response site_payload) :=
  match req with
  | None => fail (site_error StatusUnprocessableEntity invalidAttachDomainRequestBody)
  | Some req =>
      reject (String.eqb (AdrDomainID req) "" || String.eqb (AdrSubdomain req) "")
        (site_error StatusUnprocessableEntity invalidAttachDomainRequestBody) (
      statusPage <- call_own (on_db_core (AttachDomain id (AdrDomainID req) (AdrSubdomain req))) attach_answers ;;
      record_site c (SpID statusPage) (SpName statusPage) "status_page_domain_attached" ;;;
      ret (site_answer StatusOK (PageJson (toStatusPageResponse statusPage))))
  end.

Definition UpdateEnvironment (id : string) (environment : option string) (c : rctx) :
    SM (response site_payload) :=
  match environment with
  | None => fail (site_error StatusUnprocessableEntity invalidStatusPageEnvironmentBody)
  | Some environment =>
      reject (negb (validStatusPageEnvironments environment))
        (site_error StatusUnprocessableEntity invalidStatusPageEnvironmentBody) (
      statusPage <- call (UpdatePageEnvironment id environment) site_not_found_or_500 ;;
      record_site c (SpID statusPage) (SpName statusPage) "status_page_environment_updated" ;;;
      ret (site_answer StatusOK (PageJson (toStatusPageResponse statusPage))))
  end.

Definition mapSetServicesValidationError (e : db_err) : option string :=
  if decide (e = ErrGroupCrossPage) then Some groupCrossPageRequestBody
  else if decide (e = ErrSelfReference) then Some selfReferenceRequestBody
  else if decide (e = ErrParentNotInSet) then Some parentNotInSetRequestBody
  else if decide (e = ErrMaxDepthExceeded) then Some maxDepthExceededRequestBody
  else None.
Definition set_services_answers (e : db_err) : response site_payload :=
  if decide (e = ErrNotFound) then site_not_found
  else match mapSetServicesValidationError e with
       | Some msg => site_error StatusUnprocessableEntity msg
       | None => writeInternalError
       end.

(** [services]: [None] when the body does not decode or the field is missing. *)
Definition SetPageServices (id : string) (services : option (list servicePlacementRequest)) (c : rctx) :
    SM (response site_payload) :=
  match services with
  | None => fail (site_error StatusUnprocessableEntity invalidSetServicesRequestBody)
  | Some placements =>
      call_own (on_db_core (SetServices id placements)) set_services_answers ;;;
      statusPage <- call (GetPage id) internal_error ;;
      record_site c (SpID statusPage) (SpName statusPage) "status_page_services_updated" ;;;
      ret (site_answer StatusOK (PageJson (toStatusPageResponse statusPage)))
  end.

Definition CreatePageGroup (id : string) (name : option string) (c : rctx) : SM (response site_payload) :=
  let name := default "" name in
  reject (String.eqb name "") (site_error StatusUnprocessableEntity invalidGroupNameRequestBody) (
  call (GetPage id) site_not_found_or_500 ;;;
  group <- call (CreateGroup id name) internal_error ;;
  record_site c (GrpID group) (GrpName group) "status_page_group_created" ;;;
  ret (site_answer StatusCreated (GroupJson group))).

Definition UpdatePageGroup (id groupID : string) (req : option updateGroupRequest) (c : rctx) :
    SM (response site_payload) :=
  match req with
  | None => fail (site_error StatusUnprocessableEntity invalidGroupNameRequestBody)
  | Some req =>
      reject (String.eqb (UgrName req) "") (site_error StatusUnprocessableEntity invalidGroupNameRequestBody) (
      group <- call (UpdateGroup (cx_tenant c) id groupID (UgrName req) (UgrPosition req)) site_not_found_or_500 ;;
      record_site c (GrpID group) (GrpName group) "status_page_group_updated" ;;;
      ret (site_answer StatusOK (GroupJson group)))
  end.

(** The name of a group about to go, "" when it cannot be found. *)
Definition group_label (groupID : string) (r : res db_err (list StatusPageServiceGroup)) : string :=
  match r with
  | Ok groups => default "" (GrpName <$> find (λ g, String.eqb (GrpID g) groupID) groups)
  | Err _ => ""
  end.

Definition DeletePageGroup (id groupID : string) (c : rctx) : SM (response site_payload) :=
  groups <- try_core (ListGroups id) ;;
  call (DeleteGroup (cx_tenant c) id groupID) site_not_found_or_500 ;;;
  record_site c groupID (group_label groupID groups) "status_page_group_deleted" ;;;
  ret (site_answer StatusNoContent NoContent).

Definition ListPageGroups (id : string) (c : rctx) : SM (response site_payload) :=
  call (GetPage id) site_not_found_or_500 ;;;
  groups <- call (ListGroups id) internal_error ;;
  ret (site_answer StatusOK (GroupsJson (toStatusPageServiceGroupResponses groups))).

Definition ListPagePlacements (id : string) (c : rctx) : SM (response site_payload) :=
  call (GetPage id) site_not_found_or_500 ;;;
  placements <- call (ListServicePlacements id) internal_error ;;
  ret (site_answer StatusOK (PlacementsJson (toServicePlacementResponses placements))).

Definition DeleteStatusPage (id : string) (c : rctx) : SM (response site_payload) :=
  statusPage <- try_core (GetPage id) ;;
  call_own (on_db_core (DeletePage id)) site_not_found_or_500 ;;;
  record_site c id (match statusPage with Ok x => SpName x | Err _ => "" end) "status_page_deleted" ;;;
  ret (site_answer StatusNoContent NoContent).

Definition ListStatusPages (page : string) (c : rctx) : SM (response site_payload) :=
  let page := parsePage page in
  r <- call (ListPages page statusPagesPageSize) internal_error ;;
  ret (site_answer StatusOK (PagesJson
    {| Items := toStatusPageResponse <$> r.1; Total := r.2; PageNo := page;
       PageSize := statusPagesPageSize |})).

(** [checkVerifyCooldown], on the map [get] reads and [set] writes: [false] less than
    the cooldown after the last check, and otherwise the time of this one. *)
Definition checkVerifyCooldown (get : hstate → gmap string Z) (set : gmap string Z → hstate → hstate)
    (id : string) : SM bool :=
  λ s,
    let recent := match get s !! id with
                  | Some last => time_sub (time_Now (h_ev s)) last <? verifyDomainCooldown
                  | None => false
                  end in
    let s1 := match get s !! id with Some _ => bump_h_ev s | None => s end in
    if recent then (Ok false, s1)
    else (Ok true, bump_h_ev (set (<[id := time_Now (h_ev s1)]> (get s1)) s1)).

Definition verify_page_answers (e : db_err) : response site_payload :=
  if decide (e = ErrNotFound) then site_not_found
  else if decide (e = ErrNoDomainAttached) then site_error StatusUnprocessableEntity noDomainAttachedBody
  else writeInternalError.

Definition VerifyPageDomain (id : string) (c : rctx) : SM (response site_payload) :=
  hostname <- call (PublicHostnameByID id) verify_page_answers ;;
  allowed <- checkVerifyCooldown h_page_checks set_page_checks id ;;
  reject (negb allowed) (site_error StatusTooManyRequests verifyDomainRateLimitedBody) (
  result <- ask (λ ev, verifyHostname ev hostname dnsTarget) ;;
  statusPage <- call (GetPage id) internal_error ;;
  record_site c id (SpName statusPage) "status_page_domain_verified" ;;;
  checkedAt <- ask time_Now ;;
  ret (site_answer StatusOK (VerifyJson
    {| VdrHostname := hostname; VdrResolvedIPs := ResolvedIPs result;
       VdrDNSResolved := DNSResolved result; VdrDNSMatchesTarget := DNSMatchesTarget result;
       VdrTLSReachable := TLSReachable result; VdrTLSCertValid := TLSCertValid result;
       VdrTLSError := TLSError result; VdrState := SpState statusPage;
       VdrTLSLastError := SpTLSLastError statusPage; VdrCheckedAt := checkedAt |}))).

(** ** Domains *)

Definition RegisterDomain (hostname : option string) (c : rctx) : SM (response site_payload) :=
  let hostname := default "" hostname in
  reject (String.eqb hostname "") (site_error StatusUnprocessableEntity invalidDomainRequestBody) (
  ev <- ask (λ ev, ev) ;;
  domain <- call (CreateDomain ev hostname)
    (λ e, if decide (e = ErrDuplicateHostname) then site_error StatusConflict duplicateDomainBody
          else writeInternalError) ;;
  record_site c (DomID domain) (Hostname domain) "domain_created" ;;;
  ret (site_answer StatusCreated (DomainJson (toDomainResponse domain)))).

Definition ListRootDomains (page : string) (c : rctx) : SM (response site_payload) :=
  let page := parsePage page in
  r <- call (ListDomains (cx_tenant c) page domainsPageSize) internal_error ;;
  attachedNames <- call (AttachedNamesByDomainIDs (DomID <$> r.1)) internal_error ;;
  let resp := (λ x, toDomainResponseWithAttachedPages x (default [] (attachedNames !! DomID x))) <$> r.1 in
  ret (site_answer StatusOK (DomainsJson
    {| Items := resp; Total := r.2; PageNo := page; PageSize := domainsPageSize |}
    (if String.eqb dnsTarget "" then None else Some dnsTarget))).

Definition mapDomainVerificationResult (result : apexTXTResult) : string * option string :=
  if negb (TXTFound result) then ("error", Some txtNotFoundError)
  else if negb (TXTMatches result) then ("error", Some txtMismatchError)
  else ("verified", None).

Definition VerifyRootDomain (id : string) (c : rctx) : SM (response site_payload) :=
  domain <- call (GetDomain id) site_not_found_or_500 ;;
  allowed <- checkVerifyCooldown h_domain_checks set_domain_checks id ;;
  if negb allowed then ret (site_answer StatusOK (DomainJson (toDomainResponse domain)))
  else
    result <- ask (λ ev, verifyApexTXT ev (Hostname domain) (VerificationToken domain)) ;;
    let '(status, lastError) := mapDomainVerificationResult result in
    now <- ask time_Now ;;
    updated <- call (SetVerificationResult id status lastError now) site_not_found_or_500 ;;
    record_site c id (Hostname domain) "domain_verified" ;;;
    ret (site_answer StatusOK (DomainJson (toDomainResponse updated))).

Definition DeleteRootDomain (id : string) (c : rctx) : SM (response site_payload) :=
  domain <- try_core (GetDomain id) ;;
  call (DeleteDomain id)
    (λ e, if decide (e = ErrNotFound) then site_not_found
          else if decide (e = ErrDomainInUse) then site_error StatusConflict domainInUseBody
          else writeInternalError) ;;;
  record_site c id (match domain with Ok x => Hostname x | Err _ => "" end) "domain_deleted" ;;;
  ret (site_answer StatusNoContent NoContent).
End site_handlers.

(** ** Routes *)

Inductive site_request :=
| PostStatusPage (body : option createStatusPageRequest)
| PatchPageDomain (id : string) (body : option attachDomainRequest)
| PatchPageEnvironment (id : string) (environment : option string)
| PatchPageServices (id : string) (services : option (list servicePlacementRequest))
| PostVerifyDomain (id : string)
| DeleteStatusPageByID (id : string)
| PostGroup (id : string) (name : option string)
| PatchGroup (id groupID : string) (body : option updateGroupRequest)
| DeleteGroupByID (id groupID : string)
| GetStatusPages (page : string)
| GetGroups (id : string)
| GetPlacements (id : string)
| PostDomain (hostname : option string)
| DeleteDomainByID (id : string)
| PostDomainVerify (id : string)
| GetDomains (page : string).

Definition site_roles (r : site_request) : list string :=
  match r with
  | GetStatusPages _ | GetGroups _ | GetPlacements _ | GetDomains _ => anyRole
  | _ => writeRoles
  end.

Section site_routes.
Context `{!Driver, !Machine, !Network, !Jwt}.
Context (dnsTarget : string).

Definition site_handler (r : site_request) : rctx → SM (response site_payload) :=
  match r with
  | PostStatusPage body => CreateStatusPage body
  | PatchPageDomain id body => AttachPageDomain id body
  | PatchPageEnvironment id env => UpdateEnvironment id env
  | PatchPageServices id services => SetPageServices id services
  | PostVerifyDomain id => VerifyPageDomain dnsTarget id
  | DeleteStatusPageByID id => DeleteStatusPage id
  | PostGroup id name => CreatePageGroup id name
  | PatchGroup id gid body => UpdatePageGroup id gid body
  | DeleteGroupByID id gid => DeletePageGroup id gid
  | GetStatusPages page => ListStatusPages page
  | GetGroups id => ListPageGroups id
  | GetPlacements id => ListPagePlacements id
  | PostDomain hostname => RegisterDomain hostname
  | DeleteDomainByID id => DeleteRootDomain id
  | PostDomainVerify id => VerifyRootDomain id
  | GetDomains page => ListRootDomains dnsTarget page
  end.

Definition site_route (r : site_request) : handler site_payload :=
  TenantContext (RequireRole (site_roles r) (written (site_handler r))).
Definition serve_site (now : Z) (secret : string) (req : credentials) (r : site_request) (s : hstate) :
    response site_payload * hstate :=
  RequireAuth now secret req (site_route r) s.

Fixpoint serve_sites (secret : string) (l : list (Z * credentials * site_request)) (s : hstate) : hstate :=
  match l with
  | [] => s
  | (now, req, r) :: l => serve_sites secret l (serve_site now secret req r s).2
  end.
End site_routes.

(** ** Lemmas *)

(** The operations that neither replace a page's services nor record what DNS
    said of a domain. *)
Definition plain_op (o : site_op) : bool :=
  match o with OpSetServices _ _ | OpSetVerificationResult _ _ _ _ => false | _ => true end.

Section site_moves.
Context `{!Driver, !Machine, !Network, !Jwt}.
Context (R : string → bool → relation core) `{!∀ t b, PreOrder (R t b)}.
Context (Hop : ∀ o, plain_op o = true → preserves R (run_site_op o)).

(** An operation whose result is looked at is one whose result is dropped. *)
Lemma undiscarded {A} (m : M (session core) db_err A) : preserves R (discard m) → preserves R m.
Proof. intros Hm s. specialize (Hm s). unfold discard, bind in Hm. by destruct (m s) as [[a|e] s1]. Qed.

Lemma moves_op {A} (m : M (session core) db_err A) o :
  run_site_op o = discard m → plain_op o = true → preserves R m.
Proof. intros E Ho. apply undiscarded. rewrite <- E. by apply Hop. Qed.

Lemma moves_record c id label action : h_along (core_moves R) (record_site c id label action).
Proof.
  apply (core_moves_id R), (preserves_stmt (λ _ _, sessions_kept)).
  intros s a d Hf. destruct (default_tenant s); [|done]. injection Hf as _ <-.
  intros i x Hx. by exists x.
Qed.
Lemma moves_cooldown get set id :
  (∀ m s, h_db (set m s) = h_db s ∧ h_own (set m s) = h_own s) →
  h_along (core_moves R) (checkVerifyCooldown get set id).
Proof.
  intros Hset s. unfold checkVerifyCooldown.
  assert (∀ s', h_db s' = h_db s ∧ h_own s' = h_own s → core_moves R s s') as Hsame.
  { intros s' [E1 E2]. unfold core_moves. rewrite E1, E2. by split_and!. }
  destruct (match get s !! id with Some _ => _ | None => false end); apply Hsame; cbn;
    rewrite ?(proj1 (Hset _ _)), ?(proj2 (Hset _ _));
    destruct (get s !! id); done.
Qed.
End site_moves.

(** The repository operation a goal is about. *)
Ltac site_op :=
  lazymatch goal with
  | |- preserves _ (CreatePage ?x ?l) => eapply moves_op with (o := (OpCreatePage x l))
  | |- preserves _ (CreateGroup ?p ?n) => eapply moves_op with (o := (OpCreateGroup p n))
  | |- preserves _ (UpdateGroup ?t ?p ?i ?n ?k) => eapply moves_op with (o := (OpUpdateGroup t p i n k))
  | |- preserves _ (ListGroups ?p) => eapply moves_op with (o := (OpListGroups p))
  | |- preserves _ (ListServicePlacements ?p) => eapply moves_op with (o := (OpListServicePlacements p))
  | |- preserves _ (GetPage ?i) => eapply moves_op with (o := (OpGetPage i))
  | |- preserves _ (ListPages ?p ?n) => eapply moves_op with (o := (OpListPages p n))
  | |- preserves _ (AttachedNamesByDomainIDs ?l) => eapply moves_op with (o := (OpAttachedNames l))
  | |- preserves _ (PublicHostnameByID ?i) => eapply moves_op with (o := (OpPublicHostname i))
  | |- preserves _ (AttachDomain ?i ?k ?u) => eapply moves_op with (o := (OpAttachDomain i k u))
  | |- preserves _ (UpdatePageEnvironment ?i ?e) => eapply moves_op with (o := (OpUpdatePageEnvironment i e))
  | |- preserves _ (CreateDomain ?v ?h) => eapply moves_op with (o := (OpCreateDomain v h))
  | |- preserves _ (ListDomains ?t ?p ?n) => eapply moves_op with (o := (OpListDomains t p n))
  | |- preserves _ (GetDomain ?i) => eapply moves_op with (o := (OpGetDomain i))
  end; [eassumption|reflexivity|reflexivity].

(** One step of a handler's code. *)
Ltac site_step :=
  match goal with
  | |- h_along (core_moves ?R) (ret _) => apply h_along_ret, _
  | |- h_along _ (fail _) => apply h_along_fail, _
  | |- h_along _ (reject _ _ _) => apply h_along_reject; [apply _|]
  | |- h_along _ (bind _ _) => apply h_along_bind; [apply _| |intros ?]
  | |- h_along (core_moves ?R) (call _ _) => apply (core_moves_call R)
  | |- h_along (core_moves ?R) (call_own (on_db_core _) _) => apply (core_moves_own R)
  | |- h_along (core_moves ?R) (try_core _) => apply (core_moves_try R)
  | |- h_along (core_moves ?R) (ask _) => apply (core_moves_ask R)
  | |- h_along (core_moves ?R) (record_site _ _ _ _) => apply (moves_record R)
  | |- h_along (core_moves ?R) (checkVerifyCooldown _ _ _) => apply (moves_cooldown R)
  | |- h_along _ (match ?o with _ => _ end) => destruct o
  | |- preserves _ _ => site_op
  end.

Section site_requests.
Context `{!Driver, !Machine, !Network, !Jwt}.
Context (R : string → bool → relation core) `{!∀ t b, PreOrder (R t b)}.
Context (Hop : ∀ o, plain_op o = true → preserves R (run_site_op o)).
Context (dnsTarget : string).

Definition sets_page_services (r : site_request) : bool :=
  match r with PatchPageServices _ _ => true | _ => false end.

Lemma verify_moves id c :
  (∀ st e t, preserves R (SetVerificationResult id st e t)) →
  h_along (core_moves R) (VerifyRootDomain id c).
Proof.
  intros Hv. unfold VerifyRootDomain; cbv zeta. repeat site_step; first [done|by apply Hv].
Qed.

Lemma site_handler_moves r c :
  (sets_page_services r = true → ∀ i l, preserves R (SetServices i l)) →
  (∀ id, r = PostDomainVerify id → h_along (core_moves R) (VerifyRootDomain id c)) →
  h_along (core_moves R) (site_handler dnsTarget r c).
Proof.
  intros Hs Hv. destruct r; cbn [site_handler]; try by apply Hv.
  all: unfold CreateStatusPage, AttachPageDomain, UpdateEnvironment, SetPageServices, CreatePageGroup,
    UpdatePageGroup, DeletePageGroup, ListPageGroups, ListPagePlacements, DeleteStatusPage, ListStatusPages,
    VerifyPageDomain, RegisterDomain, ListRootDomains, DeleteRootDomain; cbv zeta.
  all: repeat site_step.
  all: first [ done | by apply Hs | by apply (Hop (OpDeletePage id)) | by apply (Hop (OpDeleteDomain id))
             | by apply (Hop (OpDeleteGroup (cx_tenant c) id groupID)) ].
Qed.
End site_requests.

(** ** What belongs to a tenant *)

Record site_untouched (u : string) (d d' : core) : Prop := {
  su_pages : ∀ i r, page_tenant r = u → status_pages d !! i = Some r ↔ status_pages d' !! i = Some r;
  su_groups : ∀ i r, grp_tenant r = u →
    status_page_service_groups d !! i = Some r ↔ status_page_service_groups d' !! i = Some r;
  su_domains : ∀ i r, dom_tenant r = u → domains d !! i = Some r ↔ domains d' !! i = Some r;
  su_links : ∀ p r s, status_pages d !! p = Some r → page_tenant r = u →
    link_shape <$> status_page_services d' !! (p, s) = link_shape <$> status_page_services d !! (p, s);
}.

#[global] Instance site_untouched_preorder u : PreOrder (site_untouched u).
Proof.
  split; [done|]. intros d1 d2 d3 [P1 G1 D1 L1] [P2 G2 D2 L2]. split.
  - intros i r Hr. by rewrite P1, P2.
  - intros i r Hr. by rewrite G1, G2.
  - intros i r Hr. by rewrite D1, D2.
  - intros p r s Hp Hr. rewrite (L2 p r); [by apply (L1 p r)|by apply P1|done].
Qed.

Lemma isolated_site_untouched t u d d' :
  t = "" ∨ t ≠ u → site_isolated_from t d d' → site_untouched u d d'.
Proof.
  intros Ht [P G D L].
  assert (∀ v, v = u → foreign t v) as Hf by (intros v ->; destruct Ht; [by left|right; congruence]).
  split; eauto. intros p r s Hp Hr. apply L. unfold foreign_page. rewrite Hp. by apply Hf.
Qed.

Section site_serving.
Context `{!Driver, !Machine, !Network, !Jwt}.
Context (dnsTarget : string).

Lemma serve_site_moves (R : string → bool → relation core) `{!∀ t b, PreOrder (R t b)} now secret req r s :
  (∀ o, plain_op o = true → preserves R (run_site_op o)) →
  (sets_page_services r = true → ∀ i l, preserves R (SetServices i l)) →
  (∀ id c, r = PostDomainVerify id → h_along (core_moves R) (VerifyRootDomain id c)) →
  request_moves R "" s (serve_site dnsTarget now secret req r s).2 ∨
  ∃ c, VerifySessionClaims now (request_token req) secret = Ok c ∧
    request_moves R (ScTenantID c) s (serve_site dnsTarget now secret req r s).2.
Proof.
  intros Hop Hs Hv. apply (RequireAuth_moves R). intros c h. apply (TenantContext_moves R).
  intros c'. apply site_handler_moves; eauto.
Qed.
End site_serving.

(** ** A domain is verified by DNS alone *)

Section proofs_of_ownership.
Context `{!Driver, !Machine, !Network, !Jwt}.

(** The resolver once answered a domain's record with its token. *)
Definition dns_proved (hostname token : string) : Prop :=
  ∃ ev values, LookupTXT ev (String.append apexTXTRecordPrefix hostname) = Some values ∧ token ∈ values.
Definition all_proved (d : core) : Prop :=
  ∀ i r, domains d !! i = Some r → DomStatus (dm r) = "verified" →
    dns_proved (Hostname (dm r)) (VerificationToken (dm r)).
Definition proofs_kept (t : string) (b : bool) : relation core := λ d d', all_proved d → all_proved d'.

#[export] Instance proofs_kept_preorder t b : PreOrder (proofs_kept t b).
Proof. split; [by intros d Hd|]. intros d1 d2 d3 E1 E2 Hd. by apply E2, E1. Qed.

Lemma proved_stmt {A} (f : session core → res db_err (A * core)) :
  (∀ s a d, f s = Ok (a, d) → domains d = domains (tables s)) → preserves proofs_kept (stmt f).
Proof.
  intros Hf. apply (preserves_stmt proofs_kept). intros s a d E Hd i r.
  rewrite (Hf s a d E). apply Hd.
Qed.
Lemma proved_pool_tx {A} (m : M (session core) db_err A) :
  preserves proofs_kept m → preserves proofs_kept (with_pool_tx m).
Proof. intros Hm. apply (preserves_pool_tx proofs_kept); [by intros t b d d' Hd|done]. Qed.
Lemma proved_runInTx {A} (m : M (session core) db_err A) :
  preserves proofs_kept m → preserves proofs_kept (runInTx m).
Proof. intros Hm. apply (preserves_runInTx proofs_kept); [by intros t b d d' Hd|done]. Qed.

(** An update of a domain's row that verifies nothing without a proof. *)
Lemma proved_row d i r f :
  all_proved d → domains d !! i = Some r →
  Hostname (f (dm r)) = Hostname (dm r) → VerificationToken (f (dm r)) = VerificationToken (dm r) →
  (DomStatus (f (dm r)) = "verified" → DomStatus (dm r) = "verified" ∨
     dns_proved (Hostname (dm r)) (VerificationToken (dm r))) →
  all_proved (set_domains (<[i := set_dm f r]>) d).
Proof.
  intros Hd Hi Hh Ht Hs j r'. cbn. destruct (decide (i = j)) as [<-|Hne].
  - rewrite lookup_insert_eq. intros [= <-]. cbn. rewrite Hh, Ht. intros Hv.
    destruct (Hs Hv); [by eapply Hd|done].
  - rewrite lookup_insert_ne by done. apply Hd.
Qed.

(** Statements on the other tables. *)
Ltac elsewhere :=
  apply proved_stmt; let E := fresh in intros ? ? ? E; cbv zeta in E; repeat case_match; by simplify_eq.

Lemma proved_insert_link p svc l : preserves proofs_kept (insert_link p svc l).
Proof. elsewhere. Qed.
Lemma proved_SetServices p l : preserves proofs_kept (SetServices p l).
Proof.
  apply proved_pool_tx, (preserves_query_then proofs_kept). intros []; [|apply (preserves_fail proofs_kept)].
  do 2 (apply (preserves_query_then proofs_kept); intros ?). apply (preserves_bind proofs_kept).
  { destruct (validateAndSanitizeServicePlacements _ _ _);
      [apply (preserves_ret proofs_kept)|apply (preserves_fail proofs_kept)]. }
  intros out. apply (preserves_bind proofs_kept); [elsewhere|]. intros _.
  induction out; [apply (preserves_ret proofs_kept)|].
  apply (preserves_bind proofs_kept); [apply proved_insert_link|intros _; exact IHout].
Qed.
Lemma proved_CreatePage x l : preserves proofs_kept (CreatePage x l).
Proof.
  apply proved_runInTx, (preserves_bind proofs_kept); [elsewhere|]. intros row.
  apply (preserves_bind proofs_kept); [|intros; apply (preserves_ret proofs_kept)].
  induction l; [apply (preserves_ret proofs_kept)|].
  apply (preserves_bind proofs_kept); [apply proved_insert_link|intros _; exact IHl].
Qed.
Lemma proved_AttachDomain i k sub : preserves proofs_kept (AttachDomain i k sub).
Proof.
  apply proved_pool_tx, (preserves_query_then proofs_kept). intros row.
  apply (preserves_bind proofs_kept); [apply (preserves_or_not_found proofs_kept)|].
  intros [?|]; [apply (preserves_fail proofs_kept)|]. apply (preserves_map_err proofs_kept).
  apply (preserves_bind proofs_kept); [elsewhere|].
  intros [?|]; [apply (preserves_ret proofs_kept)|apply (preserves_fail proofs_kept)].
Qed.
Lemma proved_CreateDomain ev h : preserves proofs_kept (CreateDomain ev h).
Proof.
  unfold CreateDomain. destruct (generateDomainVerificationToken ev); [|apply (preserves_fail proofs_kept)].
  apply (preserves_map_err proofs_kept), (preserves_stmt proofs_kept). intros c a d Hf Hd. cbv zeta in Hf.
  destruct (default_tenant c); [|done]. destruct (_ || _); [done|]. injection Hf as _ <-.
  intros j r. cbn. destruct (decide (gen_uuid (tick c) = j)) as [<-|Hne].
  - rewrite lookup_insert_eq. by intros [= <-].
  - rewrite lookup_insert_ne by done. apply Hd.
Qed.
Lemma proved_health i e r ns b err : preserves proofs_kept (SetHealthCheckResult i e r ns b err).
Proof.
  apply proved_runInTx, (preserves_bind proofs_kept).
  - apply (preserves_stmt proofs_kept). intros c a d Hf Hd. destruct (_ !! i) as [x|] eqn:Ei; [|by simplify_eq].
    destruct (domain_visible c x); [|by simplify_eq]. case_bool_decide; [|done]. injection Hf as _ <-.
    apply proved_row; [done..|]. by left.
  - intros row. apply (preserves_bind proofs_kept); [apply (preserves_or_not_found proofs_kept)|].
    intros; apply (preserves_ret proofs_kept).
Qed.
Lemma proved_DeleteDomain i : preserves proofs_kept (DeleteDomain i).
Proof.
  apply (preserves_bind proofs_kept); [|intros; apply (preserves_affected proofs_kept)].
  apply (preserves_map_err proofs_kept), (preserves_stmt proofs_kept). intros c a d Hf Hd.
  destruct (_ !! i); [|by simplify_eq]. destruct (domain_visible _ _); [|by simplify_eq].
  destruct (has_row _ _); [done|]. injection Hf as _ <-. intros j r. cbn.
  intros [_ Hj]%lookup_delete_Some. by apply Hd in Hj.
Qed.

Lemma run_site_op_proved o : plain_op o = true → preserves proofs_kept (run_site_op o).
Proof.
  intros Hp. destruct (reads_only o) eqn:Ho; [by apply (through_reads proofs_kept)|].
  destruct o; try done; try apply (through_discard proofs_kept).
  - apply proved_CreatePage.
  - elsewhere.
  - apply (preserves_bind proofs_kept); [elsewhere|intros; apply (preserves_or_not_found proofs_kept)].
  - apply (preserves_bind proofs_kept); [elsewhere|intros; apply (preserves_affected proofs_kept)].
  - apply proved_AttachDomain.
  - apply (preserves_bind proofs_kept); [elsewhere|intros; apply (preserves_or_not_found proofs_kept)].
  - apply proved_pool_tx. apply (preserves_bind proofs_kept); [elsewhere|intros _].
    apply (preserves_bind proofs_kept); [elsewhere|intros _].
    apply (preserves_bind proofs_kept); [elsewhere|intros; apply (preserves_affected proofs_kept)].
  - apply (preserves_bind proofs_kept); [elsewhere|intros; apply (preserves_affected proofs_kept)].
  - apply (preserves_bind proofs_kept); [elsewhere|intros; apply (preserves_affected proofs_kept)].
  - apply proved_CreateDomain.
  - apply proved_health.
  - apply proved_DeleteDomain.
Qed.
(** What the resolver said of the row as it stands. *)
Lemma set_verification_proved id status err now r c :
  domains (tables c) !! id = Some r →
  (status = "verified" → dns_proved (Hostname (dm r)) (VerificationToken (dm r))) →
  preserves_at proofs_kept (SetVerificationResult id status err now) c.
Proof.
  intros Hr Hs. apply (preserves_bind_at proofs_kept).
  2:{ intros row c1 _. apply (preserves_bind proofs_kept); [apply (preserves_or_not_found proofs_kept)|].
      intros; apply (preserves_ret proofs_kept). }
  apply (preserves_stmt_at proofs_kept). rewrite Hr. intros a d Hf Hd.
  destruct (domain_visible c r); [|by simplify_eq]. case_bool_decide; [|done]. injection Hf as _ <-.
  apply proved_row; [done..|]. intros Hv. right. by apply Hs.
Qed.

Lemma call_at_moves {A} (m : M (session core) db_err A) f s :
  preserves_at proofs_kept m (retable (db_core (tables (h_db s))) (h_db s)) →
  core_moves proofs_kept s (call (P := site_payload) m f s).2.
Proof.
  intros (K1 & K2 & K3). unfold call, call_db, on_db_core, focus. destruct (m _) as [[a|e] s1]; done.
Qed.

Lemma GetDomain_row id f s x s1 :
  call (P := site_payload) (GetDomain id) f s = (Ok x, s1) →
  ∃ r, domains (db_core (tables (h_db s1))) !! id = Some r ∧ x = dm r.
Proof.
  unfold call, call_db, on_db_core, focus.
  destruct (GetDomain id _) as [[y|e] c] eqn:E; [|done]. intros [= -> <-].
  apply bind_Ok_inv in E as (row & c1 & Eq & Er). apply query_Ok_inv in Eq as [-> Et]. cbn in *.
  destruct (domains _ !! id) as [r|] eqn:Ed; [|done]. destruct (domain_readable _ _ _); [|done].
  injection Er as <- <-. exists r. by rewrite Et.
Qed.

Lemma verdict_proved ev hostname token :
  (mapDomainVerificationResult (verifyApexTXT ev hostname token)).1 = "verified" →
  dns_proved hostname token.
Proof.
  unfold mapDomainVerificationResult, verifyApexTXT.
  destruct (LookupTXT ev _) as [[|v l]|] eqn:El; [done| |done]. cbn. case_bool_decide as Hin; [|done].
  intros _. by exists ev, (v :: l).
Qed.

Lemma VerifyRootDomain_proved id c : h_along (core_moves proofs_kept) (VerifyRootDomain id c).
Proof.
  intros s. unfold VerifyRootDomain, bind at 1.
  pose proof (core_moves_call (P := site_payload) proofs_kept (GetDomain id) site_not_found_or_500
    (moves_op proofs_kept run_site_op_proved _ (OpGetDomain id) eq_refl eq_refl) s) as A1.
  destruct (call (GetDomain id) _ s) as [[x|e] s1] eqn:E1; [|exact A1]. cbn [snd] in A1.
  apply GetDomain_row in E1 as (r & Hr & ->). etrans; [exact A1|]. clear A1.
  unfold bind at 1. unfold checkVerifyCooldown at 1.
  destruct (match h_domain_checks s1 !! id with Some _ => _ | None => false end).
  { cbn. by destruct (h_domain_checks s1 !! id). }
  set (s2 := bump_h_ev _). assert (h_db s2 = h_db s1 ∧ h_own s2 = h_own s1) as [D2 O2].
  { unfold s2. cbn. by destruct (h_domain_checks s1 !! id). }
  assert (core_moves proofs_kept s1 s2) as A2 by (unfold core_moves; by rewrite D2, O2).
  etrans; [exact A2|]. clear A2. cbn [negb].
  unfold bind at 1. unfold ask at 1.
  set (result := verifyApexTXT _ _ _).
  destruct (mapDomainVerificationResult result) as [status err] eqn:Em.
  unfold bind at 1. unfold ask at 1. unfold bind at 1.
  set (s3 := bump_h_ev (bump_h_ev s2)).
  assert (core_moves proofs_kept s3
    (call (SetVerificationResult id status err (time_Now (h_ev (bump_h_ev s2)))) site_not_found_or_500 s3).2) as A3.
  { apply call_at_moves, (set_verification_proved _ _ _ _ r); [by rewrite <- D2 in Hr|].
    intros ->. apply (verdict_proved (h_ev s2)). fold result. by rewrite Em. }
  destruct (call _ _ s3) as [[y|e] s4]; [|exact A3]. etrans; [exact A3|].
  apply h_along_bind; [apply _|apply (moves_record proofs_kept)|]. intros. apply h_along_ret, _.
Qed.
End proofs_of_ownership.

(** ** Properties *)

(** C2: status page and domain administration stays within the tenant, request by
    request.  Whatever a sequence of requests to these routes carries, by whoever,
    whatever fails and whatever is rolled back: the site stays well formed; and
    when none of them is the one that replaces a page's services, a tenant that is
    not the active one of any of their tokens keeps its pages, its domains, its
    groups and what its pages show. *)
Theorem site_requests_isolated `{!Driver, !Machine, !Network, !Jwt} (dnsTarget secret : string)
    (l : list (Z * credentials * site_request)) (u : string) (s : hstate) :
  bypass_rls (h_db s) = false →
  (∀ now req r c, (now, req, r) ∈ l →
     VerifySessionClaims now (request_token req) secret = Ok c → ScTenantID c ≠ u) →
  let s' := serve_sites dnsTarget secret l s in
  (site_wf (db_core (tables (h_db s))) → site_wf (db_core (tables (h_db s')))) ∧
  ((∀ q, q ∈ l → sets_page_services q.2 = false) →
   site_untouched u (db_core (tables (h_db s))) (db_core (tables (h_db s')))).
Proof.
  revert s. induction l as [|[[now req] r] l IH]; intros s Hb Hl; [done|]. cbn zeta. cbn [serve_sites].
  set (s1 := (serve_site dnsTarget now secret req r s).2).
  assert (∃ t, request_moves site_rel t s s1) as (t0 & _ & Hb1 & Hw).
  { destruct (serve_site_moves dnsTarget site_rel now secret req r s) as [HR|(c & _ & HR)]; eauto.
    - intros o _. apply run_site_op_wf.
    - intros _ i ps. apply (run_site_op_wf (OpSetServices i ps)).
    - intros i c _. apply (verify_moves site_rel); [intros o _; apply run_site_op_wf|].
      intros st e t. apply keeps_SetVerificationResult. }
  destruct (IH s1) as [U1 U2]; [by rewrite Hb1|intros; eapply Hl; [by right|done]|]. split.
  - intros Hs. by apply U1, Hw.
  - intros Hn. etrans; [|apply U2; intros q Hq; apply Hn; by right].
    assert (∃ t, (t = "" ∨ t ≠ u) ∧ request_moves site_isolated t s s1) as (t & Ht & _ & _ & HI).
    { specialize (Hn (now, req, r)). cbn in Hn.
      destruct (serve_site_moves dnsTarget site_isolated now secret req r s) as [HR|(c & Hc & HR)];
        [intros o Ho; apply run_site_op_own; by destruct o|intros E; by rewrite Hn in E by left| |..].
      { intros i c _. assert (∀ o, sets_services o = false → preserves site_isolated (run_site_op o)) as Hop
          by apply run_site_op_own.
        apply (verify_moves site_isolated); [intros o Ho; apply Hop; by destruct o|].
        intros st e t. by apply (undiscarded site_isolated), (Hop (OpSetVerificationResult i st e t)). }
      - eauto.
      - exists (ScTenantID c). split; [right|exact HR]. eapply Hl; [by left|exact Hc]. }
    by apply (isolated_site_untouched t), HI.
Qed.

(** C10: a domain is verified by DNS alone.  Whatever requests come to these
    routes, by whoever, with whatever bodies and whatever fails: a domain that is
    "verified" afterwards, and was not before, is one for which the resolver
    answered [_vane-verify.<hostname>] with a list that has the domain's own
    token, exactly; no other request, no cooldown and no failure verifies one. *)
Theorem domains_verified_by_token `{!Driver, !Machine, !Network, !Jwt} (dnsTarget secret : string)
    (l : list (Z * credentials * site_request)) (s : hstate) :
  all_proved (db_core (tables (h_db s))) →
  all_proved (db_core (tables (h_db (serve_sites dnsTarget secret l s)))).
Proof.
  revert s. induction l as [|[[now req] r] l IH]; intros s Hd; [done|]. cbn [serve_sites].
  apply IH. destruct (serve_site_moves dnsTarget proofs_kept now secret req r s)
    as [(_ & _ & HR)|(c & _ & _ & _ & HR)]; try (by apply HR).
  - apply run_site_op_proved.
  - intros _. apply proved_SetServices.
  - intros id c _. apply VerifyRootDomain_proved.
Qed.

(** ** Examples and witnesses *)

Section demo.
#[local] Existing Instance reliable.
#[local] Existing Instance demo_machine.
#[local] Existing Instance demo_jwt.

Definition demo_token_value : string :=
  default "" (generateDomainVerificationToken 0).
(** A network in which a.com publishes its token. *)
#[local] Instance demo_network : Network := {|
  LookupTXT _ name := if String.eqb name "_vane-verify.a.com" then Some ["v=spf1 -all"; demo_token_value] else None;
  LookupHost _ name := Some ["192.0.2.1"];
  dialTLS _ _ := (true, true, None);
|}.

(** An operator of tenant A, and tenant B's published page. *)
Definition operated (d : core) : hstate := demo_hstate demo_identity d.
Definition as_operator (r : site_request) : Z * credentials * site_request := (5, demo_credentials, r).
Abbreviation site_of s := (db_core (tables (h_db s))) (only parsing).
Definition after_registering : hstate :=
  serve_sites "" "secret" [as_operator (PostDomain (Some "a.com"))] (operated (demo_site "published")).
(** The domain the service just registered. *)
Definition domain_id : string :=
  default "" (fst <$> find_row (by_hostname "a.com") (domains (site_of after_registering))).

(** Tenant A replaces the services of tenant B's published page, by its id: the
    answer is a 500, because the reload does not see the page, and the request is
    rolled back; but the replacement was committed by a transaction of its own. *)
Example services_replaced_behind_500 :
  let r := PatchPageServices "page-b" (Some [bare "svc-a"]) in
  let '(rsp, s) := serve_site "" 5 "secret" demo_credentials r (operated (demo_site "published")) in
  rsp = writeInternalError ∧
  map_to_list (status_page_services (site_of s)) = [("page-b", "svc-a", default_link)].
Proof. vm_compute. split; reflexivity. Qed.

Definition meddling : list (Z * credentials * site_request) :=
  as_operator <$> [DeleteStatusPageByID "page-b"; PatchPageEnvironment "page-b" (Some "staging");
                   DeleteDomainByID "dom-b"; PostGroup "page-b" (Some "mine"); PostVerifyDomain "page-b"].

Lemma site_requests_isolated_witness :
  let s' := serve_sites "" "secret" meddling (operated (demo_site "published")) in
  site_wf (site_of s') ∧
  status_pages (site_of s') !! "page-b" =
    Some {| page_tenant := "tenant-b"; spage := demo_page "published" |}.
Proof.
  destruct (site_requests_isolated "" "secret" meddling "tenant-b" (operated (demo_site "published")))
    as [Hw Hu].
  - reflexivity.
  - assert (VerifySessionClaims 5 (request_token demo_credentials) "secret" =
      Ok {| AdminID := "user-1"; ScIssuedAt := 0; ScTenantID := "tenant-a"; ScSessionID := "sid-1" |})
      as Hv by (vm_compute; reflexivity).
    intros now req r c Hin Hc. apply list_elem_of_fmap in Hin as (q & [= -> -> ->] & _).
    rewrite Hv in Hc. injection Hc as <-. discriminate.
  - cbv zeta. split; [refine (Hw _); apply demo_site_wf; do 2 right; left|]. destruct Hu as [Hp _ _ _].
    + intros q Hq. unfold meddling in Hq.
      repeat (apply elem_of_cons in Hq as [->|Hq]; [reflexivity|]). by apply elem_of_nil in Hq.
    + apply Hp; reflexivity.
Defined.

Lemma domains_verified_by_token_witness :
  let s := serve_sites "" "secret" [as_operator (PostDomainVerify domain_id)] after_registering in
  (λ r, DomStatus (dm r)) <$> domains (site_of s) !! domain_id = Some "verified" ∧
  all_proved (site_of s).
Proof.
  split; [vm_compute; reflexivity|].
  apply (domains_verified_by_token "" "secret" [as_operator (PostDomainVerify domain_id)] after_registering).
  apply (domains_verified_by_token "" "secret" [as_operator (PostDomain (Some "a.com"))]
           (operated (demo_site "published"))).
  intros i r Hi Hv. cbn in Hi. apply lookup_singleton_Some in Hi as [<- <-]. discriminate Hv.
Defined.
End demo.
