(* ===== verification/ServicesApi.v ===== *)
(** * Service routes (internal/api/services_handler.go)

    Registering a service (a Datadog SLO, or a target polled directly once
    internal/checks accepted it), the list with its thirty days' uptime, the
    detail drawer, renaming and deleting.  [add_days] is time.Time.AddDate(0, 0, n)
    in the server's zone, [midnight] the start of a day in America/Sao_Paulo. *)

From stdpp Require Import numbers strings gmap list sorting.
From Stdlib Require Import ZArith Lia Floats.
From S2P Require Import Prelude GoNum GoStrings Checks Db Schema World Intervals History Incidents Services Identity LLMProviders Providers Secrets Auth Api Tenants Handler IncidentApi.

#[local] Open Scope Z_scope.
#[local] Open Scope go_scope.

Definition StatusNoContent : Z := 204.

Definition servicesPageSize : Z := 20.
Definition servicesUptimeWindowDays : Z := 30.
Definition servicesHourlyBucketCount : Z := 24.
Definition servicesHourlyBucketWidth : Z := hour.

(** ** Requests and responses *)

Record createServiceRequest := {
  CsrName : string;
  CsrSLOID : string;
  CsrSLOName : string;
  CsrSLOType : string;
  CsrDatadogServiceTag : string;
  CsrEnvironment : string;
  CsrMonitorMode : string;
  CsrPollType : string;
  CsrPollTarget : string;
  CsrPollIntervalSeconds : Z;
}.
Record updateServiceRequest := {
  UsrName : string;
  UsrSLOType : option string;
  UsrDatadogServiceTag : option string;
  UsrEnvironment : option string;
}.

Definition validPollTypes (t : string) : bool :=
  bool_decide (t ∈ [PollTypeHTTP; PollTypeTCP; PollTypePing]).
Definition validPollIntervalSeconds (n : Z) : bool := bool_decide (n ∈ [30; 60; 300]).
Definition validEnvironments (e : string) : bool :=
  bool_decide (e ∈ [""; "development"; "staging"; "production"])%string.

Record serviceResponse := {
  SrID : string;
  SrName : string;
  SrSLOID : string;
  SrSLOName : string;
  SrSLOType : string;
  SrDatadogServiceTag : string;
  SrEnvironment : string;
  SrMonitorMode : string;
  SrPollType : option string;
  SrPollTarget : option string;
  SrPollIntervalSeconds : option Z;
  SrCurrentStatus : string;
  SrLastStatusChangeAt : Z;
  SrUptime30d : option float;
  SrLastSeenAt : option Z;
}.
Definition toServiceResponse (x : Service) (uptime30d : option float) (lastSeenAt : option Z) :
    serviceResponse :=
  {| SrID := SvcID x; SrName := SvcName x; SrSLOID := SLOID x; SrSLOName := SLOName x;
     SrSLOType := SLOType x; SrDatadogServiceTag := DatadogServiceTag x;
     SrEnvironment := Environment x; SrMonitorMode := MonitorMode x; SrPollType := PollType x;
     SrPollTarget := PollTarget x; SrPollIntervalSeconds := PollIntervalSeconds x;
     SrCurrentStatus := CurrentStatus x; SrLastStatusChangeAt := LastStatusChangeAt x;
     SrUptime30d := uptime30d; SrLastSeenAt := lastSeenAt |}.

Record hourlyBucketResponse := {
  HbStart : Z;
  HbStatus : string;
}.
Definition toHourlyBucketResponses (l : list Bucket) : list hourlyBucketResponse :=
  (λ b, {| HbStart := BkStart b; HbStatus := BkStatus b |}) <$> l.

Record latestReadingResponse := {
  LrBurnRateShort : option float;
  LrBurnRateLong : option float;
  LrWindowErrors : Z;
  LrWindowRequests : Z;
  LrReadAt : Z;
}.
Record serviceDetailResponse := {
  SdService : serviceResponse;
  SdStatusAnalysis : option string;
  SdIncidents30d : Z;
  SdHourlyBuckets : list hourlyBucketResponse;
  SdLatestReading : option latestReadingResponse;
}.

Definition finiteOrNil (v : float) : option float :=
  if is_infinity v || is_nan v then None else Some v.

(** All or nothing: any column missing is no reading. *)
Definition toLatestReadingResponse (x : Service) : option latestReadingResponse :=
  match LastReadingAt x, LastBurnRateShort x, LastBurnRateLong x, LastWindowErrors x,
        LastWindowRequests x with
  | Some at_, Some short, Some long, Some errors, Some requests =>
      Some {| LrBurnRateShort := finiteOrNil short; LrBurnRateLong := finiteOrNil long;
              LrWindowErrors := errors; LrWindowRequests := requests; LrReadAt := at_ |}
  | _, _, _, _, _ => None
  end.

(** The uptime, and when the open interval was last confirmed. *)
Definition uptimeAndLastSeen (ivs : list StatusInterval) (windowStart asOf : Z) :
    option float * option Z :=
  (UptimePercent ivs windowStart asOf,
   LastSeenAt <$> head (filter (λ x, EndsAt x = None) ivs)).

Inductive service_payload :=
| ServiceJson (x : serviceResponse)
| ServicesJson (l : Page serviceResponse)
| DetailJson (x : serviceDetailResponse)
| ServiceDeleted.

Definition invalidServiceRequestBody : string := "name and slo_id are required".
Definition in_quotes (x : string) : string :=
  let q := String (Ascii.ascii_of_nat 34) EmptyString in String.append q (String.append x q).
Definition invalidMonitorModeBody : string :=
  String.concat EmptyString ["monitor_mode must be "; in_quotes "slo"; " or "; in_quotes "polling"].
Definition mixedModeFieldsBody : string :=
  "slo fields and poll fields cannot be combined in the same request".
Definition invalidPollingFieldsBody : string :=
  "poll_type (http, tcp, or ping), poll_target, and poll_interval_seconds (30, 60, or 300) are all required for polling mode".
Definition invalidPollTargetBody : string :=
  "poll_target is not a valid or allowed target for the selected poll_type".
Definition invalidEnvironmentBody : string :=
  String.concat EmptyString
    ["environment must be "; in_quotes EmptyString; ", "; in_quotes "development"; ", ";
     in_quotes "staging"; ", or "; in_quotes "production"].
Definition serviceNotFoundBody : string := "service not found".
Definition serviceInUseBody : string := "service is still attached to a status page".

Abbreviation VM := (Handle service_payload).

Definition service_error (code : Z) (msg : string) : response service_payload :=
  Response code (ErrorBody msg).
Definition unprocessable (msg : string) : response service_payload :=
  service_error StatusUnprocessableEntity msg.
Definition service_answer (code : Z) (p : service_payload) : response service_payload :=
  Response code (Json p).
Definition service_not_found : response service_payload :=
  service_error StatusNotFound serviceNotFoundBody.

(** ** Handlers *)

Section service_handlers.
Context `{!Driver, !Machine, !Wire}.
Context (midnight : Z → Z) (add_days : Z → Z → Z).

(** Code of internal/checks, its questions counted with the machine's. *)
Definition on_wire {A} (m : check A) : VM (res check_err A) :=
  λ s, let '(r, w) := m {| w_tick := h_ev s; w_log := [] |} in
       (Ok r, HState (h_db s) (h_mails s) (h_sent s) (h_tasks s) (w_tick w)
                (h_page_checks s) (h_domain_checks s) (h_own s)).

Definition record_service (c : rctx) (id label action : string) : VM (res db_err unit) :=
  try_id (AuditRecord (UserID (cx_user c)) id label action).

Definition slo_service (req : createServiceRequest) : Service :=
  {| SvcID := ""; SvcName := CsrName req; SLOID := CsrSLOID req; SLOName := CsrSLOName req;
     SLOType := CsrSLOType req; DatadogServiceTag := CsrDatadogServiceTag req;
     Environment := CsrEnvironment req; MonitorMode := "slo"; PollType := None; PollTarget := None;
     PollIntervalSeconds := None; CurrentStatus := ""; LastStatusChangeAt := 0;
     StatusAnalysis := None; LastBurnRateShort := None; LastBurnRateLong := None;
     LastWindowErrors := None; LastWindowRequests := None; LastReadingAt := None;
     SvcLastErrorAt := None |}.
Definition polling_service (req : createServiceRequest) : Service :=
  {| SvcID := ""; SvcName := CsrName req; SLOID := ""; SLOName := ""; SLOType := "";
     DatadogServiceTag := ""; Environment := CsrEnvironment req; MonitorMode := "polling";
     PollType := Some (CsrPollType req); PollTarget := Some (CsrPollTarget req);
     PollIntervalSeconds := Some (CsrPollIntervalSeconds req); CurrentStatus := "";
     LastStatusChangeAt := 0; StatusAnalysis := None; LastBurnRateShort := None;
     LastBurnRateLong := None; LastWindowErrors := None; LastWindowRequests := None;
     LastReadingAt := None; SvcLastErrorAt := None |}.

(** The switch over the monitor mode: the service to insert, or the answer. *)
Definition requested_service (req : createServiceRequest) : VM Service :=
  let monitorMode := if String.eqb (CsrMonitorMode req) "" then "slo"%string else CsrMonitorMode req in
  if String.eqb monitorMode "slo" then
    reject (negb (String.eqb (CsrPollType req) "") || negb (String.eqb (CsrPollTarget req) "") ||
            negb (CsrPollIntervalSeconds req =? 0)) (unprocessable mixedModeFieldsBody) (
    reject (String.eqb (CsrSLOID req) "") (unprocessable invalidServiceRequestBody) (
    ret (slo_service req)))
  else if String.eqb monitorMode "polling" then
    reject (negb (String.eqb (CsrSLOID req) "") || negb (String.eqb (CsrSLOName req) ""))
      (unprocessable mixedModeFieldsBody) (
    reject (negb (validPollTypes (CsrPollType req)) || String.eqb (CsrPollTarget req) "" ||
            negb (validPollIntervalSeconds (CsrPollIntervalSeconds req)))
      (unprocessable invalidPollingFieldsBody) (
    match ValidateTargetFormat (CsrPollType req) (CsrPollTarget req) with
    | Err _ => fail (unprocessable invalidPollTargetBody)
    | Ok _ =>
        safe <- on_wire (ValidateTargetSafety (CsrPollType req) (CsrPollTarget req)) ;;
        match safe with
        | Err _ => fail (unprocessable invalidPollTargetBody)
        | Ok _ => ret (polling_service req)
        end
    end))
  else fail (unprocessable invalidMonitorModeBody).

Definition CreateService (req : option createServiceRequest) (c : rctx) : VM (response service_payload) :=
  match req with
  | None => fail (unprocessable invalidServiceRequestBody)
  | Some req =>
      reject (String.eqb (CsrName req) "") (unprocessable invalidServiceRequestBody) (
      reject (negb (validEnvironments (CsrEnvironment req))) (unprocessable invalidEnvironmentBody) (
      service <- requested_service req ;;
      created <- call (Services.Create service) internal_error ;;
      record_service c (SvcID created) (SvcName created) "service_created" ;;;
      ret (service_answer StatusCreated (ServiceJson (toServiceResponse created None None)))))
  end.

(** The repository's read on the request's connection. *)
Definition overlapping_since (ids : list string) (from now : Z) : VM (list StatusInterval) :=
  call_db (on_intervals (ListOverlapping ids from now)) internal_error.

Definition ListServices (page : string) (c : rctx) : VM (response service_payload) :=
  let page := parsePage page in
  r <- call (Services.ListPaginated page servicesPageSize) internal_error ;;
  let '(services, total) := r in
  now <- ask time_Now ;;
  let windowStart := add_days now (- servicesUptimeWindowDays) in
  overlapping <- overlapping_since (SvcID <$> services) windowStart now ;;
  let item := λ x,
    let '(uptime, seen) :=
      uptimeAndLastSeen (filter (λ v, ServiceID v = SvcID x) overlapping) windowStart now in
    toServiceResponse x uptime seen in
  ret (service_answer StatusOK (ServicesJson
    {| Items := item <$> services; Total := total; PageNo := page; PageSize := servicesPageSize |})).

Definition GetService (id : string) (c : rctx) : VM (response service_payload) :=
  found <- call (Services.Get id) internal_error ;;
  match found with
  | None => fail service_not_found
  | Some service =>
      now <- ask time_Now ;;
      let windowStart := add_days now (- servicesUptimeWindowDays) in
      overlapping30d <- overlapping_since [id] windowStart now ;;
      let '(uptime30d, lastSeenAt) := uptimeAndLastSeen overlapping30d windowStart now in
      incidents30d <- call (CountByServiceSince id windowStart) internal_error ;;
      let hourlyWindowStart :=
        time_add now (go_mul (- servicesHourlyBucketCount) servicesHourlyBucketWidth) in
      overlapping24h <- overlapping_since [id] hourlyWindowStart now ;;
      let buckets := BuildBuckets midnight overlapping24h now now servicesHourlyBucketCount
                       servicesHourlyBucketWidth in
      ret (service_answer StatusOK (DetailJson
        {| SdService := toServiceResponse service uptime30d lastSeenAt;
           SdStatusAnalysis := StatusAnalysis service; SdIncidents30d := incidents30d;
           SdHourlyBuckets := toHourlyBucketResponses buckets;
           SdLatestReading := toLatestReadingResponse service |}))
  end.

Definition service_edit_answers (e : db_err) : response service_payload :=
  if decide (e = ErrNotFound) then service_not_found else writeInternalError.

Definition UpdateService (id : string) (req : option updateServiceRequest) (c : rctx) :
    VM (response service_payload) :=
  match req with
  | None => fail (unprocessable invalidServiceRequestBody)
  | Some req =>
      reject (String.eqb (TrimSpace (UsrName req)) "") (unprocessable invalidServiceRequestBody) (
      reject (match UsrEnvironment req with Some e => negb (validEnvironments e) | None => false end)
        (unprocessable invalidEnvironmentBody) (
      call_own (on_db_core (UpdateWithMetadata id (UsrName req) (UsrSLOType req)
                  (UsrDatadogServiceTag req) (UsrEnvironment req))) service_edit_answers ;;;
      found <- call (Services.Get id) internal_error ;;
      match found with
      | None => fail service_not_found
      | Some service =>
          now <- ask time_Now ;;
          let windowStart := add_days now (- servicesUptimeWindowDays) in
          overlapping <- overlapping_since [id] windowStart now ;;
          let '(uptime30d, lastSeenAt) := uptimeAndLastSeen overlapping windowStart now in
          record_service c (SvcID service) (SvcName service) "service_updated" ;;;
          ret (service_answer StatusOK (ServiceJson (toServiceResponse service uptime30d lastSeenAt)))
      end))
  end.

Definition service_delete_answers (e : db_err) : response service_payload :=
  if decide (e = ErrServiceInUse) then service_error StatusConflict serviceInUseBody
  else service_edit_answers e.

Definition DeleteService (id : string) (c : rctx) : VM (response service_payload) :=
  found <- try_core (Services.Get id) ;;
  let name := match found with Ok (Some x) => SvcName x | _ => ""%string end in
  call_own (on_db_core (SoftDelete id)) service_delete_answers ;;;
  record_service c id name "service_deleted" ;;;
  ret (service_answer StatusNoContent ServiceDeleted).
End service_handlers.

(** ** Routes (internal/cli/routes.go) *)

Inductive service_request :=
| PostService (body : option createServiceRequest)
| GetServices (page : string)
| GetServiceByID (id : string)
| PatchService (id : string) (body : option updateServiceRequest)
| DeleteServiceByID (id : string).

Definition service_roles (r : service_request) : list string :=
  match r with
  | PostService _ => writeRoles
  | GetServices _ | GetServiceByID _ => anyRole
  | PatchService _ _ | DeleteServiceByID _ => [RoleOwner]
  end.

Section service_routes.
Context `{!Driver, !Machine, !Wire, !Jwt}.
Context (midnight : Z → Z) (add_days : Z → Z → Z).

Definition service_handler (r : service_request) : rctx → VM (response service_payload) :=
  match r with
  | PostService body => CreateService body
  | GetServices page => ListServices add_days page
  | GetServiceByID id => GetService midnight add_days id
  | PatchService id body => UpdateService add_days id body
  | DeleteServiceByID id => DeleteService id
  end.

Definition service_route (r : service_request) : handler service_payload :=
  TenantContext (RequireRole (service_roles r) (written (service_handler r))).
Definition serve_service (now : Z) (secret : string) (req : credentials) (r : service_request)
    (s : hstate) : response service_payload * hstate :=
  RequireAuth now secret req (service_route r) s.

Fixpoint serve_services (secret : string) (l : list (Z * credentials * service_request))
    (s : hstate) : hstate :=
  match l with
  | [] => s
  | (now, req, r) :: l => serve_services secret l (serve_service now secret req r s).2
  end.
End service_routes.

(** ** Lemmas *)

(** What a create request may insert: a polled target whose form was accepted,
    with a type and an interval of the fixed sets, or an SLO that is named. *)
Definition well_monitored `{!Wire} (x : Service) : Prop :=
  if String.eqb (MonitorMode x) "polling" then
    ∃ ty ta n, PollType x = Some ty ∧ PollTarget x = Some ta ∧ PollIntervalSeconds x = Some n ∧
      ty ∈ [PollTypeHTTP; PollTypeTCP; PollTypePing] ∧ n ∈ [30; 60; 300] ∧
      ValidateTargetFormat ty ta = Ok tt
  else SLOID x ≠ "".

Section service_moves.
Context `{!Driver, !Machine, !Wire, !Jwt}.
Context (R : string → bool → relation core) `{!∀ t b, PreOrder (R t b)}.
Context (HC : ∀ x, well_monitored x → preserves R (Services.Create x)).
Context (Hop : ∀ o, (∀ x, o ≠ OpCreate x) → preserves R (run_service_op o)).

Lemma moves_service_op {A} (m : M (session core) db_err A) o :
  run_service_op o = discard m → (∀ x, o ≠ OpCreate x) → preserves R m.
Proof.
  intros E Ho s. pose proof (Hop o Ho s) as Hs. rewrite E in Hs. unfold discard, bind in Hs.
  by destruct (m s) as [[a|e] s1].
Qed.

Lemma moves_record_service c id label action :
  h_along (core_moves R) (record_service c id label action).
Proof.
  apply (core_moves_id R), (preserves_stmt (λ _ _, sessions_kept)).
  intros s a d Hf. destruct (default_tenant s); [|done]. injection Hf as _ <-.
  intros i x Hx. by exists x.
Qed.

Lemma moves_on_wire {A} (m : check A) : h_along (core_moves R) (on_wire m).
Proof. intros s. unfold on_wire. destruct (m _) as [r w]. by split_and!. Qed.

(** A read of the intervals. *)
Lemma moves_overlapping ids from now : h_along (core_moves R) (overlapping_since ids from now).
Proof.
  intros s. unfold overlapping_since, call_db, on_intervals, focus, ListOverlapping.
  case_bool_decide; [by split_and!|].
  destruct (query _ _) as [r s1] eqn:E. pose proof E as Es. apply stmt_settings_eq in Es as [Ea Eb].
  destruct r; cbn; unfold core_moves; cbn; by rewrite Ea, Eb.
Qed.

Definition created_well (m : VM Service) : Prop :=
  h_along (core_moves R) m ∧ ∀ s x s', m s = (Ok x, s') → well_monitored x.

Lemma requested_well req : created_well (requested_service req).
Proof.
  assert (∀ rsp : response service_payload, created_well (fail rsp)) as Hfail.
  { intros rsp. split; [apply h_along_fail, _|]. intros s x s' [=]. }
  assert (∀ (b : bool) rsp (m : VM Service), (b = false → created_well m) → created_well (reject b rsp m)) as Hrej.
  { intros [] rsp m Hm; [apply Hfail|by apply Hm]. }
  assert (∀ x : Service, well_monitored x → created_well (ret x)) as Hret.
  { intros x Hx. split; [apply h_along_ret, _|]. by intros s y s' [= <- _]. }
  unfold requested_service. cbv zeta.
  generalize (if String.eqb (CsrMonitorMode req) "" then "slo"%string else CsrMonitorMode req).
  intros mode. destruct (String.eqb mode "slo").
  { apply Hrej. intros _. apply Hrej. intros Hs. apply Hret. cbn. by apply String.eqb_neq. }
  destruct (String.eqb mode "polling"); [|apply Hfail].
  apply Hrej. intros _. apply Hrej. intros Hp. rewrite !orb_false_iff, !negb_false_iff in Hp.
  destruct Hp as [[Ht _] Hn].
  destruct (ValidateTargetFormat _ _) as [[]|e] eqn:Hf; [|apply Hfail].
  split.
  - apply h_along_bind; [apply _|apply moves_on_wire|]. intros [?|?]; [|apply h_along_fail, _].
    apply h_along_ret, _.
  - intros s x s' ([?|?] & s1 & _ & [= <- _])%bind_Ok_inv.
    apply bool_decide_eq_true in Ht, Hn. unfold well_monitored. cbn. by do 3 eexists.
Qed.
End service_moves.

(** One step of a handler's code. *)
Ltac service_step :=
  match goal with
  | |- h_along (core_moves ?R) (ret _) => apply h_along_ret, _
  | |- h_along _ (fail _) => apply h_along_fail, _
  | |- h_along _ (reject _ _ _) => apply h_along_reject; [apply _|]
  | |- h_along _ (bind _ _) => apply h_along_bind; [apply _| |intros ?]
  | |- h_along (core_moves ?R) (call _ _) => apply (core_moves_call R)
  | |- h_along (core_moves ?R) (call_own (on_db_core _) _) => apply (core_moves_own R)
  | |- h_along (core_moves ?R) (try_core _) => apply (core_moves_try R)
  | |- h_along (core_moves ?R) (ask _) => apply (core_moves_ask R)
  | |- h_along (core_moves ?R) (record_service _ _ _ _) => apply (moves_record_service R)
  | |- h_along (core_moves ?R) (overlapping_since _ _ _) => apply (moves_overlapping R)
  | |- h_along _ (match ?o with _ => _ end) => destruct o
  end.

Section service_requests.
Context `{!Driver, !Machine, !Wire, !Jwt}.
Context (R : string → bool → relation core) `{!∀ t b, PreOrder (R t b)}.
Context (HC : ∀ x, well_monitored x → preserves R (Services.Create x)).
Context (Hop : ∀ o, (∀ x, o ≠ OpCreate x) → preserves R (run_service_op o)).
Context (midnight : Z → Z) (add_days : Z → Z → Z).

Lemma CreateService_moves body c : h_along (core_moves R) (CreateService body c).
Proof.
  unfold CreateService. destruct body as [req|]; [|apply h_along_fail, _].
  do 2 (apply h_along_reject; [apply _|]). intros s.
  destruct (requested_well R req) as [Hm Hw]. unfold bind at 1. specialize (Hm s).
  destruct (requested_service req s) as [[x|e] s1] eqn:E; [|done]. cbn in Hm.
  etrans; [exact Hm|]. specialize (Hw s x s1 E). revert s1 E Hm. intros s1 _ _. revert s1.
  change (h_along (core_moves R) (created <- call (Services.Create x) internal_error ;;
    record_service c (SvcID created) (SvcName created) "service_created" ;;;
    ret (service_answer StatusCreated (ServiceJson (toServiceResponse created None None))))).
  repeat service_step. by apply HC.
Qed.

Lemma service_handler_moves r c : h_along (core_moves R) (service_handler midnight add_days r c).
Proof.
  destruct r; cbn [service_handler]; [apply CreateService_moves|..].
  all: unfold ListServices, GetService, UpdateService, DeleteService; cbv zeta.
  all: repeat service_step.
  all: first
    [ by eapply (moves_service_op R) with (o := OpListPaginated _ _)
    | by eapply (moves_service_op R) with (o := OpGet _)
    | by apply (Hop (OpUpdateWithMetadata _ _ _ _ _)) | by apply (Hop (OpSoftDelete _))
    | apply (preserves_query R) ].
Qed.

Lemma serve_service_moves now secret req r s :
  request_moves R "" s (serve_service midnight add_days now secret req r s).2 ∨
  ∃ c, VerifySessionClaims now (request_token req) secret = Ok c ∧
    request_moves R (ScTenantID c) s (serve_service midnight add_days now secret req r s).2.
Proof.
  apply (RequireAuth_moves R). intros c h. apply (TenantContext_moves R).
  intros c'. apply service_handler_moves.
Qed.
End service_requests.

(** ** Every service is one that can be monitored *)

Section monitored.
Context `{!Driver, !Wire}.

Definition monitored (d : core) : Prop :=
  ∀ id r, services d !! id = Some r → well_monitored (svc r).
Definition monitored_kept (t : string) (b : bool) : relation core := λ d d', monitored d → monitored d'.

#[export] Instance monitored_kept_preorder t b : PreOrder (monitored_kept t b).
Proof. split; [by intros d Hd|]. intros d1 d2 d3 E1 E2 Hd. by apply E2, E1. Qed.

Lemma monitored_insert d id r :
  monitored d → well_monitored (svc r) → monitored (set_services (<[id := r]>) d).
Proof.
  intros Hd Hr i r'. cbn. destruct (decide (id = i)) as [<-|Hne].
  - rewrite lookup_insert_eq. by intros [= <-].
  - rewrite lookup_insert_ne by done. apply Hd.
Qed.

Lemma monitored_update id p f :
  (∀ s r, well_monitored (svc r) → well_monitored (svc (f s r))) →
  preserves monitored_kept (update_services id p f).
Proof.
  intros Hf. apply (preserves_stmt monitored_kept). intros s a d E Hd.
  destruct (services (tables s) !! id) as [r|] eqn:Er; [|by simplify_eq].
  destruct (row_visible s r && p r); [|by simplify_eq].
  destruct (service_checks _); [|done]. injection E as _ <-.
  apply monitored_insert; [done|]. by eapply Hf, Hd.
Qed.

Lemma monitored_found n : preserves monitored_kept (not_found_if_zero n).
Proof.
  unfold not_found_if_zero.
  destruct (n =? 0); [apply (preserves_fail monitored_kept)|apply (preserves_ret monitored_kept)].
Qed.

Lemma monitored_edit id p f :
  (∀ s r, well_monitored (svc r) → well_monitored (svc (f s r))) →
  preserves monitored_kept (n <- update_services id p f ;; not_found_if_zero n).
Proof.
  intros Hf. apply (preserves_bind monitored_kept); [by apply monitored_update|].
  intros n. apply monitored_found.
Qed.

Lemma monitored_pool_tx {A} (m : M (session core) db_err A) :
  preserves monitored_kept m → preserves monitored_kept (with_pool_tx m).
Proof. apply (preserves_pool_tx monitored_kept). by intros t b d d' Hd. Qed.

Lemma monitored_Create x : well_monitored x → preserves monitored_kept (Services.Create x).
Proof.
  intros Hx. apply (preserves_stmt monitored_kept). intros s a d E Hd. cbv zeta in E.
  destruct (default_tenant s); [|done]. destruct (service_checks _); [cbn in E|done].
  destruct (services (tables s) !! _); [done|]. injection E as _ <-.
  apply monitored_insert; [done|]. unfold well_monitored, inserted_service in *. cbn.
  by destruct (String.eqb (MonitorMode x) "polling").
Qed.

Lemma monitored_reads {A} (m : M (session core) db_err A) :
  preserves monitored_kept m → preserves monitored_kept (discard m).
Proof.
  intros Hm. apply (preserves_bind monitored_kept); [done|]. intros. apply (preserves_ret monitored_kept).
Qed.

Lemma monitored_op o : (∀ x, o ≠ OpCreate x) → preserves monitored_kept (run_service_op o).
Proof.
  intros Ho. destruct o; cbn [run_service_op]; try (by destruct (Ho x));
    try (apply monitored_reads, (preserves_query monitored_kept)); try (by apply monitored_edit).
  - apply monitored_reads, (preserves_bind monitored_kept).
    + apply (preserves_stmt monitored_kept). intros s a d E Hd. cbv zeta in E.
      destruct (limit_offset _ _ _); [|done]. by injection E as _ <-.
    + intros [[|x l] total]; [|apply (preserves_ret monitored_kept)].
      apply (preserves_query_then monitored_kept). intros. apply (preserves_ret monitored_kept).
  - apply monitored_pool_tx. apply (preserves_bind monitored_kept); [by apply monitored_update|intros n].
    apply (preserves_bind monitored_kept); [apply monitored_found|intros _].
    apply (preserves_bind monitored_kept).
    + destruct sloType, tag; try apply (preserves_ret monitored_kept). by apply monitored_edit.
    + intros _. destruct env; [by apply monitored_edit|apply (preserves_ret monitored_kept)].
  - apply monitored_pool_tx, (preserves_query_then monitored_kept). intros [];
      [|apply (preserves_fail monitored_kept)].
    apply (preserves_query_then monitored_kept). intros []; [apply (preserves_fail monitored_kept)|].
    by apply monitored_edit.
  - apply (preserves_bind monitored_kept); [by apply monitored_update|]. intros. apply (preserves_ret monitored_kept).
  - apply (preserves_bind monitored_kept); [by apply monitored_update|]. intros. apply (preserves_ret monitored_kept).
  - apply (preserves_bind monitored_kept); [by apply monitored_update|]. intros. apply (preserves_ret monitored_kept).
  - apply (preserves_stmt monitored_kept). intros s a d [= _ <-] Hd. exact Hd.
  - apply (preserves_stmt monitored_kept). intros s a d [= _ <-] Hd. exact Hd.
Qed.
End monitored.

(** ** Renaming and deleting *)

Section edits.
Context `{!Driver, !Machine, !Wire, !Jwt}.
Context (midnight : Z → Z) (add_days : Z → Z → Z).

Definition edits_service (r : service_request) : bool :=
  match r with PatchService _ _ | DeleteServiceByID _ => true | _ => false end.

(** A handler that is always refused, and leaves the operational tables alone. *)
Definition refused (h : rctx → VM (response service_payload)) : Prop :=
  ∀ c s, bypass_rls (h_db s) = false →
    ∃ e s', h c s = (Err e, s') ∧ 400 ≤ rsp_status e ∧
      db_core (tables (h_db s')) = db_core (tables (h_db s)) ∧ db_core (h_own s') = db_core (h_own s) ∧
      app_tenant (h_db s') = app_tenant (h_db s) ∧ bypass_rls (h_db s') = bypass_rls (h_db s).

(** A call of a method that always fails in a transaction of its own. *)
Lemma call_own_fails {A} (m : M (session core) db_err unit) f (k : unit → VM A) s :
  (∀ c, bypass_rls c = false → ∃ e, (m c).1 = Err e) → (∀ e, 400 ≤ rsp_status (f e)) →
  bypass_rls (h_db s) = false →
  ∃ e s', bind (call_own (on_db_core m) f) k s = (Err e, s') ∧ 400 ≤ rsp_status e ∧
    db_core (tables (h_db s')) = db_core (tables (h_db s)) ∧ db_core (h_own s') = db_core (h_own s) ∧
    app_tenant (h_db s') = app_tenant (h_db s) ∧ bypass_rls (h_db s') = bypass_rls (h_db s).
Proof.
  intros Hm Hf Hb. unfold bind, call_own, on_db_core, focus.
  set (c := retable _ (set_tables _ _)). destruct (Hm c Hb) as [e He].
  destruct (m c) as [r o]. cbn in He. subst r. eexists _, _. by split_and!.
Qed.

Lemma service_edit_refused r : edits_service r = true → refused (service_handler midnight add_days r).
Proof.
  assert (∀ e, 400 ≤ rsp_status (service_edit_answers e)) as Hans.
  { intros e. unfold service_edit_answers. by destruct (decide _). }
  destruct r as [| | |id body|id]; try done; intros _ c s Hb; cbn [service_handler].
  - unfold UpdateService. destruct body as [req|]; [|by eexists _, s; split_and!].
    unfold reject. destruct (String.eqb (TrimSpace _) ""); [by eexists _, s; split_and!|].
    destruct (match UsrEnvironment req with Some _ => _ | None => _ end); [by eexists _, s; split_and!|].
    apply call_own_fails; [|done..]. intros c0 Hc0. by apply UpdateWithMetadata_unset.
  - unfold DeleteService. unfold bind at 1, try_core, try_db, on_db_core, focus.
    destruct (reads_query (λ s0, match services (tables s0) !! id with
      | Some r => if row_visible s0 r && live r then Some (svc r) else None | None => None end)
      (retable (db_core (tables (h_db s))) (h_db s))) as [Ht Hb'].
    unfold Services.Get. destruct (query _ _) as [g s1] eqn:E.
    pose proof E as Es. unfold query in Es. apply stmt_settings_eq in Es as [Ea _]. cbn in Ht, Hb', Ea.
    edestruct (call_own_fails (A := response service_payload) (SoftDelete id) service_delete_answers)
      with (s := set_h_db (retable (set_db_core (tables s1) (tables (h_db s))) s1) s)
      as (e & s' & He & K1 & K2 & K3 & K4 & K5).
    + intros c0 Hc0. by apply SoftDelete_unset.
    + intros e. unfold service_delete_answers. destruct (decide (e = ErrServiceInUse)); [done|apply Hans].
    + cbn. by rewrite Hb'.
    + exists e, s'. split; [exact He|]. split; [done|]. cbn in *.
      rewrite K2, K4, K5, Ht, Hb', Ea. done.
Qed.

Lemma RequireAuth_refuses now secret req (next : handler service_payload) s :
  (∀ c s, bypass_rls (h_db s) = false → 400 ≤ rsp_status (next c s).1) →
  bypass_rls (h_db s) = false →
  400 ≤ rsp_status (RequireAuth now secret req next s).1.
Proof.
  intros Hn Hb. unfold RequireAuth. destruct (String.eqb _ ""); [done|].
  destruct (VerifySessionClaims now _ secret) as [c|e]; [|done].
  pose proof (on_identity_rest (GetUser (AdminID c)) (h_db s) (GetUser_keeps _)) as (_ & B1 & _).
  destruct (on_identity (GetUser _) _) as [[u|e] c1]; [|done].
  destruct (match SessionsRevokedAt u with Some _ => _ | None => _ end); [done|].
  pose proof (on_identity_rest (GetSession (ScSessionID c)) c1 (GetSession_keeps _)) as (_ & B2 & _).
  destruct (on_identity (GetSession _) c1) as [[z|e] c2]; [|done].
  destruct (RevokedAt z); [done|].
  pose proof (on_identity_rest (TouchLastSeen (DsID z)) c2 (TouchLastSeen_keeps _)) as (_ & B3 & _).
  destruct (on_identity (TouchLastSeen _) c2) as [q c3]. apply Hn. cbn in *. congruence.
Qed.

Lemma TenantContext_refuses roles h c s :
  refused h → bypass_rls (h_db s) = false →
  400 ≤ rsp_status (TenantContext (RequireRole roles (written h)) c s).1.
Proof.
  intros Hh Hb. destruct (TenantContext _ c s) as [rsp s'] eqn:ET.
  apply TenantContext_inv in ET as (_ & _ & [(_ & _ & ->)|(role & h0 & h' & Hn & _ & _ & _ & _ & Hby & _)]); [done|].
  unfold RequireRole in Hn. cbn in Hn. case_bool_decide; [|by injection Hn as <- _].
  unfold written in Hn. destruct (Hh (WithRole role c) h0) as (e & s2 & He & H4 & _); [by rewrite Hby|].
  rewrite He in Hn. by injection Hn as <- _.
Qed.
(** Nothing of the operational tables moves. *)
Definition frozen (t : string) (b : bool) : relation core := λ d d', b = false → d' = d.
#[local] Instance frozen_preorder t b : PreOrder (frozen t b).
Proof. split; [by intros d _|]. intros d1 d2 d3 F1 F2 Hb. by rewrite (F2 Hb), (F1 Hb). Qed.

Lemma edits_frozen r c :
  edits_service r = true → h_along (core_moves frozen) (service_handler midnight add_days r c).
Proof.
  intros Hr s.
  destruct (service_handler_moves isolated (λ x _, Create_isolated x)
    (λ o _, run_service_op_isolated o) midnight add_days r c s) as (A & B & _ & _).
  split; [done|]. split; [done|].
  destruct (bypass_rls (h_db s)) eqn:Hb; [split; by intros ?|].
  destruct (service_edit_refused r Hr c s Hb) as (e & s' & -> & _ & K1 & K2 & _).
  by split; intros _.
Qed.

Lemma edit_request_frozen now secret req r s :
  edits_service r = true → bypass_rls (h_db s) = false →
  let q := serve_service midnight add_days now secret req r s in
  400 ≤ rsp_status q.1 ∧ db_core (tables (h_db q.2)) = db_core (tables (h_db s)).
Proof.
  intros Hr Hb. split.
  - apply RequireAuth_refuses; [|done]. intros c h Hh. apply TenantContext_refuses; [|done].
    by apply service_edit_refused.
  - destruct (RequireAuth_moves frozen now secret req
      (service_route midnight add_days r) s) as [(_ & _ & HR)|(c & _ & _ & _ & HR)];
      [|by apply HR|by apply HR].
    intros c h. apply (TenantContext_moves frozen). intros c'. by apply edits_frozen.
Qed.
End edits.

(** ** The list and the detail of a service *)

Section agreement.
Context `{!Driver, !Machine, !Wire}.

(** One batch for a page, taken apart by service, against one query for the
    service. *)
Lemma batch_group ids sid from now (l : list StatusInterval) :
  sid ∈ ids →
  filter (λ v, ServiceID v = sid)
    (merge_sort by_service_start (filter (λ x, overlapping ids from now x = true) l)) ≡ₚ
  merge_sort by_service_start (filter (λ x, overlapping [sid] from now x = true) l).
Proof.
  intros Hi. rewrite !merge_sort_Permutation. rewrite list_filter_filter.
  rewrite (list_filter_iff _ (λ x, overlapping [sid] from now x = true)); [done|].
  intros x. unfold overlapping. rewrite !andb_true_iff, !bool_decide_eq_true, list_elem_of_singleton.
  split; [intros [-> [[_ ?] ?]]; done|]. intros [[-> ?] ?]. by split_and!.
Qed.

(** Rows of one service of which at most one is open. *)
Lemma open_head l l' :
  l ≡ₚ l' → (∀ x y, x ∈ l → y ∈ l → EndsAt x = None → EndsAt y = None → x = y) →
  head (filter (λ x, EndsAt x = None) l) = head (filter (λ x, EndsAt x = None) l').
Proof.
  intros Hp Hu.
  assert (∀ k, k ≡ₚ l → ∀ x y, head (filter (λ x, EndsAt x = None) k) = Some x → y ∈ l →
    EndsAt y = None → x = y) as Hone.
  { intros k Hk x y Hx Hy Ey. apply head_Some_elem_of, list_elem_of_filter in Hx as [Ex Hx].
    apply Hu; [by rewrite <- Hk|done..]. }
  destruct (head (filter _ l)) as [x|] eqn:Hx.
  - pose proof (head_Some_elem_of _ _ Hx) as [Ex Hxl]%list_elem_of_filter.
    destruct (head (filter _ l')) as [y|] eqn:Hy.
    + f_equal. symmetry. by apply (Hone l' (symmetry Hp) y x Hy).
    + apply head_None in Hy. assert (x ∈ filter (λ x, EndsAt x = None) l') as Hin.
      { apply list_elem_of_filter. split; [done|]. by rewrite <- Hp. }
      rewrite Hy in Hin. by apply elem_of_nil in Hin.
  - destruct (head (filter _ l')) as [y|] eqn:Hy; [|done].
    pose proof (head_Some_elem_of _ _ Hy) as [Ey Hyl]%list_elem_of_filter.
    apply head_None in Hx. assert (y ∈ filter (λ x, EndsAt x = None) l) as Hin.
    { apply list_elem_of_filter. split; [done|]. by rewrite Hp. }
    rewrite Hx in Hin. by apply elem_of_nil in Hin.
Qed.

Lemma batch_uptime d ids sid from now :
  one_open d → sid ∈ ids →
  uptimeAndLastSeen (filter (λ v, ServiceID v = sid)
    (merge_sort by_service_start (filter (λ x, overlapping ids from now x = true) (rows d)))) from now =
  uptimeAndLastSeen
    (merge_sort by_service_start (filter (λ x, overlapping [sid] from now x = true) (rows d))) from now.
Proof.
  intros Hd Hi. unfold uptimeAndLastSeen. pose proof (batch_group ids sid from now (rows d) Hi) as Hp.
  rewrite (UptimePercent_permutation _ _ _ _ Hp). do 2 f_equal. apply open_head; [done|].
  intros x y Hx Hy Ex Ey. apply list_elem_of_filter in Hx as [Sx Hx], Hy as [Sy Hy].
  rewrite merge_sort_Permutation in Hx, Hy.
  apply list_elem_of_filter in Hx as [_ Hx], Hy as [_ Hy].
  apply elem_of_rows in Hx as [i Hx], Hy as [j Hy].
  assert (i = j) as -> by (eapply (Hd i j x y); congruence). congruence.
Qed.

(** What a read on the request's connection answers. *)
Lemma call_query {A} (f : session core → A) on_err s a s1 :
  call (P := service_payload) (query f) on_err s = (Ok a, s1) →
  a = f (retable (db_core (tables (h_db s))) (h_db s)) ∧ tables (h_db s1) = tables (h_db s) ∧
  h_ev s1 = h_ev s.
Proof.
  unfold call, call_db, on_db_core, focus. destruct (query f _) as [[b|e] s2] eqn:E; [|done].
  intros [= <- <-]. apply query_Ok_inv in E as [-> Ht]. split; [done|]. split; [|done].
  cbn. rewrite Ht. by destruct (tables (h_db s)).
Qed.

Lemma overlapping_inv ids from now s l s1 :
  overlapping_since ids from now s = (Ok l, s1) →
  l = (if bool_decide (ids = []) then []
       else merge_sort by_service_start
         (filter (λ x, overlapping ids from now x = true) (rows (iv_of (tables (h_db s)))))) ∧
  tables (h_db s1) = tables (h_db s) ∧ h_ev s1 = h_ev s.
Proof.
  unfold overlapping_since, call_db, on_intervals, focus, ListOverlapping.
  case_bool_decide; [intros [= <- <-]; split; [done|]; split; [|done]; by destruct (tables (h_db s))|].
  destruct (query _ _) as [[b|e] s2] eqn:E; [|done].
  intros [= <- <-]. apply query_Ok_inv in E as [-> Ht]. split; [done|]. split; [|done].
  cbn. rewrite Ht. by destruct (tables (h_db s)).
Qed.

Lemma list_page_inv p n s rs total s1 :
  call (P := service_payload) (Services.ListPaginated p n) internal_error s = (Ok (rs, total), s1) →
  (∀ x, x ∈ rs → ∃ r, x = page_columns (svc r) ∧ row_visible (retable (db_core (tables (h_db s))) (h_db s)) r ∧
     live r ∧ ∃ i, services (db_core (tables (h_db s))) !! i = Some r) ∧
  tables (h_db s1) = tables (h_db s) ∧ h_ev s1 = h_ev s.
Proof.
  unfold call, call_db, on_db_core, focus.
  set (c := retable (db_core (tables (h_db s))) (h_db s)).
  destruct (Services.ListPaginated p n c) as [[[rs' total']|e] s2] eqn:E; [|done].
  intros [= <- <- <-].
  assert (tables s2 = tables c ∧ ∀ x, x ∈ rs' → ∃ y, x = page_columns y ∧ y ∈ select_services any_row c)
    as [Ht Hrs].
  { unfold Services.ListPaginated in E. apply bind_Ok_inv in E as ([q t] & c1 & E1 & E2).
    apply stmt_Ok_inv in E1 as (d & Hd & Ht1 & _). cbv zeta in Hd.
    destruct (limit_offset _ _ _) as [l|] eqn:Hl; [|done]. injection Hd as <- <- <-.
    apply limit_offset_subseteq in Hl. cbn in E2.
    destruct l as [|x l]; cbn in E2.
    - apply bind_Ok_inv in E2 as (t & c2 & E3 & [= <- _ <-]). apply query_Ok_inv in E3 as [_ Ht3].
      split; [by rewrite Ht3|]. by intros x ?%elem_of_nil.
    - injection E2 as <- _ <-. split; [done|]. intros y Hy.
      change (page_columns x :: (page_columns <$> l)) with (page_columns <$> (x :: l)) in Hy.
      apply list_elem_of_fmap in Hy as (z & -> & Hz). exists z. split; [done|]. by apply Hl. }
  split; [|split; [cbn; rewrite Ht; by destruct (tables (h_db s))|done]].
  intros x Hx. apply Hrs in Hx as (y & -> & Hy). unfold select_services in Hy.
  rewrite merge_sort_Permutation in Hy. apply list_elem_of_fmap in Hy as (r & -> & Hr).
  apply list_elem_of_filter in Hr as [Hv Hr]. apply list_elem_of_fmap in Hr as ([i r'] & -> & Hi).
  apply elem_of_map_to_list in Hi. exists r'. cbn in Hv. rewrite !andb_true_iff in Hv.
  destruct Hv as [[Hv Hl] _]. split_and!; [done|by rewrite Hv|by rewrite Hl|]. by exists i.
Qed.
End agreement.

(** A service's row is keyed by its id. *)
Definition services_keyed (d : core) : Prop := ∀ i r, services d !! i = Some r → SvcID (svc r) = i.

(** ** Properties *)

(** service administration stays within the tenant, request by request.
    Whatever a sequence of requests to these routes carries, by whoever, whatever
    fails and whatever is rolled back, a tenant that is not the active one of any
    of their tokens keeps its services, integrations, incidents and timelines. *)
Theorem service_requests_isolated `{!Driver, !Machine, !Wire, !Jwt} (midnight : Z → Z)
    (add_days : Z → Z → Z) (secret : string) (l : list (Z * credentials * service_request))
    (u : string) (s : hstate) :
  bypass_rls (h_db s) = false →
  (∀ now req r c, (now, req, r) ∈ l →
     VerifySessionClaims now (request_token req) secret = Ok c → ScTenantID c ≠ u) →
  untouched u (db_core (tables (h_db s)))
    (db_core (tables (h_db (serve_services midnight add_days secret l s)))).
Proof.
  revert s. induction l as [|[[now req] r] l IH]; intros s Hb Hl; [done|]. cbn [serve_services].
  set (s1 := (serve_service midnight add_days now secret req r s).2).
  assert (∃ t, (t = "" ∨ t ≠ u) ∧ request_moves isolated t s s1) as (t & Ht & _ & Hb1 & HI).
  { destruct (serve_service_moves isolated (λ x _, Create_isolated x)
      (λ o _, run_service_op_isolated o) midnight add_days now secret req r s) as [HR|(c & Hc & HR)].
    - exists "". split; [by left|exact HR].
    - exists (ScTenantID c). split; [right|exact HR]. eapply Hl; [by left|exact Hc]. }
  etrans; [|apply (IH s1); [by rewrite Hb1|intros; eapply Hl; [by right|done]]].
  apply (isolated_untouched t); [by apply HI|]. destruct Ht as [->|Ht]; [by left|right; congruence].
Qed.

(** every service can be monitored.  Whatever requests come to these routes,
    with whatever bodies and whatever fails, every service there is is either in
    polling mode with one of the three poll types, a target whose form
    internal/checks accepts and an interval of 30, 60 or 300 seconds, or is linked
    to an SLO by a non-empty id. *)
Theorem services_monitored `{!Driver, !Machine, !Wire, !Jwt} (midnight : Z → Z)
    (add_days : Z → Z → Z) (secret : string) (l : list (Z * credentials * service_request))
    (s : hstate) :
  monitored (db_core (tables (h_db s))) →
  monitored (db_core (tables (h_db (serve_services midnight add_days secret l s)))).
Proof.
  revert s. induction l as [|[[now req] r] l IH]; intros s Hd; [done|]. cbn [serve_services].
  apply IH. destruct (serve_service_moves monitored_kept monitored_Create monitored_op midnight add_days
    now secret req r s) as [(_ & _ & HR)|(c & _ & _ & _ & HR)]; by apply HR.
Qed.

(** renaming and deleting a service never works under row-level security.  For
    every PATCH and DELETE of a service, by whoever, in whatever state, the answer
    is an error and no table of services, pages or incidents has changed: both
    repository methods open a transaction of their own, which has no tenant. *)
Theorem service_edits_refused `{!Driver, !Machine, !Wire, !Jwt} (midnight : Z → Z)
    (add_days : Z → Z → Z) (now : Z) (secret : string) (req : credentials) (r : service_request)
    (s : hstate) :
  edits_service r = true → bypass_rls (h_db s) = false →
  let q := serve_service midnight add_days now secret req r s in
  400 ≤ rsp_status q.1 ∧ db_core (tables (h_db q.2)) = db_core (tables (h_db s)).
Proof. apply edit_request_frozen. Qed.

(** the list and the detail tell the same of a service.  Where both answer 200
    on the same state, the service's entry in the list, whose uptime and last
    check were taken from one batch read of the page, is the one the detail shows
    from a read of its own. *)
Theorem list_and_detail_agree `{!Driver, !Machine, !Wire} (midnight : Z → Z) (add_days : Z → Z → Z)
    (page id : string) (c : rctx) (s s1 s2 : hstate) (l : Page serviceResponse)
    (d : serviceDetailResponse) :
  services_keyed (db_core (tables (h_db s))) → one_open (iv_of (tables (h_db s))) →
  ListServices add_days page c s = (Ok (service_answer StatusOK (ServicesJson l)), s1) →
  GetService midnight add_days id c s = (Ok (service_answer StatusOK (DetailJson d)), s2) →
  ∀ x, x ∈ Items l → SrID x = id → x = SdService d.
Proof.
  intros Hk Ho HL HG x Hx Hid.
  unfold ListServices in HL. cbv zeta in HL.
  apply bind_Ok_inv in HL as ([rs total] & a1 & L1 & HL). apply list_page_inv in L1 as (Hrs & T1 & E1).
  apply bind_Ok_inv in HL as (now & a2 & L2 & HL). injection L2 as <- <-.
  apply bind_Ok_inv in HL as (ov & a3 & L3 & HL). apply overlapping_inv in L3 as (Hov & _ & _).
  injection HL as <- _. cbn [Items] in Hx. apply list_elem_of_fmap in Hx as (y & -> & Hy).
  destruct (Hrs y Hy) as (r & -> & Hv & Hl & i & Hi).
  assert (SvcID (svc r) = i) as Ei by by apply Hk.
  assert (i = id) as -> by (rewrite <- Ei; exact Hid). clear Hid.
  unfold GetService in HG. cbv zeta in HG.
  apply bind_Ok_inv in HG as (found & b1 & G1 & HG). apply call_query in G1 as (Hf & U1 & F1).
  cbn in Hf. rewrite Hi in Hf. rewrite (Is_true_true_1 _ Hv), (Is_true_true_1 _ Hl) in Hf.
  cbn in Hf. subst found.
  apply bind_Ok_inv in HG as (now & b2 & G2 & HG). injection G2 as <- <-.
  apply bind_Ok_inv in HG as (ov1 & b3 & G3 & HG). apply overlapping_inv in G3 as (Hov1 & _ & _).
  destruct (uptimeAndLastSeen ov1 _ _) as [up seen] eqn:Eu.
  apply bind_Ok_inv in HG as (n & b4 & _ & HG). apply bind_Ok_inv in HG as (ov2 & b5 & _ & HG).
  injection HG as <- _. cbn [SdService].
  cbn [h_db bump_h_ev] in Hov, Hov1. rewrite E1, T1 in Hov. rewrite F1, U1 in Hov1.
  rewrite F1 in Eu. cbn [SvcID page_columns]. rewrite Ei, E1.
  rewrite bool_decide_eq_false_2 in Hov by (intros Hn; apply fmap_nil_inv in Hn; by subst rs; apply elem_of_nil in Hy).
  rewrite bool_decide_eq_false_2 in Hov1 by done.
  assert (id ∈ SvcID <$> rs) as Hin.
  { apply list_elem_of_fmap. exists (page_columns (svc r)). split; [by rewrite <- Ei|done]. }
  pose proof (batch_uptime (iv_of (tables (h_db s))) (SvcID <$> rs) id
    (add_days (time_Now (h_ev s)) (- servicesUptimeWindowDays)) (time_Now (h_ev s)) Ho Hin) as Hbu.
  rewrite <- Hov, <- Hov1, Eu in Hbu. injection Hbu as -> ->. reflexivity.
Qed.

(** ** Examples and witnesses *)

Section demo.
#[local] Existing Instance reliable.
#[local] Existing Instance demo_machine.
#[local] Existing Instance demo_jwt.
#[local] Existing Instance demo_wire.

Definition demo_midnight (t : Z) : Z := t - t mod (24 * hour).
Definition demo_add_days (t n : Z) : Z := t + n * (24 * hour).
Abbreviation serve_demo := (serve_services demo_midnight demo_add_days "secret") (only parsing).

(** Tenant A's and tenant B's services, asked for by tenant A's owner. *)
Definition owner_identity : identity :=
  set_memberships (λ _, {[("user-1", "tenant-a") := {| MbRole := RoleOwner; MbCreatedAt := 0 |}]})
    demo_identity.
Definition services_state : hstate := demo_hstate owner_identity demo_core.
Definition as_owner (r : service_request) : Z * credentials * service_request :=
  (5, demo_credentials, r).
Definition polled (ty target : string) (interval : Z) : createServiceRequest :=
  {| CsrName := "ping"; CsrSLOID := ""; CsrSLOName := ""; CsrSLOType := "";
     CsrDatadogServiceTag := ""; CsrEnvironment := ""; CsrMonitorMode := "polling";
     CsrPollType := ty; CsrPollTarget := target; CsrPollIntervalSeconds := interval |}.
Definition answer_of (r : service_request) : response service_payload :=
  (serve_service demo_midnight demo_add_days 5 "secret" demo_credentials r services_state).1.

(** A polled service is registered; loopback, a bad form and an odd interval are not. *)
Example registered :
  (λ q, rsp_status (answer_of (PostService (Some q)))) <$>
    [polled PollTypeTCP "93.184.216.34:443" 60; polled PollTypeTCP "127.0.0.1:443" 60;
     polled PollTypeTCP "93.184.216.34" 60; polled PollTypePing "93.184.216.34" 45;
     polled "udp" "93.184.216.34:53" 60] =
  [201; 422; 422; 422; 422].
Proof. vm_compute. reflexivity. Qed.

Definition service_requests_demo : list (Z * credentials * service_request) :=
  as_owner <$> [PostService (Some (polled PollTypePing "93.184.216.34" 300)); GetServices "1";
                PatchService "svc-b" (Some {| UsrName := "mine"; UsrSLOType := None;
                  UsrDatadogServiceTag := None; UsrEnvironment := None |});
                DeleteServiceByID "svc-b"].

Lemma service_requests_isolated_witness :
  services (db_core (tables (h_db (serve_demo service_requests_demo services_state)))) !! "svc-b" =
  Some demo_other_row.
Proof.
  destruct (service_requests_isolated demo_midnight demo_add_days "secret" service_requests_demo
    "tenant-b" services_state) as [Hs _ _ _].
  - reflexivity.
  - assert (VerifySessionClaims 5 (request_token demo_credentials) "secret" =
      Ok {| AdminID := "user-1"; ScIssuedAt := 0; ScTenantID := "tenant-a"; ScSessionID := "sid-1" |})
      as Hv by (vm_compute; reflexivity).
    intros now req r c Hin Hc. apply list_elem_of_fmap in Hin as (q & [= -> -> ->] & _).
    rewrite Hv in Hc. injection Hc as <-. discriminate.
  - apply (proj1 (Hs "svc-b" demo_other_row eq_refl)). reflexivity.
Defined.

Lemma services_monitored_witness :
  monitored (db_core (tables (h_db (serve_demo service_requests_demo services_state)))).
Proof.
  apply (services_monitored demo_midnight demo_add_days "secret" service_requests_demo services_state).
  intros i r Hi. cbn in Hi.
  apply lookup_insert_Some in Hi as [[_ <-]|[_ Hi]]; [discriminate|].
  apply lookup_insert_Some in Hi as [[_ <-]|[_ Hi]]; [discriminate|].
  by rewrite lookup_empty in Hi.
Defined.

Lemma service_edits_refused_witness :
  answer_of (DeleteServiceByID "svc-a") = service_not_found ∧
  400 ≤ rsp_status (answer_of (DeleteServiceByID "svc-a")).
Proof.
  split; [vm_compute; reflexivity|].
  apply (service_edits_refused demo_midnight demo_add_days 5 "secret" demo_credentials
    (DeleteServiceByID "svc-a") services_state); reflexivity.
Defined.
(** Tenant A's transaction, its service watched since the second hour. *)
Definition watched : database :=
  {| db_identity := owner_identity; db_core := set_services (λ _, {["svc-a" := demo_row]}) demo_core;
     db_intervals := {["iv-1" := {| IvID := "iv-1"; ServiceID := "svc-a"; Status := "operational";
       StartsAt := 2 * hour; EndsAt := None; LastSeenAt := 3 * hour; ErrorBudgetRemaining := 0%float;
       Analysis := None |}]};
     db_providers := empty_providers |}.
Definition watched_state : hstate :=
  HState (Session watched "tenant-a" false (Some 5) false 0) [] [] [] 0 ∅ ∅ watched.
Definition owner_ctx : rctx := RCtx demo_user "tenant-a" "sid-1" (Some RoleOwner).
Definition list_answer := ListServices demo_add_days "1" owner_ctx watched_state.
Definition detail_answer := GetService demo_midnight demo_add_days "svc-a" owner_ctx watched_state.

Lemma list_and_detail_agree_witness :
  ∃ l d, list_answer.1 = Ok (service_answer StatusOK (ServicesJson l)) ∧
    detail_answer.1 = Ok (service_answer StatusOK (DetailJson d)) ∧
    length (SdHourlyBuckets d) = 24%nat ∧ Items l = [SdService d].
Proof.
  assert (∃ l, list_answer = (Ok (service_answer StatusOK (ServicesJson l)), list_answer.2) ∧
    SrID <$> Items l = ["svc-a"]) as (l & El & Hl) by (eexists; split; vm_compute; reflexivity).
  assert (∃ d, detail_answer = (Ok (service_answer StatusOK (DetailJson d)), detail_answer.2) ∧
    length (SdHourlyBuckets d) = 24%nat) as (d & Ed & Hd) by (eexists; split; vm_compute; reflexivity).
  exists l, d. split_and!; [by rewrite El|by rewrite Ed|done|].
  destruct (Items l) as [|x [|y k]] eqn:Ei; try discriminate Hl. injection Hl as Hx. f_equal.
  apply (list_and_detail_agree demo_midnight demo_add_days "1" "svc-a" owner_ctx watched_state
    _ _ l d) with (3 := El) (4 := Ed); [| |rewrite Ei; by left|exact Hx].
  - intros i r Hi. cbn in Hi. by apply lookup_singleton_Some in Hi as [<- <-].
  - intros i j x1 x2 Hi Hj _ _ _. cbn in Hi, Hj.
    apply lookup_singleton_Some in Hi as [<- _], Hj as [<- _]. reflexivity.
Defined.
End demo.
