(* ===== verification/AuthApi.v ===== *)
(** * Signing in (internal/api/auth_handler.go, sessions_handler.go)

    Login and its second factor on the public routes; the caller's own profile,
    password, two-factor enrolment, device sessions and active tenant behind the
    tenant context. *)

From stdpp Require Import numbers strings gmap list.
From Stdlib Require Import ZArith Lia.
From S2P Require Import Prelude GoNum Db Schema World Identity Secrets Auth Api Handler Accounts TwoFactor Tenants.

#[local] Open Scope Z_scope.
#[local] Open Scope go_scope.

(** internal/config's values the account handlers are built with. *)
Class Config := {
  cfg_sessionSecret : string;
  cfg_secureCookies : bool;
  cfg_masterKey : string;
  cfg_adminBaseURL : string;
  cfg_deploymentMode : string;
}.

(** ** Requests and responses *)

Record loginRequest := {
  LoginEmail : string;
  LoginPassword : string;
}.
Record verifyTwoFactorRequest := {
  VtfChallengeToken : string;
  VtfCode : string;
  VtfRecoveryCode : string;
}.
Record changePasswordRequest := {
  CprCurrent : string;
  CprNew : string;
}.
(** A pointer field of the body: None for an omitted key. *)
Record updateNotificationPreferencesRequest := {
  UnpIncidentOpened : option bool;
  UnpIncidentResolved : option bool;
  UnpWeeklyDigest : option bool;
  UnpDomainExpiring : option bool;
  UnpDomainNSDrift : option bool;
}.

Definition sessionCookieName : string := "vane_session".
Record cookie := {
  CookieName : string;
  CookieValue : string;
  CookieMaxAge : Z;
  CookieSecure : bool;
}.
Definition sessionCookie (value : string) (maxAge : Z) (secure : bool) : cookie :=
  {| CookieName := sessionCookieName; CookieValue := value; CookieMaxAge := maxAge;
     CookieSecure := secure |}.

Record meMembership := {
  MmTenantID : string;
  MmRole : string;
  MmName : string;
  MmPlanTier : string;
}.
Record meResponse := {
  MeID : string;
  MeEmail : string;
  MeName : string;
  MePhone : option string;
  MeRole : string;
  MeActiveTenantID : string;
  MeMemberships : list meMembership;
  MeTwoFactorEnabled : bool;
}.
Record notificationPreferencesResponse := {
  NpIncidentOpened : bool;
  NpIncidentResolved : bool;
  NpWeeklyDigest : bool;
  NpDomainExpiring : bool;
  NpDomainNSDrift : bool;
}.
Record SessionView := {
  SvID : string;
  SvUserAgent : option string;
  SvIP : option string;
  SvCreatedAt : Z;
  SvLastSeenAt : option Z;
  SvCurrent : bool;
}.
Record adminResponse := {
  ArID : string;
  ArEmail : string;
  ArName : string;
  ArPhone : option string;
  ArRole : string;
  ArStatus : string;
  ArExpiresAt : option Z;
  ArExpired : bool;
  ArLastAccess : option Z;
}.

(** What the account handlers answer with, a session cookie among it. *)
Inductive account_payload :=
| LoginJson (token tenantID : string) (set_cookie : cookie)
| ChallengeJson (challenge_token : string)
| MeJson (me : meResponse)
| BootstrapJson (me : meResponse) (set_cookie : cookie)
| PreferencesJson (p : notificationPreferencesResponse)
| SessionsJson (l : list SessionView)
| EnrollJson (secret otpauth_uri : string)
| RecoveryCodesJson (codes : list string)
| StatusJson (status : string)
| StatusMailJson (status : string) (email_sent : bool)
| SignupJson (status email : string) (email_sent : bool)
| AcceptedJson (email role redirect : string) (set_cookie : option cookie)
| AdminJson (a : adminResponse)
| AdminsJson (p : Page adminResponse)
| BootstrapStatusJson (bootstrapped : bool) (deployment_mode : string)
| CookieCleared (set_cookie : cookie).

Definition aresponse : Type := response account_payload.
Definition answer (status : Z) (p : account_payload) : aresponse := Response status (Json p).
Definition refuse (status : Z) (msg : string) : aresponse := Response status (ErrorBody msg).

Definition genericLoginErrorBody : string := "invalid email or password".
Definition emailNotVerifiedBody : string :=
  "email not verified, check your inbox for the verification link".
Definition noTenantAccessBody : string := "account has no tenant access".
Definition invalidTwoFactorChallengeBody : string := "invalid or expired verification".
Definition invalidCurrentPasswordBody : string := "current password is incorrect".
Definition weakPasswordBody : string := "password must be between 8 and 72 characters".
Definition alreadyEnrolledBody : string := "two-factor authentication is already enabled".
Definition invalidConfirm2FACodeBody : string := "invalid verification code".
Definition noMembershipForTenantBody : string := "no access to that tenant".

Definition writeLoginError : aresponse := refuse StatusUnauthorized genericLoginErrorBody.
Definition writeInvalidTwoFactorChallenge : aresponse :=
  refuse StatusUnauthorized invalidTwoFactorChallengeBody.

Definition twoFactorIssuer : string := "Vane".
Definition recoveryCodeCount : nat := 10.

Section handlers.
Context `{!Driver, !Jwt, !Machine, !Config}.

Abbreviation A := (Handle account_payload).

Definition set_session_cookie (token : string) : cookie :=
  sessionCookie token (SessionTTL / second) cfg_secureCookies.

(** ** Login *)

(** The memberships of the account, in a transaction that knows the user and no
    tenant; none is a refusal, exactly one is the active tenant. *)
Definition issueSessionForUser (userAgent ip : string) (user : User) : A aresponse :=
  r <- own_tx (UserID user) "" (MembershipsForUser (UserID user) (UserID user)) ;;
  memberships <- or_500 r ;;
  reject (Z.of_nat (length memberships) =? 0) (refuse StatusForbidden noTenantAccessBody) (
  let activeTenantID := match memberships with [m] => TmTenantID m | _ => "" end in
  sid <- call_id (CreateSession (UserID user) userAgent ip) internal_error ;;
  now <- ask time_Now ;;
  token <- or_500 (IssueSessionWithTenant now (UserID user) activeTenantID sid cfg_sessionSecret) ;;
  ret (answer StatusOK (LoginJson token activeTenantID (set_session_cookie token)))).

Definition issueTwoFactorChallenge (userID : string) : A aresponse :=
  jti <- call_id (CreateChallenge userID TwoFactorChallengeTTL) internal_error ;;
  now <- ask time_Now ;;
  token <- or_500 (IssueTwoFactorChallenge now userID jti.1 cfg_sessionSecret) ;;
  ret (answer StatusOK (ChallengeJson token)).

Definition second_factor_enabled (secret : option TwoFactorSecret) : bool :=
  match secret with Some x => negb (is_none (EnabledAt x)) | None => false end.

Definition Login (userAgent ip : string) (req : option loginRequest) : A aresponse :=
  match req with
  | None => fail writeLoginError
  | Some req =>
      found <- find_id (GetByEmail (LoginEmail req)) ;;
      match found with
      | None => fail writeLoginError
      | Some user =>
          reject (negb (VerifyPassword (PasswordHash user) (LoginPassword req))) writeLoginError (
          reject (is_none (EmailVerifiedAt user)) (refuse StatusForbidden emailNotVerifiedBody) (
          secret <- find_id (GetSecret (UserID user)) ;;
          if second_factor_enabled secret then issueTwoFactorChallenge (UserID user)
          else issueSessionForUser userAgent ip user))
      end
  end.

(** ** The second factor *)

(** A recovery code is consumed, a TOTP code is checked. *)
Definition check_second_factor (userID : string) (secret : TwoFactorSecret)
    (req : verifyTwoFactorRequest) : A unit :=
  if negb (String.eqb (VtfRecoveryCode req) "") then
    consumed <- call_id (ConsumeRecoveryCode userID (VtfRecoveryCode req)) internal_error ;;
    reject (negb consumed) writeInvalidTwoFactorChallenge (ret tt)
  else
    decryptedSecret <- some_or_500 (Decrypt cfg_masterKey (EncryptedSecret secret)) ;;
    now <- ask time_Now ;;
    reject (negb (ValidateTOTPCode now decryptedSecret (VtfCode req)))
      writeInvalidTwoFactorChallenge (ret tt).

Definition VerifyTwoFactor (userAgent ip : string) (req : option verifyTwoFactorRequest) :
    A aresponse :=
  match req with
  | None => fail writeInvalidTwoFactorChallenge
  | Some req =>
      reject (String.eqb (VtfChallengeToken req) "") writeInvalidTwoFactorChallenge (
      now <- ask time_Now ;;
      match VerifyTwoFactorChallenge now (VtfChallengeToken req) cfg_sessionSecret with
      | Err _ => fail writeInvalidTwoFactorChallenge
      | Ok (claimUserID, jti) =>
          found <- find_id (Lookup jti) ;;
          match found with
          | None => fail writeInvalidTwoFactorChallenge
          | Some challenge =>
              now <- ask time_Now ;;
              reject (negb (String.eqb (TfcUserID challenge) claimUserID) ||
                      negb (is_none (TfcUsedAt challenge)) || (TfcExpiresAt challenge <? now))
                writeInvalidTwoFactorChallenge (
              found <- find_id (GetSecret claimUserID) ;;
              match found with
              | None => fail writeInvalidTwoFactorChallenge
              | Some secret =>
                  reject (is_none (EnabledAt secret)) writeInvalidTwoFactorChallenge (
                  check_second_factor claimUserID secret req ;;;
                  claimed <- call_id (MarkUsed jti) internal_error ;;
                  reject (is_none claimed) writeInvalidTwoFactorChallenge (
                  user <- call_id (GetUser claimUserID) internal_error ;;
                  issueSessionForUser userAgent ip user))
              end)
          end
      end)
  end.

(** ** The caller's profile *)

Definition me_membership (m : TenantMembership) : meMembership :=
  {| MmTenantID := TmTenantID m; MmRole := TmRole m; MmName := TmName m; MmPlanTier := TmPlan m |}.
Definition me_response (c : rctx) (user : User) (l : list TenantMembership) (tf : bool) : meResponse :=
  {| MeID := UserID user; MeEmail := Email user; MeName := UserName user; MePhone := Phone user;
     MeRole := default "" (cx_role c); MeActiveTenantID := cx_tenant c;
     MeMemberships := me_membership <$> l; MeTwoFactorEnabled := tf |}.

Definition Me (c : rctx) : A aresponse :=
  let user := cx_user c in
  memberships <- call_id (MembershipsForUser (UserID user) (UserID user)) internal_error ;;
  secret <- try_id (GetSecret (UserID user)) ;;
  let twoFactorEnabled := match secret with
                          | Ok x => negb (is_none (EnabledAt x))
                          | Err _ => false
                          end in
  ret (answer StatusOK (MeJson (me_response c user memberships twoFactorEnabled))).

Definition UpdateProfile (name : option string) (c : rctx) : A aresponse :=
  let user := cx_user c in
  match name with
  | None => fail (refuse StatusUnprocessableEntity "name is required")
  | Some name =>
      reject (String.eqb name "") (refuse StatusUnprocessableEntity "name is required") (
      call_id (UpdateName (UserID user) name) internal_error ;;;
      memberships <- call_id (MembershipsForUser (UserID user) (UserID user)) internal_error ;;
      ret (answer StatusOK (MeJson (me_response c (set_user_name name user) memberships false))))
  end.

(** ** Notification preferences *)

Definition resolve_preference (stored : gmap string bool) (t : string) : bool :=
  match stored !! t with Some enabled => enabled | None => NotificationDefaultEnabled t end.
Definition resolveNotificationPreferences (stored : gmap string bool) :
    notificationPreferencesResponse :=
  {| NpIncidentOpened := resolve_preference stored NotificationTypeIncidentOpened;
     NpIncidentResolved := resolve_preference stored NotificationTypeIncidentResolved;
     NpWeeklyDigest := resolve_preference stored NotificationTypeWeeklyDigest;
     NpDomainExpiring := resolve_preference stored NotificationTypeDomainExpiring;
     NpDomainNSDrift := resolve_preference stored NotificationTypeDomainNSDrift |}.

Definition GetNotificationPreferences (c : rctx) : A aresponse :=
  stored <- call_id (GetPreferences (UserID (cx_user c))) internal_error ;;
  ret (answer StatusOK (PreferencesJson (resolveNotificationPreferences stored))).

Definition given (t : string) (o : option bool) : list (string * bool) :=
  match o with Some b => [(t, b)] | None => [] end.
Definition preference_values (req : updateNotificationPreferencesRequest) : list (string * bool) :=
  given NotificationTypeIncidentOpened (UnpIncidentOpened req) ++
  given NotificationTypeIncidentResolved (UnpIncidentResolved req) ++
  given NotificationTypeWeeklyDigest (UnpWeeklyDigest req) ++
  given NotificationTypeDomainExpiring (UnpDomainExpiring req) ++
  given NotificationTypeDomainNSDrift (UnpDomainNSDrift req).
Definition UpdateNotificationPreferences (req : option updateNotificationPreferencesRequest)
    (c : rctx) : A aresponse :=
  match req with
  | None => fail (refuse StatusUnprocessableEntity "invalid request body")
  | Some req =>
      call_id (Upsert (UserID (cx_user c)) (preference_values req)) internal_error ;;;
      stored <- call_id (GetPreferences (UserID (cx_user c))) internal_error ;;
      ret (answer StatusOK (PreferencesJson (resolveNotificationPreferences stored)))
  end.

(** ** Password *)

Definition ChangePassword (req : option changePasswordRequest) (c : rctx) : A aresponse :=
  let user := cx_user c in
  match req with
  | None => fail (refuse StatusUnauthorized invalidCurrentPasswordBody)
  | Some req =>
      reject (negb (VerifyPassword (PasswordHash user) (CprCurrent req)))
        (refuse StatusUnauthorized invalidCurrentPasswordBody) (
      reject (negb (ValidatePassword (CprNew req)))
        (refuse StatusUnprocessableEntity weakPasswordBody) (
      hashed <- ask (λ ev, HashPassword ev (CprNew req)) ;;
      newHash <- some_or_500 hashed ;;
      call_id (UpdatePasswordHash (UserID user) newHash) internal_error ;;;
      try_id (RevokeSessions (UserID user)) ;;;
      ret (answer StatusOK (StatusJson "ok"))))
  end.

(** ** Two-factor enrolment *)

Definition Enroll (c : rctx) : A aresponse :=
  let user := cx_user c in
  existing <- find_id (GetSecret (UserID user)) ;;
  reject (second_factor_enabled existing) (refuse StatusConflict alreadyEnrolledBody) (
  generated <- ask (λ ev, GenerateTOTPSecret ev (Email user) twoFactorIssuer) ;;
  p <- some_or_500 generated ;;
  sealed <- ask (λ ev, Encrypt ev cfg_masterKey p.1) ;;
  encryptedSecret <- some_or_500 sealed ;;
  call_id (CreatePendingSecret (UserID user) encryptedSecret) internal_error ;;;
  ret (answer StatusOK (EnrollJson p.1 p.2))).

(** The codes and their hashes. *)
Fixpoint recovery_batch (n : nat) : A (list (string * string)) :=
  match n with
  | O => ret []
  | S n =>
      generated <- ask generateRecoveryCode ;;
      code <- some_or_500 generated ;;
      hashed <- ask (λ ev, HashPassword ev code) ;;
      hash <- some_or_500 hashed ;;
      rest <- recovery_batch n ;;
      ret ((code, hash) :: rest)
  end.

Definition Confirm2FA (code : option string) (c : rctx) : A aresponse :=
  let user := cx_user c in
  match code with
  | None => fail (refuse StatusUnprocessableEntity invalidConfirm2FACodeBody)
  | Some code =>
      found <- find_id (GetSecret (UserID user)) ;;
      match found with
      | None => fail (refuse StatusUnprocessableEntity invalidConfirm2FACodeBody)
      | Some pending =>
          secret <- some_or_500 (Decrypt cfg_masterKey (EncryptedSecret pending)) ;;
          now <- ask time_Now ;;
          reject (negb (ValidateTOTPCode now secret code))
            (refuse StatusUnprocessableEntity invalidConfirm2FACodeBody) (
          call_id (ConfirmSecret (UserID user)) internal_error ;;;
          batch <- recovery_batch recoveryCodeCount ;;
          call_own (on_identity (CreateRecoveryCodes (UserID user) (snd <$> batch))) internal_error ;;;
          ret (answer StatusOK (RecoveryCodesJson (fst <$> batch))))
      end
  end.

Definition Disable2FA (current : option string) (c : rctx) : A aresponse :=
  let user := cx_user c in
  match current with
  | None => fail (refuse StatusUnauthorized invalidCurrentPasswordBody)
  | Some current =>
      reject (negb (VerifyPassword (PasswordHash user) current))
        (refuse StatusUnauthorized invalidCurrentPasswordBody) (
      call_id (DeleteSecret (UserID user)) internal_error ;;;
      call_id (DeleteRecoveryCodes (UserID user)) internal_error ;;;
      ret (answer StatusOK (StatusJson "ok")))
  end.

(** ** Sessions *)

Definition Logout (c : rctx) : A aresponse :=
  try_id (Revoke (cx_session c)) ;;;
  ret (answer StatusOK (CookieCleared (sessionCookie "" (-1) cfg_secureCookies))).

Definition SwitchTenant (tenantID : option string) (c : rctx) : A aresponse :=
  let user := cx_user c in
  match tenantID with
  | None => fail (refuse StatusUnprocessableEntity "tenant_id is required")
  | Some tenantID =>
      reject (String.eqb tenantID "") (refuse StatusUnprocessableEntity "tenant_id is required") (
      memberships <- call_id (MembershipsForUser (UserID user) (UserID user)) internal_error ;;
      let hasMembership := existsb (λ m, String.eqb (TmTenantID m) tenantID) memberships in
      reject (negb hasMembership) (refuse StatusForbidden noMembershipForTenantBody) (
      now <- ask time_Now ;;
      token <- or_500 (IssueSessionWithTenant now (UserID user) tenantID (cx_session c)
                         cfg_sessionSecret) ;;
      ret (answer StatusOK (LoginJson token tenantID (set_session_cookie token)))))
  end.

Definition sessionToView (s : DeviceSession) (current : bool) : SessionView :=
  {| SvID := DsID s; SvUserAgent := UserAgent s; SvIP := IP s; SvCreatedAt := DsCreatedAt s;
     SvLastSeenAt := DsLastSeenAt s; SvCurrent := current |}.

Definition ListSessions (c : rctx) : A aresponse :=
  rows <- call_id (ListForUser (UserID (cx_user c))) internal_error ;;
  ret (answer StatusOK (SessionsJson
    ((λ s, sessionToView s (String.eqb (DsID s) (cx_session c))) <$> rows))).

Definition sessionNotFoundBody : string := "session not found".
Definition cannotRevokeCurrentSessionBody : string :=
  "cannot revoke the current session - use POST /api/auth/logout instead".

Definition RevokeSession (id : string) (c : rctx) : A aresponse :=
  reject (String.eqb id (cx_session c)) (refuse StatusConflict cannotRevokeCurrentSessionBody) (
  found <- find_id (GetByIDAndUser id (UserID (cx_user c))) ;;
  reject (is_none found) (refuse StatusNotFound sessionNotFoundBody) (
  call_id (Revoke id) internal_error ;;;
  ret (answer StatusOK (StatusJson "ok")))).
End handlers.
