(* ===== verification/AdminsApi.v ===== *)
(** * Members and invitations (internal/api/admins.go, tenant_handler.go)

    Inviting, accepting, resending and cancelling; changing a member's role,
    removing one, listing them; deleting the tenant.  Accepting is public; the
    rest is mounted behind the tenant context for owners. *)

From stdpp Require Import numbers strings gmap list sorting.
From Stdlib Require Import ZArith Lia.
From S2P Require Import Prelude GoNum Db Schema World Identity Secrets Auth Api Handler Accounts TwoFactor Tenants AuthApi.

#[local] Open Scope Z_scope.
#[local] Open Scope go_scope.

Record inviteAdminRequest := {
  IarName : string;
  IarEmail : string;
  IarPhone : string;
  IarRole : string;
}.

Definition adminInviteTTL : Z := 1 * hour.
Definition adminsPageSize : Z := 20.

Definition isValidAdminRole (role : string) : bool :=
  String.eqb role RoleOwner || String.eqb role RoleOperator || String.eqb role RoleViewer.

Definition invalidInviteAdminRequestBody : string :=
  "name and email are required, and role must be one of owner, operator, viewer".
Definition adminAlreadyActiveBody : string := "an active admin already exists for this email".
Definition invalidPhoneBody : string := "phone is invalid".
Definition acceptInviteErrorBody : string := "invalid or expired invite token".
Definition invalidAcceptInviteRequestBody : string := "password is required".
Definition inviteNotFoundBody : string := "invite not found".
Definition invalidUpdateAdminRoleRequestBody : string :=
  "role must be one of owner, operator, viewer".
Definition adminNotFoundBody : string := "admin not found".
Definition adminLockoutBody : string := "this action would leave zero active owners".
Definition lastActiveTenantResponseBody : string :=
  "this is your only active account - it cannot be deleted".

Section handlers.
Context `{!Driver, !Jwt, !Machine, !Config}.

Abbreviation A := (Handle account_payload).

(** Whether the sender accepted the mail. *)
Definition send_mail (m : account_mail) : A bool :=
  λ s, let ok := mail_accepted (h_ev s) m in
       (Ok ok, bump_h_ev (if ok then add_sent m s else s)).

(** ** Invite *)

Definition sendAdminInviteEmail (inviter : User) (to role rawToken : string) : A bool :=
  tenant <- try_id Active ;;
  match tenant with
  | Err _ => ret false
  | Ok tenant =>
      send_mail (AdminInviteMail to (TenName tenant) (UserName inviter) (Email inviter) role
        (String.append (adminBaseURL cfg_adminBaseURL) (String.append "/accept-invite/" rawToken)))
  end.

(** Whether the address already is a member here; a failed lookup is a 500. *)
Definition already_member (app_user email tenantID : string) : A bool :=
  existing <- find_id (GetByEmail email) ;;
  match existing with
  | None => ret false
  | Some u =>
      role <- find_id (GetRole app_user (UserID u) tenantID) ;;
      ret (negb (is_none role))
  end.

Definition Invite (req : option inviteAdminRequest) (c : rctx) : A aresponse :=
  let actor := cx_user c in
  let tenantID := cx_tenant c in
  match req with
  | None => fail (refuse StatusUnprocessableEntity invalidInviteAdminRequestBody)
  | Some req =>
      reject (String.eqb (IarName req) "" || String.eqb (IarEmail req) "" ||
              negb (isValidAdminRole (IarRole req)))
        (refuse StatusUnprocessableEntity invalidInviteAdminRequestBody) (
      reject (negb (ValidatePhone (IarPhone req)))
        (refuse StatusUnprocessableEntity invalidPhoneBody) (
      member <- already_member (UserID actor) (IarEmail req) tenantID ;;
      reject member (refuse StatusConflict adminAlreadyActiveBody) (
      call_id (InvalidatePendingForEmail tenantID (IarEmail req)) internal_error ;;;
      generated <- ask generateAdminInviteToken ;;
      rawToken <- some_or_500 generated ;;
      now <- ask time_Now ;;
      invite <- call_id (CreateInvite
        {| InvID := ""; InvTenantID := tenantID; InvEmail := IarEmail req; InvRole := IarRole req;
           InvName := IarName req; InvPhone := nilIfEmpty (IarPhone req);
           InvTokenHash := hashAdminInviteToken rawToken; InvInvitedByID := UserID actor;
           InvExpiresAt := time_add now adminInviteTTL; InvUsedAt := None; InvCreatedAt := 0 |})
        internal_error ;;
      emailSent <- sendAdminInviteEmail actor (IarEmail req) (IarRole req) rawToken ;;
      try_id (AuditRecord (UserID actor) (InvID invite) (IarEmail req) "invited") ;;;
      ret (answer StatusCreated (StatusMailJson "invited" emailSent)))))
  end.

(** ** AcceptInvite *)

Definition claim_token (token : string) : A TenantInvite :=
  call_id (ClaimForUse (hashAdminInviteToken token))
    (λ e, if decide (e = ErrNotFound) then refuse StatusUnauthorized acceptInviteErrorBody
          else writeInternalError).

(** The membership the invite grants, in the invite's tenant. *)
Definition join_tenant (userID : string) (claimed : TenantInvite) : A unit :=
  r <- own_tx userID (InvTenantID claimed)
         (CreateMembership userID userID (InvTenantID claimed) (InvRole claimed)) ;;
  or_500 r ;;; ret tt.

Definition acceptInviteForNewUser (userAgent ip token password : string) : A aresponse :=
  reject (String.eqb password "") (refuse StatusUnprocessableEntity invalidAcceptInviteRequestBody) (
  reject (negb (ValidatePassword password)) (refuse StatusUnprocessableEntity weakPasswordBody) (
  hashed <- ask (λ ev, HashPassword ev password) ;;
  passwordHash <- some_or_500 hashed ;;
  claimed <- claim_token token ;;
  verifiedAt <- ask time_Now ;;
  user <- call_id (CreateUser
    {| UserID := ""; Email := InvEmail claimed; PasswordHash := passwordHash;
       UserName := InvName claimed; Phone := InvPhone claimed; SessionsRevokedAt := None;
       EmailVerifiedAt := Some verifiedAt; UserCreatedAt := 0 |}) internal_error ;;
  join_tenant (UserID user) claimed ;;;
  sid <- call_id (CreateSession (UserID user) userAgent ip) internal_error ;;
  now <- ask time_Now ;;
  sessionToken <- or_500 (IssueSessionWithTenant now (UserID user) (InvTenantID claimed) sid
                            cfg_sessionSecret) ;;
  ret (answer StatusCreated (AcceptedJson (Email user) (InvRole claimed) ""
                               (Some (set_session_cookie sessionToken)))))).

Definition acceptInviteForExistingUser (token : string) (existing : User) : A aresponse :=
  claimed <- claim_token token ;;
  join_tenant (UserID existing) claimed ;;;
  ret (answer StatusCreated (AcceptedJson (Email existing) (InvRole claimed) "login" None)).

Definition AcceptInvite (userAgent ip token : string) (password : option string) : A aresponse :=
  reject (String.eqb token "") (refuse StatusUnauthorized acceptInviteErrorBody) (
  match password with
  | None => fail (refuse StatusUnprocessableEntity invalidAcceptInviteRequestBody)
  | Some password =>
      found <- find_id (GetInviteByTokenHash (hashAdminInviteToken token)) ;;
      match found with
      | None => fail (refuse StatusUnauthorized acceptInviteErrorBody)
      | Some invite =>
          now <- ask time_Now ;;
          reject (negb (is_none (InvUsedAt invite)) || (InvExpiresAt invite <? now))
            (refuse StatusUnauthorized acceptInviteErrorBody) (
          existing <- find_id (GetByEmail (InvEmail invite)) ;;
          match existing with
          | Some user => acceptInviteForExistingUser token user
          | None => acceptInviteForNewUser userAgent ip token password
          end)
      end
  end).

(** ** Resend and cancel *)

Definition invite_error (e : db_err) : aresponse :=
  if decide (e = ErrNotFound) then refuse StatusNotFound inviteNotFoundBody else writeInternalError.

Definition ResendInvite (id : string) (c : rctx) : A aresponse :=
  let actor := cx_user c in
  generated <- ask generateAdminInviteToken ;;
  rawToken <- some_or_500 generated ;;
  now <- ask time_Now ;;
  invite <- call_id (Refresh (cx_tenant c) id (hashAdminInviteToken rawToken)
                       (time_add now adminInviteTTL)) invite_error ;;
  emailSent <- sendAdminInviteEmail actor (InvEmail invite) (InvRole invite) rawToken ;;
  try_id (AuditRecord (UserID actor) (InvID invite) (InvEmail invite) "resent") ;;;
  ret (answer StatusOK (StatusMailJson "resent" emailSent)).

Definition CancelInvite (id : string) (c : rctx) : A aresponse :=
  canceledInvite <- call_id (Cancel (cx_tenant c) id) invite_error ;;
  try_id (AuditRecord (UserID (cx_user c)) id (InvEmail canceledInvite) "canceled") ;;;
  ret (answer StatusOK (StatusJson "canceled")).

(** ** Members *)

Definition member_error (e : db_err) : aresponse :=
  if decide (e = ErrNotFound) then refuse StatusNotFound adminNotFoundBody
  else if decide (e = ErrLastOwner) then refuse StatusConflict adminLockoutBody
  else writeInternalError.

(** The audit label of a member: a name, an address, nothing when the lookup
    fails. *)
Definition target_label (targetID : string) : A string :=
  u <- try_id (GetUser targetID) ;;
  ret (match u with
       | Ok u => if String.eqb (UserName u) "" then Email u else UserName u
       | Err _ => ""
       end).

Definition role_answer (targetID role : string) : adminResponse :=
  {| ArID := targetID; ArEmail := ""; ArName := ""; ArPhone := None; ArRole := role; ArStatus := "";
     ArExpiresAt := None; ArExpired := false; ArLastAccess := None |}.

Definition UpdateAdminRole (targetID : string) (role : option string) (c : rctx) : A aresponse :=
  let actor := cx_user c in
  match role with
  | None => fail (refuse StatusUnprocessableEntity invalidUpdateAdminRoleRequestBody)
  | Some role =>
      reject (negb (isValidAdminRole role))
        (refuse StatusUnprocessableEntity invalidUpdateAdminRoleRequestBody) (
      call_id (UpdateRole (UserID actor) targetID (cx_tenant c) role) member_error ;;;
      call_id (RevokeAllForUser targetID) internal_error ;;;
      targetLabel <- target_label targetID ;;
      try_id (AuditRecord (UserID actor) targetID targetLabel "role_changed") ;;;
      ret (answer StatusOK (AdminJson (role_answer targetID role))))
  end.

(** The account goes with its last membership. *)
Definition delete_orphan (targetID : string) (remaining : Z) : A unit :=
  if remaining =? 0 then
    r <- try_id (DeleteUser targetID) ;;
    match r with
    | Ok _ => ret tt
    | Err e => if decide (e = ErrNotFound) then ret tt else fail writeInternalError
    end
  else ret tt.

Definition DeleteAdmin (targetID : string) (c : rctx) : A aresponse :=
  let actor := cx_user c in
  call_id (DeleteMembership (UserID actor) targetID (cx_tenant c)) member_error ;;;
  targetLabel <- target_label targetID ;;
  call_id (RevokeAllForUser targetID) internal_error ;;;
  remaining <- call_id (CountForUser (UserID actor) targetID) internal_error ;;
  delete_orphan targetID remaining ;;;
  try_id (AuditRecord (UserID actor) targetID targetLabel "removed") ;;;
  ret (answer StatusOK (StatusJson "removed")).

(** MAX(COALESCE(last_seen_at, created_at)) over the account's sessions. *)
Definition last_access (s : session identity) (userID : string) : option Z :=
  foldr (λ x acc, Some (match acc with Some t => Z.max x t | None => x end)) None
    ((λ kv, default (DsCreatedAt kv.2) (DsLastSeenAt kv.2)) <$>
     filter (λ kv, DsUserID kv.2 = userID) (map_to_list (device_sessions (tables s)))).

Definition by_member_email (x y : adminResponse) : Prop := Is_true (text_le (ArEmail x) (ArEmail y)).
#[global] Instance by_member_email_dec : RelDecision by_member_email.
Proof. intros x y. unfold by_member_email. apply _. Defined.

Definition active_admin (s : session identity) (m : TenantMembership) : option adminResponse :=
  u ← users (tables s) !! TmUserID m;
  Some {| ArID := UserID u; ArEmail := Email u; ArName := UserName u; ArPhone := Phone u;
          ArRole := TmRole m; ArStatus := "active"; ArExpiresAt := None; ArExpired := false;
          ArLastAccess := last_access s (UserID u) |}.
Definition list_members (app_user tenantID : string) : M (session identity) db_err (list adminResponse) :=
  query (λ s, merge_sort by_member_email
    (omap (active_admin s)
       (bare_membership <$> filter (λ kv, kv.1.2 = tenantID) (seen_memberships s app_user)))).

Definition pending_admin (now : Z) (x : TenantInvite) : adminResponse :=
  {| ArID := InvID x; ArEmail := InvEmail x; ArName := InvName x; ArPhone := InvPhone x;
     ArRole := InvRole x; ArStatus := "pending"; ArExpiresAt := Some (InvExpiresAt x);
     ArExpired := InvExpiresAt x <? now; ArLastAccess := None |}.

(** One page of a list held in memory: [list[start:end]], empty past its end.
    A start that overflowed below zero would be a slice out of range. *)
Definition slice_page {T} (page size : Z) (l : list T) : option (list T) :=
  let total := Z.of_nat (length l) in
  let start := go_mul (wrap64 (page - 1)) size in
  if start <? total then
    let stop := go_add start size in
    let stop := if total <? stop then total else stop in
    if (0 <=? start) && (start <=? stop)
    then Some (take (Z.to_nat (stop - start)) (drop (Z.to_nat start) l))
    else None
  else Some [].

Definition ListAdmins (page : string) (c : rctx) : A aresponse :=
  let page := parsePage page in
  members <- call_id (list_members (UserID (cx_user c)) (cx_tenant c)) internal_error ;;
  invites <- call_id (ListInvites (cx_tenant c)) internal_error ;;
  now <- ask time_Now ;;
  let list := members ++ (pending_admin now <$> invites) in
  items <- some_or_500 (slice_page page adminsPageSize list) ;;
  ret (answer StatusOK (AdminsJson
    {| Items := items; Total := Z.of_nat (length list); PageNo := page; PageSize := adminsPageSize |})).

(** ** Deleting the tenant *)

Definition DeleteTenant (c : rctx) : A aresponse :=
  let user := cx_user c in
  let tenantID := cx_tenant c in
  reject (String.eqb tenantID "") writeUnauthorized (
  activeTenants <- call_id (MembershipsForUser (UserID user) (UserID user)) internal_error ;;
  reject (Z.of_nat (length activeTenants) <=? 1)
    (refuse StatusConflict lastActiveTenantResponseBody) (
  tenant <- try_id (GetTenant tenantID) ;;
  let name := match tenant with Ok t => TenName t | Err _ => "" end in
  call_id (SoftDeleteTenant tenantID) internal_error ;;;
  try_id (AuditRecord (UserID user) tenantID name "tenant_deleted") ;;;
  ret (answer StatusOK (StatusJson "deleted")))).
End handlers.
