(* ===== verification/SignupApi.v ===== *)
(** * Signing up (internal/api/signup_handler.go, bootstrap_handler.go, password_reset_handler.go)

    The public routes that create accounts and tenants or give one back: the
    SaaS signup with its mail verification, the first owner of a self-hosted
    instance, and the password reset, whose mail is sent by a goroutine. *)

From stdpp Require Import numbers strings gmap list.
From Stdlib Require Import ZArith Lia.
From S2P Require Import Prelude GoNum Db Schema World Identity Secrets Auth Api Handler Accounts TwoFactor Tenants AuthApi AdminsApi.

#[local] Open Scope Z_scope.
#[local] Open Scope go_scope.

Record signupRequest := {
  SgEmail : string;
  SgPassword : string;
  SgTenantName : string;
}.
Record bootstrapCreateRequest := {
  BsName : string;
  BsEmail : string;
  BsPhone : string;
  BsPassword : string;
}.
Record passwordResetConfirmBody := {
  PrcToken : string;
  PrcNewPassword : string;
}.

Definition signupVerificationTTL : Z := 1 * hour.
Definition resetTokenTTL : Z := 1 * hour.

Definition invalidSignupRequestBody : string := "email, password, and tenant_name are required".
Definition signupPendingVerificationBody : string :=
  "a signup for this email is already pending verification".
Definition verifyTokenErrorBody : string := "invalid or expired verification token".
Definition resendVerificationNotFoundBody : string := "no pending signup found for this email".
Definition alreadyVerifiedBody : string := "this email is already verified".
Definition invalidBootstrapRequestBody : string := "name, email, and password are required".
Definition alreadyBootstrappedBody : string := "already bootstrapped".
Definition resetConfirmErrorBody : string := "invalid or expired reset token".

Definition writeResetConfirmError : aresponse := refuse StatusUnauthorized resetConfirmErrorBody.

Section handlers.
Context `{!Driver, !Jwt, !Machine, !Config}.

Abbreviation A := (Handle account_payload).

(** ** Provisioning a tenant *)

(** The tenant and its owner, in the transaction of a fresh tenant id. *)
Definition provision (userID tenantID name contact : string) :
    M (session identity) db_err Tenant :=
  t <- CreateTenant tenantID name contact ;;
  CreateMembership userID userID tenantID RoleOwner ;;;
  ret t.

Definition createTenantAndOwnerMembership (userID tenantName contactEmail : string) :
    A (res db_err string) :=
  id <- try_id (query (λ s, gen_uuid (tick s))) ;;
  match id with
  | Err e => ret (Err e)
  | Ok tenantID =>
      r <- own_tx userID tenantID (provision userID tenantID tenantName contactEmail) ;;
      ret (match r with Ok _ => Ok tenantID | Err e => Err e end)
  end.

(** ** Signup *)

Definition issueAndSendVerification (userID to tenantName : string) : A bool :=
  generated <- ask generateAdminInviteToken ;;
  match generated with
  | None => ret false
  | Some rawToken =>
      now <- ask time_Now ;;
      r <- try_id (CreateVerificationToken userID (hashAdminInviteToken rawToken)
                     (time_add now signupVerificationTTL)) ;;
      match r with
      | Err _ => ret false
      | Ok _ =>
          send_mail (SignupVerificationMail to tenantName
            (String.append (adminBaseURL cfg_adminBaseURL) (String.append "/verify-email/" rawToken)))
      end
  end.

Definition signup_user (email hash : string) : User :=
  {| UserID := ""; Email := email; PasswordHash := hash; UserName := ""; Phone := None;
     SessionsRevokedAt := None; EmailVerifiedAt := None; UserCreatedAt := 0 |}.

Definition signupNewUser (req : signupRequest) : A aresponse :=
  reject (negb (ValidatePassword (SgPassword req)))
    (refuse StatusUnprocessableEntity weakPasswordBody) (
  hashed <- ask (λ ev, HashPassword ev (SgPassword req)) ;;
  hash <- some_or_500 hashed ;;
  user <- call_id (CreateUser (signup_user (SgEmail req) hash))
            (λ e, if decide (e = ErrDuplicateEmail)
                  then refuse StatusConflict signupPendingVerificationBody else writeInternalError) ;;
  r <- createTenantAndOwnerMembership (UserID user) (SgTenantName req) (SgEmail req) ;;
  or_500 r ;;;
  emailSent <- issueAndSendVerification (UserID user) (SgEmail req) (SgTenantName req) ;;
  ret (answer StatusCreated (SignupJson "pending_verification" (SgEmail req) emailSent))).

Definition signupExistingVerifiedUser (req : signupRequest) (user : User) : A aresponse :=
  r <- createTenantAndOwnerMembership (UserID user) (SgTenantName req) (SgEmail req) ;;
  or_500 r ;;;
  ret (answer StatusCreated (SignupJson "created" (Email user) false)).

Definition Signup (req : option signupRequest) : A aresponse :=
  match req with
  | None => fail (refuse StatusUnprocessableEntity invalidSignupRequestBody)
  | Some req =>
      reject (String.eqb (SgEmail req) "" || String.eqb (SgPassword req) "" ||
              String.eqb (SgTenantName req) "")
        (refuse StatusUnprocessableEntity invalidSignupRequestBody) (
      existing <- find_id (GetByEmail (SgEmail req)) ;;
      match existing with
      | None => signupNewUser req
      | Some user =>
          reject (is_none (EmailVerifiedAt user))
            (refuse StatusConflict signupPendingVerificationBody)
            (signupExistingVerifiedUser req user)
      end)
  end.

Definition Verify (token : string) : A aresponse :=
  reject (String.eqb token "") (refuse StatusUnauthorized verifyTokenErrorBody) (
  claimed <- call_id (ClaimVerification (hashAdminInviteToken token))
    (λ e, if decide (e = ErrNotFound) then refuse StatusUnauthorized verifyTokenErrorBody
          else writeInternalError) ;;
  call_id (MarkEmailVerified (EvtUserID claimed)) internal_error ;;;
  ret (answer StatusOK (StatusJson "verified"))).

Definition ResendVerification (email : option string) : A aresponse :=
  match email with
  | None => fail (refuse StatusUnprocessableEntity "email is required")
  | Some email =>
      reject (String.eqb email "") (refuse StatusUnprocessableEntity "email is required") (
      found <- find_id (GetByEmail email) ;;
      match found with
      | None => fail (refuse StatusNotFound resendVerificationNotFoundBody)
      | Some user =>
          reject (negb (is_none (EmailVerifiedAt user))) (refuse StatusConflict alreadyVerifiedBody) (
          call_id (InvalidatePendingForUser (UserID user)) internal_error ;;;
          emailSent <- issueAndSendVerification (UserID user) (Email user) "" ;;
          ret (answer StatusOK (StatusMailJson "resent" emailSent)))
      end)
  end.

(** ** Bootstrap *)

Definition BootstrapStatus : A aresponse :=
  count <- call_id CountUsers internal_error ;;
  ret (answer StatusOK (BootstrapStatusJson (0 <? count) cfg_deploymentMode)).

Definition owner_me (user : User) (tenantID : string) : meResponse :=
  {| MeID := UserID user; MeEmail := Email user; MeName := UserName user; MePhone := Phone user;
     MeRole := RoleOwner; MeActiveTenantID := tenantID;
     MeMemberships := [{| MmTenantID := tenantID; MmRole := RoleOwner; MmName := "";
                          MmPlanTier := "" |}];
     MeTwoFactorEnabled := false |}.

Definition BootstrapCreate (userAgent ip : string) (req : option bootstrapCreateRequest) :
    A aresponse :=
  match req with
  | None => fail (refuse StatusUnprocessableEntity invalidBootstrapRequestBody)
  | Some req =>
      reject (String.eqb (BsName req) "" || String.eqb (BsEmail req) "" ||
              String.eqb (BsPassword req) "")
        (refuse StatusUnprocessableEntity invalidBootstrapRequestBody) (
      reject (negb (ValidatePassword (BsPassword req)))
        (refuse StatusUnprocessableEntity weakPasswordBody) (
      reject (negb (ValidatePhone (BsPhone req)))
        (refuse StatusUnprocessableEntity invalidPhoneBody) (
      hashed <- ask (λ ev, HashPassword ev (BsPassword req)) ;;
      hash <- some_or_500 hashed ;;
      created <- call_id (BootstrapFirst
        {| UserID := ""; Email := BsEmail req; PasswordHash := hash; UserName := BsName req;
           Phone := nilIfEmpty (BsPhone req); SessionsRevokedAt := None; EmailVerifiedAt := None;
           UserCreatedAt := 0 |}) internal_error ;;
      match created with
      | None => fail (refuse StatusConflict alreadyBootstrappedBody)
      | Some user =>
          r <- createTenantAndOwnerMembership (UserID user) (BsName req) (BsEmail req) ;;
          tenantID <- or_500 r ;;
          sid <- call_id (CreateSession (UserID user) userAgent ip) internal_error ;;
          now <- ask time_Now ;;
          token <- or_500 (IssueSessionWithTenant now (UserID user) tenantID sid
                             cfg_sessionSecret) ;;
          ret (answer StatusOK (BootstrapJson (owner_me user tenantID) (set_session_cookie token)))
      end)))
  end.

(** ** Password reset *)

(** The answer never depends on the address: the rest is a goroutine. *)
Definition ResetRequest (email : option string) : A aresponse :=
  let ok := answer StatusOK (StatusJson "ok") in
  match email with
  | None => ret ok
  | Some email =>
      admin <- try_id (GetByEmail email) ;;
      match admin with
      | Err _ => ret ok
      | Ok u => λ s, (Ok ok, set_tasks (h_tasks s ++ [IssueReset (UserID u) (Email u)]) s)
      end
  end.

Definition sendPasswordResetEmail (to rawToken : string) : A unit :=
  settings <- try_id Active ;;
  match settings with
  | Err _ => ret tt
  | Ok t =>
      send_mail (PasswordResetMail to (TenName t)
        (String.append (adminBaseURL cfg_adminBaseURL) (String.append "/reset-password/" rawToken))) ;;;
      ret tt
  end.

Definition issueAndSendPasswordReset (userID to : string) : A unit :=
  generated <- ask generateResetToken ;;
  match generated with
  | None => ret tt
  | Some rawToken =>
      now <- ask time_Now ;;
      r <- try_id (CreateResetToken userID (hashResetToken rawToken) (time_add now resetTokenTTL)) ;;
      match r with
      | Err _ => ret tt
      | Ok _ => sendPasswordResetEmail to rawToken
      end
  end.

(** The goroutine started first runs. *)
Definition run_task (s : hstate) : hstate :=
  match h_tasks s with
  | [] => s
  | IssueReset userID to :: l => (issueAndSendPasswordReset userID to (set_tasks l s)).2
  end.

Definition ResetConfirm (body : option passwordResetConfirmBody) : A aresponse :=
  match body with
  | None => fail writeResetConfirmError
  | Some body =>
      found <- find_id (GetResetByTokenHash (hashResetToken (PrcToken body))) ;;
      match found with
      | None => fail writeResetConfirmError
      | Some resetToken =>
          now <- ask time_Now ;;
          reject (negb (is_none (PrtUsedAt resetToken)) || (PrtExpiresAt resetToken <? now))
            writeResetConfirmError (
          reject (negb (ValidatePassword (PrcNewPassword body)))
            (refuse StatusUnprocessableEntity weakPasswordBody) (
          hashed <- ask (λ ev, HashPassword ev (PrcNewPassword body)) ;;
          newHash <- some_or_500 hashed ;;
          call_id (UpdatePasswordHash (PrtUserID resetToken) newHash) internal_error ;;;
          call_id (MarkResetUsed (PrtID resetToken)) internal_error ;;;
          try_id (InvalidateOtherPending (PrtUserID resetToken) (PrtID resetToken)) ;;;
          try_id (RevokeSessions (PrtUserID resetToken)) ;;;
          ret (answer StatusOK (StatusJson "ok"))))
      end
  end.
End handlers.
