(* ===== verification/AccountApi.v ===== *)
(** * The account routes as mounted (internal/cli/routes.go)

    The public and protected routes of the account handlers, a request through
    its middleware, the goroutines between requests, and what a whole history of
    them keeps: whatever is asked and whatever fails, the identity tables only
    move along the repositories' steps and nothing else of the database moves. *)

From stdpp Require Import numbers strings gmap list relations.
From Stdlib Require Import ZArith Lia.
From S2P Require Import Prelude GoNum Db Schema World Identity Secrets Auth Accounts TwoFactor Tenants IdentitySteps Api Handler AuthApi AdminsApi SignupApi.

#[local] Open Scope Z_scope.
#[local] Open Scope go_scope.

(** ** Requests *)

Inductive public_request :=
| PostLogin (req : option loginRequest)
| PostVerifyTwoFactor (req : option verifyTwoFactorRequest)
| PostResetRequest (email : option string)
| PostResetConfirm (req : option passwordResetConfirmBody)
| PostAcceptInvite (token : string) (password : option string)
| PostSignup (req : option signupRequest)
| GetSignupVerify (token : string)
| PostResendVerification (email : option string)
| GetBootstrapStatus
| PostBootstrap (req : option bootstrapCreateRequest).

Inductive protected_request :=
| GetMe
| PatchMe (name : option string)
| GetNotifications
| PatchNotifications (req : option updateNotificationPreferencesRequest)
| PostLogout
| PostSwitchTenant (tenantID : option string)
| GetSessions
| DeleteSession (id : string)
| PostChangePassword (req : option changePasswordRequest)
| PostEnroll
| PostConfirm2FA (code : option string)
| PostDisable2FA (current : option string)
| PostAdmins (req : option inviteAdminRequest)
| GetAdmins (page : string)
| PatchAdminRole (id : string) (role : option string)
| DeleteAdminByID (id : string)
| PostInviteResend (id : string)
| DeleteInvite (id : string)
| DeleteCurrentTenant.

Definition DeploymentModeSelfHosted : string := "self_hosted".
Definition DeploymentModeSaaS : string := "saas".

(** http.NotFound *)
Definition notFound : aresponse := refuse StatusNotFound "404 page not found".

Section routes.
Context `{!Driver, !Jwt, !Machine, !Config}.

Abbreviation A := (Handle account_payload).

Definition requireSaaSMode {T} (next : T → hstate → aresponse * hstate) (c : T) (s : hstate) :
    aresponse * hstate :=
  if negb (String.eqb cfg_deploymentMode DeploymentModeSaaS) then (notFound, s) else next c s.
Definition requireSelfHostedMode {T} (next : T → hstate → aresponse * hstate) (c : T) (s : hstate) :
    aresponse * hstate :=
  if negb (String.eqb cfg_deploymentMode DeploymentModeSelfHosted) then (notFound, s) else next c s.

Definition public_handler (userAgent ip : string) (r : public_request) : A aresponse :=
  match r with
  | PostLogin req => Login userAgent ip req
  | PostVerifyTwoFactor req => VerifyTwoFactor userAgent ip req
  | PostResetRequest email => ResetRequest email
  | PostResetConfirm req => ResetConfirm req
  | PostAcceptInvite token password => AcceptInvite userAgent ip token password
  | PostSignup req => Signup req
  | GetSignupVerify token => Verify token
  | PostResendVerification email => ResendVerification email
  | GetBootstrapStatus => BootstrapStatus
  | PostBootstrap req => BootstrapCreate userAgent ip req
  end.
Definition serve_public (userAgent ip : string) (r : public_request) (s : hstate) :
    aresponse * hstate :=
  let next (_ : unit) := answered (public_handler userAgent ip r) in
  match r with
  | PostSignup _ | GetSignupVerify _ | PostResendVerification _ => requireSaaSMode next tt s
  | PostBootstrap _ => requireSelfHostedMode next tt s
  | _ => next tt s
  end.

Definition protected_handler (r : protected_request) : rctx → A aresponse :=
  match r with
  | GetMe => Me
  | PatchMe name => UpdateProfile name
  | GetNotifications => GetNotificationPreferences
  | PatchNotifications req => UpdateNotificationPreferences req
  | PostLogout => Logout
  | PostSwitchTenant tenantID => SwitchTenant tenantID
  | GetSessions => ListSessions
  | DeleteSession id => RevokeSession id
  | PostChangePassword req => ChangePassword req
  | PostEnroll => Enroll
  | PostConfirm2FA code => Confirm2FA code
  | PostDisable2FA current => Disable2FA current
  | PostAdmins req => Invite req
  | GetAdmins page => ListAdmins page
  | PatchAdminRole id role => UpdateAdminRole id role
  | DeleteAdminByID id => DeleteAdmin id
  | PostInviteResend id => ResendInvite id
  | DeleteInvite id => CancelInvite id
  | DeleteCurrentTenant => DeleteTenant
  end.

Definition ownerOnly : list string := [RoleOwner].
(** The gate of a protected route, inside the tenant context. *)
Definition protected_gate (r : protected_request) (next : handler account_payload) :
    handler account_payload :=
  match r with
  | PostAdmins _ | GetAdmins _ | PatchAdminRole _ _ | DeleteAdminByID _ | PostInviteResend _
  | DeleteInvite _ => RequireRole ownerOnly next
  | DeleteCurrentTenant => RequireRole ownerOnly (requireSaaSMode next)
  | _ => next
  end.
Definition account_route (r : protected_request) : handler account_payload :=
  TenantContext (protected_gate r (written (protected_handler r))).
Definition serve_protected (now : Z) (req : credentials) (r : protected_request) (s : hstate) :
    aresponse * hstate :=
  RequireAuth now cfg_sessionSecret req (account_route r) s.

(** What happens to the service: a request, or a turn of a goroutine. *)
Inductive account_event :=
| PublicRequest (userAgent ip : string) (r : public_request)
| ProtectedRequest (now : Z) (req : credentials) (r : protected_request)
| RunTask.
Definition account_step (e : account_event) (s : hstate) : hstate :=
  match e with
  | PublicRequest ua ip r => (serve_public ua ip r s).2
  | ProtectedRequest now req r => (serve_protected now req r s).2
  | RunTask => run_task s
  end.
Definition account_run (l : list account_event) (s : hstate) : hstate :=
  foldl (λ s e, account_step e s) s l.
End routes.

(** ** What account code can do *)

Section along_steps.
Context `{!Driver, !Jwt, !Machine, !Config}.

Definition at_db (s : session database) : nat * identity := (tick s, db_identity (tables s)).

(** The identity tables move along steps; the rest of the database and the
    incident mails stay. *)
Definition acc (s s' : hstate) : Prop :=
  rtc cstep (at_db (h_db s)) (at_db (h_db s')) ∧
  db_core (tables (h_db s')) = db_core (tables (h_db s)) ∧ h_mails s' = h_mails s.

#[global] Instance acc_preorder : PreOrder acc.
Proof.
  split; [by repeat split|]. intros s1 s2 s3 (A1 & B1 & C1) (A2 & B2 & C2).
  split_and!; [by etrans|congruence..].
Qed.

(** Handler code also leaves behind what its own transactions commit. *)
Definition own_at (s : hstate) : nat * identity := (tick (h_db s), db_identity (h_own s)).
Definition acc_in (s s' : hstate) : Prop :=
  acc s s' ∧ rtc cstep (own_at s) (own_at s') ∧ db_core (h_own s') = db_core (h_own s).

#[global] Instance acc_in_preorder : PreOrder acc_in.
Proof.
  split; [by repeat split|]. intros s1 s2 s3 (A1 & B1 & C1) (A2 & B2 & C2).
  split_and!; [by etrans|by etrans|congruence].
Qed.
(** Code that commits nothing on its own. *)
Lemma acc_same_own s s' : acc s s' → h_own s' = h_own s → acc_in s s'.
Proof.
  intros A E. split; [done|]. unfold own_at. rewrite E. split; [|done].
  destruct A as (A & _). apply cstep_tick_le in A. by apply ticks.
Qed.

Definition acts {T} (m : Handle account_payload T) : Prop := h_along acc_in m.
Lemma h_along_acc {T} (m : Handle account_payload T) : acts m → h_along acc m.
Proof. intros Hm s. apply Hm. Qed.

Lemma acts_ret {T} (a : T) : acts (ret a).
Proof. apply h_along_ret, _. Qed.
Lemma acts_fail {T} r : acts (fail r : Handle account_payload T).
Proof. apply h_along_fail, _. Qed.
Lemma acts_bind {T U} (m : Handle account_payload T) (k : T → Handle account_payload U) :
  acts m → (∀ a, acts (k a)) → acts (bind m k).
Proof. apply h_along_bind, _. Qed.
Lemma acts_reject {T} b r (k : Handle account_payload T) : acts k → acts (reject b r k).
Proof. apply h_along_reject, _. Qed.
Lemma acts_some {T} (o : option T) : acts (some_or_500 o).
Proof. apply h_along_some, _. Qed.
Lemma acts_or_500 {E T} (r : res E T) : acts (or_500 r).
Proof. apply h_along_or_500, _. Qed.
Lemma acts_if {T} (b : bool) (m k : Handle account_payload T) :
  acts m → acts k → acts (if b then m else k).
Proof. apply h_along_if. Qed.
Lemma acts_ask {T} (f : nat → T) : acts (ask f).
Proof. by intros s. Qed.
Lemma acts_send m : acts (send_mail m).
Proof. intros s. unfold send_mail. by destruct (mail_accepted _ _). Qed.

(** Identity code on a connection of the whole database. *)
Lemma on_identity_at {T} (m : M (session identity) db_err T) c r c' :
  evolves m → on_identity m c = (r, c') →
  rtc cstep (at_db c) (at_db c') ∧ db_core (tables c') = db_core (tables c).
Proof.
  intros Hm. unfold on_identity, focus. specialize (Hm (retable (db_identity (tables c)) c)).
  destruct (m _) as [q s1]. intros [= _ <-]. split; [exact Hm|done].
Qed.
Lemma acts_try {T} (m : M (session identity) db_err T) : evolves m → acts (try_id m).
Proof.
  intros Hm s. unfold try_id, try_db. destruct (on_identity m (h_db s)) as [r c] eqn:E.
  apply on_identity_at in E as [E1 E2]; [|done]. by apply acc_same_own.
Qed.
Lemma acts_call {T} (m : M (session identity) db_err T) f : evolves m → acts (call_id m f).
Proof.
  intros Hm s. unfold call_id, call_db. destruct (on_identity m (h_db s)) as [r c] eqn:E.
  apply on_identity_at in E as [E1 E2]; [|done]. destruct r; by apply acc_same_own.
Qed.
Lemma acts_find {T} (m : M (session identity) db_err T) : evolves m → acts (find_id m).
Proof.
  intros Hm. apply acts_bind; [by apply acts_try|].
  intros [a|[]]; first [apply acts_ret|apply acts_fail].
Qed.

Lemma db_BeginTenantTx_at u t (s : session database) r s' :
  BeginTenantTx u t s = (r, s') →
  tables s' = tables s ∧ (tick s ≤ tick s')%nat ∧
  match r with
  | Ok tx => tables tx = tables s ∧ (tick s ≤ tick tx)%nat
  | Err _ => True
  end.
Proof.
  unfold BeginTenantTx. intros Hr. repeat case_match; simplify_eq/=; repeat split; lia.
Qed.
Lemma own_tx_acc {T} u t (m : M (session identity) db_err T) s :
  evolves m → acc s (own_tx (P := account_payload) u t m s).2.
Proof.
  intros Hm. unfold own_tx. destruct (BeginTenantTx u t (h_db s)) as [[tx|e] pool] eqn:EB;
    apply db_BeginTenantTx_at in EB as (Ep & Hle & Htx).
  2:{ unfold acc, at_db. cbn. rewrite Ep. split; [by apply ticks|done]. }
  destruct Htx as [Et Hle']. destruct (on_identity m tx) as [r tx'] eqn:Er.
  apply on_identity_at in Er as [E1 E2]; [|done]. pose proof (cstep_tick_le _ _ E1) as Hle2.
  unfold at_db in E1, Hle2. rewrite Et in E1, E2. cbn in Hle2.
  assert (rtc cstep (at_db (h_db s)) (S (tick tx'), db_identity (tables (h_db s)))) as Hback
    by (apply ticks; lia).
  assert (rtc cstep (at_db (h_db s)) (S (tick tx'), db_identity (tables tx'))) as Hon.
  { etrans; [apply (ticks _ (tick tx)); lia|]. etrans; [exact E1|]. apply rtc_once, c_tick. }
  unfold acc. destruct r as [a|e].
  - unfold tx_commit. destruct (aborted tx'), (event_fails (tick tx')); unfold at_db; cbn;
      rewrite ?Ep; done.
  - unfold at_db. cbn. by rewrite Ep.
Qed.
Lemma acts_own_tx {T} u t (m : M (session identity) db_err T) : evolves m → acts (own_tx u t m).
Proof.
  intros Hm s. apply acc_same_own; [by apply own_tx_acc|]. unfold own_tx.
  destruct (BeginTenantTx u t (h_db s)) as [[tx|e] pool]; [|done].
  destruct (on_identity m tx) as [[a|e] tx']; [|done]. by destruct (tx_commit tx' pool).
Qed.
Lemma acts_own {T} (m : M (session identity) db_err T) f :
  evolves m → acts (call_own (on_identity m) f).
Proof.
  intros Hm s. unfold call_own. destruct (on_identity m (set_tables _ _)) as [r o] eqn:Eo.
  destruct (on_identity m (h_db s)) as [r' v] eqn:Ev. cbn [snd].
  apply on_identity_at in Eo as [O1 O2]; [|done]. apply on_identity_at in Ev as [V1 V2]; [|done].
  set (n := Nat.max (tick o) (tick v)).
  assert (rtc cstep (at_db (h_db s)) (n, db_identity (tables v))) as Vn.
  { etrans; [exact V1|]. apply ticks. unfold n. lia. }
  assert (rtc cstep (own_at s) (n, db_identity (tables o))) as On.
  { etrans; [exact O1|]. apply ticks. unfold n. lia. }
  assert (tick (h_db s) ≤ n)%nat as Hn by exact (cstep_tick_le _ _ Vn).
  destruct r as [a|e]; unfold acc_in, acc, at_db, own_at; cbn.
  - split_and!; done.
  - split_and!; try done; by apply ticks.
Qed.
End along_steps.

#[export] Hint Resolve acts_ret acts_fail acts_reject acts_some acts_or_500 acts_if acts_ask acts_send
  acts_try acts_call acts_find acts_own_tx acts_own : vane.
#[export] Hint Extern 2 (acts (bind _ _)) => apply acts_bind; [|intros ?] : vane.
#[export] Hint Extern 3 (acts (match ?x with _ => _ end)) => destruct x : vane.
#[export] Hint Extern 3 (evolves (match ?x with _ => _ end)) => destruct x : vane.

(** Handler code, statement by statement. *)
Ltac acting :=
  repeat match goal with
  | |- acts (bind _ _) => apply acts_bind; [|intros ?]
  | |- acts (reject _ _ _) => apply acts_reject
  | |- acts (match ?x with _ => _ end) => destruct x
  | |- acts _ => solve [auto with vane]
  end.

Section handlers.
Context `{!Driver, !Jwt, !Machine, !Config}.

Lemma provision_evolves u t n c : evolves (provision u t n c).
Proof. unfold provision. auto with vane. Qed.
Lemma MembershipsForUser_evolves a u : evolves (MembershipsForUser a u).
Proof. apply evolves_query. Qed.
Lemma CountForUser_evolves a u : evolves (CountForUser a u).
Proof. apply evolves_query. Qed.
#[local] Hint Resolve provision_evolves MembershipsForUser_evolves CountForUser_evolves : vane.

Lemma acts_createTenant u n c : acts (createTenantAndOwnerMembership u n c).
Proof. unfold createTenantAndOwnerMembership. acting. Qed.
Lemma acts_issueSession ua ip u : acts (issueSessionForUser ua ip u).
Proof. unfold issueSessionForUser. acting. Qed.
Lemma acts_check u x req : acts (check_second_factor u x req).
Proof. unfold check_second_factor. acting. Qed.
Lemma acts_recovery n : acts (recovery_batch n).
Proof. induction n as [|n IH]; cbn [recovery_batch]; acting. Qed.
Lemma acts_invite_mail i t r w : acts (sendAdminInviteEmail i t r w).
Proof. unfold sendAdminInviteEmail. acting. Qed.
Lemma acts_already a e t : acts (already_member a e t).
Proof. unfold already_member. acting. Qed.
Lemma acts_claim t : acts (claim_token t).
Proof. unfold claim_token. acting. Qed.
Lemma acts_join u x : acts (join_tenant u x).
Proof. unfold join_tenant. acting. Qed.
Lemma acts_label t : acts (target_label t).
Proof. unfold target_label. acting. Qed.
Lemma acts_orphan t n : acts (delete_orphan t n).
Proof. unfold delete_orphan. acting. Qed.
Lemma acts_verification u t n : acts (issueAndSendVerification u t n).
Proof. unfold issueAndSendVerification. acting. Qed.
#[local] Hint Resolve acts_createTenant acts_issueSession acts_check acts_recovery acts_invite_mail
  acts_already acts_claim acts_join acts_label acts_orphan acts_verification : vane.

Lemma acts_reset_task u t : acts (issueAndSendPasswordReset u t).
Proof. unfold issueAndSendPasswordReset, sendPasswordResetEmail. acting. Qed.

Lemma acts_public ua ip r : acts (public_handler ua ip r).
Proof.
  destruct r; cbn [public_handler];
    unfold Login, issueTwoFactorChallenge, VerifyTwoFactor, ResetRequest, ResetConfirm,
      AcceptInvite, acceptInviteForNewUser, acceptInviteForExistingUser, Signup, signupNewUser,
      signupExistingVerifiedUser, Verify, ResendVerification, BootstrapStatus, CountUsers,
      BootstrapCreate; acting.
  all: by intros ?.
Qed.

Lemma acts_protected r c : acts (protected_handler r c).
Proof.
  destruct r; cbn [protected_handler];
    unfold Me, UpdateProfile, GetNotificationPreferences, GetPreferences,
      UpdateNotificationPreferences, Logout, SwitchTenant, ListSessions, ListForUser,
      RevokeSession, ChangePassword, Enroll, Confirm2FA, Disable2FA, Invite, ListAdmins,
      UpdateAdminRole, DeleteAdmin, ResendInvite, CancelInvite, DeleteTenant, list_members,
      ListInvites; acting.
  apply acts_call, evolves_query.
Qed.

(** Every early return of a handler is an error answer. *)
Lemma early_send m : early_errors (send_mail m).
Proof. by intros ? ? ?. Qed.
#[local] Hint Resolve early_send : vane.
Lemma early_createTenant u n c : early_errors (createTenantAndOwnerMembership u n c).
Proof. unfold createTenantAndOwnerMembership. erring. Qed.
Lemma early_issueSession ua ip u : early_errors (issueSessionForUser ua ip u).
Proof. unfold issueSessionForUser. erring. Qed.
Lemma early_check u x req : early_errors (check_second_factor u x req).
Proof. unfold check_second_factor. erring. Qed.
Lemma early_claim t : early_errors (claim_token t).
Proof. unfold claim_token. erring. Qed.
Lemma early_join u x : early_errors (join_tenant u x).
Proof. unfold join_tenant. erring. Qed.
Lemma early_verification u t n : early_errors (issueAndSendVerification u t n).
Proof. unfold issueAndSendVerification. erring. Qed.
#[local] Hint Resolve early_createTenant early_issueSession early_check early_claim early_join
  early_verification : vane.
Lemma early_recovery n : early_errors (recovery_batch n).
Proof. induction n as [|n IH]; cbn [recovery_batch]; erring. Qed.
Lemma early_invite_mail i t r w : early_errors (sendAdminInviteEmail i t r w).
Proof. unfold sendAdminInviteEmail. erring. Qed.
Lemma early_already a e t : early_errors (already_member a e t).
Proof. unfold already_member. erring. Qed.
Lemma early_label t : early_errors (target_label t).
Proof. unfold target_label. erring. Qed.
Lemma early_orphan t n : early_errors (delete_orphan t n).
Proof. unfold delete_orphan. erring. Qed.
#[local] Hint Resolve early_recovery early_invite_mail early_already early_label early_orphan : vane.
Lemma early_protected r c : early_errors (protected_handler r c).
Proof.
  destruct r; cbn [protected_handler];
    unfold Me, UpdateProfile, GetNotificationPreferences, GetPreferences,
      UpdateNotificationPreferences, Logout, SwitchTenant, ListSessions, ListForUser,
      RevokeSession, ChangePassword, Enroll, Confirm2FA, Disable2FA, Invite, ListAdmins,
      UpdateAdminRole, DeleteAdmin, ResendInvite, CancelInvite, DeleteTenant, list_members,
      ListInvites; erring.
Qed.
Lemma early_public ua ip r : early_errors (public_handler ua ip r).
Proof.
  destruct r; cbn [public_handler];
    unfold Login, issueTwoFactorChallenge, VerifyTwoFactor, ResetRequest, ResetConfirm,
      AcceptInvite, acceptInviteForNewUser, acceptInviteForExistingUser, Signup, signupNewUser,
      signupExistingVerifiedUser, Verify, ResendVerification, BootstrapStatus, CountUsers,
      BootstrapCreate; erring.
  all: by intros ? ? ?.
Qed.
End handlers.

(** ** Requests and histories *)

Section requests.
Context `{!Driver, !Jwt, !Machine, !Config}.

Lemma evolves_acc {T} (m : M (session identity) db_err T) s r c :
  evolves m → on_identity m (h_db s) = (r, c) → acc s (set_h_db c s).
Proof. intros Hm E. apply on_identity_at in E as [E1 E2]; [by split|done]. Qed.

Lemma TenantContext_acc (next : handler account_payload) c s :
  (∀ c h, acc_in h (next c h).2) → acc s (TenantContext next c s).2.
Proof.
  intros Hn. unfold TenantContext. destruct (BeginTenantTx _ _ _) as [[tx|e] pool] eqn:EB;
    apply db_BeginTenantTx_at in EB as (Ep & Hle & Htx).
  2:{ unfold acc, at_db. cbn. rewrite Ep. split; [by apply ticks|done]. }
  destruct Htx as [Et Hle']. set (start := λ tx, set_h_own (tables pool) (set_h_db tx s)).
  assert (∀ h, acc_in (start tx) h →
    acc s (set_h_db (rolled_back h pool) h) ∧
    acc s (set_h_db (set_tables (tables (h_db h)) (set_tick (S (tick (h_db h))) pool)) h))
    as Hclose.
  { intros h ((E1 & E2 & E3) & O1 & O2). unfold acc, at_db, own_at in *. cbn in *.
    rewrite Et in *. rewrite Ep in *. split; (split; [|done]).
    - etrans; [apply (ticks _ (tick tx)); lia|]. etrans; [exact O1|]. apply rtc_once, c_tick.
    - etrans; [apply (ticks _ (tick tx)); lia|]. etrans; [exact E1|]. apply rtc_once, c_tick. }
  assert (∀ tx1, tables tx1 = tables tx → (tick tx ≤ tick tx1)%nat → acc_in (start tx) (start tx1)) as Hst.
  { intros tx1 E1 E2. unfold acc_in, acc, at_db, own_at. cbn. rewrite E1.
    split_and!; try done; by apply ticks. }
  assert (∀ r tx1, tables tx1 = tables tx → (tick tx ≤ tick tx1)%nat →
    acc s (let '(rsp, s1) := next (WithRole r c) (start tx1) in
      if StatusInternalServerError <=? rsp_status rsp
      then (rsp, set_h_db (rolled_back s1 pool) s1)
      else match tx_commit (h_db s1) pool with
           | (Ok _, pool) => (rsp, set_h_db pool s1)
           | (Err _, pool) => (rsp, set_h_db (rolled_back s1 pool) s1)
           end).2) as Hrun.
  { intros r tx1 E1 E2. specialize (Hn (WithRole r c) (start tx1)).
    destruct (next (WithRole r c) (start tx1)) as [rsp s1].
    cbn in Hn. destruct (Hclose s1) as [K1 K2]; [etrans; [by apply Hst|exact Hn]|].
    destruct (_ <=? _); [done|]. unfold tx_commit. destruct (aborted _); [exact K1|].
    destruct (event_fails _); [exact K1|exact K2]. }
  unfold resolve_role. destruct (String.eqb (cx_tenant c) ""); [by apply Hrun|].
  destruct (on_identity (GetRole _ _ _) tx) as [q tx1] eqn:EG. pose proof EG as EG'.
  apply on_identity_at in EG as [EG _]; [|apply GetRole_evolves]. apply cstep_tick_le in EG. cbn in EG.
  apply GetRole_inv in EG' as [EG' _].
  destruct q as [role|[]]; try by apply Hrun.
  all: unfold acc, at_db; cbn; rewrite Ep; split; [apply ticks; lia|done].
Qed.

(** A request whose tenant transaction was committed, and the state its handler
    started from. *)
Lemma TenantContext_runs (next : handler account_payload) c s rsp s' :
  (∀ role h, h_own (next (WithRole role c) h).2 = h_own h) →
  TenantContext next c s = (rsp, s') →
  tables (h_db s') = tables (h_db s) ∨
  ∃ role h h', next (WithRole role c) h = (rsp, h') ∧ tables (h_db h) = tables (h_db s) ∧
    (tick (h_db s) ≤ tick (h_db h))%nat ∧ tables (h_db s') = tables (h_db h').
Proof.
  intros Hn. unfold TenantContext. destruct (BeginTenantTx _ _ _) as [[tx|e] pool] eqn:EB;
    apply db_BeginTenantTx_at in EB as (Ep & Hle & Htx); [|intros [= _ <-]; by left].
  destruct Htx as [Et Hle']. destruct (resolve_role c tx) as [[role|e] tx1] eqn:ER.
  2:{ intros [= _ <-]. by left. }
  assert (tick tx ≤ tick tx1)%nat as Hle1.
  { unfold resolve_role in ER. destruct (String.eqb _ ""); [injection ER as _ <-; done|].
    destruct (on_identity (GetRole _ _ _) tx) as [q tx2] eqn:EG.
    apply on_identity_at in EG as [EG _]; [|apply GetRole_evolves]. apply cstep_tick_le in EG.
    destruct q as [|[]]; injection ER as _ <-; exact EG. }
  apply resolve_role_inv in ER as (Et1 & _).
  set (h := set_h_own (tables pool) (set_h_db tx1 s)).
  pose proof (Hn role h) as Ho. destruct (next (WithRole role c) h) as [rsp1 s1] eqn:EN. cbn in Ho.
  assert (tables (rolled_back s1 pool) = tables (h_db s)) as Hr by (cbn; by rewrite Ho).
  destruct (_ <=? _); [intros [= _ <-]; by left|]. unfold tx_commit.
  destruct (aborted _); [intros [= _ <-]; by left|].
  destruct (event_fails _); intros [= <- <-]; [by left|right].
  exists role, h, s1. cbn. repeat split; [done|congruence|lia].
Qed.

Lemma gate_acc r (next : handler account_payload) c h :
  (∀ c h, acc_in h (next c h).2) → acc_in h (protected_gate r next c h).2.
Proof.
  intros Hn. unfold protected_gate, RequireRole, requireSaaSMode.
  repeat (case_match; try done); apply Hn.
Qed.

Lemma serve_protected_acc now req r s : acc s (serve_protected now req r s).2.
Proof.
  unfold serve_protected, RequireAuth. destruct (String.eqb _ ""); [done|].
  destruct (VerifySessionClaims _ _ _) as [claims|]; [|done].
  destruct (on_identity (GetUser _) _) as [[u|e] c1] eqn:E1;
    (apply evolves_acc in E1; [|auto with vane]); [|exact E1].
  destruct (match SessionsRevokedAt u with Some _ => _ | None => _ end); [exact E1|].
  destruct (on_identity (GetSession _) c1) as [q c2] eqn:E2.
  apply (evolves_acc _ (set_h_db c1 s)) in E2;
    [|apply evolves_bind; [auto with vane|intros [|]; auto with vane]]. change (set_h_db c2 (set_h_db c1 s)) with (set_h_db c2 s) in E2.
  assert (acc s (set_h_db c2 s)) as E12 by (by etrans).
  destruct q as [sess|]; [|exact E12]. destruct (RevokedAt sess); [exact E12|].
  destruct (on_identity (TouchLastSeen _) c2) as [q c3] eqn:E3.
  apply (evolves_acc _ (set_h_db c2 s)) in E3; [|auto with vane].
  etrans; [exact E12|]. etrans; [exact E3|]. apply TenantContext_acc. intros c h.
  apply gate_acc. intros c' h'. apply (h_along_written acc_in), acts_protected.
Qed.

Lemma serve_public_acc ua ip r s : acc s (serve_public ua ip r s).2.
Proof.
  assert (acc s (answered (public_handler ua ip r) s).2) as Ha
    by apply (h_along_answered acc), h_along_acc, acts_public.
  unfold serve_public, requireSaaSMode, requireSelfHostedMode.
  destruct r; try exact Ha; case_match; done.
Qed.

Lemma account_step_acc e s : acc s (account_step e s).
Proof.
  destruct e; [apply serve_public_acc|apply serve_protected_acc|]. cbn. unfold run_task.
  destruct (h_tasks s) as [|[u t] l]; [done|]. apply (h_along_acc _ (acts_reset_task u t) (set_tasks l s)).
Qed.

Lemma account_run_acc l s : acc s (account_run l s).
Proof.
  revert s. induction l as [|e l IH]; intros s; cbn; [done|].
  etrans; [apply account_step_acc|apply IH].
Qed.
End requests.
