(* ===== verification/AccountDemo.v ===== *)
(** * A small service for the account examples

    A server that answers and numbers its UUIDs, the readable machine of
    Secrets, a configuration, and the requests of a first owner. *)

From stdpp Require Import numbers strings gmap list pretty.
From Stdlib Require Import ZArith Lia Ascii.
From S2P Require Import Prelude GoNum Db Schema World Identity LLMProviders Providers Secrets Auth Api Handler AuthApi AdminsApi SignupApi AccountApi.

#[local] Open Scope Z_scope.

(** The n-th UUID is u and n in decimal. *)
Definition numbered : Driver := {|
  event_fails _ := false;
  gen_uuid n := String "u"%char (pretty n);
  clock n := Z.of_nat n * second;
  text_le := String.leb;
|}.
Lemma numbered_fresh j k : @gen_uuid numbered j = @gen_uuid numbered k → j = k.
Proof. intros [= Hp]. by apply (inj pretty). Qed.

(** The same server, not answering some interactions. *)
Definition numbered_failing (l : list nat) : Driver := {|
  event_fails n := bool_decide (n ∈ l);
  gen_uuid n := String "u"%char (pretty n);
  clock n := Z.of_nat n * second;
  text_le := String.leb;
|}.

Definition self_hosted : Config := {|
  cfg_sessionSecret := "secret";
  cfg_secureCookies := true;
  cfg_masterKey := "master";
  cfg_adminBaseURL := "https://vane.example";
  cfg_deploymentMode := DeploymentModeSelfHosted;
|}.
Definition saas : Config := {|
  cfg_sessionSecret := "secret";
  cfg_secureCookies := true;
  cfg_masterKey := "master";
  cfg_adminBaseURL := "https://vane.example";
  cfg_deploymentMode := DeploymentModeSaaS;
|}.

(** An empty service, on a role that bypasses row security or not. *)
Definition blank (bypass : bool) : hstate :=
  HState (Session {| db_identity := empty_identity; db_core := empty_core; db_intervals := ∅; db_providers := empty_providers |} "" bypass None false 0)
    [] [] [] 0 ∅ ∅ {| db_identity := empty_identity; db_core := empty_core; db_intervals := ∅; db_providers := empty_providers |}.

(** The token an answer carries. *)
Definition token_of (rsp : aresponse) : string :=
  match rsp_body rsp with
  | Json (LoginJson token _ _) => token
  | Json (BootstrapJson _ c) => CookieValue c
  | Json (ChallengeJson token) => token
  | Json (AcceptedJson _ _ _ (Some c)) => CookieValue c
  | _ => ""
  end.
Definition bearer (token : string) : credentials :=
  {| Authorization := String.append "Bearer " token; SessionCookie := None |}.

Definition owner_email : string := "owner@example.com".
Definition owner_password : string := "correct horse".
Definition bootstrap : public_request :=
  PostBootstrap (Some {| BsName := "Owner"; BsEmail := owner_email; BsPhone := "";
                         BsPassword := owner_password |}).
Definition login (password : string) : public_request :=
  PostLogin (Some {| LoginEmail := owner_email; LoginPassword := password |}).

Section demo.
#[local] Existing Instance numbered.
#[local] Existing Instance demo_jwt.
#[local] Existing Instance demo_machine.
#[local] Existing Instance self_hosted.

Definition bootstrapped (bypass : bool) : aresponse * hstate :=
  serve_public "ua" "ip" bootstrap (blank bypass).
Definition owner_token : string := token_of (bootstrapped true).1.
End demo.

Example bootstrap_then_login :
  let s := (bootstrapped true).2 in
  rsp_status (bootstrapped true).1 = 200 ∧
  rsp_status (@serve_public numbered demo_jwt demo_machine self_hosted "ua" "ip"
                (login owner_password) s).1 = 200 ∧
  rsp_status (@serve_protected numbered demo_jwt demo_machine self_hosted (50 * second)
                (bearer owner_token) GetMe s).1 = 200 ∧
  rsp_status (@serve_public numbered demo_jwt demo_machine saas "ua" "ip" bootstrap s).1 = 404.
Proof. cbv zeta. split_and!; vm_compute; reflexivity. Qed.
