(* ===== verification/AccountSafety.v ===== *)
(** * What histories of account requests promise

    Statements about any sequence of requests and goroutines on a database that
    started empty ([account_run] from [fresh]): the tables stay well-formed and
    nothing else is touched, an invite admits once, a two-factor challenge opens
    one session. *)

From stdpp Require Import numbers strings gmap list relations.
From Stdlib Require Import ZArith Lia.
From S2P Require Import Prelude GoNum Db Schema World Identity Secrets Auth Accounts TwoFactor Tenants IdentitySteps IdentityInv Api Handler AuthApi AdminsApi SignupApi AccountApi AccountDemo.

#[local] Open Scope Z_scope.
#[local] Open Scope go_scope.

(** A service whose identity tables are empty. *)
Definition fresh (s : hstate) : Prop := db_identity (tables (h_db s)) = empty_identity.

Section histories.
Context `{!Driver, !Jwt, !Machine, !Config}.

Definition ids (s : hstate) : identity := db_identity (tables (h_db s)).

Lemma acc_wf s s' : acc s s' → identity_wf (ids s) → identity_wf (ids s').
Proof. intros (E1 & _). exact (cstep_wf _ _ E1). Qed.
Lemma acc_spent_invite h s s' : acc s s' → spent_invite h (ids s) → spent_invite h (ids s').
Proof. intros (E1 & _). exact (cstep_spent_invite h _ _ E1). Qed.
Lemma run_wf l s : fresh s → identity_wf (ids (account_run l s)).
Proof.
  intros Hs. eapply acc_wf; [apply account_run_acc|]. unfold ids. rewrite Hs. apply empty_wf.
Qed.
Lemma still_ids s s' : still s s' → ids s' = ids s.
Proof. unfold ids. by intros (-> & _). Qed.

(** ** Invites *)

Definition invite_spent (h : string) (s : hstate) : Prop :=
  spent_invite h (ids s) ∧ invites_ok (invites (ids s)).
Lemma invite_spent_still h s s' : still s s' → invite_spent h s → invite_spent h s'.
Proof. unfold invite_spent. by intros ->%still_ids. Qed.

(** The identity session a request's calls run on. *)
Definition idc (s : hstate) : session identity := retable (ids s) (h_db s).

Lemma call_id_refused {T} (m : M (session identity) db_err T) f s e c :
  m (idc s) = (Err e, c) → tables c = tables (idc s) → bypass_rls c = bypass_rls (idc s) →
  ∃ s', call_id m f s = (Err (f e : aresponse), s') ∧ still s s'.
Proof.
  intros E Ht Hb. unfold call_id, call_db, on_identity, focus. fold (ids s). fold (idc s).
  rewrite E. eexists. split; [done|]. repeat split; cbn; rewrite ?Ht, ?Hb; [|done].
  cbn. unfold ids. by destruct (tables (h_db s)).
Qed.

Lemma ClaimForUse_spent token c :
  spent_invite (hashAdminInviteToken token) (tables c) → invites_ok (invites (tables c)) →
  ∃ e c', ClaimForUse (hashAdminInviteToken token) c = (Err e, c') ∧ tables c' = tables c ∧
    bypass_rls c' = bypass_rls c.
Proof.
  intros Hs Hok. unfold ClaimForUse, claim_invite, bind.
  destruct (find_row (seen_invite c (λ x, by_invite_hash (hashAdminInviteToken token) x &&
      unused_invite x && (sql_now c <? InvExpiresAt x))) (invites (tables c))) as [[k x]|] eqn:Ef.
  { exfalso. apply find_row_Some in Ef as [Hk Hp]. unfold seen_invite in Hp.
    apply andb_true_iff in Hp as [_ [[Hh%String.eqb_eq Hu]%andb_true_iff _]%andb_true_iff].
    destruct (spent_invite_used _ _ _ _ Hok Hs Hk Hh) as [t Ht']. unfold unused_invite in Hu.
    by rewrite Ht' in Hu. }
  unfold stmt. destruct (aborted c); [by eexists _, _|].
  destruct (event_fails _); [by eexists _, _|]. rewrite Ef. by eexists _, _.
Qed.

Lemma claim_token_barred token : barred (invite_spent (hashAdminInviteToken token)) (claim_token token).
Proof.
  intros s [Hs Hok]. destruct (ClaimForUse_spent token (idc s) Hs Hok) as (e & c & E & Ht & Hb).
  unfold claim_token. destruct (call_id_refused _ (λ e, if decide (e = ErrNotFound)
    then refuse StatusUnauthorized acceptInviteErrorBody else writeInternalError) s e c E Ht Hb)
    as (s' & -> & Hst). exists (if decide (e = ErrNotFound)
    then refuse StatusUnauthorized acceptInviteErrorBody else writeInternalError), s'.
  split; [done|]. split; [done|]. by destruct (decide _).
Qed.

Lemma GetInviteByTokenHash_reads h : reads (GetInviteByTokenHash h).
Proof.
  apply reads_bind; [apply reads_query|]. intros row. apply reads_bind; [|intros; apply reads_ret].
  destruct row; [apply reads_ret|apply reads_fail].
Qed.
Lemma GetByEmail_reads h : reads (GetByEmail h).
Proof.
  apply reads_bind; [apply reads_query|]. intros row. apply reads_bind; [|intros; apply reads_ret].
  destruct row; [apply reads_ret|apply reads_fail].
Qed.

Lemma AcceptInvite_barred ua ip token pw :
  barred (invite_spent (hashAdminInviteToken token)) (AcceptInvite ua ip token pw).
Proof.
  set (Q := invite_spent _).
  assert (∀ {T U} (m : Handle account_payload T) (k : T → Handle account_payload U),
    quiet m → (∀ a, barred Q (k a)) → barred Q (bind m k)) as Hq.
  { intros T U m k. apply barred_quiet. intros s s'. apply invite_spent_still. }
  pose proof (claim_token_barred token) as Hclaim. fold Q in Hclaim.
  unfold AcceptInvite. apply barred_reject; [done|]. destruct pw as [pw|]; [|by apply barred_fail].
  apply Hq; [apply quiet_find, GetInviteByTokenHash_reads|]. intros [x|]; [|by apply barred_fail].
  apply Hq; [apply quiet_ask|]. intros now. apply barred_reject; [done|].
  apply Hq; [apply quiet_find, GetByEmail_reads|]. intros [u|].
  - apply barred_first, Hclaim.
  - unfold acceptInviteForNewUser. apply barred_reject; [done|]. apply barred_reject; [done|].
    apply Hq; [apply quiet_ask|]. intros h. apply Hq; [apply quiet_some|]. intros ph.
    apply barred_first, Hclaim.
Qed.

(** A claim that succeeded left the invite used. *)
Lemma claim_token_spends token :
  ensures (λ s, spent_invite (hashAdminInviteToken token) (ids s)) (claim_token token).
Proof.
  intros s x s'. unfold claim_token, call_id, call_db, on_identity, focus. fold (ids s). fold (idc s).
  destruct (ClaimForUse _ (idc s)) as [[y|e] c] eqn:E; [|done]. intros [= -> <-]. cbn.
  unfold ClaimForUse, claim_invite in E. apply bind_Ok_inv in E as (row & c1 & E1 & E2).
  apply stmt_Ok_inv in E1 as (d & Hd & Ht & _ & _).
  destruct (find_row _ _) as [[k z]|] eqn:Ef; injection Hd as <- <-; [|done]. injection E2 as <- <-.
  rewrite Ht. apply find_row_Some in Ef as [Hk Hp]. unfold seen_invite in Hp.
  apply andb_true_iff in Hp as [_ [[Hh%String.eqb_eq _]%andb_true_iff _]%andb_true_iff].
  exists k, (set_invite_used (sql_now (idc s)) z). cbn. by rewrite lookup_insert_eq.
Qed.
Lemma AcceptInvite_spends ua ip token pw :
  ensures (λ s, spent_invite (hashAdminInviteToken token) (ids s)) (AcceptInvite ua ip token pw).
Proof.
  assert (∀ s s', acc_in s s' → spent_invite (hashAdminInviteToken token) (ids s) →
    spent_invite (hashAdminInviteToken token) (ids s')) as HQ by (intros ? ? []; by eapply acc_spent_invite).
  unfold AcceptInvite. apply ensures_reject. destruct pw as [pw|]; [|apply ensures_fail].
  apply ensures_then. intros [x|]; [|apply ensures_fail]. apply ensures_then. intros now.
  apply ensures_reject. apply ensures_then. intros [u|].
  - eapply ensures_first; [exact HQ|apply claim_token_spends|]. intros y.
    change (acts (join_tenant (UserID u) y ;;; ret (answer StatusCreated
      (AcceptedJson (Email u) (InvRole y) "login" None)))).
    apply acts_bind; [apply acts_join|auto with vane].
  - unfold acceptInviteForNewUser. do 2 apply ensures_reject. do 2 (apply ensures_then; intros ?).
    eapply ensures_first; [exact HQ|apply claim_token_spends|]. intros y.
    match goal with |- h_along acc_in ?m => change (acts m) end. pose proof acts_join. acting.
Qed.

(** ** Challenges *)

Definition challenge_spent (jti : string) (s : hstate) : Prop :=
  spent_challenge jti (tick (h_db s)) (ids s).
Definition dated (s : hstate) : Prop := challenges_dated (tick (h_db s)) (ids s).

Lemma acc_dated s s' : acc s s' → dated s → dated s'.
Proof. intros (E1 & _). exact (cstep_dated _ _ E1). Qed.
Lemma run_dated l s : fresh s → dated (account_run l s).
Proof.
  intros Hs. eapply acc_dated; [apply account_run_acc|]. unfold dated, ids. rewrite Hs.
  intros i x Hx. done.
Qed.

(** Only the rows count for a refusal. *)
Definition no_unused (jti : string) (s : hstate) : Prop :=
  ∀ x, challenges (ids s) !! jti = Some x → is_Some (TfcUsedAt x).

(** A token of the code speaks for its account and challenge, whenever it is read. *)
Lemma challenge_token t userID jti secret tok now u j :
  jwt_laws → IssueTwoFactorChallenge t userID jti secret = Ok tok →
  VerifyTwoFactorChallenge now tok secret = Ok (u, j) → u = userID ∧ j = jti.
Proof.
  intros [Hr _] Hi. unfold IssueTwoFactorChallenge, issueTwoFactorChallengeWithTTL in Hi.
  destruct (jwt_sign _ _) as [tok'|] eqn:Es; [|done]. injection Hi as ->.
  unfold VerifyTwoFactorChallenge. rewrite (Hr _ _ _ now Es). cbn [ExpiresAt].
  destruct (now <? _); [|done]. cbn. destruct (_ || _); [done|]. by intros [= <- <-].
Qed.

Lemma VerifyTwoFactor_barred t userID jti ua ip req :
  jwt_laws → IssueTwoFactorChallenge t userID jti cfg_sessionSecret = Ok (VtfChallengeToken req) →
  barred (no_unused jti) (VerifyTwoFactor ua ip (Some req)).
Proof.
  intros Hj Ht. assert (∀ s s', still s s' → no_unused jti s → no_unused jti s') as HQ.
  { unfold no_unused. by intros s s' ->%still_ids. }
  unfold VerifyTwoFactor. apply barred_reject; [done|].
  apply barred_quiet; [exact HQ|apply quiet_ask|]. intros now.
  destruct (VerifyTwoFactorChallenge now _ _) as [[u j]|e] eqn:Ev; [|by apply barred_fail].
  destruct (challenge_token _ _ _ _ _ _ _ _ Hj Ht Ev) as [-> ->].
  apply (find_query (λ s, challenges (tables s) !! jti)); [exact HQ|].
  intros s Hs s' _. change (challenges (tables (retable _ _)) !! jti) with (challenges (ids s) !! jti).
  destruct (challenges (ids s) !! jti) as [x|] eqn:Ex; [|by eexists _, _].
  destruct (Hs x Ex) as [q Hq]. unfold bind, ask, reject. rewrite Hq, orb_true_r. cbn.
  eexists _, _. split; [reflexivity|]. by repeat split.
Qed.

Lemma MarkUsed_spends jti : 
  (∀ s o s', dated s → call_id (MarkUsed jti) (internal_error (P:=account_payload)) s = (Ok o, s') →
    is_Some o → challenge_spent jti s').
Proof.
  intros s o s' Hd. unfold call_id, call_db, on_identity, focus. fold (ids s). fold (idc s).
  destruct (MarkUsed jti (idc s)) as [[y|e] c] eqn:E; [|done]. intros [= -> <-] [u ->].
  apply stmt_Ok_inv in E as (d & E1 & Ht & Hk & _).
  destruct (challenges _ !! jti) as [x|] eqn:Ex; [|done]. destruct (_ && _); [|done].
  injection E1 as _ <-. unfold challenge_spent, spent_challenge, ids. cbn. rewrite Ht, Hk. cbn. split.
  - destruct (Hd jti x Ex) as (k & Hl & Ek). exists k. split; [unfold idc; cbn; lia|done].
  - intros z. rewrite lookup_insert_eq. intros [= <-]. by eexists.
Qed.

Context (uuid_fresh : ∀ j k, gen_uuid j = gen_uuid k → j = k).

Lemma acc_challenge_spent jti s s' : acc s s' → challenge_spent jti s → challenge_spent jti s'.
Proof. intros (E1 & _). exact (cstep_spent_challenge uuid_fresh jti _ _ E1). Qed.

(** A success of the second factor left its challenge spent. *)
Lemma VerifyTwoFactor_spends t userID jti ua ip req s a s' :
  jwt_laws → IssueTwoFactorChallenge t userID jti cfg_sessionSecret = Ok (VtfChallengeToken req) →
  dated s → VerifyTwoFactor ua ip (Some req) s = (Ok a, s') → challenge_spent jti s'.
Proof.
  intros Hj Ht Hd. unfold VerifyTwoFactor, reject. destruct (String.eqb _ ""); [done|].
  intros (now & s1 & E1 & E2)%bind_Ok_inv. injection E1 as <- <-.
  destruct (VerifyTwoFactorChallenge _ _ _) as [[u j]|e] eqn:Ev; [|done].
  destruct (challenge_token _ _ _ _ _ _ _ _ Hj Ht Ev) as [-> ->].
  apply bind_Ok_inv in E2 as (o1 & s2 & E1 & E2). destruct o1 as [x|]; [|done].
  pose proof (acts_find _ (Lookup_evolves jti) (bump_h_ev s)) as A1. rewrite E1 in A1.
  apply bind_Ok_inv in E2 as (now2 & s3 & E3 & E2). injection E3 as <- <-.
  destruct (_ || _ || _); [done|].
  apply bind_Ok_inv in E2 as (o2 & s4 & E3 & E2). destruct o2 as [y|]; [|done].
  pose proof (acts_find _ (GetSecret_evolves userID) (bump_h_ev s2)) as A2. rewrite E3 in A2.
  destruct (is_none (EnabledAt y)); [done|].
  apply bind_Ok_inv in E2 as ([] & s5 & E4 & E2).
  pose proof (acts_check userID y req s4) as A3. rewrite E4 in A3.
  apply bind_Ok_inv in E2 as (o3 & s6 & E5 & E2). destruct o3 as [z|]; [|done].
  assert (dated s5) as Hd5.
  { eapply acc_dated; [|exact Hd]. etrans; [apply A1|]. etrans; [apply A2|apply A3]. }
  pose proof (MarkUsed_spends jti s5 (Some z) s6 Hd5 E5 (mk_is_Some _ z eq_refl)) as Hsp.
  eapply acc_challenge_spent; [|exact Hsp].
  assert (acts (user <- call_id (GetUser userID) internal_error ;; issueSessionForUser ua ip user)) as Hr
    by (apply acts_bind; [auto with vane|intros; apply acts_issueSession]).
  cbn [is_none] in E2. specialize (Hr s6). rewrite E2 in Hr. apply Hr.
Qed.
End histories.

(** ** Properties *)

(** the account code is type safe for the schema.  Whatever requests come to
    the account routes, by whoever and in whatever order with the goroutines
    between them, and whatever fails: on a database that started empty every row
    sits under its own key, every reference names a row that is there, every role
    is one of the three, no two accounts share an address and no two invites a
    token; and no operational row and no incident mail has been touched. *)
Theorem account_requests_wf `{!Driver, !Jwt, !Machine, !Config} (l : list account_event) (s : hstate) :
  fresh s →
  let s' := account_run l s in
  identity_wf (db_identity (tables (h_db s'))) ∧
  db_core (tables (h_db s')) = db_core (tables (h_db s)) ∧ h_mails s' = h_mails s.
Proof.
  intros Hs. cbv zeta. split; [by apply run_wf|]. by destruct (account_run_acc l s) as (_ & ? & ?).
Qed.

(** C6: an invitation admits once.  After any history, once an accept of an invite
    token was answered 201, then after any further history and whatever fails,
    every other accept with the same token is refused and changes nothing: no
    account, membership or session comes out of it. *)
Theorem invite_single_use `{!Driver, !Jwt, !Machine, !Config} (l1 l2 : list account_event)
    (ua ip ua' ip' token : string) (pw pw' : option string) (s : hstate) :
  fresh s →
  let '(rsp1, s1) := serve_public ua ip (PostAcceptInvite token pw) (account_run l1 s) in
  rsp_status rsp1 = StatusCreated →
  let s2 := account_run l2 s1 in
  let '(rsp3, s3) := serve_public ua' ip' (PostAcceptInvite token pw') s2 in
  400 <= rsp_status rsp3 ∧ tables (h_db s3) = tables (h_db s2) ∧ h_sent s3 = h_sent s2.
Proof.
  intros Hs. destruct (serve_public ua ip _ (account_run l1 s)) as [rsp1 s1] eqn:E1.
  intros Hok. cbv zeta. set (s2 := account_run l2 s1).
  destruct (serve_public ua' ip' _ s2) as [rsp3 s3] eqn:E3.
  pose proof (serve_public_acc ua ip (PostAcceptInvite token pw) (account_run l1 s)) as Ha.
  rewrite E1 in Ha. cbn in E1, E3, Ha.
  assert (acc s s2) as Hacc.
  { etrans; [apply (account_run_acc l1)|]. etrans; [exact Ha|apply account_run_acc]. }
  assert (invite_spent (hashAdminInviteToken token) s2) as Hsp.
  { split; [|eapply wf_invites, acc_wf; [exact Hacc|unfold ids; rewrite Hs; apply empty_wf]].
    eapply acc_spent_invite; [apply account_run_acc|]. unfold answered in E1.
    destruct (AcceptInvite ua ip token pw (account_run l1 s)) as [[r|r] s'] eqn:EA; injection E1 as <- <-.
    - by eapply AcceptInvite_spends.
    - exfalso. revert EA Hok. intros EA%(early_public ua ip (PostAcceptInvite token pw)) Hok. rewrite Hok in EA. done. }
  destruct (barred_answered _ _ _ (AcceptInvite_barred ua' ip' token pw') Hsp) as [H4 H5].
  rewrite E3 in H4, H5. by destruct H5 as (? & _ & _ & ? & _).
Qed.

(** C7: a two-factor challenge opens one session.  With UUIDs that do not repeat and
    the signing library's laws, once a challenge token the service issued was
    answered 200 by POST /api/auth/login/verify-2fa, after any history before and
    any after, and whatever fails, the same token is refused with whatever code or
    recovery code: no session is created and no recovery code is consumed. *)
Theorem challenge_single_use `{!Driver, !Jwt, !Machine, !Config} (l1 l2 : list account_event)
    (ua ip ua' ip' userID jti : string) (t : Z) (req req' : verifyTwoFactorRequest) (s : hstate) :
  fresh s → jwt_laws → (∀ j k, gen_uuid j = gen_uuid k → j = k) →
  IssueTwoFactorChallenge t userID jti cfg_sessionSecret = Ok (VtfChallengeToken req) →
  VtfChallengeToken req' = VtfChallengeToken req →
  let '(rsp1, s1) := serve_public ua ip (PostVerifyTwoFactor (Some req)) (account_run l1 s) in
  rsp_status rsp1 = StatusOK →
  let s2 := account_run l2 s1 in
  let '(rsp3, s3) := serve_public ua' ip' (PostVerifyTwoFactor (Some req')) s2 in
  400 <= rsp_status rsp3 ∧ tables (h_db s3) = tables (h_db s2).
Proof.
  intros Hs Hj Hu Ht Hsame. destruct (serve_public ua ip _ (account_run l1 s)) as [rsp1 s1] eqn:E1.
  intros Hok. cbv zeta. set (s2 := account_run l2 s1).
  destruct (serve_public ua' ip' _ s2) as [rsp3 s3] eqn:E3. cbn [serve_public public_handler] in E1, E3.
  assert (no_unused jti s2) as Hsp.
  { assert (challenge_spent jti s1) as Hc.
    { unfold answered in E1.
      destruct (VerifyTwoFactor ua ip (Some req) (account_run l1 s)) as [[r|r] s'] eqn:EA;
        injection E1 as <- <-.
      - eapply (VerifyTwoFactor_spends Hu t userID); [done..|by apply run_dated|exact EA].
      - exfalso. revert EA Hok.
        intros EA%(early_public ua ip (PostVerifyTwoFactor (Some req))) Hok. by rewrite Hok in EA. }
    by destruct (acc_challenge_spent Hu jti s1 s2 (account_run_acc l2 s1) Hc). }
  rewrite <- Hsame in Ht.
  destruct (barred_answered _ _ _ (VerifyTwoFactor_barred t userID jti ua' ip' req' Hj Ht) Hsp)
    as [H4 H5].
  rewrite E3 in H4, H5. by destruct H5.
Qed.

(** ** Examples and witnesses *)

Section witnesses.
#[local] Existing Instance numbered.
#[local] Existing Instance demo_jwt.
#[local] Existing Instance demo_machine.
#[local] Existing Instance self_hosted.

Definition demo_history : list account_event :=
  [PublicRequest "ua" "ip" bootstrap;
   ProtectedRequest (50 * second) (bearer owner_token)
     (PostAdmins (Some {| IarName := "B"; IarEmail := "b@example.com"; IarPhone := "";
                          IarRole := RoleViewer |}));
   PublicRequest "ua" "ip" (PostResetRequest (Some owner_email)); RunTask].

Lemma account_requests_wf_witness :
  size (invites (db_identity (tables (h_db (account_run demo_history (blank true)))))) = 1%nat ∧
  identity_wf (db_identity (tables (h_db (account_run demo_history (blank true))))).
Proof.
  split; [vm_compute; reflexivity|].
  apply (account_requests_wf demo_history (blank true)). reflexivity.
Defined.

(** The token mailed to the invited address. *)
Definition demo_invite_token : string :=
  match h_sent (account_run demo_history (blank true)) with
  | AdminInviteMail _ _ _ _ _ url :: _ =>
      String.substring 35 (String.length url - 35) url
  | _ => ""
  end.

Lemma invite_single_use_witness :
  let '(rsp1, s1) := serve_public "ua" "ip" (PostAcceptInvite demo_invite_token (Some "another horse"))
                       (account_run demo_history (blank true)) in
  rsp_status rsp1 = StatusCreated ∧
  tables (h_db (serve_public "ua" "ip" (PostAcceptInvite demo_invite_token (Some "third horse"))
                  (account_run [] s1)).2) = tables (h_db s1).
Proof.
  pose proof (invite_single_use demo_history [] "ua" "ip" "ua" "ip" demo_invite_token
    (Some "another horse") (Some "third horse") (blank true) eq_refl) as Hi.
  assert (rsp_status (serve_public "ua" "ip" (PostAcceptInvite demo_invite_token (Some "another horse"))
                       (account_run demo_history (blank true))).1 = StatusCreated) as Hok
    by (vm_compute; reflexivity).
  destruct (serve_public "ua" "ip" _ (account_run demo_history (blank true))) as [rsp1 s1].
  split; [exact Hok|]. specialize (Hi Hok). cbv zeta in Hi.
  destruct (serve_public _ _ _ (account_run [] s1)) as [rsp3 s3]. destruct Hi as (_ & Ht & _).
  exact Ht.
Defined.

(** The owner enrols, confirms and starts a login. *)
Definition demo_enrolled : list account_event :=
  [PublicRequest "ua" "ip" bootstrap;
   ProtectedRequest (50 * second) (bearer owner_token) PostEnroll;
   ProtectedRequest (50 * second) (bearer owner_token) (PostConfirm2FA (Some owner_email));
   PublicRequest "ua" "ip" (login owner_password)].
Definition before_login : hstate := account_run (take 3 demo_enrolled) (blank true).
Definition demo_challenge : string :=
  token_of (serve_public "ua" "ip" (login owner_password) before_login).1.
Definition demo_user_id : string := default "" (head (fst <$> map_to_list (users (ids before_login)))).
Definition with_code (code : string) : verifyTwoFactorRequest :=
  {| VtfChallengeToken := demo_challenge; VtfCode := code; VtfRecoveryCode := "" |}.

Lemma challenge_single_use_witness :
  let '(rsp1, s1) := serve_public "ua" "ip" (PostVerifyTwoFactor (Some (with_code owner_email)))
                       (account_run demo_enrolled (blank true)) in
  rsp_status rsp1 = StatusOK ∧
  tables (h_db (serve_public "ua" "ip" (PostVerifyTwoFactor (Some (with_code owner_email)))
                  (account_run [RunTask] s1)).2) = tables (h_db (account_run [RunTask] s1)).
Proof.
  assert (IssueTwoFactorChallenge (25 * second) demo_user_id "u48" cfg_sessionSecret
          = Ok (VtfChallengeToken (with_code owner_email))) as Ht by (vm_compute; reflexivity).
  pose proof (challenge_single_use demo_enrolled [RunTask] "ua" "ip" "ua" "ip" demo_user_id "u48"
    (25 * second) (with_code owner_email) (with_code owner_email) (blank true) eq_refl
    demo_jwt_laws numbered_fresh Ht eq_refl) as Hi.
  assert (rsp_status (serve_public "ua" "ip" (PostVerifyTwoFactor (Some (with_code owner_email)))
                       (account_run demo_enrolled (blank true))).1 = StatusOK) as Hok
    by (vm_compute; reflexivity).
  destruct (serve_public "ua" "ip" _ (account_run demo_enrolled (blank true))) as [rsp1 s1].
  split; [exact Hok|]. specialize (Hi Hok). cbv zeta in Hi.
  destruct (serve_public _ _ _ (account_run [RunTask] s1)) as [rsp3 s3]. destruct Hi as (_ & Ht').
  exact Ht'.
Defined.
End witnesses.
