(* ===== verification/AccountLogin.v ===== *)
(** * Getting in

    Login: what it does not tell, when it asks for a second factor, that a login
    the service accepts opens the protected routes, and that under a role subject
    to row security nobody gets in. *)

From stdpp Require Import numbers strings gmap list sorting.
From Stdlib Require Import ZArith Lia.
From S2P Require Import Prelude GoNum GoStrings Db Schema World Identity Secrets Auth Accounts TwoFactor Tenants IdentitySteps IdentityInv Api Handler AuthApi AdminsApi SignupApi AccountApi AccountDemo AccountSafety.

#[local] Open Scope Z_scope.
#[local] Open Scope go_scope.

Lemma request_bearer tok : tok ≠ "" → request_token (bearer tok) = tok.
Proof.
  intros Hne. unfold request_token, bearerToken, bearer. cbn [Authorization].
  change (String.prefix "Bearer " (String.append "Bearer " tok)) with (String.prefix "" tok).
  change (String.length (String.append "Bearer " tok) - 7)%nat with (String.length tok - 0)%nat.
  change (String.substring 7 (String.length tok - 0) (String.append "Bearer " tok))
    with (String.substring 0 (String.length tok - 0) tok).
  rewrite Nat.sub_0_r, substring_all. assert (String.prefix "" tok = true) as -> by by destruct tok.
  by rewrite (proj2 (String.eqb_neq _ _) Hne).
Qed.

Section login.
Context `{DR : !Driver, JW : !Jwt, MA : !Machine, CF : !Config}.

(** ** Under row security *)

Lemma joined_hidden (s : session identity) kv :
  bypass_rls s = false → app_tenant s = "" → joined s kv = None.
Proof.
  intros Hb Ha. unfold joined. destruct (tenants _ !! _); [|done]. by rewrite visible_unset.
Qed.

Definition restricted (s : hstate) : Prop := bypass_rls (h_db s) = false.

(** The transaction that resolves the tenants of a user sees none of them. *)
Lemma issueSession_barred ua ip u : barred restricted (issueSessionForUser ua ip u).
Proof.
  intros s Hs. unfold issueSessionForUser, bind at 1, own_tx.
  destruct (BeginTenantTx (UserID u) "" (h_db s)) as [[tx|e] pool] eqn:EB;
    apply BeginTenantTx_inv in EB as (Et & Ea & Eb & Htx).
  2:{ cbn. eexists _, _. split; [reflexivity|]. by repeat split. }
  destruct Htx as (Et' & Ea' & Eb' & _). unfold on_identity, focus.
  set (c := retable (db_identity (tables tx)) tx).
  assert (∀ s', tables (h_db s') = tables (h_db s) → bypass_rls (h_db s') = bypass_rls (h_db s) →
    h_mails s' = h_mails s → h_sent s' = h_sent s → h_tasks s' = h_tasks s → still s s') as Hst
    by (intros; by repeat split).
  unfold MembershipsForUser. destruct (reads_query (λ s, merge_sort older_membership
    (omap (joined s) (filter (λ kv, kv.1.1 = UserID u) (seen_memberships s (UserID u))))) c) as [Ht Hb].
  destruct (query _ c) as [[l|e] c1] eqn:Eq; cbn in Ht, Hb.
  2:{ cbn. eexists _, _. split; [reflexivity|]. split; [apply Hst; cbn; congruence|done]. }
  apply query_Ok_inv in Eq as [-> _].
  assert (omap (joined c) (filter (λ kv, kv.1.1 = UserID u) (seen_memberships c (UserID u))) = [])
    as ->.
  { generalize (filter (λ kv, kv.1.1 = UserID u) (seen_memberships c (UserID u))). intros l.
    induction l as [|kv l IH]; [done|]. cbn. rewrite IH, joined_hidden; [done| |exact Ea'].
    unfold restricted in Hs. cbn. congruence. }
  unfold tx_commit. cbn [aborted retable tick].
  assert (tables (retable (set_identity (tables c1) (tables tx)) c1) = tables (h_db s)) as Hback.
  { cbn. rewrite Ht. cbn. rewrite Et'. by destruct (tables (h_db s)). }
  destruct (aborted c1), (event_fails (tick c1)); cbn; eexists _, _; (split; [reflexivity|]);
    (split; [|done]); apply Hst; cbn; try done; try congruence.
Qed.

(** The account of an address, or one failure. *)
Lemma GetByEmail_find e s :
  ∃ s', find_id (GetByEmail e) s =
    ((if aborted (h_db s) || event_fails (tick (h_db s)) then Err (writeInternalError : aresponse)
      else Ok (snd <$> find_row (by_email e) (users (ids s)))), s') ∧ still s s'.
Proof.
  destruct (quiet_find (P:=account_payload) (GetByEmail e) (GetByEmail_reads e) s) as [Hs _].
  eexists. split; [|exact Hs]. apply injective_projections; [|done]. cbn [fst].
  unfold find_id, bind at 1, try_id, try_db, on_identity, focus. fold (ids s). fold (idc s).
  unfold GetByEmail, bind at 1, query, stmt. change (aborted (idc s)) with (aborted (h_db s)).
  change (tick (idc s)) with (tick (h_db s)).
  destruct (aborted (h_db s)); [done|]. destruct (event_fails _); [done|]. cbn.
  change (tables (idc s)) with (ids s). by destruct (find_row _ _).
Qed.

Lemma find_at {T} (f : session identity → option T) s :
  ∃ s', find_id (bind (query f) (λ row, or_not_found row)) s =
    ((if aborted (h_db s) || event_fails (tick (h_db s)) then Err (writeInternalError : aresponse)
      else Ok (f (idc s))), s') ∧ still s s'.
Proof.
  assert (quiet (P:=account_payload) (find_id (bind (query f) (λ row, or_not_found row)))) as Hq.
  { apply quiet_find, reads_bind; [apply reads_query|]. intros [x|]; [apply reads_ret|apply reads_fail]. }
  destruct (Hq s) as [Hs _]. eexists. split; [|exact Hs]. apply injective_projections; [|done].
  cbn [fst]. unfold find_id, bind at 1, try_id, try_db, on_identity, focus. fold (ids s). fold (idc s).
  unfold bind at 1, query, stmt. change (aborted (idc s)) with (aborted (h_db s)).
  change (tick (idc s)) with (tick (h_db s)).
  destruct (aborted (h_db s)); [done|]. destruct (event_fails _); [done|]. cbn. by destruct (f (idc s)).
Qed.

Lemma challenge_sessions u (s : hstate) :
  device_sessions (ids (issueTwoFactorChallenge u s).2) = device_sessions (ids s) ∧
  match (issueTwoFactorChallenge u s).1 with
  | Ok r => ∃ tok, r = answer StatusOK (ChallengeJson tok)
  | Err r => 400 <= rsp_status r
  end.
Proof.
  destruct (call_id (P:=account_payload) (CreateChallenge u TwoFactorChallengeTTL) internal_error s)
    as [r s1] eqn:E.
  assert (device_sessions (ids s1) = device_sessions (ids s) ∧
          ∀ e, r = Err e → e = writeInternalError) as [Hd Hr].
  { unfold call_id, call_db, on_identity, focus in E. fold (ids s) in E. fold (idc s) in E.
    destruct (CreateChallenge u _ (idc s)) as [q c] eqn:Eq.
    assert (device_sessions (tables c) = device_sessions (ids s)) as Hd.
    { apply stmt_inv in Eq as [(e & _ & Et)|(a & d & Hd & _ & ->)]; [by rewrite Et|].
      cbv zeta in Hd. revert Hd. by repeat case_match; intros [= <- <-]. }
    destruct q; injection E as <- <-; split; try exact Hd; [done|]. by intros e' [= <-]. }
  unfold issueTwoFactorChallenge, bind. rewrite E. destruct r as [p|e].
  - unfold ask. destruct (IssueTwoFactorChallenge _ _ _ _); cbn; (split; [exact Hd|]); [by eexists|done].
  - cbn. split; [exact Hd|]. by rewrite (Hr e eq_refl).
Qed.

(** How far a login gets without writing. *)
Lemma Login_outcome ua ip email pw s :
  ∃ s', still s s' ∧
    ((∃ e, Login ua ip (Some {| LoginEmail := email; LoginPassword := pw |}) s = (Err e, s') ∧
       400 <= rsp_status e) ∨
     ∃ i x, users (ids s) !! i = Some x ∧ Email x = email ∧
       Login ua ip (Some {| LoginEmail := email; LoginPassword := pw |}) s =
         (if second_factor_enabled (two_factor_secrets (ids s) !! UserID x)
          then issueTwoFactorChallenge (UserID x) else issueSessionForUser ua ip x) s').
Proof.
  unfold Login. cbn [LoginEmail LoginPassword].
  destruct (GetByEmail_find email s) as (s1 & E & Hst). rewrite (bind_run _ _ _ _ _ E).
  destruct (aborted (h_db s) || _); [exists s1; split; [done|left; by eexists]|].
  destruct (find_row _ _) as [[i x]|] eqn:Ef; cbn; [|exists s1; split; [done|left; by eexists]].
  apply find_row_Some in Ef as [Hi He%String.eqb_eq].
  unfold reject. destruct (negb _); [exists s1; split; [done|left; by eexists]|].
  destruct (is_none _); [exists s1; split; [done|left; by eexists]|].
  destruct (find_at (λ s, two_factor_secrets (tables s) !! UserID x) s1) as (s2 & E2 & Hst2).
  exists s2. split; [by etrans|]. unfold GetSecret. rewrite (bind_run _ _ _ _ _ E2).
  destruct (aborted _ || _); [left; by eexists|]. right. exists i, x. split; [done|]. split; [done|].
  change (tables (idc s1)) with (ids s1). rewrite (still_ids _ _ Hst). by destruct (second_factor_enabled _).
Qed.

(** ** On a server that answers *)

Section answering.
Context (answers : ∀ n, event_fails n = false).

(** The state after a call that left the tables [d]. *)
Definition with_ids (d : identity) (s : hstate) : Prop := ids s = d ∧ aborted (h_db s) = false.

Lemma try_runs {T} (m : M (session identity) db_err T) s r c :
  m (idc s) = (r, c) → aborted c = false →
  ∃ s', try_id m s = (Ok r : res aresponse _, s') ∧ with_ids (tables c) s' ∧ h_ev s' = h_ev s ∧
    bypass_rls (h_db s') = bypass_rls c ∧ app_tenant (h_db s') = app_tenant c ∧
    tx_start (h_db s') = tx_start c ∧ tick (h_db s') = tick c.
Proof.
  intros E Ha. unfold try_id, try_db, on_identity, focus. fold (ids s). fold (idc s). rewrite E.
  by eexists.
Qed.
Lemma call_runs {T} (m : M (session identity) db_err T) f s a c :
  m (idc s) = (Ok a, c) → aborted c = false →
  ∃ s', call_id m f s = (Ok a : res aresponse _, s') ∧ with_ids (tables c) s' ∧ h_ev s' = h_ev s ∧
    bypass_rls (h_db s') = bypass_rls c ∧ app_tenant (h_db s') = app_tenant c ∧
    tx_start (h_db s') = tx_start c ∧ tick (h_db s') = tick c.
Proof.
  intros E Ha. unfold call_id, call_db, on_identity, focus. fold (ids s). fold (idc s). rewrite E.
  by eexists.
Qed.
Lemma find_runs {T} (f : session identity → option T) s :
  aborted (h_db s) = false →
  ∃ s', find_id (bind (query f) (λ row, or_not_found row)) s
        = (Ok (f (idc s)) : res aresponse _, s') ∧
    with_ids (ids s) s' ∧ h_ev s' = h_ev s ∧ bypass_rls (h_db s') = bypass_rls (h_db s) ∧
    app_tenant (h_db s') = app_tenant (h_db s) ∧ tx_start (h_db s') = tx_start (h_db s) ∧
    tick (h_db s') = S (tick (h_db s)).
Proof.
  intros Ha. unfold find_id, bind at 1.
  assert (bind (query f) (λ row, or_not_found row) (idc s) =
    (match f (idc s) with Some x => Ok x | None => Err ErrNotFound end, bump (idc s))) as E.
  { unfold bind. rewrite (query_runs answers) by done. by destruct (f (idc s)). }
  destruct (try_runs _ s _ _ E Ha) as (s' & -> & Hs). exists s'.
  destruct (f (idc s)); (split; [done|exact Hs]).
Qed.

(** A transaction of its own that only reads. *)
Lemma own_tx_reads {T} u (f : session identity → T) s :
  aborted (h_db s) = false →
  ∃ s' c, own_tx u "" (query f) s = (Ok (Ok (f c)) : res aresponse _, s') ∧
    with_ids (ids s) s' ∧ h_ev s' = h_ev s ∧ bypass_rls (h_db s') = bypass_rls (h_db s) ∧
    tx_start (h_db s') = tx_start (h_db s) ∧ (tick (h_db s) ≤ tick (h_db s'))%nat ∧
    tables c = ids s ∧ bypass_rls c = bypass_rls (h_db s).
Proof.
  intros Ha. unfold own_tx, BeginTenantTx. rewrite !answers, andb_false_r. cbn [String.eqb].
  set (tx := if String.eqb u "" then _ else _). unfold on_identity, focus.
  assert (tables tx = tables (h_db s) ∧ bypass_rls tx = bypass_rls (h_db s) ∧ aborted tx = false ∧
    (tick (h_db s) ≤ tick tx)%nat) as (Et & Eb & Eab & El).
  { unfold tx. destruct (String.eqb u ""); cbn; repeat split; lia. }
  rewrite (query_runs answers) by done. unfold tx_commit. cbn [aborted retable bump]. rewrite Eab, answers.
  eexists _, _. split; [reflexivity|]. cbn.
  unfold with_ids, ids. cbn. rewrite ?Et, ?Eb. repeat split; [done|lia].
Qed.

Lemma find_unique_user d e i x :
  identity_wf d → users d !! i = Some x → Email x = e →
  find_row (by_email e) (users d) = Some (i, x).
Proof.
  intros W Hx He. destruct (find_row _ _) as [[j y]|] eqn:Ef.
  - apply find_row_Some in Ef as [Hy Hp%String.eqb_eq].
    assert (i = j) as <- by (eapply (wf_email d W); [done..|congruence]). by rewrite Hx in Hy; simplify_eq.
  - exfalso. pose proof (find_row_None _ _ _ _ Ef Hx) as Hf. by apply String.eqb_neq in Hf.
Qed.

Lemma GetByEmail_runs s e i x :
  identity_wf (ids s) → users (ids s) !! i = Some x → Email x = e → aborted (h_db s) = false →
  ∃ s', find_id (GetByEmail e) s = (Ok (Some x) : res aresponse _, s') ∧ with_ids (ids s) s' ∧
    h_ev s' = h_ev s ∧ bypass_rls (h_db s') = bypass_rls (h_db s) ∧
    tx_start (h_db s') = tx_start (h_db s) ∧ (tick (h_db s) ≤ tick (h_db s'))%nat.
Proof.
  intros W Hx He Ha. unfold find_id, bind at 1.
  assert (GetByEmail e (idc s) = (Ok x, bump (idc s))) as E.
  { unfold GetByEmail, bind. rewrite (query_runs answers) by done. cbn [tables idc retable].
    by rewrite (find_unique_user _ e i x). }
  destruct (try_runs _ s _ _ E Ha) as (s' & -> & H1 & H2 & H3 & _ & H4 & H5).
  exists s'. split; [done|]. split; [exact H1|]. repeat split; [done..|]. rewrite H5. cbn. lia.
Qed.

(** The device session CreateSession adds. *)
Definition opened (ua ip u sid : string) (now : Z) : DeviceSession :=
  {| DsID := sid; DsUserID := u; UserAgent := nullif_empty ua; IP := nullif_empty ip;
     DsCreatedAt := now; DsLastSeenAt := None; RevokedAt := None |}.

Lemma CreateSession_runs s ua ip u x :
  users (ids s) !! u = Some x → aborted (h_db s) = false →
  device_sessions (ids s) !! gen_uuid (tick (h_db s)) = None →
  ∃ s' now, call_id (CreateSession u ua ip) internal_error s
      = (Ok (gen_uuid (tick (h_db s))) : res aresponse _, s') ∧ h_ev s' = h_ev s ∧
    with_ids (set_device_sessions (<[gen_uuid (tick (h_db s)) :=
      opened ua ip u (gen_uuid (tick (h_db s))) now]>) (ids s)) s'.
Proof.
  intros Hu Ha Hn. eassert (CreateSession u ua ip (idc s) = (Ok (gen_uuid (tick (h_db s))), _)) as E.
  { unfold CreateSession. erewrite (stmt_runs answers); [reflexivity|done|]. cbn. by rewrite Hu, Hn. }
  destruct (call_runs _ internal_error s _ _ E Ha) as (s' & Hc & H1 & H2 & _).
  exists s', (sql_now (idc s)). split; [exact Hc|]. split; [done|exact H1].
Qed.

(** What the protected routes ask of a token's session. *)
Lemma RequireAuth_opens {P} now (tok : string) (next : handler P) s c x z :
  VerifySessionClaims now tok cfg_sessionSecret = Ok c → tok ≠ "" →
  aborted (h_db s) = false → users (ids s) !! AdminID c = Some x →
  match SessionsRevokedAt x with Some t => t <= ScIssuedAt c | None => True end →
  device_sessions (ids s) !! ScSessionID c = Some z → RevokedAt z = None →
  ∃ h, RequireAuth now cfg_sessionSecret (bearer tok) next s
       = next (RCtx x (ScTenantID c) (DsID z) None) h.
Proof.
  intros Hv Hne Ha Hu Hrev Hz Hzr. unfold RequireAuth.
  rewrite request_bearer by done.
  rewrite (proj2 (String.eqb_neq _ _) Hne), Hv.
  unfold on_identity at 1, focus. fold (ids s). fold (idc s).
  assert (GetUser (AdminID c) (idc s) = (Ok x, bump (idc s))) as ->.
  { unfold GetUser, bind. rewrite (query_runs answers) by done. cbn [tables idc retable]. by rewrite Hu. }
  assert ((match SessionsRevokedAt x with
           | Some t => time_before (ScIssuedAt c) t | None => false end) = false) as ->.
  { destruct (SessionsRevokedAt x); [|done]. unfold time_before. by apply Z.ltb_ge. }
  unfold on_identity at 1, focus. set (c1 := retable _ _).
  assert (tables c1 = ids s) as Hc1 by done.
  unfold GetSession, bind. rewrite (query_runs answers) by (unfold c1; done). rewrite Hc1.
  cbn [tables retable]. rewrite Hz. cbn. rewrite Hzr.
  destruct (on_identity (TouchLastSeen _) _) as [q c3]. by eexists.
Qed.
End answering.
End login.

(** ** Properties *)

(** C25: a login the service accepts opens the service, on a connection that
    bypasses row security (bypass_rls is true: under row security nobody logs in,
    rls_blocks_login).  On a server that answers: whoever gives the right password
    of a verified account that has a membership in an active tenant, no second
    factor, and sessions not revoked after the token's time is answered 200 with a
    token, and with it RequireAuth lets every request through to its handler as
    that account, until the token expires. *)
Theorem login_lets_in `{!Driver, !Jwt, !Machine, !Config} {P} (ua ip pw i t0 : string) (x : User)
    (m : membership_row) (tn : Tenant) (s : hstate) (now : Z) (next : handler P) :
  (∀ n, event_fails n = false) → jwt_laws → (∀ c, ∃ tok, jwt_sign c cfg_sessionSecret = Some tok ∧ tok ≠ "") →
  identity_wf (ids s) → aborted (h_db s) = false → bypass_rls (h_db s) = true →
  (∀ n, gen_uuid n ≠ "") →
  (∀ n, (tick (h_db s) ≤ n)%nat → device_sessions (ids s) !! gen_uuid n = None) →
  users (ids s) !! i = Some x → i ≠ "" → VerifyPassword (PasswordHash x) pw = true →
  is_Some (EmailVerifiedAt x) → second_factor_enabled (two_factor_secrets (ids s) !! i) = false →
  memberships (ids s) !! (i, t0) = Some m → tenants (ids s) !! t0 = Some tn → TenStatus tn = "active" →
  let login := PostLogin (Some {| LoginEmail := Email x; LoginPassword := pw |}) in
  let issued := NewNumericDate (time_Now (h_ev s)) in
  match SessionsRevokedAt x with Some r => r <= issued | None => True end →
  now < NewNumericDate (time_Now (h_ev s) + SessionTTL) →
  let '(rsp, s') := serve_public ua ip login s in
  rsp_status rsp = StatusOK ∧
  ∃ tok sid tenant h, token_of rsp = tok ∧
    RequireAuth now cfg_sessionSecret (bearer tok) next s' = next (RCtx x tenant sid None) h.
Proof.
  intros Hans Hj Hsign W Ha Hb Hne Hfresh Hx Hi Hpw [v Hv] Hsf Hm Ht Hta. cbv zeta. intros Hrev Hnow.
  assert (UserID x = i) as Hid by by eapply wf_user.
  destruct (GetByEmail_runs Hans s (Email x) i x W Hx eq_refl Ha) as (s1 & E1 & [D1 A1] & V1 & B1 & T1 & K1).
  destruct (find_runs Hans (λ s, two_factor_secrets (tables s) !! UserID x) s1 A1)
    as (s2 & E2 & [D2 A2] & V2 & B2 & _ & T2 & K2).
  destruct (own_tx_reads Hans (UserID x) (λ s, merge_sort older_membership
    (omap (joined s) (filter (λ kv, kv.1.1 = UserID x) (seen_memberships s (UserID x))))) s2 A2)
    as (s3 & c & E3 & [D3 A3] & V3 & B3 & T3 & K3 & Dc & Bc).
  assert (ids s2 = ids s) as D2' by congruence. assert (ids s3 = ids s) as D3' by congruence.
  set (l := merge_sort older_membership (omap (joined c)
    (filter (λ kv, kv.1.1 = UserID x) (seen_memberships c (UserID x))))) in *.
  assert ((Z.of_nat (length l) =? 0) = false) as Hl.
  { apply Z.eqb_neq. destruct l as [|y l'] eqn:El; [exfalso|cbn; lia].
    assert (bypass_rls c = true) as Bc' by congruence.
    assert (omap (joined c) (filter (λ kv, kv.1.1 = UserID x) (seen_memberships c (UserID x))) = []) as En.
    { apply Permutation_nil_r. rewrite <- El. unfold l. symmetry. apply merge_sort_Permutation. }
    assert (∃ y, y ∈ omap (joined c) (filter (λ kv, kv.1.1 = UserID x) (seen_memberships c (UserID x))))
      as (y & Hy); [|rewrite En in Hy; by apply elem_of_nil in Hy].
    eexists. apply list_elem_of_omap. exists (i, t0, m). split.
    - apply list_elem_of_filter. split; [by rewrite Hid|]. unfold seen_memberships.
      apply list_elem_of_filter. split; [unfold member_visible, visible; by rewrite Bc'|].
      apply elem_of_map_to_list. by rewrite Dc, D2'.
    - unfold joined. cbn. rewrite Dc, D2', Ht. unfold visible. rewrite Bc', Hta. done. }
  set (tenant := match l with [m] => TmTenantID m | _ => "" end).
  destruct (CreateSession_runs Hans s3 ua ip (UserID x) x) as (s4 & now4 & E4 & V4 & [D4 A4]);
    [by rewrite D3', Hid|done|rewrite D3'; apply Hfresh; lia|].
  set (sid := gen_uuid (tick (h_db s3))) in *.
  destruct (Hsign {| Subject := UserID x; JwtID := ""; Audience := [];
         IssuedAt := Some (NewNumericDate (time_Now (h_ev s4)));
         ExpiresAt := Some (NewNumericDate (time_add (time_Now (h_ev s4)) SessionTTL));
         ClaimTenantID := tenant; ClaimSessionID := sid |}) as (tok & Es & Htok).
  assert (h_ev s4 = h_ev s) as V by congruence.
  assert (IssueSessionWithTenant (time_Now (h_ev s4)) (UserID x) tenant sid cfg_sessionSecret = Ok tok)
    as Eiss.
  { unfold IssueSessionWithTenant, issueSessionWithTTL.
    rewrite (proj2 (String.eqb_neq sid "") (Hne _)). by rewrite Es. }
  assert (serve_public ua ip (PostLogin (Some {| LoginEmail := Email x; LoginPassword := pw |})) s =
    (answer StatusOK (LoginJson tok tenant (set_session_cookie tok)), bump_h_ev s4)) as ->.
  { cbn [serve_public public_handler]. unfold answered, Login. cbn [LoginEmail LoginPassword].
    unfold bind at 1. rewrite E1. rewrite Hpw, Hv. cbn [negb reject is_none].
    unfold bind at 1. change (find_id (GetSecret (UserID x))) with (find_id (P:=account_payload)
      (bind (query (λ s, two_factor_secrets (tables s) !! UserID x)) (λ row, or_not_found row))).
    rewrite E2. change (tables (idc s1)) with (ids s1). rewrite D1, Hid, Hsf.
    unfold issueSessionForUser, bind at 1. unfold MembershipsForUser. rewrite E3.
    cbn [or_500]. unfold bind at 1, ret at 1. fold l. rewrite Hl. cbn [reject].
    fold tenant. unfold bind at 1. rewrite E4. unfold bind at 1, ask.
    unfold bind at 1. rewrite Eiss. done. }
  split; [done|]. eexists tok, sid, tenant. 
  destruct (RequireAuth_opens Hans now tok next (bump_h_ev s4)
    {| AdminID := UserID x; ScIssuedAt := NewNumericDate (time_Now (h_ev s4));
       ScTenantID := tenant; ScSessionID := sid |} x (opened ua ip (UserID x) sid now4)) as (h & Eh).
  - unfold VerifySessionClaims. rewrite (jwt_round_trip Hj _ _ _ now Es). cbn.
    unfold time_add in *. rewrite V. rewrite (proj2 (Z.ltb_lt _ _) Hnow). cbn.
    rewrite Hid, (proj2 (String.eqb_neq i "") Hi), (proj2 (String.eqb_neq sid "") (Hne _)). done.
  - done.
  - exact A4.
  - cbn [AdminID]. change (ids (bump_h_ev s4)) with (ids s4). rewrite D4. cbn. by rewrite D3', Hid.
  - cbn [ScIssuedAt]. by rewrite V.
  - cbn [ScSessionID]. change (ids (bump_h_ev s4)) with (ids s4). rewrite D4. cbn.
    apply lookup_insert_eq.
  - done.
  - exists h. split; [done|exact Eh].
Qed.

(** a login does not tell whether the address has an account.  Two services that
    differ in their rows only, one without an account for the address, the other
    with one whose password is not the one given, answer the same login the same,
    whether or not the server fails, and neither changes anything; and a password
    reset request is answered the same whatever the address and whatever fails. *)
Theorem login_tells_nothing `{!Driver, !Jwt, !Machine, !Config} (ua ip ua' ip' email pw : string)
    (email' : option string) (s s' : hstate) :
  tick (h_db s') = tick (h_db s) → aborted (h_db s') = aborted (h_db s) →
  (∀ i x, users (ids s) !! i = Some x → Email x ≠ email) →
  (∀ i x, users (ids s') !! i = Some x → Email x = email → VerifyPassword (PasswordHash x) pw = false) →
  let login := PostLogin (Some {| LoginEmail := email; LoginPassword := pw |}) in
  (serve_public ua ip login s).1 = (serve_public ua' ip' login s').1 ∧
  tables (h_db (serve_public ua ip login s).2) = tables (h_db s) ∧
  tables (h_db (serve_public ua' ip' login s').2) = tables (h_db s') ∧
  (serve_public ua ip (PostResetRequest email') s).1 = answer StatusOK (StatusJson "ok").
Proof.
  intros Ht Ha Hno Hbad. cbv zeta. unfold serve_public, public_handler.
  assert (∀ s x, find_row (by_email email) (users (tables (idc s))) = Some x →
    users (ids s) !! x.1 = Some x.2 ∧ Email x.2 = email) as Hfound.
  { intros s0 [i x] [Hi Hp%String.eqb_eq]%find_row_Some. done. }
  assert (∀ ua ip s, (∀ i x, users (ids s) !! i = Some x → Email x = email →
      VerifyPassword (PasswordHash x) pw = false) →
    (answered (Login ua ip (Some {| LoginEmail := email; LoginPassword := pw |})) s).1 =
      (if aborted (h_db s) || event_fails (tick (h_db s)) then writeInternalError else writeLoginError) ∧
    tables (h_db (answered (Login ua ip (Some {| LoginEmail := email; LoginPassword := pw |})) s).2)
      = tables (h_db s)) as Hl.
  { intros ua0 ip0 s0 Hb. unfold answered.
    destruct (GetByEmail_find email s0) as (s1 & E & (Et & _)).
    assert (Login ua0 ip0 (Some {| LoginEmail := email; LoginPassword := pw |}) s0 =
      (Err (if aborted (h_db s0) || event_fails (tick (h_db s0))
            then writeInternalError else writeLoginError), s1)) as ->; [|by split].
    unfold Login, bind at 1. cbn [LoginEmail LoginPassword]. rewrite E.
    destruct (aborted (h_db s0) || _); [done|].
    destruct (find_row _ _) as [[i x]|] eqn:Ef; cbn; [|done].
    destruct (Hfound s0 (i, x) Ef) as [Hi He]. by rewrite (Hb i x Hi He). }
  destruct (Hl ua ip s) as [E1 E2]; [intros i x Hi He; by destruct (Hno i x Hi)|].
  destruct (Hl ua' ip' s' Hbad) as [E3 E4]. 
  split_and!; [|exact E2|exact E4|].
  { etrans; [exact E1|]. etrans; [|symmetry; exact E3]. by rewrite Ht, Ha. }
  unfold answered, ResetRequest. destruct email' as [e|]; [|done]. unfold bind, try_id, try_db.
  destruct (on_identity (GetByEmail e) (h_db s)) as [[u|q] c]; done.
Qed.

(** C8: the second factor is not optional.  With a confirmed second factor, a login
    never answers with a session, whatever fails: it leaves every device session
    as it was, and what it answers 200 is a challenge for that account. *)
Theorem second_factor_required `{!Driver, !Jwt, !Machine, !Config} (ua ip pw email : string) (s : hstate) :
  (∀ i x, users (ids s) !! i = Some x → Email x = email →
     second_factor_enabled (two_factor_secrets (ids s) !! UserID x) = true) →
  let '(rsp, s') := serve_public ua ip
    (PostLogin (Some {| LoginEmail := email; LoginPassword := pw |})) s in
  device_sessions (ids s') = device_sessions (ids s) ∧
  (400 <= rsp_status rsp ∨ ∃ tok, rsp = answer StatusOK (ChallengeJson tok)).
Proof.
  intros H2f. unfold serve_public, public_handler, answered.
  destruct (Login_outcome ua ip email pw s) as (s' & Hs' & [(e & -> & He)|(i & x & Hi & He & ->)]).
  - by rewrite (still_ids _ _ Hs'); eauto.
  - rewrite (H2f i x Hi He). destruct (challenge_sessions (UserID x) s') as [Hd Hr].
    rewrite (still_ids _ _ Hs') in Hd.
    destruct (issueTwoFactorChallenge (UserID x) s') as [[r|r] s2]; cbn in *; eauto.
Qed.

(** under row security nobody logs in.  On a role that does not bypass row-level
    security, POST /api/auth/login never answers with a session, whatever the
    database holds and whatever is given: the memberships are joined with the
    tenants in a transaction that has no tenant set, where the tenants' policy
    hides every row.  What it answers 200 is a challenge, and no device session
    is created. *)
Theorem rls_blocks_login `{!Driver, !Jwt, !Machine, !Config} (ua ip : string)
    (req : option loginRequest) (s : hstate) :
  bypass_rls (h_db s) = false →
  let '(rsp, s') := serve_public ua ip (PostLogin req) s in
  device_sessions (ids s') = device_sessions (ids s) ∧
  (400 <= rsp_status rsp ∨ ∃ tok, rsp = answer StatusOK (ChallengeJson tok)).
Proof.
  intros Hb. unfold serve_public, public_handler, answered.
  destruct req as [[email pw]|]; [|split; [done|by left]].
  destruct (Login_outcome ua ip email pw s) as (s' & Hs' & [(e & -> & He)|(i & x & Hi & He & ->)]).
  { by rewrite (still_ids _ _ Hs'); eauto. }
  destruct (second_factor_enabled _).
  - destruct (challenge_sessions (UserID x) s') as [Hd Hr]. rewrite (still_ids _ _ Hs') in Hd.
    destruct (issueTwoFactorChallenge (UserID x) s') as [[r|r] s2]; cbn in *; eauto.
  - assert (restricted s') as Hr by (destruct Hs' as (_ & Hb' & _); unfold restricted; congruence).
    destruct (issueSession_barred ua ip x s' Hr) as (e & s3 & -> & Hst3 & He3).
    rewrite (still_ids s' s3 Hst3), (still_ids _ _ Hs'). eauto.
Qed.

(** ** Examples and witnesses *)

Section witnesses.
#[local] Existing Instance numbered.
#[local] Existing Instance demo_jwt.
#[local] Existing Instance demo_machine.
#[local] Existing Instance self_hosted.

Definition demo_service (bypass : bool) : hstate :=
  account_run [PublicRequest "ua" "ip" bootstrap] (blank bypass).
Definition demo_owner : User :=
  {| UserID := "u3"; Email := owner_email; PasswordHash := owner_password; UserName := "Owner";
     Phone := None; SessionsRevokedAt := None; EmailVerifiedAt := Some 0; UserCreatedAt := 0 |}.
Definition demo_owner_tenant : Tenant :=
  default demo_tenant (tenants (ids (demo_service true)) !! "u5").

Lemma demo_sign_total c : ∃ tok, jwt_sign c cfg_sessionSecret = Some tok ∧ tok ≠ "".
Proof.
  eexists. split; [reflexivity|]. intros E. pose proof (f_equal unbits E) as E'.
  rewrite unbits_bits in E'. pose proof (decode_encode (claims_tuple c, cfg_sessionSecret)) as E2.
  rewrite E' in E2. vm_compute in E2. discriminate E2.
Qed.

(** The only device session is the one of the bootstrap. *)
Lemma demo_sessions_dated n :
  (tick (h_db (demo_service true)) ≤ n)%nat →
  device_sessions (ids (demo_service true)) !! gen_uuid n = None.
Proof.
  assert (dom (device_sessions (ids (demo_service true))) = {[gen_uuid 12]}) as Hd
    by (vm_compute; reflexivity).
  intros Hn. apply not_elem_of_dom. rewrite Hd, elem_of_singleton. intros E%numbered_fresh.
  subst. revert Hn. vm_compute. lia.
Qed.

Lemma demo_service_wf : identity_wf (ids (demo_service true)).
Proof. apply run_wf. reflexivity. Qed.

Lemma login_lets_in_witness :
  let '(rsp, s') := serve_public "ua" "ip"
    (PostLogin (Some {| LoginEmail := owner_email; LoginPassword := owner_password |}))
    (demo_service true) in
  ∃ h c, RequireAuth (3 * hour) cfg_sessionSecret (bearer (token_of rsp)) demo_next s' = demo_next c h ∧
    cx_user c = demo_owner.
Proof.
  pose proof (login_lets_in "ua" "ip" owner_password "u3" "u5" demo_owner
    {| MbRole := RoleOwner; MbCreatedAt := 6000000000 |} demo_owner_tenant (demo_service true)
    (3 * hour) demo_next (λ _, eq_refl) demo_jwt_laws demo_sign_total demo_service_wf eq_refl eq_refl
    ltac:(discriminate) demo_sessions_dated) as Hl.
  specialize (Hl ltac:(vm_compute; reflexivity) ltac:(discriminate) ltac:(vm_compute; reflexivity)
    ltac:(by eexists) ltac:(vm_compute; reflexivity) ltac:(vm_compute; reflexivity)
    ltac:(vm_compute; reflexivity) ltac:(vm_compute; reflexivity)).
  cbv zeta in Hl. specialize (Hl I ltac:(vm_compute; reflexivity)).
  change (Email demo_owner) with owner_email in Hl.
  destruct (serve_public "ua" "ip" _ (demo_service true)) as [rsp s'].
  destruct Hl as (_ & tok & sid & tenant & h & <- & Hh). by eexists h, _.
Defined.

Lemma login_tells_nothing_witness :
  (serve_public "ua" "ip" (PostLogin (Some {| LoginEmail := "b@example.com"; LoginPassword := "guess" |}))
     (demo_service true)).1 = writeLoginError ∧
  (serve_public "ua" "ip" (PostLogin (Some {| LoginEmail := owner_email; LoginPassword := "guess" |}))
     (demo_service true)).1 =
  (serve_public "ua" "ip" (PostLogin (Some {| LoginEmail := owner_email; LoginPassword := "guess" |}))
     (HState (Session (tables (h_db (blank true))) "" true None false 13) [] [] [] 0 ∅ ∅
       (tables (h_db (blank true))))).1.
Proof.
  split; [vm_compute; reflexivity|]. symmetry.
  apply (login_tells_nothing "ua" "ip" "ua" "ip" owner_email "guess" None
    (HState (Session (tables (h_db (blank true))) "" true None false 13) [] [] [] 0 ∅ ∅
       (tables (h_db (blank true))))
    (demo_service true)); [vm_compute; reflexivity|reflexivity|by intros ? ?|].
  intros i x Hi He.
  assert (map_Forall (λ _ x, VerifyPassword (PasswordHash x) "guess" = false)
            (users (ids (demo_service true)))) as Hall
    by (refine (bool_decide_eq_true_1 _ _); vm_compute; reflexivity).
  exact (Hall i x Hi).
Defined.

Definition demo_secured : hstate := account_run (take 3 demo_enrolled) (blank true).

Lemma second_factor_required_witness :
  device_sessions (ids (serve_public "ua" "ip" (PostLogin (Some {| LoginEmail := owner_email;
     LoginPassword := owner_password |})) demo_secured).2) = device_sessions (ids demo_secured).
Proof.
  pose proof (second_factor_required "ua" "ip" owner_password owner_email demo_secured) as Hs.
  assert (map_Forall (λ _ x, second_factor_enabled (two_factor_secrets (ids demo_secured) !! UserID x) = true)
            (users (ids demo_secured))) as Hall
    by (refine (bool_decide_eq_true_1 _ _); vm_compute; reflexivity).
  specialize (Hs (λ i x Hi _, Hall i x Hi)).
  destruct (serve_public "ua" "ip" _ demo_secured) as [rsp s']. exact (proj1 Hs).
Defined.

(** The right password, under row security. *)
Lemma rls_blocks_login_witness :
  let s := demo_service false in
  bypass_rls (h_db s) = false ∧
  device_sessions (ids (serve_public "ua" "ip" (login owner_password) s).2) = device_sessions (ids s) ∧
  rsp_status (serve_public "ua" "ip" (login owner_password) s).1 = StatusForbidden.
Proof.
  cbv zeta. split; [reflexivity|]. split; [|vm_compute; reflexivity].
  pose proof (rls_blocks_login "ua" "ip" (Some {| LoginEmail := owner_email;
     LoginPassword := owner_password |}) (demo_service false) eq_refl) as Hr.
  unfold login. destruct (serve_public "ua" "ip" _ (demo_service false)) as [rsp s'].
  exact (proj1 Hr).
Defined.
End witnesses.
