(* ===== verification/AccountMembers.v ===== *)
(** * Members and their access

    No tenant loses its last owner to a role change or a removal; who is demoted
    or removed is signed out for good; and what the code does instead where
    requests interleave, fail or run under row security. *)

From stdpp Require Import numbers strings gmap list sorting.
From Stdlib Require Import ZArith Lia.
From S2P Require Import Prelude GoNum Db Schema World Identity LLMProviders Providers Secrets Auth Accounts TwoFactor Tenants IdentitySteps IdentityInv Api Handler AuthApi AdminsApi SignupApi AccountApi AccountDemo AccountSafety.

#[local] Open Scope Z_scope.
#[local] Open Scope go_scope.

(** ** Owners *)

Definition owner_of (t : string) (d : identity) (u : string) : Prop :=
  ∃ m, memberships d !! (u, t) = Some m ∧ MbRole m = RoleOwner.
Definition owned (t : string) (d : identity) : Prop := ∃ u, owner_of t d u.
(** The memberships of the other tenants. *)
Definition others_kept (t : string) (d d' : identity) : Prop :=
  ∀ u t', t' ≠ t → memberships d' !! (u, t') = memberships d !! (u, t').

(** What a role change or a removal may do to the owners of [t]. *)
Definition owners_rel (t : string) (d d' : identity) : Prop :=
  (owned t d → owned t d') ∧ others_kept t d d'.

Section owners.
Context `{DR : !Driver}.
Implicit Types c : session identity.

(** The two writers of memberships. *)
Inductive member_op :=
| OpUpdateRole (userID role : string)
| OpDeleteMembership (userID : string).
Definition run_member_op (app_user tenantID : string) (o : member_op) : M (session identity) db_err unit :=
  match o with
  | OpUpdateRole u r => UpdateRole app_user u tenantID r
  | OpDeleteMembership u => DeleteMembership app_user u tenantID
  end.

Lemma owners_rel_refl t d d' : memberships d' = memberships d → owners_rel t d d'.
Proof. unfold owners_rel, owned, owner_of, others_kept. by intros ->. Qed.

(** Two owners are counted, so one is not the target. *)
Lemma another_owner c a t u :
  visible c t = true → 2 <= Z.of_nat (length (owner_rows c a t)) →
  ∃ u', u' ≠ u ∧ owner_of t (tables c) u'.
Proof.
  intros Hv Hl. unfold owner_rows in Hl.
  assert (NoDup (filter (λ kv, kv.1.2 = t ∧ MbRole kv.2 = RoleOwner) (seen_memberships c a))) as Hnd
    by (apply NoDup_filter, NoDup_filter, NoDup_map_to_list).
  assert (∀ kv, kv ∈ filter (λ kv, kv.1.2 = t ∧ MbRole kv.2 = RoleOwner) (seen_memberships c a) →
    kv.1.2 = t ∧ MbRole kv.2 = RoleOwner ∧ memberships (tables c) !! kv.1 = Some kv.2) as Hin.
  { intros [[u0 t0] m0] [[-> Hr] [_ Hm%elem_of_map_to_list]%list_elem_of_filter]%list_elem_of_filter. done. }
  destruct (filter _ _) as [|[[u1 t1] m1] [|[[u2 t2] m2] l]]; cbn in Hl; [lia..|].
  destruct (Hin (u1, t1, m1)) as (E1 & R1 & M1); [by left|]. cbn in E1, R1, M1.
  destruct (Hin (u2, t2, m2)) as (E2 & R2 & M2); [by right; left|]. cbn in E2, R2, M2. subst t1 t2.
  destruct (decide (u1 = u)) as [->|]; [|exists u1; split; [done|by exists m1]].
  exists u2. split; [|by exists m2]. intros ->. rewrite M1 in M2. injection M2 as <-.
  apply NoDup_cons in Hnd as [Hnd _]. apply Hnd. by left.
Qed.

Lemma owned_other t d d' u :
  (∃ u', u' ≠ u ∧ owner_of t d u') →
  (∀ u' t', (u', t') ≠ (u, t) → memberships d' !! (u', t') = memberships d !! (u', t')) →
  owned t d'.
Proof.
  intros (u' & Hu & m & Hm & Hr) Hk. exists u', m. split; [|done]. rewrite Hk; [done|congruence].
Qed.

(** A write of one row of [t] that leaves another owner, or does not take one
    away. *)
Lemma write_membership_owners a u t f c r c' :
  (∃ u', u' ≠ u ∧ owner_of t (tables c) u') ∨
  (∀ m, memberships (tables c) !! (u, t) = Some m → MbRole m = RoleOwner →
        ∃ m', f m = Some m' ∧ MbRole m' = RoleOwner) →
  write_membership a u t f c = (r, c') → owners_rel t (tables c) (tables c').
Proof.
  intros Hcase E. apply stmt_inv in E as [(e & _ & Et)|(n & d & Hd & _ & ->)].
  { rewrite Et. by apply owners_rel_refl. }
  cbn [tables set_tables]. destruct (memberships _ !! _) as [m|] eqn:Em;
    [|injection Hd as _ <-; by apply owners_rel_refl].
  destruct (member_visible _ _ _ _); [|injection Hd as _ <-; by apply owners_rel_refl].
  assert (∀ d', (∀ u' t', (u', t') ≠ (u, t) → memberships d' !! (u', t') = memberships (tables c) !! (u', t')) →
    (∀ m', f m = Some m' → memberships d' !! (u, t) = Some m') → owners_rel t (tables c) d') as Hrel.
  { intros d' Hk Hf. split; [|intros u' t' Ht; apply Hk; congruence].
    intros (u0 & m0 & Hm0 & Hr0). destruct (decide (u0 = u)) as [->|].
    - destruct Hcase as [Ho|Hm]; [by eapply owned_other|].
      rewrite Em in Hm0. injection Hm0 as ->. destruct (Hm m0 eq_refl Hr0) as (m' & Hm' & Hr').
      exists u, m'. eauto.
    - exists u0, m0. split; [|done]. rewrite Hk; [done|congruence]. }
  destruct (f m) as [m'|] eqn:Ef.
  - destruct (role_check _); [|done]. injection Hd as _ <-. apply Hrel.
    + intros u' t' Hne. cbn. by rewrite lookup_insert_ne.
    + intros m2 [= <-]. cbn. apply lookup_insert_eq.
  - injection Hd as _ <-. apply Hrel; [|done].
    intros u' t' Hne. cbn. by rewrite lookup_delete_ne.
Qed.

Definition same_view c c' : Prop :=
  tables c' = tables c ∧ app_tenant c' = app_tenant c ∧ bypass_rls c' = bypass_rls c.
Lemma query_view {T} (f : session identity → T) c r c1 : query f c = (r, c1) → same_view c c1.
Proof.
  intros E. pose proof (reads_query f c) as [Ht Hb]. rewrite E in Ht, Hb.
  split; [done|]. split; [|done]. unfold query in E. by apply stmt_settings_eq in E as [-> _].
Qed.
Lemma same_view_visible c c' t : same_view c c' → visible c' t = visible c t.
Proof. unfold visible. by intros (_ & -> & ->). Qed.

Lemma refuse_last_owner_other a t u c q c1 :
  visible c t = true → refuse_last_owner a t c = (q, c1) →
  tables c1 = tables c ∧ (is_ok q = true → ∃ u', u' ≠ u ∧ owner_of t (tables c) u').
Proof.
  intros Hv. unfold refuse_last_owner, isLastOwner, bind.
  destruct (query _ c) as [[n|e] c2] eqn:E; cbn;
    [|intros [= <- <-]; split; [exact (proj1 (query_view _ _ _ _ E))|done]].
  pose proof (query_view _ _ _ _ E) as [Et _]. apply query_Ok_inv in E as [-> _].
  destruct (Z.leb_spec (Z.of_nat (length (owner_rows c a t))) 1); intros [= <- <-]; (split; [exact Et|]);
    [done|]. intros _. apply (another_owner c a t u Hv). lia.
Qed.

(** The check, then the write of one row. *)
Lemma guarded_write a u t f (check : M (session identity) db_err unit) c :
  (∀ r c1, check c = (r, c1) → tables c1 = tables c ∧
     (is_ok r = true →
       (∃ u', u' ≠ u ∧ owner_of t (tables c) u') ∨
       (∀ m, memberships (tables c) !! (u, t) = Some m → MbRole m = RoleOwner →
          ∃ m', f m = Some m' ∧ MbRole m' = RoleOwner))) →
  owners_rel t (tables c) (tables (bind check (λ _, n <- write_membership a u t f ;; affected n) c).2).
Proof.
  intros Hc. unfold bind. destruct (check c) as [[x|e] c1] eqn:E1; destruct (Hc _ _ eq_refl) as [Et Hg];
    [|cbn; rewrite Et; by apply owners_rel_refl].
  destruct (write_membership a u t f c1) as [[n|e] c2] eqn:E2; cbn;
    (eapply write_membership_owners in E2; [|rewrite Et; by apply Hg]); rewrite Et in E2; [|done].
  unfold affected. by destruct (n =? 0).
Qed.

Lemma run_member_op_owners a t o c :
  visible c t = true → owners_rel t (tables c) (tables (run_member_op a t o c).2).
Proof.
  intros Hv. destruct o as [u r|u]; cbn [run_member_op].
  - unfold UpdateRole. apply guarded_write. intros q c1. destruct (String.eqb_spec r RoleOwner) as [->|Hr].
    { intros [= <- <-]. split; [done|]. intros _. right. intros m _ _. by eexists. }
    unfold GetRole. intros E. unfold bind at 1 2 in E.
    destruct (query _ c) as [[o|e] c2] eqn:Eq; pose proof (query_view _ _ _ _ Eq) as Hs;
      [|injection E as <- <-; by destruct Hs].
    pose proof Hs as [Et _]. apply query_Ok_inv in Eq as [-> _].
    destruct (memberships _ !! _) as [m|] eqn:Em; cbn in E; [|by injection E as <- <-].
    destruct (tenants _ !! _) as [tn|]; cbn in E; [|by injection E as <- <-].
    destruct (_ && _); cbn in E; [|by injection E as <- <-].
    destruct (String.eqb_spec (MbRole m) RoleOwner) as [Ho|Ho].
    + rewrite <- Et. apply (refuse_last_owner_other a t u) in E as [E1 E2];
        [|by rewrite (same_view_visible _ _ _ Hs)].
      split; [exact E1|]. intros Hq. left. exact (E2 Hq).
    + injection E as <- <-. split; [done|]. intros _. right. intros m' [= <-]. done.
  - unfold DeleteMembership, read_member_role, delete_member.
    match goal with |- context [bind ?m ?k c] => destruct (m c) as [[o|e] c1] eqn:Eq end;
      pose proof (query_view _ _ _ _ Eq) as Hs; pose proof Hs as [Et _];
      rewrite (bind_run _ _ _ _ _ Eq); [|cbn; rewrite Et; by apply owners_rel_refl].
    rewrite <- Et. apply query_Ok_inv in Eq as [-> _].
    destruct (memberships (tables c) !! (u, t)) as [m|] eqn:Em; [|by apply owners_rel_refl].
    destruct (member_visible _ _ _ _); [|by apply owners_rel_refl]. unfold or_not_found, bind at 1, ret at 1.
    apply guarded_write. intros q c2. destruct (String.eqb_spec (MbRole m) RoleOwner) as [Ho|Ho].
    + intros E. apply (refuse_last_owner_other a t u) in E as [E1 E2];
        [|by rewrite (same_view_visible _ _ _ Hs)].
      split; [exact E1|]. intros Hq. left. exact (E2 Hq).
    + intros [= <- <-]. split; [done|]. intros _. right. rewrite Et, Em. intros m' [= <-]. done.
Qed.
End owners.

(** ** Signing out *)

Section signing_out.
Context `{DR : !Driver, JW : !Jwt, MA : !Machine, CF : !Config}.
Context (uuid_fresh : ∀ j k, gen_uuid j = gen_uuid k → j = k).

(** The session [sid] is [u]'s; it is revoked or gone. *)
Definition session_of (u sid : string) (s : hstate) : Prop :=
  session_fact (λ x, DsUserID x = u) sid (tick (h_db s)) (ids s).
Definition dead (sid : string) (s : hstate) : Prop :=
  session_fact (λ x, is_Some (RevokedAt x)) sid (tick (h_db s)) (ids s).

Lemma acc_session_of u sid s s' : acc s s' → session_of u sid s → session_of u sid s'.
Proof.
  intros (E & _). refine (cstep_session_fact uuid_fresh _ sid _ _ _ E). by intros x y (_ & -> & _).
Qed.
Lemma acc_dead sid s s' : acc s s' → dead sid s → dead sid s'.
Proof.
  intros (E & _). refine (cstep_session_fact uuid_fresh _ sid _ _ _ E). intros x y (_ & _ & Hk) [t Ht]. eexists. by apply Hk.
Qed.
Lemma run_sessions_dated l s :
  fresh s → sessions_dated (tick (h_db (account_run l s))) (ids (account_run l s)).
Proof.
  intros Hs. destruct (account_run_acc l s) as (E & _).
  apply (cstep_sessions_dated _ _ E). intros i x. cbn. unfold fresh in Hs. by rewrite Hs.
Qed.

(** All of the account's sessions are dead once they were revoked. *)
Lemma revoke_all_kills u sid s x s' :
  session_of u sid s → call_id (RevokeAllForUser u) internal_error s = (Ok x : res aresponse _, s') →
  dead sid s'.
Proof.
  intros [(k & Hk & Ek) Hs]. unfold call_id, call_db, on_identity, focus. fold (ids s). fold (idc s).
  destruct (RevokeAllForUser u (idc s)) as [[y|e] c] eqn:E; [|done]. intros [= -> <-].
  apply stmt_Ok_inv in E as (d & [= <- <-] & Et & En & _).
  unfold dead, ids. cbn. rewrite Et, En. split.
  { exists k. split; [unfold idc; cbn; lia|done]. }
  intros z. cbn. rewrite lookup_fmap. change (device_sessions (tables (idc s))) with (device_sessions (ids s)).
  destruct (device_sessions (ids s) !! sid) as [z0|] eqn:Ez; cbn; [|done]. intros [= <-].
  rewrite (Hs z0 eq_refl), String.eqb_refl. unfold live_session. destruct (RevokedAt z0) as [t|] eqn:Er; cbn; [|by eexists].
  rewrite Er. by eexists.
Qed.

(** A dead session's token is refused. *)
Lemma dead_refused {P} sid s now req (next : handler P) claims :
  dead sid s → VerifySessionClaims now (request_token req) cfg_sessionSecret = Ok claims →
  ScSessionID claims = sid → (RequireAuth now cfg_sessionSecret req next s).1 = writeUnauthorized.
Proof.
  intros [_ Hd] Hv <-. unfold RequireAuth. destruct (String.eqb _ ""); [done|]. rewrite Hv.
  destruct (on_identity (GetUser _) _) as [[u|e] c1] eqn:Eu; apply GetUser_inv in Eu; [|done].
  destruct (match SessionsRevokedAt u with Some _ => _ | None => _ end); [done|].
  destruct (on_identity (GetSession _) c1) as [[z|e] c2] eqn:Es; [|done].
  apply GetSession_inv in Es as [_ Ez]. specialize (Ez z eq_refl). rewrite Eu in Ez.
  destruct (Hd z Ez) as [t ->]. done.
Qed.

(** The two handlers that take rights away. *)
Definition takes_away (target : string) (r : protected_request) : Prop :=
  r = DeleteAdminByID target ∨ ∃ role, r = PatchAdminRole target role.

Lemma handler_kills target r c h rsp h' sid :
  takes_away target r → session_of target sid h → rsp_status rsp = StatusOK →
  written (protected_handler r) c h = (rsp, h') → dead sid h'.
Proof.
  intros Hr Hs Hok E.
  assert (protected_handler r c h = (Ok rsp, h')) as E'.
  { unfold written in E. destruct (protected_handler r c h) as [[q|q] hq] eqn:Eh; injection E as -> ->;
      [done|exfalso]. apply (early_protected r c h) in Eh. by rewrite Hok in Eh. }
  clear E. destruct Hr as [->|[role ->]]; cbn [protected_handler] in E'.
  - unfold DeleteAdmin in E'.
    apply bind_Ok_inv in E' as (x1 & s1 & E1 & E'). apply bind_Ok_inv in E' as (x2 & s2 & E2 & E').
    apply bind_Ok_inv in E' as (x3 & s3 & E3 & E').
    pose proof (acts_call _ member_error (DeleteMembership_evolves (UserID (cx_user c)) target (cx_tenant c)) h) as A1.
    pose proof (acts_label target s1) as A2. rewrite E1 in A1. rewrite E2 in A2.
    eapply acc_dead; [|eapply revoke_all_kills; [|exact E3]; eapply acc_session_of; [|exact Hs];
                       etrans; [apply A1|apply A2]].
    match type of E' with ?m s3 = _ => assert (acts m) as Hm end.
    { pose proof acts_orphan. pose proof CountForUser_evolves. acting. }
    specialize (Hm s3). rewrite E' in Hm. apply Hm.
  - unfold UpdateAdminRole, reject in E'. destruct role as [role|]; [|done]. destruct (negb _); [done|].
    apply bind_Ok_inv in E' as (x1 & s1 & E1 & E'). apply bind_Ok_inv in E' as (x2 & s2 & E2 & E').
    pose proof (acts_call _ member_error (UpdateRole_evolves (UserID (cx_user c)) target (cx_tenant c) role) h) as A1.
    rewrite E1 in A1.
    eapply acc_dead; [|eapply revoke_all_kills; [|exact E2]; eapply acc_session_of; [|exact Hs]; apply A1].
    match type of E' with ?m s2 = _ => assert (acts m) as Hm end.
    { pose proof acts_label. acting. }
    specialize (Hm s2). rewrite E' in Hm. apply Hm.
Qed.

Lemma takes_away_own target r c h :
  takes_away target r → h_own (protected_gate r (written (protected_handler r)) c h).2 = h_own h.
Proof.
  intros Hr. assert (∀ c, h_along own_same (protected_handler r c)) as Ho.
  { intros c'. destruct Hr as [->|[role ->]]; cbn [protected_handler];
      unfold DeleteAdmin, UpdateAdminRole, target_label, delete_orphan; owning. }
  destruct Hr as [->|[role ->]]; cbn [protected_gate]; unfold RequireRole;
    repeat (case_match; try done); apply (h_along_written own_same), Ho.
Qed.
End signing_out.

(** ** Properties *)

(** C26: one role change or removal, run alone, leaves no tenant without an owner.
    On any connection that sees the tenant, one call of the repository's UpdateRole
    or DeleteMembership, by whoever, of whoever and whatever fails in between,
    leaves the tenant an owner when it had one, and touches no membership of another
    tenant.  Two calls at once may (promoted_member_removed), and the request that
    removes a member deletes an account left without a membership it can see, with
    all it has elsewhere (removal_reaches_other_tenants). *)
Theorem last_owner_kept `{!Driver} (app_user tenantID : string) (o : member_op)
    (c : session identity) :
  visible c tenantID = true →
  let d := tables c in
  let d' := tables (run_member_op app_user tenantID o c).2 in
  (owned tenantID d → owned tenantID d') ∧
  (∀ u t, t ≠ tenantID → memberships d' !! (u, t) = memberships d !! (u, t)).
Proof. intros Hv. by apply run_member_op_owners. Qed.

(** C35: taking rights away signs out, for good.  With UUIDs that do not repeat, after
    any history: a role change or a removal that was answered 200 either left
    the database as it was, or every device session the target had is dead: after
    any further history RequireAuth answers 401 to every token of one of them. *)
Theorem demotion_signs_out `{!Driver, !Jwt, !Machine, !Config} {P} (l1 l2 : list account_event)
    (target sid : string) (r : protected_request) (c : rctx) (s : hstate) (x : DeviceSession)
    (now : Z) (req : credentials) (next : handler P) (claims : SessionClaims) :
  fresh s → (∀ j k, gen_uuid j = gen_uuid k → j = k) →
  r = DeleteAdminByID target ∨ (∃ role, r = PatchAdminRole target role) →
  let s0 := account_run l1 s in
  device_sessions (ids s0) !! sid = Some x → DsUserID x = target →
  let '(rsp, s1) := account_route r c s0 in
  rsp_status rsp = StatusOK →
  VerifySessionClaims now (request_token req) cfg_sessionSecret = Ok claims → ScSessionID claims = sid →
  tables (h_db s1) = tables (h_db s0) ∨
  (RequireAuth now cfg_sessionSecret req next (account_run l2 s1)).1 = writeUnauthorized.
Proof.
  intros Hs Hu Hr. cbv zeta. intros Hx Ht. set (s0 := account_run l1 s) in *.
  destruct (account_route r c s0) as [rsp s1] eqn:ER. intros Hok Hv Hsid.
  assert (acc s0 s1) as A.
  { change s1 with (rsp, s1).2. rewrite <- ER. apply TenantContext_acc. intros c' h. apply gate_acc.
    intros c2 h2. apply (h_along_written acc_in), acts_protected. }
  pose proof (run_sessions_dated l1 s Hs) as Hd. fold s0 in Hd.
  destruct (Hd sid x Hx) as (k & Hk & Ek).
  unfold account_route in ER.
  apply TenantContext_runs in ER as [E1|(role & h & h' & Hn & E1 & Hle & E2)]; [by left|right
    |intros; by apply (takes_away_own target)].
  eapply dead_refused; [|exact Hv|exact Hsid]. eapply (acc_dead Hu); [apply account_run_acc|].
  assert (written (protected_handler r) (WithRole role c) h = (rsp, h')) as Hw.
  { destruct Hr as [->|[q ->]]; cbn [protected_gate] in Hn; unfold RequireRole in Hn;
      cbn [cx_role WithRole] in Hn; (destruct (bool_decide _); [exact Hn|]);
      injection Hn as <- <-; discriminate Hok. }
  assert (session_of target sid h) as Hso.
  { split; [exists k; split; [lia|done]|]. unfold ids. rewrite E1. intros y Hy.
    change (device_sessions (ids s0) !! sid = Some y) in Hy. rewrite Hx in Hy. by injection Hy as <-. }
  destruct (handler_kills Hu target r _ h rsp h' sid Hr Hso Hok Hw) as [_ Hrows].
  split.
  - destruct A as (A & _). apply cstep_tick_le in A. cbn in A. exists k. split; [lia|done].
  - unfold ids. rewrite E2. exact Hrows.
Qed.

(** ** Examples and witnesses *)

Definition member (role : string) : membership_row := {| MbRole := role; MbCreatedAt := 0 |}.
Definition account (id email : string) : User :=
  {| UserID := id; Email := email; PasswordHash := owner_password; UserName := ""; Phone := None;
     SessionsRevokedAt := None; EmailVerifiedAt := Some 0; UserCreatedAt := 0 |}.
Definition device (id user : string) : DeviceSession :=
  {| DsID := id; DsUserID := user; UserAgent := None; IP := None; DsCreatedAt := 0;
     DsLastSeenAt := None; RevokedAt := None |}.

(** Ana owns A; Bob is an operator of A and the only owner of B. *)
Definition two_tenants : identity :=
  set_users (λ _, {["ana" := account "ana" "ana@example.com"; "bob" := account "bob" "bob@example.com"]})
    (set_tenants (λ _, {["A" := new_tenant "A" "A" "" 0; "B" := new_tenant "B" "B" "" 0]})
    (set_device_sessions (λ _, {["s-bob" := device "s-bob" "bob"]})
    (set_memberships (λ _, {[("ana", "A") := member RoleOwner; ("bob", "A") := member RoleOperator;
                             ("bob", "B") := member RoleOwner]}) empty_identity))).
Definition ana_in_A : rctx := RCtx (account "ana" "ana@example.com") "A" "s-ana" None.
Definition service_of (bypass : bool) (d : identity) : hstate :=
  HState (Session {| db_identity := d; db_core := empty_core; db_intervals := ∅; db_providers := empty_providers |} "" bypass None false 0) [] [] [] 0 ∅ ∅
    {| db_identity := d; db_core := empty_core; db_intervals := ∅; db_providers := empty_providers |}.

(** An account that owns tenant A, and its token for a tenant. *)
Definition owner_in (tenant : string) : credentials :=
  bearer (match @IssueSessionWithTenant demo_jwt 0 "owner" tenant "s-owner" "secret" with Ok t => t | Err _ => "" end).
Definition one_owner : identity :=
  set_users (λ _, {["owner" := account "owner" owner_email]})
    (set_tenants (λ _, {["A" := new_tenant "A" "A" "" 0; "B" := new_tenant "B" "B" "" 0]})
    (set_device_sessions (λ _, {["s-owner" := device "s-owner" "owner"]})
    (set_memberships (λ _, {[("owner", "A") := member RoleOwner]}) empty_identity))).

Section examples.
#[local] Existing Instance demo_jwt.
#[local] Existing Instance demo_machine.
#[local] Existing Instance saas.

(** a removal reaches other tenants under row security.  The memberships left are
    counted in the request's transaction, which sees the active tenant's only: the
    member's account is deleted, with the memberships of every other tenant.  On a
    role that bypasses row security the account stays. *)
Theorem removal_reaches_other_tenants :
  let run bypass := @account_route numbered demo_jwt demo_machine saas (DeleteAdminByID "bob") ana_in_A
                      (service_of bypass two_tenants) in
  rsp_status (run false).1 = StatusOK ∧
  memberships (ids (run false).2) !! ("bob", "B") = None ∧ users (ids (run false).2) !! "bob" = None ∧
  rsp_status (run true).1 = StatusOK ∧
  memberships (ids (run true).2) !! ("bob", "B") = Some (member RoleOwner).
Proof. cbv zeta. split_and!; vm_compute; reflexivity. Qed.

(** the audit entry is not best effort.  When its insert is the interaction that
    fails, the caller is told 200 and the role change is undone with the aborted
    transaction. *)
Theorem failed_audit_undoes_the_change :
  let run n := @account_route (numbered_failing [n]) demo_jwt demo_machine saas
                 (PatchAdminRole "bob" (Some RoleViewer)) ana_in_A (service_of true two_tenants) in
  rsp_status (run 100%nat).1 = StatusOK ∧
  memberships (ids (run 100%nat).2) !! ("bob", "A") = Some (member RoleViewer) ∧
  rsp_status (run 8%nat).1 = StatusOK ∧ ids (run 8%nat).2 = two_tenants.
Proof. cbv zeta. split_and!; vm_compute; reflexivity. Qed.

(** A tenant transaction of A, of whoever's request. *)
Definition tx_in_A (d : identity) : session identity := Session d "A" false (Some 0) false 0.

(** the owner check reads the role before it locks.  Ana asks to remove Bob, an
    operator: his role is read.  Before the removal goes on, two requests commit:
    Bob is made an owner, and Ana, no longer the last one, steps down.  The
    removal then skips the check, and the tenant has no owner. *)
Theorem promoted_member_removed :
  let first := @read_member_role numbered "ana" "bob" "A" (tx_in_A two_tenants) in
  let promoted := tables (@UpdateRole numbered "ana" "bob" "A" RoleOwner (tx_in_A two_tenants)).2 in
  let resigned := tables (@UpdateRole numbered "ana" "ana" "A" RoleOperator (tx_in_A promoted)).2 in
  let rest := @delete_member numbered "ana" "bob" "A" (Some RoleOperator) (tx_in_A resigned) in
  first.1 = Ok (Some RoleOperator) ∧ rest.1 = Ok tt ∧
  filter (λ kv, kv.1.2 = "A" ∧ MbRole kv.2 = RoleOwner) (memberships (tables rest.2)) = ∅.
Proof. cbv zeta. split_and!; vm_compute; reflexivity. Qed.

Lemma last_owner_kept_witness :
  owned "A" (tables (@run_member_op (numbered_failing [2%nat]) "ana" "A" (OpUpdateRole "ana" RoleViewer)
                       (tx_in_A two_tenants)).2) ∧
  owned "A" (tables (@run_member_op numbered "ana" "A" (OpDeleteMembership "ana")
                       (tx_in_A two_tenants)).2) ∧
  (@run_member_op numbered "ana" "A" (OpDeleteMembership "ana") (tx_in_A two_tenants)).1 = Err ErrLastOwner.
Proof.
  assert (owned "A" two_tenants) as Ho.
  { exists "ana", (member RoleOwner). split; reflexivity. }
  split; [|split; [|vm_compute; reflexivity]].
  - exact (proj1 (@last_owner_kept (numbered_failing [2%nat]) "ana" "A" (OpUpdateRole "ana" RoleViewer)
                    (tx_in_A two_tenants) eq_refl) Ho).
  - exact (proj1 (@last_owner_kept numbered "ana" "A" (OpDeleteMembership "ana")
                    (tx_in_A two_tenants) eq_refl) Ho).
Defined.
End examples.

Section witnesses.
#[local] Existing Instance numbered.
#[local] Existing Instance demo_jwt.
#[local] Existing Instance demo_machine.
#[local] Existing Instance self_hosted.

(** The owner invites, the invited accepts, and is removed. *)
Definition demo_invited : list account_event :=
  demo_history ++ [PublicRequest "ua" "ip" (PostAcceptInvite demo_invite_token (Some "another horse"))].
Definition demo_member_token : string :=
  token_of (serve_public "ua" "ip" (PostAcceptInvite demo_invite_token (Some "another horse"))
              (account_run demo_history (blank true))).1.
Definition demo_claims : SessionClaims :=
  match VerifySessionClaims (60 * second) demo_member_token cfg_sessionSecret with
  | Ok c => c
  | Err _ => {| AdminID := ""; ScIssuedAt := 0; ScTenantID := ""; ScSessionID := "" |}
  end.
Definition demo_remover : rctx := RCtx (account "u3" owner_email) (ScTenantID demo_claims) "u12" None.

Lemma demotion_signs_out_witness :
  let s0 := account_run demo_invited (blank true) in
  let s1 := (account_route (DeleteAdminByID (AdminID demo_claims)) demo_remover s0).2 in
  rsp_status (RequireAuth (60 * second) cfg_sessionSecret (bearer demo_member_token) demo_next s0).1 = 200 ∧
  (RequireAuth (60 * second) cfg_sessionSecret (bearer demo_member_token) demo_next
     (account_run [RunTask] s1)).1 = writeUnauthorized.
Proof.
  cbv zeta. split; [vm_compute; reflexivity|].
  set (s0 := account_run demo_invited (blank true)).
  pose proof (demotion_signs_out demo_invited [RunTask] (AdminID demo_claims) (ScSessionID demo_claims)
    (DeleteAdminByID (AdminID demo_claims)) demo_remover (blank true)
    (default (device "" "") (device_sessions (ids s0) !! ScSessionID demo_claims))
    (60 * second) (bearer demo_member_token) demo_next demo_claims eq_refl numbered_fresh
    (or_introl eq_refl)) as Hd.
  cbv zeta in Hd. fold s0 in Hd. specialize (Hd ltac:(vm_compute; reflexivity) ltac:(vm_compute; reflexivity)).
  assert (rsp_status (account_route (DeleteAdminByID (AdminID demo_claims)) demo_remover s0).1 = StatusOK)
    as Hok by (vm_compute; reflexivity).
  assert (size (memberships (ids (account_route (DeleteAdminByID (AdminID demo_claims)) demo_remover s0).2))
          = 1%nat) as Hn1 by (vm_compute; reflexivity).
  assert (size (memberships (ids s0)) = 2%nat) as Hn2 by (vm_compute; reflexivity).
  destruct (account_route _ demo_remover s0) as [rsp s1]. cbn [snd fst] in *.
  destruct (Hd Hok ltac:(vm_compute; reflexivity) eq_refl) as [He|Hr]; [exfalso|exact Hr].
  unfold ids in Hn1, Hn2. rewrite He, Hn2 in Hn1. discriminate Hn1.
Defined.
End witnesses.
