(* ===== verification/RateLimit.v ===== *)
(** * The per-IP rate limiter (internal/ratelimit)

    A token bucket per client IP, in Postgres, with an in-process store behind a
    circuit breaker for when Postgres fails.  The two stores are instances of one
    interface, [bucketStore]; the limiter is written against it.  The mutex makes
    every breaker operation one step; what runs between two of them interleaves. *)

From stdpp Require Import numbers strings gmap list relations.
From Stdlib Require Import ZArith Floats Lia.
From S2P Require Import Prelude GoNum GoFloat Db.

#[local] Open Scope Z_scope.
#[local] Open Scope go_scope.

(** ** Buckets *)

Record memoryBucket := {
  tokens : float;
  lastRefill : Z;
}.

(** [d.Seconds()] *)
Definition Seconds (d : Z) : float :=
  (float_of_int64 (go_div d second) + float_of_int64 (go_mod d second) / 1e9)%float.

(** The end of both formulas: consume one token, never below zero. *)
Definition consume (tokens : float) : bool * float :=
  let allowed := fge tokens 1%float in
  let tokens := if allowed then (tokens - 1)%float else tokens in
  let tokens := if flt tokens 0%float then 0%float else tokens in
  (allowed, tokens).

(** ** The interface *)

Record bucketStore (S : Type) := {
  bs_allow : Z → string → Z → float → S → res unit bool * S;   (* now, ip, burst, refill *)
  bs_cleanup : Z → Z → S → res unit unit * S;                  (* now, idleTTL *)
}.
Arguments bs_allow {S} _ _ _ _ _ _.
Arguments bs_cleanup {S} _ _ _ _.

(** ** The in-process store *)

Definition refill_memory (now : Z) (burst : Z) (refillPerSec : float) (b : memoryBucket) : float :=
  let elapsed := Seconds (time_sub now (lastRefill b)) in
  let t := (tokens b + elapsed * refillPerSec)%float in
  if fgt t (float_of_int64 burst) then float_of_int64 burst else t.

Definition memory_allow (now : Z) (ip : string) (burst : Z) (refillPerSec : float)
    (s : gmap string memoryBucket) : res unit bool * gmap string memoryBucket :=
  let b := default {| tokens := float_of_int64 burst; lastRefill := now |} (s !! ip) in
  let '(allowed, t) := consume (refill_memory now burst refillPerSec b) in
  (Ok allowed, <[ip := {| tokens := t; lastRefill := now |}]> s).

Definition idle (cutoff : Z) (b : memoryBucket) : bool := time_before (lastRefill b) cutoff.

Definition memory_cleanup (now idleTTL : Z) (s : gmap string memoryBucket) :
    res unit unit * gmap string memoryBucket :=
  (Ok tt, filter (λ p, idle (time_add now (- idleTTL)) p.2 ≠ true) s).

Definition memoryBucketStore : bucketStore (gmap string memoryBucket) :=
  {| bs_allow := memory_allow; bs_cleanup := memory_cleanup |}.

(** ** The Postgres store: the rate_limit_buckets table *)

Definition refill_postgres (now : Z) (burst : Z) (refillPerSec : float) (b : memoryBucket) : float :=
  let elapsed := Seconds (time_sub now (lastRefill b)) in
  if fgt elapsed 0%float then
    let t := (tokens b + elapsed * refillPerSec)%float in
    if fgt t (float_of_int64 burst) then float_of_int64 burst else t
  else tokens b.

Section postgres.
Context `{!Driver}.

(** ON CONFLICT (ip) DO NOTHING *)
Definition seed_bucket (now : Z) (ip : string) (burst : Z) : M (session (gmap string memoryBucket)) db_err unit :=
  stmt (λ s, Ok (tt, match tables s !! ip with
                     | Some _ => tables s
                     | None => <[ip := {| tokens := float_of_int64 burst; lastRefill := now |}]> (tables s)
                     end)).

(** SELECT ... FOR UPDATE: no row is an error of the scan. *)
Definition select_bucket (ip : string) : M (session (gmap string memoryBucket)) db_err memoryBucket :=
  stmt (λ s, match tables s !! ip with
             | Some b => Ok (b, tables s)
             | None => Err ErrDriver
             end).

Definition update_bucket (now : Z) (ip : string) (t : float) : M (session (gmap string memoryBucket)) db_err unit :=
  stmt (λ s, Ok (tt, alter (λ _, {| tokens := t; lastRefill := now |}) ip (tables s))).

Definition postgres_allow (now : Z) (ip : string) (burst : Z) (refillPerSec : float) :
    M (session (gmap string memoryBucket)) db_err bool :=
  with_pool_tx (
    stmt (λ s, Ok (tt, tables s)) ;;;          (* SET LOCAL lock_timeout *)
    seed_bucket now ip burst ;;;
    b <- select_bucket ip ;;
    let '(allowed, t) := consume (refill_postgres now burst refillPerSec b) in
    update_bucket now ip t ;;;
    ret allowed).

Definition postgres_cleanup (now idleTTL : Z) : M (session (gmap string memoryBucket)) db_err unit :=
  stmt (λ s, Ok (tt, filter (λ p, idle (time_add now (- idleTTL)) p.2 ≠ true) (tables s))).

Definition drop_error {A} (r : res db_err A * session (gmap string memoryBucket)) : res unit A * session (gmap string memoryBucket) :=
  match r with (Ok a, s) => (Ok a, s) | (Err _, s) => (Err tt, s) end.

Definition postgresBucketStore : bucketStore (session (gmap string memoryBucket)) :=
  {| bs_allow now ip burst refill s := drop_error (postgres_allow now ip burst refill s);
     bs_cleanup now ttl s := drop_error (postgres_cleanup now ttl s) |}.
End postgres.

(** ** The circuit breaker *)

Definition sweepThreshold : Z := 10000.
Definition breakerCooldown : Z := 5 * second.

Record breaker := Breaker {
  callCount : Z;
  breakerOpenUntil : option Z;       (* None is the zero time *)
  breakerProbing : bool;
}.

Definition closed_breaker : breaker := Breaker 0 None false.

(** [pickStore]: whether the primary serves the request, and whether it sweeps. *)
Definition pickStore (now : Z) (b : breaker) : bool * bool * breaker :=
  let n := wrap64 (callCount b + 1) in
  let sweep := sweepThreshold <? n in
  let n := if sweep then 0 else n in
  let is_open := match breakerOpenUntil b with Some t => time_before now t | None => false end in
  if is_open then (false, sweep, Breaker n (breakerOpenUntil b) (breakerProbing b))
  else if breakerProbing b then (false, sweep, Breaker n (breakerOpenUntil b) true)
  else
    let probing := match breakerOpenUntil b with Some _ => true | None => breakerProbing b end in
    (true, sweep, Breaker n (breakerOpenUntil b) probing).

Definition onPrimarySuccess (b : breaker) : breaker := Breaker (callCount b) None false.
(** [now] is the time [allow] read before it called the store. *)
Definition onPrimaryError (now : Z) (b : breaker) : breaker :=
  Breaker (callCount b) (Some (time_add now breakerCooldown)) false.

(** ** The limiter *)

Section limiter.
Context {S1 S2 : Type} (store : bucketStore S1) (fallback : bucketStore S2).
Context (r : float) (b : Z) (idleTTL : Z).

Record limiter := Limiter {
  l_store : S1;
  l_fallback : S2;
  l_breaker : breaker;
}.

(** [allow] as one caller runs it; [now_] is its first time.Now(), [t1], [t2],
    [t3] the stores' own. *)
Definition allow (now_ t1 t2 t3 : Z) (ip : string) (l : limiter) : bool * limiter :=
  let '(usePrimary, sweep, bk) := pickStore now_ (l_breaker l) in
  if usePrimary then
    let s1 := if sweep then (bs_cleanup store t1 idleTTL (l_store l)).2 else l_store l in
    match bs_allow store t2 ip b r s1 with
    | (Ok allowed, s1) => (allowed, Limiter s1 (l_fallback l) (onPrimarySuccess bk))
    | (Err _, s1) =>
        let bk := onPrimaryError now_ bk in
        match bs_allow fallback t3 ip b r (l_fallback l) with
        | (Ok allowed, s2) => (allowed, Limiter s1 s2 bk)
        | (Err _, s2) => (true, Limiter s1 s2 bk)
        end
    end
  else
    let s2 := if sweep then (bs_cleanup fallback t1 idleTTL (l_fallback l)).2 else l_fallback l in
    match bs_allow fallback t2 ip b r s2 with
    | (Ok allowed, s2) => (allowed, Limiter (l_store l) s2 bk)
    | (Err _, s2) => (true, Limiter (l_store l) s2 bk)
    end.
End limiter.
Arguments Limiter {S1 S2} _ _ _.
Arguments l_store {S1 S2} _.
Arguments l_fallback {S1 S2} _.
Arguments l_breaker {S1 S2} _.

(** ** Interleaved requests

    What the mutex makes atomic, as steps of one breaker shared by any number of
    requests: a pick, and the outcome of a primary call in flight.  A call in
    flight is the time its request read first, and whether it is the probe. *)
Inductive rstep : relation (breaker * list (Z * bool)) :=
| Pick_primary now sweep b b' fl :
    pickStore now b = (true, sweep, b') → rstep (b, fl) (b', fl ++ [(now, breakerProbing b')])
| Pick_fallback now sweep b b' fl :
    pickStore now b = (false, sweep, b') → rstep (b, fl) (b', fl)
| Primary_succeeds now probe b l1 l2 :
    rstep (b, l1 ++ (now, probe) :: l2) (onPrimarySuccess b, l1 ++ l2)
| Primary_fails now probe b l1 l2 :
    rstep (b, l1 ++ (now, probe) :: l2) (onPrimaryError now b, l1 ++ l2).

(** ** Lemmas *)

Lemma pickStore_primary now b :
  (pickStore now b).1.1 = true ↔
  breakerProbing b = false ∧ ∀ t, breakerOpenUntil b = Some t → t ≤ now.
Proof.
  unfold pickStore, time_before. destruct (breakerOpenUntil b) as [t|];
    [destruct (Z.ltb_spec now t)|]; destruct (breakerProbing b); cbn; split; try done;
    try (intros [? Ht]; try specialize (Ht t eq_refl); done || lia);
    intros _; (split; [done|]); intros ? [= <-]; done.
Qed.

Lemma pickStore_until now b : breakerOpenUntil (pickStore now b).2 = breakerOpenUntil b.
Proof.
  unfold pickStore. repeat case_match; done.
Qed.

(** A probe is in flight whenever the breaker says so. *)
Definition probe_inv (c : breaker * list (Z * bool)) : Prop :=
  breakerProbing c.1 = true → ∃ now, (now, true) ∈ c.2.

Lemma rstep_probe_inv c c' : rstep c c' → probe_inv c → probe_inv c'.
Proof.
  unfold probe_inv. intros Hs Hi. destruct Hs as [now sweep b b' fl Hp|now sweep b b' fl Hp|now probe b l1 l2|now probe b l1 l2]; cbn in *.
  - intros Hb. rewrite Hb. exists now. apply elem_of_app. right. by left.
  - intros Hb. apply Hi. revert Hp. unfold pickStore.
    destruct (match breakerOpenUntil b with Some _ => _ | None => _ end); [by intros [= _ <-]|].
    destruct (breakerProbing b); [done|]. done.
  - done.
  - done.
Qed.

Lemma rsteps_probe_inv c c' : rtc rstep c c' → probe_inv c → probe_inv c'.
Proof. induction 1; eauto using rstep_probe_inv. Qed.

(** *** A primary that always fails *)

(** Its state counts the calls it got. *)
Definition failing_store : bucketStore nat :=
  {| bs_allow _ _ _ _ n := (Err tt, S n); bs_cleanup _ _ n := (Err tt, n) |}.

Section failing.
Context {S2 : Type} (fallback : bucketStore S2) (r : float) (b : Z) (idleTTL : Z).

(** One request after the other, at the times given. *)
Fixpoint run_requests (l : list (Z * Z * Z * Z * string)) (s : limiter (S1 := nat) (S2 := S2)) :
    limiter (S1 := nat) (S2 := S2) :=
  match l with
  | [] => s
  | (now, t1, t2, t3, ip) :: l =>
      run_requests l (allow failing_store fallback r b idleTTL now t1 t2 t3 ip s).2
  end.

(** Times do not run backwards, from [t] to [u]. *)
Fixpoint between (t u : Z) (l : list (Z * Z * Z * Z * string)) : Prop :=
  match l with
  | [] => t ≤ u
  | (now, _, _, _, _) :: l => t ≤ now ∧ between now u l
  end.

(** The primary was called [n] times since [t0], the last time at most now. *)
Definition quarantined (t0 now : Z) (s : limiter (S1 := nat) (S2 := S2)) : Prop :=
  breakerProbing (l_breaker s) = false ∧
  match l_store s with
  | O => True
  | S n => ∃ last, breakerOpenUntil (l_breaker s) = Some (last + breakerCooldown) ∧
             t0 + Z.of_nat n * breakerCooldown ≤ last ≤ now
  end.

Lemma allow_quarantined t0 t now t1 t2 t3 ip s :
  t0 ≤ t ≤ now → quarantined t0 t s →
  quarantined t0 now (allow failing_store fallback r b idleTTL now t1 t2 t3 ip s).2.
Proof.
  intros Ht [Hp Hc]. unfold allow. pose proof (pickStore_primary now (l_breaker s)) as Hpick.
  pose proof (pickStore_until now (l_breaker s)) as Hu.
  assert ((pickStore now (l_breaker s)).1.1 = false →
          breakerProbing (pickStore now (l_breaker s)).2 = false) as Hpr.
  { unfold pickStore. destruct (match breakerOpenUntil _ with Some _ => _ | None => _ end); [done|].
    rewrite Hp. done. }
  destruct (pickStore now (l_breaker s)) as [[[] sweep] bk]; cbn in *.
  - destruct (proj1 Hpick eq_refl) as [_ Hopen].
    assert (quarantined t0 now (Limiter (S (l_store s)) (l_fallback s) (onPrimaryError now bk))) as Hq.
    { split; [done|]. cbn. exists now. split; [done|].
      destruct (l_store s) as [|n]; [lia|]. destruct Hc as (last & Hl & Hlast).
      specialize (Hopen _ Hl). lia. }
    unfold quarantined in *. destruct sweep, (bs_allow fallback _ _ _ _ _) as [[|] s2]; exact Hq.
  - assert (quarantined t0 now (Limiter (l_store s) (l_fallback s) bk)) as Hq.
    { split; [by apply Hpr|]. cbn. rewrite Hu. destruct (l_store s) as [|n]; [done|].
      destruct Hc as (last & Hl & Hlast). exists last. split; [done|lia]. }
    unfold quarantined in *.
    destruct sweep, (bs_allow fallback _ _ _ _ _) as [[|] s2]; exact Hq.
Qed.

Lemma run_quarantined t0 l t u s :
  t0 ≤ t → quarantined t0 t s → between t u l → quarantined t0 u (run_requests l s).
Proof.
  revert t s. induction l as [|[[[[now t1] t2] t3] ip] l IH]; intros t s Ht Hq Hb; cbn in *.
  - destruct Hq as [Hp Hc]. split; [done|]. destruct (l_store s); [done|].
    destruct Hc as (last & ? & ?). exists last. split; [done|lia].
  - destruct Hb as [Hn Hb]. apply (IH now); [lia| |done].
    by apply (allow_quarantined t0 t).
Qed.
End failing.

Section agree.
Context `{!Driver}.

(** The two refills differ only where no time has passed. *)
Lemma refill_agree now burst r b :
  fgt (Seconds (time_sub now (lastRefill b))) 0%float = true →
  refill_postgres now burst r b = refill_memory now burst r b.
Proof. unfold refill_postgres, refill_memory. by intros ->. Qed.

(** The bucket a request finds, or is given. *)
Definition bucket_of (now : Z) (ip : string) (burst : Z) (s : gmap string memoryBucket) : memoryBucket :=
  default {| tokens := float_of_int64 burst; lastRefill := now |} (s !! ip).

Lemma postgres_allow_Ok now ip burst r s allowed s' :
  postgres_allow now ip burst r s = (Ok allowed, s') →
  let b := bucket_of now ip burst (tables s) in
  let '(ok, t) := consume (refill_postgres now burst r b) in
  allowed = ok ∧ tables s' = <[ip := {| tokens := t; lastRefill := now |}]> (tables s).
Proof.
  intros Hp. apply with_pool_tx_inv in Hp as [(e & ? & _)|(a & i & Hb & [= <-] & Ht)]; [done|].
  rewrite Ht. clear Ht s'. change (tables s) with (tables (pool_conn s)).
  generalize dependent (pool_conn s). clear s. intros s Hb.
  apply bind_Ok_inv in Hb as (u1 & s1 & H1 & Hb). apply bind_Ok_inv in Hb as (u2 & s2 & H2 & Hb).
  apply bind_Ok_inv in Hb as (b & s3 & H3 & Hb).
  apply stmt_Ok_inv in H1 as (d1 & [= <- <-] & E1 & _).
  apply stmt_Ok_inv in H2 as (d2 & [= <- <-] & E2 & _). rewrite E1 in E2.
  apply stmt_Ok_inv in H3 as (d3 & H3 & E3 & _).
  assert (tables s2 !! ip = Some (bucket_of now ip burst (tables s))) as Hl.
  { rewrite E2. unfold bucket_of. destruct (tables s !! ip) eqn:E; [done|].
    by rewrite lookup_insert_eq. }
  rewrite Hl in H3. injection H3 as <- <-. cbn zeta.
  destruct (consume _) as [ok t]. apply bind_Ok_inv in Hb as (u4 & s4 & H4 & Hb).
  apply stmt_Ok_inv in H4 as (d4 & [= <- <-] & E4 & _). injection Hb as <- <-.
  split; [done|]. rewrite E4, E3, E2. apply map_eq. intros j.
  destruct (decide (ip = j)) as [<-|Hne].
  - destruct (tables s !! ip) eqn:E; rewrite lookup_alter_eq, !lookup_insert_eq; [by rewrite E|done].
  - rewrite lookup_alter_ne, lookup_insert_ne by done.
    destruct (tables s !! ip) eqn:E; [done|]. by rewrite lookup_insert_ne.
Qed.
End agree.

(** ** Properties *)

(** C38: on the same bucket at the same time the two stores decide the same, when
    time has passed.  One caller at a time: when the Postgres store answers, the
    in-process store answers the same on the same bucket at the same time and stores
    the same bucket, if [now] is after the bucket's last refill, or it is not and
    the in-process refill leaves the tokens as they are (a new client's full bucket,
    where no refill is effective).  Excluded is a [now] at or before the last refill
    with an effective refill (clocks that differ, or a lock waited for after [now]
    was read): there the in-process store refills by the negative time and the
    Postgres store does not. *)
Theorem stores_agree `{!Driver} (now : Z) (ip : string) (burst : Z) (r : float) (s s' : session (gmap string memoryBucket))
    (allowed : bool) :
  let b := bucket_of now ip burst (tables s) in
  fgt (Seconds (time_sub now (lastRefill b))) 0%float = true ∨
    refill_memory now burst r b = tokens b ∧ fgt (Seconds (time_sub now (lastRefill b))) 0%float = false →
  bs_allow postgresBucketStore now ip burst r s = (Ok allowed, s') →
  bs_allow memoryBucketStore now ip burst r (tables s) = (Ok allowed, tables s').
Proof.
  intros b Hb Hp. cbn [bs_allow postgresBucketStore memoryBucketStore] in *. unfold drop_error in Hp.
  destruct (postgres_allow now ip burst r s) as [[a|e] s1] eqn:E; [|done]. injection Hp as -> ->.
  apply postgres_allow_Ok in E. fold b in E. cbn zeta in E. unfold memory_allow. fold (bucket_of now ip burst (tables s)).
  fold b. assert (refill_postgres now burst r b = refill_memory now burst r b) as Hr.
  { destruct Hb as [Hb|[Hb Hz]]; [by apply refill_agree|]. unfold refill_postgres. by rewrite Hz, Hb. }
  rewrite Hr in E. destruct (consume _) as [ok t]. by destruct E as [-> ->].
Qed.

(** the breaker never stays stuck.  Whatever requests interleave, once no
    primary call is in flight and the cooldown is over, the next request tries
    the primary; and while the cooldown runs, none does. *)
Theorem breaker_not_stuck (b : breaker) (fl : list (Z * bool)) (now : Z) :
  rtc rstep (closed_breaker, []) (b, fl) →
  (fl = [] → (∀ t, breakerOpenUntil b = Some t → t ≤ now) → (pickStore now b).1.1 = true) ∧
  (∀ t, breakerOpenUntil b = Some t → now < t → (pickStore now b).1.1 = false).
Proof.
  intros Hs. apply rsteps_probe_inv in Hs; [|done]. split.
  - intros -> Ht. apply pickStore_primary. split; [|done].
    destruct (breakerProbing b) eqn:E; [|done]. destruct (Hs E) as [? ?%elem_of_nil]. done.
  - intros t Ht Hlt. apply not_true_iff_false. rewrite pickStore_primary. intros [_ Hle].
    specialize (Hle t Ht). lia.
Qed.

(** a failing primary is quarantined.  While Postgres fails every call, one
    request after the other over any stretch of time calls it at most once, plus
    once per cooldown; all other requests are decided in process. *)
Theorem failing_primary_quarantined {S2} (fallback : bucketStore S2) (r : float) (b idleTTL t0 u : Z)
    (s2 : S2) (l : list (Z * Z * Z * Z * string)) :
  between t0 u l →
  let s := run_requests fallback r b idleTTL l (Limiter 0%nat s2 closed_breaker) in
  breakerCooldown * (Z.of_nat (l_store s) - 1) ≤ u - t0.
Proof.
  intros Hb. cbn zeta.
  assert (∀ l' t, between t u l' → t ≤ u) as Hle.
  { induction l' as [|[[[[n ?] ?] ?] ?] l' IH]; intros t; cbn; [done|]. intros [? ?%IH]. lia. }
  specialize (Hle l t0 Hb).
  destruct (run_quarantined fallback r b idleTTL t0 l t0 u (Limiter 0%nat s2 closed_breaker))
    as [_ Hq]; [lia|done|done|].
  destruct (l_store _) as [|n]; [unfold breakerCooldown, second, millisecond, nanosecond; lia|].
  destruct Hq as (last & _ & Hlast). lia.
Qed.

(** the half-open probe is not single.  A call picked while the circuit was
    closed that fails late resets the probing flag (and reopens the circuit only
    until five seconds after it began), so a second probe starts while the first
    is in flight. *)
Theorem two_probes_in_flight :
  ∃ b, rtc rstep (closed_breaker, [])
         (b, [(6 * second, true); (6 * second + 1, true)]).
Proof.
  eexists.
  eapply rtc_l; [eapply (Pick_primary 0); reflexivity|].
  eapply rtc_l; [eapply (Pick_primary 0); reflexivity|].
  eapply rtc_l; [apply (Primary_fails 0 _ _ [_] [])|].
  eapply rtc_l; [eapply (Pick_primary (6 * second)); reflexivity|].
  eapply rtc_l; [apply (Primary_fails 0 _ _ [] [_])|].
  eapply rtc_l; [eapply (Pick_primary (6 * second + 1)); reflexivity|].
  apply rtc_refl.
Qed.

(** ** Examples and witnesses *)

(** The limiter of the credential routes: 10 a minute, bursts of 10. *)
Definition credential_rate : float := (10 / 60)%float.

Definition demo_buckets : session (gmap string memoryBucket) := Session ∅ "" false None false 0.

(** Ten requests at once pass, the eleventh does not. *)
Fixpoint burst_at (n : nat) (s : gmap string memoryBucket) : list bool :=
  match n with
  | O => []
  | S n => match memory_allow 0 "10.0.0.1" 10 credential_rate s with
           | (Ok a, s) => a :: burst_at n s
           | (Err _, _) => []
           end
  end.
Example burst_of_eleven : burst_at 11 ∅ = repeat true 10 ++ [false].
Proof. vm_compute. reflexivity. Qed.

Lemma stores_agree_witness :
  memory_allow 7 "10.0.0.1" 10 credential_rate ∅ =
  (Ok true, tables (@postgres_allow reliable 7 "10.0.0.1" 10 credential_rate demo_buckets).2).
Proof.
  apply (@stores_agree reliable 7 "10.0.0.1" 10 credential_rate demo_buckets
           (@postgres_allow reliable 7 "10.0.0.1" 10 credential_rate demo_buckets).2 true).
  - right. vm_compute. split; reflexivity.
  - vm_compute. reflexivity.
Defined.

Lemma breaker_not_stuck_witness :
  (pickStore 9 (onPrimarySuccess closed_breaker)).1.1 = true.
Proof.
  apply (breaker_not_stuck (onPrimarySuccess (pickStore 3 closed_breaker).2) [] 9).
  - eapply rtc_l; [eapply (Pick_primary 3); reflexivity|].
    eapply rtc_l; [apply (Primary_succeeds 3 _ _ [] [])|]. apply rtc_refl.
  - reflexivity.
  - discriminate.
Defined.

Lemma failing_primary_quarantined_witness :
  let l := [(0, 0, 0, 0, "a"); (second, 0, 0, 0, "a"); (4 * second, 0, 0, 0, "b")] in
  breakerCooldown *
    (Z.of_nat (l_store (run_requests memoryBucketStore credential_rate 10 0 l
                          (Limiter 0%nat ∅ closed_breaker))) - 1) ≤ 4 * second - 0.
Proof.
  cbv zeta. apply failing_primary_quarantined. cbn. unfold second, millisecond, nanosecond. lia.
Defined.
