(* ===== verification/Leadership.v ===== *)
(** * Leadership: one poller among the replicas

    cli/poller_manager.go and pglock/.  Every replica runs a [PollerManager]: a
    loop that competes for an advisory lock of the database, and the two background
    schedulers it owns while it leads.  Admin requests on any replica call Restart,
    the shutdown calls Stop; all of them meet in the manager's mutex.

    The lock server is a parameter with the documented laws of session-level
    advisory locks ([LockServer]).  A replica is its manager (the struct's fields
    and every Run goroutine it has started), the program counter of the leader loop
    and those of the calls in flight; [sstep] interleaves all replicas, their
    goroutines, shutdowns, crashes and whatever the server does by itself. *)

From stdpp Require Import numbers gmap list relations strings.
From Stdlib Require Import ZArith Lia.
From S2P Require Import Prelude.

#[local] Open Scope Z_scope.

(** ** The reserved lock keys (pglock/keys.go) *)

Definition PollerLeaderLockKey : Z := 727200001.
Definition DigestLeaderLockKey : Z := 727200002.
Definition PruneLeaderLockKey : Z := 727200003.
Definition DomainHealthLeaderLockKey : Z := 727200004.
Definition TLSKeyBackfillLockKey : Z := 727200005.

Definition reservedLockKeys : list (string * Z) :=
  [("poller", PollerLeaderLockKey); ("digest", DigestLeaderLockKey);
   ("retention", PruneLeaderLockKey); ("domain-health", DomainHealthLeaderLockKey);
   ("tls-backfill", TLSKeyBackfillLockKey)].

Example reserved_keys_unique : NoDup (reservedLockKeys.*2).
Proof. apply (bool_decide_unpack _). vm_compute. exact I. Qed.

(** ** The database server

    Connections have names given by the client, a new one for every connect.
    [served sv q a sv'] says that the server, asked [q] in state [sv], may end in
    [sv'] with the client told [a]; [No] is an answer false, [Failed] an error of
    any kind, which tells nothing of what the server has done.  [event] is what it
    does unasked: ending a session, serving other clients. *)

Inductive request :=
| Connect (c : nat)
| TryLock (c : nat) (key : Z)     (* SELECT pg_try_advisory_lock *)
| Ping (c : nat)                  (* SELECT 1 *)
| Unlock (c : nat) (key : Z)      (* SELECT pg_advisory_unlock *)
| Close (c : nat).

Inductive answer := Yes | No | Failed.

Class LockServer := {
  server : Type;
  alive : server → nat → Prop;             (* the session is there *)
  holder : server → Z → option nat;        (* the session that holds the lock *)
  served : server → request → answer → server → Prop;
  event : server → server → Prop;
}.

(** What the code relies on: a granted lock is the session's, stays its until the
    session ends or unlocks it, and a session begins with its connect only. *)
Class LockServerLaws `(LS : LockServer) : Prop := {
  granted_holds sv c key sv' :
    served sv (TryLock c key) Yes sv' → holder sv' key = Some c;
  request_keeps sv q a sv' key c :
    served sv q a sv' → holder sv key = Some c → alive sv' c → q ≠ Unlock c key →
    holder sv' key = Some c;
  event_keeps sv sv' key c :
    event sv sv' → holder sv key = Some c → alive sv' c → holder sv' key = Some c;
  request_alive sv q a sv' c :
    served sv q a sv' → alive sv' c → alive sv c ∨ q = Connect c;
  event_alive sv sv' c : event sv sv' → alive sv' c → alive sv c;
}.

(** ** One manager

    The Run goroutines of a manager are numbered in the order they were started;
    [cancel] stands for the fields cancel and done, which belong to one of them. *)

Inductive kind := Datadog | Manual.
#[export] Instance kind_eq_dec : EqDecision kind.
Proof. solve_decision. Defined.

Record routine := Routine {
  r_kind : kind;
  r_cancelled : bool;    (* its context *)
  r_done : bool;         (* close(done) *)
}.

(** Who may hold m.mu: the leader loop, or a call by its number. *)
Inductive thread := TLoop | TCall (n : nat).
#[export] Instance thread_eq_dec : EqDecision thread.
Proof. solve_decision. Defined.

Record PollerManager := Manager {
  mu : option thread;
  leading : bool;
  cancel : option nat;
  manualCancel : option nat;
  routines : list routine;
}.

Definition NewPollerManager : PollerManager := Manager None false None None [].

Definition field (k : kind) (m : PollerManager) : option nat :=
  match k with Datadog => cancel m | Manual => manualCancel m end.
Definition set_field (k : kind) (o : option nat) (m : PollerManager) : PollerManager :=
  match k with
  | Datadog => Manager (mu m) (leading m) o (manualCancel m) (routines m)
  | Manual => Manager (mu m) (leading m) (cancel m) o (routines m)
  end.
Definition set_mu (o : option thread) (m : PollerManager) : PollerManager :=
  Manager o (leading m) (cancel m) (manualCancel m) (routines m).
Definition set_leading (b : bool) (m : PollerManager) : PollerManager :=
  Manager (mu m) b (cancel m) (manualCancel m) (routines m).
Definition set_routines (l : list routine) (m : PollerManager) : PollerManager :=
  Manager (mu m) (leading m) (cancel m) (manualCancel m) l.

Definition cancelled (r : routine) : routine := Routine (r_kind r) true (r_done r).
Definition exited (r : routine) : routine := Routine (r_kind r) (r_cancelled r) true.

(** go func() { defer close(done); p.Run(runCtx) }() *)
Definition start (k : kind) (m : PollerManager) : PollerManager :=
  set_field k (Some (length (routines m))) (set_routines (routines m ++ [Routine k false false]) m).

Definition is_running (g : nat) (m : PollerManager) : Prop :=
  ∃ r, routines m !! g = Some r ∧ r_done r = false.

(** *** stopLocked and stopManualLocked: cancel, then wait for the goroutine *)

Inductive stop_pc := SCancel | SWait.

Inductive stopLocked (k : kind) : PollerManager → stop_pc → PollerManager → option stop_pc → Prop :=
| stop_none m :
    field k m = None → stopLocked k m SCancel m None
| stop_cancel m g :
    field k m = Some g →
    stopLocked k m SCancel (set_routines (alter cancelled g (routines m)) m) (Some SWait)
| stop_wait m g r :
    field k m = Some g → routines m !! g = Some r → r_done r = true →
    stopLocked k m SWait (set_field k None m) None.

(** *** Restart *)

(** What newPollerFromStoredIntegration may return. *)
Inductive built := BuildFails | NotStarted | Started.

Inductive restart_pc := RLock | RCheck | RStop (p : stop_pc) | RBuild.

(** Its result, (started, err). *)
Inductive restart_result := RReturned (started : bool) (err : bool).

Inductive Restart (t : thread) : PollerManager → restart_pc → PollerManager → restart_pc + restart_result → Prop :=
| restart_lock m :
    mu m = None → Restart t m RLock (set_mu (Some t) m) (inl RCheck)
| restart_not_leading m :
    leading m = false → Restart t m RCheck (set_mu None m) (inr (RReturned false false))
| restart_leading m :
    leading m = true → Restart t m RCheck m (inl (RStop SCancel))
| restart_stopping m p m' p' :
    stopLocked Datadog m p m' (Some p') → Restart t m (RStop p) m' (inl (RStop p'))
| restart_stopped m p m' :
    stopLocked Datadog m p m' None → Restart t m (RStop p) m' (inl RBuild)
| restart_fails m :
    Restart t m RBuild (set_mu None m) (inr (RReturned false true))
| restart_nothing m :
    Restart t m RBuild (set_mu None m) (inr (RReturned false false))
| restart_starts m :
    Restart t m RBuild (set_mu None (start Datadog m)) (inr (RReturned true false)).

(** ** One replica *)

(** The calls from other goroutines: ConnectDatadog's Restart and serve's Stop. *)
Inductive call_pc :=
| InRestart (p : restart_pc)
| StopLock
| StopPoller (p : stop_pc)
| StopManual (p : stop_pc).

(** RunLeaderLoop, the functions it calls unfolded.  [c] is the connection of
    the lock's handle. *)
Inductive loop_pc :=
| LTop
| LTry (c : nat)                        (* TryAcquire: connected *)
| LGiveUp (c : nat)                     (* TryAcquire: closing *)
| LSleep
| LWon (c : nat)
| LManual (c : nat)
| LRestart (c : nat) (p : restart_pc)
| LBeat (c : nat)
| LRunning (c : nat)
| LDrop (c : nat)
| LStop (c : nat) (p : stop_pc)
| LStopManual (c : nat) (p : stop_pc)
| LRelease (c : nat)
| LClose (c : nat)
| LAgain
| LExit.

Record replica := Replica {
  manager : PollerManager;
  loop : loop_pc;
  calls : gmap nat call_pc;
  ctx_done : bool;
}.

Definition boot : replica := Replica NewPollerManager LTop ∅ false.

Definition set_manager (m : PollerManager) (r : replica) : replica :=
  Replica m (loop r) (calls r) (ctx_done r).
Definition goto (p : loop_pc) (r : replica) : replica :=
  Replica (manager r) p (calls r) (ctx_done r).
Definition set_call (n : nat) (o : option call_pc) (r : replica) : replica :=
  Replica (manager r) (loop r) (partial_alter (λ _, o) n (calls r)) (ctx_done r).

Section system.
Context `{LS : LockServer}.

(** A configuration of one replica and the server; [next] names connections. *)
Definition view : Type := server * nat * replica.

(** RunLeaderLoop and heartbeatUntilLost, one access to shared state, server or
    mutex at a time. *)
Inductive RunLeaderLoop : view → view → Prop :=
(* TryAcquire *)
| loop_done sv n r :
    loop r = LTop → ctx_done r = true → RunLeaderLoop (sv, n, r) (sv, n, goto LExit r)
| loop_no_connection sv n r sv' :
    loop r = LTop → served sv (Connect n) Failed sv' →
    RunLeaderLoop (sv, n, r) (sv', S n, goto LSleep r)
| loop_connected sv n r sv' :
    loop r = LTop → served sv (Connect n) Yes sv' →
    RunLeaderLoop (sv, n, r) (sv', S n, goto (LTry n) r)
| loop_acquired sv n r c sv' :
    loop r = LTry c → served sv (TryLock c PollerLeaderLockKey) Yes sv' →
    RunLeaderLoop (sv, n, r) (sv', n, goto (LWon c) r)
| loop_not_acquired sv n r c a sv' :
    loop r = LTry c → a ≠ Yes → served sv (TryLock c PollerLeaderLockKey) a sv' →
    RunLeaderLoop (sv, n, r) (sv', n, goto (LGiveUp c) r)
| loop_gave_up sv n r c a sv' :
    loop r = LGiveUp c → served sv (Close c) a sv' →
    RunLeaderLoop (sv, n, r) (sv', n, goto LSleep r)
| loop_slept sv n r :
    loop r = LSleep → ctx_done r = false → RunLeaderLoop (sv, n, r) (sv, n, goto LTop r)
| loop_sleep_done sv n r :
    loop r = LSleep → ctx_done r = true → RunLeaderLoop (sv, n, r) (sv, n, goto LExit r)
(* leading *)
| loop_leads sv n r c :
    loop r = LWon c →
    RunLeaderLoop (sv, n, r) (sv, n, goto (LManual c) (set_manager (set_leading true (manager r)) r))
| loop_startManualScheduler sv n r c :
    loop r = LManual c → mu (manager r) = None →
    RunLeaderLoop (sv, n, r)
      (sv, n, goto (LRestart c RLock)
                (set_manager (match manualCancel (manager r) with
                              | Some _ => manager r
                              | None => start Manual (manager r)
                              end) r))
| loop_restarting sv n r c p m' p' :
    loop r = LRestart c p → Restart TLoop (manager r) p m' (inl p') →
    RunLeaderLoop (sv, n, r) (sv, n, goto (LRestart c p') (set_manager m' r))
| loop_restarted sv n r c p m' res :
    loop r = LRestart c p → Restart TLoop (manager r) p m' (inr res) →
    RunLeaderLoop (sv, n, r) (sv, n, goto (LBeat c) (set_manager m' r))
(* heartbeatUntilLost *)
| beat_done sv n r c :
    loop r = LBeat c → ctx_done r = true → RunLeaderLoop (sv, n, r) (sv, n, goto (LDrop c) r)
| beat_closed sv n r c :
    loop r = LBeat c → RunLeaderLoop (sv, n, r) (sv, n, goto (LDrop c) r)
| beat_unhealthy sv n r c a sv' :
    loop r = LBeat c → a ≠ Yes → served sv (Ping c) a sv' →
    RunLeaderLoop (sv, n, r) (sv', n, goto (LDrop c) r)
| beat_healthy sv n r c sv' :
    loop r = LBeat c → served sv (Ping c) Yes sv' →
    RunLeaderLoop (sv, n, r) (sv', n, goto (LRunning c) r)
| beat_running sv n r c :
    loop r = LRunning c → mu (manager r) = None → cancel (manager r) ≠ None →
    RunLeaderLoop (sv, n, r) (sv, n, goto (LBeat c) r)
| beat_restarts sv n r c :
    loop r = LRunning c → mu (manager r) = None → cancel (manager r) = None →
    RunLeaderLoop (sv, n, r) (sv, n, goto (LRestart c RLock) r)
(* giving up the leadership *)
| loop_drops sv n r c :
    loop r = LDrop c → mu (manager r) = None →
    RunLeaderLoop (sv, n, r)
      (sv, n, goto (LStop c SCancel) (set_manager (set_leading false (set_mu (Some TLoop) (manager r))) r))
| loop_stopping sv n r c p m' p' :
    loop r = LStop c p → stopLocked Datadog (manager r) p m' (Some p') →
    RunLeaderLoop (sv, n, r) (sv, n, goto (LStop c p') (set_manager m' r))
| loop_stopped sv n r c p m' :
    loop r = LStop c p → stopLocked Datadog (manager r) p m' None →
    RunLeaderLoop (sv, n, r) (sv, n, goto (LStopManual c SCancel) (set_manager m' r))
| loop_stopping_manual sv n r c p m' p' :
    loop r = LStopManual c p → stopLocked Manual (manager r) p m' (Some p') →
    RunLeaderLoop (sv, n, r) (sv, n, goto (LStopManual c p') (set_manager m' r))
| loop_stopped_manual sv n r c p m' :
    loop r = LStopManual c p → stopLocked Manual (manager r) p m' None →
    RunLeaderLoop (sv, n, r) (sv, n, goto (LRelease c) (set_manager (set_mu None m') r))
(* Release *)
| release_closed sv n r c :
    loop r = LRelease c → RunLeaderLoop (sv, n, r) (sv, n, goto LAgain r)
| release_unlock sv n r c a sv' :
    loop r = LRelease c → served sv (Unlock c PollerLeaderLockKey) a sv' →
    RunLeaderLoop (sv, n, r) (sv', n, goto (LClose c) r)
| release_close sv n r c a sv' :
    loop r = LClose c → served sv (Close c) a sv' →
    RunLeaderLoop (sv, n, r) (sv', n, goto LAgain r)
| loop_again sv n r :
    loop r = LAgain →
    RunLeaderLoop (sv, n, r) (sv, n, goto (if ctx_done r then LExit else LTop) r).

(** The calls of other goroutines. *)
Inductive call_step (t : thread) (m : PollerManager) : call_pc → PollerManager → option call_pc → Prop :=
| call_restarting p m' p' :
    Restart t m p m' (inl p') → call_step t m (InRestart p) m' (Some (InRestart p'))
| call_restarted p m' res :
    Restart t m p m' (inr res) → call_step t m (InRestart p) m' None
| call_stop :
    mu m = None → call_step t m StopLock (set_mu (Some t) m) (Some (StopPoller SCancel))
| call_stopping p m' p' :
    stopLocked Datadog m p m' (Some p') → call_step t m (StopPoller p) m' (Some (StopPoller p'))
| call_stopped p m' :
    stopLocked Datadog m p m' None → call_step t m (StopPoller p) m' (Some (StopManual SCancel))
| call_stopping_manual p m' p' :
    stopLocked Manual m p m' (Some p') → call_step t m (StopManual p) m' (Some (StopManual p'))
| call_stopped_manual p m' :
    stopLocked Manual m p m' None → call_step t m (StopManual p) (set_mu None m') None.

(** What the threads of a replica do by themselves.  A Run goroutine returns once
    its context, a child of the process's, is done. *)
Inductive own_step : view → view → Prop :=
| own_loop v v' : RunLeaderLoop v v' → own_step v v'
| own_call sv n r k pc m' o :
    calls r !! k = Some pc → call_step (TCall k) (manager r) pc m' o →
    own_step (sv, n, r) (sv, n, set_call k o (set_manager m' r))
| own_exit sv n r g ro :
    routines (manager r) !! g = Some ro → (r_cancelled ro || ctx_done r) = true →
    own_step (sv, n, r)
      (sv, n, set_manager (set_routines (alter exited g (routines (manager r))) (manager r)) r).

Record system := System {
  sv : server;
  conns : nat;
  replicas : list replica;
}.

Inductive sstep : system → system → Prop :=
| step_own s i r sv' n' r' :
    replicas s !! i = Some r → own_step (sv s, conns s, r) (sv', n', r') →
    sstep s (System sv' n' (<[i := r']> (replicas s)))
| step_call s i r k pc :
    replicas s !! i = Some r → calls r !! k = None → pc = InRestart RLock ∨ pc = StopLock →
    sstep s (System (sv s) (conns s) (<[i := set_call k (Some pc) r]> (replicas s)))
| step_shutdown s i r :
    replicas s !! i = Some r →
    sstep s (System (sv s) (conns s) (<[i := Replica (manager r) (loop r) (calls r) true]> (replicas s)))
| step_crash s i r :
    replicas s !! i = Some r →
    sstep s (System (sv s) (conns s) (<[i := boot]> (replicas s)))
| step_server s sv' :
    event (sv s) sv' → sstep s (System sv' (conns s) (replicas s)).

(** Any number of replicas boot. *)
Definition initial (s : system) : Prop := Forall (eq boot) (replicas s).

(** *** The invariant *)

(** What a thread is doing with the manager. *)
Definition doing (r : replica) (t : thread) : option call_pc :=
  match t with
  | TCall n => calls r !! n
  | TLoop =>
      match loop r with
      | LRestart _ p => Some (InRestart p)
      | LStop _ p => Some (StopPoller p)
      | LStopManual _ p => Some (StopManual p)
      | _ => None
      end
  end.

(** Inside the mutex. *)
Definition critical (pc : call_pc) : bool :=
  match pc with InRestart RLock | StopLock => false | _ => true end.

Definition stop_ok (k : kind) (m : PollerManager) (p : stop_pc) : Prop :=
  p = SWait → ∃ g ro, field k m = Some g ∧ routines m !! g = Some ro ∧ r_cancelled ro = true.

Definition doing_ok (m : PollerManager) (pc : call_pc) : Prop :=
  match pc with
  | InRestart (RStop p) => leading m = true ∧ stop_ok Datadog m p
  | InRestart RBuild => leading m = true ∧ cancel m = None
  | StopPoller p => stop_ok Datadog m p
  | StopManual p => cancel m = None ∧ stop_ok Manual m p
  | _ => True
  end.

(** The goroutines that have not returned are those of the fields. *)
Record tracked (m : PollerManager) : Prop := {
  tr_running g ro : routines m !! g = Some ro → r_done ro = false → field (r_kind ro) m = Some g;
  tr_field k g : field k m = Some g → ∃ ro, routines m !! g = Some ro ∧ r_kind ro = k;
}.

(** The mutex is held by the one thread that is inside. *)
Record minv (m : PollerManager) (d : thread → option call_pc) : Prop := {
  mi_mu t : mu m = Some t ↔ ∃ pc, d t = Some pc ∧ critical pc = true;
  mi_doing t pc : d t = Some pc → doing_ok m pc;
  mi_tracked : tracked m;
}.

Definition leads (p : loop_pc) : bool :=
  match p with LManual _ | LRestart _ _ | LBeat _ | LRunning _ | LDrop _ => true | _ => false end.

(** The connection of the handle while anything may run under its lock. *)
Definition handle (p : loop_pc) : option nat :=
  match p with
  | LWon c | LManual c | LRestart c _ | LBeat c | LRunning c | LDrop c | LStop c _
  | LStopManual c _ => Some c
  | _ => None
  end.
Definition connection (p : loop_pc) : option nat :=
  match p with LTry c | LGiveUp c | LRelease c | LClose c => Some c | _ => handle p end.

Record rinv (r : replica) : Prop := {
  ri_minv : minv (manager r) (doing r);
  ri_leading : leading (manager r) = leads (loop r);
  ri_up k : field k (manager r) ≠ None →
    leads (loop r) = true ∨ (∃ c p, loop r = LStop c p) ∨ (k = Manual ∧ ∃ c p, loop r = LStopManual c p);
}.

Lemma critical_one m d t t' pc pc' :
  minv m d → d t = Some pc → d t' = Some pc' → critical pc = true → critical pc' = true → t = t'.
Proof.
  intros [Hmu _ _] H1 H2 C1 C2. enough (Some t = Some t') by congruence.
  rewrite <- (proj2 (Hmu t)), <- (proj2 (Hmu t')) by eauto. done.
Qed.

Lemma field_set k k' o m : field k' (set_field k o m) = if decide (k = k') then o else field k' m.
Proof. by destruct k, k'. Qed.

Lemma routines_set k o m : routines (set_field k o m) = routines m.
Proof. by destruct k. Qed.

Lemma lookup_alter_routine (f : routine → routine) (g g' : nat) (l : list routine) ro :
  alter f g l !! g' = Some ro → ∃ ro0, l !! g' = Some ro0 ∧ (ro = f ro0 ∧ g = g' ∨ ro = ro0 ∧ g ≠ g').
Proof.
  destruct (decide (g = g')) as [->|Hne].
  - rewrite list_lookup_alter_eq. destruct (l !! g'); cbn; [|done]. intros [= <-]. eauto 6.
  - rewrite list_lookup_alter_ne by done. eauto 6.
Qed.

Lemma alter_routine_kind (f : routine → routine) (g g' : nat) (l : list routine) ro :
  (∀ r, r_kind (f r) = r_kind r) → l !! g' = Some ro →
  ∃ ro', alter f g l !! g' = Some ro' ∧ r_kind ro' = r_kind ro.
Proof.
  intros Hf Hl. destruct (decide (g = g')) as [->|Hne].
  - rewrite list_lookup_alter_eq, Hl. cbn. eauto.
  - rewrite list_lookup_alter_ne, Hl by done. eauto.
Qed.

(** Cancelling a goroutine or its return. *)
Lemma alter_tracked (f : routine → routine) g m :
  (∀ r, r_kind (f r) = r_kind r) → (∀ r, r_done (f r) = false → r_done r = false) →
  tracked m → tracked (set_routines (alter f g (routines m)) m).
Proof.
  intros Hk Hd [Hr Hf]. split.
  - intros g' ro. cbn [routines set_routines]. intros (ro0 & Hl & Hc)%lookup_alter_routine Hdone.
    assert (field (r_kind ro0) m = Some g') as E.
    { destruct Hc as [[-> _]|[-> _]]; eauto. }
    destruct Hc as [[-> _]|[-> _]]; [rewrite Hk|]; by destruct (r_kind ro0).
  - intros k g' Hg. assert (field k m = Some g') as Hg' by by destruct k.
    destruct (Hf k g' Hg') as (ro & Hl & <-). by apply alter_routine_kind.
Qed.

Lemma start_tracked k m : field k m = None → tracked m → tracked (start k m).
Proof.
  intros Hn [Hr Hf]. unfold start. split.
  - intros g ro. rewrite routines_set, field_set. cbn [set_routines routines].
    intros [Hl|[? Hl]]%lookup_app_Some Hd.
    + rewrite decide_False; [by destruct (r_kind ro) eqn:E; cbn; rewrite <- (Hr _ _ Hl Hd), E|].
      intros ->. by rewrite (Hr _ _ Hl Hd) in Hn.
    + destruct (g - length (routines m))%nat eqn:E; [|done]. injection Hl as <-. cbn [r_kind].
      rewrite decide_True by done. f_equal. lia.
  - intros k' g. rewrite routines_set, field_set. cbn [set_routines routines].
    case_decide as Hk.
    + intros [= <-]. rewrite lookup_app_r, Nat.sub_diag by done. subst. eauto.
    + intros Hg. assert (field k' m = Some g) as Hg' by by destruct k'.
      destruct (Hf k' g Hg') as (ro & Hl & ?). exists ro. split; [|done]. by apply lookup_app_l_Some.
Qed.

(** What stopLocked does to the manager. *)
Lemma stopLocked_effect k m p m' o :
  stopLocked k m p m' o → stop_ok k m p → tracked m →
  tracked m' ∧ leading m' = leading m ∧ mu m' = mu m ∧
  (∀ k', k' ≠ k → field k' m' = field k' m) ∧ (field k m' = field k m ∨ field k m' = None) ∧
  match o with Some p' => stop_ok k m' p' | None => field k m' = None end.
Proof.
  intros Hs Hok Htr. destruct Hs as [m Hn|m g Hg|m g ro Hg Hl Hd].
  - split_and!; auto.
  - destruct (tr_field m Htr k g Hg) as (ro & Hl & Hk).
    assert (∀ k', field k' (set_routines (alter cancelled g (routines m)) m) = field k' m) as Hfe by by intros [].
    split; [by apply alter_tracked|]. split; [done|]. split; [done|]. split; [done|].
    split; [by left|]. intros _. exists g, (cancelled ro). rewrite Hfe. split; [done|].
    cbn [set_routines routines]. by rewrite list_lookup_alter_eq, Hl.
  - split.
    { destruct Htr as [Hr Hf]. split.
      - intros g' ro'. rewrite routines_set, field_set. intros Hl' Hd'.
        rewrite decide_False; [eauto|]. intros ->. specialize (Hr _ _ Hl' Hd'). congruence.
      - intros k' g'. rewrite routines_set, field_set. case_decide; [done|eauto]. }
    assert (leading (set_field k None m) = leading m ∧ mu (set_field k None m) = mu m) as [-> ->] by by destruct k.
    rewrite field_set, decide_True by done. do 2 (split; [done|]). split; [|auto].
    intros k' Hne. by rewrite field_set, decide_False.
Qed.
Lemma field_mu k o m : field k (set_mu o m) = field k m.
Proof. by destruct k. Qed.

Lemma tracked_mu o m : tracked m → tracked (set_mu o m).
Proof. intros [Hr Hf]. split; intros *; rewrite field_mu; eauto. Qed.

Lemma doing_ok_mu o m pc : doing_ok m pc → doing_ok (set_mu o m) pc.
Proof. done. Qed.

(** A step of a thread takes the mutex, keeps it or gives it back. *)
Inductive mutex_step (t : thread) (m : PollerManager) (pc : call_pc) (m' : PollerManager) : option call_pc → Prop :=
| takes pc' : critical pc = false → critical pc' = true → mu m = None → m' = set_mu (Some t) m →
    mutex_step t m pc m' (Some pc')
| keeps pc' : critical pc = true → critical pc' = true → mu m' = mu m → mutex_step t m pc m' (Some pc')
| leaves : critical pc = true → mu m' = None → mutex_step t m pc m' None.

(** The five parts of the lemma below. *)
Ltac split5 := refine (conj _ (conj _ (conj _ (conj _ _)))).

Lemma call_step_effect t m pc m' o :
  call_step t m pc m' o → doing_ok m pc → tracked m →
  tracked m' ∧ leading m' = leading m ∧ from_option (doing_ok m') True o ∧ mutex_step t m pc m' o ∧
  (∀ k, field k m' ≠ None → field k m ≠ None ∨ k = Datadog ∧ leading m = true).
Proof.
  intros Hs Hok Htr.
  assert (∀ k p m1 o1, stopLocked k m p m1 o1 → stop_ok k m p →
    tracked m1 ∧ leading m1 = leading m ∧ mu m1 = mu m ∧ (∀ k', field k' m1 ≠ None → field k' m ≠ None) ∧
    (∀ k', field k' m = None → field k' m1 = None) ∧
    match o1 with Some p' => stop_ok k m1 p' | None => field k m1 = None end) as Hstop.
  { intros k p m1 o1 H1 H2. destruct (stopLocked_effect k m p m1 o1 H1 H2 Htr) as (? & ? & ? & Hf & Hk & ?).
    split_and!; try done; intros k'; (destruct (decide (k' = k)) as [->|]; [|by rewrite Hf]);
      destruct Hk as [->| ->]; done. }
  destruct Hs as [p m1 p' Hr|p m1 rs Hr|Hmu|p m1 p' Hst|p m1 Hst|p m1 p' Hst|p m1 Hst].
  - inversion Hr; subst; cbn in Hok.
    + split5; [by apply tracked_mu|done|done|by apply takes|intros k; rewrite field_mu; auto].
    + split5; [done|done|by split|by apply keeps|auto].
    + match goal with Hx : stopLocked _ _ _ _ _ |- _ => pose proof (Hstop _ _ _ _ Hx (proj2 Hok)) as Hst end.
      destruct Hst as (? & Hl & ? & Hf & _ & ?).
      split5; [done|done|cbn; rewrite Hl; split; [apply Hok|done]|by apply keeps|auto].
    + match goal with Hx : stopLocked _ _ _ _ _ |- _ => pose proof (Hstop _ _ _ _ Hx (proj2 Hok)) as Hst end.
      destruct Hst as (? & Hl & ? & Hf & _ & ?).
      split5; [done|done|cbn; rewrite Hl; split; [apply Hok|done]|by apply keeps|auto].
  - inversion Hr; subst; cbn in Hok; (split5; [apply tracked_mu|done|done|by apply leaves|]);
      try done; try (intros k; rewrite field_mu; auto).
    + apply start_tracked; [apply Hok|done].
    + unfold start. rewrite field_set. case_decide; [subst; right; tauto|]. intros ?. left. by destruct k.
  - split5; [by apply tracked_mu|done|done|by apply takes|intros k; rewrite field_mu; auto].
  - destruct (Hstop _ _ _ _ Hst Hok) as (? & Hl & ? & Hf & _ & ?).
    split5; [done|done|done|by apply keeps|auto].
  - destruct (Hstop _ _ _ _ Hst Hok) as (? & Hl & ? & Hf & _ & ?).
    split5; [done|done|done|by apply keeps|auto].
  - destruct Hok as [Hc Hok]. destruct (Hstop _ _ _ _ Hst Hok) as (? & Hl & ? & Hf & Hn & ?).
    split5; [done|done|split; [by apply (Hn Datadog)|done]|by apply keeps|auto].
  - destruct Hok as [Hc Hok]. destruct (Hstop _ _ _ _ Hst Hok) as (? & Hl & ? & Hf & Hn & ?).
    split5; [by apply tracked_mu|done|done|by apply leaves|intros k; rewrite field_mu; auto].
Qed.

Lemma not_critical_ok m m' pc : critical pc = false → doing_ok m pc → doing_ok m' pc.
Proof. by destruct pc as [[| |[]|]| |[]|[]]. Qed.

(** A thread's step keeps the invariant of the manager. *)
Lemma call_step_minv t m pc m' o d d' :
  minv m d → d t = Some pc → call_step t m pc m' o → d' t = o → (∀ t', t' ≠ t → d' t' = d t') → minv m' d'.
Proof.
  intros Hm Hd Hs Ht Ho. pose proof (call_step_effect _ _ _ _ _ Hs (mi_doing _ _ Hm t pc Hd) (mi_tracked _ _ Hm))
    as (Htr & _ & Hok & Hmu & _). split; [..|done].
  - intros t'. destruct (decide (t' = t)) as [->|Hne].
    + rewrite Ht. destruct Hmu as [pc' _ Hc _ ->|pc' Hc1 Hc2 ->|_ ->]; [split; eauto| |split; [done|by intros (? & ? & _)]].
      rewrite (mi_mu _ _ Hm). split; intros _; eauto.
    + rewrite Ho by done. rewrite <- (mi_mu _ _ Hm).
      destruct Hmu as [pc' _ _ Hn ->|pc' Hc _ ->|Hc ->]; [|done|].
      * cbn. rewrite Hn. split; congruence.
      * rewrite (proj2 (mi_mu _ _ Hm t)) by eauto. split; congruence.
  - intros t' pc' Hd'. destruct (decide (t' = t)) as [->|Hne]; [by rewrite Hd' in Ht; subst|].
    rewrite Ho in Hd' by done. pose proof (mi_doing _ _ Hm _ _ Hd') as Hk.
    destruct (critical pc') eqn:Hc'; [|by eapply not_critical_ok].
    destruct Hmu as [pc1 _ _ _ ->|pc1 Hc _ _|Hc _]; [done|..];
      by destruct Hne; eapply (critical_one m d t' t); eauto.
Qed.
Lemma minv_free m d t pc : minv m d → mu m = None → d t = Some pc → critical pc = false.
Proof.
  intros Hm Hn Hd. apply not_true_is_false. intros Hc.
  enough (mu m = Some t) by congruence. apply (mi_mu _ _ Hm). eauto.
Qed.

(** Nobody inside the mutex: the manager may change as long as it stays tracked,
    and the loop may move among places outside it. *)
Lemma minv_outside m m' d d' :
  minv m d → (∀ t, t ≠ TLoop → d' t = d t) →
  (∀ o, o = d TLoop ∨ o = d' TLoop → from_option critical false o = false) →
  (m' = m ∨ mu m = None ∧ mu m' = None ∧ tracked m') → minv m' d'.
Proof.
  intros Hm Ho Hcr Hm'.
  assert (∀ t, (∃ pc, d' t = Some pc ∧ critical pc = true) ↔ (∃ pc, d t = Some pc ∧ critical pc = true)) as Hiff.
  { intros t. destruct (decide (t = TLoop)) as [->|Hne]; [|by rewrite Ho].
    pose proof (Hcr _ (or_introl eq_refl)) as H1. pose proof (Hcr _ (or_intror eq_refl)) as H2.
    split; intros (pc & E & Hc); rewrite E in *; cbn in *; congruence. }
  split.
  - intros t. rewrite Hiff. destruct Hm' as [->|(H1 & H2 & _)]; [apply Hm|].
    rewrite H2, <- H1. apply Hm.
  - intros t pc Hd. destruct (critical pc) eqn:Hc.
    + destruct (proj1 (Hiff t)) as (pc' & Hd' & Hc'); [eauto|].
      assert (d t = Some pc) as E.
      { destruct (decide (t = TLoop)) as [->|]; [|by rewrite <- Ho].
        specialize (Hcr _ (or_introl eq_refl)). rewrite Hd' in Hcr. cbn in Hcr. congruence. }
      destruct Hm' as [->|(H1 & _)]; [by apply Hm in E|].
      rewrite (minv_free _ _ _ _ Hm H1 E) in Hc. done.
    + by destruct pc as [[| |[]|]| |[]|[]].
  - destruct Hm' as [->|(_ & _ & ?)]; [apply Hm|done].
Qed.

Definition outside (p : loop_pc) : bool :=
  match p with LRestart _ RLock => true | LRestart _ _ | LStop _ _ | LStopManual _ _ => false | _ => true end.

Lemma doing_goto p r t : t ≠ TLoop → doing (goto p r) t = doing r t.
Proof. by destruct t. Qed.

Lemma outside_doing r : outside (loop r) = true → from_option critical false (doing r TLoop) = false.
Proof. cbn. by destruct (loop r) as [| | | | | |? [| | |]| | | | | | | | |]. Qed.

Lemma outside_up r k : rinv r → outside (loop r) = true → field k (manager r) ≠ None → leads (loop r) = true.
Proof. intros Hr Ho [?|[(? & ? & E)|(_ & ? & ? & E)]]%(ri_up _ Hr); [done|by rewrite E in Ho..]. Qed.

Lemma rinv_goto r p :
  rinv r → outside (loop r) = true → outside p = true → leads p = leads (loop r) → rinv (goto p r).
Proof.
  intros Hr H1 H2 Hl. split.
  - apply (minv_outside (manager r) _ (doing r)); [apply Hr|apply doing_goto| |by left].
    intros o [->| ->]; [by apply outside_doing|]. by apply (outside_doing (goto p r)).
  - cbn. rewrite Hl. apply Hr.
  - intros k Hk. left. cbn. rewrite Hl. by apply (outside_up r k).
Qed.

Lemma rinv_act r pc m' o p :
  rinv r → doing r TLoop = Some pc → call_step TLoop (manager r) pc m' o →
  doing (goto p (set_manager m' r)) TLoop = o → leads p = leads (loop r) →
  (leads p = true ∨ (∃ c q, p = LStop c q) ∨ field Datadog m' = None ∧ (∃ c q, p = LStopManual c q) ∨
   field Datadog m' = None ∧ field Manual m' = None) →
  rinv (goto p (set_manager m' r)).
Proof.
  intros Hr Hd Hs Ho Hl Hup. pose proof (ri_minv _ Hr) as Hm. split.
  - by eapply call_step_minv; [exact Hm|exact Hd|exact Hs|exact Ho|intros []].
  - cbn. rewrite Hl, <- (ri_leading _ Hr).
    by apply (call_step_effect _ _ _ _ _ Hs (mi_doing _ _ Hm _ _ Hd) (mi_tracked _ _ Hm)).
  - intros k Hk. cbn. destruct Hup as [?|[?|[(? & ?)|(? & ?)]]]; [by left|right; by left|..].
    + destruct k; [done|right; right; done].
    + by destruct k.
Qed.
Lemma call_up m pc m' o :
  doing_ok m pc → tracked m → call_step TLoop m pc m' o →
  match pc, o with
  | _, Some (StopManual _) => field Datadog m' = None
  | StopManual _, None => field Datadog m' = None ∧ field Manual m' = None
  | _, _ => True
  end.
Proof.
  intros Hd Htr Hs.
  pose proof (call_step_effect _ _ _ _ _ Hs Hd Htr) as (_ & _ & Ho & _).
  destruct Hs as [| | | | | |p m1 Hst]; cbn in *; try done; try apply Ho.
  destruct Hd as [Hc Hok']. destruct (stopLocked_effect _ _ _ _ _ Hst Hok' Htr) as (_ & _ & _ & Hf & _ & Hn).
  split; [|done]. rewrite <- Hc. by apply (Hf Datadog).
Qed.

Lemma field_lead k b m : field k (set_leading b m) = field k m.
Proof. by destruct k. Qed.

Lemma tracked_lead b m : tracked m → tracked (set_leading b m).
Proof. intros [Hr Hf]. split; intros *; rewrite field_lead; eauto. Qed.

(** m.leading.Store(true), outside the mutex. *)
Lemma minv_lead m d : minv m d → minv (set_leading true m) d.
Proof.
  intros [Hmu Hd Htr]. split; [done| |by apply tracked_lead].
  intros t pc Ht. specialize (Hd t pc Ht). by destruct pc as [[| |[]|]| |[]|[]]; try (split; [done|apply Hd]).
Qed.

Lemma minv_manual m d d' :
  minv m d → mu m = None → (∀ t, t ≠ TLoop → d' t = d t) →
  (∀ o, o = d TLoop ∨ o = d' TLoop → from_option critical false o = false) →
  minv (match manualCancel m with Some _ => m | None => start Manual m end) d'.
Proof.
  intros Hm Hmu Hd Hc. apply (minv_outside m _ d); [done..|]. right.
  destruct (manualCancel m) eqn:E; [split; [done|split; [done|apply Hm]]|].
  split; [done|]. split; [done|]. apply start_tracked; [done|apply Hm].
Qed.

(** Giving up: the loop enters the mutex and clears the flag. *)
Lemma minv_drop m d d' :
  minv m d → mu m = None → (∀ t, t ≠ TLoop → d' t = d t) → d' TLoop = Some (StopPoller SCancel) →
  minv (set_leading false (set_mu (Some TLoop) m)) d'.
Proof.
  intros Hm Hmu Ho Hd. split.
  - intros t. cbn. split; [intros [= <-]; eauto|]. intros (pc & Ht & Hc).
    destruct (decide (t = TLoop)) as [->|Hne]; [done|]. rewrite Ho in Ht by done.
    by rewrite (minv_free _ _ _ _ Hm Hmu Ht) in Hc.
  - intros t pc Ht. destruct (decide (t = TLoop)) as [->|Hne].
    + rewrite Hd in Ht. injection Ht as <-. done.
    + rewrite Ho in Ht by done. eapply not_critical_ok; [by eapply minv_free|by apply Hm in Ht].
  - apply tracked_lead, tracked_mu, Hm.
Qed.

Lemma loop_rinv v v' : RunLeaderLoop v v' → rinv v.2 → rinv v'.2.
Proof.
  intros Hs Hr. pose proof (ri_minv _ Hr) as Hm.
  destruct Hs as [sv n r E|sv n r sv' E|sv n r sv' E|sv n r c sv' E|sv n r c a sv' E|sv n r c a sv' E|sv n r E|sv n r E
    |sv n r c E|sv n r c E Hmu|sv n r c p m' p' E Hs|sv n r c p m' res E Hs
    |sv n r c E|sv n r c E|sv n r c a sv' E|sv n r c sv' E|sv n r c E|sv n r c E
    |sv n r c E Hmu|sv n r c p m' p' E Hs|sv n r c p m' E Hs|sv n r c p m' p' E Hs|sv n r c p m' E Hs
    |sv n r c E|sv n r c a sv' E|sv n r c a sv' E|sv n r E]; cbn [snd] in *;
    try (apply rinv_goto; [done|by rewrite E|done|by rewrite E]).
  all: assert (∀ pc, doing r TLoop = Some pc → doing_ok (manager r) pc) as Hok by apply Hm.
  all: assert (∀ o, o = doing r TLoop ∨ o = None ∨ o = Some (InRestart RLock) →
         outside (loop r) = true → from_option critical false o = false) as Hout
    by (intros o [->|[->| ->]] Ho; [by apply outside_doing|done..]).
  all: cbn [doing] in Hok; rewrite E in Hok, Hout.
  - (* m.leading.Store(true) *) split; [|done|by left]. apply minv_lead.
    apply (minv_outside (manager r) _ (doing r)); [done|by intros []| |by left].
    intros o Ho. apply Hout; [cbn in Ho; rewrite E in Ho; tauto|done].
  - (* startManualScheduler *) split; [| |by left].
    + apply (minv_manual _ (doing r)); [done|done|by intros []|].
      intros o Ho. apply Hout; [cbn in Ho; rewrite E in Ho; tauto|done].
    + cbn. pose proof (ri_leading _ Hr) as Hl. rewrite E in Hl. by destruct (manualCancel _).
  - apply (rinv_act _ (InRestart p) _ (Some (InRestart p'))); [done|cbn; by rewrite E|by constructor|done|by rewrite E|by left].
  - apply (rinv_act _ (InRestart p) _ None); [done|cbn; by rewrite E|by econstructor|done|by rewrite E|by left].
  - (* loop_drops *) split; [|done|right; left; by eexists _, _].
    apply (minv_drop _ (doing r)); [done|done|by intros []|done].
  - apply (rinv_act _ (StopPoller p) _ (Some (StopPoller p'))); [done|cbn; by rewrite E|by constructor|done|by rewrite E|].
    right; left; by eexists _, _.
  - assert (call_step TLoop (manager r) (StopPoller p) m' (Some (StopManual SCancel))) as Ha by by constructor.
    apply (rinv_act _ (StopPoller p) _ (Some (StopManual SCancel))); [done|cbn; by rewrite E|done|done|by rewrite E|].
    right; right; left. split; [|by eexists _, _]. by apply (call_up _ _ _ _ (Hok _ eq_refl) (mi_tracked _ _ Hm) Ha).
  - assert (call_step TLoop (manager r) (StopManual p) m' (Some (StopManual p'))) as Ha by by constructor.
    apply (rinv_act _ (StopManual p) _ (Some (StopManual p'))); [done|cbn; by rewrite E|done|done|by rewrite E|].
    right; right; left. split; [|by eexists _, _]. by apply (call_up _ _ _ _ (Hok _ eq_refl) (mi_tracked _ _ Hm) Ha).
  - assert (call_step TLoop (manager r) (StopManual p) (set_mu None m') None) as Ha by by constructor.
    apply (rinv_act _ (StopManual p) _ None); [done|cbn; by rewrite E|done|done|by rewrite E|].
    right; right; right. by apply (call_up _ _ _ _ (Hok _ eq_refl) (mi_tracked _ _ Hm) Ha).
  - (* loop_again *) by destruct (ctx_done r); apply rinv_goto; rewrite ?E.
Qed.

Lemma own_rinv v v' : own_step v v' → rinv v.2 → rinv v'.2.
Proof.
  intros Hs Hr. pose proof (ri_minv _ Hr) as Hm.
  destruct Hs as [v v' Hs|sv n r k pc m' o Hc Hs|sv n r g ro Hg Hx]; cbn [snd] in *; [by eapply loop_rinv|..].
  - pose proof (call_step_effect _ _ _ _ _ Hs (mi_doing _ _ Hm (TCall k) pc Hc) (mi_tracked _ _ Hm))
      as (_ & Hl & _ & _ & Hf). split.
    + eapply (call_step_minv (TCall k)); [exact Hm|exact Hc|exact Hs|by cbn; rewrite lookup_partial_alter_eq|].
      intros [|k'] Hne; [done|]. cbn. rewrite lookup_partial_alter_ne; congruence.
    + cbn. rewrite Hl. apply Hr.
    + intros k' Hk'. destruct (Hf k' Hk') as [Hk|[_ Hk]]; cbn; [by apply (ri_up _ Hr)|]. left. by rewrite <- (ri_leading _ Hr).
  - split; [|apply Hr|intros []; [apply (ri_up _ Hr Datadog)|apply (ri_up _ Hr Manual)]].
    split; [apply Hm| |by apply alter_tracked; [..|apply Hm]].
    intros t pc Hd%(mi_doing _ _ Hm). assert (∀ k p, stop_ok k (manager r) p →
      stop_ok k (set_routines (alter exited g (routines (manager r))) (manager r)) p) as Hso.
    { intros k p Hp Hw. destruct (Hp Hw) as (g' & ro' & Hg' & Hl & Hc).
      exists g'. destruct (decide (g = g')) as [->|Hne]; eexists; (split; [by destruct k|]); cbn.
      - rewrite list_lookup_alter_eq, Hl. by split.
      - by rewrite list_lookup_alter_ne. }
    destruct pc as [[| | |]| | |]; cbn in *; try done; try (split; [apply Hd|]); apply Hso; by apply Hd.
Qed.
(** *** The replicas and the server *)

Record sinv (s : system) : Prop := {
  si_rinv i r : replicas s !! i = Some r → rinv r;
  si_conn i r c : replicas s !! i = Some r → connection (loop r) = Some c → (c < conns s)%nat;
  si_uniq i j ri rj c : replicas s !! i = Some ri → replicas s !! j = Some rj →
    connection (loop ri) = Some c → connection (loop rj) = Some c → i = j;
  si_lock i r c : replicas s !! i = Some r → handle (loop r) = Some c → alive (sv s) c →
    holder (sv s) PollerLeaderLockKey = Some c;
}.

Lemma handle_connection p c : handle p = Some c → connection p = Some c.
Proof. by destruct p. Qed.

Context `{LSL : !LockServerLaws LS}.

(** How a replica's own step meets the server: its connections are its own. *)
Lemma own_links sv n r sv' n' r' :
  own_step (sv, n, r) (sv', n', r') →
  (n' = n ∨ n' = S n) ∧
  (∀ c, connection (loop r') = Some c → connection (loop r) = Some c ∨ c = n ∧ n' = S n) ∧
  (sv' = sv ∨ ∃ q a, served sv q a sv' ∧ (∀ c, q = Connect c → c = n) ∧
     (∀ c key, q = Unlock c key → connection (loop r) = Some c ∧ handle (loop r') = None)) ∧
  (∀ c, handle (loop r') = Some c → handle (loop r) = Some c ∨ holder sv' PollerLeaderLockKey = Some c).
Proof.
  intros Hs. inversion Hs as [v v' Hl|? ? ? ? ? ? ? ? Hc|]; subst; [|by split_and!; auto..].
  inversion Hl; subst; cbn [loop goto set_manager connection handle];
    match goal with E : loop _ = _ |- _ => rewrite E end; try destruct (ctx_done r); cbn [connection handle];
    (split; [auto|split; [by intros ? [= <-]; auto|split; [|by intros ? [= <-]; eauto using granted_holds]]]);
    try (by left); right; eexists _, _; (split; [done|split; naive_solver]).
Qed.

Lemma sinv_own s i r sv' n' r' :
  sinv s → replicas s !! i = Some r → own_step (sv s, conns s, r) (sv', n', r') →
  sinv (System sv' n' (<[i := r']> (replicas s))).
Proof.
  intros [H1 H2 H3 H4] Hi Hs. pose proof (own_rinv _ _ Hs (H1 i r Hi)) as Hr'.
  destruct (own_links _ _ _ _ _ _ Hs) as (Hn & Hc & Hsv & Hh).
  assert (i < length (replicas s))%nat as Hlen by by eapply lookup_lt_Some.
  assert (∀ j rj c, replicas s !! j = Some rj → handle (loop rj) = Some c →
            (j = i → handle (loop r') ≠ None) → alive sv' c → holder sv' PollerLeaderLockKey = Some c) as Hkeep.
  { intros j rj c Hj Hhj Hji Ha. pose proof (H2 _ _ _ Hj (handle_connection _ _ Hhj)) as Hlt.
    destruct Hsv as [->|(q & a & Hq & Hqc & Hqu)]; [by eapply H4|].
    eapply request_keeps; [done| |done|].
    - eapply H4; [done..|]. destruct (request_alive _ _ _ _ _ Hq Ha) as [?|E]; [done|].
      apply Hqc in E. lia.
    - intros E. destruct (Hqu _ _ E) as [Hcr Hnone].
      apply (Hji (H3 _ _ _ _ _ Hj Hi (handle_connection _ _ Hhj) Hcr) Hnone). }
  split; cbn [sv conns replicas].
  - intros j rj [(<- & <- & _)|[Hne Hj]]%list_lookup_insert_Some; eauto.
  - intros j rj c [(<- & <- & _)|[Hne Hj]]%list_lookup_insert_Some Hcc.
    + destruct (Hc c Hcc) as [Hc'|[-> ->]]; [specialize (H2 _ _ _ Hi Hc')|]; lia.
    + specialize (H2 _ _ _ Hj Hcc). lia.
  - intros j k rj rk c [(<- & <- & _)|[Hne Hj]]%list_lookup_insert_Some
      [(<- & <- & _)|[Hne' Hk]]%list_lookup_insert_Some Hcj Hck; [done|..|by eauto].
    + destruct (Hc c Hcj) as [Hc'|[-> ->]]; [by eauto|]. specialize (H2 _ _ _ Hk Hck). lia.
    + destruct (Hc c Hck) as [Hc'|[-> ->]]; [by eauto|]. specialize (H2 _ _ _ Hj Hcj). lia.
  - intros j rj c [(<- & <- & _)|[Hne Hj]]%list_lookup_insert_Some Hhj Ha.
    + destruct (Hh c Hhj) as [Hho|?]; [|done]. by apply (Hkeep i r c); [..|congruence|].
    + by apply (Hkeep j rj c).
Qed.

(** A replica that changes nothing but its flag or its calls, or starts anew. *)
Lemma sinv_same s i r r' :
  sinv s → replicas s !! i = Some r → rinv r' → loop r' = loop r ∨ loop r' = LTop →
  sinv (System (sv s) (conns s) (<[i := r']> (replicas s))).
Proof.
  intros [H1 H2 H3 H4] Hi Hr' Hl.
  assert (∀ c, connection (loop r') = Some c → connection (loop r) = Some c) as Hc
    by by (intros c; destruct Hl as [->| ->]).
  assert (∀ c, handle (loop r') = Some c → handle (loop r) = Some c) as Hh
    by by (intros c; destruct Hl as [->| ->]).
  split; cbn [sv conns replicas].
  - intros j rj [(<- & <- & _)|[Hne Hj]]%list_lookup_insert_Some; eauto.
  - intros j rj c [(<- & <- & _)|[Hne Hj]]%list_lookup_insert_Some Hcc; eauto.
  - intros j k rj rk c [(<- & <- & _)|[Hne Hj]]%list_lookup_insert_Some
      [(<- & <- & _)|[Hne' Hk]]%list_lookup_insert_Some Hcj Hck; eauto.
  - intros j rj c [(<- & <- & _)|[Hne Hj]]%list_lookup_insert_Some Hhj Ha; eauto.
Qed.

Lemma boot_rinv : rinv boot.
Proof.
  split; [|done|by intros []]. split.
  - intros [|k]; cbn; [by split; [|intros (? & ? & _)]|]. rewrite lookup_empty. by split; [|intros (? & ? & _)].
  - intros [|k] pc; cbn; [done|]. by rewrite lookup_empty.
  - by split; [|intros []].
Qed.

Lemma rinv_shutdown r : rinv r → rinv (Replica (manager r) (loop r) (calls r) true).
Proof. intros Hr. split; [|apply Hr|intros []; apply (ri_up _ Hr _)]. by destruct (ri_minv _ Hr); split. Qed.

Lemma rinv_call r k pc :
  rinv r → calls r !! k = None → critical pc = false → rinv (set_call k (Some pc) r).
Proof.
  intros Hr Hn Hc. split; [|apply Hr|intros []; [apply (ri_up _ Hr Datadog)|apply (ri_up _ Hr Manual)]].
  destruct (ri_minv _ Hr) as [Hmu Hd Htr]. split; [| |done].
  - intros t. cbn [manager set_call]. rewrite Hmu. destruct t as [|k']; [done|]. cbn.
    destruct (decide (k = k')) as [<-|Hne]; [|by rewrite lookup_partial_alter_ne].
    rewrite Hn, lookup_partial_alter_eq.
    split; [by intros (? & ? & _)|]. intros (? & [= <-] & ?). congruence.
  - intros [|k'] pc'; cbn; [apply (Hd TLoop)|]. destruct (decide (k = k')) as [<-|Hne].
    + rewrite lookup_partial_alter_eq. intros [= <-]. by eapply not_critical_ok with (m := NewPollerManager); [|destruct pc as [[| |[]|]| |[]|[]]].
    + rewrite lookup_partial_alter_ne by done. apply (Hd (TCall k')).
Qed.

Lemma sstep_sinv s s' : sstep s s' → sinv s → sinv s'.
Proof.
  intros Hs Hi. destruct Hs as [s i r sv' n' r' Hr Ho|s i r k pc Hr Hn Hpc|s i r Hr|s i r Hr|s sv' He].
  - by eapply sinv_own.
  - eapply sinv_same; [done..| |by left]. apply rinv_call; [by eapply si_rinv|done|by destruct Hpc as [->| ->]].
  - eapply sinv_same; [done..| |by left]. apply rinv_shutdown. by eapply si_rinv.
  - eapply sinv_same; [done..|apply boot_rinv|by right].
  - destruct Hi as [H1 H2 H3 H4]. split; [done..|]. cbn. intros i r c Hi Hh Ha.
    eapply event_keeps; [done| |done]. eapply H4; [done..|]. by eapply event_alive.
Qed.

Lemma reachable_sinv s0 s : initial s0 → rtc sstep s0 s → sinv s.
Proof.
  intros H0 Hs. assert (sinv s0) as Hi.
  { assert (∀ i r, replicas s0 !! i = Some r → r = boot) as Hb.
    { intros i r Hr. by rewrite (proj1 (Forall_forall _ _) H0 r) by by eapply list_elem_of_lookup_2. }
    split.
    - intros i r ->%Hb. apply boot_rinv.
    - by intros i r c ->%Hb.
    - by intros i j ri rj c ->%Hb.
    - by intros i r c ->%Hb. }
  clear H0. induction Hs; eauto using sstep_sinv.
Qed.
(** *** Nothing runs that nobody tracks *)

Definition stopping (pc : call_pc) : option kind :=
  match pc with
  | InRestart (RStop SWait) | StopPoller SWait => Some Datadog
  | StopManual SWait => Some Manual
  | _ => None
  end.

(** A goroutine of the fields is cancelled only while a thread waits for it, and
    one that has returned was cancelled, or the process is ending. *)
Record linv (r : replica) : Prop := {
  li_cancelled k g ro : field k (manager r) = Some g → routines (manager r) !! g = Some ro →
    r_cancelled ro = true → ∃ t pc, doing r t = Some pc ∧ stopping pc = Some k;
  li_done g ro : routines (manager r) !! g = Some ro → r_done ro = true →
    r_cancelled ro = true ∨ ctx_done r = true;
}.

(** What a step of thread may do to the goroutines. *)
Definition moves (m m' : PollerManager) (before after : option kind) : Prop :=
  (∀ k g ro, field k m' = Some g → routines m' !! g = Some ro → r_cancelled ro = true →
     after = Some k ∨ before ≠ Some k ∧ field k m = Some g ∧
       ∃ ro0, routines m !! g = Some ro0 ∧ r_cancelled ro0 = true) ∧
  (∀ g ro, routines m' !! g = Some ro → r_done ro = true →
     ∃ ro0, routines m !! g = Some ro0 ∧ r_done ro0 = true ∧ (r_cancelled ro0 = true → r_cancelled ro = true)).

Lemma moves_same m m' b a :
  (∀ k, field k m' = field k m) → routines m' = routines m → (∀ k, b = Some k → a = Some k) → moves m m' b a.
Proof.
  intros Hf Hr Hb. split; [|intros g ro; rewrite Hr; eauto].
  intros k g ro. rewrite Hf, Hr. intros ?? ?. destruct (decide (b = Some k)) as [E|]; [left; auto|right; eauto].
Qed.

Lemma moves_start m k b a :
  tracked m → (∀ k, b = Some k → a = Some k) → moves m (start k m) b a.
Proof.
  intros Htr Hb. unfold start, moves. setoid_rewrite field_set. setoid_rewrite routines_set. cbn [set_routines routines].
  split.
  - intros k' g ro. case_decide as E.
    + intros [= <-]. rewrite lookup_app_r, Nat.sub_diag by done. by intros [= <-].
    + intros Hg Hl Hc. assert (field k' m = Some g) as Hg' by by destruct k'.
      destruct (tr_field _ Htr k' g Hg') as (ro0 & Hl0 & _).
      rewrite (lookup_app_l_Some _ _ _ _ Hl0) in Hl. injection Hl as ->.
      destruct (decide (b = Some k')) as [Eb|]; [left; auto|right; eauto].
  - intros g ro [Hl|[_ Hl]]%lookup_app_Some; [eauto|]. by destruct (g - _)%nat; [injection Hl as <-|].
Qed.

Lemma moves_stop k m p m' o :
  tracked m → stopLocked k m p m' o →
  moves m m' (match p with SWait => Some k | _ => None end) (match o with Some SWait => Some k | _ => None end).
Proof.
  intros Htr Hs. destruct Hs as [m Hn|m g Hg|m g ro Hg Hl Hd].
  - by apply moves_same.
  - split.
    + intros k' g' ro Hf. assert (field k' m = Some g') as Hf' by by destruct k'. cbn.
      intros (ro0 & Hl & Hc)%lookup_alter_routine Hcc. destruct (decide (k' = k)) as [->|]; [by left|].
      right. split; [done|]. split; [done|]. exists ro0. split; [done|].
      destruct Hc as [[-> ->]|[-> _]]; [|done].
      destruct (tr_field _ Htr k g' Hg) as (r1 & H1 & <-), (tr_field _ Htr k' g' Hf') as (r2 & H2 & E). congruence.
    + intros g' ro. cbn. intros (ro0 & Hl & [[-> _]|[-> _]])%lookup_alter_routine Hd; eauto.
  - split; [|intros g' ro'; rewrite routines_set; eauto].
    intros k' g' ro'. rewrite field_set, routines_set. case_decide as E; [done|]. intros ???.
    right. split; [congruence|]. eauto.
Qed.

Lemma call_step_moves t m pc m' o :
  tracked m → call_step t m pc m' o → moves m m' (stopping pc) (o ≫= stopping).
Proof.
  intros Htr Hs. destruct Hs as [p m1 p' Hr|p m1 rs Hr|Hmu|p m1 p' Hst|p m1 Hst|p m1 p' Hst|p m1 Hst].
  - inversion Hr; subst; try (by apply moves_same; [intros []|..]);
      match goal with Hx : stopLocked _ _ _ _ _ |- _ => apply (moves_stop _ _ _ _ _ Htr) in Hx end;
      by repeat match goal with q : stop_pc |- _ => destruct q end.
  - inversion Hr; subst; try (by apply moves_same; [intros []|..]).
    apply (moves_start _ Datadog None None) in Htr as [H1 H2]; [|done]. split; [|done].
    intros k g ro. rewrite field_mu. apply H1.
  - by apply moves_same; [intros []|..].
  - apply (moves_stop _ _ _ _ _ Htr) in Hst. by destruct p, p'.
  - apply (moves_stop _ _ _ _ _ Htr) in Hst. by destruct p.
  - apply (moves_stop _ _ _ _ _ Htr) in Hst. by destruct p, p'.
  - apply (moves_stop _ _ _ _ _ Htr) in Hst as [H1 H2]. split; [|done].
    intros k g ro. rewrite field_mu. intros Hf Hl Hc. destruct (H1 k g ro Hf Hl Hc) as [?|Hx]; [done|].
    right. by destruct p.
Qed.

(** One thread moves, the others stay. *)
Lemma linv_moves r r' t :
  linv r → (∀ t', t' ≠ t → doing r' t' = doing r t') → ctx_done r' = ctx_done r →
  moves (manager r) (manager r') (doing r t ≫= stopping) (doing r' t ≫= stopping) → linv r'.
Proof.
  intros [Hc Hd] Ho Hctx [M1 M2]. split.
  - intros k g ro Hf Hl Hcc. destruct (M1 k g ro Hf Hl Hcc) as [E|(Hne & Hf' & ro0 & Hl0 & Hc0)].
    + destruct (doing r' t) as [pc|] eqn:Ed; [|done]. eauto.
    + destruct (Hc k g ro0 Hf' Hl0 Hc0) as (t' & pc & Hdo & Hst).
      destruct (decide (t' = t)) as [->|Ht]; [by rewrite Hdo in Hne|]. exists t', pc. by rewrite Ho.
  - intros g ro Hl Hdo. rewrite Hctx. destruct (M2 g ro Hl Hdo) as (ro0 & Hl0 & Hd0 & Himp).
    destruct (Hd g ro0 Hl0 Hd0); auto.
Qed.

Lemma loop_moves v v' :
  RunLeaderLoop v v' → rinv v.2 →
  (∀ t, t ≠ TLoop → doing v'.2 t = doing v.2 t) ∧ ctx_done v'.2 = ctx_done v.2 ∧
  moves (manager v.2) (manager v'.2) (doing v.2 TLoop ≫= stopping) (doing v'.2 TLoop ≫= stopping).
Proof.
  intros Hs Hr. pose proof (mi_tracked _ _ (ri_minv _ Hr)) as Htr.
  destruct Hs; cbn [snd] in *; (split; [by intros []|split; [done|]]);
    match goal with E : loop _ = _ |- _ =>
      cbn [manager goto set_manager doing loop]; rewrite E; try (apply moves_same; [by intros []|done|done])
    end.
  - destruct (manualCancel _); [by apply moves_same|]. by apply moves_start.
  - match goal with Hx : Restart _ _ _ _ _ |- _ => exact (call_step_moves _ _ _ _ _ Htr (call_restarting _ _ _ _ _ Hx)) end.
  - match goal with Hx : Restart _ _ _ _ _ |- _ => exact (call_step_moves _ _ _ _ _ Htr (call_restarted _ _ _ _ _ Hx)) end.
  - match goal with Hx : stopLocked _ _ _ _ _ |- _ => exact (call_step_moves _ _ _ _ _ Htr (call_stopping TLoop _ _ _ _ Hx)) end.
  - match goal with Hx : stopLocked _ _ _ _ _ |- _ => exact (call_step_moves _ _ _ _ _ Htr (call_stopped TLoop _ _ _ Hx)) end.
  - match goal with Hx : stopLocked _ _ _ _ _ |- _ => exact (call_step_moves _ _ _ _ _ Htr (call_stopping_manual TLoop _ _ _ _ Hx)) end.
  - match goal with Hx : stopLocked _ _ _ _ _ |- _ => exact (call_step_moves _ _ _ _ _ Htr (call_stopped_manual TLoop _ _ _ Hx)) end.
Qed.

Lemma own_linv v v' : own_step v v' → rinv v.2 → linv v.2 → linv v'.2.
Proof.
  intros Hs Hr Hl. destruct Hs as [v v' Hs|sv n r k pc m' o Hc Hs|sv n r g ro Hg Hx]; cbn [snd] in *.
  - destruct (loop_moves _ _ Hs Hr) as (? & ? & ?). by eapply (linv_moves _ _ TLoop).
  - eapply (linv_moves r _ (TCall k)); [done| |done|].
    + intros [|k'] Hne; [done|]. cbn. rewrite lookup_partial_alter_ne; congruence.
    + cbn. rewrite Hc, lookup_partial_alter_eq. by eapply call_step_moves; [apply Hr|].
  - destruct Hl as [H1 H2]. split; cbn.
    + intros k g' ro' Hf (ro0 & Hl0 & Hcase)%lookup_alter_routine Hc.
      apply (H1 k g' ro0); [by destruct k|done|]. by destruct Hcase as [[-> _]|[-> _]].
    + intros g' ro' (ro0 & Hl0 & [[-> ->]|[-> _]])%lookup_alter_routine Hd; [|by eauto].
      rewrite Hg in Hl0. injection Hl0 as ->. cbn. by apply orb_true_iff.
Qed.

Lemma boot_linv : linv boot.
Proof. by split; [intros []|]. Qed.

Lemma sstep_linv s s' :
  sstep s s' → sinv s → Forall linv (replicas s) → Forall linv (replicas s').
Proof.
  intros Hs Hi Hl. pose proof (proj1 (Forall_lookup _ _) Hl) as Hl'.
  destruct Hs as [s i r sv' n' r' Hr Ho|s i r k pc Hr Hn Hpc|s i r Hr|s i r Hr|s sv' He]; cbn [replicas]; [..|done];
    apply Forall_insert; try done.
  - by eapply (own_linv _ _ Ho); [eapply si_rinv|eapply Hl'].
  - destruct (Hl' _ _ Hr) as [H1 H2]. split; [|done]. intros k' g ro Hf Hg Hc.
    destruct (H1 k' g ro ltac:(by destruct k') Hg Hc) as (t & pc' & Hd & Hst). exists t, pc'. split; [|done].
    destruct t as [|k2]; [done|]. cbn in *. rewrite lookup_partial_alter_ne; congruence.
  - destruct (Hl' _ _ Hr) as [H1 H2]. split; [intros []; [apply (H1 Datadog)|apply (H1 Manual)]|]. by right.
Qed.

Lemma reachable_linv s0 s : initial s0 → rtc sstep s0 s → Forall linv (replicas s).
Proof.
  intros H0 Hs. assert (Forall linv (replicas s0)) as Hl.
  { eapply Forall_impl; [exact H0|]. intros ? <-. apply boot_linv. }
  assert (∀ s1, rtc sstep s0 s1 → sinv s1) as Hi by by intros; eapply reachable_sinv.
  apply rtc_ind_r with (P := λ s, Forall linv (replicas s)) in Hs; [done|done|].
  intros s1 s2 H1 H2 ?. by eapply sstep_linv; [|apply Hi|].
Qed.
End system.
