(* ===== verification/Leaders.v ===== *)
(** * Leaders: what the leader election promises

    Theorems on Leadership.v: no two pollers while the sessions live, and a leader
    that does not poll starts to.  [pg] is a lock server of the documented
    behaviour, on which the examples run. *)

From stdpp Require Import numbers gmap list relations strings.
From Stdlib Require Import ZArith Lia.
From S2P Require Import Prelude Leadership.

(** ** Runs of one thread

    A thread inside the mutex always gets out: what it waits for is a goroutine
    whose context it has cancelled. *)

Inductive tstep (t : thread) : PollerManager * option call_pc → PollerManager * option call_pc → Prop :=
| ts_call m pc m' o : call_step t m pc m' o → tstep t (m, Some pc) (m', o)
| ts_exit m o g ro :
    routines m !! g = Some ro → r_cancelled ro = true →
    tstep t (m, o) (set_routines (alter exited g (routines m)) m, o).

Lemma stop_trun t k (wrap : stop_pc → call_pc) fin o m p :
  (∀ m p m' p', stopLocked k m p m' (Some p') → call_step t m (wrap p) m' (Some (wrap p'))) →
  (∀ m p m', stopLocked k m p m' None → call_step t m (wrap p) (fin m') o) →
  tracked m → stop_ok k m p →
  ∃ m', rtc (tstep t) (m, Some (wrap p)) (fin m', o) ∧ field k m' = None ∧ mu m' = mu m ∧
    leading m' = leading m ∧ tracked m' ∧ (∀ k', k' ≠ k → field k' m' = field k' m).
Proof.
  intros Hgo Hend.
  assert (∀ m, tracked m → stop_ok k m SWait → ∃ m', rtc (tstep t) (m, Some (wrap SWait)) (fin m', o) ∧
    field k m' = None ∧ mu m' = mu m ∧ leading m' = leading m ∧ tracked m' ∧
    (∀ k', k' ≠ k → field k' m' = field k' m)) as Hwait.
  { intros m1 Htr Hok. destruct (Hok eq_refl) as (g & ro & Hg & Hl & Hc).
    set (m2 := set_routines (alter exited g (routines m1)) m1).
    assert (stopLocked k m2 SWait (set_field k None m2) None) as Hst.
    { apply (stop_wait _ _ g (exited ro)); [by destruct k| |done].
      cbn. by rewrite list_lookup_alter_eq, Hl. }
    assert (tracked m2) as Htr2 by by apply alter_tracked.
    assert (stop_ok k m2 SWait) as Hok2.
    { intros _. exists g, (exited ro). split; [by destruct k|]. cbn. by rewrite list_lookup_alter_eq, Hl. }
    destruct (stopLocked_effect _ _ _ _ _ Hst Hok2 Htr2) as (Ht & Hle & Hmu & Hf & _ & Hn).
    exists (set_field k None m2). split; [|split; [done|split; [done|split; [done|split; [done|]]]]].
    - eapply rtc_l; [by eapply ts_exit|]. apply rtc_once, ts_call. by apply Hend.
    - intros k' Hne. rewrite Hf by done. by destruct k'. }
  intros Htr Hok. destruct p; [|by apply Hwait].
  destruct (field k m) as [g|] eqn:Hg.
  - pose proof (stop_cancel k m g Hg) as Hst.
    destruct (stopLocked_effect _ _ _ _ _ Hst Hok Htr) as (Ht & Hle & Hmu & Hf & _ & Hok').
    destruct (Hwait _ Ht Hok') as (m' & Hrun & Hn & Hmu' & Hle' & Ht' & Hf'). exists m'.
    split; [eapply rtc_l; [apply ts_call, Hgo, Hst|done]|].
    split; [done|]. split; [congruence|]. split; [congruence|]. split; [done|].
    intros k' Hne. rewrite Hf' by done. by apply Hf.
  - exists m. split; [apply rtc_once, ts_call, Hend; by constructor|done].
Qed.

(** The poller of the manager is tracked, running and not cancelled. *)
Definition polling (m : PollerManager) : Prop :=
  ∃ g, cancel m = Some g ∧ routines m !! g = Some (Routine Datadog false false).

Lemma start_polling m : polling (set_mu None (start Datadog m)).
Proof. eexists. split; [done|]. cbn. by rewrite lookup_app_r, Nat.sub_diag by done. Qed.

(** Restart on a leader, from wherever it is, ends with a poller when the
    integration can be read. *)
Lemma restart_trun t m p :
  mu m = Some t → p ≠ RLock → doing_ok m (InRestart p) → tracked m → leading m = true →
  ∃ m', rtc (tstep t) (m, Some (InRestart p)) (m', None) ∧ mu m' = None ∧ leading m' = true ∧ polling m'.
Proof.
  intros Hmu Hne Hok Htr Hl.
  assert (∀ m1, leading m1 = true → ∃ m', rtc (tstep t) (m1, Some (InRestart RBuild)) (m', None) ∧
            mu m' = None ∧ leading m' = true ∧ polling m') as Hbuild.
  { intros m1 Hl1. exists (set_mu None (start Datadog m1)).
    split; [|split; [done|split; [done|apply start_polling]]].
    eapply rtc_once, ts_call, call_restarted, restart_starts. }
  assert (∀ q, stop_ok Datadog m q → ∃ m', rtc (tstep t) (m, Some (InRestart (RStop q))) (m', None) ∧
            mu m' = None ∧ leading m' = true ∧ polling m') as Hstop.
  { intros q Hq. destruct (stop_trun t Datadog (λ q, InRestart (RStop q)) id (Some (InRestart RBuild)) m q)
      as (m1 & Hrun & _ & _ & Hl1 & _ & _); [intros ???? Hs; by apply call_restarting, restart_stopping| |done..|].
    - intros ??? Hs. by apply call_restarting, restart_stopped.
    - destruct (Hbuild m1) as (m' & Hrun' & ?); [congruence|]. exists m'. split; [by etrans|done]. }
  destruct p as [| |q|]; [done| |apply Hstop, Hok|by apply Hbuild].
  destruct (Hstop SCancel) as (m' & Hrun & ?); [done|]. exists m'. split; [|done].
  eapply rtc_l; [|done]. by apply ts_call, call_restarting, restart_leading.
Qed.

(** Whatever a thread does inside the mutex, it can finish. *)
Lemma thread_leaves t m pc :
  mu m = Some t → critical pc = true → doing_ok m pc → tracked m →
  ∃ m', rtc (tstep t) (m, Some pc) (m', None) ∧ mu m' = None.
Proof.
  intros Hmu Hc Hok Htr.
  assert (∀ m1 q, tracked m1 → stop_ok Manual m1 q → ∃ m',
            rtc (tstep t) (m1, Some (StopManual q)) (m', None) ∧ mu m' = None) as Hman.
  { intros m1 q Ht Hq. destruct (stop_trun t Manual StopManual (set_mu None) None m1 q) as (m2 & Hrun & _);
      [by constructor|by constructor|done..|]. by exists (set_mu None m2). }
  destruct pc as [p| |q|q]; [|done| |apply Hman; [done|apply Hok]].
  - destruct (leading m) eqn:Hl.
    + destruct (restart_trun t m p) as (m' & Hrun & Hm & _); [done|by destruct p|done..|by exists m'].
    + destruct p as [| |?|]; [done| |destruct Hok; congruence..].
      exists (set_mu None m). split; [|done]. by eapply rtc_once, ts_call, call_restarted, restart_not_leading.
  - destruct (stop_trun t Datadog StopPoller id (Some (StopManual SCancel)) m q) as (m1 & Hrun & _ & _ & _ & Ht & _);
      [by constructor|by constructor|done..|].
    destruct (Hman m1 SCancel) as (m' & Hrun' & ?); [done..|]. exists m'. split; [by etrans|done].
Qed.

Section lift.
Context `{LS : LockServer}.

Lemma lift_call sv n r k pc m' o :
  calls r !! k = Some pc → rtc (tstep (TCall k)) (manager r, Some pc) (m', o) →
  rtc own_step (sv, n, r) (sv, n, set_call k o (set_manager m' r)).
Proof.
  intros Hc. set (vw := λ c : PollerManager * option call_pc, (sv, n, set_call k c.2 (set_manager c.1 r))).
  assert (r = set_call k (Some pc) (set_manager (manager r) r)) as Er.
  { destruct r as [m l cs d]. unfold set_call, set_manager. cbn in *. f_equal. apply map_eq. intros j.
    destruct (decide (k = j)) as [<-|]; [by rewrite lookup_partial_alter_eq|by rewrite lookup_partial_alter_ne]. }
  intros Hrun. change (rtc own_step (sv, n, r) (vw (m', o))). rewrite Er.
  change (rtc own_step (vw (manager r, Some pc)) (vw (m', o))).
  clear Er. revert Hrun. generalize (manager r, Some pc), (m', o). intros c1 c2.
  induction 1 as [|c c2 c3 Hs Hr IH]; [done|]. eapply rtc_l; [|exact IH].
  destruct Hs as [m1 pc1 m2 o2 Hs|m1 o1 g ro Hl Hx]; unfold vw; cbn [fst snd].
  - replace (set_call k o2 (set_manager m2 r))
      with (set_call k o2 (set_manager m2 (set_call k (Some pc1) (set_manager m1 r)))).
    + eapply own_call; [|done]. cbn. by rewrite lookup_partial_alter_eq.
    + unfold set_call, set_manager. cbn. f_equal. apply map_eq. intros j.
      destruct (decide (k = j)) as [<-|]; [by rewrite !lookup_partial_alter_eq|by rewrite !lookup_partial_alter_ne].
  - apply (own_exit sv n (set_call k o1 (set_manager m1 r)) g ro); [done|by rewrite Hx].
Qed.

Definition after (c : nat) (o : option call_pc) : loop_pc :=
  match o with Some (InRestart p) => LRestart c p | _ => LBeat c end.

Lemma restart_stays_restart t m p m' o :
  call_step t m (InRestart p) m' o → ∀ pc, o = Some pc → ∃ p', pc = InRestart p'.
Proof. inversion 1; subst; [|done]. intros ? [= <-]. eauto. Qed.

Lemma lift_restart sv n r c p m' :
  loop r = LRestart c p → rtc (tstep TLoop) (manager r, Some (InRestart p)) (m', None) →
  rtc own_step (sv, n, r) (sv, n, goto (LBeat c) (set_manager m' r)).
Proof.
  intros Hl. set (vw := λ x : PollerManager * option call_pc, (sv, n, goto (after c x.2) (set_manager x.1 r))).
  assert (r = goto (LRestart c p) (set_manager (manager r) r)) as Er by (destruct r; cbn in *; by subst).
  intros Hrun. change (rtc own_step (sv, n, r) (vw (m', None))). rewrite Er.
  change (rtc own_step (vw (manager r, Some (InRestart p))) (vw (m', None))).
  assert ((manager r, Some (InRestart p)).2 = None ∨ ∃ p', (manager r, Some (InRestart p)).2 = Some (InRestart p'))
    as Hp by eauto.
  clear Er Hl. revert Hrun Hp. generalize (manager r, Some (InRestart p)), (m', @None call_pc). intros c1 c2.
  induction 1 as [|x x2 x3 Hs Hr IH]; intros Hp; [done|].
  destruct Hs as [m1 pc1 m2 o2 Hs|m1 o1 g ro Hlk Hx]; cbn [fst snd] in *.
  - destruct Hp as [|[p' [= ->]]]; [done|].
    pose proof (restart_stays_restart _ _ _ _ _ Hs) as Ho.
    assert (o2 = None ∨ ∃ p', o2 = Some (InRestart p')) as Hp'.
    { destruct o2 as [pc|]; [|by left]. destruct (Ho pc eq_refl) as [p2 ->]. eauto. }
    eapply rtc_l; [|by apply IH]. apply own_loop. unfold vw. cbn [fst snd after].
    inversion Hs; subst.
    + by apply (loop_restarting sv n (goto (LRestart c p') (set_manager m1 r)) c p').
    + by eapply (loop_restarted sv n (goto (LRestart c p') (set_manager m1 r)) c p').
  - eapply rtc_l; [|by apply IH].
    apply (own_exit sv n (goto (after c o1) (set_manager m1 r)) g ro); [done|by rewrite Hx].
Qed.
End lift.

Section theorems.
Context `{LSL : LockServerLaws}.

Lemma own_steps_inv v v' : rtc own_step v v' → rinv v.2 → linv v.2 → rinv v'.2 ∧ linv v'.2.
Proof. induction 1; [done|]. intros Hr Hl. apply IHrtc; [by eapply own_rinv|by eapply own_linv]. Qed.

Lemma own_steps_rinv v v' : rtc own_step v v' → rinv v.2 → rinv v'.2.
Proof. induction 1; [done|]. intros Hr. by eapply IHrtc, own_rinv. Qed.

(** The mutex of a replica whose loop is outside it comes free, the loop where
    it was. *)
Lemma mutex_released sv n r :
  rinv r → outside (loop r) = true →
  ∃ r', rtc own_step (sv, n, r) (sv, n, r') ∧ mu (manager r') = None ∧ loop r' = loop r ∧ ctx_done r' = ctx_done r.
Proof.
  intros Hr Ho. pose proof (ri_minv _ Hr) as Hm. destruct (mu (manager r)) as [t|] eqn:Hmu; [|by exists r].
  destruct (proj1 (mi_mu _ _ Hm t) Hmu) as (pc & Hd & Hc).
  destruct t as [|k]; [by apply outside_doing in Ho; rewrite Hd in Ho; cbn in Ho; congruence|].
  destruct (thread_leaves _ _ _ Hmu Hc (mi_doing _ _ Hm _ _ Hd) (mi_tracked _ _ Hm)) as (m' & Hrun & Hn).
  exists (set_call k None (set_manager m' r)). split; [by eapply lift_call|done].
Qed.

Lemma restart_from sv n r c p :
  rinv r → loop r = LRestart c p → p ≠ RLock →
  ∃ r', rtc own_step (sv, n, r) (sv, n, r') ∧ polling (manager r').
Proof.
  intros Hr E Hp. pose proof (ri_minv _ Hr) as Hm.
  assert (doing r TLoop = Some (InRestart p)) as Hd by by cbn; rewrite E.
  destruct (restart_trun TLoop (manager r) p) as (m' & Hrun & _ & _ & Hpo); [|done| |apply Hm| |].
  - apply (mi_mu _ _ Hm). exists (InRestart p). by destruct p.
  - by apply (mi_doing _ _ Hm TLoop).
  - by rewrite (ri_leading _ Hr), E.
  - exists (goto (LBeat c) (set_manager m' r)). split; [by eapply lift_restart|done].
Qed.

Lemma restart_free sv n r c :
  rinv r → loop r = LRestart c RLock → mu (manager r) = None →
  ∃ r', rtc own_step (sv, n, r) (sv, n, r') ∧ polling (manager r').
Proof.
  intros Hr E Hmu.
  assert (own_step (sv, n, r) (sv, n, goto (LRestart c RCheck) (set_manager (set_mu (Some TLoop) (manager r)) r))) as Hs
    by by eapply own_loop, loop_restarting; [|constructor].
  destruct (restart_from sv n _ c RCheck (own_rinv _ _ Hs Hr)) as (r' & Hrun & ?); [done..|].
  exists r'. split; [by eapply rtc_l|done].
Qed.

(** A poller whose field is set is running when nobody is inside. *)
Lemma tracked_polling r :
  rinv r → linv r → mu (manager r) = None → ctx_done r = false → cancel (manager r) ≠ None → polling (manager r).
Proof.
  intros Hr Hl Hmu Hctx Hc. destruct (cancel (manager r)) as [g|] eqn:E; [|done].
  pose proof (ri_minv _ Hr) as Hm. destruct (tr_field _ (mi_tracked _ _ Hm) Datadog g E) as (ro & Hlk & Hk).
  assert (r_cancelled ro = false) as Hnc.
  { apply not_true_is_false. intros Hcc. destruct (li_cancelled _ Hl Datadog g ro E Hlk Hcc) as (t & pc & Hd & Hs).
    assert (critical pc = true) as Hcr by by destruct pc as [[| |[]|]| |[]|[]].
    by rewrite (minv_free _ _ _ _ Hm Hmu Hd) in Hcr. }
  exists g. split; [done|]. destruct ro as [k ca do]. cbn in *. subst.
  destruct do; [|done]. destruct (li_done _ Hl g _ Hlk eq_refl) as [?|?]; cbn in *; congruence.
Qed.

Lemma restart_runs sv n r c :
  rinv r → loop r = LRestart c RLock → ∃ r', rtc own_step (sv, n, r) (sv, n, r') ∧ polling (manager r').
Proof.
  intros Hr E. destruct (mutex_released sv n r Hr) as (r2 & Hrun & Hmu & El & _); [by rewrite E|].
  pose proof (own_steps_rinv _ _ Hrun Hr).
  destruct (restart_free sv n r2 c) as (r3 & Hrun' & ?); [done|congruence|done|]. exists r3. split; [by etrans|done].
Qed.

Lemma running_runs sv n r c :
  rinv r → linv r → ctx_done r = false → loop r = LRunning c →
  ∃ r', rtc own_step (sv, n, r) (sv, n, r') ∧ polling (manager r').
Proof.
  intros Hr Hl Hc E. destruct (mutex_released sv n r Hr) as (r2 & Hrun & Hmu & El & Ec); [by rewrite E|].
  destruct (own_steps_inv _ _ Hrun Hr Hl) as [Hr2 Hl2]. cbn in Hr2, Hl2.
  destruct (decide (cancel (manager r2) = None)) as [En|En].
  - assert (own_step (sv, n, r2) (sv, n, goto (LRestart c RLock) r2)) as Hst
      by (apply own_loop, beat_restarts; congruence).
    destruct (restart_runs sv n (goto (LRestart c RLock) r2) c) as (r3 & Hrun' & ?);
      [by apply (own_rinv _ _ Hst)|done|].
    exists r3. split; [|done]. etrans; [done|]. by eapply rtc_l.
  - exists r2. split; [done|]. apply tracked_polling; congruence.
Qed.

(** Leading and not yet giving up. *)
Definition in_office (p : loop_pc) : bool :=
  match p with LManual _ | LRestart _ _ | LBeat _ | LRunning _ => true | _ => false end.

(** Goroutine [g] of a replica runs a scheduler of this kind. *)
Definition runs (k : kind) (g : nat) (r : replica) : Prop :=
  ∃ ro, routines (manager r) !! g = Some ro ∧ r_kind ro = k ∧ r_done ro = false.

(** The session that holds the replica's lock is alive on the server. *)
Definition session_alive (s : system) (r : replica) : Prop :=
  ∃ c, handle (loop r) = Some c ∧ alive (sv s) c.

(** C5: one poller.  Whatever the replicas, admins, shutdowns, crashes and
    the database do, a replica runs at most one poller and one manual scheduler,
    and only under a lock handle of its own; two replicas run one at the same time
    only while the database has already ended the session of one of them. *)
Theorem one_poller s0 s i j ri rj k g g' :
  initial s0 → rtc sstep s0 s → replicas s !! i = Some ri → replicas s !! j = Some rj →
  runs k g ri → runs k g' rj →
  handle (loop ri) ≠ None ∧ (i = j → g = g') ∧ (i ≠ j → ¬ (session_alive s ri ∧ session_alive s rj)).
Proof.
  intros H0 Hs Hi Hj (ro & Hg & Hk & Hd) (ro' & Hg' & Hk' & Hd').
  pose proof (reachable_sinv _ _ H0 Hs) as Hinv. pose proof (si_rinv _ Hinv _ _ Hi) as Hr.
  pose proof (tr_running _ (mi_tracked _ _ (ri_minv _ Hr)) g ro Hg Hd) as Hf. split; [|split].
  - destruct (ri_up _ Hr (r_kind ro)) as [Hl|[(c & p & ->)|(_ & c & p & ->)]]; [congruence|by destruct (loop ri)|done..].
  - intros <-. rewrite Hj in Hi. injection Hi as ->.
    pose proof (tr_running _ (mi_tracked _ _ (ri_minv _ Hr)) g' ro' Hg' Hd'). congruence.
  - intros Hne [(c & Hc & Ha) (c' & Hc' & Ha')].
    pose proof (si_lock _ Hinv _ _ _ Hi Hc Ha) as E. rewrite (si_lock _ Hinv _ _ _ Hj Hc' Ha') in E.
    injection E as ->. apply Hne. eapply (si_uniq _ Hinv); [done|done|by apply handle_connection..].
Qed.

(** C24: a leader polls.  Whatever has happened, and however an admin's calls
    interleave, a replica in office whose session lives and whose process is not
    ending can get a poller running by steps of its own alone: no call blocks it,
    and a heartbeat notices a poller that was never started. *)
Theorem leader_polls s0 s i r :
  (∀ sv c, alive sv c → served sv (Ping c) Yes sv) →
  initial s0 → rtc sstep s0 s → replicas s !! i = Some r →
  in_office (loop r) = true → ctx_done r = false → session_alive s r →
  ∃ r', rtc own_step (sv s, conns s, r) (sv s, conns s, r') ∧ polling (manager r').
Proof.
  intros Hping H0 Hs Hi Hof Hctx (c & Hh & Ha).
  pose proof (si_rinv _ (reachable_sinv _ _ H0 Hs) _ _ Hi) as Hr.
  pose proof (proj1 (Forall_lookup _ _) (reachable_linv _ _ H0 Hs) _ _ Hi) as Hl.
  generalize dependent (sv s). generalize (conns s). intros n sv Ha.
  destruct (loop r) as [| | | | |c'|c' p|c'|c'| | | | | | |] eqn:E; try done; injection Hh as ->.
  - destruct (mutex_released sv n r Hr) as (r2 & Hrun & Hmu & El & Ec); [by rewrite E|].
    destruct (own_steps_inv _ _ Hrun Hr Hl) as [Hr2 Hl2]. cbn in Hr2, Hl2.
    pose proof (own_loop _ _ (loop_startManualScheduler sv n r2 c ltac:(congruence) Hmu)) as Hst.
    destruct (restart_runs sv n _ c (own_rinv _ _ Hst Hr2)) as (r3 & Hrun' & ?); [done|].
    exists r3. split; [|done]. etrans; [done|]. by eapply rtc_l.
  - destruct p; [by eapply restart_runs|by eapply restart_from..].
  - assert (own_step (sv, n, r) (sv, n, goto (LRunning c) r)) as Hst by (eapply own_loop, beat_healthy; auto).
    destruct (running_runs sv n _ c (own_rinv _ _ Hst Hr) (own_linv _ _ Hst Hr Hl)) as (r3 & Hrun' & ?); [done..|].
    exists r3. split; [by eapply rtc_l|done].
  - by eapply running_runs.
Qed.
End theorems.

(** ** A server of the documented behaviour, and examples *)

Record pg := PG { pg_sessions : gset nat; pg_locks : gmap Z nat }.

Definition pg_end (c : nat) (s : pg) : pg :=
  PG (pg_sessions s ∖ {[c]}) (filter (λ kc, kc.2 ≠ c) (pg_locks s)).

Definition pg_serve (q : request) (s : pg) : answer * pg :=
  match q with
  | Connect c => (Yes, PG ({[c]} ∪ pg_sessions s) (pg_locks s))
  | TryLock c key =>
      if decide (c ∈ pg_sessions s) then
        match pg_locks s !! key with
        | None => (Yes, PG (pg_sessions s) (<[key := c]> (pg_locks s)))
        | Some c' => if decide (c = c') then (Yes, s) else (No, s)
        end
      else (Failed, s)
  | Ping c => if decide (c ∈ pg_sessions s) then (Yes, s) else (Failed, s)
  | Unlock c key =>
      if decide (pg_locks s !! key = Some c) then (Yes, PG (pg_sessions s) (delete key (pg_locks s))) else (No, s)
  | Close c => (Yes, pg_end c s)
  end.

Definition pgServer : LockServer := {|
  server := pg;
  alive s c := c ∈ pg_sessions s;
  holder s key := pg_locks s !! key;
  served s q a s' := pg_serve q s = (a, s') ∨ a = Failed ∧ s' = s;
  event s s' := ∃ c, s' = pg_end c s;
|}.

Lemma pg_end_keeps c c' s key :
  pg_locks s !! key = Some c → c ∈ pg_sessions (pg_end c' s) → pg_locks (pg_end c' s) !! key = Some c.
Proof. cbn. rewrite map_lookup_filter_Some. set_solver. Qed.

#[export] Instance pg_laws : LockServerLaws pgServer.
Proof.
  split; cbn.
  - intros s c key s' [E|[? _]]; [|done]. repeat case_decide; [|done].
    destruct (pg_locks s !! key) eqn:El; [case_decide; [|done]; by simplify_eq|].
    injection E as <-. cbn. by rewrite lookup_insert_eq.
  - intros s q a s' key c [E|[_ ->]] Hl Ha Hq; [|done].
    destruct q as [c'|c' k'|c'|c' k'|c']; cbn in E; repeat case_decide; simplify_eq; try done.
    + destruct (pg_locks s !! k') eqn:El; [by case_decide; simplify_eq|].
      injection E as <- <-. cbn. rewrite lookup_insert_ne; congruence.
    + cbn. rewrite lookup_delete_ne; [done|]. intros ->. congruence.
    + by apply pg_end_keeps.
  - intros s s' key c [c' ->] Hl Ha. by apply pg_end_keeps.
  - intros s q a s' c [E|[_ ->]] Ha; [|by left].
    destruct q as [c'|c' k'|c'|c' k'|c']; cbn in E; repeat case_decide; simplify_eq; cbn in Ha; try (by left).
    + destruct (decide (c = c')) as [->|]; [by right|left; set_solver].
    + left. destruct (pg_locks s !! k'); [by case_decide; simplify_eq|by simplify_eq].
    + left. set_solver.
  - intros s s' c [c' ->]. cbn. set_solver.
Qed.

#[local] Existing Instance pgServer.

Definition boots (n : nat) : system := System (LS := pgServer) (PG ∅ ∅) 0 (repeat boot n).

Lemma boots_initial n : initial (boots n).
Proof. unfold initial. cbn. induction n; by constructor. Qed.

(** A manager after a first Restart: the manual scheduler is goroutine 0, the
    poller goroutine 1. *)
Definition in_charge : PollerManager :=
  Manager None true (Some 1%nat) (Some 0%nat) [Routine Manual false false; Routine Datadog false false].

Definition one_leads : system :=
  System (LS := pgServer) (PG {[0%nat]} {[PollerLeaderLockKey := 0%nat]}) 1
    [Replica in_charge (LBeat 0) ∅ false; boot].

Ltac replica_step i rule :=
  eapply rtc_l; [eapply (step_own _ i); [reflexivity|apply own_loop; eapply rule; try reflexivity; try by left]|];
  cbn -[pg_serve pg_end].

Ltac takes_office i :=
  replica_step i loop_connected; replica_step i loop_acquired; replica_step i loop_leads;
  replica_step i loop_startManualScheduler;
  replica_step i loop_restarting; [by constructor|];
  replica_step i loop_restarting; [by constructor|];
  replica_step i loop_restarting; [by apply restart_stopped; constructor|];
  replica_step i loop_restarted; [by apply restart_starts|].

Lemma one_leads_reached : rtc sstep (boots 2) one_leads.
Proof.
  takes_office 0%nat.
  match goal with |- rtc _ ?s _ => replace s with one_leads; [apply rtc_refl|vm_compute; reflexivity] end.
Qed.

Definition both_lead : system :=
  System (LS := pgServer) (PG {[1%nat]} {[PollerLeaderLockKey := 1%nat]}) 2
    [Replica in_charge (LBeat 0) ∅ false; Replica in_charge (LBeat 1) ∅ false].

(** Between the end of a session and the heartbeat that notices it, two replicas
    poll: what [one_poller] allows happens. *)
Lemma both_lead_reached : rtc sstep (boots 2) both_lead.
Proof.
  etrans; [apply one_leads_reached|]. eapply rtc_l; [apply step_server; by exists 0%nat|].
  cbn -[pg_serve pg_end]. takes_office 1%nat.
  match goal with |- rtc _ ?s _ => replace s with both_lead; [apply rtc_refl|vm_compute; reflexivity] end.
Qed.

Lemma one_poller_witness :
  ¬ (session_alive both_lead (Replica in_charge (LBeat 0) ∅ false) ∧
     session_alive both_lead (Replica in_charge (LBeat 1) ∅ false)).
Proof.
  apply (one_poller (boots 2) both_lead 0 1 (Replica in_charge (LBeat 0) ∅ false)
           (Replica in_charge (LBeat 1) ∅ false) Datadog 1 1);
    [apply boots_initial|apply both_lead_reached|reflexivity|reflexivity| | |discriminate];
    by eexists.
Defined.

(** The leader whose first Restart could not read the integration. *)
Definition one_idle : system :=
  System (LS := pgServer) (PG {[0%nat]} {[PollerLeaderLockKey := 0%nat]}) 1
    [Replica (Manager None true None (Some 0%nat) [Routine Manual false false]) (LBeat 0) ∅ false; boot].

Lemma one_idle_reached : rtc sstep (boots 2) one_idle.
Proof.
  replica_step 0%nat loop_connected; replica_step 0%nat loop_acquired; replica_step 0%nat loop_leads;
  replica_step 0%nat loop_startManualScheduler;
  replica_step 0%nat loop_restarting; [by constructor|];
  replica_step 0%nat loop_restarting; [by constructor|];
  replica_step 0%nat loop_restarting; [by apply restart_stopped; constructor|];
  replica_step 0%nat loop_restarted; [by apply restart_fails|].
  match goal with |- rtc _ ?s _ => replace s with one_idle; [apply rtc_refl|vm_compute; reflexivity] end.
Qed.

Lemma leader_polls_witness :
  ∃ r', rtc own_step (sv one_idle, conns one_idle,
                      Replica (Manager None true None (Some 0%nat) [Routine Manual false false]) (LBeat 0) ∅ false)
          (sv one_idle, conns one_idle, r') ∧ polling (manager r').
Proof.
  apply (leader_polls (boots 2) one_idle 0);
    [intros sv c Hc; left; cbn; by rewrite decide_True|apply boots_initial|apply one_idle_reached|reflexivity..|].
  exists 0%nat. split; [reflexivity|]. change (0%nat ∈ ({[0%nat]} : gset nat)). set_solver.
Defined.
