(* ===== verification/MailData.v ===== *)
(** * What a mail says (internal/email/format.go, provider.go)

    The data of the eight transactional mails with the texts computed from it:
    labels, dates in the tenant's zone, durations, the weekly period.  The HTML
    and text templates themselves are rendered by a library and are a parameter of
    Mail.v. *)

From stdpp Require Import numbers strings list pretty.
From Stdlib Require Import ZArith Lia Ascii Floats.
From S2P Require Import Prelude GoNum GoFloat GoTime GoStrings.

#[local] Open Scope Z_scope.
Infix "+++" := String.append (at level 60, right associativity).

(** ** Numbers as text *)

(** %d *)
Definition dec (n : Z) : string := pretty n.
(** %02d of a number that is not negative. *)
Definition dec2 (n : Z) : string := if n <? 10 then "0" +++ dec n else dec n.

(** The nearest integer of n / d, a tie to the even one. *)
Definition round_half_even (n d : Z) : Z :=
  let q := n / d in
  let r := n mod d in
  if 2 * r <? d then q
  else if d <? 2 * r then q + 1
  else if Z.even q then q else q + 1.
(** Hundredths of m * 2^e. *)
Definition hundredths (m e : Z) : Z :=
  if 0 <=? e then 100 * m * 2 ^ e else round_half_even (100 * m) (2 ^ (- e)).
(** %.2f: the exact value, rounded to two decimals. *)
Definition fixed2 (x : float) : string :=
  match Prim2SF x with
  | S754_nan => "NaN"
  | S754_infinity s => if s then "-Inf" else "+Inf"
  | S754_zero s => if s then "-0.00" else "0.00"
  | S754_finite s m e =>
      let h := hundredths (Zpos m) e in
      (if s then "-" else "") +++ dec (h / 100) +++ "." +++ dec2 (h mod 100)
  end.

Example fixed2_examples :
  (fixed2 99.9375, fixed2 100, fixed2 0.125, fixed2 0.375, fixed2 (-0.00390625)) =
  ("99.94", "100.00", "0.12", "0.38", "-0.00").
Proof. vm_compute. reflexivity. Qed.

(** int(x): towards zero; what does not fit is amd64's indefinite integer. *)
Definition int_of_float (x : float) : Z :=
  match Prim2SF x with
  | S754_zero _ => 0
  | S754_finite s m e =>
      let a := if 0 <=? e then Zpos m * 2 ^ e else Zpos m / 2 ^ (- e) in
      let v := if s then - a else a in
      if bool_decide (int64_min ≤ v ∧ v ≤ int64_max) then v else int64_min
  | _ => int64_min
  end.

(** strings.ToUpper of ASCII: the labels and the values behind their CHECKs. *)
Definition upper_ascii (a : ascii) : ascii :=
  let n := nat_of_ascii a in
  if ((97 <=? n) && (n <=? 122))%nat then ascii_of_nat (n - 32) else a.
Fixpoint ToUpper (s : string) : string :=
  match s with
  | EmptyString => EmptyString
  | String a s => String (upper_ascii a) (ToUpper s)
  end.

(** strings.TrimRight(s, "/") *)
Fixpoint trim_slashes (s : string) : string :=
  match s with
  | EmptyString => EmptyString
  | String a s' =>
      match trim_slashes s' with
      | EmptyString => if Ascii.eqb a "/"%char then EmptyString else String a EmptyString
      | t => String a t
      end
  end.
(** strings.Index *)
Fixpoint string_index (p s : string) : option nat :=
  if String.prefix p s then Some O
  else match s with
       | EmptyString => None
       | String _ s => S <$> string_index p s
       end.
(** strings.Join *)
Fixpoint join (sep : string) (l : list string) : string :=
  match l with
  | [] => ""
  | [x] => x
  | x :: l => x +++ sep +++ join sep l
  end.

Example text_examples :
  (trim_slashes "https://a//", string_index " (" "a b (c)", join ", " ["a"; "b"], ToUpper "Critical") =
  ("https://a", Some 3%nat, "a, b", "CRITICAL").
Proof. vm_compute. reflexivity. Qed.

(** ** The layout *)

Record Layout := {
  AssetsBaseURL : string;
  NotificationPrefsURL : string;
}.
Definition no_layout : Layout := {| AssetsBaseURL := ""; NotificationPrefsURL := "" |}.

Definition logoFileName : string := "vane-icon.png".
Definition LogoURL (l : Layout) : string :=
  if String.eqb (AssetsBaseURL l) "" then ""
  else trim_slashes (AssetsBaseURL l) +++ "/" +++ logoFileName.

Definition colorCritical : string := "#D6395B".
Definition colorCriticalBg : string := "#FBE9ED".
Definition colorWarning : string := "#B45309".
Definition colorWarningBg : string := "#FEF3E2".
Definition colorSuccessDot : string := "#3DD68C".
Definition colorSuccessText : string := "#146C4A".
Definition colorSuccessBg : string := "#E7F6EF".

(** ** Labels *)

Definition labelOr (labels : list (string * string)) (key : string) : string :=
  match list_find (λ kv, kv.1 = key) labels with
  | Some (_, kv) => kv.2
  | None => key
  end.
Definition roleLabels : list (string * string) :=
  [("owner", "Admin"); ("operator", "Member"); ("viewer", "Read-only")].
Definition severityLabels : list (string * string) :=
  [("minor", "Minor"); ("moderate", "Moderate"); ("critical", "Critical")].
Definition incidentStatusLabels : list (string * string) :=
  [("investigating", "Investigating"); ("identified", "Identified"); ("monitoring", "Monitoring");
   ("resolved", "Resolved")].

(** ** Durations *)

Definition pluralize (n : Z) (unit_ : string) : string :=
  if n =? 1 then dec n +++ " " +++ unit_ else dec n +++ " " +++ unit_ +++ "s".

Definition formatTTL (d : Z) : string :=
  if d <=? 0 then ""
  else if go_mod d (24 * hour) =? 0 then pluralize (go_div d (24 * hour)) "day"
  else if go_mod d hour =? 0 then pluralize (go_div d hour) "hour"
  else
    let minutes := go_div d minute in
    pluralize (if minutes <? 1 then 1 else minutes) "minute".

(** Days, hours and minutes of a duration. *)
Definition duration_parts (d : Z) : Z * Z * Z :=
  let totalMinutes := go_div d minute in
  (totalMinutes / (24 * 60), totalMinutes mod (24 * 60) / 60, totalMinutes mod 60).
Definition formatDuration (d : Z) : string :=
  if d <? minute then "less than 1min"
  else
    let '(days, hours, minutes) := duration_parts d in
    if 0 <? days then
      if hours =? 0 then dec days +++ "d" else dec days +++ "d " +++ dec hours +++ "h"
    else if 0 <? hours then
      if minutes =? 0 then dec hours +++ "h" else dec hours +++ "h " +++ dec2 minutes +++ "min"
    else dec minutes +++ "min".

Example duration_examples :
  (formatDuration (38 * minute), formatDuration (65 * minute), formatDuration (2 * hour),
   formatDuration (27 * hour), formatDuration (59 * second), formatTTL (7 * 24 * hour), formatTTL (90 * minute)) =
  ("38min", "1h 05min", "2h", "1d 3h", "less than 1min", "7 days", "90 minutes").
Proof. vm_compute. reflexivity. Qed.

(** ** Dates *)

Definition month_names : list string :=
  ["Jan"; "Feb"; "Mar"; "Apr"; "May"; "Jun"; "Jul"; "Aug"; "Sep"; "Oct"; "Nov"; "Dec"].

Section dates.
Context `{!Zones}.

Definition defaultTimezoneName : string := "America/Sao_Paulo".
Definition DefaultLocation : Location :=
  match LoadLocation defaultTimezoneName with Some loc => loc | None => UTC end.

Definition TenantLocation (timezone : option string) : Location :=
  match timezone with
  | None => DefaultLocation
  | Some tz =>
      let name := TrimSpace tz in
      let name := match string_index " (" name with Some i => slice_to i name | None => name end in
      if String.eqb name "" then DefaultLocation
      else match LoadLocation name with Some loc => loc | None => DefaultLocation end
  end.

Definition locOrDefault (loc : option Location) : Location := default DefaultLocation loc.

(** The parts of the layouts: "Jan", "2", "3:04 PM", "2006". *)
Definition month_name (m : Z) : string := default "" (month_names !! Z.to_nat (m - 1)).
Definition layout_month (t : Z) (l : Location) : string := month_name (Month t l).
Definition layout_clock (t : Z) (l : Location) : string :=
  let h := Hour t l mod 12 in
  dec (if h =? 0 then 12 else h) +++ ":" +++ dec2 (Minute t l) +++ (if 12 <=? Hour t l then " PM" else " AM").
(** "2006" of a year from 0 on. *)
Definition layout_year (y : Z) : string :=
  if y <? 10 then "000" +++ dec y else if y <? 100 then "00" +++ dec y
  else if y <? 1000 then "0" +++ dec y else dec y.
(** "Jan 2" and "Jan 2, 2006" *)
Definition layout_day (t : Z) (l : Location) : string := layout_month t l +++ " " +++ dec (Day t l).
Definition layout_date (t : Z) (l : Location) : string := layout_day t l +++ ", " +++ layout_year (Year t l).

Definition formatDateTimeAt (t : Z) (loc : option Location) : string :=
  if IsZero t then ""
  else layout_day t (locOrDefault loc) +++ " at " +++ layout_clock t (locOrDefault loc).
Definition formatDateTimeComma (t : Z) (loc : option Location) : string :=
  if IsZero t then ""
  else layout_day t (locOrDefault loc) +++ ", " +++ layout_clock t (locOrDefault loc).
Definition formatClock (t : Z) (loc : option Location) : string :=
  if IsZero t then "" else layout_clock t (locOrDefault loc).

Definition formatPeriod (end_ : Z) (loc : option Location) : string :=
  if IsZero end_ then ""
  else
    let l := locOrDefault loc in
    let last := time_add end_ (-12 * hour) in
    let last := Date (Year last l) (Month last l) (Day last l) 0 0 0 0 l in
    let first := AddDate last 0 0 (-6) l in
    if negb (Year first l =? Year last l) then layout_date first l +++ " – " +++ layout_date last l
    else if negb (Month first l =? Month last l) then layout_day first l +++ " – " +++ layout_date last l
    else layout_month first l +++ " " +++ dec (Day first l) +++ "–" +++ dec (Day last l) +++ ", " +++ dec (Year last l).

(** ** The mails *)

Record AdminInviteEmailData := {
  AiLayout : Layout;
  AiCompanyName : string;
  AiRole : string;
  AiAcceptURL : string;
  AiInviterName : string;
  AiInviterEmail : string;
  AiExpiresIn : string;
}.
Definition RoleLabel (d : AdminInviteEmailData) : string := labelOr roleLabels (AiRole d).
Definition InviterDisplay (d : AdminInviteEmailData) : string :=
  if negb (String.eqb (AiInviterName d) "") then AiInviterName d
  else if negb (String.eqb (AiInviterEmail d) "") then AiInviterEmail d
  else "An admin".
Definition invite_subject (d : AdminInviteEmailData) : string := InviterDisplay d +++ " invited you to join Vane".

Record PasswordResetEmailData := {
  PrLayout : Layout;
  PrCompanyName : string;
  PrResetURL : string;
  PrUserEmail : string;
  PrExpiresIn : string;
}.
Definition reset_subject (d : PasswordResetEmailData) : string := "Reset your Vane password".

Record SignupVerificationEmailData := {
  SvLayout : Layout;
  SvTenantName : string;
  SvVerifyURL : string;
  SvExpiresIn : string;
}.
Definition verification_subject (d : SignupVerificationEmailData) : string := "Confirm your Vane email".

Record IncidentOpenedEmailData := {
  IoLayout : Layout;
  IoTenantName : string;
  IoServiceName : string;
  IoIncidentTitle : string;
  IoSeverity : string;
  IoStatus : string;
  IoOpenedAt : Z;
  IoLocation : option Location;
  IoFirstUpdateAt : Z;
  IoFirstUpdateMessage : string;
  IoDuration : string;
  IoDashboardURL : string;
}.
Definition SeverityLabel (d : IncidentOpenedEmailData) : string := labelOr severityLabels (IoSeverity d).
Definition SeverityBadge (d : IncidentOpenedEmailData) : string := ToUpper (SeverityLabel d).
Definition incident_StatusLabel (d : IncidentOpenedEmailData) : string :=
  labelOr incidentStatusLabels (IoStatus d).
Definition AccentColor (d : IncidentOpenedEmailData) : string :=
  if String.eqb (IoSeverity d) "critical" then colorCritical else colorWarning.
Definition TintColor (d : IncidentOpenedEmailData) : string :=
  if String.eqb (IoSeverity d) "critical" then colorCriticalBg else colorWarningBg.
Definition OpenedAtText (d : IncidentOpenedEmailData) : string := formatDateTimeAt (IoOpenedAt d) (IoLocation d).
Definition OpenedAtClock (d : IncidentOpenedEmailData) : string := formatClock (IoOpenedAt d) (IoLocation d).
Definition FirstUpdateTimeText (d : IncidentOpenedEmailData) : string :=
  formatClock (IoFirstUpdateAt d) (IoLocation d).
Definition opened_subject (d : IncidentOpenedEmailData) : string :=
  "[" +++ SeverityLabel d +++ "] New incident: " +++ IoIncidentTitle d.

Record IncidentResolvedEmailData := {
  IrLayout : Layout;
  IrTenantName : string;
  IrServiceName : string;
  IrIncidentTitle : string;
  IrSeverity : string;
  IrOpenedAt : Z;
  IrResolvedAt : Z;
  IrLocation : option Location;
  IrResolutionSummary : string;
  IrDashboardURL : string;
}.
Definition ResolvedAtText (d : IncidentResolvedEmailData) : string :=
  formatDateTimeAt (IrResolvedAt d) (IrLocation d).
Definition OpenedAtRow (d : IncidentResolvedEmailData) : string :=
  formatDateTimeComma (IrOpenedAt d) (IrLocation d).
Definition ResolvedAtRow (d : IncidentResolvedEmailData) : string :=
  formatDateTimeComma (IrResolvedAt d) (IrLocation d).
Definition TotalDuration (d : IncidentResolvedEmailData) : string :=
  if IsZero (IrOpenedAt d) || IsZero (IrResolvedAt d) then ""
  else formatDuration (time_sub (IrResolvedAt d) (IrOpenedAt d)).
Definition resolved_subject (d : IncidentResolvedEmailData) : string := "Resolved: " +++ IrIncidentTitle d.

Record DomainExpiringEmailData := {
  DeTenantName : string;
  DeHostname : string;
  DeDaysRemaining : Z;
  DeThresholdDays : Z;
  DeDashboardURL : string;
}.
Definition DaysRemainingText (d : DomainExpiringEmailData) : string :=
  if DeDaysRemaining d <? 0 then "expired " +++ dec (- DeDaysRemaining d) +++ " days ago"
  else if DeDaysRemaining d =? 0 then "expires today"
  else "expires in " +++ dec (DeDaysRemaining d) +++ " days".

Record DomainNSDriftEmailData := {
  DnTenantName : string;
  DnHostname : string;
  DnExpectedNS : list string;
  DnCurrentNS : list string;
  DnDashboardURL : string;
}.

(** *** The weekly digest *)

Definition DigestIncidentsCap : nat := 10.
Definition DigestServicesCap : nat := 10.
Definition digestHealthyThreshold : float := 99.5.

Record DigestServiceRow := {
  DsrName : string;
  DsrUptimePercent : float;
}.
Definition healthy (r : DigestServiceRow) : bool := fge (DsrUptimePercent r) digestHealthyThreshold.
Definition UptimeText (r : DigestServiceRow) : string := fixed2 (DsrUptimePercent r) +++ "%".
Definition service_StatusLabel (r : DigestServiceRow) : string :=
  if healthy r then "Operational" else "Degraded this week".
Definition StatusColor (r : DigestServiceRow) : string := if healthy r then colorSuccessText else colorWarning.
Definition BarColor (r : DigestServiceRow) : string := if healthy r then colorSuccessDot else colorWarning.
Definition BarFilled (r : DigestServiceRow) : Z :=
  if fge (DsrUptimePercent r) 99.9 then 100
  else
    let filled := int_of_float (DsrUptimePercent r + 0.5)%float in
    if filled <? 0 then 0 else if 100 <? filled then 100 else filled.
Definition BarEmpty (r : DigestServiceRow) : Z := 100 - BarFilled r.

Record DigestIncidentRow := {
  DirTitle : string;
  DirServiceName : string;
  DirStatus : string;
  OngoingAtPeriodEnd : bool;
  DirDuration : Z;
}.
Definition pillStatus (r : DigestIncidentRow) : string :=
  if OngoingAtPeriodEnd r then "ongoing" else DirStatus r.
Definition DurationText (r : DigestIncidentRow) : string := formatDuration (DirDuration r).
Definition StatusPill (r : DigestIncidentRow) : string :=
  if OngoingAtPeriodEnd r then "ONGOING" else ToUpper (labelOr incidentStatusLabels (DirStatus r)).
Definition PillColor (r : DigestIncidentRow) : string :=
  if bool_decide (pillStatus r = "resolved") then colorSuccessText
  else if bool_decide (pillStatus r ∈ ["monitoring"; "identified"; "ongoing"]) then colorWarning
  else colorCritical.
Definition PillBg (r : DigestIncidentRow) : string :=
  if bool_decide (pillStatus r = "resolved") then colorSuccessBg
  else if bool_decide (pillStatus r ∈ ["monitoring"; "identified"; "ongoing"]) then colorWarningBg
  else colorCriticalBg.

Record WeeklyDigestEmailData := {
  WdLayout : Layout;
  WdTenantName : string;
  WdUptimePercent : float;
  WdIncidentsOpened : Z;
  WdIncidentsResolved : Z;
  WdPeriodStart : Z;
  WdPeriodEnd : Z;
  WdLocation : option Location;
  WdServices : list DigestServiceRow;
  WdTotalServices : Z;
  WdIncidents : list DigestIncidentRow;
  WdTotalIncidents : Z;
  WdMTTR : Z;
  WdDashboardURL : string;
  WdIncidentsURL : string;
}.
Definition PeriodLabel (d : WeeklyDigestEmailData) : string := formatPeriod (WdPeriodEnd d) (WdLocation d).
Definition AvgUptimeText (d : WeeklyDigestEmailData) : string := fixed2 (WdUptimePercent d) +++ "%".
Definition IncidentCount (d : WeeklyDigestEmailData) : Z :=
  if Z.of_nat (length (WdIncidents d)) <? WdTotalIncidents d then WdTotalIncidents d
  else Z.of_nat (length (WdIncidents d)).
Definition HiddenIncidents (d : WeeklyDigestEmailData) : Z :=
  IncidentCount d - Z.of_nat (length (WdIncidents d)).
Definition MTTRText (d : WeeklyDigestEmailData) : string :=
  if WdMTTR d <=? 0 then "—" else formatDuration (WdMTTR d).
Definition IsLastService (d : WeeklyDigestEmailData) (i : Z) : bool := i =? Z.of_nat (length (WdServices d)) - 1.
Definition IsLastIncident (d : WeeklyDigestEmailData) (i : Z) : bool := i =? Z.of_nat (length (WdIncidents d)) - 1.
Definition HiddenServices (d : WeeklyDigestEmailData) : Z :=
  if Z.of_nat (length (WdServices d)) <? WdTotalServices d
  then WdTotalServices d - Z.of_nat (length (WdServices d)) else 0.
Definition FrequencySettingsURL (d : WeeklyDigestEmailData) : string := NotificationPrefsURL (WdLayout d).
Definition UnsubscribeURL (d : WeeklyDigestEmailData) : string := NotificationPrefsURL (WdLayout d).
Definition digest_subject (d : WeeklyDigestEmailData) : string :=
  let label := PeriodLabel d in
  if negb (String.eqb label "") then "Your weekly summary · " +++ label else "Your weekly summary".
End dates.

(** ** A few zones, for the examples: UTC, a fixed offset, and a clock that goes
    forward an hour at one instant. *)

Inductive demo_location := DemoUTC | DemoFixed (offset : Z) | DemoShift (at_ before after : Z).
Definition far : Z := 2 ^ 60.
Definition demo_lookup (l : demo_location) (sec : Z) : Z * Z * Z :=
  match l with
  | DemoUTC => (0, Z.min sec (- far), Z.max (sec + 1) far)
  | DemoFixed o => (o, Z.min sec (- far), Z.max (sec + 1) far)
  | DemoShift at_ before after =>
      if sec <? at_ then (before, Z.min sec (- far), at_) else (after, at_, Z.max (sec + 1) far)
  end.
Definition demo_zones : Zones := {|
  Location := demo_location;
  UTC := DemoUTC;
  LoadLocation name :=
    if String.eqb name "UTC" then Some DemoUTC
    else if String.eqb name "America/Sao_Paulo" then Some (DemoFixed (-10800))
    else if String.eqb name "America/Los_Angeles" then Some (DemoShift 1710064800 (-28800) (-25200))
    else None;
  lookup_zone := demo_lookup;
|}.
Lemma demo_zones_laws : @ZonesLaws demo_zones.
Proof.
  split; [done|..].
  - intros l sec o st en. change (demo_lookup l sec = (o, st, en) → st ≤ sec < en).
    unfold demo_lookup. destruct l as [|o1|T b a]; [intros [= <- <- <-]; lia..|].
    destruct (Z.ltb_spec sec T); intros [= <- <- <-]; lia.
  - intros l sec o st en sec'. unfold zone_offset.
    change (demo_lookup l sec = (o, st, en) → st ≤ sec' < en → (demo_lookup l sec').1.1 = o).
    unfold demo_lookup. destruct l as [|o1|T b a]; [by intros [= <- <- <-]..|].
    destruct (Z.ltb_spec sec T), (Z.ltb_spec sec' T); intros [= <- <- <-]; done || lia.
Qed.
