(* ===== verification/Connectors.v ===== *)
(** * The mail connectors (internal/connectors/sendgrid, resend, notificationservice)

    Each builds the documented request of its service, makes one HTTP exchange and
    classifies the outcome.  The exchange is the parameter [Http]: the answer to
    the n-th question.  Every exchange is logged with its answer. *)

From stdpp Require Import numbers strings gmap list.
From Stdlib Require Import ZArith Lia.
From S2P Require Import Prelude GoNum Db Api MailData.

#[local] Open Scope Z_scope.
#[local] Open Scope go_scope.

(** ** Messages (email/provider.go, notification_service.go) *)

Record Message := {
  To : string;
  FromEmail : string;
  FromName : string;
  Subject : string;
  HTMLBody : string;
  TextBody : string;
}.

Record NotificationServiceRequest := {
  TenantKey : string;
  Category : string;
  Priority : string;
  NsType : string;
  RecipientEmail : string;
  NsSubject : string;
  NsHTMLBody : string;
  NsTextBody : string;
  IdempotencyKey : string;
}.

(** What the package email returns: its own errors, those of the layers below. *)
Inductive email_err :=
| ErrInvalidInput
| ErrValidationFailed
| ErrProviderNotConnected
| ErrNoActiveProvider
| ErrUnauthorized
| ErrTimeout
| ErrServer
| ErrRequest             (* the exchange failed, or its status is unexpected *)
| ErrStore (e : db_err)  (* a repository call *)
| ErrSecretbox           (* encrypting or decrypting an API key *)
| ErrUnknownProvider
| ErrTemplate
| ErrUnknownType.        (* unknown notification type *)

#[global] Instance email_err_eq_dec : EqDecision email_err.
Proof. solve_decision. Defined.

(** ** HTTP *)

(** The three bodies: what json.Marshal is given. *)
Inductive mail_body :=
| NoBody
| SendgridBody (to fromEmail fromName subject : string) (content : list (string * string))
| ResendBody (from to subject html text : string)
| NotificationBody (channel tenantID category priority type recipient subject html text : string).

Record http_request := {
  Method : string;
  URL : string;
  Header : list (string * string);
  Body : mail_body;
}.
Inductive http_answer :=
| Answered (status : Z)
| TimedOut
| Broken.

Class Http := { http_Do : nat → http_request → http_answer }.

(** The connection the caller's context stands for, the exchanges made, and how
    many questions were put to anything outside. *)
Record mstate := MState {
  m_db : session database;
  m_net : list (http_request * http_answer);
  m_ev : nat;
}.
Definition set_m_db (s : session database) (m : mstate) : mstate := MState s (m_net m) (m_ev m).

Definition MM := M mstate email_err.

(** The number of a question. *)
Definition question : MM nat := λ m, (Ok (m_ev m), MState (m_db m) (m_net m) (S (m_ev m))).
(** A repository call on the caller's connection. *)
Definition store {A} (q : M (session database) db_err A) : MM A :=
  λ m, let '(r, s) := q (m_db m) in
       (match r with Ok a => Ok a | Err e => Err (ErrStore e) end, set_m_db s m).

Definition StatusAccepted : Z := 202.

Section connectors.
Context `{!Http}.

Definition exchange (req : http_request) : MM http_answer :=
  λ m, let a := http_Do (m_ev m) req in
       (Ok a, MState (m_db m) (m_net m ++ [(req, a)]) (S (m_ev m))).

Definition bearer_header (key : string) : string * string := ("Authorization", "Bearer " +++ key).
Definition json_header : string * string := ("Content-Type", "application/json").

(** [do] of both providers' clients: nil for a 2xx. *)
Definition classify (a : http_answer) : res email_err unit :=
  match a with
  | TimedOut => Err ErrTimeout
  | Broken => Err ErrRequest
  | Answered c =>
      if (c =? StatusUnauthorized) || (c =? StatusForbidden) then Err ErrUnauthorized
      else if StatusInternalServerError <=? c then Err ErrServer
      else if (200 <=? c) && (c <? 300) then Ok tt
      else Err ErrRequest
  end.
Definition do (req : http_request) : MM unit :=
  a <- exchange req ;;
  λ m, (classify a, m).
End connectors.

Module Sendgrid.
Section client.
Context `{!Http}.
Definition defaultBaseURL : string := "https://api.sendgrid.com".
Definition sendPath : string := "/v3/mail/send".
Definition scopesPath : string := "/v3/scopes".
Definition post (apiKey endpoint : string) (body : mail_body) : MM unit :=
  do {| Method := "POST"; URL := endpoint; Header := [bearer_header apiKey; json_header]; Body := body |}.
Definition send_body (msg : Message) : mail_body :=
  SendgridBody (To msg) (FromEmail msg) (FromName msg) (Subject msg)
    [("text/plain", TextBody msg); ("text/html", HTMLBody msg)].
Definition Send (apiKey : string) (msg : Message) : MM unit :=
  post apiKey (defaultBaseURL +++ sendPath) (send_body msg).
Definition ValidateCredentials (apiKey : string) : MM unit :=
  do {| Method := "GET"; URL := defaultBaseURL +++ scopesPath; Header := [bearer_header apiKey]; Body := NoBody |}.
End client.
End Sendgrid.

Module Resend.
Section client.
Context `{!Http}.
Definition defaultBaseURL : string := "https://api.resend.com".
Definition sendPath : string := "/emails".
Definition apiKeysPath : string := "/api-keys".
Definition post (apiKey endpoint : string) (body : mail_body) : MM unit :=
  do {| Method := "POST"; URL := endpoint; Header := [bearer_header apiKey; json_header]; Body := body |}.
Definition resend_body (msg : Message) : mail_body :=
  let from := if negb (String.eqb (FromName msg) "")
              then FromName msg +++ " <" +++ FromEmail msg +++ ">" else FromEmail msg in
  ResendBody from (To msg) (Subject msg) (HTMLBody msg) (TextBody msg).
Definition Send (apiKey : string) (msg : Message) : MM unit :=
  post apiKey (defaultBaseURL +++ sendPath) (resend_body msg).
Definition ValidateCredentials (apiKey : string) : MM unit :=
  do {| Method := "GET"; URL := defaultBaseURL +++ apiKeysPath; Header := [bearer_header apiKey]; Body := NoBody |}.
End client.
End Resend.

(** A base URL that does not parse counts as a broken exchange. *)
Module Notificationservice.
Section client.
Context `{!Http}.
Definition sendPath : string := "/v1/notifications".
Definition notification_body (req : NotificationServiceRequest) : mail_body :=
  NotificationBody "email" (TenantKey req) (Category req) (Priority req) (NsType req)
    (RecipientEmail req) (NsSubject req) (NsHTMLBody req) (NsTextBody req).
(** Only 202 counts as accepted. *)
Definition outcome (a : http_answer) : res email_err unit :=
  match a with
  | TimedOut => Err ErrTimeout
  | Broken => Err ErrRequest
  | Answered c =>
      if c =? StatusAccepted then Ok tt
      else if (c =? StatusUnauthorized) || (c =? StatusForbidden) then Err ErrUnauthorized
      else if StatusInternalServerError <=? c then Err ErrServer
      else Err ErrRequest
  end.
Definition Send (baseURL apiKey : string) (req : NotificationServiceRequest) : MM unit :=
  a <- exchange {| Method := "POST"; URL := baseURL +++ sendPath;
                   Header := [bearer_header apiKey; json_header; ("Idempotency-Key", IdempotencyKey req)];
                   Body := notification_body req |} ;;
  λ m, (outcome a, m).
End client.
End Notificationservice.

(** ** What was mailed *)

(** The address, the subject and whether it was taken, of an exchange that
    carries a mail. *)
Definition mail_of (x : http_request * http_answer) : option (string * string * bool) :=
  match Body x.1 with
  | NoBody => None
  | SendgridBody to _ _ subject _ | ResendBody _ to subject _ _ =>
      Some (to, subject, is_ok (classify x.2))
  | NotificationBody _ _ _ _ _ to subject _ _ =>
      Some (to, subject, is_ok (Notificationservice.outcome x.2))
  end.
(** The addresses of the mails attempted and of those taken. *)
Definition addressed (net : list (http_request * http_answer)) : list string :=
  (λ x, x.1.1) <$> omap mail_of net.
Definition accepted (net : list (http_request * http_answer)) : list string :=
  (λ x, x.1.1) <$> filter (λ x, x.2 = true) (omap mail_of net).
