(* ===== verification/Mail.v ===== *)
(** * Sending mail (internal/email/service.go, notification_service_sender.go, cli/email_sender.go)

    Connecting, activating and disconnecting a tenant's mail provider, and the
    eight mails behind one interface, [Sender], with its two implementations: the
    tenant's active provider (self-hosted) and the platform's notification service
    (saas).  The templates and net/mail's address parser are the parameter
    [MailLibrary]. *)

From stdpp Require Import numbers strings gmap list.
From Stdlib Require Import ZArith Lia Ascii.
From S2P Require Import Prelude GoNum GoStrings GoTime Db LLMProviders Providers Secrets Domains Api Inert AuthApi AccountApi MailData Connectors.

#[local] Open Scope Z_scope.
#[local] Open Scope go_scope.

Class MailLibrary `{!Zones} := {
  ParseAddress : string → bool;
  (** HTML and text bodies. *)
  renderAdminInvite : AdminInviteEmailData → option (string * string);
  renderPasswordReset : PasswordResetEmailData → option (string * string);
  renderSignupVerification : SignupVerificationEmailData → option (string * string);
  renderIncidentOpened : IncidentOpenedEmailData → option (string * string);
  renderIncidentResolved : IncidentResolvedEmailData → option (string * string);
  renderWeeklyDigest : WeeklyDigestEmailData → option (string * string);
  renderDomainExpiring : DomainExpiringEmailData → option (string * string);
  renderDomainNSDrift : DomainNSDriftEmailData → option (string * string);
}.

(** The rest of config.Config that mails use. *)
Class MailConfig := {
  cfg_emailAssetsBaseURL : string;
  cfg_notificationServiceBaseURL : string;
  cfg_notificationServiceAPIKey : string;
}.

(** ** The interface *)

Record Sender `{!Zones} := {
  SendAdminInvite : string → AdminInviteEmailData → MM unit;
  SendPasswordReset : string → PasswordResetEmailData → MM unit;
  SendSignupVerification : string → SignupVerificationEmailData → MM unit;
  SendIncidentOpened : string → IncidentOpenedEmailData → MM unit;
  SendIncidentResolved : string → IncidentResolvedEmailData → MM unit;
  SendWeeklyDigest : string → WeeklyDigestEmailData → MM unit;
  SendDomainExpiring : string → DomainExpiringEmailData → MM unit;
  SendDomainNSDrift : string → DomainNSDriftEmailData → MM unit;
}.

(** A connector. *)
Record Provider := {
  provider_Send : Message → MM unit;
  provider_ValidateCredentials : MM unit;
}.

(** data.Layout = layout *)
Definition stamp_invite (l : Layout) (d : AdminInviteEmailData) : AdminInviteEmailData :=
  {| AiLayout := l; AiCompanyName := AiCompanyName d; AiRole := AiRole d; AiAcceptURL := AiAcceptURL d;
     AiInviterName := AiInviterName d; AiInviterEmail := AiInviterEmail d; AiExpiresIn := AiExpiresIn d |}.
Definition stamp_reset (l : Layout) (d : PasswordResetEmailData) : PasswordResetEmailData :=
  {| PrLayout := l; PrCompanyName := PrCompanyName d; PrResetURL := PrResetURL d;
     PrUserEmail := PrUserEmail d; PrExpiresIn := PrExpiresIn d |}.
Definition stamp_verification (l : Layout) (d : SignupVerificationEmailData) : SignupVerificationEmailData :=
  {| SvLayout := l; SvTenantName := SvTenantName d; SvVerifyURL := SvVerifyURL d; SvExpiresIn := SvExpiresIn d |}.
Definition stamp_opened `{!Zones} (l : Layout) (d : IncidentOpenedEmailData) : IncidentOpenedEmailData :=
  {| IoLayout := l; IoTenantName := IoTenantName d; IoServiceName := IoServiceName d;
     IoIncidentTitle := IoIncidentTitle d; IoSeverity := IoSeverity d; IoStatus := IoStatus d;
     IoOpenedAt := IoOpenedAt d; IoLocation := IoLocation d; IoFirstUpdateAt := IoFirstUpdateAt d;
     IoFirstUpdateMessage := IoFirstUpdateMessage d; IoDuration := IoDuration d;
     IoDashboardURL := IoDashboardURL d |}.
Definition stamp_resolved `{!Zones} (l : Layout) (d : IncidentResolvedEmailData) : IncidentResolvedEmailData :=
  {| IrLayout := l; IrTenantName := IrTenantName d; IrServiceName := IrServiceName d;
     IrIncidentTitle := IrIncidentTitle d; IrSeverity := IrSeverity d; IrOpenedAt := IrOpenedAt d;
     IrResolvedAt := IrResolvedAt d; IrLocation := IrLocation d;
     IrResolutionSummary := IrResolutionSummary d; IrDashboardURL := IrDashboardURL d |}.
Definition stamp_digest `{!Zones} (l : Layout) (d : WeeklyDigestEmailData) : WeeklyDigestEmailData :=
  {| WdLayout := l; WdTenantName := WdTenantName d; WdUptimePercent := WdUptimePercent d;
     WdIncidentsOpened := WdIncidentsOpened d; WdIncidentsResolved := WdIncidentsResolved d;
     WdPeriodStart := WdPeriodStart d; WdPeriodEnd := WdPeriodEnd d; WdLocation := WdLocation d;
     WdServices := WdServices d; WdTotalServices := WdTotalServices d; WdIncidents := WdIncidents d;
     WdTotalIncidents := WdTotalIncidents d; WdMTTR := WdMTTR d; WdDashboardURL := WdDashboardURL d;
     WdIncidentsURL := WdIncidentsURL d |}.

Definition expiring_subject (d : DomainExpiringEmailData) : string := "Domain expiring soon: " +++ DeHostname d.
Definition drift_subject (d : DomainNSDriftEmailData) : string :=
  "Nameserver change detected: " +++ DnHostname d.

(** A template that fails. *)
Definition rendered (b : option (string * string)) : MM (string * string) :=
  λ m, (match b with Some x => Ok x | None => Err ErrTemplate end, m).

Section mail.
Context `{!Driver, !Machine, !Http, !Zones, !MailLibrary, !Config, !MailConfig}.

(** ** The factory (cli/routes.go) *)

Definition emailProviderFactory (provider apiKey : string) : MM Provider :=
  if String.eqb provider "sendgrid"
  then ret {| provider_Send := Sendgrid.Send apiKey; provider_ValidateCredentials := Sendgrid.ValidateCredentials apiKey |}
  else if String.eqb provider "resend"
  then ret {| provider_Send := Resend.Send apiKey; provider_ValidateCredentials := Resend.ValidateCredentials apiKey |}
  else fail ErrUnknownProvider.

Definition mail_encrypt (plaintext : string) : MM string :=
  n <- question ;;
  λ m, (match Encrypt n cfg_masterKey plaintext with Some c => Ok c | None => Err ErrSecretbox end, m).
Definition mail_decrypt (ciphertext : string) : MM string :=
  λ m, (match Decrypt cfg_masterKey ciphertext with Some p => Ok p | None => Err ErrSecretbox end, m).

(** A caller that answers [e] whatever the error was. *)
Definition or_error {A} (e : email_err) (c : MM A) : MM A :=
  λ m, match c m with (Err _, m') => (Err e, m') | r => r end.
(** ... and one that tells a missing row from the other errors. *)
Definition or_missing {A} (e : email_err) (c : MM A) : MM A :=
  λ m, match c m with (Err (ErrStore ErrNotFound), m') => (Err e, m') | r => r end.

(** ** email.Service *)

Record ProviderStatus := {
  PsProvider : string;
  PsStatus : string;
  PsFromEmail : string;
  PsFromName : string;
  PsLastCheckedAt : option Z;
  PsLastError : option string;
}.
Record ListResult := {
  LrActiveProvider : string;
  LrProviders : list ProviderStatus;
  LrTotal : Z;
  LrPage : Z;
  LrPageSize : Z;
}.

Definition Connect (provider apiKey fromEmail fromName : string) : MM unit :=
  if String.eqb apiKey "" || String.eqb fromEmail "" || String.eqb fromName "" then fail ErrInvalidInput
  else if negb (ParseAddress fromEmail) then fail ErrInvalidInput
  else
    p <- or_error ErrValidationFailed (emailProviderFactory provider apiKey) ;;
    or_error ErrValidationFailed (provider_ValidateCredentials p) ;;;
    encryptedAPIKey <- mail_encrypt apiKey ;;
    store (on_providers (Email.UpsertProvider provider encryptedAPIKey fromEmail fromName)).

Definition Activate (provider : string) : MM unit :=
  ep <- or_missing ErrProviderNotConnected (store (on_providers (Email.Get provider))) ;;
  if negb (String.eqb (EpStatus ep) "connected") then fail ErrProviderNotConnected
  else store (on_providers (Email.SetActiveProvider provider)).

Definition Disconnect (provider : string) : MM unit := store (on_providers (Email.DeleteProvider provider)).

Definition status_of_provider (p : EmailProvider) : ProviderStatus :=
  {| PsProvider := EpProvider p; PsStatus := EpStatus p; PsFromEmail := EpFromEmail p;
     PsFromName := EpFromName p; PsLastCheckedAt := EpLastCheckedAt p; PsLastError := EpLastError p |}.
Definition List (page pageSize : Z) : MM ListResult :=
  providers <- store (on_providers (Email.ListPaginated page pageSize)) ;;
  active <- store (on_providers Email.GetActiveProvider) ;;
  ret {| LrActiveProvider := active; LrProviders := status_of_provider <$> providers.1;
         LrTotal := providers.2; LrPage := page; LrPageSize := pageSize |}.

(** The part the eight mails share: the active provider's row and client. *)
Definition active_client : MM (EmailProvider * Provider) :=
  active <- store (on_providers Email.GetActiveProvider) ;;
  if String.eqb active "" then fail ErrNoActiveProvider
  else
    ep <- or_missing ErrNoActiveProvider (store (on_providers (Email.Get active))) ;;
    apiKey <- mail_decrypt (EpEncryptedAPIKey ep) ;;
    provider <- emailProviderFactory active apiKey ;;
    ret (ep, provider).
Definition message (ep : EmailProvider) (to subject : string) (b : string * string) : Message :=
  {| To := to; FromEmail := EpFromEmail ep; FromName := EpFromName ep; Subject := subject;
     HTMLBody := b.1; TextBody := b.2 |}.
Definition send_active (to subject : string) (b : option (string * string)) : MM unit :=
  c <- active_client ;;
  body <- rendered b ;;
  provider_Send c.2 (message c.1 to subject body).

Definition service_SendAdminInvite (layout : Layout) (to : string) (d : AdminInviteEmailData) : MM unit :=
  let d := stamp_invite layout d in send_active to (invite_subject d) (renderAdminInvite d).
Definition service_SendPasswordReset (layout : Layout) (to : string) (d : PasswordResetEmailData) : MM unit :=
  let d := stamp_reset layout d in send_active to (reset_subject d) (renderPasswordReset d).
Definition service_SendSignupVerification (layout : Layout) (to : string) (d : SignupVerificationEmailData) : MM unit :=
  let d := stamp_verification layout d in send_active to (verification_subject d) (renderSignupVerification d).
Definition service_SendIncidentOpened (layout : Layout) (to : string) (d : IncidentOpenedEmailData) : MM unit :=
  let d := stamp_opened layout d in send_active to (opened_subject d) (renderIncidentOpened d).
Definition service_SendIncidentResolved (layout : Layout) (to : string) (d : IncidentResolvedEmailData) : MM unit :=
  let d := stamp_resolved layout d in send_active to (resolved_subject d) (renderIncidentResolved d).
Definition service_SendWeeklyDigest (layout : Layout) (to : string) (d : WeeklyDigestEmailData) : MM unit :=
  let d := stamp_digest layout d in send_active to (digest_subject d) (renderWeeklyDigest d).
Definition service_SendDomainExpiring (to : string) (d : DomainExpiringEmailData) : MM unit :=
  send_active to (expiring_subject d) (renderDomainExpiring d).
Definition service_SendDomainNSDrift (to : string) (d : DomainNSDriftEmailData) : MM unit :=
  send_active to (drift_subject d) (renderDomainNSDrift d).
Definition serviceSender (layout : Layout) : Sender := {|
  SendAdminInvite := service_SendAdminInvite layout;
  SendPasswordReset := service_SendPasswordReset layout;
  SendSignupVerification := service_SendSignupVerification layout;
  SendIncidentOpened := service_SendIncidentOpened layout;
  SendIncidentResolved := service_SendIncidentResolved layout;
  SendWeeklyDigest := service_SendWeeklyDigest layout;
  SendDomainExpiring := service_SendDomainExpiring;
  SendDomainNSDrift := service_SendDomainNSDrift;
|}.

(** ** NotificationServiceSender *)

Definition notificationServiceTenantKey : string := "vane-saas".
Definition idempotencyKey (recipient subject htmlBody : string) : string :=
  hex_EncodeToString (sha256_Sum256 (recipient +++ "|" +++ subject +++ "|" +++ htmlBody)).

Definition send_platform (to subject category priority notificationType : string)
    (b : option (string * string)) : MM unit :=
  body <- rendered b ;;
  Notificationservice.Send cfg_notificationServiceBaseURL cfg_notificationServiceAPIKey
    {| TenantKey := notificationServiceTenantKey; Category := category; Priority := priority;
       NsType := notificationType; RecipientEmail := to; NsSubject := subject; NsHTMLBody := body.1;
       NsTextBody := body.2; IdempotencyKey := idempotencyKey to subject body.1 |}.

Definition platform_SendAdminInvite (layout : Layout) (to : string) (d : AdminInviteEmailData) : MM unit :=
  let d := stamp_invite layout d in
  send_platform to (invite_subject d) "transactional" "normal" "ADMIN_INVITE" (renderAdminInvite d).
Definition platform_SendPasswordReset (layout : Layout) (to : string) (d : PasswordResetEmailData) : MM unit :=
  let d := stamp_reset layout d in
  send_platform to (reset_subject d) "transactional" "critical" "PASSWORD_RESET" (renderPasswordReset d).
Definition platform_SendSignupVerification (layout : Layout) (to : string) (d : SignupVerificationEmailData) : MM unit :=
  let d := stamp_verification layout d in
  send_platform to (verification_subject d) "transactional" "critical" "SIGNUP_VERIFICATION"
    (renderSignupVerification d).
Definition platform_SendIncidentOpened (layout : Layout) (to : string) (d : IncidentOpenedEmailData) : MM unit :=
  let d := stamp_opened layout d in
  send_platform to (opened_subject d) "transactional" "normal" "INCIDENT_OPENED" (renderIncidentOpened d).
Definition platform_SendIncidentResolved (layout : Layout) (to : string) (d : IncidentResolvedEmailData) : MM unit :=
  let d := stamp_resolved layout d in
  send_platform to (resolved_subject d) "transactional" "normal" "INCIDENT_RESOLVED" (renderIncidentResolved d).
Definition platform_SendWeeklyDigest (layout : Layout) (to : string) (d : WeeklyDigestEmailData) : MM unit :=
  let d := stamp_digest layout d in
  send_platform to (digest_subject d) "marketing" "low" "WEEKLY_DIGEST" (renderWeeklyDigest d).
Definition platform_SendDomainExpiring (to : string) (d : DomainExpiringEmailData) : MM unit :=
  send_platform to (expiring_subject d) "transactional" "critical" "DOMAIN_EXPIRING" (renderDomainExpiring d).
Definition platform_SendDomainNSDrift (to : string) (d : DomainNSDriftEmailData) : MM unit :=
  send_platform to (drift_subject d) "transactional" "normal" "DOMAIN_NS_DRIFT" (renderDomainNSDrift d).
Definition notificationServiceSender (layout : Layout) : Sender := {|
  SendAdminInvite := platform_SendAdminInvite layout;
  SendPasswordReset := platform_SendPasswordReset layout;
  SendSignupVerification := platform_SendSignupVerification layout;
  SendIncidentOpened := platform_SendIncidentOpened layout;
  SendIncidentResolved := platform_SendIncidentResolved layout;
  SendWeeklyDigest := platform_SendWeeklyDigest layout;
  SendDomainExpiring := platform_SendDomainExpiring;
  SendDomainNSDrift := platform_SendDomainNSDrift;
|}.

(** ** newEmailSender *)

Definition notificationPrefsPath : string := "/profile".
Definition emailLayoutFromConfig : Layout :=
  {| AssetsBaseURL := cfg_emailAssetsBaseURL;
     NotificationPrefsURL := if String.eqb cfg_adminBaseURL "" then "" else cfg_adminBaseURL +++ notificationPrefsPath |}.
Definition newEmailSender : Sender :=
  if String.eqb cfg_deploymentMode DeploymentModeSaaS
  then notificationServiceSender emailLayoutFromConfig
  else serviceSender emailLayoutFromConfig.
End mail.

(** ** What a call may do

    [mails l c]: whatever happens, [c] leaves the database as it is and mails to
    addresses of [l], at most once each and in that order. *)

Definition mails {A} (l : list string) (c : MM A) : Prop :=
  ∀ m, let m' := (c m).2 in
    tables (m_db m') = tables (m_db m) ∧ app_tenant (m_db m') = app_tenant (m_db m) ∧
    bypass_rls (m_db m') = bypass_rls (m_db m) ∧
    ∃ net, m_net m' = m_net m ++ net ∧ addressed net `sublist_of` l.

Lemma addressed_app a b : addressed (a ++ b) = addressed a ++ addressed b.
Proof. unfold addressed. by rewrite omap_app, fmap_app. Qed.

Section mails.
Context {A B : Type}.

Lemma mails_quiet (c : MM A) :
  (∀ m, tables (m_db (c m).2) = tables (m_db m) ∧ app_tenant (m_db (c m).2) = app_tenant (m_db m) ∧
        bypass_rls (m_db (c m).2) = bypass_rls (m_db m) ∧ m_net (c m).2 = m_net m) → mails [] c.
Proof.
  intros Hc m. destruct (Hc m) as (H1 & H2 & H3 & H4). cbv zeta. split_and!; [done..|].
  exists []. by rewrite app_nil_r.
Qed.
Lemma mails_ret (a : A) : mails [] (ret a).
Proof. by apply mails_quiet. Qed.
Lemma mails_fail e : mails [] (fail e : MM A).
Proof. by apply mails_quiet. Qed.
Lemma mails_result (r : res email_err A) : mails [] (λ m, (r, m)).
Proof. by apply mails_quiet. Qed.
Lemma mails_weaken l l' (c : MM A) : mails l c → l `sublist_of` l' → mails l' c.
Proof.
  intros Hc Hl m. destruct (Hc m) as (H1 & H2 & H3 & net & H4 & H5). cbv zeta. split_and!; [done..|].
  exists net. split; [done|]. by etrans.
Qed.
(** The second call may depend on what the first returned. *)
Lemma mails_then l1 l2 (c : MM A) (k : A → MM B) :
  mails l1 c → (∀ a m m', c m = (Ok a, m') → mails l2 (k a)) → mails (l1 ++ l2) (bind c k).
Proof.
  intros Hc Hk m. unfold bind. destruct (Hc m) as (H1 & H2 & H3 & net & H4 & H5).
  destruct (c m) as [[a|e] m1] eqn:E; cbn in *.
  - destruct (Hk a m m1 E m1) as (K1 & K2 & K3 & net2 & K4 & K5). split_and!; [congruence..|].
    exists (net ++ net2). rewrite K4, H4, app_assoc, addressed_app. split; [done|by apply sublist_app].
  - split_and!; [done..|]. exists net. split; [done|]. etrans; [done|]. by apply sublist_inserts_r.
Qed.
Lemma mails_bind l (c : MM A) (k : A → MM B) :
  mails [] c → (∀ a, mails l (k a)) → mails l (bind c k).
Proof. intros Hc Hk. change l with ([] ++ l). apply mails_then; [done|]. intros. apply Hk. Qed.
Lemma mails_attempt l (c : MM A) : mails l c → mails l (attempt c).
Proof. intros Hc m. unfold attempt. specialize (Hc m). by destruct (c m). Qed.
Lemma mails_or_missing l e (c : MM A) : mails l c → mails l (or_missing e c).
Proof. intros Hc m. unfold or_missing. specialize (Hc m). destruct (c m) as [[|[]] ?]; try done. by destruct e0. Qed.
Lemma mails_store `{!Driver} (q : M (session database) db_err A) : inert q → mails [] (store q).
Proof.
  intros Hq. apply mails_quiet. intros m. unfold store. destruct (Hq (m_db m)) as (H1 & H2 & H3).
  by destruct (q (m_db m)).
Qed.
End mails.

Lemma mails_rendered b : mails [] (rendered b).
Proof. by apply mails_quiet. Qed.
Lemma mails_exchange `{!Http} req : mails (addressed [(req, TimedOut)]) (exchange req).
Proof.
  intros m. cbn. split_and!; [done..|]. eexists. split; [done|].
  unfold addressed, mail_of. cbn. by destruct (Body req).
Qed.
Lemma mails_exchange_then {A} `{!Http} l req (k : http_answer → MM A) :
  (∀ a, mails [] (k a)) → addressed [(req, TimedOut)] = l → mails l (bind (exchange req) k).
Proof. intros Hk <-. rewrite <- (app_nil_r (addressed _)). apply mails_then; [apply mails_exchange|auto]. Qed.

(** ** The interface's promise

    A [Sender] mails to the address it is given, at most once: nothing is retried. *)

Class SenderLaws `{!Zones} (s : Sender) : Prop := {
  invite_mails to d : mails [to] (SendAdminInvite s to d);
  reset_mails to d : mails [to] (SendPasswordReset s to d);
  verification_mails to d : mails [to] (SendSignupVerification s to d);
  opened_mails to d : mails [to] (SendIncidentOpened s to d);
  resolved_mails to d : mails [to] (SendIncidentResolved s to d);
  digest_mails to d : mails [to] (SendWeeklyDigest s to d);
  expiring_mails to d : mails [to] (SendDomainExpiring s to d);
  drift_mails to d : mails [to] (SendDomainNSDrift s to d);
}.

Section senders.
Context `{!Driver, !Machine, !Http, !Zones, !MailLibrary, !Config, !MailConfig}.

Lemma mails_active_client : mails [] active_client.
Proof.
  unfold active_client. apply mails_bind; [apply mails_store, providers_inert, inert_query|]. intros p.
  destruct (String.eqb p ""); [apply mails_fail|].
  apply mails_bind; [apply mails_or_missing, mails_store; eauto with vane|]. intros ep.
  apply mails_bind; [apply mails_quiet; done|]. intros key.
  apply mails_bind; [|intros; apply mails_ret].
  unfold emailProviderFactory. destruct (String.eqb p "sendgrid"); [apply mails_ret|].
  destruct (String.eqb p "resend"); [apply mails_ret|apply mails_fail].
Qed.

(** What the factory builds mails to the message's address. *)
Lemma factory_mails p key m c m' msg : emailProviderFactory p key m = (Ok c, m') → mails [To msg] (provider_Send c msg).
Proof.
  unfold emailProviderFactory. destruct (String.eqb p "sendgrid"); [intros [= <- _]|].
  - apply mails_exchange_then; [intros; apply mails_result|done].
  - destruct (String.eqb p "resend"); [intros [= <- _]|done].
    apply mails_exchange_then; [intros; apply mails_result|done].
Qed.
Lemma active_client_factory m ep c m' :
  active_client m = (Ok (ep, c), m') → ∃ p key m1 m2, emailProviderFactory p key m1 = (Ok c, m2).
Proof.
  unfold active_client. intros (p & m1 & _ & E)%bind_Ok_inv. destruct (String.eqb p ""); [done|].
  apply bind_Ok_inv in E as (ep' & m2 & _ & E). apply bind_Ok_inv in E as (key & m3 & _ & E).
  apply bind_Ok_inv in E as (c' & m4 & Ec & E). injection E as <- <- _. eauto.
Qed.
Lemma mails_send_active to subject b : mails [to] (send_active to subject b).
Proof.
  unfold send_active. change [to] with ([] ++ [to]). apply mails_then; [apply mails_active_client|].
  intros [ep c] m m' E. apply mails_bind; [apply mails_rendered|]. intros body.
  apply active_client_factory in E as (p & key & m1 & m2 & E).
  exact (factory_mails _ _ _ _ _ (message ep to subject body) E).
Qed.
Lemma mails_send_platform to subject cat prio ty b : mails [to] (send_platform to subject cat prio ty b).
Proof.
  apply mails_bind; [apply mails_rendered|]. intros body.
  apply mails_exchange_then; [intros; apply mails_result|done].
Qed.

#[export] Instance serviceSender_laws layout : SenderLaws (serviceSender layout).
Proof. split; intros; apply mails_send_active. Qed.
#[export] Instance notificationServiceSender_laws layout : SenderLaws (notificationServiceSender layout).
Proof. split; intros; apply mails_send_platform. Qed.
#[export] Instance newEmailSender_laws : SenderLaws newEmailSender.
Proof. unfold newEmailSender. case_match; apply _. Qed.
End senders.
