(* ===== verification/MailDelivery.v ===== *)
(** * Connected providers and what is mailed through them

    A provider that is connected was validated with its key, and its key opens
    again; once it is active, every mail of the tenant is one exchange with that
    service, under that key and from that address. *)

From stdpp Require Import numbers strings gmap list sorting.
From Stdlib Require Import ZArith Lia Ascii.
From S2P Require Import Prelude GoNum GoStrings GoTime Db Schema Intervals Identity LLMProviders Providers Secrets Domains Api AuthApi AccountApi AccountDemo MailData Connectors Mail.

#[local] Open Scope Z_scope.
#[local] Open Scope go_scope.

(** The rows a session of one tenant sees of a table. *)
Lemma row_of_own `{!Driver} {R} (tbl : gmap (string * string) R) (s : session providers_db) p :
  bypass_rls s = false → app_tenant s ≠ "" → row_of p tbl s = tbl !! (app_tenant s, p).
Proof.
  intros Hb Ht. unfold row_of. set (l := filter _ _).
  assert (∀ kv, kv ∈ l ↔ kv.1 = p ∧ tbl !! (app_tenant s, p) = Some kv.2) as Hl.
  { intros [p' r]. unfold l, seen_rows. rewrite list_elem_of_filter. cbn. split.
    - intros [-> ([[t p2] r'] & [= -> ->] & [Hv Hin]%list_elem_of_filter)%list_elem_of_fmap].
      split; [done|]. apply elem_of_map_to_list in Hin. cbn in *.
      apply (visible_own _ _ Hb) in Hv as [-> _]. done.
    - intros [-> Hr]. split; [done|]. apply list_elem_of_fmap. exists ((app_tenant s, p), r). split; [done|].
      apply list_elem_of_filter. split; [|by apply elem_of_map_to_list].
      cbn. unfold visible. rewrite String.eqb_refl, (proj2 (String.eqb_neq _ _) Ht). by rewrite orb_true_r. }
  destruct l as [|[p' r] l'] eqn:El; cbn.
  - destruct (tbl !! _) as [r|] eqn:E; [|done]. exfalso.
    apply (elem_of_nil (p, r)). apply Hl. done.
  - symmetry. apply (Hl (p', r)). left.
Qed.

Section delivery.
Context `{!Driver, !Machine, !Http, !Zones, !MailLibrary, !Config, !MailConfig}.

(** The request a provider is mailed with. *)
Definition mail_request (provider key : string) (msg : Message) : option http_request :=
  if String.eqb provider "sendgrid"
  then Some {| Method := "POST"; URL := "https://api.sendgrid.com/v3/mail/send";
               Header := [bearer_header key; json_header]; Body := Sendgrid.send_body msg |}
  else if String.eqb provider "resend"
  then Some {| Method := "POST"; URL := "https://api.resend.com/emails";
               Header := [bearer_header key; json_header]; Body := Resend.resend_body msg |}
  else None.

(** The tenant's row of a provider. *)
Definition connected_row (m : mstate) (p : string) : option EmailProvider :=
  email_providers (db_providers (tables (m_db m))) !! (app_tenant (m_db m), p).

Lemma store_inv {A} (q : M (session providers_db) db_err A) m r m' :
  store (on_providers q) m = (r, m') →
  ∃ r0 s', q (retable (db_providers (tables (m_db m))) (m_db m)) = (r0, s') ∧
    m_net m' = m_net m ∧ tables (m_db m') = set_db_providers (tables s') (tables (m_db m)) ∧
    app_tenant (m_db m') = app_tenant s' ∧
    (bypass_rls (m_db m'), aborted (m_db m')) = (bypass_rls s', aborted s') ∧
    r = match r0 with Ok a => Ok a | Err e => Err (ErrStore e) end.
Proof.
  unfold store, on_providers, focus. destruct (q _) as [r0 s'] eqn:E. intros [= <- <-]. exists r0, s'. done.
Qed.
Lemma set_own_providers d : set_db_providers (db_providers d) d = d.
Proof. by destruct d. Qed.

(** The validation makes one exchange under the key it is given. *)
Lemma validation_inv p key c m1 m2 r m3 :
  emailProviderFactory p key m1 = (Ok c, m2) → provider_ValidateCredentials c m2 = (r, m3) →
  m2 = m1 ∧ m_db m3 = m_db m1 ∧
  ∃ req a, m_net m3 = m_net m1 ++ [(req, a)] ∧ Header req = [bearer_header key] ∧ r = classify a ∧
    (p = "sendgrid" ∨ p = "resend").
Proof.
  unfold emailProviderFactory. destruct (String.eqb_spec p "sendgrid") as [->|_].
  - intros [= <- <-]. cbn. intros [= <- <-]. split_and!; [done..|]. eauto 10.
  - destruct (String.eqb_spec p "resend") as [->|_]; [|done].
    intros [= <- <-]. cbn. intros [= <- <-]. split_and!; [done..|]. eauto 10.
Qed.
Lemma factory_refuses p key m e m' :
  emailProviderFactory p key m = (Err e, m') → m' = m.
Proof. unfold emailProviderFactory. do 2 (destruct (String.eqb _ _); [done|]). by intros [= _ <-]. Qed.

Lemma or_error_inv {A} e (c : MM A) m r m' :
  or_error e c m = (r, m') → ∃ r0, c m = (r0, m') ∧ r = match r0 with Ok a => Ok a | Err _ => Err e end.
Proof. unfold or_error. destruct (c m) as [[a|e0] m0]; intros [= <- <-]; eauto. Qed.

Lemma mail_encrypt_inv key m r m' :
  mail_encrypt key m = (r, m') →
  m_db m' = m_db m ∧ m_net m' = m_net m ∧
  ∀ c, r = Ok c → Encrypt (m_ev m) cfg_masterKey key = Some c.
Proof.
  unfold mail_encrypt, bind, question. cbn. intros [= <- <-]. split_and!; [done..|].
  intros c. by destruct (Encrypt _ _ _); intros [= <-].
Qed.

(** What UpsertProvider stores. *)
Lemma UpsertProvider_inv p k e n s r s' :
  Email.UpsertProvider p k e n s = (r, s') →
  match r with
  | Err _ => tables s' = tables s
  | Ok _ => app_tenant s' = app_tenant s ∧ app_tenant s ≠ "" ∧
      (bypass_rls s', aborted s') = (bypass_rls s, aborted s) ∧ ∃ row, tables s' = set_email_providers (<[(app_tenant s, p) := row]>) (tables s) ∧
      EpEncryptedAPIKey row = k ∧ EpFromEmail row = e ∧ EpFromName row = n ∧ EpStatus row = "connected"
  end.
Proof.
  intros E. pose proof (stmt_settings_eq _ _ _ _ E) as [Ht _].
  apply stmt_inv in E as [(x & -> & Hs)|(a & d & Hf & -> & ->)]; [done|]. split; [done|]. cbn.
  destruct (default_tenant s) as [t|] eqn:Et; [|done].
  assert (app_tenant s ≠ "") as Hne by (unfold default_tenant in Et; by destruct (String.eqb_spec (app_tenant s) "")).
  apply own_tenant in Et as ->. split; [done|]. split; [done|].
  destruct (negb _); [done|]. cbv zeta in Hf.
  destruct (email_providers (tables s) !! _) as [old|]; [injection Hf as _ <-; by eexists|].
  destruct (id_free _ _ _); [|done]. injection Hf as _ <-. by eexists.
Qed.
(** Everything a Connect leaves behind. *)
Lemma Connect_inv p key fromEmail fromName m r m' :
  machine_laws → Connect p key fromEmail fromName m = (r, m') →
  match r with
  | Err _ => tables (m_db m') = tables (m_db m)
  | Ok _ =>
      (p = "sendgrid" ∨ p = "resend") ∧ app_tenant (m_db m) ≠ "" ∧
      app_tenant (m_db m') = app_tenant (m_db m) ∧
      (bypass_rls (m_db m'), aborted (m_db m')) = (bypass_rls (m_db m), aborted (m_db m)) ∧
      (∃ req a, m_net m' = m_net m ++ [(req, a)] ∧ Header req = [bearer_header key] ∧ classify a = Ok tt) ∧
      ∃ row, connected_row m' p = Some row ∧ EpStatus row = "connected" ∧
        (∃ n, Encrypt n cfg_masterKey key = Some (EpEncryptedAPIKey row)) ∧
        Decrypt cfg_masterKey (EpEncryptedAPIKey row) = Some key ∧
        EpFromEmail row = fromEmail ∧ EpFromName row = fromName ∧
        tables (m_db m') = set_db_providers
          (set_email_providers (<[(app_tenant (m_db m), p) := row]>) (db_providers (tables (m_db m))))
          (tables (m_db m))
  end.
Proof.
  intros Hlaws. unfold Connect. destruct (_ || _ || _); [by intros [= <- <-]|].
  destruct (negb _); [by intros [= <- <-]|].
  unfold bind at 1. destruct (or_error _ (emailProviderFactory p key) m) as [rc m1] eqn:Ec.
  apply or_error_inv in Ec as (rc0 & Ec & ->). destruct rc0 as [c|e0].
  2:{ apply factory_refuses in Ec as ->. by intros [= <- <-]. }
  unfold bind at 1. destruct (or_error _ _ m1) as [rv m2] eqn:Ev.
  apply or_error_inv in Ev as (rv0 & Ev & ->).
  destruct (validation_inv _ _ _ _ _ _ _ Ec Ev) as (-> & Hdb2 & req & a & Hnet2 & Hh & -> & Hp).
  destruct (classify a) as [[]|e1] eqn:Ea; [|intros [= <- <-]; by rewrite Hdb2].
  unfold bind at 1. destruct (mail_encrypt key m2) as [re m3] eqn:Ee.
  destruct (mail_encrypt_inv _ _ _ _ Ee) as (Hdb3 & Hnet3 & Hc).
  destruct re as [k|e2]; [|intros [= <- <-]; by rewrite Hdb3, Hdb2].
  specialize (Hc k eq_refl). intros E. apply store_inv in E as (r0 & s' & E & Hnet & Ht & Hat & HB & ->).
  apply UpsertProvider_inv in E. rewrite Hdb3, Hdb2 in *. cbn [tables retable app_tenant bypass_rls aborted] in E.
  destruct r0 as [[]|e3]; [|rewrite Ht, E; apply set_own_providers].
  destruct E as (Ha & Hne & HB' & row & Hs & <- & <- & <- & Hst). rewrite Hat, HB, HB', Ha.
  split; [done|]. split; [done|]. split; [done|]. split; [done|]. split.
  - exists req, a. by rewrite Hnet, Hnet3, Hnet2.
  - exists row. unfold connected_row. rewrite Ht, Hat, Ha, Hs. cbn.
    split_and!; [by rewrite lookup_insert_eq|done|by eexists|by eapply decrypt_encrypted|done..].
Qed.

Context (answers : ∀ n, event_fails n = false).

(** A read of a server that answers, on a connection that is not aborted. *)
Lemma store_query {A} (f : session providers_db → A) m :
  aborted (m_db m) = false →
  store (on_providers (query f)) m =
    (Ok (f (retable (db_providers (tables (m_db m))) (m_db m))), set_m_db (bump (m_db m)) m).
Proof.
  intros Ha. unfold store, on_providers, focus. rewrite query_runs by done. cbn.
  unfold retable, bump. cbn. by rewrite set_own_providers.
Qed.

(** What Get finds for the tenant. *)
Lemma store_Get m p row :
  aborted (m_db m) = false → bypass_rls (m_db m) = false → app_tenant (m_db m) ≠ "" →
  connected_row m p = Some row →
  store (on_providers (Email.Get p)) m = (Ok row, set_m_db (bump (m_db m)) m).
Proof.
  intros Ha Hb Ht Hr. unfold Email.Get, store, on_providers, focus.
  rewrite query_then by done. cbn. unfold retable, bump. cbn.
  rewrite (row_of_own _ (retable (db_providers (tables (m_db m))) (m_db m))) by done.
  unfold connected_row in Hr. cbn. rewrite Hr. cbn. by rewrite set_own_providers.
Qed.

Lemma store_SetActive m p row :
  aborted (m_db m) = false → app_tenant (m_db m) ≠ "" → connected_row m p = Some row →
  ∃ m', store (on_providers (Email.SetActiveProvider p)) m = (Ok tt, m') ∧
    app_tenant (m_db m') = app_tenant (m_db m) ∧ bypass_rls (m_db m') = bypass_rls (m_db m) ∧
    aborted (m_db m') = false ∧ connected_row m' p = Some row ∧
    email_settings (db_providers (tables (m_db m'))) !! app_tenant (m_db m) = Some (Some p).
Proof.
  intros Ha Ht Hr. unfold store, on_providers, focus, Email.SetActiveProvider.
  erewrite stmt_runs; [|done|done|].
  2:{ unfold default_tenant. cbn. rewrite (proj2 (String.eqb_neq _ _) Ht).
      unfold connected_row in Hr. by rewrite Hr. }
  eexists. split; [done|]. unfold connected_row. cbn. by rewrite lookup_insert_eq.
Qed.

Lemma mail_request_some p key msg : p = "sendgrid" ∨ p = "resend" → ∃ req, mail_request p key msg = Some req.
Proof. unfold mail_request. intros [-> | ->]; cbn; eauto. Qed.

(** The active provider's client, its key opened. *)
Lemma active_client_runs m p row key :
  aborted (m_db m) = false → bypass_rls (m_db m) = false → app_tenant (m_db m) ≠ "" → p ≠ "" →
  email_settings (db_providers (tables (m_db m))) !! app_tenant (m_db m) = Some (Some p) →
  connected_row m p = Some row → Decrypt cfg_masterKey (EpEncryptedAPIKey row) = Some key →
  let m' := set_m_db (bump (bump (m_db m))) m in
  active_client m = match emailProviderFactory p key m' with
                    | (Ok c, m2) => (Ok (row, c), m2) | (Err e, m2) => (Err e, m2) end.
Proof.
  intros Ha Hb Ht Hp Hact Hr Hk m'. unfold active_client, bind at 1, Email.GetActiveProvider.
  rewrite store_query by done. cbn.
  rewrite (proj2 (String.eqb_neq _ _) Ht), Hact, (proj2 (String.eqb_neq _ _) Hp).
  unfold bind at 1, or_missing. rewrite (store_Get _ _ row) by done.
  unfold bind, mail_decrypt. rewrite Hk. by destruct (emailProviderFactory _ _ _) as [[]].
Qed.
(** A mail through an active provider whose key opens. *)
Lemma send_active_runs m p row key to subject b :
  aborted (m_db m) = false → bypass_rls (m_db m) = false → app_tenant (m_db m) ≠ "" → p ≠ "" →
  email_settings (db_providers (tables (m_db m))) !! app_tenant (m_db m) = Some (Some p) →
  connected_row m p = Some row → Decrypt cfg_masterKey (EpEncryptedAPIKey row) = Some key →
  ∀ req, mail_request p key (message row to subject b) = Some req →
  let a := http_Do (m_ev m) req in
  send_active to subject (Some b) m =
    (classify a, MState (bump (bump (m_db m))) (m_net m ++ [(req, a)]) (S (m_ev m))).
Proof.
  intros Ha Hb Ht Hp Hact Hr Hk req Hreq. unfold send_active, bind at 1.
  rewrite (active_client_runs m p row key) by done.
  unfold mail_request in Hreq. unfold emailProviderFactory.
  destruct (String.eqb p "sendgrid"); [by injection Hreq as <-|].
  destruct (String.eqb p "resend"); [by injection Hreq as <-|done].
Qed.
End delivery.

(** Connect stores nothing that the provider did not vouch for.  Whatever
    fails, an error leaves every table as it was; and when it succeeds, exactly one
    exchange was made, it carried the submitted key, the provider took it, and what
    is stored is the tenant's row alone, connected, with the submitted sender and
    the key readable again under the master key. *)
Theorem connect_stores_validated `{!Driver, !Machine, !Http, !Zones, !MailLibrary, !Config, !MailConfig}
    (p key fromEmail fromName : string) (m : mstate) r m' :
  machine_laws → Connect p key fromEmail fromName m = (r, m') →
  match r with
  | Err _ => tables (m_db m') = tables (m_db m)
  | Ok _ =>
      (∃ req a, m_net m' = m_net m ++ [(req, a)] ∧ Header req = [bearer_header key] ∧ classify a = Ok tt) ∧
      ∃ row, connected_row m' p = Some row ∧ EpStatus row = "connected" ∧
        (∃ n, Encrypt n cfg_masterKey key = Some (EpEncryptedAPIKey row)) ∧
        Decrypt cfg_masterKey (EpEncryptedAPIKey row) = Some key ∧
        EpFromEmail row = fromEmail ∧ EpFromName row = fromName ∧
        tables (m_db m') = set_db_providers
          (set_email_providers (<[(app_tenant (m_db m), p) := row]>) (db_providers (tables (m_db m))))
          (tables (m_db m))
  end.
Proof.
  intros Hlaws E. apply Connect_inv in E; [|done]. destruct r as [[]|e]; [|done].
  destruct E as (_ & _ & _ & _ & Hreq & Hrow). done.
Qed.

(** C21: what a tenant connects and activates is what its mails go through.  On a
    server that answers, and on a connection under row security (a role that
    bypasses it may read another tenant's row), a successful Connect leaves the
    tenant's row with the key's encryption under the master key in its key column;
    then Activate succeeds, and every mail is exactly one POST to that service with
    the key that column decrypts to, the submitted one, as its bearer token,
    carrying the message from the submitted sender to the address given; its
    outcome is the service's. *)
Theorem mails_go_through_connected `{!Driver, !Machine, !Http, !Zones, !MailLibrary, !Config, !MailConfig}
    (p key fromEmail fromName : string) (m m1 : mstate) (to subject html text : string) :
  (∀ n, event_fails n = false) → machine_laws → aborted (m_db m) = false → bypass_rls (m_db m) = false →
  Connect p key fromEmail fromName m = (Ok tt, m1) →
  let msg := {| To := to; FromEmail := fromEmail; FromName := fromName; Subject := subject;
                HTMLBody := html; TextBody := text |} in
  (∃ row n, connected_row m1 p = Some row ∧ Encrypt n cfg_masterKey key = Some (EpEncryptedAPIKey row)) ∧
  ∃ m2 req, Activate p m1 = (Ok tt, m2) ∧ connected_row m2 p = connected_row m1 p ∧
    mail_request p key msg = Some req ∧
    let a := http_Do (m_ev m2) req in
    ∃ m3, send_active to subject (Some (html, text)) m2 = (classify a, m3) ∧
      m_net m3 = m_net m2 ++ [(req, a)] ∧ tables (m_db m3) = tables (m_db m2).
Proof.
  intros Hans Hlaws Ha Hb E msg.
  destruct (Connect_inv _ _ _ _ _ _ _ Hlaws E) as (Hp & Hne & Ht1 & HB & _ & row & Hrow & Hst & Henc & Hk & <- & <- & _).
  rewrite Ha, Hb in HB. injection HB as Hb1 Ha1. rewrite <- Ht1 in Hne.
  destruct (store_SetActive Hans (set_m_db (bump (m_db m1)) m1) p row) as (m2 & E2 & Ht2 & Hb2 & Ha2 & Hr2 & Hs2);
    [done..|]. cbn [m_db set_m_db app_tenant bypass_rls bump] in Ht2, Hb2, Hs2.
  destruct (mail_request_some p key msg Hp) as [req Hreq].
  split; [destruct Henc as [n Henc]; by exists row, n|].
  exists m2, req. split; [|split; [by rewrite Hr2, Hrow|split; [done|]]].
  - unfold Activate, bind at 1, or_missing. rewrite (store_Get Hans _ _ row) by done. by rewrite Hst.
  - cbv zeta. eexists. split; [|split].
    + apply (send_active_runs Hans m2 p row key); rewrite ?Ht2, ?Hb2; try done.
      by destruct Hp as [-> | ->].
    + done.
    + done.
Qed.

(** ** Examples and witnesses *)

(** Templates that render to nothing much, and addresses with anything in them. *)
#[export] Instance demo_library : @MailLibrary demo_zones := {|
  ParseAddress s := negb (String.eqb s "");
  renderAdminInvite _ := Some ("invite", "invite");
  renderPasswordReset _ := Some ("reset", "reset");
  renderSignupVerification _ := Some ("verify", "verify");
  renderIncidentOpened _ := Some ("opened", "opened");
  renderIncidentResolved _ := Some ("resolved", "resolved");
  renderWeeklyDigest _ := Some ("digest", "digest");
  renderDomainExpiring _ := Some ("expiring", "expiring");
  renderDomainNSDrift _ := Some ("drift", "drift");
|}.
Definition demo_mail_config : MailConfig := {|
  cfg_emailAssetsBaseURL := "";
  cfg_notificationServiceBaseURL := "https://notify.example";
  cfg_notificationServiceAPIKey := "platform-key";
|}.
(** Services that take everything. *)
Definition demo_http : Http := {| http_Do _ _ := Answered 202 |}.

(** A connection for a tenant, on an empty database. *)
Definition blank_db : database :=
  {| db_identity := empty_identity; db_core := empty_core; db_intervals := ∅; db_providers := empty_providers |}.
Definition mail_state (tenant : string) (bypass : bool) (d : database) : mstate :=
  MState (Session d tenant bypass None false 0) [] 0.

Definition demo_Connect (p key from name : string) : MM unit :=
  @Connect numbered demo_machine demo_http demo_zones demo_library self_hosted p key from name.
Definition demo_Activate (p : string) : MM unit := @Activate numbered p.

Lemma connect_stores_validated_witness :
  ∃ m', demo_Connect "resend" "re_key" "ops@a.example" "Ops" (mail_state "t1" false blank_db) = (Ok tt, m') ∧
    ∃ row, connected_row m' "resend" = Some row ∧
      @Decrypt demo_machine (@cfg_masterKey self_hosted) (EpEncryptedAPIKey row) = Some "re_key".
Proof.
  eexists. split; [vm_compute; reflexivity|].
  destruct (@connect_stores_validated numbered demo_machine demo_http demo_zones demo_library self_hosted
    demo_mail_config "resend" "re_key" "ops@a.example" "Ops" (mail_state "t1" false blank_db) (Ok tt) _
    demo_machine_laws eq_refl) as (_ & row & Hrow & _ & _ & Hk & _).
  exists row. split; [exact Hrow|exact Hk].
Defined.

Lemma mails_go_through_connected_witness :
  ∃ m1 m2 req, demo_Connect "resend" "re_key" "ops@a.example" "Ops" (mail_state "t1" false blank_db) = (Ok tt, m1) ∧
    (EpEncryptedAPIKey <$> connected_row m1 "resend") ≠ Some "re_key" ∧
    demo_Activate "resend" m1 = (Ok tt, m2) ∧
    mail_request "resend" "re_key" {| To := "x@b.example"; FromEmail := "ops@a.example"; FromName := "Ops";
      Subject := "s"; HTMLBody := "h"; TextBody := "t" |} = Some req.
Proof.
  eexists.
  destruct (@mails_go_through_connected numbered demo_machine demo_http demo_zones demo_library self_hosted
    demo_mail_config "resend" "re_key" "ops@a.example" "Ops" (mail_state "t1" false blank_db) _
    "x@b.example" "s" "h" "t" (λ _, eq_refl) demo_machine_laws eq_refl eq_refl eq_refl)
    as (_ & m2 & req & Ha & _ & Hr & _).
  exists m2, req. split; [vm_compute; reflexivity|]. split; [vm_compute; discriminate|]. split; [exact Ha|exact Hr].
Defined.

(** On a role that bypasses row security, Get finds a provider by its name alone:
    of two tenants that connected the same service, one mails with the other's key
    and from the other's address. *)
Definition two_tenants : mstate :=
  let s t m := set_m_db (Session (tables (m_db m)) t true None false (tick (m_db m))) m in
  let m1 := (demo_Connect "resend" "key-of-t1" "ops@t1.example" "T1" (mail_state "t1" true blank_db)).2 in
  let m2 := (demo_Connect "resend" "key-of-t2" "ops@t2.example" "T2" (s "t2" m1)).2 in
  let m3 := (demo_Activate "resend" m2).2 in
  (demo_Activate "resend" (s "t1" m3)).2.
Definition mailing_as (t : string) : mstate :=
  set_m_db (Session (tables (m_db two_tenants)) t true None false (tick (m_db two_tenants)))
    (MState (m_db two_tenants) [] (m_ev two_tenants)).
Definition sent_by (t : string) : list (list (string * string) * mail_body) :=
  (λ x, (Header x.1, Body x.1)) <$>
  m_net (@send_active numbered demo_machine demo_http self_hosted "x@b.example" "s" (Some ("h", "x")) (mailing_as t)).2.


(** on a role that bypasses row security a tenant mails with another tenant's
    key: Get finds the provider by its name alone.  Two tenants connected and
    activated Resend, each with its own key and sender; the mail of the second goes
    out under the first one's key, from the first one's address. *)
Theorem bypass_mails_with_other_key :
  bypass_rls (m_db (mailing_as "t2")) = true ∧
  EpFromEmail <$> connected_row (mailing_as "t2") "resend" = Some "ops@t2.example" ∧
  sent_by "t2" = [([bearer_header "key-of-t1"; json_header],
                   ResendBody "T1 <ops@t1.example>" "x@b.example" "s" "h" "x")].
Proof. vm_compute. split_and!; reflexivity. Qed.
