(* ===== verification/Notify.v ===== *)
(** * Notifications (internal/notify/service.go)

    Who is told of an event: the tenant's owners and operators whose preference
    for it is on.  One mail each, through the [Sender]; a mail that fails stops
    neither the others nor the caller.  [Service] runs on the connection of its
    caller's context; [app_user] is that connection's app.user_id. *)

From stdpp Require Import numbers strings gmap list sorting.
From Stdlib Require Import ZArith Lia.
From S2P Require Import Prelude GoNum GoTime Db Schema World Identity Secrets Auth Accounts TwoFactor LLMProviders Providers Tenants Incidents Api Inert AuthApi AccountApi AccountDemo MailData Connectors Mail MailDelivery.

#[local] Open Scope Z_scope.
#[local] Open Scope go_scope.

Record DomainExpiringSummary := {
  DesDomainID : string;
  DesHostname : string;
  DesDaysRemaining : Z;
  DesThresholdDays : Z;
  DesTenantName : string;
}.
Record DomainNSDriftSummary := {
  DnsDomainID : string;
  DnsHostname : string;
  DnsExpectedNS : list string;
  DnsCurrentNS : list string;
  DnsTenantName : string;
}.

(** The incident's summary with the two fields no caller fills, and the zone. *)
Record incident_payload `{!Zones} := {
  IpSummary : IncidentSummary;
  IpTenantName : string;
  IpResolutionSummary : string;
  IpLocation : option Location;
}.
(** The summary the notification's type goes with. *)
Inductive notificationPayload `{!Zones} :=
| IncidentPayload (p : incident_payload)
| DomainExpiringPayload (p : DomainExpiringSummary)
| DomainNSDriftPayload (p : DomainNSDriftSummary).

Definition resolutionLookback : Z := 10.

Section notify.
Context `{!Driver, !Machine, !Http, !Zones, !MailLibrary, !Config, !MailConfig}.
Context (sender : Sender) (app_user : string).

Definition dashboardURL (incidentID : string) : string :=
  if String.eqb cfg_adminBaseURL "" || String.eqb incidentID "" then ""
  else trim_slashes cfg_adminBaseURL +++ "/incidents/" +++ incidentID.
Definition domainDashboardURL (domainID : string) : string :=
  if String.eqb cfg_adminBaseURL "" || String.eqb domainID "" then ""
  else trim_slashes cfg_adminBaseURL +++ "/domains".

(** ** Recipients *)

Definition may_be_told (m : TenantMember) : bool :=
  String.eqb (MemRole m) "owner" || String.eqb (MemRole m) "operator".

(** The candidates, and which of them have the type on. *)
Definition recipients (tenantID notificationType : string) : MM (list TenantMember) :=
  members <- store (on_identity (ListMembersWithEmail app_user tenantID)) ;;
  let candidates := filter (λ m, may_be_told m = true) members in
  match candidates with
  | [] => ret []
  | _ =>
      enabled <- store (on_identity (ResolveEnabledForUsers (MemUserID <$> candidates) notificationType)) ;;
      ret (filter (λ m, default false (enabled !! MemUserID m) = true) candidates)
  end.

Definition WeeklyDigestRecipients (tenantID : string) : MM (list TenantMember) :=
  recipients tenantID NotificationTypeWeeklyDigest.

(** ** Sending *)

Definition send (to notificationType : string) (payload : notificationPayload) (url : string) : MM unit :=
  match payload with
  | IncidentPayload p =>
      let inc := IpSummary p in
      if String.eqb notificationType NotificationTypeIncidentOpened then
        SendIncidentOpened sender to
          {| IoLayout := no_layout; IoTenantName := IpTenantName p; IoServiceName := SumServiceName inc;
             IoIncidentTitle := SumTitle inc; IoSeverity := SumSeverity inc; IoStatus := SumStatus inc;
             IoOpenedAt := SumOpenedAt inc; IoLocation := IpLocation p;
             IoFirstUpdateAt := if String.eqb (SumDescription inc) "" then time_zero else SumOpenedAt inc;
             IoFirstUpdateMessage := SumDescription inc; IoDuration := ""; IoDashboardURL := url |}
      else if String.eqb notificationType NotificationTypeIncidentResolved then
        SendIncidentResolved sender to
          {| IrLayout := no_layout; IrTenantName := IpTenantName p; IrServiceName := SumServiceName inc;
             IrIncidentTitle := SumTitle inc; IrSeverity := SumSeverity inc; IrOpenedAt := SumOpenedAt inc;
             IrResolvedAt := default time_zero (SumResolvedAt inc); IrLocation := IpLocation p;
             IrResolutionSummary := IpResolutionSummary p; IrDashboardURL := url |}
      else fail ErrUnknownType
  | DomainExpiringPayload p =>
      SendDomainExpiring sender to
        {| DeTenantName := DesTenantName p; DeHostname := DesHostname p; DeDaysRemaining := DesDaysRemaining p;
           DeThresholdDays := DesThresholdDays p; DeDashboardURL := url |}
  | DomainNSDriftPayload p =>
      SendDomainNSDrift sender to
        {| DnTenantName := DnsTenantName p; DnHostname := DnsHostname p; DnExpectedNS := DnsExpectedNS p;
           DnCurrentNS := DnsCurrentNS p; DnDashboardURL := url |}
  end.

(** One call per recipient, whose error is logged. *)
Fixpoint send_each {A} (f : A → MM unit) (l : list A) : MM unit :=
  match l with
  | [] => ret tt
  | x :: l => attempt (f x) ;;; send_each f l
  end.

Definition notify (tenantID notificationType : string) (payload : notificationPayload) (url : string) : MM unit :=
  told <- recipients tenantID notificationType ;;
  send_each (λ m, send (MemEmail m) notificationType payload url) told.

(** ** Incidents *)

Definition latestAuthoredNote (updates : list IncidentUpdate) : string :=
  match filter (λ u, negb (is_none (AuthorID u)) || IsAISummary u = true) updates with
  | u :: _ => UpdBody u
  | [] => ""
  end.

Definition with_service_name (name : string) (x : IncidentSummary) : IncidentSummary :=
  {| SumIncidentID := SumIncidentID x; SumTitle := SumTitle x; SumSeverity := SumSeverity x;
     SumServiceName := name; SumStatus := SumStatus x; SumOpenedAt := SumOpenedAt x;
     SumResolvedAt := SumResolvedAt x; SumDescription := SumDescription x |}.

(** A lookup whose failure is logged: the field stays as it is. *)
Definition best_effort {A B} (q : MM A) (f : A → B) (b : B) : MM B :=
  r <- attempt q ;;
  ret (match r with Ok a => f a | Err _ => b end).

Definition enrichIncident (tenantID notificationType : string) (summary : IncidentSummary) : MM incident_payload :=
  p <- best_effort (store (on_identity (GetTenant tenantID)))
    (λ t, {| IpSummary := summary; IpTenantName := TenName t; IpResolutionSummary := "";
             IpLocation := Some (TenantLocation (TenTimezone t)) |})
    {| IpSummary := summary; IpTenantName := ""; IpResolutionSummary := ""; IpLocation := None |} ;;
  if String.eqb (SumIncidentID summary) "" then ret p
  else
    inc <- (if String.eqb (SumServiceName summary) ""
            then best_effort (store (on_db_core (ListServiceNames (SumIncidentID summary))))
                   (λ names, with_service_name (join ", " names) summary) summary
            else ret summary) ;;
    note <- (if String.eqb notificationType NotificationTypeIncidentResolved
             then best_effort (store (on_db_core (ListUpdatesPaginated (SumIncidentID summary) 1 resolutionLookback)))
                    (λ u, latestAuthoredNote u.1) ""
             else ret "") ;;
    ret {| IpSummary := inc; IpTenantName := IpTenantName p; IpResolutionSummary := note;
           IpLocation := IpLocation p |}.

Definition notifyIncident (tenantID notificationType : string) (summary : IncidentSummary) : MM unit :=
  payload <- enrichIncident tenantID notificationType summary ;;
  notify tenantID notificationType (IncidentPayload payload) (dashboardURL (SumIncidentID summary)).
Definition NotifyIncidentOpened (tenantID : string) (summary : IncidentSummary) : MM unit :=
  notifyIncident tenantID NotificationTypeIncidentOpened summary.
Definition NotifyIncidentResolved (tenantID : string) (summary : IncidentSummary) : MM unit :=
  notifyIncident tenantID NotificationTypeIncidentResolved summary.

(** ** Domains and the digest *)

Definition NotifyDomainExpiring (tenantID : string) (summary : DomainExpiringSummary) : MM unit :=
  notify tenantID NotificationTypeDomainExpiring (DomainExpiringPayload summary)
    (domainDashboardURL (DesDomainID summary)).
Definition NotifyDomainNSDrift (tenantID : string) (summary : DomainNSDriftSummary) : MM unit :=
  notify tenantID NotificationTypeDomainNSDrift (DomainNSDriftPayload summary)
    (domainDashboardURL (DnsDomainID summary)).

(** The links, where the caller did not set them. *)
Definition with_links (d : WeeklyDigestEmailData) : WeeklyDigestEmailData :=
  let link given path := if String.eqb given "" && negb (String.eqb cfg_adminBaseURL "")
                         then trim_slashes cfg_adminBaseURL +++ path else given in
  {| WdLayout := WdLayout d; WdTenantName := WdTenantName d; WdUptimePercent := WdUptimePercent d;
     WdIncidentsOpened := WdIncidentsOpened d; WdIncidentsResolved := WdIncidentsResolved d;
     WdPeriodStart := WdPeriodStart d; WdPeriodEnd := WdPeriodEnd d; WdLocation := WdLocation d;
     WdServices := WdServices d; WdTotalServices := WdTotalServices d; WdIncidents := WdIncidents d;
     WdTotalIncidents := WdTotalIncidents d; WdMTTR := WdMTTR d;
     WdDashboardURL := link (WdDashboardURL d) "/overview"; WdIncidentsURL := link (WdIncidentsURL d) "/incidents" |}.
Definition notify_SendWeeklyDigest (to : string) (d : WeeklyDigestEmailData) : MM unit :=
  SendWeeklyDigest sender to (with_links d).
End notify.

(** ** Who is told *)

(** A user's preference for a type, the documented default without a row. *)
Definition prefers (d : identity) (notificationType userID : string) : bool :=
  default (NotificationDefaultEnabled notificationType) (notification_preferences d !! (userID, notificationType)).

Record is_member (d : identity) (tenantID : string) (x : TenantMember) : Prop := {
  im_user : ∃ u, users d !! MemUserID x = Some u ∧ MemEmail x = Email u;
  im_role : ∃ r, memberships d !! (MemUserID x, tenantID) = Some r ∧ MemRole x = MbRole r;
}.
Definition to_be_told (d : identity) (tenantID notificationType : string) (x : TenantMember) : Prop :=
  is_member d tenantID x ∧ (MemRole x = "owner" ∨ MemRole x = "operator") ∧
  prefers d notificationType (MemUserID x) = true.

Lemma may_be_told_iff x : may_be_told x = true ↔ MemRole x = "owner" ∨ MemRole x = "operator".
Proof. unfold may_be_told. by rewrite orb_true_iff, !String.eqb_eq. Qed.

Section members.
Context `{!Driver}.

Definition tenant_rows (s : session identity) (u t : string) : list (string * string * membership_row) :=
  filter (λ kv, kv.1.2 = t) (seen_memberships s u).
Definition members_of (s : session identity) (u t : string) : list TenantMember :=
  omap (member_of s) (merge_sort older_membership (bare_membership <$> tenant_rows s u t)).

Lemma tenant_rows_elem s u t kv :
  visible s t = true → kv ∈ tenant_rows s u t ↔ kv.1.2 = t ∧ memberships (tables s) !! kv.1 = Some kv.2.
Proof.
  intros Hv. unfold tenant_rows, seen_memberships. rewrite !list_elem_of_filter.
  destruct kv as [[x y] r]. rewrite elem_of_map_to_list. cbn. split; [by intros (-> & _ & ?)|].
  intros [-> Hr]. split; [done|]. split; [|done]. unfold member_visible. cbn. by rewrite Hv.
Qed.
Lemma tenant_rows_users s u t :
  NoDup ((λ kv : string * string * membership_row, kv.1.1) <$> tenant_rows s u t).
Proof.
  apply NoDup_fmap_2_strong.
  - intros [[x1 y1] r1] [[x2 y2] r2]. unfold tenant_rows, seen_memberships.
    rewrite !list_elem_of_filter, !elem_of_map_to_list. cbn. intros (-> & _ & E1) (-> & _ & E2) ->. congruence.
  - unfold tenant_rows, seen_memberships. do 2 apply NoDup_filter. apply NoDup_map_to_list.
Qed.

Lemma members_elem s u t x :
  visible s t = true → x ∈ members_of s u t ↔ is_member (tables s) t x.
Proof.
  intros Hv. unfold members_of. rewrite list_elem_of_omap. split.
  - intros (y & Hy & E). rewrite (merge_sort_Permutation older_membership) in Hy.
    apply list_elem_of_fmap in Hy as (kv & -> & Hkv). apply (tenant_rows_elem _ _ _ _ Hv) in Hkv as [Ht Hr].
    unfold member_of in E. cbn in E. destruct (users (tables s) !! kv.1.1) as [usr|] eqn:Eu; [|done].
    injection E as <-. split; cbn; [eauto|]. exists kv.2. split; [|done]. by rewrite <- Ht, <- surjective_pairing.
  - intros [(usr & Hu & He) (r & Hr & Hrole)].
    exists (bare_membership (MemUserID x, t, r)). split.
    + rewrite (merge_sort_Permutation older_membership). apply list_elem_of_fmap. eexists. split; [done|].
      by apply tenant_rows_elem.
    + unfold member_of. cbn. rewrite Hu. cbn. rewrite <- He, <- Hrole. by destruct x.
Qed.

Lemma ListMembers_Ok s u t ms s' : ListMembersWithEmail u t s = (Ok ms, s') → ms = members_of s u t.
Proof. by intros [-> _]%query_Ok_inv. Qed.
Lemma omap_member_ids s l : MemUserID <$> omap (member_of s) l `sublist_of` TmUserID <$> l.
Proof.
  induction l as [|y l IH]; [constructor|]. cbn. unfold member_of at 1.
  destruct (users (tables s) !! TmUserID y); cbn; by constructor.
Qed.
Lemma members_ids s u t : NoDup (MemUserID <$> members_of s u t).
Proof.
  eapply sublist_NoDup; [|apply omap_member_ids]. rewrite (merge_sort_Permutation older_membership).
  rewrite <- list_fmap_compose. apply tenant_rows_users.
Qed.

(** *** Preferences *)

Lemma stored_lookup (prefs : gmap (string * string) bool) (us : list string) ty u :
  u ∈ us →
  (list_to_map (prod_map fst id <$> filter (λ kv, kv.1.2 = ty ∧ kv.1.1 ∈ us) (map_to_list prefs)) : gmap string bool)
    !! u = prefs !! (u, ty).
Proof.
  intros Hu. set (l := _ <$> _).
  assert (∀ b, (u, b) ∈ l ↔ prefs !! (u, ty) = Some b) as Hl.
  { intros b. unfold l. rewrite list_elem_of_fmap. split.
    - intros ([[x y] c] & [= -> ->] & [[Hy _] Hin]%list_elem_of_filter).
      apply elem_of_map_to_list in Hin. cbn in *. by subst.
    - intros Hp. exists ((u, ty), b). split; [done|]. apply list_elem_of_filter. split; [done|].
      by apply elem_of_map_to_list. }
  assert (NoDup l.*1) as Hnd.
  { unfold l. rewrite <- list_fmap_compose. apply NoDup_fmap_2_strong.
    - intros [[x1 y1] r1] [[x2 y2] r2]. rewrite !list_elem_of_filter, !elem_of_map_to_list. cbn.
      intros ([-> _] & E1) ([-> _] & E2) ->. congruence.
    - apply NoDup_filter, NoDup_map_to_list. }
  destruct (list_to_map l !! u) as [b|] eqn:E.
  - symmetry. apply Hl. by apply elem_of_list_to_map_2.
  - destruct (prefs !! (u, ty)) as [b|] eqn:Ep; [|done].
    assert ((u, b) ∈ l) as Hin by by apply Hl.
    apply (elem_of_list_to_map_1 l) in Hin; [|done]. congruence.
Qed.
Lemma tabulated_lookup {B} (f : string → B) (us : list string) u :
  u ∈ us → (list_to_map ((λ u, (u, f u)) <$> us) : gmap string B) !! u = Some (f u).
Proof.
  induction us as [|v us IH]; [by intros ?%elem_of_nil|]. intros Hu. cbn.
  destruct (decide (v = u)) as [->|Hne]; [by rewrite lookup_insert_eq|].
  rewrite lookup_insert_ne by done. apply IH. by apply elem_of_cons in Hu as [->|].
Qed.

Lemma ResolveEnabled_Ok us ty s en s' u :
  ResolveEnabledForUsers us ty s = (Ok en, s') → u ∈ us → en !! u = Some (prefers (tables s) ty u).
Proof.
  intros E Hu. destruct us as [|v us]; [by apply elem_of_nil in Hu|]. cbn [ResolveEnabledForUsers] in E.
  apply bind_Ok_inv in E as (st & s1 & E & E2). apply query_Ok_inv in E as [-> _]. injection E2 as <- _.
  etrans; [exact (tabulated_lookup _ (v :: us) u Hu)|]. unfold resolve_enabled, prefers. rewrite stored_lookup by done.
  by destruct (notification_preferences (tables s) !! (u, ty)).
Qed.
End members.

(** ** What a notification does *)

Section told.
Context `{!Driver, !Machine, !Http, !Zones, !MailLibrary, !Config, !MailConfig}.
Context (app_user : string).

Definition identity_of (m : mstate) : identity := db_identity (tables (m_db m)).

Lemma store_identity_Ok {A} (q : M (session identity) db_err A) m a m' :
  store (on_identity q) m = (Ok a, m') → inert q →
  (∃ s', q (retable (identity_of m) (m_db m)) = (Ok a, s')) ∧
  tables (m_db m') = tables (m_db m) ∧ app_tenant (m_db m') = app_tenant (m_db m) ∧
  bypass_rls (m_db m') = bypass_rls (m_db m).
Proof.
  intros E Hq. destruct (mails_store (on_identity q) (identity_inert _ Hq) m) as (T & U & V & _).
  rewrite E in T, U, V. split; [|done]. unfold store, on_identity, focus in E. fold (identity_of m) in E.
  destruct (q _) as [[a'|] s']; [|done]. injection E as <- _. eauto.
Qed.

Lemma recipients_Ok t ty m l m' :
  recipients app_user t ty m = (Ok l, m') → visible (m_db m) t = true →
  NoDup (MemUserID <$> l) ∧ ∀ x, x ∈ l ↔ to_be_told (identity_of m) t ty x.
Proof.
  intros (ms & m1 & E & E2)%bind_Ok_inv Hv.
  apply store_identity_Ok in E as ((s' & Em) & T1 & U1 & V1); [|apply members_inert].
  apply ListMembers_Ok in Em. cbv zeta in E2. set (s := retable (identity_of m) (m_db m)) in *.
  assert (∀ x, x ∈ ms ↔ is_member (identity_of m) t x) as Hms by (intros; subst ms; by apply members_elem).
  assert (NoDup (MemUserID <$> ms)) as Hnd by (subst ms; apply members_ids).
  clear Em. set (cs := filter (λ m, may_be_told m = true) ms) in *.
  assert (∀ x, x ∈ cs ↔ is_member (identity_of m) t x ∧ (MemRole x = "owner" ∨ MemRole x = "operator")) as Hcs.
  { intros x. unfold cs. rewrite list_elem_of_filter, Hms, may_be_told_iff. tauto. }
  assert (∀ (P : TenantMember → Prop) `{!∀ x, Decision (P x)} k, NoDup (MemUserID <$> k) → NoDup (MemUserID <$> filter P k)) as Hf.
  { intros P ? k Hk. eapply sublist_NoDup; [exact Hk|]. apply fmap_sublist, sublist_filter. }
  destruct cs as [|c cs'] eqn:Ecs.
  { injection E2 as <- _. split; [constructor|]. intros x. unfold to_be_told.
    specialize (Hcs x). split; [by intros ?%elem_of_nil|tauto]. }
  rewrite <- Ecs in *. apply bind_Ok_inv in E2 as (en & m2 & E & E2).
  apply store_identity_Ok in E as ((s2 & Er) & _); [|apply ResolveEnabled_inert]. injection E2 as <- _.
  split; [unfold cs; by apply Hf, Hf|]. intros x. rewrite list_elem_of_filter, Hcs. unfold to_be_told.
  assert (x ∈ cs → en !! MemUserID x = Some (prefers (identity_of m) ty (MemUserID x))) as Hen.
  { intros Hx. unfold identity_of at 1. rewrite <- T1. apply (ResolveEnabled_Ok _ _ _ _ _ _ Er).
    apply list_elem_of_fmap. eauto. }
  split.
  - intros [Hp Hx]. rewrite Hen in Hp by (by apply Hcs). destruct Hx. done.
  - intros (Hm & Hr & Hp). split; [|done]. by rewrite Hen by (by apply Hcs).
Qed.

Lemma recipients_quiet t ty : mails [] (recipients app_user t ty).
Proof.
  apply mails_bind; [apply mails_store; eauto with vane|]. intros ms.
  destruct (filter _ ms) as [|c cs]; [apply mails_ret|].
  apply mails_bind; [apply mails_store; eauto with vane|intros; apply mails_ret].
Qed.

Lemma mails_send sender `{!SenderLaws sender} to ty p url : mails [to] (send sender to ty p url).
Proof.
  unfold send. destruct p; [|apply expiring_mails|apply drift_mails].
  destruct (String.eqb ty _); [apply opened_mails|]. destruct (String.eqb ty _); [apply resolved_mails|].
  eapply mails_weaken; [apply mails_fail|]. apply sublist_nil_l.
Qed.
Lemma mails_each {A} (g : A → string) (f : A → MM unit) l :
  (∀ x, mails [g x] (f x)) → mails (g <$> l) (send_each f l).
Proof.
  intros Hf. induction l as [|x l IH]; [apply mails_ret|]. cbn.
  change (g x :: (g <$> l)) with ([g x] ++ (g <$> l)). apply mails_then; [apply mails_attempt, Hf|done].
Qed.

(** Whatever fails, a notification changes nothing and mails at most once, and
    only, who is to be told. *)
Definition tells (t ty : string) (c : MM unit) : Prop :=
  ∀ m, visible (m_db m) t = true → let m' := (c m).2 in
    tables (m_db m') = tables (m_db m) ∧ app_tenant (m_db m') = app_tenant (m_db m) ∧
    bypass_rls (m_db m') = bypass_rls (m_db m) ∧
    ∃ net told, m_net m' = m_net m ++ net ∧ addressed net `sublist_of` (MemEmail <$> told) ∧
      NoDup (MemUserID <$> told) ∧ ∀ x, x ∈ told → to_be_told (identity_of m) t ty x.

Lemma notify_tells sender `{!SenderLaws sender} t ty p url : tells t ty (notify sender app_user t ty p url).
Proof.
  intros m Hv. unfold notify, bind. destruct (recipients_quiet t ty m) as (T & U & V & net & N & Hnet).
  apply sublist_nil_r in Hnet.
  destruct (recipients app_user t ty m) as [[l|e] m1] eqn:E; cbn in *.
  - destruct (recipients_Ok _ _ _ _ _ E Hv) as [Hnd Hl].
    destruct (mails_each MemEmail (λ x, send sender (MemEmail x) ty p url) l
      (λ x, mails_send sender (MemEmail x) ty p url) m1) as (T2 & U2 & V2 & net2 & N2 & Hnet2).
    split_and!; [congruence..|]. exists (net ++ net2), l. rewrite N2, N, addressed_app, Hnet, app_assoc.
    split_and!; [done..|]. intros x. apply Hl.
  - split_and!; [done..|]. exists net, []. rewrite Hnet. split_and!; [done|done|constructor|by intros x ?%elem_of_nil].
Qed.
Lemma tells_then {A} t ty (c : MM A) k : mails [] c → (∀ a, tells t ty (k a)) → tells t ty (bind c k).
Proof.
  intros Hc Hk m Hv. unfold bind. destruct (Hc m) as (T & U & V & net & N & Hnet).
  apply sublist_nil_r in Hnet. destruct (c m) as [[a|e] m1]; cbn in *.
  - destruct (Hk a m1) as (T2 & U2 & V2 & net2 & told & N2 & Hnet2 & Hnd & Htold).
    { unfold visible. by rewrite U, V. }
    split_and!; [congruence..|]. exists (net ++ net2), told. rewrite N2, N, addressed_app, Hnet, app_assoc.
    split_and!; [done..|]. unfold identity_of. rewrite <- T. done.
  - split_and!; [done..|]. exists net, []. rewrite Hnet. split_and!; [done|done|constructor|by intros x ?%elem_of_nil].
Qed.

Lemma mails_best_effort {A B} (q : MM A) (f : A → B) b : mails [] q → mails [] (best_effort q f b).
Proof. intros Hq. apply mails_bind; [by apply mails_attempt|intros; apply mails_ret]. Qed.
Lemma enrich_quiet t ty x : mails [] (enrichIncident t ty x).
Proof.
  apply mails_bind; [apply mails_best_effort, mails_store; eauto with vane|]. intros p.
  destruct (String.eqb _ ""); [apply mails_ret|].
  apply mails_bind. { destruct (String.eqb _ ""); [|apply mails_ret].
    apply mails_best_effort, mails_store, core_inert, inert_query. }
  intros i. apply mails_bind; [|intros; apply mails_ret].
  destruct (String.eqb ty _); [|apply mails_ret]. apply mails_best_effort, mails_store; eauto with vane.
Qed.
Lemma notifyIncident_tells sender `{!SenderLaws sender} t ty x : tells t ty (notifyIncident sender app_user t ty x).
Proof. apply tells_then; [apply enrich_quiet|]. intros p. by apply notify_tells. Qed.
End told.

(** ** When nothing fails

    In saas mode, with templates that render and a server that answers, each who
    is to be told is mailed once; what the notification service answers does not
    matter to the others. *)

Definition templates_render `{!Zones, !MailLibrary} : Prop :=
  (∀ d, is_Some (renderIncidentOpened d)) ∧ (∀ d, is_Some (renderIncidentResolved d)) ∧
  (∀ d, is_Some (renderWeeklyDigest d)) ∧ (∀ d, is_Some (renderDomainExpiring d)) ∧
  (∀ d, is_Some (renderDomainNSDrift d)).

(** One mail to an address, the database not asked. *)
Definition sends_one (to : string) (c : MM unit) : Prop :=
  ∀ m, m_db (c m).2 = m_db m ∧ ∃ x, m_net (c m).2 = m_net m ++ [x] ∧ addressed [x] = [to].

(** A call that leaves a sound connection sound and succeeds. *)
Definition calm `{!Driver} {A} (c : MM A) : Prop :=
  ∀ m, aborted (m_db m) = false → aborted (m_db (c m).2) = false ∧ is_ok (c m).1 = true.
Definition calm_store {D A} (q : M (session D) db_err A) : Prop :=
  ∀ s, aborted s = false → aborted (q s).2 = false.

Section exactly.
Context `{!Driver, !Machine, !Http, !Zones, !MailLibrary, !Config, !MailConfig}.
Context (answers : ∀ n, event_fails n = false) (renders : templates_render).
Context (saas_mode : cfg_deploymentMode = DeploymentModeSaaS).

Lemma platform_sends_one to subject cat prio ty b : is_Some b → sends_one to (send_platform to subject cat prio ty b).
Proof. intros [x ->] m. cbn. split; [done|]. by eexists. Qed.
Lemma send_one to ty p url :
  ty = NotificationTypeIncidentOpened ∨ ty = NotificationTypeIncidentResolved ∨
    (∀ i, p ≠ IncidentPayload i) → sends_one to (send newEmailSender to ty p url).
Proof.
  intros Hp. destruct renders as (R1 & R2 & _ & R4 & R5). unfold newEmailSender. rewrite saas_mode. cbn [String.eqb].
  rewrite String.eqb_refl. unfold send. destruct p; [|apply platform_sends_one, R4|apply platform_sends_one, R5].
  destruct Hp as [-> |[-> |Hp]]; [apply platform_sends_one, R1|apply platform_sends_one, R2|by edestruct Hp].
Qed.
Lemma each_sends_one {A} (g : A → string) (f : A → MM unit) l :
  (∀ x, sends_one (g x) (f x)) → ∀ m, (send_each f l m).1 = Ok tt ∧ ∃ net,
    m_net (send_each f l m).2 = m_net m ++ net ∧ addressed net = g <$> l.
Proof.
  intros Hf. induction l as [|x l IH]; intros m.
  { cbn. split; [done|]. exists []. by rewrite app_nil_r. }
  cbn. unfold bind at 1, attempt. destruct (Hf x m) as (_ & y & N & Hy). unfold bind at 1, attempt.
  destruct (f x m) as [r m1]. cbn [fst snd] in *. destruct (IH m1) as (Hok & net & N2 & Hnet). split; [done|].
  exists (y :: net). rewrite N2, N, <- app_assoc. split; [done|].
  change (y :: net) with ([y] ++ net). by rewrite addressed_app, Hy, Hnet.
Qed.

Lemma store_calm {A} (q : M (session database) db_err A) m :
  calm_store q → aborted (m_db m) = false → aborted (m_db (store q m).2) = false.
Proof. intros Hq Ha. unfold store. specialize (Hq (m_db m) Ha). by destruct (q (m_db m)). Qed.
Lemma focus_calm {D E A} (proj : D → E) inj (q : M (session E) db_err A) : calm_store q → calm_store (focus proj inj q).
Proof. intros Hq s Ha. unfold focus. specialize (Hq (retable (proj (tables s)) s) Ha). by destruct (q _). Qed.
Lemma query_calm {D A} (f : session D → A) : calm_store (query f).
Proof. intros s Ha. by rewrite query_runs. Qed.
Lemma bind_calm {D A B} (q : M (session D) db_err A) (k : A → M (session D) db_err B) :
  calm_store q → (∀ a, calm_store (k a)) → calm_store (bind q k).
Proof. intros Hq Hk s Ha. unfold bind. specialize (Hq s Ha). destruct (q s) as [[a|e] s1]; [by apply Hk|done]. Qed.
Lemma ret_calm {D A} (a : A) : calm_store (ret a : M (session D) db_err A).
Proof. by intros s Ha. Qed.
Lemma fail_calm {D A} e : calm_store (fail e : M (session D) db_err A).
Proof. by intros s Ha. Qed.
Lemma timeline_calm id : calm_store (ListUpdatesPaginated id 1 resolutionLookback).
Proof.
  apply bind_calm. { apply bind_calm; [apply query_calm|intros []; [apply ret_calm|apply fail_calm]]. }
  intros _. apply bind_calm.
  - intros s Ha. by erewrite stmt_runs by done.
  - intros [[|x l] n]; [|apply ret_calm]. apply bind_calm; [apply query_calm|intros; apply ret_calm].
Qed.
Lemma GetTenant_calm id : calm_store (GetTenant id).
Proof. apply bind_calm; [apply query_calm|]. intros []; [apply ret_calm|apply fail_calm]. Qed.

Lemma best_effort_calm {A B} (q : M (session database) db_err A) (f : A → B) b :
  calm_store q → calm (best_effort (store q) f b).
Proof.
  intros Hq m Ha. unfold best_effort, bind, attempt. pose proof (store_calm q m Hq Ha) as Hs.
  by destruct (store q m).
Qed.
Lemma calm_bind {A B} (c : MM A) (k : A → MM B) : calm c → (∀ a, calm (k a)) → calm (bind c k).
Proof.
  intros Hc Hk m Ha. unfold bind. destruct (Hc m Ha) as [H1' H2']. destruct (c m) as [[a|e] m1]; [by apply Hk|done].
Qed.
Lemma calm_ret {A} (a : A) : calm (ret a).
Proof. by intros m Ha. Qed.
Lemma enrich_calm t ty x : calm (enrichIncident t ty x).
Proof.
  apply calm_bind; [apply best_effort_calm, focus_calm, GetTenant_calm|]. intros p.
  destruct (String.eqb _ ""); [apply calm_ret|].
  apply calm_bind. { destruct (String.eqb _ ""); [|apply calm_ret]. apply best_effort_calm, focus_calm, query_calm. }
  intros i. apply calm_bind; [|intros; apply calm_ret].
  destruct (String.eqb ty _); [|apply calm_ret]. apply best_effort_calm, focus_calm, timeline_calm.
Qed.

Lemma store_identity_query {A} (f : session identity → A) m :
  aborted (m_db m) = false →
  store (on_identity (query f)) m = (Ok (f (retable (identity_of m) (m_db m))), set_m_db (bump (m_db m)) m).
Proof.
  intros Ha. unfold store, on_identity, focus. rewrite query_runs by done. cbn. unfold retable, bump, identity_of. cbn.
  by destruct (tables (m_db m)) as [[] ? ? ?].
Qed.
Lemma recipients_run u t ty m :
  aborted (m_db m) = false → ∃ l m', recipients u t ty m = (Ok l, m') ∧ aborted (m_db m') = false.
Proof.
  intros Ha. unfold recipients, bind at 1, ListMembersWithEmail. rewrite store_identity_query by done.
  cbv zeta. destruct (filter (λ m, may_be_told m = true) _) as [|c cs]; [by repeat eexists|].
  unfold bind at 1, ResolveEnabledForUsers. cbn [fmap list_fmap].
  unfold store, on_identity, focus. rewrite query_then by done. by repeat eexists.
Qed.
End exactly.

(** C23: everyone who is to be told of an incident is mailed, once, and nobody else,
    when the deployment is hosted and its server answers.
    In saas mode (self-hosted, a tenant without an active provider mails nobody), on
    a sound connection of the tenant to a server that answers, and with templates
    that render, the addresses mailed by NotifyIncidentOpened or
    NotifyIncidentResolved are exactly those of the owners and operators of the
    tenant who have the type on, a missing preference read as its default; what the
    notification service answers to one mail stops none of the others, and the call
    succeeds. *)
Theorem told_exactly_once `{!Driver, !Machine, !Http, !Zones, !MailLibrary, !Config, !MailConfig}
    (resolved : bool) (app_user t : string) (summary : IncidentSummary) (m : mstate) :
  (∀ n, event_fails n = false) → templates_render → cfg_deploymentMode = DeploymentModeSaaS →
  app_tenant (m_db m) = t → t ≠ "" → aborted (m_db m) = false →
  let ty := if resolved then NotificationTypeIncidentResolved else NotificationTypeIncidentOpened in
  let call := if resolved then NotifyIncidentResolved newEmailSender app_user t summary
              else NotifyIncidentOpened newEmailSender app_user t summary in
  ∃ m' net told, call m = (Ok tt, m') ∧ m_net m' = m_net m ++ net ∧
    addressed net = MemEmail <$> told ∧ NoDup (MemUserID <$> told) ∧
    (∀ x, x ∈ told ↔ to_be_told (identity_of m) t ty x) ∧ tables (m_db m') = tables (m_db m).
Proof.
  intros Hans Hr Hsaas Ht Hne Ha ty call.
  assert (call = notifyIncident newEmailSender app_user t ty summary) as -> by by destruct resolved.
  assert (visible (m_db m) t = true) as Hv.
  { unfold visible. rewrite Ht, String.eqb_refl, (proj2 (String.eqb_neq _ _) Hne). apply orb_true_r. }
  unfold notifyIncident, bind at 1. destruct (enrich_quiet t ty summary m) as (T & U & V & n0 & N & Hn0).
  destruct (enrich_calm Hans t ty summary m Ha) as [Ha1 Hok].
  destruct (enrichIncident t ty summary m) as [[p|e] m1]; [|done]. cbn [fst snd] in *.
  unfold notify, bind at 1. destruct (recipients_run Hans app_user t ty m1 Ha1) as (l & m2 & E & _).
  destruct (recipients_quiet app_user t ty m1) as (T2 & _ & _ & n1 & N1 & Hn1).
  assert (visible (m_db m1) t = true) as Hv1 by (unfold visible; by rewrite U, V).
  destruct (recipients_Ok app_user t ty m1 l m2 E Hv1) as [Hnd Hl]. rewrite E in *. cbn [fst snd] in *.
  destruct (each_sends_one MemEmail (λ x, send newEmailSender (MemEmail x) ty (IncidentPayload p)
    (dashboardURL (SumIncidentID summary))) l) with (m := m2) as (Hr1 & net & N2 & Hnet).
  { intros x. apply send_one; [done|done|]. destruct resolved; auto. }
  destruct (mails_each MemEmail (λ x, send newEmailSender (MemEmail x) ty (IncidentPayload p)
    (dashboardURL (SumIncidentID summary))) l) with (m := m2) as (T3 & _).
  { intros x. apply mails_send. apply _. }
  apply sublist_nil_r in Hn0, Hn1. destruct (send_each _ l m2) as [r m3]. cbn [fst snd] in *. subst r.
  exists m3, (n0 ++ n1 ++ net), l. split_and!; [done| | |done| |congruence].
  - by rewrite N2, N1, N, !app_assoc.
  - by rewrite !addressed_app, Hn0, Hn1, Hnet.
  - unfold identity_of in *. by rewrite <- T.
Qed.

(** ** Examples and witnesses *)

Definition demo_user (id email : string) : User :=
  {| UserID := id; Email := email; PasswordHash := ""; UserName := id; Phone := None;
     SessionsRevokedAt := None; EmailVerifiedAt := Some 0; UserCreatedAt := 0 |}.
Definition demo_member (role : string) (n : Z) : membership_row := {| MbRole := role; MbCreatedAt := n |}.

(** A tenant with an owner, an operator who turned incident_opened off, and a
    viewer; a second tenant with an owner of its own. *)
Definition demo_identity : identity :=
  set_users (λ _, {["u1" := demo_user "u1" "owner@a.example"; "u2" := demo_user "u2" "op@a.example";
                    "u3" := demo_user "u3" "viewer@a.example"; "u4" := demo_user "u4" "owner@b.example"]})
 (set_tenants (λ _, {["t1" := new_tenant "t1" "Acme" "a@a.example" 0; "t2" := new_tenant "t2" "Bolt" "b@b.example" 0]})
 (set_memberships (λ _, {[("u1", "t1") := demo_member "owner" 1; ("u2", "t1") := demo_member "operator" 2;
                          ("u3", "t1") := demo_member "viewer" 3; ("u4", "t2") := demo_member "owner" 1]})
 (set_notification_preferences (λ _, {[("u2", NotificationTypeIncidentOpened) := false;
                                       ("u1", NotificationTypeWeeklyDigest) := true]}) empty_identity))).
Definition demo_db : database :=
  {| db_identity := demo_identity; db_core := empty_core; db_intervals := ∅; db_providers := empty_providers |}.
Definition demo_incident : IncidentSummary :=
  {| SumIncidentID := ""; SumTitle := "Down"; SumSeverity := "critical"; SumServiceName := "api";
     SumStatus := "investigating"; SumOpenedAt := 0; SumResolvedAt := None; SumDescription := "" |}.

Lemma demo_templates_render : @templates_render demo_zones demo_library.
Proof. split_and!; intros; by eexists. Qed.

Definition demo_sender : @Sender demo_zones :=
  @newEmailSender numbered demo_machine demo_http demo_zones demo_library saas demo_mail_config.

Lemma told_exactly_once_witness :
  ∃ m' net, @NotifyIncidentOpened numbered demo_zones saas demo_sender "" "t1" demo_incident
      (mail_state "t1" false demo_db) = (Ok tt, m') ∧
    m_net m' = [] ++ net ∧ addressed net = ["owner@a.example"].
Proof.
  destruct (@told_exactly_once numbered demo_machine demo_http demo_zones demo_library saas demo_mail_config
    false "" "t1" demo_incident (mail_state "t1" false demo_db) (λ _, eq_refl) demo_templates_render eq_refl eq_refl
    ltac:(discriminate) eq_refl) as (m' & net & told & E & N & _).
  exists m', net. split; [exact E|]. split; [exact N|].
  cbn [app] in N. vm_compute in E. injection E as <-. cbn in N. subst net. reflexivity.
Defined.
