(* ===== verification/Digest.v ===== *)
(** * The weekly digest (internal/notify/digest.go, cli/digest_scheduler.go)

    What the digest says, when a tenant's is due, and the pass that marks the week
    and mails it.  A cycle runs on a pool connection; each tenant's pass opens a
    tenant transaction of its own, and mails after its commit. *)

From stdpp Require Import numbers strings gmap list sorting.
From Stdlib Require Import ZArith Lia Floats.
From S2P Require Import Prelude GoNum GoFloat GoTime Db Schema Services Intervals World Incidents History Identity Secrets Accounts TwoFactor Tenants Api Inert AuthApi AccountApi MailData Connectors Mail Notify.

#[local] Open Scope Z_scope.
#[local] Open Scope go_scope.

(** ** sort.SliceStable *)

Section stable.
Context {A : Type} (less : A → A → bool).
Fixpoint insert_stable (x : A) (l : list A) : list A :=
  match l with
  | [] => [x]
  | y :: l' => if less y x then y :: insert_stable x l' else x :: l
  end.
Definition SliceStable (l : list A) : list A := foldr insert_stable [] l.
End stable.

(** ** BuildWeeklyDigestData *)

Record DigestServiceUptime := {
  DsuName : string;
  DsuUptimePercent : float;
}.
(** db.DigestIncident: an incident and the names of its services. *)
Definition DigestIncident : Type := Incident * list string.

Record WeeklyDigestInput := {
  InTenant : Tenant;
  InServices : list DigestServiceUptime;
  InIncidents : list DigestIncident;
  InIncidentsOpened : Z;
  InIncidentsResolved : Z;
  InPeriodStart : Z;
  InPeriodEnd : Z;
}.

(** The mean, 100 of nothing. *)
Definition mean_uptime (l : list DigestServiceUptime) : float :=
  match l with
  | [] => 100
  | _ => (foldl (λ sum s, sum + DsuUptimePercent s) 0 l / float_of_int64 (Z.of_nat (length l)))%float
  end.

Definition service_rows (l : list DigestServiceUptime) : list DigestServiceRow :=
  let rows := (λ s, {| DsrName := DsuName s; DsrUptimePercent := DsuUptimePercent s |}) <$> l in
  let rows :=
    if bool_decide (DigestServicesCap < length rows)%nat
    then take DigestServicesCap (SliceStable (λ x y, flt (DsrUptimePercent x) (DsrUptimePercent y)) rows)
    else rows in
  SliceStable (λ x y, String.ltb (DsrName x) (DsrName y)) rows.

Definition resolved_in_period (periodEnd : Z) (x : Incident) : bool :=
  match ResolvedAt x with None => false | Some t => time_before t periodEnd end.
Definition incident_duration (periodEnd : Z) (x : Incident) : Z :=
  let end_ := match ResolvedAt x with
              | Some t => if time_before t periodEnd then t else periodEnd
              | None => periodEnd
              end in
  let duration := time_sub end_ (CreatedAt x) in
  if duration <? 0 then 0 else duration.
Definition digest_row (periodEnd : Z) (x : DigestIncident) : DigestIncidentRow :=
  {| DirTitle := Title x.1; DirServiceName := join ", " x.2; DirStatus := IncStatus x.1;
     OngoingAtPeriodEnd := negb (is_none (ResolvedAt x.1)) && negb (resolved_in_period periodEnd x.1);
     DirDuration := incident_duration periodEnd x.1 |}.

(** Total and count of the incidents resolved inside the window. *)
Definition resolution_step (from to : Z) (acc : Z * Z) (x : DigestIncident) : Z * Z :=
  match ResolvedAt x.1 with
  | Some t => if time_before t to && negb (time_before t from)
              then (go_add acc.1 (incident_duration to x.1), acc.2 + 1) else acc
  | None => acc
  end.
Definition mean_resolution (from to : Z) (l : list DigestIncident) : Z :=
  let '(total, count) := foldl (resolution_step from to) (0, 0) l in
  if 0 <? count then go_div total count else 0.

(** *** capDigestIncidents *)

Definition openAtEnd (periodEnd : Z) (x : DigestIncident) : bool :=
  match ResolvedAt x.1 with None => true | Some t => negb (time_before t periodEnd) end.
(** The comparison of two positions: those still open first, then the longest. *)
Definition shown_before (rows : list DigestIncidentRow) (source : list DigestIncident) (periodEnd : Z)
    (a b : nat) : bool :=
  let open i := match source !! i with Some x => openAtEnd periodEnd x | None => false end in
  let duration i := match rows !! i with Some r => DirDuration r | None => 0 end in
  if Bool.eqb (open a) (open b) then duration b <? duration a else open a.
Definition capDigestIncidents (rows : list DigestIncidentRow) (source : list DigestIncident) (periodEnd : Z) :
    list DigestIncidentRow :=
  if bool_decide (length rows ≤ DigestIncidentsCap)%nat then rows
  else
    let order := SliceStable (shown_before rows source periodEnd) (seq 0 (length rows)) in
    let keep := SliceStable Nat.ltb (take DigestIncidentsCap order) in
    omap (rows !!.) keep.

Section build.
Context `{!Zones}.

Definition BuildWeeklyDigestData (i : WeeklyDigestInput) : WeeklyDigestEmailData :=
  let incidents := digest_row (InPeriodEnd i) <$> InIncidents i in
  {| WdLayout := no_layout;
     WdTenantName := TenName (InTenant i);
     WdUptimePercent := mean_uptime (InServices i);
     WdIncidentsOpened := InIncidentsOpened i;
     WdIncidentsResolved := InIncidentsResolved i;
     WdPeriodStart := InPeriodStart i;
     WdPeriodEnd := InPeriodEnd i;
     WdLocation := Some (TenantLocation (TenTimezone (InTenant i)));
     WdServices := service_rows (InServices i);
     WdTotalServices := Z.of_nat (length (InServices i));
     WdIncidents := capDigestIncidents incidents (InIncidents i) (InPeriodEnd i);
     WdTotalIncidents := Z.of_nat (length incidents);
     WdMTTR := mean_resolution (InPeriodStart i) (InPeriodEnd i) (InIncidents i);
     WdDashboardURL := "";
     WdIncidentsURL := "" |}.

(** ** When *)

Definition digestFireHour : Z := 9.
Definition digestTickInterval : Z := hour.
Definition digestTickOffset : Z := minute.
Definition digestCatchUpWindow : Z := 24 * hour.
Definition digestMinInterval : Z := 6 * 24 * hour.

Definition nextDigestTick (now : Z) : Z :=
  let next := time_add (Truncate now digestTickInterval) digestTickOffset in
  if negb (time_after next now) then time_add next digestTickInterval else next.

Definition weeklyDigestFire (now : Z) (loc : Location) : Z :=
  let daysSinceMonday := go_mod (Weekday now loc - Monday + 7) 7 in
  let fire := Date (Year now loc) (Month now loc) (Day now loc - daysSinceMonday) digestFireHour 0 0 0 loc in
  if time_after fire now
  then Date (Year now loc) (Month now loc) (Day now loc - daysSinceMonday - 7) digestFireHour 0 0 0 loc
  else fire.

(** The fire, and whether the tenant's digest is due at [now]. *)
Definition digestDue (tenant : Tenant) (now : Z) : Z * bool :=
  let fire := weeklyDigestFire now (TenantLocation (TenTimezone tenant)) in
  if digestCatchUpWindow <=? time_sub now fire then (fire, false)
  else match TenLastDigestSentAt tenant with
       | Some marker => if time_sub now marker <? digestMinInterval then (fire, false)
                        else (fire, time_before marker fire)
       | None => (fire, time_before (TenCreatedAt tenant) fire)
       end.

Definition digestPeriod (fire : Z) (loc : Location) : Z * Z :=
  let to := Date (Year fire loc) (Month fire loc) (Day fire loc) 0 0 0 0 loc in
  (AddDate to 0 0 (-7) loc, to).
End build.

(** ** The scheduler *)

(** What TryAcquire answers. *)
Inductive lock_answer := LockFailed | LockHeld | LockTaken.

Section scheduler.
Context `{!Driver, !Machine, !Http, !Zones, !MailLibrary, !Config, !MailConfig}.
Context (sender : Sender).

Definition service_uptimes (services : list Service) (intervals : list StatusInterval) (from to : Z) :
    list DigestServiceUptime :=
  omap (λ svc, (λ p, {| DsuName := SvcName svc; DsuUptimePercent := p |}) <$>
          UptimePercent (filter (λ x, ServiceID x = SvcID svc) intervals) from to) services.

Definition buildDigest (tenant : Tenant) (from to : Z) : MM WeeklyDigestEmailData :=
  services <- store (on_db_core Services.List) ;;
  uptimes <- match services with
             | [] => ret []
             | _ => intervals <- store (on_intervals (ListOverlapping (SvcID <$> services) from to)) ;;
                    ret (service_uptimes services intervals from to)
             end ;;
  counts <- store (on_db_core (CountOpenedResolvedBetween from to)) ;;
  incidents <- store (on_db_core (ListActiveBetween from to)) ;;
  ret (BuildWeeklyDigestData
    {| InTenant := tenant; InServices := uptimes; InIncidents := incidents; InIncidentsOpened := counts.1;
       InIncidentsResolved := counts.2; InPeriodStart := from; InPeriodEnd := to |}).

(** The part inside the tenant's transaction: who is mailed, and what.  The
    notify service runs on it without a user. *)
Definition digest_pass (tenant : Tenant) (from to sentAt : Z) :
    MM (option (list TenantMember * WeeklyDigestEmailData)) :=
  told <- WeeklyDigestRecipients "" (TenID tenant) ;;
  match told with
  | [] => store (on_identity (MarkDigestSent (TenID tenant) sentAt)) ;;; ret None
  | _ => data <- buildDigest tenant from to ;;
         store (on_identity (MarkDigestSent (TenID tenant) sentAt)) ;;;
         ret (Some (told, data))
  end.

(** Mails go out after the commit, with the cycle's own context: the pool. *)
Definition runTenant (tenant : Tenant) (from to sentAt : Z) : MM unit := λ m,
  match BeginTenantTx "" (TenID tenant) (m_db m) with
  | (Err e, s) => (Err (ErrStore e), set_m_db s m)
  | (Ok tx, s) =>
      match digest_pass tenant from to sentAt (set_m_db tx m) with
      | (Err e, m) => (Err e, set_m_db (tx_rollback (m_db m) s) m)
      | (Ok mailing, m) =>
          match tx_commit (m_db m) s with
          | (Err e, s) => (Err (ErrStore e), set_m_db s m)
          | (Ok _, s) =>
              match mailing with
              | None => ret tt
              | Some (told, data) => send_each (λ x, notify_SendWeeklyDigest sender (MemEmail x) data) told
              end (set_m_db s m)
          end
      end
  end.

(** One tenant's failure is logged. *)
Fixpoint run_tenants (now : Z) (l : list Tenant) : MM unit :=
  match l with
  | [] => ret tt
  | tenant :: l =>
      let '(fire, due) := digestDue tenant now in
      (if due
       then let '(from, to) := digestPeriod fire (TenantLocation (TenTimezone tenant)) in
            discard (attempt (runTenant tenant from to now))
       else ret tt) ;;;
      run_tenants now l
  end.

Definition runOnce (now : Z) : MM unit :=
  tenants <- store (on_identity ListAllTenants) ;;
  run_tenants now tenants.

(** One tick: the cycle runs where the lock was taken, its error is logged. *)
Definition runCycle (lock : lock_answer) (now : Z) : MM unit :=
  match lock with
  | LockTaken => discard (attempt (runOnce now))
  | LockFailed | LockHeld => ret tt
  end.
End scheduler.
