(* ===== verification/DigestTime.v ===== *)
(** * When a digest is due

    The tick, the fire instant across a change of the clocks, and what digestDue
    decides. *)

From stdpp Require Import numbers strings list.
From Stdlib Require Import ZArith Lia.
From S2P Require Import Prelude GoNum GoTime Db Identity Tenants MailData Digest.

#[local] Open Scope Z_scope.

(** ** The tick *)

(** the next tick is the first one minute past an hour after now.  It lies
    within the hour, so no tick is skipped and none is repeated. *)
Theorem nextDigestTick_spec (now : Z) :
  let t := nextDigestTick now in
  now < t ≤ now + hour ∧ t mod hour = minute ∧
  ∀ t', now < t' → t' mod hour = minute → t ≤ t'.
Proof.
  unfold nextDigestTick, digestTickInterval, digestTickOffset, time_add, time_after, Truncate.
  rewrite (proj2 (Z.leb_gt hour 0)) by (unfold hour, minute, second, millisecond, nanosecond; lia).
  assert ((now + 62135596800 * second) mod hour = now mod hour) as ->.
  { change (62135596800 * second) with (17259888 * hour). by rewrite Z.mod_add by done. }
  change minute with 60000000000. change hour with 3600000000000.
  set (h := 3600000000000). set (q := now / h).
  assert (now - now mod h = h * q) as -> by (unfold q; pose proof (Z.div_mod now h); lia).
  assert (h * q ≤ now < h * q + h) as Hq by (unfold q, h; Z.to_euclidean_division_equations; lia).
  assert (∀ k, (h * k + 60000000000) mod h = 60000000000) as Hm.
  { intros k. rewrite Z.add_comm, Z.mul_comm, Z.mod_add by done. done. }
  assert (∀ t', t' mod h = 60000000000 → ∃ k, t' = h * k + 60000000000) as Hk.
  { intros t' E. exists (t' / h). rewrite <- E. apply Z.div_mod. done. }
  destruct (Z.ltb_spec now (h * q + 60000000000)); cbn [negb].
  - split_and!; [lia|unfold h; lia|apply Hm|]. intros t' Ht (k & ->)%Hk.
    assert (q ≤ k) by (unfold h in *; nia). unfold h. nia.
  - replace (h * q + 60000000000 + h) with (h * (q + 1) + 60000000000) by lia.
    split_and!; [unfold h in *; lia|unfold h in *; lia|apply Hm|]. intros t' Ht (k & ->)%Hk.
    assert (q + 1 ≤ k) by (unfold h in *; nia). unfold h. nia.
Qed.

(** ** The fire *)

Section fire.
Context `{!Zones}.

(** Day number of the Monday of a day's week. *)
Definition monday_of (days : Z) : Z := days - (days + 3) mod 7.
Definition nine_oclock : Z := 32400.
(** The instant time.Date gives for 09:00 of a day. *)
Definition at_nine (l : Location) (day : Z) : Z := resolve (day * seconds_per_day + nine_oclock) l * second.

Lemma Date_at_hour z k h l :
  0 ≤ h < 24 →
  Date (civil_of_days z).1.1 (civil_of_days z).1.2 ((civil_of_days z).2 + k) h 0 0 0 l =
  resolve ((z + k) * seconds_per_day + h * 3600) l * second.
Proof.
  intros Hh. rewrite <- (Date_of_days z k (h * 3600)) by (unfold seconds_per_day; lia).
  unfold Date. cbv zeta. replace (0 / second) with 0 by done. rewrite !Z.add_0_l, !Z.add_0_r.
  replace (h * 3600 / 60) with (h * 60) by (Z.to_euclidean_division_equations; lia).
  replace ((h * 3600) mod 60) with 0 by (Z.to_euclidean_division_equations; lia).
  replace (h * 60 / 60) with h by (Z.to_euclidean_division_equations; lia).
  replace ((h * 60) mod 60) with 0 by (Z.to_euclidean_division_equations; lia).
  replace (0 / 60 / 60) with 0 by done. replace (0 / 60) with 0 by done. replace (0 mod 60) with 0 by done.
  by rewrite ?Z.add_0_r.
Qed.

Lemma fire_eq now l :
  weeklyDigestFire now l =
  let D := monday_of (local_days now l) in
  if now <? at_nine l D then at_nine l (D - 7) else at_nine l D.
Proof.
  unfold weeklyDigestFire, time_after, Year, Month, Day, Weekday, Monday, digestFireHour, at_nine, nine_oclock.
  set (z := local_days now l). cbv zeta.
  assert (go_mod ((z + 4) mod 7 - 1 + 7) 7 = (z + 3) mod 7) as ->.
  { unfold go_mod. rewrite Z.rem_mod_nonneg by (Z.to_euclidean_division_equations; lia).
    Z.to_euclidean_division_equations; lia. }
  replace ((civil_of_days z).2 - (z + 3) mod 7 - 7) with ((civil_of_days z).2 + (- ((z + 3) mod 7) - 7)) by lia.
  replace ((civil_of_days z).2 - (z + 3) mod 7) with ((civil_of_days z).2 + - ((z + 3) mod 7)) by lia.
  rewrite !Date_at_hour by lia. unfold monday_of.
  replace (z + (- ((z + 3) mod 7) - 7)) with (z - (z + 3) mod 7 - 7) by lia. done.
Qed.

(** A zone whose clock changes at most once in the stretch, by less than nine
    hours, and never across 09:00. *)
Record steady_nine (l : Location) (lo hi T a b : Z) : Prop := {
  sn_change : one_change l lo hi T a b;
  sn_shift : Z.abs (a - b) < nine_oclock;
  sn_nine day : let s := day * seconds_per_day + nine_oclock in s < T + Z.min a b ∨ T + Z.max a b ≤ s;
}.

Context `{!ZonesLaws _} (l : Location) (lo hi T a b : Z) (steady : steady_nine l lo hi T a b).

Definition nine_instant (day : Z) : Z :=
  let s := day * seconds_per_day + nine_oclock in if s - a <? T then s - a else s - b.

Lemma offset_inside x : lo ≤ x < hi → zone_offset l x = if x <? T then a else b.
Proof.
  intros Hx. destruct (sn_change _ _ _ _ _ _ steady) as [Hb Hf _ _].
  destruct (Z.ltb_spec x T); [apply Hb|apply Hf]; lia.
Qed.
Lemma offsets_small : - seconds_per_day < a < seconds_per_day ∧ - seconds_per_day < b < seconds_per_day.
Proof. destruct (sn_change _ _ _ _ _ _ steady). done. Qed.

(** What shows 09:00 of a day is that instant. *)
Lemma shows_nine x day :
  lo ≤ x < hi → x + zone_offset l x = day * seconds_per_day + nine_oclock ↔ x = nine_instant day.
Proof.
  intros Hx. rewrite offset_inside by done. unfold nine_instant.
  pose proof (sn_nine _ _ _ _ _ _ steady day) as Hn. cbv zeta in Hn.
  set (s := day * seconds_per_day + nine_oclock) in *. cbv zeta.
  destruct (Z.ltb_spec x T), (Z.ltb_spec (s - a) T); lia.
Qed.
Lemma at_nine_eq day :
  lo + 3 * seconds_per_day ≤ day * seconds_per_day + nine_oclock < hi - 3 * seconds_per_day →
  at_nine l day = nine_instant day * second.
Proof.
  intros Hd. unfold at_nine. f_equal. destruct offsets_small as [Ha Hb]. unfold seconds_per_day in *.
  assert (lo ≤ nine_instant day < hi) as Hin.
  { unfold nine_instant, seconds_per_day. cbv zeta. destruct (_ <? T); lia. }
  destruct (resolve_shows l lo hi T a b (day * 86400 + nine_oclock) (nine_instant day)) as [Hv Hvb];
    [apply steady|unfold seconds_per_day; lia|done|by apply shows_nine|].
  apply shows_nine in Hv; [done|]. unfold seconds_per_day in *. lia.
Qed.

(** A local Monday 09:00:00. *)
Definition is_monday_nine (t : Z) : Prop :=
  Weekday t l = Monday ∧ local_clock t l = nine_oclock ∧ nsec_of t = 0.

Lemma monday_of_spec days : monday_of days mod 7 = 4 ∧ monday_of days ≤ days < monday_of days + 7.
Proof. unfold monday_of. split; Z.to_euclidean_division_equations; lia. Qed.
End fire.

Section last_monday.
Context `{!Zones, !ZonesLaws _} (l : Location) (lo hi T a b : Z) (steady : steady_nine l lo hi T a b).

#[local] Abbreviation nine := (nine_instant T a b).

(** From nine o'clock of a day to that of a day weeks later. *)
Lemma nine_instant_gap day k : 1 ≤ k →
  nine day + 7 * k * seconds_per_day - Z.abs (a - b) ≤ nine (day + 7 * k).
Proof.
  intros Hk. unfold nine_instant, nine_oclock, seconds_per_day in *. cbv zeta.
  destruct (Z.ltb_spec (day * 86400 + 32400 - a) T), (Z.ltb_spec ((day + 7 * k) * 86400 + 32400 - a) T); lia.
Qed.
Lemma nine_instant_week day k : 1 ≤ k → nine day < nine (day + 7 * k).
Proof.
  intros Hk. pose proof (sn_shift _ _ _ _ _ _ steady) as Hs. pose proof (nine_instant_gap day k Hk).
  unfold seconds_per_day, nine_oclock in *. lia.
Qed.

(** What a local Monday 09:00 is. *)
Lemma monday_nine_inv x :
  lo ≤ unix x < hi → is_monday_nine l x →
  ∃ day, day mod 7 = 4 ∧ unix x = nine day ∧ x = unix x * second ∧ day = local_days x l.
Proof.
  intros Hx (Hw & Hc & Hn). exists (local_days x l).
  unfold Weekday, Monday in Hw. split; [Z.to_euclidean_division_equations; lia|].
  split; [|split; [|done]].
  - apply (shows_nine l lo hi T a b); [done..|]. unfold local_clock, local_days in *.
    fold (local_seconds x l). rewrite <- Hc. rewrite Z.mul_comm. apply Z.div_mod. done.
  - unfold unix, nsec_of in *. rewrite (Z.div_mod x second) at 1 by done. rewrite Hn. lia.
Qed.
Lemma nine_is_monday day :
  lo ≤ nine day < hi → day mod 7 = 4 → is_monday_nine l (nine day * second).
Proof.
  intros Hn Hd.
  assert (nine day + zone_offset l (nine day) = day * seconds_per_day + nine_oclock) as Hshow
    by by apply (shows_nine l lo hi T a b).
  unfold is_monday_nine, Weekday, local_clock, local_days, local_seconds, nsec_of, unix.
  rewrite Z.div_mul by done. rewrite Hshow. unfold seconds_per_day, nine_oclock, Monday.
  split_and!; [Z.to_euclidean_division_equations; lia|Z.to_euclidean_division_equations; lia|].
  by apply Z.mod_mul.
Qed.

(** The local day of an instant bounds it. *)
Lemma local_day_bounds x : lo ≤ unix x < hi →
  local_days x l * seconds_per_day - Z.max a b ≤ unix x ∧
  unix x < (local_days x l + 1) * seconds_per_day - Z.min a b.
Proof.
  intros Hx. unfold local_days, local_seconds. rewrite (offset_inside l lo hi T a b steady) by done.
  unfold seconds_per_day. destruct (_ <? T); Z.to_euclidean_division_equations; lia.
Qed.
End last_monday.

(** The last Monday 09:00 up to now. *)
Lemma fire_last_monday `{!Zones, !ZonesLaws _} (l : Location) (lo hi T a b now : Z) :
  steady_nine l lo hi T a b → lo + 21 * seconds_per_day ≤ unix now < hi - 21 * seconds_per_day →
  let fire := weeklyDigestFire now l in
  fire ≤ now ∧ is_monday_nine l fire ∧
  ∀ x, lo ≤ unix x → x ≤ now → is_monday_nine l x → x ≤ fire.
Proof.
  intros Hst Hnow fire. pose proof (offsets_small l lo hi T a b Hst) as [Ha Hb].
  pose proof (sn_shift _ _ _ _ _ _ Hst) as Hab.
  destruct (local_day_bounds l lo hi T a b Hst now) as [B1 B2]; [unfold seconds_per_day in *; lia|].
  set (z := local_days now l) in *. destruct (monday_of_spec z) as [Hm7 Hmz]. set (D := monday_of z) in *.
  assert (∀ day, z - 14 < day ≤ z → at_nine l day = nine_instant T a b day * second ∧
            lo ≤ nine_instant T a b day < hi) as Hat.
  { intros day Hd. split; [apply (at_nine_eq l lo hi); [done|]|unfold nine_instant; cbv zeta; destruct (_ <? T)];
      unfold seconds_per_day, nine_oclock in *; lia. }
  assert (∀ u, u * second ≤ now ↔ u ≤ unix now) as Hle.
  { intros u. unfold unix. pose proof (Z.div_mod now second ltac:(done)). pose proof (Z.mod_pos_bound now second ltac:(done)).
    split; intros; nia. }
  assert (unix now < nine_instant T a b (D + 7)) as Hnext.
  { unfold nine_instant, seconds_per_day, nine_oclock in Hab, B1, B2 |- *. cbv zeta. destruct (_ <? T); lia. }
  assert (nine_instant T a b (D - 7) ≤ unix now) as Hprev.
  { unfold nine_instant, seconds_per_day, nine_oclock in Hab, B1, B2 |- *. cbv zeta. destruct (_ <? T); lia. }
  assert (∃ day, fire = nine_instant T a b day * second ∧ lo ≤ nine_instant T a b day < hi ∧ day mod 7 = 4 ∧
            nine_instant T a b day ≤ unix now ∧ unix now < nine_instant T a b (day + 7)) as (day & Hf & Hin & H7 & Hlo & Hhi).
  { unfold fire. rewrite fire_eq. fold z D. cbv zeta. destruct (Hat D) as [-> ?]; [lia|]. destruct (Hat (D - 7)) as [-> ?]; [lia|].
    destruct (Z.ltb_spec now (nine_instant T a b D * second)) as [Hlt|Hge].
    - exists (D - 7). rewrite Z.sub_add. split_and!; try done; try lia; [Z.to_euclidean_division_equations; lia|].
      apply Z.lt_nge. rewrite <- Hle. lia.
    - exists D. split_and!; try done; try lia. by apply Hle. }
  rewrite Hf. split_and!; [by apply Hle|by eapply nine_is_monday|].
  intros x Hx Hxn Hmx. assert (unix x ≤ unix now) as Hux by (by apply Z.div_le_mono).
  destruct (monday_nine_inv l lo hi T a b Hst x) as (d & Hd7 & Hxd & -> & _); [|done|].
  { unfold seconds_per_day in *. lia. }
  rewrite Hxd in *. apply Z.mul_le_mono_nonneg_r; [done|].
  destruct (Z.lt_trichotomy d day) as [Hlt|[->|Hgt]]; [|done|exfalso].
  - pose proof (nine_instant_week l lo hi T a b Hst d ((day - d) / 7)) as Hw.
    replace (d + 7 * ((day - d) / 7)) with day in Hw by (Z.to_euclidean_division_equations; lia).
    enough (1 ≤ (day - d) / 7) by lia. Z.to_euclidean_division_equations; lia.
  - destruct (decide (d = day + 7)) as [->|Hne]; [lia|].
    pose proof (nine_instant_week l lo hi T a b Hst (day + 7) ((d - (day + 7)) / 7)) as Hw.
    replace (day + 7 + 7 * ((d - (day + 7)) / 7)) with d in Hw by (Z.to_euclidean_division_equations; lia).
    enough (1 ≤ (d - (day + 7)) / 7) by lia. Z.to_euclidean_division_equations; lia.
Qed.

(** the fire is the last Monday 09:00 of the tenant's clock.  In a stretch of
    time where the clock changes at most once, by less than nine hours and not
    across 09:00, the fire computed at [now] is not after [now], shows Monday
    09:00:00 local, and no later instant up to [now] does; a summer-time change
    during the week moves none of it. *)
Theorem weeklyDigestFire_last_monday `{!Zones, !ZonesLaws _} (l : Location) (lo hi T a b now : Z) :
  steady_nine l lo hi T a b → lo + 21 * seconds_per_day ≤ unix now < hi - 21 * seconds_per_day →
  let fire := weeklyDigestFire now l in
  fire ≤ now ∧ is_monday_nine l fire ∧
  ∀ x, lo ≤ unix x → x ≤ now → is_monday_nine l x → x ≤ fire.
Proof. apply fire_last_monday. Qed.

(** ** Due *)

Lemma unix_bounds t : unix t * second ≤ t < unix t * second + second.
Proof.
  unfold unix. pose proof (Z.div_mod t second ltac:(done)). pose proof (Z.mod_pos_bound t second ltac:(done)). lia.
Qed.

Section due.
Context `{!Zones}.

Lemma digestDue_fire tenant now :
  (digestDue tenant now).1 = weeklyDigestFire now (TenantLocation (TenTimezone tenant)).
Proof. unfold digestDue. destruct (_ <=? _); [done|]. destruct (TenLastDigestSentAt tenant); [|done]. by case_match. Qed.

(** Within a day of the fire, not marked since it, and six days after the last. *)
Lemma digestDue_iff tenant now :
  let fire := weeklyDigestFire now (TenantLocation (TenTimezone tenant)) in
  (digestDue tenant now).2 = true ↔
  now - fire < digestCatchUpWindow ∧
  match TenLastDigestSentAt tenant with
  | None => TenCreatedAt tenant < fire
  | Some marker => marker < fire ∧ digestMinInterval ≤ now - marker
  end.
Proof.
  cbv zeta. unfold digestDue, time_before. set (fire := weeklyDigestFire _ _).
  assert (∀ x d, in_int64 d → int64_min < d → time_sub now x < d ↔ now - x < d) as Hsub.
  { intros x d Hd Hd'. unfold time_sub, in_int64, int64_min, int64_max in *. lia. }
  assert (in_int64 digestCatchUpWindow ∧ in_int64 digestMinInterval) as [I1 I2] by done.
  destruct (Z.leb_spec digestCatchUpWindow (time_sub now fire)) as [Hw|Hw].
  - cbn. split; [done|]. intros [Hf _]. apply Hsub in Hf; [lia|done..].
  - apply Hsub in Hw; [|done..]. destruct (TenLastDigestSentAt tenant) as [m|]; cbn.
    + destruct (Z.ltb_spec (time_sub now m) digestMinInterval) as [Hm|Hm]; cbn.
      * apply Hsub in Hm; [|done..]. split; [done|lia].
      * rewrite Z.ltb_lt. split; [|tauto]. intros Hlt. split_and!; [done..|].
        apply Z.nlt_ge. intros Hm'. apply (Hsub m) in Hm'; [lia|done..].
    + rewrite Z.ltb_lt. tauto.
Qed.
End due.

(** C32: in a zone that changes its clocks by at most an hour no week is skipped.
    When a digest was sent within a day of its fire, the next digest is due at
    every moment from one hour after the next fire to a day after it: the six days
    between two digests never outlast the window, across a summer-time change
    too. *)
Theorem no_week_skipped `{!Zones, !ZonesLaws _} (tenant : Tenant) (lo hi T a b sent now : Z) :
  let l := TenantLocation (TenTimezone tenant) in
  steady_nine l lo hi T a b → Z.abs (a - b) ≤ 3600 →
  lo + 21 * seconds_per_day ≤ unix sent → sent ≤ now → unix now < hi - 21 * seconds_per_day →
  TenLastDigestSentAt tenant = Some sent → sent - weeklyDigestFire sent l < digestCatchUpWindow →
  let fire := weeklyDigestFire now l in
  fire ≠ weeklyDigestFire sent l → fire + hour ≤ now < fire + digestCatchUpWindow →
  digestDue tenant now = (fire, true).
Proof.
  intros l Hst Hab Hs Hsn Hn Hlast Hsent fire Hne Hwin.
  assert (unix sent ≤ unix now) as Hu by (by apply Z.div_le_mono).
  destruct (fire_last_monday l lo hi T a b sent Hst) as (F1 & F2 & _); [lia|].
  destruct (fire_last_monday l lo hi T a b now Hst) as (G1 & G2 & G3); [lia|]. fold fire in G1, G2, G3.
  set (f0 := weeklyDigestFire sent l) in *.
  assert (unix f0 ≤ unix sent) as Hf0 by (by apply Z.div_le_mono).
  assert (unix fire ≤ unix now) as Hf1 by (by apply Z.div_le_mono).
  assert (∀ f t, t - f < digestCatchUpWindow → f ≤ t → lo + 21 * seconds_per_day ≤ unix t → unix t < hi - 21 * seconds_per_day →
            lo ≤ unix f < hi) as Hin.
  { intros f t H1 H2 H3 H4. unfold digestCatchUpWindow, seconds_per_day in *.
    change (24 * hour) with (86400 * second) in *. pose proof (unix_bounds f). pose proof (unix_bounds t).
    change second with 1000000000 in *. lia. }
  assert (lo ≤ unix f0 < hi) as I0 by (eapply Hin; [exact Hsent|done|lia|lia]).
  assert (lo ≤ unix fire < hi) as I1 by (apply (Hin _ now); lia).
  assert (f0 < fire) as Hlt by (pose proof (G3 f0 (proj1 I0) ltac:(lia) F2); lia).
  destruct (monday_nine_inv l lo hi T a b Hst f0 I0 F2) as (d0 & D0 & E0 & M0 & _).
  destruct (monday_nine_inv l lo hi T a b Hst fire I1 G2) as (d1 & D1 & E1 & M1 & _).
  assert (unix f0 < unix fire) as Hul by (rewrite M0, M1 in Hlt; unfold second, millisecond, nanosecond in *; lia).
  assert (d0 < d1) as Hd.
  { destruct (Z.lt_trichotomy d0 d1) as [?|[->|Hgt]]; [done|lia|exfalso].
    pose proof (nine_instant_week l lo hi T a b Hst d1 ((d0 - d1) / 7)) as Hw.
    replace (d1 + 7 * ((d0 - d1) / 7)) with d0 in Hw by (Z.to_euclidean_division_equations; lia).
    enough (1 ≤ (d0 - d1) / 7) by lia. Z.to_euclidean_division_equations; lia. }
  assert (f0 + 167 * hour ≤ fire) as Hgap.
  { pose proof (nine_instant_gap T a b d0 ((d1 - d0) / 7)) as Hw.
    replace (d0 + 7 * ((d1 - d0) / 7)) with d1 in Hw by (Z.to_euclidean_division_equations; lia).
    assert (1 ≤ (d1 - d0) / 7) as H1 by (Z.to_euclidean_division_equations; lia).
    specialize (Hw H1). unfold seconds_per_day in Hw. rewrite M0, M1. change hour with (3600 * second).
    unfold second, millisecond, nanosecond. lia. }
  rewrite (surjective_pairing (digestDue tenant now)), digestDue_fire. fold l fire. f_equal.
  apply digestDue_iff. fold l fire. rewrite Hlast. unfold digestCatchUpWindow, digestMinInterval in *.
  change hour with 3600000000000 in *. lia.
Qed.
