(* ===== verification/DigestRows.v ===== *)
(** * What the digest lists

    Stable sorting, and which incidents a capped list keeps. *)

From stdpp Require Import numbers strings list sorting.
From Stdlib Require Import ZArith Lia Floats.
From S2P Require Import Prelude GoNum GoTime Db Schema Incidents Identity Tenants MailData Digest.

#[local] Open Scope Z_scope.

(** ** sort.SliceStable *)

Section stable.
Context {A : Type} (less : A → A → bool).
Context (less_asym : ∀ x y, less x y = true → less y x = false).
Context (not_less_trans : ∀ x y z, less y x = false → less z y = false → less z x = false).

Lemma insert_stable_perm x l : insert_stable less x l ≡ₚ x :: l.
Proof.
  induction l as [|y l IH]; [done|]. cbn. destruct (less y x); [|done].
  rewrite IH. apply Permutation_swap.
Qed.
Lemma SliceStable_perm l : SliceStable less l ≡ₚ l.
Proof. induction l as [|x l IH]; [done|]. cbn. rewrite insert_stable_perm. by constructor. Qed.

(** In order; where the comparison does not tell, in the order of the input. *)
Definition stably (P : A → A → Prop) (x y : A) : Prop := less y x = false ∧ (less x y = false → P x y).

Lemma insert_stable_sorted P x l :
  (∀ y, y ∈ l → P x y) → StronglySorted (stably P) l → StronglySorted (stably P) (insert_stable less x l).
Proof.
  induction l as [|y l IH]; intros Hx Hl; [repeat constructor|]. cbn.
  apply StronglySorted_inv in Hl as [Hl Hy]. rewrite Forall_forall in Hy.
  destruct (less y x) eqn:E.
  - constructor; [apply IH; [intros z Hz; apply Hx; by right|done]|]. apply Forall_forall.
    intros z. rewrite insert_stable_perm, elem_of_cons. intros [->|Hz]; [|by apply Hy].
    split; [by apply less_asym|congruence].
  - constructor; [by constructor; [done|apply Forall_forall]|]. apply Forall_forall.
    intros z Hz. split; [|intros _; by apply Hx]. apply elem_of_cons in Hz as [->|Hz]; [done|].
    eapply not_less_trans; [exact E|]. by apply Hy.
Qed.
Lemma SliceStable_sorted P l : StronglySorted P l → StronglySorted (stably P) (SliceStable less l).
Proof.
  induction 1 as [|x l Hl IH Hx]; [constructor|].
  change (SliceStable less (x :: l)) with (insert_stable less x (SliceStable less l)).
  apply insert_stable_sorted; [|done].
  intros y. rewrite SliceStable_perm. rewrite Forall_forall in Hx. apply Hx.
Qed.
End stable.

(** ** The kept positions *)

Section cap.
Context (rows : list DigestIncidentRow) (source : list DigestIncident) (periodEnd : Z).
#[local] Abbreviation before := (shown_before rows source periodEnd).

Lemma before_asym x y : before x y = true → before y x = false.
Proof.
  unfold shown_before. cbv zeta.
  set (ox := match source !! x with Some x => openAtEnd periodEnd x | None => false end).
  set (oy := match source !! y with Some x => openAtEnd periodEnd x | None => false end).
  destruct ox, oy; cbn; try done; rewrite Z.ltb_lt, Z.ltb_ge; lia.
Qed.
Lemma before_trans x y z : before y x = false → before z y = false → before z x = false.
Proof.
  unfold shown_before. cbv zeta.
  set (ox := match source !! x with Some x => openAtEnd periodEnd x | None => false end).
  set (oy := match source !! y with Some x => openAtEnd periodEnd x | None => false end).
  set (oz := match source !! z with Some x => openAtEnd periodEnd x | None => false end).
  destruct ox, oy, oz; cbn; try done; rewrite !Z.ltb_ge; lia.
Qed.

Definition kept : list nat :=
  SliceStable Nat.ltb (take DigestIncidentsCap (SliceStable before (seq 0 (length rows)))).

Lemma seq_sorted a n : StronglySorted lt (seq a n).
Proof.
  revert a. induction n as [|n IH]; intros a; cbn; [constructor|]. constructor; [apply IH|].
  apply Forall_forall. intros x Hx%elem_of_seq. lia.
Qed.
Lemma order_sorted : StronglySorted (stably before lt) (SliceStable before (seq 0 (length rows))).
Proof. apply SliceStable_sorted; [apply before_asym|intros x y z; apply before_trans|apply seq_sorted]. Qed.

Lemma StronglySorted_split {A} (R : A → A → Prop) l1 l2 x y :
  StronglySorted R (l1 ++ l2) → x ∈ l1 → y ∈ l2 → R x y.
Proof.
  induction l1 as [|z l1 IH]; cbn; intros Hs Hx Hy; [by apply elem_of_nil in Hx|].
  apply StronglySorted_inv in Hs as [Hs Hz]. apply elem_of_cons in Hx as [->|Hx]; [|auto].
  rewrite Forall_forall in Hz. apply Hz, elem_of_app. by right.
Qed.

Lemma kept_spec :
  StronglySorted lt kept ∧ length kept = (DigestIncidentsCap `min` length rows)%nat ∧
  (∀ i, i ∈ kept → (i < length rows)%nat) ∧
  ∀ i j, i ∈ kept → (j < length rows)%nat → j ∉ kept → stably before lt i j.
Proof.
  set (order := SliceStable before (seq 0 (length rows))).
  assert (order ≡ₚ seq 0 (length rows)) as Hp by apply SliceStable_perm.
  assert (∀ i, i ∈ kept ↔ i ∈ take DigestIncidentsCap order) as Hk by (intros i; unfold kept; by rewrite SliceStable_perm).
  assert (NoDup order) as Hnd by (rewrite Hp; apply NoDup_seq).
  split; [|split; [|split]].
  - assert (StronglySorted (stably Nat.ltb (λ _ _, True)) kept) as Hs.
    { apply SliceStable_sorted.
      - intros x y. rewrite Nat.ltb_lt, Nat.ltb_ge. lia.
      - intros x y z. rewrite !Nat.ltb_ge. lia.
      - clear Hk. induction (take _ _) as [|x l IH]; [constructor|]. constructor; [done|]. by apply Forall_true. }
    assert (NoDup kept) as Hndk.
    { unfold kept. rewrite SliceStable_perm. eapply sublist_NoDup; [exact Hnd|apply sublist_take]. }
    clear Hk. revert Hndk. induction Hs as [|x l Hl IH Hx]; [constructor|]. intros [Hxl Hnl]%NoDup_cons.
    constructor; [by apply IH|]. rewrite Forall_forall in Hx |- *. intros y Hy. destruct (Hx y Hy) as [Hle _].
    apply Nat.ltb_ge in Hle. enough (x ≠ y) by lia. by intros ->.
  - unfold kept. rewrite SliceStable_perm, length_take. fold order. rewrite Hp, length_seq. lia.
  - intros i Hi%Hk. assert (i ∈ order) as Ho by by apply (subseteq_take DigestIncidentsCap order). rewrite Hp, elem_of_seq in Ho. lia.
  - intros i j Hi%Hk Hj Hn. rewrite Hk in Hn.
    pose proof order_sorted as Hs. fold order in Hs. rewrite <- (take_drop DigestIncidentsCap order) in Hs.
    apply (StronglySorted_split _ _ _ _ _ Hs Hi).
    assert (j ∈ order) as Ho by (rewrite Hp; apply elem_of_seq; lia).
    rewrite <- (take_drop DigestIncidentsCap order), elem_of_app in Ho. by destruct Ho.
Qed.
End cap.

(** the incidents a digest lists are the ones that matter most, in their own
    order, and it tells how many it leaves out.  At most ten are listed; all of
    them when they are no more; otherwise the positions listed ascend, there are
    ten, and none left out precedes one listed: an incident still open at the end
    of the period before one that is not, then the longer one, then the newer. *)
Theorem digest_lists_worst `{!Zones} (i : WeeklyDigestInput) :
  let d := BuildWeeklyDigestData i in
  let rows := digest_row (InPeriodEnd i) <$> InIncidents i in
  let n := length (InIncidents i) in
  (∃ keep : list nat,
    WdIncidents d = omap (rows !!.) keep ∧ StronglySorted lt keep ∧
    length keep = (DigestIncidentsCap `min` n)%nat ∧ (∀ k, k ∈ keep → (k < n)%nat) ∧
    ∀ j k, k ∈ keep → (j < n)%nat → j ∉ keep →
      shown_before rows (InIncidents i) (InPeriodEnd i) j k = false ∧
      (shown_before rows (InIncidents i) (InPeriodEnd i) k j = false → (k < j)%nat)) ∧
  length (WdIncidents d) = (DigestIncidentsCap `min` n)%nat ∧
  HiddenIncidents d = Z.of_nat (n - DigestIncidentsCap).
Proof.
  intros d rows n. assert (length rows = n) as Hlen by apply length_fmap.
  assert (∀ keep, (∀ k, k ∈ keep → (k < length rows)%nat) → length (omap (rows !!.) keep) = length keep) as Hom.
  { induction keep as [|k keep IH]; [done|]. intros Hk. cbn.
    destruct (lookup_lt_is_Some_2 rows k) as [r Hr]; [apply Hk; by left|]. rewrite Hr. cbn.
    f_equal. apply IH. intros k' Hk'. apply Hk. by right. }
  assert (∃ keep, WdIncidents d = omap (rows !!.) keep ∧ StronglySorted lt keep ∧
    length keep = (DigestIncidentsCap `min` n)%nat ∧ (∀ k, k ∈ keep → (k < n)%nat) ∧
    ∀ j k, k ∈ keep → (j < n)%nat → j ∉ keep → stably (shown_before rows (InIncidents i) (InPeriodEnd i)) lt k j)
    as (keep & Hd & Hs & Hl & Hin & Hbest).
  { unfold d, BuildWeeklyDigestData. cbn [WdIncidents]. fold rows. unfold capDigestIncidents.
    case_bool_decide as Hc.
    - exists (seq 0 n). split; [|split; [apply seq_sorted|split; [rewrite length_seq; lia|split]]].
      + rewrite <- Hlen. clear. induction rows as [|r l IH]; [done|].
        cbn [length seq omap]. cbn. f_equal. rewrite IH at 1. rewrite <- fmap_S_seq. clear.
        induction (seq 0 (length l)) as [|k ks IHk]; [done|]. cbn. by destruct (l !! k); rewrite IHk.
      + intros k Hk%elem_of_seq. lia.
      + intros j k _ Hj Hn. destruct Hn. apply elem_of_seq. lia.
    - exists (kept rows (InIncidents i) (InPeriodEnd i)).
      destruct (kept_spec rows (InIncidents i) (InPeriodEnd i)) as (K1 & K2 & K3 & K4). rewrite Hlen in K2, K3, K4.
      split; [reflexivity|]. split; [exact K1|]. split; [exact K2|]. split; [exact K3|].
      intros j k Hk Hj Hn. by apply K4. }
  assert (length (WdIncidents d) = (DigestIncidentsCap `min` n)%nat) as Hlw.
  { rewrite Hd, Hom by (by rewrite Hlen). done. }
  split; [by exists keep|]. split; [done|].
  unfold HiddenIncidents, IncidentCount. rewrite Hlw. change (WdTotalIncidents d) with (Z.of_nat (length rows)).
  rewrite Hlen. unfold DigestIncidentsCap. destruct (Z.ltb_spec (Z.of_nat (10 `min` n)) (Z.of_nat n)); lia.
Qed.
