(* ===== verification/DigestRun.v ===== *)
(** * A digest cycle

    What one tenant's pass does to the database and to the outside, what a cycle
    does, and what any history of cycles and account requests does. *)

From stdpp Require Import numbers strings gmap list sorting relations.
From Stdlib Require Import ZArith Lia.
From S2P Require Import Prelude GoNum GoTime Db Schema Services Intervals World Incidents Identity Secrets Auth Accounts TwoFactor LLMProviders Providers Tenants IdentitySteps Api Inert AuthApi AccountApi AccountDemo MailData Connectors Mail MailDelivery Notify Digest DigestTime.

#[local] Open Scope Z_scope.
#[local] Open Scope go_scope.

(** A tenant's week marked, in the identity tables and in the database. *)
Definition mark_week (t : string) (sentAt : Z) (d : identity) : identity :=
  set_tenants (alter (set_digest_sent sentAt) t) d.
Definition marked (t : string) (sentAt : Z) (d : database) : database :=
  set_identity (mark_week t sentAt (db_identity d)) d.

(** Mails a digest told of, to whom: tenant and member. *)
Definition wants_digest (d : identity) (p : string * TenantMember) : Prop :=
  to_be_told d p.1 NotificationTypeWeeklyDigest p.2.

Section pass.
Context `{!Driver, !Machine, !Http, !Zones, !MailLibrary, !Config, !MailConfig}.

Lemma ListAllTenants_inert : inert ListAllTenants.
Proof.
  intros s. unfold ListAllTenants. destruct (event_fails (tick s)); [done|].
  by destruct ((query _ ;;; ListTenants true) _) as [r tx].
Qed.

Lemma mails_services : mails [] (store (on_db_core Services.List)).
Proof. apply mails_store, core_inert, inert_query. Qed.
Lemma buildDigest_quiet t from to : mails [] (buildDigest t from to).
Proof.
  apply mails_bind; [apply mails_services|]. intros services. apply mails_bind.
  { destruct services; [apply mails_ret|]. apply mails_bind; [apply mails_store; eauto with vane|].
    intros. apply mails_ret. }
  intros up. apply mails_bind; [apply mails_store, core_inert, inert_query|]. intros c.
  apply mails_bind; [apply mails_store, core_inert, inert_query|]. intros inc. apply mails_ret.
Qed.

(** A quiet call, in one piece. *)
Lemma quiet_inv {A} (c : MM A) m r m' :
  mails [] c → c m = (r, m') →
  tables (m_db m') = tables (m_db m) ∧ app_tenant (m_db m') = app_tenant (m_db m) ∧
  bypass_rls (m_db m') = bypass_rls (m_db m) ∧ ∃ net, m_net m' = m_net m ++ net ∧ addressed net = [].
Proof.
  intros Hc E. destruct (Hc m) as (T & U & V & net & N & Hn). rewrite E in *. split_and!; [done..|].
  exists net. split; [done|]. by apply sublist_nil_r.
Qed.

Lemma MarkDigestSent_inv t sentAt m r m' :
  store (on_identity (MarkDigestSent t sentAt)) m = (r, m') →
  app_tenant (m_db m') = app_tenant (m_db m) ∧ bypass_rls (m_db m') = bypass_rls (m_db m) ∧
  m_net m' = m_net m ∧
  match r with
  | Err _ => True
  | Ok _ => visible (m_db m) t = true ∧ is_Some (tenants (identity_of m) !! t) ∧
            tables (m_db m') = marked t sentAt (tables (m_db m))
  end.
Proof.
  unfold store, on_identity, focus, MarkDigestSent. set (s := retable _ _).
  unfold bind at 1. destruct (update_tenant t _ _ s) as [r1 s1] eqn:E.
  pose proof (stmt_settings_eq _ _ _ _ E) as [Ht Hb].
  assert (∀ row : option Tenant, bind (or_not_found (D := identity) row) (λ _, ret tt) s1 =
            (match row with Some _ => Ok tt | None => Err ErrNotFound end, s1)) as Hrow by by intros [].
  apply stmt_inv in E as [(e & -> & Hs)|(row & d & Hf & -> & ->)].
  { intros [= <- <-]. split_and!; [exact Ht|exact Hb|done..]. }
  rewrite Hrow. destruct row as [row|]; intros [= <- <-]; cbn; [|done].
  do 3 (split; [done|]). unfold seen_tenant in Hf. unfold identity_of. cbn in Hf |- *.
  change (visible s t) with (visible (m_db m) t) in Hf.
  destruct (tenants (db_identity (tables (m_db m))) !! t) as [x|] eqn:Ex; [|done].
  destruct (visible (m_db m) t); [|done]. cbn in Hf. destruct (tax_id_type_check _); [|done].
  injection Hf as _ <-. split_and!; [done|by eexists|].
  unfold marked, mark_week. f_equal. unfold set_tenants. f_equal.
  apply map_eq. intros k. destruct (decide (k = t)) as [->|Hne].
  - by rewrite lookup_insert_eq, lookup_alter_eq, Ex.
  - by rewrite lookup_insert_ne, lookup_alter_ne by done.
Qed.

(** The pass inside the transaction: reads, then the mark; no mail yet. *)
Lemma digest_pass_inv tenant from to sentAt m r m' :
  digest_pass tenant from to sentAt m = (r, m') →
  (∃ net, m_net m' = m_net m ++ net ∧ addressed net = []) ∧
  match r with
  | Err _ => True
  | Ok mailing =>
      is_Some (tenants (identity_of m) !! TenID tenant) ∧
      tables (m_db m') = marked (TenID tenant) sentAt (tables (m_db m)) ∧
      match mailing with
      | None => True
      | Some (told, data) =>
          NoDup (MemUserID <$> told) ∧ ∀ x, x ∈ told → wants_digest (identity_of m) (TenID tenant, x)
      end
  end.
Proof.
  unfold digest_pass, bind at 1. destruct (WeeklyDigestRecipients "" (TenID tenant) m) as [r1 m1] eqn:E1.
  destruct (quiet_inv _ _ _ _ (recipients_quiet "" _ _) E1) as (T1 & U1 & V1 & n1 & N1 & H1').
  destruct r1 as [told|e]; [|intros [= <- <-]; split; [by eexists|done]].
  assert (visible (m_db m) (TenID tenant) = true →
    NoDup (MemUserID <$> told) ∧ ∀ x, x ∈ told → wants_digest (identity_of m) (TenID tenant, x)) as Htold.
  { intros Hv. destruct (recipients_Ok "" _ _ _ _ _ E1 Hv) as [Hnd Hl]. split; [done|]. intros x. apply Hl. }
  destruct told as [|x told].
  - unfold bind. destruct (store _ m1) as [r2 m2] eqn:E2. apply MarkDigestSent_inv in E2 as (_ & _ & N2 & Hm).
    destruct r2 as [[]|e]; intros [= <- <-]; (split; [exists n1; by rewrite N2|]); [|done].
    destruct Hm as (_ & Hr & Ht). unfold identity_of in Hr. rewrite T1 in Hr, Ht. done.
  - unfold bind at 1. destruct (buildDigest tenant from to m1) as [r2 m2] eqn:E2.
    destruct (quiet_inv _ _ _ _ (buildDigest_quiet _ _ _) E2) as (T2 & U2 & V2 & n2 & N2 & H2').
    assert (m_net m2 = m_net m ++ (n1 ++ n2) ∧ addressed (n1 ++ n2) = []) as [Hn Ha].
    { by rewrite N2, N1, app_assoc, addressed_app, H1', H2'. }
    destruct r2 as [data|e]; [|intros [= <- <-]; split; [by eexists|done]].
    unfold bind. destruct (store _ m2) as [r3 m3] eqn:E3. apply MarkDigestSent_inv in E3 as (_ & _ & N3 & Hm).
    destruct r3 as [[]|e]; intros [= <- <-]; (split; [exists (n1 ++ n2); by rewrite N3|]); [|done].
    destruct Hm as (Hv & Hr & Ht). unfold identity_of in Hr. unfold visible in Hv.
    rewrite U2, U1, V2, V1 in Hv. rewrite T2, T1 in Hr, Ht.
    split_and!; [done|done|by apply Htold..].
Qed.
End pass.

(** ** One tenant's pass *)

Section run.
Context `{!Driver, !Machine, !Http, !Zones, !MailLibrary, !Config, !MailConfig}.
Context (sender : Sender) `{!SenderLaws sender}.

(** Either nothing happened, or the week was marked; mails only after that. *)
Lemma runTenant_inv tenant from to sentAt m :
  let m' := (runTenant sender tenant from to sentAt m).2 in
  app_tenant (m_db m') = app_tenant (m_db m) ∧ bypass_rls (m_db m') = bypass_rls (m_db m) ∧
  ∃ net told, m_net m' = m_net m ++ net ∧ addressed net `sublist_of` (MemEmail <$> told) ∧
    NoDup (MemUserID <$> told) ∧ (∀ x, x ∈ told → wants_digest (identity_of m) (TenID tenant, x)) ∧
    (tables (m_db m') = tables (m_db m) ∧ told = [] ∨
     is_Some (tenants (identity_of m) !! TenID tenant) ∧
     tables (m_db m') = marked (TenID tenant) sentAt (tables (m_db m))).
Proof.
  cbv zeta. unfold runTenant. destruct (BeginTenantTx "" (TenID tenant) (m_db m)) as [r s] eqn:Eb.
  apply BeginTenantTx_inv in Eb as (Ts & As & Bs & Htx). destruct r as [tx|e].
  2:{ cbn. split_and!; [done..|]. exists [], []. rewrite app_nil_r.
      split_and!; [done|done|constructor|by intros x ?%elem_of_nil|by left]. }
  destruct Htx as (Tx & _). destruct (digest_pass tenant from to sentAt (set_m_db tx m)) as [r m1] eqn:Ep.
  apply digest_pass_inv in Ep as ((n1 & N1 & Hn1) & Hp). unfold identity_of in Hp. cbn [m_db set_m_db m_net] in N1, Hp.
  rewrite Tx in Hp. fold (identity_of m) in Hp.
  assert (addressed n1 `sublist_of` MemEmail <$> ([] : list TenantMember)) as Hn1' by by rewrite Hn1.
  destruct r as [mailing|e].
  2:{ cbn. split_and!; [done..|]. exists n1, []. split_and!; [done|done|constructor|by intros x ?%elem_of_nil|by left]. }
  unfold tx_commit. destruct (aborted (m_db m1)).
  { cbn. split_and!; [done..|]. exists n1, []. split_and!; [done|done|constructor|by intros x ?%elem_of_nil|by left]. }
  destruct (event_fails (tick (m_db m1))).
  { cbn. split_and!; [done..|]. exists n1, []. split_and!; [done|done|constructor|by intros x ?%elem_of_nil|by left]. }
  destruct Hp as (Hrow & Ht & Hm). destruct mailing as [[told data]|].
  - destruct Hm as [Hnd Hw].
    match goal with |- context [send_each ?f told ?mc] =>
      destruct (mails_each MemEmail f told (λ x, digest_mails (MemEmail x) _) mc) as (T2 & A2 & B2 & n2 & N2 & Hn2);
      destruct (send_each f told mc) as [r m2] end.
    cbn in *. split_and!; [congruence..|]. exists (n1 ++ n2), told. rewrite N2, N1, addressed_app, Hn1, app_assoc.
    split_and!; [done..|]. right. split; [done|]. by rewrite T2, Ht.
  - cbn. split_and!; [done..|]. exists n1, [].
    split_and!; [done|done|constructor|by intros x ?%elem_of_nil|]. right. done.
Qed.

(** ** A cycle *)

(** The weeks marked at [now] between two states, all due; those mailed. *)
Record cycle_effect (ids : list string) (now : Z) (d d' : identity) (told : list (string * TenantMember)) : Prop := {
  ce_rest : d' = set_tenants (λ _, tenants d') d;
  ce_rows t : tenants d' !! t = tenants d !! t ∨
    t ∈ ids ∧ ∃ row, tenants d !! t = Some row ∧ (digestDue row now).2 = true ∧
      tenants d' !! t = Some (set_digest_sent now row);
  ce_told p : p ∈ told → p.1 ∈ ids ∧ wants_digest d p ∧
    ∃ row, tenants d !! p.1 = Some row ∧ (digestDue row now).2 = true ∧
      tenants d' !! p.1 = Some (set_digest_sent now row);
  ce_once : NoDup ((λ p, (p.1, MemUserID p.2)) <$> told);
}.

Lemma wants_set_tenants f d p : wants_digest (set_tenants f d) p → wants_digest d p.
Proof. intros ([Hu Hr] & Hm & Hp). done. Qed.
Lemma set_own_tenants d : set_tenants (λ _, tenants d) d = d.
Proof. by destruct d. Qed.
Lemma effect_refl ids now d : cycle_effect ids now d d [].
Proof.
  split; [by rewrite set_own_tenants|by left|by intros p ?%elem_of_nil|constructor].
Qed.
(** One pass, then the rest. *)
Lemma effect_trans t ids now d d1 d2 told1 told2 :
  t ∉ ids → cycle_effect [t] now d d1 told1 → cycle_effect ids now d1 d2 told2 →
  cycle_effect (t :: ids) now d d2 (told1 ++ told2).
Proof.
  intros Hn [R1 W1 T1 O1] [R2 W2 T2 O2].
  assert (tenants d2 !! t = tenants d1 !! t) as Ht by (destruct (W2 t) as [?|[? _]]; done).
  assert (∀ u, u ∈ ids → tenants d1 !! u = tenants d !! u) as Hids.
  { intros u Hu. destruct (W1 u) as [?|[->%list_elem_of_singleton _]]; done. }
  split.
  - rewrite R2, R1 at 1. done.
  - intros u. destruct (W2 u) as [E|(Hu & row & E1 & Hd & E2)].
    + destruct (W1 u) as [E'|(->%list_elem_of_singleton & row & E1 & Hd & E2)]; [left; congruence|].
      right. split; [by left|]. exists row. by rewrite E.
    + right. split; [by right|]. exists row. by rewrite <- Hids.
  - intros p [Hp|Hp]%elem_of_app.
    + destruct (T1 p Hp) as (Ep%list_elem_of_singleton & Hw & row & E1 & Hd & E2).
      split_and!; [rewrite Ep; by left|done|]. exists row. rewrite Ep in *. by rewrite Ht.
    + destruct (T2 p Hp) as (Hi & Hw & row & E1 & Hd & E2). split_and!; [by right| |].
      * rewrite R1 in Hw. by apply wants_set_tenants in Hw.
      * exists row. by rewrite <- Hids.
  - rewrite fmap_app. apply NoDup_app. split_and!; [done| |done].
    intros q (p & -> & Hp)%list_elem_of_fmap (p' & E & Hp')%list_elem_of_fmap.
    apply T1 in Hp as (Ep%list_elem_of_singleton & _). apply T2 in Hp' as (Hi & _).
    apply (f_equal fst) in E. cbn in E. apply Hn. by rewrite <- Ep, E.
Qed.

(** What a call of the cycle leaves behind. *)
Definition cycles (ids : list string) (now : Z) (m m' : mstate) : Prop :=
  app_tenant (m_db m') = app_tenant (m_db m) ∧ bypass_rls (m_db m') = bypass_rls (m_db m) ∧
  ∃ net told, m_net m' = m_net m ++ net ∧ addressed net `sublist_of` ((λ p, MemEmail p.2) <$> told) ∧
    tables (m_db m') = set_identity (identity_of m') (tables (m_db m)) ∧
    cycle_effect ids now (identity_of m) (identity_of m') told.

Lemma set_own_identity d : set_identity (db_identity d) d = d.
Proof. by destruct d. Qed.
Lemma cycles_refl ids now m : cycles ids now m m.
Proof.
  split; [done|]. split; [done|]. exists [], []. rewrite app_nil_r.
  split_and!; [done|done|unfold identity_of; by rewrite set_own_identity|apply effect_refl].
Qed.

Lemma runTenant_cycles tenant row from to now m :
  tenants (identity_of m) !! TenID tenant = Some row → (digestDue row now).2 = true →
  cycles [TenID tenant] now m (runTenant sender tenant from to now m).2.
Proof.
  intros Hrow Hdue. destruct (runTenant_inv tenant from to now m) as (A & B & net & told & N & Hn & Hnd & Hw & Ht).
  set (m' := (runTenant _ _ _ _ _ _).2) in *. split; [done|]. split; [done|].
  exists net, (pair (TenID tenant) <$> told). split; [done|]. split; [by rewrite <- list_fmap_compose|].
  assert (NoDup ((λ p : string * TenantMember, (p.1, MemUserID p.2)) <$> (pair (TenID tenant) <$> told))) as Hnd'.
  { replace (_ <$> _) with (pair (TenID tenant) <$> (MemUserID <$> told)) by by rewrite <- !list_fmap_compose.
    apply NoDup_fmap_2; [|done]. by intros ?? [= ->]. }
  destruct Ht as [[T ->]|[_ T]]; unfold identity_of; rewrite T.
  { split; [by rewrite set_own_identity|apply effect_refl]. }
  split; [done|]. unfold marked, mark_week. cbn. fold (identity_of m). split; [done| | |exact Hnd'].
  - intros t. cbn. destruct (decide (t = TenID tenant)) as [->|Hne]; [right|left; by rewrite lookup_alter_ne].
    split; [by left|]. exists row. by rewrite lookup_alter_eq, Hrow.
  - intros p (x & -> & Hx)%list_elem_of_fmap. split_and!; [by left|by apply Hw|].
    exists row. cbn. by rewrite lookup_alter_eq, Hrow.
Qed.

Lemma cycles_trans t ids now m m1 m2 :
  t ∉ ids → cycles [t] now m m1 → cycles ids now m1 m2 → cycles (t :: ids) now m m2.
Proof.
  intros Hn (A1 & B1 & n1 & t1 & N1 & S1 & T1 & E1) (A2 & B2 & n2 & t2 & N2 & S2 & T2 & E2).
  split; [congruence|]. split; [congruence|]. exists (n1 ++ n2), (t1 ++ t2).
  rewrite N2, N1, app_assoc, addressed_app, fmap_app. split_and!; [done|by apply sublist_app| |by eapply effect_trans].
  rewrite T2, T1 at 1. done.
Qed.

Lemma run_tenants_cycles now l m :
  NoDup (TenID <$> l) →
  (∀ t, t ∈ l → ∃ row, tenants (identity_of m) !! TenID t = Some row ∧ t = tenant_columns row) →
  cycles (TenID <$> l) now m (run_tenants sender now l m).2.
Proof.
  revert m. induction l as [|t l IH]; intros m Hnd Hl; [apply cycles_refl|].
  apply NoDup_cons in Hnd as [Ht Hnd]. destruct (Hl t) as (row & Hrow & Et); [by left|].
  cbn [run_tenants fmap list_fmap]. destruct (digestDue t now) as [fire due] eqn:Ed.
  assert (∃ m1, (run_tenants sender now l m1).2 = (bind (if due then let '(from, to) := digestPeriod fire
      (TenantLocation (TenTimezone t)) in discard (attempt (runTenant sender t from to now)) else ret tt)
      (λ _, run_tenants sender now l) m).2 ∧ cycles [TenID t] now m m1) as (m1 & <- & H1').
  { destruct due; [|exists m; split; [done|apply cycles_refl]].
    destruct (digestPeriod _ _) as [from to]. exists (runTenant sender t from to now m).2. split.
    - unfold discard, bind, attempt. by destruct (runTenant sender t from to now m).
    - apply (runTenant_cycles t row); [done|].
      assert (digestDue t now = digestDue row now) as E by by rewrite Et. by rewrite <- E, Ed. }
  eapply cycles_trans; [done|exact H1'|]. apply IH; [done|].
  intros u Hu. destruct (Hl u) as (row' & Hrow' & Eu); [by right|]. exists row'. split; [|done].
  destruct H1' as (_ & _ & _ & _ & _ & _ & _ & [_ W _ _]).
  destruct (W (TenID u)) as [E|[Hin _]]; [by rewrite E|]. apply list_elem_of_singleton in Hin.
  destruct Ht. rewrite <- Hin. by apply list_elem_of_fmap_2.
Qed.
End run.

(** ** The cycle *)

(** Every tenant's row is under its id. *)
Definition tenants_keyed (d : identity) : Prop := ∀ k t, tenants d !! k = Some t → TenID t = k.

Section cycle.
Context `{!Driver, !Machine, !Http, !Zones, !MailLibrary, !Config, !MailConfig}.
Context (sender : Sender) `{!SenderLaws sender}.

Lemma ListAllTenants_Ok s l s' :
  ListAllTenants s = (Ok l, s') → tenants_keyed (tables s) →
  NoDup (TenID <$> l) ∧ ∀ t, t ∈ l → ∃ row, tenants (tables s) !! TenID t = Some row ∧ t = tenant_columns row.
Proof.
  unfold ListAllTenants. destruct (event_fails (tick s)); [done|].
  destruct ((query _ ;;; ListTenants true) _) as [r tx] eqn:E. intros [= -> _] Hk.
  apply bind_Ok_inv in E as ([] & s1 & E1 & E). apply query_Ok_inv in E1 as [_ T1].
  apply query_Ok_inv in E as [-> _]. rewrite T1. cbn [tables].
  set (all := filter _ _). assert (∀ t, t ∈ all → tenants (tables s) !! TenID t = Some t) as Hall.
  { intros t [_ ([k t'] & -> & Hin)%list_elem_of_fmap]%list_elem_of_filter. apply elem_of_map_to_list in Hin.
    cbn. by rewrite (Hk _ _ Hin). }
  split.
  - rewrite <- list_fmap_compose. change (TenID ∘ tenant_columns) with TenID.
    rewrite (merge_sort_Permutation oldest_tenant). apply NoDup_fmap_2_strong.
    { intros x y Hx%Hall Hy%Hall E. congruence. }
    unfold all. apply NoDup_filter. apply NoDup_fmap_2_strong; [|apply NoDup_map_to_list].
    intros [k1 t1] [k2 t2] H1'%elem_of_map_to_list H2'%elem_of_map_to_list. cbn. intros ->.
    by rewrite <- (Hk _ _ H1'), <- (Hk _ _ H2').
  - intros t (row & -> & Hrow)%list_elem_of_fmap. rewrite (merge_sort_Permutation oldest_tenant) in Hrow.
    exists row. split; [|done]. exact (Hall row Hrow).
Qed.

Lemma runCycle_cycles lock now m :
  tenants_keyed (identity_of m) → ∃ ids, NoDup ids ∧ cycles ids now m (runCycle sender lock now m).2.
Proof.
  intros Hk. destruct lock; [exists []; split; [constructor|apply cycles_refl]..|].
  assert ((runCycle sender LockTaken now m).2 = (runOnce sender now m).2) as ->.
  { unfold runCycle, discard, bind, attempt. by destruct (runOnce sender now m). }
  unfold runOnce, bind. destruct (store _ m) as [[l|e] m1] eqn:E.
  - pose proof (mails_store (on_identity ListAllTenants) (identity_inert _ ListAllTenants_inert) m) as Hq.
    rewrite E in Hq. cbn [snd] in Hq. destruct Hq as (T & A & B & net & N & Hn%sublist_nil_r).
    apply store_identity_Ok in E as ((s' & El) & _); [|apply ListAllTenants_inert].
    destruct (ListAllTenants_Ok _ _ _ El Hk) as [Hnd Hl]. exists (TenID <$> l). split; [done|].
    destruct (run_tenants_cycles sender now l m1 Hnd) as (A2 & B2 & net2 & told & N2 & Hn2 & T2 & E2).
    { unfold identity_of. rewrite T. exact Hl. }
    split; [congruence|]. split; [congruence|]. exists (net ++ net2), told.
    rewrite N2, N, app_assoc, addressed_app, Hn. unfold identity_of in E2 at 1. rewrite T in T2, E2. done.
  - exists []. split; [constructor|].
    pose proof (mails_store (on_identity ListAllTenants) (identity_inert _ ListAllTenants_inert) m) as Hq.
    rewrite E in Hq. cbn [snd] in Hq |- *. destruct Hq as (T & A & B & net & N & Hn).
    split; [done|]. split; [done|]. exists net, []. split; [done|]. split; [done|]. unfold identity_of.
    rewrite T, set_own_identity. split; [done|]. apply effect_refl.
Qed.
End cycle.

(** C17: a cycle mails a digest to nobody who did not ask for it, to nobody twice,
    and only for a week it has marked.  Whatever fails, of the server, the lock or
    the mail service: the addresses mailed are, in order and at most once each,
    those of distinct members, owners and operators with the digest on, of tenants
    whose digest was due at [now] and whose week is marked with [now] afterwards;
    and these marks are all a cycle does to the database. *)
Theorem digest_cycle_safe `{!Driver, !Machine, !Http, !Zones, !MailLibrary, !Config, !MailConfig}
    (sender : Sender) (lock : lock_answer) (now : Z) (m : mstate) :
  SenderLaws sender → tenants_keyed (identity_of m) →
  let m' := (runCycle sender lock now m).2 in
  let d := identity_of m in
  let d' := identity_of m' in
  (∃ net told, m_net m' = m_net m ++ net ∧ addressed net `sublist_of` ((λ p, MemEmail p.2) <$> told) ∧
    NoDup ((λ p : string * TenantMember, (p.1, MemUserID p.2)) <$> told) ∧
    ∀ p, p ∈ told → wants_digest d p ∧
      ∃ row, tenants d !! p.1 = Some row ∧ (digestDue row now).2 = true ∧
        tenants d' !! p.1 = Some (set_digest_sent now row)) ∧
  (∀ t, tenants d' !! t = tenants d !! t ∨
     ∃ row, tenants d !! t = Some row ∧ (digestDue row now).2 = true ∧
       tenants d' !! t = Some (set_digest_sent now row)) ∧
  tables (m_db m') = set_identity (set_tenants (λ _, tenants d') d) (tables (m_db m)).
Proof.
  intros Hs Hk m' d d'. destruct (runCycle_cycles sender lock now m Hk) as (ids & _ & _ & _ & net & told & N & Hn & T & [R W To O]).
  fold m' in N, T, R, W, To. fold d d' in R, W, To. split_and!.
  - exists net, told. split_and!; [done..|]. intros p Hp. by destruct (To p Hp) as (_ & ? & ?).
  - intros t. destruct (W t) as [?|[_ ?]]; auto.
  - rewrite T. fold d'. by rewrite R.
Qed.

(** ** A history

    Cycles of the scheduler, on any server and at any time, and account requests
    in between (they take the identity tables along [cstep]: [account_run_acc]);
    the log has every week that was marked, oldest first. *)

Section history.
Context `{!Machine, !Http, !Zones, !MailLibrary, !Config, !MailConfig}.

Definition last_digest (d : identity) (t : string) : option Z := tenants d !! t ≫= TenLastDigestSentAt.
Definition weeks_marked (now : Z) (d d' : identity) : list (string * Z) :=
  (λ kv, (kv.1, now)) <$>
  filter (λ kv, TenLastDigestSentAt kv.2 = Some now ∧ last_digest d kv.1 ≠ Some now) (map_to_list (tenants d')).

Inductive digest_life (sender : Sender) (m0 : mstate) : list (string * Z) → mstate → Prop :=
| life_start : digest_life sender m0 [] m0
| life_cycle log m (driver : Driver) lock now :
    digest_life sender m0 log m →
    let m' := (@runCycle driver _ _ sender lock now m).2 in
    digest_life sender m0 (log ++ weeks_marked now (identity_of m) (identity_of m')) m'
| life_requests log m m' (driver : Driver) n n' :
    digest_life sender m0 log m →
    rtc (@cstep driver) (n, identity_of m) (n', identity_of m') →
    digest_life sender m0 log m'.
End history.

(** Account code touches no tenant's marker and keeps the keys. *)
Lemma cstep_markers `{!Driver} c c' :
  cstep c c' → tenants_keyed c.2 →
  tenants_keyed c'.2 ∧ ∀ t z, last_digest c.2 t = Some z → last_digest c'.2 t = Some z.
Proof.
  intros Hs Hk. destruct Hs as [n d|n d d' Hs]; [done|]. cbn [snd] in *. destruct Hs; try done.
  - rename select (tenants d !! _ = None) into Hnone. split.
    + intros k x. cbn. intros [[<- <-]|[_ Hx]]%lookup_insert_Some; [done|by apply Hk].
    + intros u z. unfold last_digest. cbn. destruct (decide (u = TenID t)) as [->|Hne]; [by rewrite Hnone|].
      by rewrite lookup_insert_ne.
  - rename select (tenants d !! _ = Some _) into Hold. rename select (TenID _ = TenID _) into Hid.
    rename select (TenLastDigestSentAt _ = _) into Hlast. split.
    + intros k x. cbn. intros [[<- <-]|[_ Hx]]%lookup_insert_Some; [|by apply Hk]. rewrite Hid. by apply Hk.
    + intros u z. unfold last_digest. cbn. destruct (decide (u = id)) as [->|Hne]; [|by rewrite lookup_insert_ne].
      rewrite lookup_insert_eq, Hold. cbn. by rewrite Hlast.
Qed.

Section spacing.
Context `{!Machine, !Http, !Zones, !MailLibrary, !Config, !MailConfig}.

Definition six_days_apart (p q : string * Z) : Prop := p.1 = q.1 → p.2 + digestMinInterval ≤ q.2.
Record well_spaced (log : list (string * Z)) (m : mstate) : Prop := {
  ws_keyed : tenants_keyed (identity_of m);
  ws_apart : StronglySorted six_days_apart log;
  ws_last p : p ∈ log → ∃ z, last_digest (identity_of m) p.1 = Some z ∧ p.2 ≤ z;
}.

Lemma StronglySorted_snoc {A} (R : A → A → Prop) l1 l2 :
  StronglySorted R l1 → StronglySorted R l2 → (∀ x y, x ∈ l1 → y ∈ l2 → R x y) → StronglySorted R (l1 ++ l2).
Proof.
  induction 1 as [|x l Hl IH Hx]; intros Hl2 Hr; cbn; [done|]. constructor.
  - apply IH; [done|]. intros. apply Hr; [by right|done].
  - apply Forall_app. split; [done|]. apply Forall_forall. intros y Hy. apply Hr; [by left|done].
Qed.

(** A marked week is one that was due. *)
Lemma weeks_marked_due ids now d d' told p :
  cycle_effect ids now d d' told → p ∈ weeks_marked now d d' →
  p.2 = now ∧ last_digest d' p.1 = Some now ∧ ∀ z, last_digest d p.1 = Some z → z + digestMinInterval ≤ now.
Proof.
  intros [_ W _ _] ([k x] & -> & [[Hx Hn] Hin]%list_elem_of_filter)%list_elem_of_fmap.
  apply elem_of_map_to_list in Hin. cbn in *. split; [done|]. split; [unfold last_digest; by rewrite Hin|].
  destruct (W k) as [E|(_ & row & E & Hd & _)].
  { destruct Hn. unfold last_digest. by rewrite <- E, Hin. }
  intros z. unfold last_digest. rewrite E. cbn. intros Hz. apply digestDue_iff in Hd as [_ Hd].
  rewrite Hz in Hd. lia.
Qed.
Lemma weeks_marked_apart now d d' : StronglySorted six_days_apart (weeks_marked now d d').
Proof.
  unfold weeks_marked. set (l := filter _ _).
  assert (NoDup (fst <$> l)) as Hnd.
  { unfold l. eapply sublist_NoDup; [apply (NoDup_fst_map_to_list (tenants d'))|apply fmap_sublist, sublist_filter]. }
  clearbody l. induction l as [|[k x] l IH]; cbn in *; [constructor|].
  apply NoDup_cons in Hnd as [Hk Hnd]. constructor; [by apply IH|]. apply Forall_forall.
  intros q (kv & -> & Hkv)%list_elem_of_fmap E. cbn in E. destruct Hk. rewrite E. by apply list_elem_of_fmap_2.
Qed.
End spacing.

(** C18: no tenant gets two digests within six days.  Over any history, from any
    state whose tenants are under their ids, of cycles at any times, in any order
    and with any failures, and of account requests between them, which may move a
    tenant to any zone: the weeks marked for one tenant are at least six days
    apart, and so are its digests, which are mailed only for a marked week. *)
Theorem digests_six_days_apart `{!Machine, !Http, !Zones, !MailLibrary, !Config, !MailConfig}
    (sender : Sender) (m0 m : mstate) (log : list (string * Z)) :
  SenderLaws sender → tenants_keyed (identity_of m0) → digest_life sender m0 log m →
  StronglySorted (λ p q, p.1 = q.1 → p.2 + digestMinInterval ≤ q.2) log.
Proof.
  intros Hs Hk Hl. enough (well_spaced log m) as [_ ? _] by done.
  induction Hl as [|log m driver lock now _ IH m'|log m m' driver n n' _ IH Hc].
  - split; [done|constructor|by intros p ?%elem_of_nil].
  - destruct IH as [K S L].
    destruct (runCycle_cycles sender lock now m K) as (ids & _ & _ & _ & net & told & _ & _ & _ & E).
    fold m' in E. pose proof E as [_ W _ _].
    assert (∀ p, p ∈ weeks_marked now (identity_of m) (identity_of m') → p.2 = now ∧
      last_digest (identity_of m') p.1 = Some now ∧ ∀ z, last_digest (identity_of m) p.1 = Some z → z + digestMinInterval ≤ now)
      as Hm by (intros p; by eapply weeks_marked_due).
    split.
    + intros k x Hx. destruct (W k) as [Ex|(_ & row & Ex & _ & E')]; [rewrite Ex in Hx; by apply K|].
      rewrite E' in Hx. injection Hx as <-. cbn. by apply K.
    + apply StronglySorted_snoc; [done|apply weeks_marked_apart|].
      intros p q Hp Hq Epq. destruct (L p Hp) as (z & Hz & Hle). destruct (Hm q Hq) as (-> & _ & Hd).
      rewrite Epq in Hz. specialize (Hd z Hz). lia.
    + intros p [Hp|Hp]%elem_of_app.
      * destruct (L p Hp) as (z & Hz & Hle). destruct (W p.1) as [Ep|(_ & row & Ep & Hd & E')].
        { exists z. unfold last_digest. by rewrite Ep. }
        exists now. unfold last_digest in *. rewrite E'. split; [done|].
        rewrite Ep in Hz. cbn in Hz. apply digestDue_iff in Hd as [_ Hd]. rewrite Hz in Hd.
        unfold digestMinInterval, hour, minute, second, millisecond, nanosecond in *. lia.
      * destruct (Hm p Hp) as (E1 & E2 & _). exists now. split; [done|lia].
  - assert (∀ c c', rtc (@cstep driver) c c' → tenants_keyed c.2 →
      tenants_keyed c'.2 ∧ ∀ t z, last_digest c.2 t = Some z → last_digest c'.2 t = Some z) as Hall.
    { clear. induction 1 as [c|c1 c2 c3 H12 _ IH]; [done|]. intros Hk.
      destruct (cstep_markers _ _ H12 Hk) as [Hk2 Hl2]. destruct (IH Hk2) as [Hk3 Hl3]. split; [done|]. auto. }
    destruct IH as [K S L]. destruct (Hall _ _ Hc K) as [K' L']. split; [done|done|].
    intros p Hp. destruct (L p Hp) as (z & Hz & Hle). exists z. split; [by apply L'|done].
Qed.

(** ** Self-hosted

    The mails go out on the cycle's own connection, where app.tenant_id is unset:
    the tenant's active provider is not found there. *)

Section unset.
Context `{!Driver, !Machine, !Http, !Zones, !MailLibrary, !Config, !MailConfig}.

Definition unmailed {A} (c : MM A) : Prop :=
  ∀ m, app_tenant (m_db m) = "" → app_tenant (m_db (c m).2) = "" ∧
    ∃ net, m_net (c m).2 = m_net m ++ net ∧ addressed net = [].

Lemma unmailed_quiet {A} (c : MM A) : mails [] c → unmailed c.
Proof.
  intros Hc m Hm. destruct (Hc m) as (_ & A1 & _ & net & N & Hn%sublist_nil_r). rewrite A1. eauto.
Qed.
Lemma unmailed_bind {A B} (c : MM A) (k : A → MM B) : unmailed c → (∀ a, unmailed (k a)) → unmailed (bind c k).
Proof.
  intros Hc Hk m Hm. unfold bind. destruct (Hc m Hm) as (A1 & n1 & N1 & E1).
  destruct (c m) as [[a|e] m1]; cbn [snd] in *; [|eauto].
  destruct (Hk a m1 A1) as (A2 & n2 & N2 & E2). split; [done|]. exists (n1 ++ n2).
  by rewrite N2, N1, app_assoc, addressed_app, E1, E2.
Qed.
Lemma unmailed_attempt {A} (c : MM A) : unmailed c → unmailed (attempt c).
Proof. intros Hc m Hm. unfold attempt. specialize (Hc m Hm). by destruct (c m). Qed.

Lemma active_client_unset m : app_tenant (m_db m) = "" → is_ok (active_client m).1 = false.
Proof.
  intros Hm. unfold active_client, bind at 1. destruct (store _ m) as [[p|e] m1] eqn:E; [|done].
  apply store_inv in E as (r0 & s' & E & _ & _ & _ & _ & Hr). destruct r0 as [p'|]; [|done].
  injection Hr as ->. apply query_Ok_inv in E as [-> _]. cbn. by rewrite Hm.
Qed.
Lemma send_active_unset to subject b : unmailed (send_active to subject b).
Proof.
  intros m Hm. pose proof (active_client_unset m Hm) as Hno.
  destruct (unmailed_quiet _ mails_active_client m Hm) as (A1 & net & N & E).
  assert (send_active to subject b m = (match (active_client m).1 with Ok c => Ok tt | Err e => Err e end, (active_client m).2)) as ->.
  { unfold send_active, bind at 1. by destruct (active_client m) as [[c|e] m1]. }
  split; [done|by exists net].
Qed.
Lemma send_each_unset {A} (f : A → MM unit) l : (∀ x, unmailed (f x)) → unmailed (send_each f l).
Proof.
  intros Hf. induction l as [|x l IH]; [apply unmailed_quiet, mails_ret|].
  apply unmailed_bind; [by apply unmailed_attempt|done].
Qed.

Lemma runTenant_unset layout tenant from to sentAt : unmailed (runTenant (serviceSender layout) tenant from to sentAt).
Proof.
  intros m Hm. unfold runTenant. destruct (BeginTenantTx "" (TenID tenant) (m_db m)) as [r s] eqn:Eb.
  apply BeginTenantTx_inv in Eb as (_ & As & _ & _). rewrite Hm in As.
  assert (∃ net, m_net m = m_net m ++ net ∧ addressed net = []) as Hnone by (exists []; by rewrite app_nil_r).
  destruct r as [tx|e]; [|done].
  destruct (digest_pass tenant from to sentAt (set_m_db tx m)) as [r m1] eqn:Ep.
  apply digest_pass_inv in Ep as ((n1 & N1 & E1) & _). cbn [m_net set_m_db] in N1.
  destruct r as [mailing|e]; [|cbn; eauto]. unfold tx_commit.
  destruct (aborted (m_db m1)); [cbn; eauto|]. destruct (event_fails (tick (m_db m1))); [cbn; eauto|].
  destruct mailing as [[told data]|]; [|cbn; eauto].
  match goal with |- context [send_each ?f told ?mc] =>
    destruct (send_each_unset f told (λ x, send_active_unset _ _ _) mc) as (A2 & n2 & N2 & E2); [done|];
    destruct (send_each f told mc) as [r m2] end.
  cbn in *. split; [done|]. exists (n1 ++ n2). by rewrite N2, N1, app_assoc, addressed_app, E1, E2.
Qed.
Lemma runCycle_unset layout lock now : unmailed (runCycle (serviceSender layout) lock now).
Proof.
  destruct lock; [apply unmailed_quiet, mails_ret..|]. unfold runCycle, discard.
  apply unmailed_bind; [apply unmailed_attempt|intros; apply unmailed_quiet, mails_ret].
  apply unmailed_bind; [apply unmailed_quiet, mails_store, identity_inert, ListAllTenants_inert|].
  intros l. induction l as [|t l IH]; [apply unmailed_quiet, mails_ret|]. cbn [run_tenants].
  destruct (digestDue t now) as [fire []]; (apply unmailed_bind; [|done]); [|apply unmailed_quiet, mails_ret].
  destruct (digestPeriod _ _) as [from to]. unfold discard.
  apply unmailed_bind; [apply unmailed_attempt, runTenant_unset|intros; apply unmailed_quiet, mails_ret].
Qed.
End unset.

(** a self-hosted instance mails no digest.  Whatever the database holds, a
    cycle on the scheduler's pool connection, where no tenant is set, mails nobody
    when the sender is the tenants' own providers: the mails are sent after the
    commit with the cycle's context, on which the active provider is not found.
    The weeks are marked all the same. *)
Theorem self_hosted_digest_lost `{!Driver, !Machine, !Http, !Zones, !MailLibrary, !Config, !MailConfig}
    (lock : lock_answer) (now : Z) (m : mstate) :
  cfg_deploymentMode = DeploymentModeSelfHosted → app_tenant (m_db m) = "" →
  ∃ net, m_net (runCycle newEmailSender lock now m).2 = m_net m ++ net ∧ addressed net = [].
Proof.
  intros Hc Hm. unfold newEmailSender. rewrite Hc. cbn [String.eqb].
  destruct (runCycle_unset emailLayoutFromConfig lock now m Hm) as (_ & net & N & E). eauto.
Qed.

(** ** Examples and witnesses *)

(** Los Angeles around 2024-03-10, when its clock went forward. *)
Definition la : demo_location := DemoShift 1710064800 (-28800) (-25200).
Definition dst : Z := 1710064800.
Definition stretch : Z := 60 * seconds_per_day.
Lemma la_steady : @steady_nine demo_zones la (dst - stretch) (dst + stretch) dst (-28800) (-25200).
Proof.
  split; [|done|].
  - split; [..|done|done].
    + intros x Hx. unfold zone_offset. cbn. unfold dst in *. destruct (Z.ltb_spec x 1710064800); [done|lia].
    + intros x Hx. unfold zone_offset. cbn. unfold dst in *. destruct (Z.ltb_spec x 1710064800); [lia|done].
  - intros day. unfold seconds_per_day, nine_oclock, dst. cbn. lia.
Qed.

(** Thursday 2024-03-14 in Los Angeles: the fire was Monday at 16:00 UTC. *)
Definition thursday : Z := 1710374400 * second.
Lemma weeklyDigestFire_last_monday_witness :
  @weeklyDigestFire demo_zones thursday la = 1710172800 * second ∧
  @is_monday_nine demo_zones la (1710172800 * second).
Proof.
  destruct (@weeklyDigestFire_last_monday demo_zones demo_zones_laws la (dst - stretch) (dst + stretch) dst
    (-28800) (-25200) thursday la_steady ltac:(vm_compute; split; congruence)) as (_ & Hmon & _).
  split; [vm_compute; reflexivity|]. exact Hmon.
Defined.

Definition la_tenant (sent : option Z) : Tenant :=
  let t := new_tenant "t1" "Acme" "a@a.example" 0 in
  {| TenID := "t1"; TenName := "Acme"; TenSlug := None; TenPlan := "free"; TenStatus := "active";
     TenContactEmail := ""; TenLogoData := None; TenLogoContentType := None; TenLegalName := None;
     TenTaxID := None; TenTaxIDType := None; TenBillingAddress := None; TenLocale := "pt-BR";
     TenPrimaryColor := None; TenSecondaryColor := None; TenWebsite := None;
     TenTimezone := Some "America/Los_Angeles (GMT-8)"; TenDeletedAt := None; TenCreatedAt := 0;
     TenLastDigestSentAt := sent |}.

(** Sent 23 hours late before the change, due an hour after the next fire. *)
Lemma no_week_skipped_witness :
  let sent := (1709571600 + 23 * 3600) * second in
  @digestDue demo_zones (la_tenant (Some sent)) (1710176400 * second) = (1710172800 * second, true).
Proof.
  intros sent.
  assert (@TenantLocation demo_zones (TenTimezone (la_tenant (Some sent))) = la) as Hl by (vm_compute; reflexivity).
  pose proof (@no_week_skipped demo_zones demo_zones_laws (la_tenant (Some sent)) (dst - stretch) (dst + stretch) dst
    (-28800) (-25200) sent (1710176400 * second)) as H. cbv zeta in H. rewrite Hl in H.
  assert (@weeklyDigestFire demo_zones (1710176400 * second) la = 1710172800 * second) as Hf by (vm_compute; reflexivity).
  rewrite Hf in H. apply H; [apply la_steady|done|vm_compute; congruence|vm_compute; congruence|vm_compute; reflexivity
    |reflexivity|vm_compute; reflexivity|vm_compute; congruence|vm_compute; split; congruence].
Defined.

(** Monday 2024-03-11, 09:01 in Sao Paulo, the tenants' default. *)
Definition monday_tick : Z := (1710158400 + 60) * second.
Definition demo_cycle (cfg : Config) (driver : Driver) (m : mstate) : mstate :=
  (@runCycle driver demo_zones cfg
     (@newEmailSender numbered demo_machine demo_http demo_zones demo_library cfg demo_mail_config)
     LockTaken monday_tick m).2.

Lemma demo_keyed : tenants_keyed demo_identity.
Proof.
  intros k t. cbn. rewrite lookup_insert_Some, lookup_singleton_Some. intros [[<- <-]|[_ [<- <-]]]; done.
Qed.

(** In saas mode the owner of t1 asked for it; t2's owner did not. *)
Lemma digest_cycle_safe_witness :
  let m := mail_state "" false demo_db in
  addressed (m_net (demo_cycle saas numbered m)) = ["owner@a.example"] ∧
  ∃ row, tenants demo_identity !! "t1" = Some row ∧ (@digestDue demo_zones row monday_tick).2 = true ∧
    tenants (identity_of (demo_cycle saas numbered m)) !! "t1" = Some (set_digest_sent monday_tick row).
Proof.
  intros m. assert (addressed (m_net (demo_cycle saas numbered m)) = ["owner@a.example"]) as Ha by (vm_compute; reflexivity).
  split; [exact Ha|].
  destruct (@digest_cycle_safe numbered demo_machine demo_http demo_zones demo_library saas demo_mail_config
    (@newEmailSender numbered demo_machine demo_http demo_zones demo_library saas demo_mail_config)
    LockTaken monday_tick m _ demo_keyed) as (_ & Hrows & _).
  destruct (Hrows "t1") as [E|Hr]; [exfalso|exact Hr]. revert E. vm_compute. discriminate.
Defined.

(** A cycle, a move to another zone, and a cycle four hours later: one mark. *)
Definition move_west : TenantUpdate :=
  {| UpName := None; UpContactEmail := None; UpLegalName := None; UpTaxID := None; UpTaxIDType := None;
     UpWebsite := None; UpTimezone := Some "America/Los_Angeles (GMT-8)"; UpBillingAddress := None |}.
Definition moved (row : Tenant) (m : mstate) : mstate :=
  set_m_db (set_tables (set_identity (set_tenants (<["t1" := apply_update move_west row]>)
    (identity_of m)) (tables (m_db m))) (m_db m)) m.
Definition life0 : mstate := mail_state "" false demo_db.
Definition life1 : mstate := (@runCycle numbered demo_zones saas demo_sender LockTaken monday_tick life0).2.
Definition row1 : Tenant := default (la_tenant None) (tenants (identity_of life1) !! "t1").
Definition life2 : mstate := moved row1 life1.
Definition later_tick : Z := monday_tick + 4 * hour.
Definition life3 : mstate := (@runCycle numbered demo_zones saas demo_sender LockTaken later_tick life2).2.
Definition life_log : list (string * Z) :=
  ([] ++ weeks_marked monday_tick (identity_of life0) (identity_of life1)) ++
  weeks_marked later_tick (identity_of life2) (identity_of life3).
Lemma demo_life : @digest_life demo_zones saas demo_sender life0 life_log life3.
Proof.
  apply (@life_cycle demo_zones saas demo_sender life0 _ life2 numbered LockTaken later_tick).
  apply (@life_requests demo_zones saas demo_sender life0 _ life1 life2 numbered 0%nat 1%nat).
  - apply (@life_cycle demo_zones saas demo_sender life0 [] life0 numbered LockTaken monday_tick). apply life_start.
  - apply rtc_once, c_write. unfold life2.
    change (identity_of (moved row1 life1)) with (set_tenants (<["t1" := apply_update move_west row1]>) (identity_of life1)).
    apply (st_tenant_set _ _ "t1" row1); [|done..]. unfold row1.
    destruct (tenants (identity_of life1) !! "t1") as [r|] eqn:E; [done|].
    exfalso. revert E. vm_compute. discriminate.
Qed.
Lemma digests_six_days_apart_witness :
  life_log = [("t1", monday_tick); ("t2", monday_tick)] ∧
  StronglySorted (λ p q : string * Z, p.1 = q.1 → p.2 + digestMinInterval ≤ q.2) life_log.
Proof.
  split; [vm_compute; reflexivity|].
  exact (@digests_six_days_apart demo_machine demo_http demo_zones demo_library saas demo_mail_config
    demo_sender life0 life3 life_log newEmailSender_laws demo_keyed demo_life).
Defined.

(** The tenant's provider is active and the week is marked: nobody is mailed. *)
Definition connected_tenant : mstate :=
  let m1 := (demo_Connect "resend" "re_key" "ops@a.example" "Ops" (mail_state "t1" false demo_db)).2 in
  let m2 := (demo_Activate "resend" m1).2 in
  MState (Session (tables (m_db m2)) "" false None false (tick (m_db m2))) [] (m_ev m2).
Lemma self_hosted_digest_lost_witness :
  email_settings (db_providers (tables (m_db connected_tenant))) !! "t1" = Some (Some "resend") ∧
  last_digest (identity_of (demo_cycle self_hosted numbered connected_tenant)) "t1" = Some monday_tick ∧
  ∃ net, m_net (demo_cycle self_hosted numbered connected_tenant) = [] ++ net ∧ addressed net = [].
Proof.
  split; [vm_compute; reflexivity|]. split; [vm_compute; reflexivity|].
  exact (@self_hosted_digest_lost numbered demo_machine demo_http demo_zones demo_library self_hosted
    demo_mail_config LockTaken monday_tick connected_tenant eq_refl eq_refl).
Defined.
