(* ===== verification/Rdap.v ===== *)
(** * RDAP and nameservers (internal/rdap/client.go, cli/domain_health_scheduler.go)

    Asking a registry when a domain expires and who sold it, and the resolver for
    its nameservers.  The exchange, the resolver and the RFC 3339 parser are the
    parameter [Registry]; a response body is what it decodes to, its vCards still
    raw JSON. *)

From stdpp Require Import numbers strings list.
From Stdlib Require Import ZArith Lia Ascii.
From S2P Require Import Prelude GoNum MailData.

#[local] Open Scope Z_scope.

(** ** The response *)

(** json.RawMessage, as far as it is looked into. *)
Inductive json :=
| JNull
| JString (s : string)
| JArray (l : list json)
| JOther.

Record domainEvent := {
  EventAction : string;
  EventDate : string;
}.
Record domainEntity := {
  EntRoles : list string;
  VCardArray : list json;
}.
Record domainResponse := {
  RdEvents : list domainEvent;
  RdEntities : list domainEntity;
}.

(** What came of the request; a body that could be read is what it decodes to. *)
Inductive rdap_answer :=
| RdapFailed (deadline : bool)
| RdapStatus (status : Z)
| RdapUnread
| RdapBody (parsed : option domainResponse).

Class Registry := {
  rdap_Do : nat → string → rdap_answer;
  LookupNS : nat → string → option (list string);
  parse_RFC3339 : string → option Z;
}.

(** ** vCards *)

(** json.Unmarshal into a string, an array of arrays: null leaves the zero value. *)
Definition unmarshal_string (j : json) : option string :=
  match j with JString s => Some s | JNull => Some "" | _ => None end.
Definition unmarshal_array (j : json) : option (list json) :=
  match j with JArray l => Some l | JNull => Some [] | _ => None end.
Definition unmarshal_props (j : json) : option (list (list json)) :=
  l ← unmarshal_array j; mapM unmarshal_array l.

(** The value of the first "fn" property that can be read. *)
Fixpoint prop_name (props : list (list json)) : option string :=
  match props with
  | [] => None
  | prop :: props =>
      match prop with
      | name :: _ :: _ :: value :: _ =>
          if bool_decide (unmarshal_string name = Some "fn") then
            match unmarshal_string value with Some v => Some v | None => prop_name props end
          else prop_name props
      | _ => prop_name props
      end
  end.
Definition vcardName (vcardArray : list json) : option string :=
  match vcardArray with
  | _ :: card :: _ => props ← unmarshal_props card; prop_name props
  | _ => None
  end.

Definition hasRole (roles : list string) (want : string) : bool := bool_decide (want ∈ roles).

Fixpoint parseRegistrar (entities : list domainEntity) : option string :=
  match entities with
  | [] => None
  | e :: entities =>
      if negb (hasRole (EntRoles e) "registrar") then parseRegistrar entities
      else match vcardName (VCardArray e) with
           | Some name => Some name
           | None => parseRegistrar entities
           end
  end.

(** ** Lookup *)

Definition DefaultBaseURL : string := "https://rdap.org".

(** url.PathEscape: the bytes a path segment may hold stay. *)
Definition path_byte (a : ascii) : bool :=
  let n := nat_of_ascii a in
  ((48 <=? n) && (n <=? 57) || (65 <=? n) && (n <=? 90) || (97 <=? n) && (n <=? 122))%nat ||
  bool_decide (a ∈ ["-"%char; "_"%char; "."%char; "~"%char; "$"%char; "&"%char; "+"%char; ":"%char; "="%char; "@"%char]).
Definition upper_hex (n : nat) : ascii := default "0"%char (String.get n "0123456789ABCDEF").
Fixpoint PathEscape (s : string) : string :=
  match s with
  | EmptyString => EmptyString
  | String a s =>
      if path_byte a then String a (PathEscape s)
      else String "%"%char (String (upper_hex (nat_of_ascii a / 16)) (String (upper_hex (nat_of_ascii a mod 16)) (PathEscape s)))
  end.
Example escape_example : PathEscape "a.b/c d" = "a.b%2Fc%20d".
Proof. vm_compute. reflexivity. Qed.

Section registry.
Context `{!Registry}.

(** The first expiration event: none is no error, an unreadable date is one. *)
Fixpoint parseExpiration (events : list domainEvent) : res unit (option Z) :=
  match events with
  | [] => Ok None
  | e :: events =>
      if negb (String.eqb (EventAction e) "expiration") then parseExpiration events
      else match parse_RFC3339 (EventDate e) with
           | Some t => Ok (Some t)
           | None => Err tt
           end
  end.

Definition rdap_url (hostname : string) : string := DefaultBaseURL +++ "/domain/" +++ PathEscape hostname.

(** Expiration and registrar, or the message of the LookupError. *)
Definition Lookup (ev : nat) (hostname : string) : res string (option Z * option string) :=
  match rdap_Do ev (rdap_url hostname) with
  | RdapFailed deadline => Err (if deadline then "RDAP lookup timed out" else "RDAP request failed")
  | RdapStatus c =>
      Err (if c =? 404 then "domain not found in RDAP registry" else "RDAP request failed with status " +++ dec c)
  | RdapUnread => Err "failed to read RDAP response"
  | RdapBody None => Err "malformed RDAP response"
  | RdapBody (Some parsed) =>
      match parseExpiration (RdEvents parsed) with
      | Err _ => Err "malformed RDAP response"
      | Ok expiresAt => Ok (expiresAt, parseRegistrar (RdEntities parsed))
      end
  end.

(** ** Nameservers *)

(** strings.ToLower of a name's ASCII letters, and without a final dot. *)
Definition lower_ascii (a : ascii) : ascii :=
  let n := nat_of_ascii a in
  if ((65 <=? n) && (n <=? 90))%nat then ascii_of_nat (n + 32) else a.
Fixpoint ToLower (s : string) : string :=
  match s with
  | EmptyString => EmptyString
  | String a s => String (lower_ascii a) (ToLower s)
  end.
Fixpoint trim_dot (s : string) : string :=
  match s with
  | EmptyString => EmptyString
  | String a EmptyString => if Ascii.eqb a "."%char then EmptyString else s
  | String a s => String a (trim_dot s)
  end.

(** sort.Strings *)
Fixpoint insert_string (x : string) (l : list string) : list string :=
  match l with
  | [] => [x]
  | y :: l' => if String.ltb y x then y :: insert_string x l' else x :: l
  end.
Definition sort_Strings (l : list string) : list string := foldr insert_string [] l.

Definition defaultLookupNS (ev : nat) (hostname : string) : option (list string) :=
  (λ records, sort_Strings ((λ r, ToLower (trim_dot r)) <$> records)) <$> LookupNS ev hostname.
End registry.

Definition nsSetsEqual (a b : list string) : bool :=
  if negb (Nat.eqb (length a) (length b)) then false
  else bool_decide (sort_Strings a = sort_Strings b).
Definition nsDrift (expected current : list string) : bool :=
  match expected with
  | [] => false
  | _ => negb (nsSetsEqual expected current)
  end.
