(* ===== verification/DomainHealth.v ===== *)
(** * The daily domain check (cli/domain_health_scheduler.go)

    At each midnight UTC the replica with the lock asks, for every domain of every
    tenant, the registry and the resolver; writes what it learned in a short tenant
    transaction; and mails the alerts after that commit, each in a tenant
    transaction of its own. *)

From stdpp Require Import numbers strings gmap list.
From Stdlib Require Import ZArith Lia Floats.
From S2P Require Import Prelude GoNum GoFloat GoTime Db Schema World Identity Secrets Domains Accounts Tenants Api Inert AuthApi AccountApi MailData Connectors Mail Notify Digest Rdap.

#[local] Open Scope Z_scope.
#[local] Open Scope go_scope.

Definition domainHealthPageSize : Z := 100.

(** ** Days and thresholds *)

(** time.Duration.Hours *)
Definition Hours (d : Z) : float :=
  (float_of_int64 (go_div d hour) + float_of_int64 (go_mod d hour) / 3600000000000)%float.
Definition daysUntil (from to : Z) : Z := int_of_float (Hours (time_sub to from) / 24)%float.

Definition expirationThreshold7 : Z := 7.
Definition expirationThreshold15 : Z := 15.
Definition expirationThreshold30 : Z := 30.
Definition expirationThreshold (daysRemaining : Z) : Z :=
  if daysRemaining <=? expirationThreshold7 then expirationThreshold7
  else if daysRemaining <=? expirationThreshold15 then expirationThreshold15
  else if daysRemaining <=? expirationThreshold30 then expirationThreshold30
  else 0.

(** Threshold and days remaining, and whether the threshold is newly crossed. *)
Definition expirationAlert (now : Z) (prevExpiresAt prevCheckedAt : option Z) (expiresAt : Z) : Z * Z * bool :=
  let daysRemaining := daysUntil now expiresAt in
  let threshold := expirationThreshold daysRemaining in
  if threshold =? 0 then (0, daysRemaining, false)
  else
    let previous := match prevExpiresAt, prevCheckedAt with
                    | Some e, Some c => expirationThreshold (daysUntil c e)
                    | _, _ => 0
                    end in
    (threshold, daysRemaining, negb (negb (previous =? 0) && (previous <=? threshold))).

Example days_examples :
  (daysUntil 0 (8 * 24 * hour), daysUntil 0 (8 * 24 * hour - 1), daysUntil 0 (-1), daysUntil 0 (- 24 * hour)) =
  (8, 7, 0, -1).
Proof. vm_compute. reflexivity. Qed.

Section health.
Context `{!Driver, !Machine, !Http, !Zones, !MailLibrary, !Config, !MailConfig, !Registry}.

Definition nextDomainHealthFire (now : Z) : Z :=
  let midnight := Date (Year now UTC) (Month now UTC) (Day now UTC) 0 0 0 0 UTC in
  if negb (time_after midnight now) then AddDate midnight 0 0 1 UTC else midnight.

(** A body under the tenant's own transaction. *)
Definition in_tenant_tx {A} (tenantID : string) (body : MM A) : MM A := λ m,
  match BeginTenantTx "" tenantID (m_db m) with
  | (Err e, s) => (Err (ErrStore e), set_m_db s m)
  | (Ok tx, s) =>
      match body (set_m_db tx m) with
      | (Err e, m) => (Err e, set_m_db (tx_rollback (m_db m) s) m)
      | (Ok a, m) =>
          match tx_commit (m_db m) s with
          | (Err e, s) => (Err (ErrStore e), set_m_db s m)
          | (Ok _, s) => (Ok a, set_m_db s m)
          end
      end
  end.

(** ** Every domain of a tenant *)

(** The loop over pages, [fuel] of them at most. *)
Fixpoint list_pages (fuel : nat) (tenantID : string) (page : Z) (all : list Domain) : MM (list Domain) :=
  match fuel with
  | O => ret all
  | S fuel =>
      r <- store (on_db_core (ListDomains tenantID page domainHealthPageSize)) ;;
      let '(items, total) := r in
      let all := all ++ items in
      if bool_decide (items = []) || (total <=? Z.of_nat (length all)) then ret all
      else list_pages fuel tenantID (go_add page 1) all
  end.

(** One page more than there are domains is never reached. *)
Definition listDomains (tenantID : string) : MM (list Domain) := λ m,
  in_tenant_tx tenantID (list_pages (S (size (domains (db_core (tables (m_db m)))))) tenantID 1 []) m.

(** ** One domain *)

Definition persist (tenantID domainID : string) (expiresAt : option Z) (registrar : option string)
    (currentNS : option (list string)) (drift : bool) (rdapErr : option string) : MM unit :=
  in_tenant_tx tenantID
    (store (on_db_core (SetHealthCheckResult domainID expiresAt registrar currentNS drift rdapErr))).

(** What is recorded of a lookup: expiration, registrar and error. *)
Definition learned (domain : Domain) (r : res string (option Z * option string)) :
    option Z * option string * option string :=
  match r with
  | Err msg => (DomExpiresAt domain, Registrar domain, Some msg)
  | Ok (expiresAt, registrar) =>
      (match expiresAt with Some _ => expiresAt | None => DomExpiresAt domain end, registrar, None)
  end.

Definition drift_summary (tenant : Tenant) (domain : Domain) (currentNS : option (list string)) :
    option DomainNSDriftSummary :=
  match currentNS with
  | Some ns =>
      if nsDrift (default [] (ExpectedNS domain)) ns
      then Some {| DnsDomainID := DomID domain; DnsHostname := Hostname domain;
                   DnsExpectedNS := default [] (ExpectedNS domain); DnsCurrentNS := ns;
                   DnsTenantName := TenName tenant |}
      else None
  | None => None
  end.
Definition expiring_summary (tenant : Tenant) (domain : Domain) (now : Z) (expiresAt : option Z)
    (rdapErr : option string) : option DomainExpiringSummary :=
  match rdapErr, expiresAt with
  | None, Some e =>
      let '(threshold, days, crossed) := expirationAlert now (DomExpiresAt domain) (LastRDAPSuccessAt domain) e in
      if crossed
      then Some {| DesDomainID := DomID domain; DesHostname := Hostname domain; DesDaysRemaining := days;
                   DesThresholdDays := threshold; DesTenantName := TenName tenant |}
      else None
  | _, _ => None
  end.

Context (sender : Sender).

(** An alert, if there is one; what fails is logged. *)
Definition notifyTenantScoped {A} (tenantID : string) (fn : A → MM unit) (summary : option A) : MM unit :=
  match summary with
  | None => ret tt
  | Some summary => discard (attempt (in_tenant_tx tenantID (fn summary)))
  end.

Definition checkAndPersist (tenant : Tenant) (domain : Domain) (now : Z) : MM unit :=
  n <- question ;;
  let '(expiresAt, registrar, rdapErr) := learned domain (Lookup n (Hostname domain)) in
  k <- question ;;
  let currentNS := defaultLookupNS k (Hostname domain) in
  let drift := drift_summary tenant domain currentNS in
  let expiring := expiring_summary tenant domain now expiresAt rdapErr in
  persist (TenID tenant) (DomID domain) expiresAt registrar currentNS (negb (is_none drift)) rdapErr ;;;
  notifyTenantScoped (TenID tenant) (NotifyDomainExpiring sender "" (TenID tenant)) expiring ;;;
  notifyTenantScoped (TenID tenant) (NotifyDomainNSDrift sender "" (TenID tenant)) drift.

(** ** The cycle: a failure is logged and the next one goes on *)

Definition check_domains (tenant : Tenant) (now : Z) (l : list Domain) : MM unit :=
  send_each (λ domain, checkAndPersist tenant domain now) l.
Definition health_runTenant (tenant : Tenant) (now : Z) : MM unit :=
  domains <- listDomains (TenID tenant) ;;
  check_domains tenant now domains.
Definition health_runOnce (now : Z) : MM unit :=
  tenants <- store (on_identity ListAllTenants) ;;
  send_each (λ tenant, health_runTenant tenant now) tenants.
Definition health_runCycle (lock : lock_answer) (now : Z) : MM unit :=
  match lock with
  | LockTaken => discard (attempt (health_runOnce now))
  | LockFailed | LockHeld => ret tt
  end.
End health.
