(* ===== verification/DomainHealthRun.v ===== *)
(** * A domain check and its cycle

    What one domain's check, a tenant's and a cycle leave in the database and send
    to the outside, that every domain of a tenant is read, when the cycle fires. *)

From stdpp Require Import numbers strings gmap list sorting.
From Stdlib Require Import ZArith Lia.
From S2P Require Import Prelude GoNum GoTime Db Schema World Identity Secrets Domains Auth Accounts TwoFactor LLMProviders Providers Tenants Api Inert AuthApi AccountApi AccountDemo MailData Connectors Mail MailDelivery Notify Digest DigestRun Rdap DomainHealth SiteInv.

#[local] Open Scope Z_scope.
#[local] Open Scope go_scope.

(** ** What a check may do *)

Section effects.
Context `{!Registry}.





End effects.

(** *** Sets of nameservers *)

Lemma insert_string_perm x l : insert_string x l ≡ₚ x :: l.
Proof.
  induction l as [|y l IH]; [done|]. cbn. destruct (String.ltb y x); [|done].
  rewrite IH. constructor.
Qed.
Lemma sort_Strings_perm l : sort_Strings l ≡ₚ l.
Proof. induction l as [|x l IH]; [done|]. cbn. by rewrite insert_string_perm, IH. Qed.
Lemma string_ltb_le x y : String.ltb x y = false ↔ String.le y x.
Proof.
  unfold String.ltb, String.le, String.leb. rewrite String.compare_antisym.
  by destruct (String.compare y x); cbn.
Qed.
Lemma insert_string_sorted x l : Sorted String.le l → Sorted String.le (insert_string x l).
Proof.
  induction 1 as [|y l Hl IH Hy]; [by repeat constructor|]. cbn.
  destruct (String.ltb y x) eqn:E.
  - constructor; [done|]. assert (String.le y x) as Hyx.
    { apply string_ltb_le. unfold String.ltb in *. rewrite String.compare_antisym. by destruct (String.compare y x). }
    destruct Hy as [|z l Hz]; cbn; [by constructor|]. destruct (String.ltb z x); by constructor.
  - apply string_ltb_le in E. by repeat constructor.
Qed.
Lemma sort_Strings_sorted l : Sorted String.le (sort_Strings l).
Proof. induction l as [|x l IH]; [constructor|]. by apply insert_string_sorted. Qed.

Lemma nsSetsEqual_perm a b : nsSetsEqual a b = true ↔ a ≡ₚ b.
Proof.
  unfold nsSetsEqual. destruct (Nat.eqb_spec (length a) (length b)) as [_|Hne]; cbn.
  - rewrite bool_decide_eq_true. split.
    + intros E. by rewrite <- (sort_Strings_perm a), E, sort_Strings_perm.
    + intros E. apply (Sorted_unique String.le); [apply sort_Strings_sorted..|]. by rewrite !sort_Strings_perm.
  - split; [done|]. by intros ?%Permutation_length.
Qed.
Lemma nsDrift_perm expected current :
  nsDrift expected current = true ↔ expected ≠ [] ∧ ¬ expected ≡ₚ current.
Proof.
  unfold nsDrift. destruct expected as [|x l]; [naive_solver|].
  rewrite negb_true_iff, <- nsSetsEqual_perm. destruct (nsSetsEqual _ _); naive_solver.
Qed.

(** ** One transaction *)

Section health.
Context `{!Driver, !Machine, !Http, !Zones, !MailLibrary, !Config, !MailConfig, !Registry}.





(** ** One alert *)

Context (sender : Sender) `{!SenderLaws sender}.



(** ** One domain *)






(** ** Steps that touch different domains *)






(** ** Every domain is read *)







(** ** A tenant's domains *)




(** ** The cycle *)



(** ** On a server that answers *)

Context (answers : ∀ n, event_fails n = false).

End health.

(** ** Properties *)



(** a nameserver alert is for a different set, not for another order: drift is
    a learned baseline that the current answer is not a permutation of, whatever
    order the resolver gave it in. *)
Theorem nsDrift_iff `{!Registry} (expected current : list string) (ev1 ev2 : nat) (hostname : string) :
  (nsDrift expected current = true ↔ expected ≠ [] ∧ ¬ expected ≡ₚ current) ∧
  ∀ l1 l2, LookupNS ev1 hostname = Some l1 → LookupNS ev2 hostname = Some l2 → l1 ≡ₚ l2 →
    defaultLookupNS ev1 hostname = defaultLookupNS ev2 hostname.
Proof.
  split; [apply nsDrift_perm|]. intros l1 l2 E1 E2 Hp. unfold defaultLookupNS. rewrite E1, E2. cbn. f_equal.
  apply (Sorted_unique String.le); [apply sort_Strings_sorted..|]. rewrite !sort_Strings_perm. by rewrite Hp.
Qed.

(** the check fires daily: the next fire is a midnight UTC after [now], at most
    a day away. *)
Theorem nextDomainHealthFire_spec `{!Zones} (now : Z) :
  ZonesLaws _ →
  now < nextDomainHealthFire now ≤ now + 24 * hour ∧ nextDomainHealthFire now mod (24 * hour) = 0.
Proof.
  intros HL. unfold nextDomainHealthFire.
  assert (∀ sec, resolve sec UTC = sec) as Hres.
  { intros sec. unfold resolve. pose proof (utc_offset sec) as Ho. unfold zone_offset in Ho.
    destruct (lookup_zone UTC sec) as [[o st] en]. cbn in Ho. by rewrite Ho. }
  assert (∀ t, local_seconds t UTC = t / second) as Hsec.
  { intros t. unfold local_seconds, unix. rewrite utc_offset. lia. }
  assert (∀ t k, Date (Year t UTC) (Month t UTC) (Day t UTC + k) 0 0 0 0 UTC =
            (t / second / seconds_per_day + k) * seconds_per_day * second) as Hdate.
  { intros t k. unfold Year, Month, Day. rewrite Date_of_days, Hres by done.
    unfold local_days. rewrite Hsec. lia. }
  pose proof (Hdate now 0) as E. rewrite !Z.add_0_r in E. rewrite E. clear E.
  set (mid := now / second / seconds_per_day * seconds_per_day * second).
  assert (mid ≤ now < mid + 24 * hour ∧ mid mod (24 * hour) = 0) as [Hmid Hmod].
  { change (24 * hour) with (seconds_per_day * second). unfold mid. rewrite <- Z.mul_assoc. split.
    - change second with 1000000000. unfold seconds_per_day. Z.to_euclidean_division_equations; lia.
    - by apply Z.mod_mul. }
  assert (time_after mid now = false) as -> by (apply Z.ltb_ge; lia). cbn [negb].
  assert (AddDate mid 0 0 1 UTC = mid + 24 * hour) as ->.
  { assert (mid / second = now / second / seconds_per_day * seconds_per_day) as Em by by apply Z.div_mul.
    unfold AddDate. assert (local_clock mid UTC = 0) as Ec.
    { unfold local_clock. rewrite Hsec, Em. by apply Z.mod_mul. }
    assert (nsec_of mid = 0) as En by by apply Z.mod_mul.
    unfold Hour, Minute, Second. rewrite Ec, En, !Z.add_0_r. change (0 / 3600) with 0. change (0 mod 3600 / 60) with 0.
    change (0 mod 60) with 0. rewrite Hdate, Em, Z.div_mul by done. unfold mid.
    change (24 * hour) with (seconds_per_day * second). lia. }
  split; [lia|]. rewrite <- Zplus_mod_idemp_r, Z.mod_same, Z.add_0_r by done. done.
Qed.

(** ** Examples and witnesses *)

Definition demo_domain : Domain := new_domain "d1" "a.example" "tok" 0.
Definition health_db : database :=
  set_db_core (set_domains (λ _, {["d1" := {| dom_tenant := "t1"; dm := demo_domain |}]}) empty_core) demo_db.
(** A registry where the domain expires at [e]; nameservers in capitals. *)
Definition demo_registry (e : Z) : Registry := {|
  rdap_Do _ _ := RdapBody (Some {| RdEvents := [{| EventAction := "expiration"; EventDate := "" |}];
                                   RdEntities := [] |});
  LookupNS _ _ := Some ["NS2.A.EXAMPLE."; "ns1.a.example."];
  parse_RFC3339 _ := Some e;
|}.
(** A server that answers, all day at the same time. *)
Definition at_clock (c : Z) : Driver :=
  {| event_fails _ := false; gen_uuid := @gen_uuid numbered; clock _ := c; text_le := @text_le numbered |}.

Definition day : Z := 24 * hour.
Definition midnight0 : Z := 19800 * day.

(** The cycle of day [k]: it fires at midnight and its write is ten seconds later. *)
Definition health_day (e k : Z) (m : mstate) : mstate :=
  (@health_runCycle (at_clock (midnight0 + k * day + 10 * second)) demo_zones saas (demo_registry e) demo_sender
     LockTaken (midnight0 + k * day) m).2.
(** The first [n] days. *)
Fixpoint health_days (e : Z) (n : nat) (m : mstate) : mstate :=
  match n with
  | O => m
  | S n => health_day e (Z.of_nat n) (health_days e n m)
  end.

(** a domain that expires in the first seconds after a midnight is never
    announced.  expirationAlert compares the threshold at the cycle's start with
    the one at the time the previous check was written, not at the time it started:
    with daily cycles that write ten seconds after midnight, a registration that
    ends five seconds after a midnight crosses each threshold between the two, and
    forty-five days of answered checks, past its end, mail nobody; one that ends at
    noon is announced three times to both who want to know. *)
Theorem expiry_alert_lost :
  let early := midnight0 + 40 * day + 5 * second in
  let noon := midnight0 + 40 * day + 12 * hour in
  let life e := health_days e 45 (mail_state "" false health_db) in
  let row m := dm <$> domains (db_core (tables (m_db m))) !! "d1" in
  addressed (m_net (life early)) = [] ∧
  (row (life early) ≫= DomExpiresAt) = Some early ∧
  (row (life early) ≫= LastRDAPSuccessAt) = Some (midnight0 + 44 * day + 10 * second) ∧
  addressed (m_net (life noon)) =
    ["owner@a.example"; "op@a.example"; "owner@a.example"; "op@a.example"; "owner@a.example"; "op@a.example"].
Proof. vm_compute. done. Qed.




Lemma nsDrift_iff_witness :
  @defaultLookupNS (demo_registry 0) 0 "a.example" = Some ["ns1.a.example"; "ns2.a.example"] ∧
  @defaultLookupNS (demo_registry 0) 0 "a.example" = @defaultLookupNS (demo_registry 0) 1 "a.example" ∧
  nsDrift ["ns2.a.example"; "ns1.a.example"] ["ns1.a.example"; "ns2.a.example"] = false.
Proof.
  split; [vm_compute; reflexivity|]. split.
  - eapply (@nsDrift_iff (demo_registry 0) [] [] 0 1 "a.example"); [reflexivity|reflexivity|reflexivity].
  - vm_compute. reflexivity.
Defined.

Lemma nextDomainHealthFire_spec_witness :
  @nextDomainHealthFire demo_zones (midnight0 + 1) = midnight0 + day ∧
  midnight0 + 1 < @nextDomainHealthFire demo_zones (midnight0 + 1).
Proof.
  split; [vm_compute; reflexivity|].
  apply (@nextDomainHealthFire_spec demo_zones (midnight0 + 1) demo_zones_laws).
Defined.
