(* ===== verification/Datadog.v ===== *)
(** * The Datadog client (internal/connectors/datadog/client.go)

    The requests of the four calls, the classification of their outcome, and what
    is made of a decoded body.  The exchange, and json's decoding of a body into
    the response structs, are the parameter [DatadogHttp]; the n-th question is
    answered by its n-th answer.  Logging the rate limit is left out. *)

From stdpp Require Import numbers strings gmap list.
From Stdlib Require Import ZArith Lia Floats Ascii.
From S2P Require Import Prelude GoNum GoFloat GoTime Retry BurnRate World MailData Rdap.

#[local] Open Scope Z_scope.

(** ** Decoded bodies *)

Record sloHistoryMetric := {
  ShSum : option float;
  ShValues : list float;
}.
Record historySeries := {
  ShInterval : float;
  ShTimes : list float;
  Numerator : sloHistoryMetric;
  Denominator : sloHistoryMetric;
}.
Record sloHistoryResponse := {
  OverallSLIValue : float;
  OverallState : string;
  Series : historySeries;
  Thresholds : gmap string (float * string);   (* target, timeframe *)
}.

Record sloFound := {
  SfID : string;
  SfName : string;
  SfSLOType : string;
  SfServiceTags : list string;
}.
Record includedIssue := {
  IiID : string;
  IiErrorType : string;
  IiErrorMessage : string;
}.
Record errorTrackingSearchResponse := {
  EtIssueIDs : list string;      (* data[i].relationships.issue.data.id *)
  EtIncluded : list includedIssue;
}.

(** ** The exchange *)

Record dd_request := {
  DdMethod : string;
  DdURL : string;
  DdHeader : list (string * string);
  DdBody : option (string * Z * Z * string * string);   (* query, from, to, track, order_by *)
}.
Inductive dd_answer (B : Type) :=
| DdAnswered (status : Z) (body : B)
| DdTimedOut
| DdBroken (err : string).
Arguments DdAnswered {B} status body.
Arguments DdTimedOut {B}.
Arguments DdBroken {B} err.

Class DatadogHttp := {
  dd_body : Type;
  dd_Do : nat → dd_request → dd_answer dd_body;
  decode_history : dd_body → res string sloHistoryResponse;
  decode_search : dd_body → res string (list sloFound);
  decode_issues : dd_body → res string errorTrackingSearchResponse;
}.


(** The outcome of get and post: the body of a 200. *)
Definition dd_classify {B} (a : dd_answer B) : res fetch_err B :=
  match a with
  | DdTimedOut => Err ErrTimeout
  | DdBroken e => Err (ErrOther ("datadog: request failed: " +++ e))
  | DdAnswered c body =>
      if (c =? 401) || (c =? 403) then Err ErrUnauthorized
      else if c =? 404 then Err ErrSLONotFound
      else if 500 <=? c then Err ErrServer
      else if negb (c =? 200) then Err (ErrOther ("datadog: unexpected status " +++ dec c))
      else Ok body
  end.

Definition decode_failed (e : string) : fetch_err := ErrOther ("datadog: failed to decode response: " +++ e).

(** ** Numbers *)

(** int64(math.Round(x)): to nearest, ties away from zero; what does not fit is
    amd64's indefinite integer. *)
Definition round_int64 (x : float) : Z :=
  match Prim2SF x with
  | S754_zero _ => 0
  | S754_finite s m e =>
      let a := if 0 <=? e then Zpos m * 2 ^ e else (2 * Zpos m + 2 ^ (- e)) / (2 * 2 ^ (- e)) in
      let v := if s then - a else a in
      if bool_decide (int64_min ≤ v ∧ v ≤ int64_max) then v else int64_min
  | _ => int64_min
  end.
Example round_examples :
  (round_int64 44.5, round_int64 44.484375, round_int64 (-0.5), round_int64 45, round_int64 infinity) =
  (45, 44, -1, 45, int64_min).
Proof. vm_compute. reflexivity. Qed.

Definition countsFrom (total good : float) : windowCounts :=
  let requests := Z.max (round_int64 total) 0 in
  let errs := wrap64 (requests - round_int64 good) in
  {| Requests := requests; Errors := Z.min (Z.max errs 0) requests |}.
Definition counts_add (w other : windowCounts) : windowCounts :=
  {| Requests := go_add (Requests w) (Requests other); Errors := go_add (Errors w) (Errors other) |}.

(** The Sum when there is one, else the sum of the Values; None without either. *)
Definition metric_total (m : sloHistoryMetric) : option float :=
  match ShSum m with
  | Some x => Some x
  | None => match ShValues m with
            | [] => None
            | l => Some (foldl (λ acc v, (acc + v)%float) 0%float l)
            end
  end.

(** Milliseconds since the epoch, seconds when they are too few. *)
Definition bucketStart (ts : float) : Z :=
  if flt ts 100000000000 then round_int64 ts * second else round_int64 ts * millisecond.
Definition historyBucket : Z := 60 * second.
Definition seriesInterval (interval : float) (times : list float) : Z :=
  if fgt interval 0 then int_of_float (interval * float_of_int64 second)%float
  else match times with
       | t0 :: t1 :: _ => time_sub (bucketStart t1) (bucketStart t0)
       | _ => 0
       end.

(** The threshold of the first timeframe in the order of sort.Strings. *)
Definition pickThreshold (r : sloHistoryResponse) : float * string :=
  match sort_Strings (fst <$> map_to_list (Thresholds r)) with
  | [] => (0%float, "")
  | tf :: _ => default (0%float, "") (Thresholds r !! tf)
  end.

(** ** The client *)

Section client.
Context `{!DatadogHttp}.
Context (apiKey appKey : string).

Definition dd_defaultBaseURL : string := "https://api.datadoghq.com".
Definition sloSearchPath : string := "/api/v1/slo/search".
Definition errorTrackingSearchPath : string := "/api/v2/error-tracking/issues/search".
Definition maxCauseMessageLength : nat := 500.

Definition dd_keys : list (string * string) := [("DD-API-KEY", apiKey); ("DD-APPLICATION-KEY", appKey)].
Definition dd_get (ev : nat) (endpoint : string) : res fetch_err dd_body :=
  dd_classify (dd_Do ev {| DdMethod := "GET"; DdURL := endpoint; DdHeader := dd_keys; DdBody := None |}).
Definition dd_post (ev : nat) (endpoint : string) (body : string * Z * Z * string * string) : res fetch_err dd_body :=
  dd_classify (dd_Do ev {| DdMethod := "POST"; DdURL := endpoint;
                           DdHeader := dd_keys ++ [("Content-Type", "application/json")]; DdBody := Some body |}).

Definition history_url (sloID : string) (from to : Z) : string :=
  dd_defaultBaseURL +++ "/api/v1/slo/" +++ PathEscape sloID +++ "/history?from_ts=" +++ dec (unix from) +++
  "&to_ts=" +++ dec (unix to).
Definition fetchHistory (ev : nat) (sloID : string) (from to : Z) : res fetch_err sloHistoryResponse :=
  match dd_get ev (history_url sloID from to) with
  | Err e => Err e
  | Ok body => match decode_history body with Ok r => Ok r | Err e => Err (decode_failed e) end
  end.

(** *** FetchSLOStatus *)

Definition FetchSLOStatus (ev : nat) (sloID : string) (from to : Z) : res fetch_err SLOStatus :=
  match fetchHistory ev sloID from to with
  | Err e => Err e
  | Ok parsed =>
      let requests := default 0%float (ShSum (Denominator (Series parsed))) in
      let '(target, timeframe) := pickThreshold parsed in
      Ok {| SsState := OverallState parsed;
            SsErrorBudgetRemaining := (OverallSLIValue parsed - target)%float;
            SsSLI := OverallSLIValue parsed; SsTarget := target; SsTimeframe := timeframe;
            SsRequestCount := round_int64 requests |}
  end.

(** *** FetchSLOWindows *)

Definition no_counts : windowCounts := {| Requests := 0; Errors := 0 |}.

(** One bucket added to the long window, and to the short one when it is in it. *)
Definition add_bucket (longStart shortStart : Z) (w : windowCounts * windowCounts) (b : float * (float * float)) :
    windowCounts * windowCounts :=
  let '(short, long) := w in
  let start := bucketStart b.1 in
  if time_before start longStart then w
  else
    let bucket := countsFrom b.2.1 b.2.2 in
    (if negb (time_before start shortStart) then counts_add short bucket else short, counts_add long bucket).
(** Start, total and good of each bucket; a good count past its series is 0. *)
Definition history_buckets (s : historySeries) : list (float * (float * float)) :=
  let n := Nat.min (length (ShTimes s)) (length (ShValues (Denominator s))) in
  zip (take n (ShTimes s))
    (zip (take n (ShValues (Denominator s))) (take n (ShValues (Numerator s) ++ replicate n 0%float))).
Definition per_bucket (s : historySeries) : bool :=
  negb (Nat.eqb (length (ShTimes s)) 0) && negb (Nat.eqb (length (ShValues (Denominator s))) 0) &&
  (seriesInterval (ShInterval s) (ShTimes s) <=? historyBucket).

Definition windows_of (parsed : sloHistoryResponse) (short long : windowCounts) (hasSeries : bool) : SLOWindows :=
  let '(target, timeframe) := pickThreshold parsed in
  {| SwTarget := target; SwTimeframe := timeframe; SwState := OverallState parsed;
     SwSLI := OverallSLIValue parsed; SwShort := short; SwLong := long; HasSeries := hasSeries |}.

Definition FetchSLOWindows (ev : nat) (sloID : string) (end_ short long : Z) : res fetch_err SLOWindows :=
  let longStart := time_add end_ (- long) in
  let shortStart := time_add end_ (- short) in
  match fetchHistory ev sloID (time_add longStart (- historyBucket)) end_ with
  | Err e => Err e
  | Ok parsed =>
      let s := Series parsed in
      if per_bucket s
      then let '(short, long) := foldl (add_bucket longStart shortStart) (no_counts, no_counts) (history_buckets s) in
           Ok (windows_of parsed short long true)
      else match metric_total (Denominator s) with
           | None => Ok (windows_of parsed no_counts no_counts false)
           | Some total =>
               let good := default 0%float (metric_total (Numerator s)) in
               match fetchHistory (S ev) sloID shortStart end_ with
               | Err e => Err e
               | Ok shortParsed =>
                   let s' := Series shortParsed in
                   Ok (windows_of parsed
                         (countsFrom (default 0%float (metric_total (Denominator s')))
                                     (default 0%float (metric_total (Numerator s'))))
                         (countsFrom total good) true)
               end
           end
  end.

(** *** SearchSLOs *)

Record SLOSummary := {
  SloSumID : string;
  SloSumName : string;
  SloSumType : string;
  SloSumServiceTag : string;
}.

Definition has_colon (s : string) : bool := bool_decide (":"%char ∈ String.list_ascii_of_string s).
(** url.QueryEscape *)
Definition query_byte (a : ascii) : bool :=
  let n := nat_of_ascii a in
  ((48 <=? n) && (n <=? 57) || (65 <=? n) && (n <=? 90) || (97 <=? n) && (n <=? 122))%nat ||
  bool_decide (a ∈ ["-"%char; "_"%char; "."%char; "~"%char]).
Fixpoint QueryEscape (s : string) : string :=
  match s with
  | EmptyString => EmptyString
  | String a s =>
      if query_byte a then String a (QueryEscape s)
      else if Ascii.eqb a " "%char then String "+"%char (QueryEscape s)
      else String "%"%char (String (upper_hex (nat_of_ascii a / 16)) (String (upper_hex (nat_of_ascii a mod 16))
             (QueryEscape s)))
  end.

Definition wildcard (query : string) : string :=
  if negb (String.eqb query "") && negb (has_colon query) then "*" +++ query +++ "*" else query.
Definition slo_summary (f : sloFound) : SLOSummary :=
  {| SloSumID := SfID f; SloSumName := SfName f; SloSumType := SfSLOType f;
     SloSumServiceTag := match SfServiceTags f with [tag] => tag | _ => "" end |}.
Definition SearchSLOs (ev : nat) (query : string) : res fetch_err (list SLOSummary) :=
  match dd_get ev (dd_defaultBaseURL +++ sloSearchPath +++ "?query=" +++ QueryEscape (wildcard query)) with
  | Err e => Err e
  | Ok body => match decode_search body with Ok l => Ok (slo_summary <$> l) | Err e => Err (decode_failed e) end
  end.

(** *** SearchErrorTrackingIssues *)

Definition UnixMilli (t : Z) : Z := t / millisecond.
(** Type and message of the top issue, when it is among the included ones. *)
Definition top_issue (r : errorTrackingSearchResponse) : option (string * string) :=
  match EtIssueIDs r with
  | [] => None
  | id :: _ =>
      (λ x, (IiErrorType x, String.substring 0 maxCauseMessageLength (IiErrorMessage x))) <$>
        head (filter (λ x, IiID x = id) (EtIncluded r))
  end.
Definition SearchErrorTrackingIssues (ev : nat) (service env : string) (from to : Z) :
    res fetch_err (option (string * string)) :=
  match dd_post ev (dd_defaultBaseURL +++ errorTrackingSearchPath)
          ("service:" +++ service +++ " AND env:" +++ env, UnixMilli from, UnixMilli to, "trace", "TOTAL_COUNT") with
  | Err e => Err e
  | Ok body => match decode_issues body with Ok r => Ok (top_issue r) | Err e => Err (decode_failed e) end
  end.

(** *** ValidateCredentials *)

Definition dd_ValidateCredentials (ev : nat) : res fetch_err unit :=
  match dd_get ev (dd_defaultBaseURL +++ sloSearchPath +++ "?page_size=1") with
  | Err e => Err e
  | Ok _ => Ok tt
  end.
End client.

(** ** Theorems *)

Definition counts_ok (w : windowCounts) : Prop := 0 ≤ Errors w ≤ Requests w ∧ Requests w ≤ int64_max.
Definition counts_le (w w' : windowCounts) : Prop := Requests w ≤ Requests w' ∧ Errors w ≤ Errors w'.

Lemma round_int64_range x : in_int64 (round_int64 x).
Proof.
  unfold round_int64, in_int64. destruct (Prim2SF x) as [| | |s m e]; try (unfold int64_min, int64_max; lia).
  case_bool_decide; [done|]. unfold int64_min, int64_max; lia.
Qed.
Lemma countsFrom_ok total good : counts_ok (countsFrom total good).
Proof.
  destruct (round_int64_range total) as [_ Ht]. unfold counts_ok, countsFrom. cbn [Requests Errors].
  set (e := wrap64 _). assert (0 ≤ int64_max) by done. lia.
Qed.
Lemma countsFrom_requests total good : Requests (countsFrom total good) = Z.max (round_int64 total) 0.
Proof. done. Qed.

(** Sums in Z of the counts of some buckets. *)
Definition counts_of (l : list (float * (float * float))) : list windowCounts := (λ b, countsFrom b.2.1 b.2.2) <$> l.
Definition requests_sum (l : list windowCounts) : Z := foldr (λ w acc, Requests w + acc) 0 l.
Definition errors_sum (l : list windowCounts) : Z := foldr (λ w acc, Errors w + acc) 0 l.

(** The buckets of a window. *)
Definition from_on (start : Z) (l : list (float * (float * float))) : list (float * (float * float)) :=
  filter (λ b, start ≤ bucketStart b.1) l.

Lemma requests_sum_cons w l : requests_sum (w :: l) = Requests w + requests_sum l.
Proof. done. Qed.
Lemma errors_sum_cons w l : errors_sum (w :: l) = Errors w + errors_sum l.
Proof. done. Qed.
Lemma counts_of_cons b l : counts_of (b :: l) = countsFrom b.2.1 b.2.2 :: counts_of l.
Proof. done. Qed.
Lemma from_on_cons start b l :
  from_on start (b :: l) = if decide (start ≤ bucketStart b.1) then b :: from_on start l else from_on start l.
Proof. unfold from_on. rewrite filter_cons. done. Qed.
Create Rewrite HintDb dd_sums.
#[local] Hint Rewrite requests_sum_cons errors_sum_cons counts_of_cons from_on_cons : dd_sums.

Lemma sums_ok l : Forall counts_ok l → 0 ≤ errors_sum l ≤ requests_sum l.
Proof.
  induction 1 as [|w l Hw _ IH]; [cbn; lia|]. destruct Hw. autorewrite with dd_sums. lia.
Qed.
Lemma counts_of_ok l : Forall counts_ok (counts_of l).
Proof. unfold counts_of. apply Forall_fmap, Forall_forall. intros b _. apply countsFrom_ok. Qed.

Lemma from_on_sums start l :
  requests_sum (counts_of (from_on start l)) ≤ requests_sum (counts_of l) ∧
  errors_sum (counts_of (from_on start l)) ≤ errors_sum (counts_of l).
Proof.
  induction l as [|b l IH]; [cbn; lia|]. destruct (countsFrom_ok b.2.1 b.2.2).
  autorewrite with dd_sums. case_decide; autorewrite with dd_sums; lia.
Qed.

#[local] Opaque countsFrom.
#[local] Arguments requests_sum : simpl never.
#[local] Arguments errors_sum : simpl never.
#[local] Arguments counts_of : simpl never.
(** The loop over the buckets is the two sums, when they fit. *)
Lemma add_buckets_spec longStart shortStart l short long :
  longStart ≤ shortStart →
  counts_ok short → counts_ok long → counts_le short long →
  Requests long + requests_sum (counts_of l) ≤ int64_max →
  let L := counts_of (from_on longStart l) in
  let S := counts_of (from_on shortStart l) in
  foldl (add_bucket longStart shortStart) (short, long) l =
    ({| Requests := Requests short + requests_sum S; Errors := Errors short + errors_sum S |},
     {| Requests := Requests long + requests_sum L; Errors := Errors long + errors_sum L |}).
Proof.
  intros Hle. revert short long. induction l as [|b l IH]; intros short long Hs Hl Hsl Hsum; simpl.
  { destruct short, long; simpl. by rewrite !Z.add_0_r. }
  destruct (countsFrom_ok b.2.1 b.2.2) as [Hb1 Hb2]. destruct Hs, Hl, Hsl.
  autorewrite with dd_sums in Hsum |- *.
  pose proof (sums_ok _ (counts_of_ok l)) as Hrest. unfold time_before.
  destruct (Z.ltb_spec (bucketStart b.1) longStart).
  { rewrite !decide_False by lia. apply IH; unfold counts_ok, counts_le; lia. }
  rewrite (decide_True (P := longStart ≤ _)) by lia.
  assert (Hadd : ∀ w, counts_ok w → counts_le w long →
    counts_add w (countsFrom b.2.1 b.2.2) =
    {| Requests := Requests w + Requests (countsFrom b.2.1 b.2.2); Errors := Errors w + Errors (countsFrom b.2.1 b.2.2) |}).
  { intros w [] []. unfold counts_add, go_add. by rewrite !wrap64_id by (unfold in_int64, int64_min in *; lia). }
  rewrite (Hadd long) by (unfold counts_ok, counts_le; lia).
  destruct (Z.ltb_spec (bucketStart b.1) shortStart); simpl.
  - rewrite (decide_False (P := shortStart ≤ _)) by lia.
    rewrite IH by (unfold counts_ok, counts_le; simpl; lia). autorewrite with dd_sums. simpl. do 2 f_equal; lia.
  - rewrite (decide_True (P := shortStart ≤ _)) by lia.
    rewrite (Hadd short) by (unfold counts_ok, counts_le; lia).
    rewrite IH by (unfold counts_ok, counts_le; simpl; lia). autorewrite with dd_sums. simpl. do 2 f_equal; lia.
Qed.

Lemma from_on_from_on a b l : a ≤ b → from_on b (from_on a l) = from_on b l.
Proof.
  intros Hab. unfold from_on. rewrite list_filter_filter_l; [done|]. simpl. intros x Hx. lia.
Qed.

Lemma truncated_length n s : (String.length (String.substring 0 n s) ≤ n)%nat.
Proof. revert s. induction n as [|n IH]; intros [|a s]; simpl; try lia. specialize (IH s). lia. Qed.
Lemma truncated_prefix n s : String.prefix (String.substring 0 n s) s = true.
Proof.
  revert s. induction n as [|n IH]; intros [|a s]; simpl; try done.
  destruct (Ascii.ascii_dec a a); [apply IH|done].
Qed.

Section windows.
Context `{DatadogHttp}.

Lemma no_counts_ok : counts_ok no_counts.
Proof. done. Qed.

(** C29: the counts the poller classifies from are sane, when the series' requests
    together fit int64 (the clamped counts of all its buckets) and the short window
    is no longer than the long one.  Whatever floats Datadog answers then, a
    successful FetchSLOWindows gives both windows 0 <= errors <= requests within
    int64.  When the series is per bucket (buckets of at most a minute) each window
    is exactly the sum, in Z, of the clamped counts of the buckets that start in it
    -- a bucket that starts before the window is discarded -- and the short window
    is within the long one; on the other path only the bounds are claimed.
    HasSeries is false exactly when the answer holds no request count at all, and
    then both windows are zero. *)
Theorem FetchSLOWindows_spec ak pk ev sloID end_ short long parsed w :
  short ≤ long →
  fetchHistory ak pk ev sloID (time_add (time_add end_ (- long)) (- historyBucket)) end_ = Ok parsed →
  requests_sum (counts_of (history_buckets (Series parsed))) ≤ int64_max →
  FetchSLOWindows ak pk ev sloID end_ short long = Ok w →
  counts_ok (SwShort w) ∧ counts_ok (SwLong w) ∧
  (per_bucket (Series parsed) = true →
     let win d := counts_of (from_on (end_ - d) (history_buckets (Series parsed))) in
     SwShort w = {| Requests := requests_sum (win short); Errors := errors_sum (win short) |} ∧
     SwLong w = {| Requests := requests_sum (win long); Errors := errors_sum (win long) |} ∧
     counts_le (SwShort w) (SwLong w)) ∧
  (HasSeries w = false ↔
     per_bucket (Series parsed) = false ∧ metric_total (Denominator (Series parsed)) = None) ∧
  (HasSeries w = false → SwShort w = no_counts ∧ SwLong w = no_counts).
Proof.
  intros Hle Hf Hsum. unfold FetchSLOWindows. rewrite Hf. unfold windows_of, time_add, historyBucket in *.
  destruct (pickThreshold parsed) as [target timeframe].
  destruct (per_bucket (Series parsed)) eqn:Hpb; cycle 1.
  { destruct (metric_total (Denominator (Series parsed))) as [total|] eqn:Ht.
    - destruct (fetchHistory ak pk (S ev) sloID (end_ + - short) end_) as [sp|]; [|done]. intros [= <-]; cbn [SwShort SwLong HasSeries].
      split_and!; try apply countsFrom_ok; naive_solver.
    - intros [= <-]; cbn [SwShort SwLong HasSeries]. split_and!; try apply no_counts_ok; naive_solver. }
  rewrite (add_buckets_spec (end_ + - long) (end_ + - short)) by
    (try apply no_counts_ok; try (split; simpl; lia); simpl; lia).
  intros [= <-]; cbn [SwShort SwLong HasSeries].
  change (Requests no_counts) with 0. change (Errors no_counts) with 0. rewrite !Z.add_0_l.
  set (L := from_on (end_ + - long) _). set (S := from_on (end_ + - short) _).
  assert (HS : S = from_on (end_ + - short) L) by (unfold S, L; rewrite from_on_from_on; [done|lia]).
  pose proof (from_on_sums (end_ + - long) (history_buckets (Series parsed))) as [HL1 HL2].
  pose proof (from_on_sums (end_ + - short) L) as [HS1 HS2]. rewrite <- HS in HS1, HS2. fold L in HL1, HL2.
  pose proof (sums_ok _ (counts_of_ok L)). pose proof (sums_ok _ (counts_of_ok S)).
  unfold counts_ok, counts_le; cbn [Requests Errors].
  rewrite <- !Z.add_opp_r. fold L S. split_and!; try lia; try done; naive_solver.
Qed.

(** the cause told to the language model is bounded and about the top issue.
    A hint of SearchErrorTrackingIssues is the type of the first issue Datadog
    ranks -- which is in the included list under that id -- and a prefix of its
    message, never longer than 500 bytes. *)
Theorem cause_of_top_issue ak pk ev service env from to ty message :
  SearchErrorTrackingIssues ak pk ev service env from to = Ok (Some (ty, message)) →
  (String.length message ≤ maxCauseMessageLength)%nat ∧
  ∃ r id rest x, EtIssueIDs r = id :: rest ∧ x ∈ EtIncluded r ∧ IiID x = id ∧ IiErrorType x = ty ∧
    String.prefix message (IiErrorMessage x) = true.
Proof.
  unfold SearchErrorTrackingIssues. destruct (dd_post _ _ _ _) as [body|]; [|done].
  destruct (decode_issues body) as [r|]; [|done]. intros [= Ht]. unfold top_issue in Ht.
  destruct (EtIssueIDs r) as [|id rest] eqn:Hids; [done|].
  destruct (filter _ _) as [|x l] eqn:Hx; [done|]. injection Ht as <- <-.
  split; [apply truncated_length|].
  assert (x ∈ filter (λ x, IiID x = id) (EtIncluded r)) as [Hid Hin]%list_elem_of_filter by (rewrite Hx; left).
  exists r, id, rest, x. split_and!; try done. apply truncated_prefix.
Qed.
End windows.

(** ** Witnesses *)

Definition sample_series : historySeries := {|
  ShInterval := 60; ShTimes := [1000000000000; 1000000060000; 1000000120000]%float;
  Numerator := {| ShSum := Some 118%float; ShValues := [0; 61; 57]%float |};
  Denominator := {| ShSum := Some 130%float; ShValues := [10; 60; 60]%float |} |}.
Definition sample_history : sloHistoryResponse := {|
  OverallSLIValue := 99; OverallState := "ok"; Series := sample_series; Thresholds := ∅ |}.
Definition sample_http : DatadogHttp := {|
  dd_body := unit; dd_Do := λ _ _, DdAnswered 200 tt;
  decode_history := λ _, Ok sample_history; decode_search := λ _, Ok [];
  decode_issues := λ _, Ok {| EtIssueIDs := ["i1"]; EtIncluded :=
    [{| IiID := "i1"; IiErrorType := "Timeout"; IiErrorMessage := "deadline exceeded" |}] |} |}.

(** Two minutes of which the last bucket is in the short window: the numerator
    ahead of its denominator counts no error, the leading bucket nothing at all. *)
Lemma FetchSLOWindows_spec_witness :
  let end_ := 1000000180 * second in
  ∃ w, FetchSLOWindows (H := sample_http) "k" "a" 0 "slo" end_ (60 * second) (120 * second) = Ok w ∧
    SwShort w = {| Requests := 60; Errors := 3 |} ∧ SwLong w = {| Requests := 120; Errors := 3 |} ∧
    counts_le (SwShort w) (SwLong w).
Proof.
  destruct (FetchSLOWindows (H := sample_http) "k" "a" 0 "slo" (1000000180 * second) (60 * second) (120 * second))
    as [w|] eqn:E; [|vm_compute in E; discriminate].
  exists w. split; [exact E|].
  destruct (FetchSLOWindows_spec (H := sample_http) "k" "a" 0 "slo" (1000000180 * second) (60 * second) (120 * second)
              sample_history w) as (_ & _ & Hb & _); [vm_compute; discriminate|reflexivity|vm_compute; discriminate|exact E|].
  destruct Hb as (H1' & H2' & H3'); [vm_compute; reflexivity|].
  split; [rewrite H1'; vm_compute; reflexivity|]. split; [rewrite H2'; vm_compute; reflexivity|exact H3'].
Defined.

Lemma cause_of_top_issue_witness :
  (String.length "deadline exceeded" ≤ maxCauseMessageLength)%nat ∧
  ∃ r id rest x, EtIssueIDs r = id :: rest ∧ x ∈ EtIncluded r ∧ IiID x = id ∧ IiErrorType x = "Timeout" ∧
    String.prefix "deadline exceeded" (IiErrorMessage x) = true.
Proof.
  apply (cause_of_top_issue (H := sample_http) "k" "a" 0 "api" "prod" 0 hour). vm_compute. reflexivity.
Defined.
