(* ===== verification/Integrations.v ===== *)
(** * The Datadog integration's row (internal/db/integration_repository.go)

    integrations holds a tenant's two encrypted Datadog keys and how the poller
    last found them.  The marks of the poller are [Services.MarkDatadogInvalid] and
    [Services.MarkDatadogChecked]. *)

From stdpp Require Import numbers strings gmap list.
From Stdlib Require Import ZArith Lia.
From S2P Require Import Prelude GoNum Db Schema Services.

#[local] Open Scope Z_scope.
#[local] Open Scope go_scope.

Record Integration := {
  IntID : string;
  IntProvider : string;
  IntEncryptedAPIKey : string;
  IntEncryptedAppKey : string;
  IntStatus : string;
  IntLastCheckedAt : option Z;
  IntLastError : option string;
}.

Section integrations.
Context `{!Driver}.
Implicit Types s : session core.

Definition to_integration (r : integration_row) : Integration :=
  {| IntID := int_id r; IntProvider := "datadog"; IntEncryptedAPIKey := int_encrypted_api_key r;
     IntEncryptedAppKey := int_encrypted_app_key r; IntStatus := int_status r;
     IntLastCheckedAt := int_last_checked_at r; IntLastError := int_last_error r |}.

(** The rows the session sees; UpsertDatadog, which stores no other provider, is the only writer. *)
Definition seen_integrations s : list Integration :=
  (λ kv, to_integration kv.2) <$> filter (λ kv, visible s kv.1 = true) (map_to_list (integrations (tables s))).

Definition new_integration (id encryptedAPIKey encryptedAppKey : string) : integration_row :=
  {| int_id := id; int_encrypted_api_key := encryptedAPIKey; int_encrypted_app_key := encryptedAppKey;
     int_status := "active"; int_last_error := None; int_last_checked_at := None |}.

(** ON CONFLICT (tenant_id, provider) keeps the row's id. *)
Definition UpsertDatadog (encryptedAPIKey encryptedAppKey : string) : M (session core) db_err unit :=
  stmt (λ s,
    match default_tenant s with
    | Err e => Err e
    | Ok t =>
        match integrations (tables s) !! t with
        | Some old =>
            Ok (tt, set_integrations (<[t := new_integration (int_id old) encryptedAPIKey encryptedAppKey]>) (tables s))
        | None =>
            let id := gen_uuid (tick s) in
            if bool_decide (filter (λ kv, int_id kv.2 = id) (map_to_list (integrations (tables s))) = [])
            then Ok (tt, set_integrations (<[t := new_integration id encryptedAPIKey encryptedAppKey]>) (tables s))
            else Err ErrUnique
        end
    end).

Definition GetDatadog : M (session core) db_err Integration :=
  row <- query (λ s, head (seen_integrations s)) ;;
  or_not_found row.

Definition ListIntegrations (page pageSize : Z) : M (session core) db_err (list Integration * Z) :=
  paginated seen_integrations page pageSize.

(** ** Lemmas *)

Lemma isolated_insert_integration t b d u r :
  b = false → t ≠ "" → u = t → isolated t b d (set_integrations (<[u := r]>) d).
Proof.
  intros Hb Ht -> _. split; try done. intros v [->|Hv]; [done|]. cbn. by rewrite lookup_insert_ne.
Qed.

Lemma UpsertDatadog_isolated k a : preserves isolated (UpsertDatadog k a).
Proof.
  apply (preserves_stmt isolated). intros s x d. destruct (default_tenant s) as [t|] eqn:Et; [|done].
  assert (t = app_tenant s ∧ app_tenant s ≠ "") as [-> Hne].
  { unfold default_tenant in Et. destruct (String.eqb_spec (app_tenant s) ""); [done|]. by injection Et as <-. }
  intros Hf Hb. cbv zeta in Hf.
  destruct (integrations (tables s) !! app_tenant s).
  - injection Hf as _ <-. by apply (isolated_insert_integration _ false).
  - destruct (bool_decide _); [|done]. injection Hf as _ <-. by apply (isolated_insert_integration _ false).
Qed.

(** Under row security a session sees the row of its tenant. *)
Lemma seen_own s r :
  bypass_rls s = false → app_tenant s ≠ "" → integrations (tables s) !! app_tenant s = Some r →
  head (seen_integrations s) = Some (to_integration r).
Proof.
  intros Hb Ht Hr. unfold seen_integrations. set (l := filter _ _).
  assert (∀ kv, kv ∈ l ↔ kv = (app_tenant s, r)) as Hl.
  { intros [u r']. unfold l. rewrite list_elem_of_filter, elem_of_map_to_list. cbn. split.
    - intros [Hv Hin]. apply (visible_own _ _ Hb) in Hv as [-> _]. congruence.
    - intros [= -> ->]. split; [|done]. unfold visible.
      by rewrite String.eqb_refl, (proj2 (String.eqb_neq _ _) Ht), orb_true_r. }
  destruct l as [|kv l']; cbn.
  - exfalso. apply (elem_of_nil (app_tenant s, r)). by apply Hl.
  - assert (kv = (app_tenant s, r)) as -> by (apply Hl; left). done.
Qed.

(** What an upsert stores. *)
Lemma UpsertDatadog_inv k a s s' x :
  UpsertDatadog k a s = (Ok x, s') →
  app_tenant s ≠ "" ∧ app_tenant s' = app_tenant s ∧ bypass_rls s' = bypass_rls s ∧ aborted s' = aborted s ∧
  ∃ id, integrations (tables s') = <[app_tenant s := new_integration id k a]> (integrations (tables s)).
Proof.
  intros E. pose proof (stmt_settings_eq _ _ _ _ E) as [H1' H2'].
  apply stmt_Ok_inv in E as (d & Hf & -> & _ & ->).
  destruct (default_tenant s) as [t|] eqn:Et; [|done].
  assert (t = app_tenant s ∧ app_tenant s ≠ "") as [-> Hne].
  { unfold default_tenant in Et. destruct (String.eqb_spec (app_tenant s) ""); [done|]. by injection Et as <-. }
  split_and!; [done..|]. cbv zeta in Hf. destruct (integrations (tables s) !! app_tenant s).
  - injection Hf as _ <-. by eexists.
  - destruct (bool_decide _); [|done]. injection Hf as _ <-. by eexists.
Qed.
End integrations.
