(* ===== verification/Prompts.v ===== *)
(** * The prompts (internal/llm/prompts.go)

    What the language model is told of a service: the three builders over
    [AnalysisInput], their numbers formatted from the exact value of the float64.
    %q is the parameter [strconv_Quote] (its table of printable characters is the
    Unicode database's). *)

From stdpp Require Import numbers strings list.
From Stdlib Require Import ZArith Lia Floats Ascii.
From S2P Require Import Prelude GoNum GoFloat World MailData.

#[local] Open Scope Z_scope.

Class Quote := { strconv_Quote : string → string }.

(** ** %.<prec>f *)

Fixpoint zeros (n : nat) : string :=
  match n with O => EmptyString | S n => String "0"%char (zeros n) end.
Definition pad_left (width : nat) (s : string) : string := zeros (width - String.length s) +++ s.

(** The exact value of m * 2^e in units of 10^-prec, rounded. *)
Definition in_units (prec m e : Z) : Z :=
  if 0 <=? e then 10 ^ prec * m * 2 ^ e else round_half_even (10 ^ prec * m) (2 ^ (- e)).
Definition fixed (prec : nat) (x : float) : string :=
  let p := Z.of_nat prec in
  let print (s : bool) h := (if s then "-" else "") +++ dec (h / 10 ^ p) +++ "." +++ pad_left prec (dec (h mod 10 ^ p)) in
  match Prim2SF x with
  | S754_nan => "NaN"
  | S754_infinity s => if s then "-Inf" else "+Inf"
  | S754_zero s => print s 0
  | S754_finite s m e => print s (in_units p (Zpos m) e)
  end.

Example fixed_examples :
  (fixed 2 99.9375, fixed 4 0.5, fixed 1 14.25, fixed 1 14.75, fixed 4 0.00006103515625, fixed 2 (-0.00390625)) =
  ("99.94", "0.5000", "14.2", "14.8", "0.0001", "-0.00").
Proof. vm_compute. reflexivity. Qed.

(** math.IsInf(x, 0), math.IsNaN(x) *)
Definition unbounded (x : float) : bool := is_infinity x || is_nan x.

(** ** Sentences *)

Definition causeSentence (i : AnalysisInput) : string :=
  if String.eqb (CauseType i) "" || String.eqb (CauseMessage i) "" then ""
  else " Causa técnica identificada: " +++ CauseType i +++ " - " +++ CauseMessage i +++ ".".

Definition noTrafficSentence (i : AnalysisInput) : string :=
  let sentence := " Nos últimos 5 minutos, o serviço não recebeu requisições, portanto não há medição recente de falhas." in
  if unbounded (BurnRateLong i)
  then sentence +++ " Houve falhas na última hora, e a meta deste serviço não tolera nenhuma falha."
  else if fgt (BurnRateLong i) 0
  then sentence +++ " Na última hora, as falhas consumiram a margem de falhas permitida " +++ fixed 1 (BurnRateLong i) +++
       " vezes mais rápido que o aceitável."
  else sentence.

Definition burnSentence (i : AnalysisInput) : string :=
  if NoRecentTraffic i then noTrafficSentence i
  else if WindowRequests i <=? 0 then ""
  else
    let errs := Z.min (Z.max (WindowErrors i) 0) (WindowRequests i) in
    if errs =? 0
    then " Nos últimos 5 minutos, nenhuma das " +++ dec (WindowRequests i) +++ " requisições falhou."
    else
      let sentence := " Nos últimos 5 minutos, " +++ dec errs +++ " de " +++ dec (WindowRequests i) +++
        " requisições falharam (taxa de erro de " +++
        fixed 1 (100 * float_of_int64 errs / float_of_int64 (WindowRequests i))%float +++ "%)." in
      if unbounded (BurnRateShort i) || unbounded (BurnRateLong i)
      then sentence +++ " A meta deste serviço não tolera nenhuma falha."
      else sentence +++ " Nesse ritmo, as falhas consomem a margem de falhas permitida " +++
        fixed 1 (BurnRateShort i) +++ " vezes mais rápido que o aceitável nos últimos 5 minutos, e " +++
        fixed 1 (BurnRateLong i) +++ " vezes na última hora.".

Definition sloContext (i : AnalysisInput) : string :=
  if NoRecentTraffic i
  then "Meta: " +++ fixed 4 (AiTarget i) +++ ". Período: " +++ AiTimeframe i +++ "."
  else "Estado do SLO: " +++ SLOState i +++ ". SLI atual: " +++ fixed 4 (AiSLI i) +++ ". Meta: " +++
       fixed 4 (AiTarget i) +++ ". Período: " +++ AiTimeframe i +++ ". Error budget restante: " +++
       fixed 2 (AiErrorBudgetRemaining i) +++ "%.".

Definition dquoted (x : string) : string :=
  let q := String (ascii_of_nat 34) EmptyString in q +++ x +++ q.
Definition analysisSystemPrompt : string :=
  "Você está escrevendo uma atualização curta para uma página pública de status, " +++
  "em português do Brasil, para um leitor sem conhecimento técnico (ex: RH, gestor). " +++
  "Responda em 1-2 frases, em tom calmo e factual, não alarmista. Pode usar um termo técnico simples quando " +++
  "ajudar a explicar o que está acontecendo (ex: " +++ dquoted "tempo de resposta" +++ ", " +++
  dquoted "taxa de erro" +++ ", " +++ dquoted "lentidão intermitente" +++ "), " +++
  "mas sempre explique o efeito prático logo em seguida - nunca use as siglas internas " +++ dquoted "SLO" +++ ", " +++
  dquoted "SLI" +++ " ou " +++ dquoted "error budget" +++
  ", nem nomes internos de serviço. Não especule sobre causas que você não pode confirmar a " +++
  "partir dos dados fornecidos, e não use pontos de exclamação ou linguagem dramática.".

(** ** The builders: system prompt and user prompt *)

Section builders.
Context `{!Quote}.

Definition buildDegradedTooltipPrompt (i : AnalysisInput) : string * string :=
  (analysisSystemPrompt,
   "O serviço " +++ strconv_Quote (ServiceName i) +++ " está atualmente em estado degradado. " +++ sloContext i +++
   causeSentence i +++ burnSentence i +++
   " Escreva um tooltip curto explicando o estado degradado para quem visita a página de status.").
Definition buildOutageDescriptionPrompt (i : AnalysisInput) : string * string :=
  (analysisSystemPrompt,
   "O serviço " +++ strconv_Quote (ServiceName i) +++ " acabou de entrar em indisponibilidade. " +++ sloContext i +++
   causeSentence i +++ burnSentence i +++
   " Escreva uma descrição curta do incidente explicando o que está acontecendo para quem visita a página de status.").
Definition buildClosingCommentPrompt (i : AnalysisInput) : string * string :=
  (analysisSystemPrompt,
   "O serviço " +++ strconv_Quote (ServiceName i) +++ " se recuperou e voltou ao estado operacional. " +++ sloContext i +++
   burnSentence i +++
   " Escreva um comentário curto de encerramento do incidente, confirmando a recuperação para quem visita a página de status.").

(** Which one a generation is asked with. *)
Definition prompt_of (g : generation) : AnalysisInput → string * string :=
  match g with
  | GenDegraded => buildDegradedTooltipPrompt
  | GenOutage => buildOutageDescriptionPrompt
  | GenClosing => buildClosingCommentPrompt
  end.
End builders.
