(* ===== verification/LlmService.v ===== *)
(** * The language model (internal/llm/service.go, connectors/openai, db's store adapter)

    Connecting a provider, choosing its model, activating it, and generating a text
    through the active one with the record of how that went.  The exchange with
    OpenAI is the parameter [LlmHttp], asked with the number of the question. *)

From stdpp Require Import numbers strings gmap list.
From Stdlib Require Import ZArith Lia.
From S2P Require Import Prelude GoNum Db LLMProviders Providers Secrets World Api Inert AuthApi AccountApi MailData Connectors Prompts.

#[local] Open Scope Z_scope.
#[local] Open Scope go_scope.

(** ** Errors *)

Inductive llm_err :=
| LErrInvalidInput
| LErrValidationFailed
| LErrUnknownModel
| LErrProviderNotConnected
| LErrNoActiveProvider
| LErrUnauthorized
| LErrTimeout
| LErrServer
| LErrRequest (msg : string)   (* the connector's other errors, by their text *)
| LErrStore (e : db_err)       (* ErrNotFound is ErrProviderRecordNotFound *)
| LErrSecretbox
| LErrUnknownProvider.

(** err.Error() of what a completion may return. *)
Definition llm_Error (e : llm_err) : string :=
  match e with
  | LErrUnauthorized => "llm: unauthorized (invalid or unpermitted api key)"
  | LErrTimeout => "llm: request timed out"
  | LErrServer => "llm: server error"
  | LErrRequest msg => msg
  | _ => ""
  end.

(** ** OpenAI *)

Record chatMessage := {
  CmRole : string;
  CmContent : string;
}.
Record chatCompletionRequest := {
  CcModel : string;
  CcMessages : list chatMessage;
  CcMaxTokens : Z;
}.
Record llm_request := {
  LqMethod : string;
  LqURL : string;
  LqHeader : list (string * string);
  LqBody : option chatCompletionRequest;
}.
(** A status with the contents of the choices in the body, or why it does not
    decode; or no status. *)
Inductive llm_answer :=
| LAnswered (status : Z) (choices : res string (list string))
| LTimedOut
| LBroken (msg : string).

Class LlmHttp := { llm_Do : nat → llm_request → llm_answer }.

Definition LM := M mstate llm_err.

Definition lquestion : LM nat := λ m, (Ok (m_ev m), MState (m_db m) (m_net m) (S (m_ev m))).
(** A repository call on the caller's connection. *)
Definition lstore {A} (q : M (session providers_db) db_err A) : LM A :=
  λ m, let '(r, s) := on_providers q (m_db m) in
       (match r with Ok a => Ok a | Err e => Err (LErrStore e) end, set_m_db s m).

Module Openai.
Definition defaultBaseURL : string := "https://api.openai.com".
Definition chatCompletionsPath : string := "/v1/chat/completions".
Definition modelsPath : string := "/v1/models".
Definition maxCompletionTokens : Z := 200.

(** The decoded answer of a 2xx. *)
Definition classify (a : llm_answer) : res llm_err (res string (list string)) :=
  match a with
  | LTimedOut => Err LErrTimeout
  | LBroken msg => Err (LErrRequest ("openai: request failed: " +++ msg))
  | LAnswered c choices =>
      if (c =? StatusUnauthorized) || (c =? StatusForbidden) then Err LErrUnauthorized
      else if StatusInternalServerError <=? c then Err LErrServer
      else if (200 <=? c) && (c <? 300) then Ok choices
      else Err (LErrRequest ("openai: unexpected status " +++ dec c))
  end.

Definition completion_request (apiKey model systemPrompt userPrompt : string) : llm_request :=
  {| LqMethod := "POST"; LqURL := defaultBaseURL +++ chatCompletionsPath;
     LqHeader := [bearer_header apiKey; json_header];
     LqBody := Some {| CcModel := model;
                       CcMessages := [{| CmRole := "system"; CmContent := systemPrompt |};
                                      {| CmRole := "user"; CmContent := userPrompt |}];
                       CcMaxTokens := maxCompletionTokens |} |}.
Definition models_request (apiKey : string) : llm_request :=
  {| LqMethod := "GET"; LqURL := defaultBaseURL +++ modelsPath; LqHeader := [bearer_header apiKey]; LqBody := None |}.

(** The first choice of a body that decodes. *)
Definition first_choice (a : llm_answer) : res llm_err string :=
  match classify a with
  | Err e => Err e
  | Ok (Err msg) => Err (LErrRequest ("openai: failed to decode chat completion response: " +++ msg))
  | Ok (Ok []) => Err (LErrRequest "openai: chat completion response had no choices")
  | Ok (Ok (content :: _)) => Ok content
  end.

Section client.
Context `{!LlmHttp}.
Definition Complete (apiKey model systemPrompt userPrompt : string) : LM string :=
  n <- lquestion ;;
  λ m, (first_choice (llm_Do n (completion_request apiKey model systemPrompt userPrompt)), m).
Definition ValidateCredentials (apiKey : string) : LM unit :=
  n <- lquestion ;;
  λ m, (match classify (llm_Do n (models_request apiKey)) with Ok _ => Ok tt | Err e => Err e end, m).
End client.
End Openai.

(** ** Service *)

Definition modelAllowlist : gmap string (list string) :=
  {["openai" := ["gpt-4o-mini"; "gpt-4o"; "gpt-4.1-mini"; "gpt-4.1"]]}.
Definition defaultModel : string := "gpt-4o-mini".
Definition isAllowedModel (provider model : string) : bool :=
  bool_decide (model ∈ default [] (modelAllowlist !! provider)).

Record llm_Provider := {
  llm_Complete : string → string → LM string;
  llm_ValidateCredentials : LM unit;
}.

Record llm_ProviderStatus := {
  LpsProvider : string;
  LpsModel : string;
  LpsStatus : string;
  LpsLastCheckedAt : option Z;
  LpsLastError : option string;
}.
Record llm_ListResult := {
  LlrActiveProvider : string;
  LlrProviders : list llm_ProviderStatus;
  LlrTotal : Z;
  LlrPage : Z;
  LlrPageSize : Z;
}.

Section llm.
Context `{!Driver, !Machine, !LlmHttp, !Config, !Quote}.

(** The factory of cli/routes.go. *)
Definition llmProviderFactory (provider apiKey model : string) : LM llm_Provider :=
  if String.eqb provider "openai"
  then ret {| llm_Complete := Openai.Complete apiKey model;
              llm_ValidateCredentials := Openai.ValidateCredentials apiKey |}
  else fail LErrUnknownProvider.

Definition llm_encrypt (plaintext : string) : LM string :=
  n <- lquestion ;;
  λ m, (match Encrypt n cfg_masterKey plaintext with Some c => Ok c | None => Err LErrSecretbox end, m).
Definition llm_decrypt (ciphertext : string) : LM string :=
  λ m, (match Decrypt cfg_masterKey ciphertext with Some p => Ok p | None => Err LErrSecretbox end, m).

(** A caller that answers [e] whatever the error was, or for a missing row. *)
Definition instead {A} (e : llm_err) (c : LM A) : LM A :=
  λ m, match c m with (Err _, m') => (Err e, m') | r => r end.
Definition when_missing {A} (e : llm_err) (c : LM A) : LM A :=
  λ m, match c m with (Err (LErrStore ErrNotFound), m') => (Err e, m') | r => r end.

Definition llm_Connect (provider apiKey model : string) : LM unit :=
  if String.eqb apiKey "" then fail LErrInvalidInput
  else if negb (String.eqb model "") && negb (isAllowedModel provider model) then fail LErrUnknownModel
  else
    let model := if String.eqb model "" then defaultModel else model in
    p <- instead LErrValidationFailed (llmProviderFactory provider apiKey model) ;;
    instead LErrValidationFailed (llm_ValidateCredentials p) ;;;
    encryptedAPIKey <- llm_encrypt apiKey ;;
    lstore (Llm.UpsertProvider provider encryptedAPIKey model).

(** The row of a provider that is connected. *)
Definition connected (provider : string) : LM LLMProvider :=
  ep <- when_missing LErrProviderNotConnected (lstore (Llm.Get provider)) ;;
  if negb (String.eqb (LpStatus ep) "connected") then fail LErrProviderNotConnected else ret ep.

Definition SetModel (provider model : string) : LM unit :=
  connected provider ;;;
  if negb (isAllowedModel provider model) then fail LErrUnknownModel
  else lstore (Llm.UpdateModel provider model).

Definition llm_Activate (provider : string) : LM unit :=
  connected provider ;;;
  lstore (Llm.SetActiveProvider provider).

Definition llm_Disconnect (provider : string) : LM unit := lstore (Llm.DeleteProvider provider).
Definition llm_SetRootCauseEnrichmentEnabled (enabled : bool) : LM unit :=
  lstore (Llm.SetRootCauseEnrichmentEnabled enabled).
Definition llm_RootCauseEnrichmentEnabled : LM bool := lstore Llm.RootCauseEnrichmentEnabled.

Definition llm_status (p : LLMProvider) : llm_ProviderStatus :=
  {| LpsProvider := LpProvider p; LpsModel := LpModel p; LpsStatus := LpStatus p;
     LpsLastCheckedAt := LpLastCheckedAt p; LpsLastError := LpLastError p |}.
Definition llm_List (page pageSize : Z) : LM llm_ListResult :=
  providers <- lstore (Llm.ListPaginated page pageSize) ;;
  active <- lstore Llm.GetActiveProvider ;;
  ret {| LlrActiveProvider := active; LlrProviders := llm_status <$> providers.1;
         LlrTotal := providers.2; LlrPage := page; LlrPageSize := pageSize |}.

(** *** generate *)

(** What is recorded of a completion; a record that fails is logged. *)
Definition mark (provider : string) (r : res llm_err string) : LM unit :=
  discard (attempt (lstore
    match r with
    | Err LErrUnauthorized => Llm.MarkInvalid provider (llm_Error LErrUnauthorized)
    | Err e => Llm.MarkTransientFailure provider (llm_Error e)
    | Ok _ => Llm.MarkChecked provider
    end)).

Definition generate (i : AnalysisInput) (build : AnalysisInput → string * string) : LM string :=
  active <- lstore Llm.GetActiveProvider ;;
  if String.eqb active "" then fail LErrNoActiveProvider
  else
    ep <- when_missing LErrNoActiveProvider (lstore (Llm.Get active)) ;;
    apiKey <- llm_decrypt (LpEncryptedAPIKey ep) ;;
    provider <- llmProviderFactory active apiKey (LpModel ep) ;;
    let prompts := build i in
    r <- attempt (llm_Complete provider prompts.1 prompts.2) ;;
    mark active r ;;;
    λ m, (r, m).

Definition GenerateDegradedAnalysis (i : AnalysisInput) : LM string := generate i buildDegradedTooltipPrompt.
Definition GenerateOutageDescription (i : AnalysisInput) : LM string := generate i buildOutageDescriptionPrompt.
Definition GenerateClosingComment (i : AnalysisInput) : LM string := generate i buildClosingCommentPrompt.
End llm.
