(* ===== verification/LlmRun.v ===== *)
(** * What the language model's provider rows keep, and what a generation records

    Every operation of the service keeps the rows well formed, on allow-listed
    models and within the tenant; a generation is one question under the tenant's
    key, and its outcome is what the row records of it. *)

From stdpp Require Import numbers strings gmap list.
From Stdlib Require Import ZArith Lia Floats.
From S2P Require Import Prelude GoNum Db Identity LLMProviders Providers Secrets World Api Inert AuthApi AccountApi AccountDemo MailData Connectors MailDelivery Prompts LlmService.

#[local] Open Scope Z_scope.
#[local] Open Scope go_scope.

(** ** Steps on the rows *)

(** Every stored model is on its provider's allow-list. *)
Definition models_allowed (d : providers_db) : Prop :=
  ∀ t p row, llm_providers d !! (t, p) = Some row → isAllowedModel p (LpModel row) = true.

Record lstep (t : string) (b : bool) (d d' : providers_db) : Prop := {
  ls_step : pstep t b d d';
  ls_models : models_allowed d → models_allowed d';
  ls_email : email_providers d' = email_providers d;
  ls_email_settings : email_settings d' = email_settings d;
}.
#[export] Instance lstep_preorder t b : PreOrder (lstep t b).
Proof.
  split; [by intros d|]. intros d1 d2 d3 [? ? E1 E2] [? ? E3 E4].
  split; [by etrans|auto|congruence..].
Qed.

Section keeps.
Context `{!Driver}.

(** What [pstep] leaves open of a statement on the rows. *)
Definition models_step (_ : string) (_ : bool) (d d' : providers_db) : Prop :=
  (models_allowed d → models_allowed d') ∧ email_providers d' = email_providers d ∧
  email_settings d' = email_settings d.
#[local] Instance models_step_preorder t b : PreOrder (models_step t b).
Proof. split; [by intros d|]. intros d1 d2 d3 (? & E1 & E2) (? & E3 & E4). split; [auto|split; congruence]. Qed.

Lemma lstep_split {A} (m : M (session providers_db) db_err A) :
  preserves pstep m → preserves models_step m → preserves lstep m.
Proof.
  intros Hm Hm'. eapply preserves_mono, (preserves_and _ _ _ Hm Hm').
  intros t b d d' [? (? & ? & ?)]. by split.
Qed.

Lemma inert_lstep {A} (m : M (session providers_db) db_err A) : inert m → preserves lstep m.
Proof. apply preserves_mono. intros t b d d' E. unfold untouched_db in E. by subst. Qed.

Lemma set_llm_settings_models f d : models_step "" false d (set_llm_settings f d).
Proof. done. Qed.

Lemma upsert_lstep p k model : isAllowedModel p model = true → preserves lstep (Llm.UpsertProvider p k model).
Proof.
  intros Hm. apply lstep_split; [apply llm_upsert_keeps|]. apply (preserves_stmt models_step). intros s a d.
  destruct (default_tenant s) as [t|]; [|done]. destruct (negb _); [done|]. cbv zeta.
  assert (∀ row, LpModel row = model →
    models_step "" false (tables s) (set_llm_providers (<[(t, p) := row]>) (tables s))) as Hins.
  { intros row <-. split; [|done]. intros Hd t' p' row'. cbn.
    intros [[[= <- <-] <-]|[_ Hr]]%lookup_insert_Some; eauto. }
  destruct (llm_providers (tables s) !! (t, p)).
  - intros [= _ <-]. by apply Hins.
  - destruct (id_free _ _ _); [|done]. intros [= _ <-]. by apply Hins.
Qed.
Lemma set_active_lstep p : preserves lstep (Llm.SetActiveProvider p).
Proof.
  apply lstep_split; [apply llm_set_active_keeps|]. apply (preserves_stmt models_step). intros s a d.
  destruct (default_tenant s); [|done]. destruct (_ !! _); [|done]. by intros [= _ <-].
Qed.
Lemma set_root_cause_lstep b : preserves lstep (Llm.SetRootCauseEnrichmentEnabled b).
Proof.
  apply lstep_split; [apply llm_set_root_cause_keeps|]. apply (preserves_stmt models_step). intros s a d.
  destruct (default_tenant s); [|done]. by intros [= _ <-].
Qed.
Lemma delete_lstep p : preserves lstep (Llm.DeleteProvider p).
Proof.
  apply lstep_split; [apply llm_delete_keeps|]. apply (preserves_stmt models_step). intros s a d. cbv zeta.
  destruct (String.eqb _ _); intros [= _ <-]; [done|]. split; [|done]. intros Hd t' p' row. cbn.
  intros [_ Hr]%lookup_delete_Some. eauto.
Qed.
Lemma update_lstep p f :
  (∀ s r, LpProvider (f s r) = LpProvider r) →
  (∀ s r, LpModel (f s r) = LpModel r ∨ isAllowedModel p (LpModel (f s r)) = true) →
  preserves lstep (Llm.update_rows p f).
Proof.
  intros Hp Hf. apply lstep_split; [by apply llm_update_keeps|]. apply (preserves_stmt models_step).
  intros s a d [= _ <-]. split; [|done]. intros Hd t' p' row. cbn. unfold rewrite_rows.
  rewrite map_lookup_imap. destruct (llm_providers (tables s) !! (t', p')) as [row0|] eqn:E; [|done].
  cbn. destruct (visible s t' && String.eqb p' p) eqn:Hv; intros [= <-]; [|eauto].
  apply andb_true_iff in Hv as [_ ->%String.eqb_eq]. destruct (Hf s row0) as [-> |?]; [|done]. eauto.
Qed.
End keeps.

(** ** The service *)

(** What an operation on the caller's connection may do to the database. *)
Record llm_moves (s s' : session database) : Prop := {
  lm_rows : lstep (app_tenant s) (bypass_rls s) (db_providers (tables s)) (db_providers (tables s'));
  lm_identity : db_identity (tables s') = db_identity (tables s);
  lm_core : db_core (tables s') = db_core (tables s);
  lm_intervals : db_intervals (tables s') = db_intervals (tables s);
  lm_tenant : app_tenant s' = app_tenant s;
  lm_bypass : bypass_rls s' = bypass_rls s;
}.
#[export] Instance llm_moves_preorder : PreOrder llm_moves.
Proof.
  split; [by intros s|]. intros s1 s2 s3 [R1 ? ? ? T1 B1] [R2 ? ? ? T2 B2]. rewrite T1, B1 in R2.
  split; [by etrans|congruence..].
Qed.

Definition lm_keeps {A} (c : LM A) : Prop := ∀ m, llm_moves (m_db m) (m_db (c m).2).

Section service.
Context `{!Driver, !Machine, !LlmHttp, !Config, !Quote}.

Lemma lm_ret {A} (a : A) : lm_keeps (ret a).
Proof. intros m. done. Qed.
Lemma lm_fail {A} e : lm_keeps (fail e : LM A).
Proof. intros m. done. Qed.
Lemma lm_pure {A} (f : mstate → res llm_err A) : lm_keeps (λ m, (f m, m)).
Proof. intros m. done. Qed.
Lemma lm_bind {A B} (c : LM A) (k : A → LM B) :
  lm_keeps c → (∀ a m m', c m = (Ok a, m') → lm_keeps (k a)) → lm_keeps (bind c k).
Proof.
  intros Hc Hk m. unfold bind. specialize (Hc m). destruct (c m) as [[a|e] m'] eqn:E; [|done].
  etrans; [exact Hc|]. by eapply Hk.
Qed.
Lemma lm_question : lm_keeps lquestion.
Proof. intros m. done. Qed.
Lemma lm_store {A} (q : M (session providers_db) db_err A) : preserves lstep q → lm_keeps (lstore q).
Proof.
  intros Hq m. unfold lstore, on_providers, focus.
  destruct (Hq (retable (db_providers (tables (m_db m))) (m_db m))) as (Hr & Ht & Hb).
  destruct (q _) as [r s']. cbn in *. by split.
Qed.
Lemma lm_instead {A} e (c : LM A) : lm_keeps c → lm_keeps (instead e c).
Proof. intros Hc m. unfold instead. specialize (Hc m). by destruct (c m) as [[]]. Qed.
Lemma lm_when_missing {A} e (c : LM A) : lm_keeps c → lm_keeps (when_missing e c).
Proof. intros Hc m. unfold when_missing. specialize (Hc m). by destruct (c m) as [[|[| | | | | | | | |[]| |]]]. Qed.
Lemma lm_attempt {A} (c : LM A) : lm_keeps c → lm_keeps (attempt c).
Proof. intros Hc m. unfold attempt. specialize (Hc m). by destruct (c m). Qed.
End service.
#[export] Hint Resolve lm_ret lm_fail lm_pure lm_question lm_store lm_instead lm_when_missing lm_attempt : vane.
#[export] Hint Resolve inert_lstep upsert_lstep set_active_lstep set_root_cause_lstep delete_lstep : vane.

(** The service's operations. *)
Inductive llm_op :=
| LConnect (provider apiKey model : string)
| LSetModel (provider model : string)
| LActivate (provider : string)
| LDisconnect (provider : string)
| LSetRootCause (enabled : bool)
| LRootCause
| LList (page pageSize : Z)
| LGenerate (g : generation) (i : AnalysisInput).

Section ops.
Context `{!Driver, !Machine, !LlmHttp, !Config, !Quote}.

Definition run_llm (o : llm_op) : LM unit :=
  match o with
  | LConnect p k model => llm_Connect p k model
  | LSetModel p model => SetModel p model
  | LActivate p => llm_Activate p
  | LDisconnect p => llm_Disconnect p
  | LSetRootCause b => llm_SetRootCauseEnrichmentEnabled b
  | LRootCause => discard llm_RootCauseEnrichmentEnabled
  | LList page size => discard (llm_List page size)
  | LGenerate g i => discard (LlmService.generate i (prompt_of g))
  end.

Lemma llm_Get_lstep p : preserves lstep (Llm.Get p).
Proof. apply inert_lstep, inert_then. intros. apply (preserves_or_not_found untouched_db). Qed.
Lemma llm_query_lstep {A} (f : session providers_db → A) : preserves lstep (query f).
Proof. apply inert_lstep, inert_query. Qed.
Lemma llm_List_lstep p n : preserves lstep (Llm.ListPaginated p n).
Proof. apply inert_lstep, (preserves_paginated untouched_db). Qed.
#[local] Hint Resolve llm_Get_lstep llm_query_lstep llm_List_lstep : vane.

Lemma factory_keeps p k model : lm_keeps (llmProviderFactory p k model).
Proof. unfold llmProviderFactory. destruct (String.eqb _ _); auto with vane. Qed.
Lemma factory_inv p k model m c m' :
  llmProviderFactory p k model m = (Ok c, m') →
  m' = m ∧ p = "openai" ∧
  c = {| llm_Complete := Openai.Complete k model; llm_ValidateCredentials := Openai.ValidateCredentials k |}.
Proof.
  unfold llmProviderFactory. destruct (String.eqb_spec p "openai") as [->|]; [|done]. by intros [= <- <-].
Qed.
Lemma instead_Ok {A} e (c : LM A) m a m' : instead e c m = (Ok a, m') → c m = (Ok a, m').
Proof. unfold instead. by destruct (c m) as [[]]. Qed.
Lemma complete_keeps k model x y : lm_keeps (Openai.Complete k model x y).
Proof. apply lm_bind; auto with vane. Qed.
Lemma validate_keeps k : lm_keeps (Openai.ValidateCredentials k).
Proof. apply lm_bind; auto with vane. Qed.
Lemma connected_keeps p : lm_keeps (connected p).
Proof. apply lm_bind; [auto with vane|]. intros. destruct (negb _); auto with vane. Qed.
Lemma mark_keeps p r : lm_keeps (mark p r).
Proof.
  apply lm_bind; [|intros; apply lm_ret]. apply lm_attempt, lm_store.
  destruct r as [|[]]; apply update_lstep; auto.
Qed.
#[local] Hint Resolve factory_keeps complete_keeps validate_keeps connected_keeps mark_keeps : vane.

Lemma connect_keeps p k model : lm_keeps (llm_Connect p k model).
Proof.
  unfold llm_Connect. destruct (String.eqb k ""); [auto with vane|].
  destruct (negb (String.eqb model "") && _) eqn:Hm; [auto with vane|]. cbv zeta.
  set (model' := if String.eqb model "" then defaultModel else model).
  apply lm_bind; [auto with vane|]. intros c m1 m2 Hc%instead_Ok.
  apply factory_inv in Hc as (_ & -> & ->).
  assert (isAllowedModel "openai" model' = true) as Hok.
  { subst model'. destruct (String.eqb model ""); [reflexivity|].
    by apply andb_false_iff in Hm as [|?%negb_false_iff]. }
  apply lm_bind; [cbn; auto with vane|]. intros _ _ _ _.
  apply lm_bind; [apply lm_bind; auto with vane|]. intros. auto with vane.
Qed.
Lemma set_model_keeps p model : lm_keeps (SetModel p model).
Proof.
  apply lm_bind; [auto with vane|]. intros.
  destruct (isAllowedModel p model) eqn:E; cbn; [|auto with vane].
  apply lm_store, update_lstep; auto.
Qed.
Lemma generate_keeps i build : lm_keeps (LlmService.generate i build).
Proof.
  unfold LlmService.generate. apply lm_bind; [apply lm_store, llm_query_lstep|]. intros active _ _ _.
  destruct (String.eqb active ""); [auto with vane|].
  apply lm_bind; [auto with vane|]. intros ep _ _ _. apply lm_bind; [apply lm_pure|]. intros key _ _ _.
  apply lm_bind; [auto with vane|]. intros c m1 m2 (_ & _ & ->)%factory_inv.
  apply lm_bind; [cbn; auto with vane|]. intros. apply lm_bind; [auto with vane|]. intros. apply lm_pure.
Qed.
Lemma list_keeps page size : lm_keeps (llm_List page size).
Proof.
  apply lm_bind; [auto with vane|]. intros. apply lm_bind; [apply lm_store, llm_query_lstep|]. intros. apply lm_ret.
Qed.
#[local] Hint Resolve connect_keeps set_model_keeps generate_keeps list_keeps : vane.

Lemma run_llm_keeps o : lm_keeps (run_llm o).
Proof.
  destruct o; cbn [run_llm]; auto with vane.
  - apply lm_bind; [auto with vane|]. intros. auto with vane.
  - apply lm_store, delete_lstep.
  - apply lm_store, set_root_cause_lstep.
  - apply lm_bind; [apply lm_store, llm_query_lstep|]. intros. apply lm_ret.
  - apply lm_bind; [auto with vane|]. intros. apply lm_ret.
  - apply lm_bind; [auto with vane|]. intros. apply lm_ret.
Qed.

(** Any sequence of operations, whatever each of them returns. *)
Definition run_llms (l : list llm_op) (m : mstate) : mstate := foldl (λ m o, (run_llm o m).2) m l.
Lemma run_llms_moves l m : llm_moves (m_db m) (m_db (run_llms l m)).
Proof.
  revert m. induction l as [|o l IH]; intros m; [done|]. cbn. etrans; [apply run_llm_keeps|apply IH].
Qed.
End ops.

(** what the language model's tables always hold.  Whatever sequence of
    operations runs on a connection -- connecting, choosing a model, activating,
    disconnecting, generating, with whatever failures of the database and answers
    of OpenAI -- every stored model stays on its provider's allow-list, the active
    provider of every tenant stays one it has connected, and nothing but the
    provider tables changes; under row security no other tenant's rows do. *)
Theorem llm_rows_stay_allowed `{!Driver, !Machine, !LlmHttp, !Config, !Quote} (l : list llm_op) (m : mstate) :
  let d := tables (m_db m) in
  let d' := tables (m_db (run_llms l m)) in
  models_allowed (db_providers d) → providers_wf (db_providers d) →
  models_allowed (db_providers d') ∧ providers_wf (db_providers d') ∧
  d' = set_db_providers (db_providers d') d ∧
  (bypass_rls (m_db m) = false →
   ∀ u, u ≠ app_tenant (m_db m) → same_providers u (db_providers d) (db_providers d')).
Proof.
  intros d d' Hm Hw. destruct (run_llms_moves l m) as [[[Hs Hu] Hml _ _] Hi Hc Hv _ _].
  fold d d' in Hs, Hu, Hml, Hi, Hc, Hv. split_and!; [auto..| |done].
  destruct d, d'; cbn in *. by subst.
Qed.

(** ** What a generation records *)

(** The row after a completion. *)
Definition recorded (now : Z) (r : res llm_err string) (row : LLMProvider) : LLMProvider :=
  {| LpID := LpID row; LpProvider := LpProvider row; LpEncryptedAPIKey := LpEncryptedAPIKey row;
     LpModel := LpModel row;
     LpStatus := match r with Ok _ => "connected" | Err LErrUnauthorized => "invalid" | Err _ => LpStatus row end;
     LpLastCheckedAt := Some now;
     LpLastError := match r with Ok _ => None | Err e => Some (llm_Error e) end |}.

Section records.
Context `{!Driver, !Machine, !LlmHttp, !Config, !Quote}.
Context (answers : ∀ n, event_fails n = false).

Lemma rewrite_rows_own (s : session providers_db) (p : string) (f : LLMProvider → LLMProvider)
    (tbl : gmap (string * string) LLMProvider) (row : LLMProvider) :
  bypass_rls s = false → app_tenant s ≠ "" → tbl !! (app_tenant s, p) = Some row →
  rewrite_rows p f s tbl = <[(app_tenant s, p) := f row]> tbl.
Proof.
  intros Hb Ht Hr. apply map_eq. intros [t' p']. unfold rewrite_rows. rewrite map_lookup_imap.
  destruct (decide ((t', p') = (app_tenant s, p))) as [[= -> ->]|Hne].
  - rewrite lookup_insert_eq, Hr. cbn. unfold visible.
    by rewrite !String.eqb_refl, (proj2 (String.eqb_neq _ _) Ht), orb_true_r.
  - rewrite lookup_insert_ne by congruence. destruct (tbl !! (t', p')); [|done]. cbn.
    destruct (String.eqb_spec p' p) as [->|]; [|by rewrite andb_false_r].
    destruct (visible s t') eqn:Hv; [|done]. apply (visible_own _ _ Hb) in Hv as [-> _]. done.
Qed.

Lemma own_providers d : set_db_providers (db_providers d) d = d.
Proof. by destruct d. Qed.
Lemma lstore_query {A} (f : session providers_db → A) m :
  aborted (m_db m) = false →
  lstore (query f) m = (Ok (f (retable (db_providers (tables (m_db m))) (m_db m))), set_m_db (bump (m_db m)) m).
Proof.
  intros Ha. unfold lstore, on_providers, focus. rewrite query_runs by done. cbn.
  unfold retable, bump. cbn. by rewrite own_providers.
Qed.
Lemma lstore_Get m p row :
  aborted (m_db m) = false → bypass_rls (m_db m) = false → app_tenant (m_db m) ≠ "" →
  llm_providers (db_providers (tables (m_db m))) !! (app_tenant (m_db m), p) = Some row →
  lstore (Llm.Get p) m = (Ok row, set_m_db (bump (m_db m)) m).
Proof.
  intros Ha Hb Ht Hr. unfold Llm.Get, lstore, on_providers, focus. rewrite query_then by done. cbn.
  unfold retable, bump. cbn. rewrite (row_of_own _ (retable (db_providers (tables (m_db m))) (m_db m))) by done.
  cbn. rewrite Hr. cbn. by rewrite own_providers.
Qed.
Lemma mark_runs m p r row :
  aborted (m_db m) = false → bypass_rls (m_db m) = false → app_tenant (m_db m) ≠ "" →
  llm_providers (db_providers (tables (m_db m))) !! (app_tenant (m_db m), p) = Some row →
  ∃ m' now, mark p r m = (Ok tt, m') ∧
    tables (m_db m') = set_db_providers
      (set_llm_providers (<[(app_tenant (m_db m), p) := recorded now r row]>) (db_providers (tables (m_db m))))
      (tables (m_db m)).
Proof.
  intros Ha Hb Ht Hr. set (s := retable (db_providers (tables (m_db m))) (m_db m)).
  assert (∀ f, (∀ x, f s x = recorded (sql_now s) r x) → ∃ m',
    discard (attempt (lstore (Llm.update_rows p f))) m = (Ok tt, m') ∧
    tables (m_db m') = set_db_providers
      (set_llm_providers (<[(app_tenant (m_db m), p) := recorded (sql_now s) r row]>) (db_providers (tables (m_db m))))
      (tables (m_db m))) as Hf.
  { intros f Hf. unfold discard, bind, attempt, lstore, on_providers, focus, Llm.update_rows. fold s.
    erewrite stmt_runs by done. eexists. split; [done|]. cbn.
    unfold set_llm_providers. cbn. rewrite (rewrite_rows_own s p (f s) _ row) by done. by rewrite Hf. }
  unfold mark. destruct r as [c|[]];
    [edestruct Hf as (m' & ? & ?); [|by exists m', (sql_now s)]; done..].
Qed.

(** The question a generation asks, and what comes of it. *)
Definition question_of (g : generation) (i : AnalysisInput) (key : string) (row : LLMProvider) : llm_request :=
  Openai.completion_request key (LpModel row) (prompt_of g i).1 (prompt_of g i).2.

Lemma generate_runs g i m row ls key :
  aborted (m_db m) = false → bypass_rls (m_db m) = false → app_tenant (m_db m) ≠ "" →
  llm_settings (db_providers (tables (m_db m))) !! app_tenant (m_db m) = Some ls →
  LsActiveProvider ls = Some "openai" →
  llm_providers (db_providers (tables (m_db m))) !! (app_tenant (m_db m), "openai") = Some row →
  Decrypt cfg_masterKey (LpEncryptedAPIKey row) = Some key →
  let r := Openai.first_choice (llm_Do (m_ev m) (question_of g i key row)) in
  ∃ m' now, LlmService.generate i (prompt_of g) m = (r, m') ∧
    tables (m_db m') = set_db_providers
      (set_llm_providers (<[(app_tenant (m_db m), "openai") := recorded now r row]>) (db_providers (tables (m_db m))))
      (tables (m_db m)).
Proof.
  intros Ha Hb Ht Hs Hact Hr Hk r. unfold LlmService.generate. unfold bind at 1. unfold Llm.GetActiveProvider.
  rewrite lstore_query by done. unfold Llm.own_settings. cbn [app_tenant tables retable].
  rewrite (proj2 (String.eqb_neq _ _) Ht), Hs. cbn [mbind option_bind]. rewrite Hact. cbn [from_option id].
  change (String.eqb "openai" "") with false. cbv iota.
  unfold bind at 1, when_missing. rewrite (lstore_Get _ _ row) by done.
  unfold bind at 1, llm_decrypt. rewrite Hk. unfold bind at 1, llmProviderFactory. change (String.eqb "openai" "openai") with true. cbv iota.
  cbn [ret llm_Complete]. unfold bind at 1, attempt, Openai.Complete, bind at 1, lquestion. cbn [m_ev set_m_db m_db m_net].
  fold (question_of g i key row). fold r.
  set (m1 := MState _ _ _).
  destruct (mark_runs m1 "openai" r row) as (m' & now & Hm & Ht'); [done..|].
  exists m', now. unfold bind. rewrite Hm. done.
Qed.
End records.

(** C31: what a generation asks and what it leaves.  On a server that answers, for a
    tenant under row security with OpenAI active and a key that opens, a
    generation is one question: the tenant's key and stored model, with the two
    prompts the kind of text calls for; what it returns is the content of the first
    choice or the classified failure.  Afterwards the tenant's row -- and nothing
    else in the database -- records it: checked and connected after a text, invalid
    after a refused key, its status kept after any other failure, with the failure's
    text; the key and the model are never touched. *)
Theorem generate_records `{!Driver, !Machine, !LlmHttp, !Config, !Quote} (g : generation) (i : AnalysisInput)
    (m : mstate) (row : LLMProvider) (ls : llm_settings_row) (key : string) :
  (∀ n, event_fails n = false) →
  aborted (m_db m) = false → bypass_rls (m_db m) = false → app_tenant (m_db m) ≠ "" →
  llm_settings (db_providers (tables (m_db m))) !! app_tenant (m_db m) = Some ls →
  LsActiveProvider ls = Some "openai" →
  llm_providers (db_providers (tables (m_db m))) !! (app_tenant (m_db m), "openai") = Some row →
  Decrypt cfg_masterKey (LpEncryptedAPIKey row) = Some key →
  let r := Openai.first_choice (llm_Do (m_ev m) (question_of g i key row)) in
  ∃ m' now, LlmService.generate i (prompt_of g) m = (r, m') ∧
    tables (m_db m') = set_db_providers
      (set_llm_providers (<[(app_tenant (m_db m), "openai") := recorded now r row]>) (db_providers (tables (m_db m))))
      (tables (m_db m)).
Proof. intros Hans. by apply generate_runs. Qed.

(** ** Prompts *)

(** Two inputs that agree on all a service without recent traffic has to show. *)
Definition same_without_traffic (i j : AnalysisInput) : Prop :=
  ServiceName i = ServiceName j ∧ AiTarget i = AiTarget j ∧ AiTimeframe i = AiTimeframe j ∧
  CauseType i = CauseType j ∧ CauseMessage i = CauseMessage j ∧ BurnRateLong i = BurnRateLong j ∧
  NoRecentTraffic i = true ∧ NoRecentTraffic j = true.

(** a service with no recent traffic is not described by stale measurements.
    Its three prompts are a function of its name, target, timeframe, cause and
    long burn rate alone: neither the state Datadog reports, nor the SLI, the
    error budget, the short burn rate or the window's counts reach the model. *)
Theorem no_traffic_prompt `{!Quote} (g : generation) (i j : AnalysisInput) :
  same_without_traffic i j → prompt_of g i = prompt_of g j.
Proof.
  intros (E1 & E2 & E3 & E4 & E5 & E6 & Hi & Hj).
  assert (sloContext i = sloContext j) as Es by (unfold sloContext; by rewrite Hi, Hj, E2, E3).
  assert (burnSentence i = burnSentence j) as Eb
    by (unfold burnSentence, noTrafficSentence; by rewrite Hi, Hj, E6).
  assert (causeSentence i = causeSentence j) as Ec by (unfold causeSentence; by rewrite E4, E5).
  destruct g; unfold prompt_of, buildDegradedTooltipPrompt, buildOutageDescriptionPrompt, buildClosingCommentPrompt;
    by rewrite ?Es, ?Eb, ?Ec, E1.
Qed.

(** ** Witnesses *)

Definition demo_quote : Quote := {| strconv_Quote s := dquoted s |}.
(** The models endpoint takes the key; completions answer [status]. *)
Definition demo_llm (status : Z) : LlmHttp := {|
  llm_Do _ q := LAnswered (match LqBody q with Some _ => status | None => 200 end) (Ok ["All systems go."]) |}.
Definition demo_run (status : Z) (l : list llm_op) (m : mstate) : mstate :=
  @run_llms numbered demo_machine (demo_llm status) self_hosted demo_quote l m.
Definition demo_input (state : string) (sli : float) : AnalysisInput := {|
  ServiceName := "api"; SLOState := state; AiSLI := sli; AiTarget := 99.5; AiErrorBudgetRemaining := 1;
  AiTimeframe := "30d"; CauseType := ""; CauseMessage := ""; BurnRateShort := 0; BurnRateLong := 0;
  WindowErrors := 0; WindowRequests := 0; NoRecentTraffic := true |}.

(** A tenant with OpenAI connected and active. *)
Definition activated : mstate :=
  demo_run 200 [LConnect "openai" "sk" "gpt-4o"; LActivate "openai"] (mail_state "t1" false blank_db).
Definition activated_row : option LLMProvider :=
  llm_providers (db_providers (tables (m_db activated))) !! ("t1", "openai").

Lemma llm_rows_stay_allowed_witness :
  LpModel <$> activated_row = Some "gpt-4o" ∧
  models_allowed (db_providers (tables (m_db (demo_run 401
    [LSetModel "openai" "gpt-5"; LGenerate GenOutage (demo_input "breached" 90); LConnect "openai" "sk2" ""] activated)))).
Proof.
  split; [vm_compute; reflexivity|].
  assert (models_allowed empty_providers ∧ providers_wf empty_providers) as [Hm Hw].
  { split; [intros t p row Hr; cbn in Hr; by rewrite lookup_empty in Hr|].
    split; intros; cbn in *; by match goal with E : ∅ !! _ = Some _ |- _ => rewrite lookup_empty in E end. }
  destruct (@llm_rows_stay_allowed numbered demo_machine (demo_llm 200) self_hosted demo_quote
    [LConnect "openai" "sk" "gpt-4o"; LActivate "openai"] (mail_state "t1" false blank_db) Hm Hw) as (Hm1 & Hw1 & _).
  apply (@llm_rows_stay_allowed numbered demo_machine (demo_llm 401) self_hosted demo_quote _ activated Hm1 Hw1).
Defined.

(** A refused key makes the row invalid, and keeps its key and model. *)
Lemma generate_records_witness :
  ∃ row m' now,
    activated_row = Some row ∧
    @LlmService.generate numbered demo_machine (demo_llm 401) self_hosted (demo_input "breached" 90)
      (@prompt_of demo_quote GenOutage) activated = (Err LErrUnauthorized, m') ∧
    llm_providers (db_providers (tables (m_db m'))) !! ("t1", "openai") =
      Some (recorded now (Err LErrUnauthorized) row).
Proof.
  destruct activated_row as [row|] eqn:Hrow; [|vm_compute in Hrow; discriminate].
  destruct (llm_settings (db_providers (tables (m_db activated))) !! "t1") as [ls|] eqn:Hls;
    [|vm_compute in Hls; discriminate].
  destruct (@generate_records numbered demo_machine (demo_llm 401) self_hosted demo_quote GenOutage
    (demo_input "breached" 90) activated row ls "sk") as (m' & now & Hr & Ht).
  - reflexivity.
  - vm_compute. reflexivity.
  - vm_compute. reflexivity.
  - vm_compute. discriminate.
  - exact Hls.
  - vm_compute in Hls. injection Hls as <-. reflexivity.
  - exact Hrow.
  - vm_compute in Hrow. injection Hrow as <-. vm_compute. reflexivity.
  - exists row, m', now. split; [reflexivity|]. split; [exact Hr|]. rewrite Ht. apply lookup_insert_eq.
Defined.

Lemma no_traffic_prompt_witness :
  @prompt_of demo_quote GenDegraded (demo_input "breached" 12.5) = @prompt_of demo_quote GenDegraded (demo_input "ok" 100).
Proof. apply (@no_traffic_prompt demo_quote). repeat split. Defined.
