(* ===== verification/ProvidersApi.v ===== *)
(** * Integration routes (internal/api: integrations_handler.go,
    email_providers_handler.go, llm_providers_handler.go, poller_status.go)

    Connecting Datadog, a mail provider or a language model, choosing and dropping
    them, searching SLOs with the stored keys, and the poller's status.  The
    services of Mail.v and LlmService.v run on the request's connection.
    Outside are: restarting the poller (the steps of Leadership.v), of which the
    handler only logs the outcome, and the server's lock table. *)

From stdpp Require Import numbers strings gmap list.
From Stdlib Require Import ZArith Lia.
From S2P Require Import Prelude GoNum Db Schema Intervals Identity LLMProviders Providers Secrets Domains Auth Api Tenants Handler IncidentApi GoTime MailData Retry Services Integrations AuthApi AccountApi Connectors Mail Prompts LlmService Datadog.

#[local] Open Scope Z_scope.
#[local] Open Scope go_scope.

Definition StatusNoContent : Z := 204.

Record PollerLeader := {
  ApplicationName : string;
  BackendStart : Z;
}.
(** PollerManager.Restart's outcome, and the holder of the poller's lock according
    to pg_locks and pg_stat_activity. *)
Class PollerOutside := {
  poller_Restart : nat → res string bool;
  lock_holder : nat → option PollerLeader;
}.

Definition emailProvidersPageSize : Z := 20.
Definition llmProvidersPageSize : Z := 20.
Definition pollerStatusPageSize : Z := 20.
Definition pollerCheckWindow : Z := 60 * second.

(** ** Requests and responses *)

Record connectDatadogRequest := {
  CdrAPIKey : string;
  CdrAppKey : string;
}.
Record connectEmailProviderRequest := {
  CerAPIKey : string;
  CerFromEmail : string;
  CerFromName : string;
}.
Record connectLLMProviderRequest := {
  ClrAPIKey : string;
  ClrModel : string;
}.

Record datadogStatusResponse := {
  DsrStatus : string;
  DsrLastCheckedAt : option Z;
  DsrLastError : option string;
}.
Record sloSummaryResponse := {
  SsrID : string;
  SsrName : string;
  SsrSLOType : string;
  SsrDatadogServiceTag : string;
}.
Record emailProviderResponse := {
  EprProvider : string;
  EprStatus : string;
  EprFromEmail : string;
  EprFromName : string;
  EprLastCheckedAt : option Z;
  EprLastError : option string;
}.
Record listEmailProvidersResponse := {
  LerActiveProvider : option string;
  LerProviders : list emailProviderResponse;
  LerTotal : Z;
  LerPage : Z;
  LerPageSize : Z;
}.
Record llmProviderResponse := {
  LrpProvider : string;
  LrpModel : string;
  LrpStatus : string;
  LrpLastCheckedAt : option Z;
  LrpLastError : option string;
}.
Record listLLMProvidersResponse := {
  LlpActiveProvider : option string;
  LlpProviders : list llmProviderResponse;
  LlpTotal : Z;
  LlpPage : Z;
  LlpPageSize : Z;
  LlpRootCauseEnrichmentEnabled : bool;
}.
Record pollerIntegrationStatus := {
  PisProvider : string;
  PisStatus : string;
  PisLastCheckedAt : option Z;
  PisLastError : option string;
}.
Record pollerStatusResponse := {
  LeaderElected : bool;
  PollerRunning : bool;
  Replica : option PollerLeader;
  ChecksLastMinute : Z;
  PsrItems : list pollerIntegrationStatus;
  PsrTotal : Z;
  PsrPage : Z;
  PsrPageSize : Z;
}.

Inductive provider_payload :=
| DoneJson (status : string)                      (* the body names only a status *)
| DatadogStatusJson (x : datadogStatusResponse)
| SLOsJson (l : list sloSummaryResponse)
| EmailProvidersJson (x : listEmailProvidersResponse)
| LLMProvidersJson (x : listLLMProvidersResponse)
| LLMSettingsJson (enabled : bool)
| PollerStatusJson (x : pollerStatusResponse)
| ProviderDisconnected.

Definition datadogAuditTargetLabel : string := "Datadog".
Definition llmSettingsAuditTargetLabel : string := "Configurações de IA".
Definition invalidDatadogCredentialsBody : string :=
  "invalid datadog api key or app key, or missing slo read permission".
Definition datadogIntegrationNotFoundBody : string := "datadog integration not connected yet".
Definition unknownEmailProviderBody : string := "unknown email provider".
Definition invalidEmailProviderBody : string := "invalid email provider api key, from_email, or from_name".
Definition emailProviderNotConnectedBody : string := "email provider not connected".
Definition unknownLLMProviderBody : string := "unknown llm provider".
Definition invalidLLMProviderBody : string := "invalid llm provider api key".
Definition unknownLLMModelBody : string := "unknown model for llm provider".
Definition llmProviderNotConnectedBody : string := "llm provider not connected".
Definition invalidLLMSettingsBody : string := "invalid request body".

Definition providerDisplayName (provider : string) : string :=
  if String.eqb provider "sendgrid" then "SendGrid"
  else if String.eqb provider "resend" then "Resend" else provider.
Definition isKnownEmailProvider (provider : string) : bool :=
  String.eqb provider "sendgrid" || String.eqb provider "resend".
Definition llmProviderDisplayName (provider : string) : string :=
  if String.eqb provider "openai" then "OpenAI" else provider.
Definition isKnownLLMProvider (provider : string) : bool := String.eqb provider "openai".

Abbreviation PH := (Handle provider_payload).
Definition provider_error (code : Z) (msg : string) : response provider_payload := Response code (ErrorBody msg).
Definition provider_answer (code : Z) (p : provider_payload) : response provider_payload := Response code (Json p).

(** ** Handlers *)

Section provider_handlers.
Context `{!Driver, !Machine, !Http, !Zones, !MailLibrary, !Config, !LlmHttp, !DatadogHttp, !PollerOutside}.

(** A call of the mail service or of the language model's, on the request's
    connection; its questions are counted with the machine's. *)
Definition on_service {E A} (c : M mstate E A) : PH (res E A) :=
  λ s, let '(r, m) := c (MState (h_db s) [] (h_ev s)) in
       (Ok r, HState (m_db m) (h_mails s) (h_sent s) (h_tasks s) (m_ev m)
                (h_page_checks s) (h_domain_checks s) (h_own s)).

(** The audit entry of a row that is still found; a failure is logged. *)
Definition audit_found {A} (c : rctx) (find : M (session database) db_err A) (id_of : A → string)
    (label action : string) : PH unit :=
  row <- try_db find ;;
  match row with
  | Ok x => try_id (AuditRecord (UserID (cx_user c)) (id_of x) label action) ;;; ret tt
  | Err _ => ret tt
  end.

(** *** integrations_handler.go *)

Definition ConnectDatadog (req : option connectDatadogRequest) (c : rctx) : PH (response provider_payload) :=
  let invalid := provider_error StatusUnprocessableEntity invalidDatadogCredentialsBody in
  match req with
  | None => fail invalid
  | Some req =>
      reject (String.eqb (CdrAPIKey req) "" || String.eqb (CdrAppKey req) "") invalid (
      valid <- ask (dd_ValidateCredentials (CdrAPIKey req) (CdrAppKey req)) ;;
      reject (negb (is_ok valid)) invalid (
      encryptedAPIKey <- ask (λ n, Encrypt n cfg_masterKey (CdrAPIKey req)) ;;
      encryptedAPIKey <- some_or_500 encryptedAPIKey ;;
      encryptedAppKey <- ask (λ n, Encrypt n cfg_masterKey (CdrAppKey req)) ;;
      encryptedAppKey <- some_or_500 encryptedAppKey ;;
      call (UpsertDatadog encryptedAPIKey encryptedAppKey) internal_error ;;;
      ask poller_Restart ;;;
      audit_found c (on_db_core GetDatadog) IntID datadogAuditTargetLabel "datadog_connected" ;;;
      ret (provider_answer StatusCreated (DoneJson "connected"))))
  end.

Definition DatadogStatus (c : rctx) : PH (response provider_payload) :=
  integration <- call GetDatadog (λ e,
    if decide (e = ErrNotFound) then provider_error StatusNotFound datadogIntegrationNotFoundBody
    else writeInternalError) ;;
  ret (provider_answer StatusOK (DatadogStatusJson
    {| DsrStatus := IntStatus integration; DsrLastCheckedAt := IntLastCheckedAt integration;
       DsrLastError := IntLastError integration |})).

Definition to_sloSummaryResponse (x : SLOSummary) : sloSummaryResponse :=
  {| SsrID := SloSumID x; SsrName := SloSumName x; SsrSLOType := SloSumType x;
     SsrDatadogServiceTag := SloSumServiceTag x |}.
Definition writeSLOSummaries (l : list sloSummaryResponse) : response provider_payload :=
  provider_answer StatusOK (SLOsJson l).
Definition HandleSearchSLOs (query : string) (c : rctx) : PH (response provider_payload) :=
  integration <- call GetDatadog (λ e,
    if decide (e = ErrNotFound) then writeSLOSummaries [] else writeInternalError) ;;
  apiKey <- some_or_500 (Decrypt cfg_masterKey (IntEncryptedAPIKey integration)) ;;
  appKey <- some_or_500 (Decrypt cfg_masterKey (IntEncryptedAppKey integration)) ;;
  slos <- ask (λ n, SearchSLOs apiKey appKey n query) ;;
  slos <- or_500 slos ;;
  ret (writeSLOSummaries (to_sloSummaryResponse <$> slos)).

(** *** email_providers_handler.go *)

Definition writeUnknownEmailProvider : response provider_payload :=
  provider_error StatusNotFound unknownEmailProviderBody.
Definition writeInvalidEmailProvider : response provider_payload :=
  provider_error StatusUnprocessableEntity invalidEmailProviderBody.
Definition writeEmailProviderNotConnected : response provider_payload :=
  provider_error StatusUnprocessableEntity emailProviderNotConnectedBody.

Definition get_email_row (provider : string) : M (session database) db_err EmailProvider :=
  on_providers (Email.Get provider).

Definition ConnectEmail (provider : string) (req : option connectEmailProviderRequest) (c : rctx) :
    PH (response provider_payload) :=
  reject (negb (isKnownEmailProvider provider)) writeUnknownEmailProvider (
  match req with
  | None => fail writeInvalidEmailProvider
  | Some req =>
      r <- on_service (Connect provider (CerAPIKey req) (CerFromEmail req) (CerFromName req)) ;;
      match r with
      | Err ErrInvalidInput | Err ErrValidationFailed => fail writeInvalidEmailProvider
      | Err _ => fail writeInternalError
      | Ok _ =>
          audit_found c (get_email_row provider) EpID (providerDisplayName provider) "email_provider_connected" ;;;
          ret (provider_answer StatusCreated (DoneJson "connected"))
      end
  end).

Definition ActivateEmail (provider : string) (c : rctx) : PH (response provider_payload) :=
  reject (negb (isKnownEmailProvider provider)) writeUnknownEmailProvider (
  r <- on_service (Activate provider) ;;
  match r with
  | Err ErrProviderNotConnected => fail writeEmailProviderNotConnected
  | Err _ => fail writeInternalError
  | Ok _ =>
      audit_found c (get_email_row provider) EpID (providerDisplayName provider) "email_provider_activated" ;;;
      ret (provider_answer StatusOK (DoneJson "active"))
  end).

(** The entry of a row that was there before the delete. *)
Definition audit_row (c : rctx) (row : res db_err string) (label action : string) : PH unit :=
  match row with
  | Ok id => try_id (AuditRecord (UserID (cx_user c)) id label action) ;;; ret tt
  | Err _ => ret tt
  end.
Definition res_map {E A B} (f : A → B) (r : res E A) : res E B := match r with Ok a => Ok (f a) | Err e => Err e end.

Definition DisconnectEmail (provider : string) (c : rctx) : PH (response provider_payload) :=
  reject (negb (isKnownEmailProvider provider)) writeUnknownEmailProvider (
  row <- try_db (get_email_row provider) ;;
  r <- on_service (Disconnect provider) ;;
  or_500 r ;;;
  audit_row c (res_map EpID row) (providerDisplayName provider) "email_provider_disconnected" ;;;
  ret (provider_answer StatusNoContent ProviderDisconnected)).

Definition emailProvider_response (p : ProviderStatus) : emailProviderResponse :=
  {| EprProvider := PsProvider p; EprStatus := PsStatus p; EprFromEmail := PsFromEmail p;
     EprFromName := PsFromName p; EprLastCheckedAt := PsLastCheckedAt p; EprLastError := PsLastError p |}.
Definition ListEmail (page : string) (c : rctx) : PH (response provider_payload) :=
  r <- on_service (List (parsePage page) emailProvidersPageSize) ;;
  result <- or_500 r ;;
  ret (provider_answer StatusOK (EmailProvidersJson
    {| LerActiveProvider := nilIfEmpty (LrActiveProvider result);
       LerProviders := emailProvider_response <$> LrProviders result;
       LerTotal := LrTotal result; LerPage := LrPage result; LerPageSize := LrPageSize result |})).

(** *** llm_providers_handler.go *)

Definition writeUnknownLLMProvider : response provider_payload :=
  provider_error StatusNotFound unknownLLMProviderBody.
Definition writeInvalidLLMProvider : response provider_payload :=
  provider_error StatusUnprocessableEntity invalidLLMProviderBody.
Definition writeUnknownLLMModel : response provider_payload :=
  provider_error StatusUnprocessableEntity unknownLLMModelBody.
Definition writeLLMProviderNotConnected : response provider_payload :=
  provider_error StatusUnprocessableEntity llmProviderNotConnectedBody.

Definition get_llm_row (provider : string) : M (session database) db_err LLMProvider :=
  on_providers (Llm.Get provider).

Definition ConnectLLM (provider : string) (req : option connectLLMProviderRequest) (c : rctx) :
    PH (response provider_payload) :=
  reject (negb (isKnownLLMProvider provider)) writeUnknownLLMProvider (
  match req with
  | None => fail writeInvalidLLMProvider
  | Some req =>
      r <- on_service (llm_Connect provider (ClrAPIKey req) (ClrModel req)) ;;
      match r with
      | Err LErrInvalidInput | Err LErrValidationFailed => fail writeInvalidLLMProvider
      | Err _ => fail writeInternalError
      | Ok _ =>
          audit_found c (get_llm_row provider) LpID (llmProviderDisplayName provider) "llm_provider_connected" ;;;
          ret (provider_answer StatusCreated (DoneJson "connected"))
      end
  end).

(** The body's model, None when it does not decode. *)
Definition SetModelLLM (provider : string) (model : option string) (c : rctx) : PH (response provider_payload) :=
  reject (negb (isKnownLLMProvider provider)) writeUnknownLLMProvider (
  let model := default "" model in
  reject (String.eqb model "") writeUnknownLLMModel (
  r <- on_service (SetModel provider model) ;;
  match r with
  | Err LErrProviderNotConnected => fail writeLLMProviderNotConnected
  | Err LErrUnknownModel => fail writeUnknownLLMModel
  | Err _ => fail writeInternalError
  | Ok _ => ret (provider_answer StatusOK (DoneJson "updated"))
  end)).

Definition ActivateLLM (provider : string) (c : rctx) : PH (response provider_payload) :=
  reject (negb (isKnownLLMProvider provider)) writeUnknownLLMProvider (
  r <- on_service (llm_Activate provider) ;;
  match r with
  | Err LErrProviderNotConnected => fail writeLLMProviderNotConnected
  | Err _ => fail writeInternalError
  | Ok _ =>
      audit_found c (get_llm_row provider) LpID (llmProviderDisplayName provider) "llm_provider_activated" ;;;
      ret (provider_answer StatusOK (DoneJson "active"))
  end).

Definition DisconnectLLM (provider : string) (c : rctx) : PH (response provider_payload) :=
  reject (negb (isKnownLLMProvider provider)) writeUnknownLLMProvider (
  row <- try_db (get_llm_row provider) ;;
  r <- on_service (llm_Disconnect provider) ;;
  or_500 r ;;;
  audit_row c (res_map LpID row) (llmProviderDisplayName provider) "llm_provider_disconnected" ;;;
  ret (provider_answer StatusNoContent ProviderDisconnected)).

Definition UpdateLLMSettings (enabled : option bool) (c : rctx) : PH (response provider_payload) :=
  match enabled with
  | None => fail (provider_error StatusUnprocessableEntity invalidLLMSettingsBody)
  | Some enabled =>
      r <- on_service (llm_SetRootCauseEnrichmentEnabled enabled) ;;
      or_500 r ;;;
      try_id (AuditRecord (UserID (cx_user c)) (cx_tenant c) llmSettingsAuditTargetLabel "llm_settings_updated") ;;;
      ret (provider_answer StatusOK (LLMSettingsJson enabled))
  end.

Definition llmProvider_response (p : llm_ProviderStatus) : llmProviderResponse :=
  {| LrpProvider := LpsProvider p; LrpModel := LpsModel p; LrpStatus := LpsStatus p;
     LrpLastCheckedAt := LpsLastCheckedAt p; LrpLastError := LpsLastError p |}.
Definition ListLLM (page : string) (c : rctx) : PH (response provider_payload) :=
  r <- on_service (llm_List (parsePage page) llmProvidersPageSize) ;;
  result <- or_500 r ;;
  enabled <- on_service llm_RootCauseEnrichmentEnabled ;;
  enabled <- or_500 enabled ;;
  ret (provider_answer StatusOK (LLMProvidersJson
    {| LlpActiveProvider := nilIfEmpty (LlrActiveProvider result);
       LlpProviders := llmProvider_response <$> LlrProviders result;
       LlpTotal := LlrTotal result; LlpPage := LlrPage result; LlpPageSize := LlrPageSize result;
       LlpRootCauseEnrichmentEnabled := enabled |})).

(** *** poller_status.go *)

(** PollerLeadershipRepository.CurrentLeader: the lock table is the server's, not
    the tenant's, and no policy is on it. *)
Definition CurrentLeader : M (session database) db_err (option PollerLeader) :=
  query (λ s, lock_holder (tick s)).

Definition integration_status (i : Integration) : pollerIntegrationStatus :=
  {| PisProvider := IntProvider i; PisStatus := IntStatus i; PisLastCheckedAt := IntLastCheckedAt i;
     PisLastError := IntLastError i |}.
Definition ListPollerStatus (page : string) (c : rctx) : PH (response provider_payload) :=
  let page := parsePage page in
  r <- call (ListIntegrations page pollerStatusPageSize) internal_error ;;
  let '(l, total) := r in
  leader <- call_db CurrentLeader internal_error ;;
  now <- ask time_Now ;;
  checks <- call_db (on_intervals (CountUpdatedSince (time_add now (- pollerCheckWindow)))) internal_error ;;
  running <-
    match leader with
    | None => ret false
    | Some _ =>
        row <- try_core GetDatadog ;;
        match row with
        | Ok _ => ret true
        | Err e => if decide (e = ErrNotFound) then ret false else fail writeInternalError
        end
    end ;;
  ret (provider_answer StatusOK (PollerStatusJson
    {| LeaderElected := negb (is_none leader); PollerRunning := running; Replica := leader;
       ChecksLastMinute := checks; PsrItems := integration_status <$> l; PsrTotal := total;
       PsrPage := page; PsrPageSize := pollerStatusPageSize |})).
End provider_handlers.

(** ** Routes (internal/cli/routes.go) *)

Inductive provider_request :=
| PostDatadog (body : option connectDatadogRequest)
| GetDatadogStatus
| GetDatadogSLOs (query : string)
| PostEmail (provider : string) (body : option connectEmailProviderRequest)
| PostEmailActivate (provider : string)
| DeleteEmail (provider : string)
| GetEmail (page : string)
| PostLLM (provider : string) (body : option connectLLMProviderRequest)
| PostLLMModel (provider : string) (model : option string)
| PostLLMActivate (provider : string)
| DeleteLLM (provider : string)
| PatchLLMSettings (enabled : option bool)
| GetLLM (page : string)
| GetPollerStatus (page : string).

Definition provider_roles (r : provider_request) : list string :=
  match r with
  | GetDatadogStatus | GetEmail _ | GetLLM _ | GetPollerStatus _ => anyRole
  | _ => writeRoles
  end.
(** The routes behind requireSelfHostedMode. *)
Definition self_hosted_only (r : provider_request) : bool :=
  match r with
  | PostEmail _ _ | PostEmailActivate _ | DeleteEmail _ | GetEmail _ => true
  | _ => false
  end.

Section provider_routes.
Context `{!Driver, !Machine, !Http, !Zones, !MailLibrary, !Config, !LlmHttp, !DatadogHttp, !PollerOutside, !Jwt}.

Definition provider_handler (r : provider_request) : rctx → PH (response provider_payload) :=
  match r with
  | PostDatadog body => ConnectDatadog body
  | GetDatadogStatus => DatadogStatus
  | GetDatadogSLOs query => HandleSearchSLOs query
  | PostEmail p body => ConnectEmail p body
  | PostEmailActivate p => ActivateEmail p
  | DeleteEmail p => DisconnectEmail p
  | GetEmail page => ListEmail page
  | PostLLM p body => ConnectLLM p body
  | PostLLMModel p model => SetModelLLM p model
  | PostLLMActivate p => ActivateLLM p
  | DeleteLLM p => DisconnectLLM p
  | PatchLLMSettings enabled => UpdateLLMSettings enabled
  | GetLLM page => ListLLM page
  | GetPollerStatus page => ListPollerStatus page
  end.
(** requireSelfHostedMode, between the role gate and the handler. *)
Definition mode_gate (r : provider_request) (h : rctx → PH (response provider_payload)) :
    rctx → PH (response provider_payload) :=
  λ c, reject (self_hosted_only r && negb (String.eqb cfg_deploymentMode DeploymentModeSelfHosted))
         (provider_error StatusNotFound "404 page not found") (h c).

Definition provider_route (r : provider_request) : handler provider_payload :=
  TenantContext (RequireRole (provider_roles r) (written (mode_gate r (provider_handler r)))).
Definition serve_provider (now : Z) (secret : string) (req : credentials) (r : provider_request)
    (s : hstate) : response provider_payload * hstate :=
  RequireAuth now secret req (provider_route r) s.
Fixpoint serve_providers (secret : string) (l : list (Z * credentials * provider_request)) (s : hstate) : hstate :=
  match l with
  | [] => s
  | (now, req, r) :: l => serve_providers secret l (serve_provider now secret req r s).2
  end.
End provider_routes.
