(* ===== verification/ProvidersSafety.v ===== *)
(** * What requests to the integration routes may do

    Each handler moves the database by steps of the repositories it calls, on the
    tenant its token is for; the Datadog keys that a tenant connects are the ones
    its searches are asked with. *)

From stdpp Require Import numbers strings gmap list.
From Stdlib Require Import ZArith Lia Floats.
From S2P Require Import Prelude GoNum Db Schema Intervals Identity LLMProviders Providers Secrets Auth Accounts Tenants Api Inert Handler IncidentApi GoTime Retry Services Integrations AuthApi AccountApi AccountDemo AccountMembers MailData Connectors Mail MailDelivery Prompts LlmService LlmRun Datadog ProvidersApi.

#[local] Open Scope Z_scope.
#[local] Open Scope go_scope.

(** ** Service code *)

Section service_code.
Context (R : string → bool → relation database) `{!∀ t b, PreOrder (R t b)}.

Definition sv_keeps {E A} (c : M mstate E A) : Prop := ∀ m,
  app_tenant (m_db (c m).2) = app_tenant (m_db m) ∧ bypass_rls (m_db (c m).2) = bypass_rls (m_db m) ∧
  R (app_tenant (m_db m)) (bypass_rls (m_db m)) (tables (m_db m)) (tables (m_db (c m).2)).

Lemma sv_same {E A} (c : M mstate E A) : (∀ m, m_db (c m).2 = m_db m) → sv_keeps c.
Proof. intros Hc m. by rewrite Hc. Qed.
Lemma sv_then {E A B} (c : M mstate E A) (k : A → M mstate E B) :
  sv_keeps c → (∀ a m m', c m = (Ok a, m') → sv_keeps (k a)) → sv_keeps (bind c k).
Proof.
  intros Hc Hk m. unfold bind. destruct (Hc m) as (H1' & H2' & H3').
  destruct (c m) as [[a|e] m1] eqn:Ec; [|done]. destruct (Hk a m m1 Ec m1) as (H4' & H5' & H6'). cbn in *.
  rewrite H1', H2' in H6'. split_and!; [congruence..|]. by etrans.
Qed.
Lemma sv_bind {E A B} (c : M mstate E A) (k : A → M mstate E B) :
  sv_keeps c → (∀ a, sv_keeps (k a)) → sv_keeps (bind c k).
Proof. intros Hc Hk. apply sv_then; auto. Qed.
Lemma sv_store {A} (q : M (session database) db_err A) : preserves R q → sv_keeps (store q).
Proof.
  intros Hq m. unfold store. destruct (Hq (m_db m)) as (H1' & H2' & H3'). by destruct (q (m_db m)) as [[a|e] s].
Qed.
Lemma sv_or_error {A} e (c : MM A) : sv_keeps c → sv_keeps (or_error e c).
Proof. intros Hc m. unfold or_error. specialize (Hc m). by destruct (c m) as [[]]. Qed.
Lemma sv_or_missing {A} e (c : MM A) : sv_keeps c → sv_keeps (or_missing e c).
Proof. intros Hc m. unfold or_missing. specialize (Hc m). destruct (c m) as [[|e0] m']; [done|]. by repeat case_match. Qed.

Context `{!Driver}.
Lemma on_service_moves {E A} (c : M mstate E A) : sv_keeps c → h_along (db_moves R) (on_service c).
Proof.
  intros Hc s. unfold on_service. specialize (Hc (MState (h_db s) [] (h_ev s))).
  destruct (c _) as [r m]. cbn in *. destruct Hc as (H1' & H2' & H3'). by split_and!.
Qed.
End service_code.

(** ** Steps of the integration routes *)

Section moves.
Context `{!Driver, !Machine, !Http, !Zones, !MailLibrary, !Config, !LlmHttp, !DatadogHttp, !PollerOutside, !Jwt}.

Record pmoves (t : string) (b : bool) (d d' : database) : Prop := {
  pm_core : isolated t b (db_core d) (db_core d');
  pm_providers : pstep t b (db_providers d) (db_providers d');
  pm_models : models_allowed (db_providers d) → models_allowed (db_providers d');
  pm_intervals : db_intervals d' = db_intervals d;
  pm_mode : cfg_deploymentMode ≠ DeploymentModeSelfHosted →
    email_providers (db_providers d') = email_providers (db_providers d) ∧
    email_settings (db_providers d') = email_settings (db_providers d);
}.
#[export] Instance pmoves_preorder t b : PreOrder (pmoves t b).
Proof.
  split; [by intros d|]. intros d1 d2 d3 [A1 B1 C1 D1 E1] [A2 B2 C2 D2 E2].
  split; [by etrans|by etrans|auto|congruence|]. intros Hm.
  destruct (E1 Hm), (E2 Hm). split; congruence.
Qed.
Lemma pmoves_blind t b i d : pmoves t b d (set_identity i d).
Proof. by destruct d. Qed.

Lemma pm_on_core {A} (m : M (session core) db_err A) : preserves isolated m → preserves pmoves (on_db_core m).
Proof.
  intros Hm s. destruct (Hm (retable (db_core (tables s)) s)) as (H1' & H2' & H3').
  unfold on_db_core, focus. destruct (m _) as [r s']. cbn in *. by split.
Qed.
Lemma pm_inert {A} (m : M (session database) db_err A) : inert m → preserves pmoves m.
Proof. apply preserves_mono. intros t b d d' E. unfold untouched_db in E. by subst. Qed.
Lemma pm_on_llm {A} (m : M (session providers_db) db_err A) : preserves lstep m → preserves pmoves (on_providers m).
Proof.
  intros Hm s. destruct (Hm (retable (db_providers (tables s)) s)) as ([] & H2' & H3').
  unfold on_providers, focus. destruct (m _) as [r s']. cbn in *. by split.
Qed.

(** A statement on the mail tables, on an instance that hosts itself. *)
Definition email_step (t : string) (b : bool) (d d' : providers_db) : Prop :=
  pstep t b d d' ∧ llm_providers d' = llm_providers d.
#[local] Instance email_step_preorder t b : PreOrder (email_step t b).
Proof. split; [by intros d|]. intros d1 d2 d3 [] []. split; [by etrans|congruence]. Qed.
Lemma pm_on_email {A} (m : M (session providers_db) db_err A) :
  cfg_deploymentMode = DeploymentModeSelfHosted → preserves email_step m → preserves pmoves (on_providers m).
Proof.
  intros Hmode Hm s. destruct (Hm (retable (db_providers (tables s)) s)) as ([Hp Hl] & H2' & H3').
  unfold on_providers, focus. destruct (m _) as [r s']. cbn in *. split; [|done].
  split; cbn; try done. intros Hd t p row. rewrite Hl. apply Hd.
Qed.
Definition same_llm (_ : string) (_ : bool) (d d' : providers_db) : Prop := llm_providers d' = llm_providers d.
#[local] Instance same_llm_preorder t b : PreOrder (same_llm t b).
Proof. unfold same_llm. split; [by intros d|]. intros d1 d2 d3. congruence. Qed.
Lemma email_only {A} (m : M (session providers_db) db_err A) :
  preserves pstep m → preserves same_llm m → preserves email_step m.
Proof. intros Hm Hm'. apply (preserves_mono _ _ _ (λ _ _ _ _ H, H)), (preserves_and _ _ _ Hm Hm'). Qed.

Lemma llm_service_keeps {A} (c : LM A) : lm_keeps c → sv_keeps pmoves c.
Proof.
  intros Hc m. destruct (Hc m) as [[] ? Hcore ? ? ?]. split_and!; [done..|].
  split; try done. by rewrite Hcore.
Qed.

(** *** The mail service *)

Lemma mail_row_upsert_step p k e n : preserves email_step (Email.UpsertProvider p k e n).
Proof.
  apply email_only; [apply email_upsert_keeps|].
  apply (preserves_stmt same_llm). intros s a d. cbv zeta.
  destruct (default_tenant s); [|done]. destruct (negb _); [done|].
  destruct (_ !! _); [by intros [= _ <-]|]. destruct (id_free _ _ _); [by intros [= _ <-]|done].
Qed.
Lemma mail_active_step p : preserves email_step (Email.SetActiveProvider p).
Proof.
  apply email_only; [apply email_set_active_keeps|].
  apply (preserves_stmt same_llm). intros s a d.
  destruct (default_tenant s); [|done]. destruct (_ !! _); [by intros [= _ <-]|done].
Qed.
Lemma mail_row_delete_step p : preserves email_step (Email.DeleteProvider p).
Proof.
  apply email_only; [apply email_delete_keeps|].
  apply (preserves_stmt same_llm). intros s a d. cbv zeta.
  destruct (String.eqb _ _); by intros [= _ <-].
Qed.

Lemma sv_do req : sv_keeps pmoves (do req).
Proof. apply (sv_same pmoves). intros m. reflexivity. Qed.
Lemma sv_factory p key : sv_keeps pmoves (emailProviderFactory p key).
Proof. apply (sv_same pmoves). intros m. unfold emailProviderFactory. by repeat case_match. Qed.
Lemma sv_validate p key c m m' :
  emailProviderFactory p key m = (Ok c, m') → sv_keeps pmoves (provider_ValidateCredentials c).
Proof.
  unfold emailProviderFactory. destruct (String.eqb p "sendgrid"); [intros [= <- _]; apply sv_do|].
  destruct (String.eqb p "resend"); [intros [= <- _]; apply sv_do|done].
Qed.

Lemma Connect_keeps p k e n : cfg_deploymentMode = DeploymentModeSelfHosted → sv_keeps pmoves (Connect p k e n).
Proof.
  intros Hmode. unfold Connect. destruct (_ || _ || _); [by apply (sv_same pmoves)|]. destruct (negb _); [by apply (sv_same pmoves)|].
  apply (sv_then pmoves); [apply (sv_or_error pmoves), sv_factory|]. intros c m m' E.
  apply or_error_inv in E as (r0 & E & Er). destruct r0 as [c'|]; [|done]. injection Er as ->.
  apply (sv_bind pmoves); [by eapply (sv_or_error pmoves), sv_validate|]. intros _.
  apply (sv_bind pmoves); [by apply (sv_same pmoves)|]. intros key.
  by apply (sv_store pmoves), pm_on_email, mail_row_upsert_step.
Qed.
Lemma Activate_keeps p : cfg_deploymentMode = DeploymentModeSelfHosted → sv_keeps pmoves (Activate p).
Proof.
  intros Hmode. apply (sv_bind pmoves); [apply (sv_or_missing pmoves), (sv_store pmoves), pm_inert, providers_inert, email_Get_inert|].
  intros ep. destruct (negb _); [by apply (sv_same pmoves)|]. by apply (sv_store pmoves), pm_on_email, mail_active_step.
Qed.
Lemma List_keeps page size : sv_keeps pmoves (List page size).
Proof.
  apply (sv_bind pmoves); [apply (sv_store pmoves), pm_inert, providers_inert, (preserves_paginated untouched_db)|]. intros l.
  apply (sv_bind pmoves); [apply (sv_store pmoves), pm_inert, providers_inert, inert_query|]. intros a. by apply (sv_same pmoves).
Qed.

(** *** Handlers *)

Lemma audit_moves u id label action : h_along (db_moves pmoves) (P := provider_payload) (try_id (AuditRecord u id label action)).
Proof.
  apply db_moves_try; [apply _|]. apply on_identity_moves; [apply pmoves_blind|].
  apply (preserves_stmt (λ _ _, sessions_kept)). intros s a d Hf. destruct (default_tenant s); [|done].
  injection Hf as _ <-. intros i x Hx. by exists x.
Qed.
Lemma audit_found_moves {A} c (find : M (session database) db_err A) id_of label action :
  inert find → h_along (db_moves pmoves) (audit_found c find id_of label action).
Proof.
  intros Hf. apply h_along_bind; [apply _|apply db_moves_try, pm_inert; [apply _|done]|]. intros [x|e].
  - apply h_along_bind; [apply _|apply audit_moves|]. intros ?. apply h_along_ret, _.
  - apply h_along_ret, _.
Qed.
Lemma audit_row_moves c row label action : h_along (db_moves pmoves) (audit_row c row label action).
Proof.
  destruct row; [|apply h_along_ret, _]. apply h_along_bind; [apply _|apply audit_moves|]. intros ?. apply h_along_ret, _.
Qed.
Lemma llm_Get_inert p : inert (Llm.Get p).
Proof. apply inert_then. intros. apply (preserves_or_not_found untouched_db). Qed.
Lemma GetDatadog_inert : inert GetDatadog.
Proof. apply inert_then. intros. apply (preserves_or_not_found untouched_db). Qed.
Lemma core_inert_moves {A} (m : M (session core) db_err A) : inert m → preserves pmoves (on_db_core m).
Proof. intros Hm. by apply pm_inert, core_inert. Qed.
End moves.

(** One step of a handler's code. *)
Ltac provider_step :=
  match goal with
  | |- h_along _ (ret _) => apply h_along_ret, _
  | |- h_along _ (fail _) => apply h_along_fail, _
  | |- h_along _ (reject _ _ _) => apply h_along_reject; [apply _|]
  | |- h_along _ (bind _ _) => apply h_along_bind; [apply _| |intros ?]
  | |- h_along _ (some_or_500 _) => apply h_along_some, _
  | |- h_along _ (or_500 _) => apply h_along_or_500, _
  | |- h_along _ (ask _) => apply db_moves_ask, _
  | |- h_along _ (audit_found _ _ _ _ _) => apply audit_found_moves
  | |- h_along _ (audit_row _ _ _ _) => apply audit_row_moves
  | |- h_along _ (try_id (AuditRecord _ _ _ _)) => apply audit_moves
  | |- h_along _ (on_service _) => apply (on_service_moves pmoves)
  | |- h_along _ (call _ _) => apply db_moves_call; [apply _|]
  | |- h_along _ (call_db _ _) => apply db_moves_call; [apply _|]
  | |- h_along _ (try_core _) => apply db_moves_try; [apply _|]
  | |- h_along _ (try_db _) => apply db_moves_try; [apply _|]
  | |- h_along _ (match ?o with _ => _ end) => destruct o
  end.

Section handlers.
Context `{!Driver, !Machine, !Http, !Zones, !MailLibrary, !Config, !LlmHttp, !DatadogHttp, !PollerOutside, !Jwt}.

Lemma mode_gate_moves r c : h_along (db_moves pmoves) (mode_gate r (provider_handler r) c).
Proof.
  unfold mode_gate. destruct (self_hosted_only r && _) eqn:Hg; [apply h_along_fail, _|]. cbn [reject].
  assert (self_hosted_only r = true → cfg_deploymentMode = DeploymentModeSelfHosted) as Hmode.
  { intros Hs. rewrite Hs in Hg. cbn in Hg. by apply negb_false_iff, String.eqb_eq in Hg. }
  destruct r; cbn [provider_handler self_hosted_only] in *;
    unfold ConnectDatadog, DatadogStatus, HandleSearchSLOs, ConnectEmail, ActivateEmail, DisconnectEmail, ListEmail,
      ConnectLLM, SetModelLLM, ActivateLLM, DisconnectLLM, UpdateLLMSettings, ListLLM, ListPollerStatus; cbv zeta;
    repeat provider_step.
  all: first
    [ by apply core_inert_moves, GetDatadog_inert | by apply core_inert, GetDatadog_inert
    | by apply pm_on_core, UpsertDatadog_isolated
    | by apply core_inert_moves, (preserves_paginated untouched_db)
    | by apply providers_inert, email_Get_inert
    | by apply pm_inert, providers_inert, email_Get_inert
    | by apply providers_inert, llm_Get_inert
    | by apply Connect_keeps, Hmode | by apply Activate_keeps, Hmode | apply List_keeps
    | by apply (sv_store pmoves), pm_on_email, mail_row_delete_step; apply Hmode
    | apply llm_service_keeps, connect_keeps | apply llm_service_keeps, set_model_keeps
    | by apply llm_service_keeps, lm_bind; [apply connected_keeps|intros; apply lm_store, set_active_lstep]
    | by apply llm_service_keeps, lm_store, delete_lstep
    | by apply llm_service_keeps, lm_store, set_root_cause_lstep
    | apply llm_service_keeps, list_keeps
    | by apply llm_service_keeps, lm_store, llm_query_lstep
    | by apply pm_inert, providers_inert, llm_Get_inert
    | by apply pm_inert, inert_query
    | by apply pm_inert, intervals_inert, inert_query ].
Qed.

Lemma serve_provider_moves now secret req r s :
  let s' := (serve_provider now secret req r s).2 in
  db_request_moves pmoves "" s s' ∨
  ∃ c, VerifySessionClaims now (request_token req) secret = Ok c ∧ db_request_moves pmoves (ScTenantID c) s s'.
Proof.
  apply (RequireAuth_db_moves pmoves); [intros; apply pmoves_blind|]. intros c h.
  apply (TenantContext_db_moves pmoves). intros c'. apply mode_gate_moves.
Qed.
End handlers.

(** C3: what requests to the integration routes may do.  Whatever a sequence of
    them carries, by whoever, whatever fails of the database, the mail services,
    OpenAI and Datadog: stored models stay on the allow-list, every active provider
    stays a connected one, status intervals are not touched, and on an instance
    that is not self-hosted the mail tables do not change at all.  Under row
    security a tenant that is not the active one of any of their tokens keeps its
    services, integrations, incidents and providers. *)
Theorem provider_requests_safe `{!Driver, !Machine, !Http, !Zones, !MailLibrary, !Config, !LlmHttp, !DatadogHttp,
    !PollerOutside, !Jwt} (secret : string) (l : list (Z * credentials * provider_request)) (u : string) (s : hstate) :
  let d := tables (h_db s) in
  let d' := tables (h_db (serve_providers secret l s)) in
  models_allowed (db_providers d) → providers_wf (db_providers d) →
  models_allowed (db_providers d') ∧ providers_wf (db_providers d') ∧
  db_intervals d' = db_intervals d ∧
  (cfg_deploymentMode ≠ DeploymentModeSelfHosted →
     email_providers (db_providers d') = email_providers (db_providers d) ∧
     email_settings (db_providers d') = email_settings (db_providers d)) ∧
  (bypass_rls (h_db s) = false →
   (∀ now req r c, (now, req, r) ∈ l → VerifySessionClaims now (request_token req) secret = Ok c → ScTenantID c ≠ u) →
   u ≠ "" → untouched u (db_core d) (db_core d') ∧ same_providers u (db_providers d) (db_providers d')).
Proof.
  cbv zeta. revert s. induction l as [|[[now req] r] l IH]; intros s Hm Hw; [by split_and!|]. cbn [serve_providers].
  pose proof (serve_provider_moves now secret req r s) as HM. cbv zeta in HM.
  set (s1 := (serve_provider now secret req r s).2) in *.
  assert (∃ t, (t = "" ∨ ∃ c, VerifySessionClaims now (request_token req) secret = Ok c ∧ ScTenantID c = t) ∧
    bypass_rls (h_db s1) = bypass_rls (h_db s) ∧ pmoves t (bypass_rls (h_db s)) (tables (h_db s)) (tables (h_db s1)))
    as (t & Ht & Hb & [Hcore [Hwf Hsame] Hmodels Hiv Hmode]).
  { destruct HM as [(_ & Hb & HR)|(c & Hc & _ & Hb & HR)]; [exists ""|exists (ScTenantID c)].
    - split; [by left|done].
    - split; [right; by exists c|done]. }
  destruct (IH s1 (Hmodels Hm) (Hwf Hw)) as (Hm' & Hw' & Hi' & He' & Hiso).
  split_and!; [done|done|congruence| |].
  - intros Hn. destruct (Hmode Hn), (He' Hn). split; congruence.
  - intros Hby Hl Hu.
    destruct Hiso as [Hc' Hp']; [congruence|intros; eapply Hl; [by right|done]|done|].
    assert (t ≠ u) as Htu.
    { destruct Ht as [->|(c & Hc & <-)]; [congruence|]. eapply Hl; [by left|exact Hc]. }
    split.
    + etrans; [|exact Hc']. apply (isolated_untouched t); [by apply Hcore|]. right. congruence.
    + etrans; [|exact Hp']. apply Hsame; congruence.
Qed.

(** ** The Datadog keys *)

Section datadog_keys.
Context `{!Driver, !Machine, !Config, !DatadogHttp, !PollerOutside}.

(** Code of a handler that leaves the core tables alone. *)
Definition core_still (s s' : hstate) : Prop := db_core (tables (h_db s')) = db_core (tables (h_db s)).
#[local] Instance core_still_preorder : PreOrder core_still.
Proof. unfold core_still. split; [by intros s|]. intros s1 s2 s3. congruence. Qed.

Lemma core_still_try {A} (m : M (session database) db_err A) :
  (∀ s, db_core (tables (m s).2) = db_core (tables s)) → h_along core_still (P := provider_payload) (try_db m).
Proof. intros Hm s. unfold try_db. specialize (Hm (h_db s)). by destruct (m (h_db s)). Qed.
Lemma audit_found_core {A} c (find : M (session database) db_err A) id_of label action :
  inert find → h_along core_still (audit_found c find id_of label action).
Proof.
  intros Hf. apply h_along_bind; [apply _|apply core_still_try; intros s; by destruct (Hf s) as (-> & _)|].
  intros [x|e]; [|apply h_along_ret, _]. apply h_along_bind; [apply _| |intros ?; apply h_along_ret, _].
  apply core_still_try. intros s. unfold on_identity, focus. by destruct (AuditRecord _ _ _ _ _).
Qed.
Lemma audit_found_ok {A} c (find : M (session database) db_err A) id_of label action s :
  (audit_found c find id_of label action s).1 = Ok tt.
Proof.
  unfold audit_found, bind, try_id, try_db. destruct (find (h_db s)) as [[x|e] d]; [|done].
  cbn. by destruct (on_identity _ d).
Qed.
Lemma UpsertDatadog_Err k a s e s' : UpsertDatadog k a s = (Err e, s') → tables s' = tables s.
Proof. intros [(e0 & _ & E)|(x & d & _ & E & _)]%stmt_inv; [exact E|discriminate E]. Qed.

Lemma ConnectDatadog_inv req c s r s' :
  machine_laws → ConnectDatadog (Some req) c s = (r, s') →
  match r with
  | Err rsp => 400 <= rsp_status rsp ∧ db_core (tables (h_db s')) = db_core (tables (h_db s))
  | Ok rsp =>
      rsp = provider_answer StatusCreated (DoneJson "connected") ∧ app_tenant (h_db s) ≠ "" ∧
      dd_ValidateCredentials (CdrAPIKey req) (CdrAppKey req) (h_ev s) = Ok tt ∧
      ∃ id k a, Decrypt cfg_masterKey k = Some (CdrAPIKey req) ∧ Decrypt cfg_masterKey a = Some (CdrAppKey req) ∧
        integrations (db_core (tables (h_db s'))) !! app_tenant (h_db s) = Some (new_integration id k a)
  end.
Proof.
  intros Hlaws. unfold ConnectDatadog. cbv zeta. destruct (_ || _); [by intros [= <- <-]|]. cbn [reject].
  unfold bind at 1, ask at 1. destruct (dd_ValidateCredentials _ _ (h_ev s)) as [[]|e] eqn:Ev; cbn [is_ok negb reject];
    [|by intros [= <- <-]].
  unfold bind at 1, ask at 1. cbn [h_ev bump_h_ev].
  destruct (Encrypt _ _ (CdrAPIKey req)) as [k|] eqn:Ek; [|by intros [= <- <-]].
  unfold bind at 1, some_or_500 at 1, ret at 1. unfold bind at 1, ask at 1. cbn [h_ev bump_h_ev].
  destruct (Encrypt _ _ (CdrAppKey req)) as [a|] eqn:Ea; [|by intros [= <- <-]].
  unfold bind at 1, some_or_500 at 1, ret at 1. unfold bind at 1, call, call_db, on_db_core, focus.
  set (s1 := bump_h_ev _). destruct (UpsertDatadog k a _) as [[x|e] d] eqn:Eu.
  - apply UpsertDatadog_inv in Eu as (Ht & _ & _ & _ & id & Hi). cbn in Ht, Hi.
    set (s2 := set_h_db _ s1). intros E.
    match type of E with ?m s2 = _ => assert (h_along core_still m) as Hs end.
    { apply h_along_bind; [apply _|by intros ?|]. intros ?.
      apply h_along_bind; [apply _|by apply audit_found_core, core_inert, GetDatadog_inert|].
      intros ?. apply h_along_ret, _. }
    specialize (Hs s2). rewrite E in Hs. unfold core_still in Hs. cbn in Hs.
    unfold bind in E. cbn in E.
    match type of E with context [audit_found ?c ?f ?i ?l ?a ?x] => pose proof (audit_found_ok c f i l a x) as Ha end.
    destruct (audit_found _ _ _ _ _ _) as [[[]|] s3]; [|done]. injection E as <- _.
    split_and!; [done..|]. exists id, k, a. split_and!; [by eapply decrypt_encrypted..|].
    by rewrite Hs, Hi, lookup_insert_eq.
  - apply UpsertDatadog_Err in Eu. intros [= <- <-]. by rewrite Eu.
Qed.

(** A search answers what the server finds for the stored keys. *)
Lemma HandleSearchSLOs_run query c s id k a apiKey appKey :
  bypass_rls (h_db s) = false → app_tenant (h_db s) ≠ "" →
  aborted (h_db s) = false → event_fails (tick (h_db s)) = false →
  integrations (db_core (tables (h_db s))) !! app_tenant (h_db s) = Some (new_integration id k a) →
  Decrypt cfg_masterKey k = Some apiKey → Decrypt cfg_masterKey a = Some appKey →
  (HandleSearchSLOs query c s).1 =
    match SearchSLOs apiKey appKey (h_ev s) query with
    | Ok slos => Ok (writeSLOSummaries (to_sloSummaryResponse <$> slos))
    | Err _ => Err writeInternalError
    end.
Proof.
  intros Hb Ht Hab Hf Hi Hk Ha. set (d := retable (db_core (tables (h_db s))) (h_db s)).
  pose proof (seen_own d _ Hb Ht Hi) as Hseen.
  assert (GetDatadog d = (Ok (to_integration (new_integration id k a)), bump d)) as Eg.
  { unfold GetDatadog, bind, Db.query, stmt. cbn [aborted tick d retable]. rewrite Hab, Hf, Hseen. done. }
  unfold HandleSearchSLOs, bind at 1, call, call_db, on_db_core, focus. fold d. rewrite Eg. cbn.
  rewrite Hk, Ha. cbn. by destruct (SearchSLOs _ _ _ _).
Qed.
End datadog_keys.

(** C39: connecting Datadog stores the keys it was given.  A refused connect leaves
    services, incidents and integrations as they were and answers an error.  An
    accepted one was for keys Datadog validated, and any later search of the tenant
    that runs under row security on a working connection, while the row is not
    replaced, is asked with exactly these keys: what is stored opens to them, in
    whatever state the request is then. *)
Theorem datadog_keys_round_trip `{!Driver, !Machine, !Config, !DatadogHttp, !PollerOutside}
    (req : connectDatadogRequest) (c c' : rctx) (query : string) (s s1 s2 : hstate) r :
  machine_laws → ConnectDatadog (Some req) c s = (r, s1) →
  app_tenant (h_db s2) = app_tenant (h_db s) → bypass_rls (h_db s2) = false →
  aborted (h_db s2) = false → event_fails (tick (h_db s2)) = false →
  integrations (db_core (tables (h_db s2))) !! app_tenant (h_db s) =
    integrations (db_core (tables (h_db s1))) !! app_tenant (h_db s) →
  match r with
  | Err rsp => 400 <= rsp_status rsp ∧ db_core (tables (h_db s1)) = db_core (tables (h_db s))
  | Ok rsp =>
      rsp_status rsp = StatusCreated ∧
      dd_ValidateCredentials (CdrAPIKey req) (CdrAppKey req) (h_ev s) = Ok tt ∧
      (HandleSearchSLOs query c' s2).1 =
        match SearchSLOs (CdrAPIKey req) (CdrAppKey req) (h_ev s2) query with
        | Ok slos => Ok (writeSLOSummaries (to_sloSummaryResponse <$> slos))
        | Err _ => Err writeInternalError
        end
  end.
Proof.
  intros Hlaws E Ht Hb Ha Hf Hi. apply ConnectDatadog_inv in E; [|done]. destruct r as [rsp|rsp]; [|exact E].
  destruct E as (-> & Hne & Hv & id & k & a & Hk & Hk' & Hrow). rewrite Hrow in Hi.
  split_and!; [done..|]. eapply HandleSearchSLOs_run; try done; by rewrite Ht.
Qed.

(** a model outside the allow-list is the server's error.  The handler's comment
    promises 422 for invalid input; the service's unknown-model error is not among
    those it maps, so connecting a known provider with a model that is not on its
    list, whatever the key and the network, answers 500 and stores nothing. *)
Theorem llm_connect_unknown_model_500 `{!Driver, !Machine, !Config, !LlmHttp}
    (req : connectLLMProviderRequest) (c : rctx) (s : hstate) :
  ClrAPIKey req ≠ "" → ClrModel req ≠ "" → isAllowedModel "openai" (ClrModel req) = false →
  (ConnectLLM "openai" (Some req) c s).1 = Err writeInternalError ∧
  tables (h_db (ConnectLLM "openai" (Some req) c s).2) = tables (h_db s).
Proof.
  intros Hk Hm Ha. apply String.eqb_neq in Hk, Hm.
  unfold ConnectLLM, isKnownLLMProvider. rewrite String.eqb_refl. cbn [negb reject].
  unfold bind, on_service, llm_Connect. rewrite Hk, Hm, Ha. by destruct s.
Qed.

(** ** Examples and witnesses *)

Section witnesses.
#[local] Existing Instance numbered.
#[local] Existing Instance demo_jwt.
#[local] Existing Instance demo_machine.
#[local] Existing Instance demo_http.
#[local] Existing Instance demo_zones.
#[local] Existing Instance demo_library.
#[local] Existing Instance sample_http.

(** A poller that always restarts, and nobody holding its lock. *)
#[local] Instance demo_outside : PollerOutside := {| poller_Restart _ := Ok true; lock_holder _ := None |}.

Definition provider_log : list (Z * credentials * provider_request) :=
  [(50 * second, owner_in "A", PostDatadog (Some {| CdrAPIKey := "api"; CdrAppKey := "app" |}));
   (60 * second, owner_in "A", PostEmail "sendgrid" (Some {| CerAPIKey := "SG"; CerFromEmail := "no@a.com"; CerFromName := "A" |}));
   (70 * second, owner_in "A", PostLLM "openai" (Some {| ClrAPIKey := "sk"; ClrModel := "gpt-4o" |}));
   (80 * second, owner_in "A", PostLLMActivate "openai");
   (90 * second, owner_in "B", PostLLMModel "openai" (Some "gpt-5"));
   (95 * second, owner_in "A", GetPollerStatus "1")].
Definition run_providers (cfg : Config) (l : list (Z * credentials * provider_request)) : hstate :=
  @serve_providers _ _ _ _ _ cfg (demo_llm 200) _ _ _ "secret" l (service_of false one_owner).

Example provider_log_runs :
  let d cfg := tables (h_db (run_providers cfg provider_log)) in
  is_Some (integrations (db_core (d saas)) !! "A") ∧
  size (email_providers (db_providers (d saas))) = 0%nat ∧
  size (email_providers (db_providers (d self_hosted))) = 1%nat ∧
  LsActiveProvider <$> (llm_settings (db_providers (d saas)) !! "A") = Some (Some "openai") ∧
  rsp_status (@serve_provider _ _ _ _ _ saas (demo_llm 200) _ _ _ (60 * second) "secret" (owner_in "A")
                (GetEmail "1") (service_of false one_owner)).1 = 404.
Proof. cbv zeta. split_and!; vm_compute; try reflexivity. by eexists. Qed.

Lemma provider_requests_safe_witness :
  let d := tables (h_db (service_of false one_owner)) in
  let d' := tables (h_db (run_providers saas (take 4 provider_log))) in
  is_Some (integrations (db_core d') !! "A") ∧
  (email_providers (db_providers d') = email_providers (db_providers d) ∧ untouched "B" (db_core d) (db_core d')).
Proof.
  cbv zeta. split; [vm_compute; by eexists|].
  destruct (@provider_requests_safe _ _ _ _ _ saas (demo_llm 200) _ _ _ "secret" (take 4 provider_log) "B"
    (service_of false one_owner)) as (_ & _ & _ & He & Hu).
  - intros t p row Hr. cbn in Hr. by rewrite lookup_empty in Hr.
  - split; intros; cbn in *; by match goal with E : ∅ !! _ = Some _ |- _ => rewrite lookup_empty in E end.
  - destruct He as [He _]; [vm_compute; discriminate|]. split; [exact He|].
    apply Hu; [reflexivity| |discriminate].
    intros now req r c Hin Hc.
    assert (forallb (λ e, match VerifySessionClaims e.1.1 (request_token e.1.2) "secret" with
                          | Ok c => negb (String.eqb (ScTenantID c) "B") | Err _ => true end) (take 4 provider_log) = true)
      as Hall by (vm_compute; reflexivity).
    rewrite forallb_forall in Hall. apply list_elem_of_In, Hall in Hin. cbn [fst snd] in Hin. rewrite Hc in Hin.
    by apply negb_true_iff, String.eqb_neq in Hin.
Defined.

(** A request of tenant A, in its transaction. *)
Definition in_A : hstate :=
  set_h_db (Session (tables (h_db (service_of false one_owner))) "A" false (Some 0) false 0) (service_of false one_owner).
Definition keys : connectDatadogRequest := {| CdrAPIKey := "api"; CdrAppKey := "app" |}.

Lemma datadog_keys_round_trip_witness :
  let s1 := (@ConnectDatadog _ _ saas _ _ (Some keys) ana_in_A in_A).2 in
  (@ConnectDatadog _ _ saas _ _ (Some keys) ana_in_A in_A).1 = Ok (provider_answer StatusCreated (DoneJson "connected")) ∧
  (@HandleSearchSLOs _ _ saas _ "latency" ana_in_A s1).1 =
    match SearchSLOs "api" "app" (h_ev s1) "latency" with
    | Ok slos => Ok (writeSLOSummaries (to_sloSummaryResponse <$> slos))
    | Err _ => Err writeInternalError
    end.
Proof.
  cbv zeta.
  assert ((@ConnectDatadog _ _ saas _ _ (Some keys) ana_in_A in_A).1 =
    Ok (provider_answer StatusCreated (DoneJson "connected"))) as Hr by (vm_compute; reflexivity).
  split; [exact Hr|].
  destruct (ConnectDatadog (Some keys) ana_in_A in_A) as [r s1] eqn:E. cbn in Hr. subst r.
  assert (app_tenant (h_db s1) = "A" ∧ bypass_rls (h_db s1) = false ∧ aborted (h_db s1) = false) as (Ht & Hb & Ha).
  { replace s1 with ((@ConnectDatadog _ _ saas _ _ (Some keys) ana_in_A in_A).2) by (by rewrite E).
    vm_compute. by split_and!. }
  exact (proj2 (proj2 (@datadog_keys_round_trip _ _ saas _ _ keys ana_in_A ana_in_A "latency" in_A s1 s1 _
    demo_machine_laws E Ht Hb Ha eq_refl eq_refl))).
Defined.

Lemma llm_connect_unknown_model_500_witness :
  (@ConnectLLM _ _ saas (demo_llm 200) "openai" (Some {| ClrAPIKey := "sk"; ClrModel := "gpt-5" |}) ana_in_A in_A).1
    = Err writeInternalError.
Proof.
  apply (@llm_connect_unknown_model_500 _ _ saas (demo_llm 200) {| ClrAPIKey := "sk"; ClrModel := "gpt-5" |});
    [discriminate|discriminate|vm_compute; reflexivity].
Defined.
End witnesses.
