(* ===== verification/SettingsApi.v ===== *)
(** * Company settings, logo, branding and audit routes (internal/api:
    company_settings_handler.go, logo_file_handler.go, instance_config_handler.go,
    audit_log_handler.go)

    The profile of the active tenant with its uploaded logo, the two public routes
    that show the logo, and the recent activity of the team.  What an upload is, is
    decided on its bytes: [logoContentTypeFor].  An upload is the file a multipart
    body holds, None when it is too large, malformed or has no such field. *)

From stdpp Require Import numbers strings gmap list.
From Stdlib Require Import ZArith Lia Ascii.
From S2P Require Import Prelude GoNum GoStrings Db Identity Secrets Auth Api Tenants Handler IncidentApi GoTime Accounts MailData Mail AccountApi.

#[local] Open Scope Z_scope.
#[local] Open Scope go_scope.

Definition companySettingsAuditTargetLabel : string := "Configurações da empresa".
Definition auditLogDefaultLimit : Z := 5.
Definition auditLogMaxLimit : Z := 20.
Definition logoServeCSP : string := "default-src 'none'; sandbox".

(** ** Requests and responses *)

Record tenantBillingAddress := {
  AdZip : string;
  AdStreet : string;
  AdNumber : string;
  AdComplement : string;
  AdState : string;
  AdCity : string;
  AdCountry : string;
}.
(** encoding/json on addresses, through the jsonb column. *)
Class AddressJson := {
  address_Marshal : tenantBillingAddress → option string;
  address_Unmarshal : string → option tenantBillingAddress;
}.

Definition validTimezones (z : string) : bool :=
  bool_decide (z ∈ ["America/Sao_Paulo (GMT-3)"; "America/New_York (GMT-5)"; "UTC (GMT+0)"]).

Record companySettingsResponse := {
  CsName : string;
  CsContactEmail : string;
  CsLogoURL : option string;
  CsLegalName : option string;
  CsTaxID : option string;
  CsTaxIDType : option string;
  CsWebsite : option string;
  CsTimezone : option string;
  CsLocale : string;
  CsBillingAddress : option tenantBillingAddress;
}.
Record updateCompanySettingsRequest := {
  UcName : string;
  UcContactEmail : string;
  UcLegalName : option string;
  UcTaxID : option string;
  UcTaxIDType : option string;
  UcWebsite : option string;
  UcTimezone : option string;
  UcBillingAddress : option tenantBillingAddress;
}.
Record auditLogEntryResponse := {
  AlAction : string;
  AlTargetLabel : option string;
  AlActorName : string;
  AlActorDeleted : bool;
  AlCreatedAt : Z;
}.

Inductive settings_payload :=
| CompanySettingsJson (x : companySettingsResponse)
| AuditLogJson (l : list auditLogEntryResponse)
| BrandingJson (logoURL : option string)
| DNSTargetJson (target : option string)
| LogoFile (contentType csp data : string).

Definition invalidCompanySettingsRequestBody : string :=
  "name is required and contact_email must be a valid e-mail address".
Definition invalidTaxIDRequestBody : string := "tax_id must have 11 digits for cpf or 14 digits for cnpj".
Definition invalidTimezoneRequestBody : string := "timezone must be one of the supported values".
Definition invalidLogoUploadBody : string := "logo must be a PNG or SVG image no larger than 10 MB".

Abbreviation SM := (Handle settings_payload).
Definition settings_answer (p : settings_payload) : response settings_payload := Response StatusOK (Json p).
Definition settings_invalid (msg : string) : response settings_payload :=
  Response StatusUnprocessableEntity (ErrorBody msg).
Definition writeCompanySettingsValidationError : response settings_payload :=
  settings_invalid invalidCompanySettingsRequestBody.
Definition writeLogoUploadError : response settings_payload := settings_invalid invalidLogoUploadBody.

(** ** What an upload is *)

Definition logo_space (a : ascii) : bool := bool_decide (a ∈ [" "; "009"; "013"; "010"]%char).
(** bytes.TrimLeft of blanks. *)
Fixpoint trim_blanks (s : string) : string :=
  match s with
  | String a s' => if logo_space a then trim_blanks s' else s
  | EmptyString => EmptyString
  end.
(** The same with the byte-order mark among the cutset's runes. *)
Fixpoint trim_marks (s : string) : string :=
  match s with
  | String a s' =>
      if logo_space a then trim_marks s'
      else match s' with
           | String b (String c s3) =>
               if (a =? "239")%char && (b =? "187")%char && (c =? "191")%char then trim_marks s3 else s
           | _ => s
           end
  | EmptyString => EmptyString
  end.
(** What follows the first occurrence of [p]. *)
Fixpoint after_first (p s : string) : option string :=
  if String.prefix p s then Some (drop_bytes (String.length p) s)
  else match s with
       | EmptyString => None
       | String _ s => after_first p s
       end.
Definition skip_xml_declaration (s : string) : string :=
  if String.prefix "<?xml" s then
    match after_first "?>" s with Some r => trim_blanks r | None => s end
  else s.
(** The loop over <!...>; every turn drops bytes, so the length is enough fuel. *)
Fixpoint skip_doctypes (fuel : nat) (s : string) : string :=
  match fuel with
  | O => s
  | S fuel =>
      if String.prefix "<!" s then
        match after_first ">" s with Some r => skip_doctypes fuel (trim_blanks r) | None => s end
      else s
  end.
Definition lower_byte (a : ascii) : ascii :=
  let n := nat_of_ascii a in
  if bool_decide (65 <= n <= 90)%nat then ascii_of_nat (n + 32) else a.
(** bytes.HasPrefix(bytes.ToLower(s), p) for an ASCII [p] without i and k: no other
    rune's lower case is one of these letters. *)
Fixpoint prefix_fold (p s : string) : bool :=
  match p, s with
  | EmptyString, _ => true
  | String a p, String b s => (lower_byte b =? a)%char && prefix_fold p s
  | _, EmptyString => false
  end.
Definition isLikelySVG (data : string) : bool :=
  let trimmed := skip_xml_declaration (trim_marks data) in
  prefix_fold "<svg" (skip_doctypes (String.length trimmed) trimmed).

(** The signature http.DetectContentType knows as image/png; none before it in its
    table starts with this byte. *)
Definition png_signature : string :=
  String "137" (String "P" (String "N" (String "G" (String "013" (String "010" (String "026" (String "010" EmptyString))))))).
Definition detects_png (data : string) : bool := String.prefix png_signature data.

Definition logoContentTypeFor (data : string) : option string :=
  if detects_png data then Some "image/png"
  else if isLikelySVG data then Some "image/svg+xml" else None.

Example sniffing :
  (logoContentTypeFor (String.append png_signature "x"),
   logoContentTypeFor "  <?xml version='1.0'?> <!DOCTYPE svg> <SVG/>",
   logoContentTypeFor "<html><svg/></html>", logoContentTypeFor "") =
  (Some "image/png", Some "image/svg+xml", None, None).
Proof. vm_compute. reflexivity. Qed.

(** ** Handlers *)

Section settings_handlers.
Context `{!Driver, !Zones, !MailLibrary, !AddressJson}.

(** *** company_settings_handler.go *)

Definition toCompanySettingsResponse (t : Tenant) : companySettingsResponse :=
  {| CsName := TenName t; CsContactEmail := TenContactEmail t; CsLogoURL := LogoServedURL t;
     CsLegalName := TenLegalName t; CsTaxID := TenTaxID t; CsTaxIDType := TenTaxIDType t;
     CsWebsite := TenWebsite t; CsTimezone := TenTimezone t; CsLocale := TenLocale t;
     CsBillingAddress := match TenBillingAddress t with Some raw => address_Unmarshal raw | None => None end |}.

Definition GetCompanySettings (c : rctx) : SM (response settings_payload) :=
  settings <- call_id (GetTenant (cx_tenant c)) internal_error ;;
  ret (settings_answer (CompanySettingsJson (toCompanySettingsResponse settings))).

(** The address's bytes; json.Marshal's error is answered as an invalid body. *)
Definition encoded_address (a : option tenantBillingAddress) : SM (option string) :=
  match a with
  | None => ret None
  | Some a => match address_Marshal a with
              | Some raw => ret (Some raw)
              | None => fail writeCompanySettingsValidationError
              end
  end.
Definition settings_update (req : updateCompanySettingsRequest) (billingAddress : option string) : TenantUpdate :=
  {| UpName := Some (UcName req); UpContactEmail := Some (UcContactEmail req);
     UpLegalName := UcLegalName req; UpTaxID := UcTaxID req; UpTaxIDType := UcTaxIDType req;
     UpWebsite := UcWebsite req; UpTimezone := UcTimezone req; UpBillingAddress := billingAddress |}.
Definition UpdateCompanySettings (req : option updateCompanySettingsRequest) (c : rctx) :
    SM (response settings_payload) :=
  match req with
  | None => fail writeCompanySettingsValidationError
  | Some req =>
      reject (String.eqb (UcName req) "") writeCompanySettingsValidationError (
      reject (negb (ParseAddress (UcContactEmail req))) writeCompanySettingsValidationError (
      reject (match UcTimezone req with Some z => negb (validTimezones z) | None => false end)
        (settings_invalid invalidTimezoneRequestBody) (
      billingAddress <- encoded_address (UcBillingAddress req) ;;
      settings <- call_id (UpdateTenant (cx_tenant c) (settings_update req billingAddress)) (λ e,
        if decide (e = ErrInvalidTaxID) then settings_invalid invalidTaxIDRequestBody else writeInternalError) ;;
      try_id (AuditRecord (UserID (cx_user c)) (cx_tenant c) companySettingsAuditTargetLabel
        "company_settings_updated") ;;;
      ret (settings_answer (CompanySettingsJson (toCompanySettingsResponse settings))))))
  end.

Definition UploadLogo (upload : option string) (c : rctx) : SM (response settings_payload) :=
  match upload with
  | None => fail writeLogoUploadError
  | Some data =>
      match logoContentTypeFor data with
      | None => fail writeLogoUploadError
      | Some contentType =>
          settings <- call_id (UpdateLogo (cx_tenant c) contentType data) internal_error ;;
          try_id (AuditRecord (UserID (cx_user c)) (cx_tenant c) companySettingsAuditTargetLabel
            "company_logo_updated") ;;;
          ret (settings_answer (CompanySettingsJson (toCompanySettingsResponse settings)))
      end
  end.

(** *** audit_log_handler.go *)

Definition toAuditLogEntryResponse (e : AuditLogEntry) : auditLogEntryResponse :=
  {| AlAction := AeAction e; AlTargetLabel := AeTargetLabel e; AlActorName := AeActorName e;
     AlActorDeleted := AeActorDeleted e; AlCreatedAt := AeCreatedAt e |}.
Definition parseAuditLogLimit (raw : string) : Z :=
  if String.eqb raw "" then auditLogDefaultLimit
  else match Atoi raw with
       | None => auditLogDefaultLimit
       | Some limit =>
           if limit <=? 0 then auditLogDefaultLimit
           else if auditLogMaxLimit <? limit then auditLogMaxLimit else limit
       end.
Definition GetAuditLog (limit : string) (c : rctx) : SM (response settings_payload) :=
  entries <- call_id (ListRecent (parseAuditLogLimit limit)) internal_error ;;
  ret (settings_answer (AuditLogJson (toAuditLogEntryResponse <$> entries))).

(** *** instance_config_handler.go, logo_file_handler.go *)

Definition Branding : SM (response settings_payload) :=
  companySettings <- call_id Active internal_error ;;
  ret (settings_answer (BrandingJson (LogoServedURL companySettings))).
Definition DNSTarget (dnsTarget : string) : response settings_payload :=
  settings_answer (DNSTargetJson (nilIfEmpty dnsTarget)).

(** On the connection of the listener's request: the page's tenant behind the host
    router, none on the admin listener. *)
Definition ServeLogo : SM (response settings_payload) :=
  logo <- try_id ActiveLogo ;;
  match logo with
  | Ok (contentType, data, true) => ret (settings_answer (LogoFile contentType logoServeCSP data))
  | _ => fail (Response StatusNotFound (ErrorBody "404 page not found"))
  end.
End settings_handlers.

(** ** Routes (internal/cli/routes.go) *)

Inductive settings_request :=
| GetCompany
| PatchCompany (body : option updateCompanySettingsRequest)
| PostLogo (upload : option string)
| GetActivity (limit : string).

Definition settings_roles (r : settings_request) : list string :=
  match r with GetActivity _ => anyRole | _ => ownerOnly end.

Section settings_routes.
Context `{!Driver, !Zones, !MailLibrary, !AddressJson, !Jwt}.

Definition settings_handler (r : settings_request) : rctx → SM (response settings_payload) :=
  match r with
  | GetCompany => GetCompanySettings
  | PatchCompany body => UpdateCompanySettings body
  | PostLogo upload => UploadLogo upload
  | GetActivity limit => GetAuditLog limit
  end.
Definition settings_route (r : settings_request) : handler settings_payload :=
  TenantContext (RequireRole (settings_roles r) (written (settings_handler r))).
Definition serve_settings (now : Z) (secret : string) (req : credentials) (r : settings_request)
    (s : hstate) : response settings_payload * hstate :=
  RequireAuth now secret req (settings_route r) s.
Fixpoint serve_all_settings (secret : string) (l : list (Z * credentials * settings_request)) (s : hstate) : hstate :=
  match l with
  | [] => s
  | (now, req, r) :: l => serve_all_settings secret l (serve_settings now secret req r s).2
  end.
End settings_routes.
