(* ===== verification/SettingsSafety.v ===== *)
(** * What requests to the settings routes may do, and what a logo is

    Only the active tenant's profile changes, and only the columns the screen
    edits; every logo that is stored, and so every logo that is served, is what
    its content type says. *)

From stdpp Require Import numbers strings gmap list relations sorting.
From Stdlib Require Import ZArith Lia Ascii.
From S2P Require Import Prelude GoNum GoStrings Db Schema Intervals Incidents Identity LLMProviders Providers Secrets Auth Accounts Tenants Api Inert Handler IncidentApi GoTime Retry Services AuthApi MailData Connectors Mail MailDelivery AccountApi AccountDemo AccountSafety AccountMembers SettingsApi.

#[local] Open Scope Z_scope.
#[local] Open Scope go_scope.

(** ** What an upload is *)

(** One prologue entry skipped. *)
Definition skips (s s' : string) : Prop :=
  String.prefix "<!" s = true ∧ ∃ r, after_first ">" s = Some r ∧ s' = trim_blanks r.

Lemma drop_bytes_le n s : (String.length (drop_bytes n s) <= String.length s)%nat.
Proof. revert s. induction n as [|n IH]; intros [|a s]; cbn; [lia..|]. specialize (IH s). lia. Qed.
Lemma trim_blanks_le s : (String.length (trim_blanks s) <= String.length s)%nat.
Proof. induction s as [|a s IH]; cbn; [lia|]. destruct (logo_space a); cbn; lia. Qed.
Lemma after_first_le p s r : after_first p s = Some r → (String.length r <= String.length s)%nat.
Proof.
  induction s as [|a s IH]; cbn [after_first].
  - destruct (String.prefix p ""); [|done]. intros [= <-]. apply drop_bytes_le.
  - destruct (String.prefix p (String a s)); [intros [= <-]; apply drop_bytes_le|].
    intros H%IH. cbn. lia.
Qed.
Lemma prefix_head a p b s :
  String.prefix (String a p) (String b s) = true → a = b ∧ String.prefix p s = true.
Proof. cbn [String.prefix]. by destruct (ascii_dec a b). Qed.
Lemma skips_shorter s s' : skips s s' → (String.length s' < String.length s)%nat.
Proof.
  intros (Hp & r & Hr & ->). destruct s as [|a s]; [done|].
  pose proof (trim_blanks_le r). cbn [after_first] in Hr.
  destruct (String.prefix ">" (String a s)) eqn:Hg.
  - apply prefix_head in Hp as [<- _]. by apply prefix_head in Hg as [].
  - apply after_first_le in Hr. cbn. lia.
Qed.
Lemma skip_doctypes_rtc fuel s : rtc skips s (skip_doctypes fuel s).
Proof.
  revert s. induction fuel as [|fuel IH]; intros s; cbn [skip_doctypes]; [done|].
  destruct (String.prefix "<!" s) eqn:Hp; [|done]. destruct (after_first ">" s) as [r|] eqn:Hr; [|done].
  eapply rtc_l; [|apply IH]. split; [done|]. by exists r.
Qed.
Lemma skip_doctypes_done fuel s s' :
  (String.length s <= fuel)%nat → ¬ skips (skip_doctypes fuel s) s'.
Proof.
  revert s. induction fuel as [|fuel IH]; intros s Hf H.
  - destruct s; [by destruct H|cbn in Hf; lia].
  - cbn [skip_doctypes] in H. destruct (String.prefix "<!" s) eqn:Hp; [|by destruct H; congruence].
    destruct (after_first ">" s) as [r|] eqn:Hr; [|by destruct H as (_ & r & Hr' & _); congruence].
    apply (IH (trim_blanks r)); [|exact H].
    assert (skips s (trim_blanks r)) as Hs by (split; [done|by exists r]).
    apply skips_shorter in Hs. lia.
Qed.
Lemma skips_det s s1 s2 : skips s s1 → skips s s2 → s1 = s2.
Proof. intros (_ & r & Hr & ->) (_ & r' & Hr' & ->). congruence. Qed.
Lemma skips_end a t b :
  rtc skips a t → (∀ u, ¬ skips t u) → rtc skips a b → (∀ u, ¬ skips b u) → b = t.
Proof.
  induction 1 as [a|a a' t Hs Hr IH]; intros Hn Hb Hnb; inversion Hb as [|? a1 ? Ha Hb']; subst.
  - done.
  - by destruct (Hn _ Ha).
  - by destruct (Hnb _ Hs).
  - apply IH; [done| |done]. by rewrite (skips_det _ _ _ Hs Ha).
Qed.
Lemma skips_nf s t fuel :
  (String.length s <= fuel)%nat → rtc skips s t → (∀ u, ¬ skips t u) → skip_doctypes fuel s = t.
Proof.
  intros Hf Ht Hn. eapply skips_end; [exact Ht|done|apply skip_doctypes_rtc|].
  intros u. by apply skip_doctypes_done.
Qed.

Lemma svg_does_not_skip s : prefix_fold "<svg" s = true → ∀ u, ¬ skips s u.
Proof.
  intros H u (Hp & _). destruct s as [|a [|b s]]; [done|by apply prefix_head in Hp as []|].
  apply prefix_head in Hp as [_ [<- _]%prefix_head]. cbn in H. by rewrite andb_false_r in H.
Qed.

(** what is taken for an SVG.  The loop over the document's declarations ends,
    whatever the bytes, and isLikelySVG holds exactly when skipping some of them,
    after the byte-order marks, blanks and the XML declaration, leads to a tag whose
    name starts with svg in any case.  The rest of the file is not looked at. *)
Theorem isLikelySVG_iff (data : string) :
  isLikelySVG data = true ↔
  ∃ rest, rtc skips (skip_xml_declaration (trim_marks data)) rest ∧ prefix_fold "<svg" rest = true.
Proof.
  unfold isLikelySVG. cbv zeta. set (s := skip_xml_declaration _). split.
  - intros H. eexists. split; [apply skip_doctypes_rtc|exact H].
  - intros (rest & Hr & Hs). rewrite (skips_nf s rest); [done|lia|done|by apply svg_does_not_skip].
Qed.

(** ** Steps of the settings routes *)

(** The logo's two columns: what is stored was sniffed. *)
Definition logo_ok (t : Tenant) : Prop :=
  match TenLogoData t with
  | None => TenLogoContentType t = None
  | Some data => ∃ ct, logoContentTypeFor data = Some ct ∧ TenLogoContentType t = Some ct
  end.
Definition logos_wf (d : identity) : Prop := ∀ u t, tenants d !! u = Some t → logo_ok t.

(** The columns the settings screen does not edit. *)
Definition other_columns (x : Tenant) : Tenant :=
  {| TenID := TenID x; TenName := ""; TenSlug := TenSlug x; TenPlan := TenPlan x; TenStatus := TenStatus x;
     TenContactEmail := ""; TenLogoData := None; TenLogoContentType := None; TenLegalName := None;
     TenTaxID := None; TenTaxIDType := None; TenBillingAddress := None; TenLocale := TenLocale x;
     TenPrimaryColor := TenPrimaryColor x; TenSecondaryColor := TenSecondaryColor x; TenWebsite := None;
     TenTimezone := None; TenDeletedAt := TenDeletedAt x; TenCreatedAt := TenCreatedAt x;
     TenLastDigestSentAt := TenLastDigestSentAt x |}.

(** What an edit leaves of a tenant. *)
Record edited (x x' : Tenant) : Prop := {
  ed_other : other_columns x' = other_columns x;
  ed_zone : TenTimezone x' = TenTimezone x ∨ ∃ z, TenTimezone x' = Some z ∧ validTimezones z = true;
  ed_name : TenName x ≠ "" → TenName x' ≠ "";
  ed_logo : logo_ok x → logo_ok x';
}.
#[export] Instance edited_preorder : PreOrder edited.
Proof.
  split; [intros x; split; auto|].
  intros x y z [A1 A2 A3 A4] [B1 B2 B3 B4]. split; [congruence| |auto|auto].
  destruct B2 as [B2|?]; [|by right]. rewrite B2. exact A2.
Qed.

Definition row_edited (o o' : option Tenant) : Prop := option_relation edited (const False) (const False) o o'.
Lemma row_edited_refl o : row_edited o o.
Proof. destruct o as [x|]; [|done]. change (edited x x). reflexivity. Qed.

(** The other account tables, users to preferences: all but tenants, device
    sessions and the audit log. *)
Definition rest_of (d : identity) : identity :=
  set_audit_log (const []) (set_device_sessions (const ∅) (set_tenants (const ∅) d)).

(** An entry the settings handlers write. *)
Definition settings_entry (t : string) (e : audit_row) : Prop :=
  AuTenant e = t ∧ t ≠ "" ∧ AuAction e ∈ ["company_settings_updated"; "company_logo_updated"].

(** A step on the account tables: other tenants' rows stay, under row security. *)
Record istep (t : string) (b : bool) (d d' : identity) : Prop := {
  is_rest : rest_of d' = rest_of d;
  is_sessions : seen_again (device_sessions d) (device_sessions d');
  is_audit : ∃ l, audit_log d' = audit_log d ++ l ∧ Forall (settings_entry t) l;
  is_rows u : row_edited (tenants d !! u) (tenants d' !! u);
  is_other : b = false → ∀ u, u ≠ t ∨ t = "" → tenants d' !! u = tenants d !! u;
}.
#[export] Instance istep_preorder t b : PreOrder (istep t b).
Proof.
  split.
  - intros d. split; [done..| | |done]; [exists []; by rewrite app_nil_r|]. intros u. apply row_edited_refl.
  - intros d1 d2 d3 [A1 A2 (l1 & A3 & A4) A5 A6] [B1 B2 (l2 & B3 & B4) B5 B6]. split; [congruence|by etrans|..].
    + exists (l1 ++ l2). rewrite B3, A3, app_assoc. split; [done|]. by apply Forall_app.
    + intros u. specialize (A5 u). specialize (B5 u).
      destruct (tenants d1 !! u), (tenants d2 !! u), (tenants d3 !! u); cbn in *; try done. by etrans.
    + intros Hb u Hu. by rewrite (B6 Hb u Hu), (A6 Hb u Hu).
Qed.
(** A step that touches the tenants alone. *)
Lemma istep_tenants t b f d :
  (∀ u, row_edited (tenants d !! u) (f (tenants d) !! u)) →
  (b = false → ∀ u, u ≠ t ∨ t = "" → f (tenants d) !! u = tenants d !! u) → istep t b d (set_tenants f d).
Proof. intros Hr Ho. split; try done. exists []. by rewrite app_nil_r. Qed.
Lemma istep_logos t b d d' : istep t b d d' → logos_wf d → logos_wf d'.
Proof.
  intros H Hd u x' Hx'. pose proof (is_rows _ _ _ _ H u) as Hu. rewrite Hx' in Hu.
  destruct (tenants d !! u) as [x|] eqn:Hx; [|done]. by eapply ed_logo, Hd.
Qed.

Record smoves (t : string) (b : bool) (d d' : database) : Prop := {
  sm_step : istep t b (db_identity d) (db_identity d');
  sm_core : db_core d' = db_core d;
  sm_intervals : db_intervals d' = db_intervals d;
  sm_providers : db_providers d' = db_providers d;
}.
#[export] Instance smoves_preorder t b : PreOrder (smoves t b).
Proof.
  split; [by intros d|]. intros d1 d2 d3 [] []. split; [by etrans|congruence..].
Qed.
Lemma smoves_signed_in t b f d :
  seen_again (device_sessions (db_identity d)) (f (device_sessions (db_identity d))) →
  smoves t b d (set_identity (set_device_sessions f (db_identity d)) d).
Proof.
  intros Hs. split; [|done..]. split; cbn; [done|done|exists []; by rewrite app_nil_r| |done].
  intros u. apply row_edited_refl.
Qed.

Section moves.
Context `{!Driver}.

Lemma sm_on_identity {A} (m : M (session identity) db_err A) : preserves istep m → preserves smoves (on_identity m).
Proof.
  intros Hm s. destruct (Hm (retable (db_identity (tables s)) s)) as (H1' & H2' & H3').
  unfold on_identity, focus. destruct (m _) as [r s']. by cbn in *.
Qed.
Lemma istep_inert {A} (m : M (session identity) db_err A) : inert m → preserves istep m.
Proof. apply preserves_mono. intros t b d d' E. unfold untouched_db in E. by subst. Qed.

Lemma update_tenant_istep id p f : (∀ s x, edited x (f s x)) → preserves istep (update_tenant id p f).
Proof.
  intros Hf. apply (preserves_stmt istep). intros s a d. unfold seen_tenant.
  destruct (tenants (tables s) !! id) as [x|] eqn:Hx; [|by intros [= _ <-]].
  destruct (visible s id) eqn:Hv; [|by intros [= _ <-]]. destruct (p x); [|by intros [= _ <-]].
  destruct (tax_id_type_check _); [|done]. intros [= _ <-]. apply istep_tenants.
  - intros u. destruct (decide (u = id)) as [->|Hne].
    + rewrite Hx, lookup_insert_eq. apply Hf.
    + rewrite lookup_insert_ne by done. apply row_edited_refl.
  - intros Hb u Hu. apply (visible_own _ _ Hb) in Hv as [Hv1 Hv2].
    rewrite lookup_insert_ne; [done|]. destruct Hu; congruence.
Qed.
Lemma audit_istep u id label action :
  action ∈ ["company_settings_updated"; "company_logo_updated"] → preserves istep (AuditRecord u id label action).
Proof.
  intros Ha. apply (preserves_stmt istep). intros s a d. unfold default_tenant.
  destruct (String.eqb_spec (app_tenant s) ""); [done|]. intros [= _ <-].
  split; cbn; [done|done| |intros v; apply row_edited_refl|done].
  eexists. split; [done|]. apply Forall_singleton. by split_and!.
Qed.
Lemma ListRecent_inert limit : inert (ListRecent limit).
Proof. apply (preserves_stmt untouched_db). intros s a d. destruct (limit_offset _ _ _); [by intros [= _ <-]|done]. Qed.

Lemma UpdateTenant_istep id u :
  (∀ z, UpTimezone u = Some z → validTimezones z = true) → (∀ n, UpName u = Some n → n ≠ "") →
  preserves istep (UpdateTenant id u).
Proof.
  intros Hz Hn. unfold UpdateTenant. destruct (negb _); [apply (preserves_fail istep)|].
  apply (preserves_bind istep); [|intros; apply (preserves_or_not_found istep)].
  apply update_tenant_istep. intros s x. split; try done; cbn.
  - destruct (UpTimezone u) as [z|]; [right; by exists z; split; [|apply Hz]|by left].
  - destruct (UpName u) as [n|]; [|done]. intros _. by apply Hn.
Qed.
Lemma UpdateLogo_istep id ct data : logoContentTypeFor data = Some ct → preserves istep (UpdateLogo id ct data).
Proof.
  intros Hct. apply (preserves_bind istep); [|intros; apply (preserves_or_not_found istep)].
  apply update_tenant_istep. intros s x. split; try done; [by left|]. intros _. cbn. by exists ct.
Qed.
End moves.

(** ** Requests *)

Ltac settings_step :=
  match goal with
  | |- h_along _ (ret _) => apply h_along_ret, _
  | |- h_along _ (fail _) => apply h_along_fail, _
  | |- h_along _ (bind _ _) => apply h_along_bind; [apply _| |intros ?]
  | |- h_along _ (call_id _ _) => apply (db_moves_call smoves), sm_on_identity
  | |- h_along _ (try_id _) => apply (db_moves_try smoves), sm_on_identity
  end.

Section handlers.
Context `{!Driver, !Zones, !MailLibrary, !AddressJson, !Jwt}.

Lemma UpdateCompanySettings_moves req c : h_along (db_moves smoves) (UpdateCompanySettings req c).
Proof.
  destruct req as [req|]; [|apply h_along_fail, _]. unfold UpdateCompanySettings, reject.
  destruct (String.eqb_spec (UcName req) "") as [|Hname]; [apply h_along_fail, _|].
  destruct (negb _); [apply h_along_fail, _|].
  destruct (match UcTimezone req with Some z => _ | None => _ end) eqn:Hzone; [apply h_along_fail, _|].
  repeat settings_step.
  - unfold encoded_address. destruct (UcBillingAddress req); [|apply h_along_ret, _].
    destruct (address_Marshal _); [apply h_along_ret, _|apply h_along_fail, _].
  - apply UpdateTenant_istep; cbn.
    + intros z Hz. rewrite Hz in Hzone. by apply negb_false_iff in Hzone.
    + by intros n [= <-].
  - apply audit_istep. set_solver.
Qed.
Lemma UploadLogo_moves upload c : h_along (db_moves smoves) (UploadLogo upload c).
Proof.
  destruct upload as [data|]; [|apply h_along_fail, _]. unfold UploadLogo.
  destruct (logoContentTypeFor data) as [ct|] eqn:Hct; [|apply h_along_fail, _].
  repeat settings_step; [by apply UpdateLogo_istep|apply audit_istep; set_solver].
Qed.
Lemma settings_handler_moves r c : h_along (db_moves smoves) (settings_handler r c).
Proof.
  destruct r; cbn [settings_handler].
  - unfold GetCompanySettings. repeat settings_step. apply istep_inert, GetTenant_inert.
  - apply UpdateCompanySettings_moves.
  - apply UploadLogo_moves.
  - unfold GetAuditLog. repeat settings_step. apply istep_inert, ListRecent_inert.
Qed.

Lemma serve_settings_moves now secret req r s :
  let s' := (serve_settings now secret req r s).2 in
  db_request_moves smoves "" s s' ∨
  ∃ c, VerifySessionClaims now (request_token req) secret = Ok c ∧ db_request_moves smoves (ScTenantID c) s s'.
Proof.
  apply (RequireAuth_db_moves smoves); [intros; by apply smoves_signed_in|]. intros c h.
  apply (TenantContext_db_moves smoves). intros c'. apply settings_handler_moves.
Qed.

(** What the logo route answers with is a row's logo. *)
Lemma active_tenant_row s t : active_tenant s = Some t → ∃ u, tenants (tables s) !! u = Some t.
Proof.
  unfold active_tenant. intros H.
  assert (t ∈ merge_sort oldest_tenant (filter (λ t, visible s (TenID t) = true ∧ TenID t ≠ legacyDataTenantID ∧
    (app_tenant s = "" ∨ TenID t = app_tenant s)) (snd <$> map_to_list (tenants (tables s))))) as Hin.
  { by apply head_Some_elem_of. }
  rewrite merge_sort_Permutation in Hin. apply list_elem_of_filter in Hin as [_ Hin].
  apply list_elem_of_fmap in Hin as ([u t'] & -> & Hin). exists u. by apply elem_of_map_to_list in Hin.
Qed.
Lemma ServeLogo_inv s rsp s' :
  logos_wf (db_identity (tables (h_db s))) → ServeLogo s = (Ok rsp, s') →
  ∃ ct data, rsp = settings_answer (LogoFile ct logoServeCSP data) ∧ logoContentTypeFor data = Some ct.
Proof.
  intros Hwf. unfold ServeLogo, bind, try_id, try_db, on_identity, focus, ActiveLogo.
  set (d := retable _ _). destruct (query _ d) as [r d'] eqn:Eq.
  destruct r as [x|e]; [|done]. apply query_Ok_inv in Eq as [-> _].
  destruct (active_tenant d) as [t|] eqn:Ht; [|done]. apply active_tenant_row in Ht as [u Hu].
  specialize (Hwf u t Hu). unfold logo_ok in Hwf. destruct (TenLogoData t) as [data|]; [|done].
  destruct Hwf as (ct & Hct & Hct'). rewrite Hct'. cbn. intros [= <- _]. by exists ct, data.
Qed.
End handlers.

(** C20: what requests to the settings routes may do.  Whatever a sequence of them
    carries, by whoever and whatever fails: services, incidents, intervals and
    providers do not change, nor any account table but three.  Of the tenants only
    the columns the screen edits change, a name is not emptied and a time zone only
    set to a known one, and under row security only in the active tenants of the
    requests' tokens.  Device sessions are only marked as seen.  The audit log only
    grows, by the two entries of the settings handlers, under a token's tenant.
    And the logo route, on whatever connection of that database, answers 200 only
    with bytes that are what the content type says. *)
Theorem settings_requests_safe `{!Driver, !Zones, !MailLibrary, !AddressJson, !Jwt}
    (secret : string) (l : list (Z * credentials * settings_request)) (s : hstate) :
  logos_wf (db_identity (tables (h_db s))) →
  let d := tables (h_db s) in
  let d' := tables (h_db (serve_all_settings secret l s)) in
  let token_of t := ∃ now req r c, (now, req, r) ∈ l ∧
    VerifySessionClaims now (request_token req) secret = Ok c ∧ ScTenantID c = t in
  (db_core d' = db_core d ∧ db_intervals d' = db_intervals d ∧ db_providers d' = db_providers d) ∧
  (rest_of (db_identity d') = rest_of (db_identity d) ∧
   seen_again (device_sessions (db_identity d)) (device_sessions (db_identity d'))) ∧
  (∃ es, audit_log (db_identity d') = audit_log (db_identity d) ++ es ∧
     Forall (λ e, ∃ t, token_of t ∧ settings_entry t e) es) ∧
  (∀ u, row_edited (tenants (db_identity d) !! u) (tenants (db_identity d') !! u) ∧
     (bypass_rls (h_db s) = false → ¬ token_of u → u ≠ "" →
      tenants (db_identity d') !! u = tenants (db_identity d) !! u)) ∧
  ∀ s' rsp s'', tables (h_db s') = d' → ServeLogo s' = (Ok rsp, s'') →
    ∃ ct data, rsp = settings_answer (LogoFile ct logoServeCSP data) ∧ logoContentTypeFor data = Some ct.
Proof.
  revert s. induction l as [|[[now req] r] l IH]; intros s Hw; cbv zeta; cbn [serve_all_settings].
  { split_and!; [done..|exists []; by rewrite app_nil_r|intros u; split; [apply row_edited_refl|done]|].
    intros s' rsp s'' E. apply ServeLogo_inv. by rewrite E. }
  pose proof (serve_settings_moves now secret req r s) as HM. cbv zeta in HM.
  set (s1 := (serve_settings now secret req r s).2) in *.
  assert (∃ t, (t = "" ∨ ∃ c, VerifySessionClaims now (request_token req) secret = Ok c ∧ ScTenantID c = t) ∧
    bypass_rls (h_db s1) = bypass_rls (h_db s) ∧ smoves t (bypass_rls (h_db s)) (tables (h_db s)) (tables (h_db s1)))
    as (t & Ht & Hb & [Hstep Hcore Hiv Hp]).
  { destruct HM as [(_ & Hb & HR)|(c & Hc & _ & Hb & HR)]; [exists ""|exists (ScTenantID c)].
    - split; [by left|done].
    - split; [right; by exists c|done]. }
  destruct (IH s1 (istep_logos _ _ _ _ Hstep Hw)) as ((A1 & A2 & A3) & (B1 & B2) & (es & C1 & C2) & HD & HE).
  destruct Hstep as [Hrest Hses (es1 & Hes & Hent) Hrows Hother].
  split_and!; [congruence..|by etrans| | |exact HE].
  - exists (es1 ++ es). rewrite C1, Hes, app_assoc. split; [done|]. apply Forall_app. split.
    + eapply Forall_impl; [exact Hent|]. intros e He. exists t. split; [|done].
      destruct Ht as [->|(c & Hc & <-)]; [by destruct He as (_ & ? & _)|]. exists now, req, r, c. split; [by left|done].
    + eapply Forall_impl; [exact C2|]. intros e (t' & (n & q & r' & c & Hin & Hc) & He).
      exists t'. split; [|done]. exists n, q, r', c. split; [by right|done].
  - intros u. destruct (HD u) as [HC HN]. specialize (Hrows u). split.
    { unfold row_edited in *.
      destruct (tenants (db_identity (tables (h_db s))) !! u), (tenants (db_identity (tables (h_db s1))) !! u),
        (tenants (db_identity (tables (h_db (serve_all_settings secret l s1)))) !! u); cbn in *; try done. by etrans. }
    intros Hby Hl Hu. rewrite HN; [|congruence| |done].
    + apply Hother; [congruence|]. destruct Ht as [->|(c & Hc & <-)]; [by right|left].
      intros ->. apply Hl. exists now, req, r, c. split; [by left|done].
    + intros (n & q & r' & c & Hin & Hc). apply Hl. exists n, q, r', c. split; [by right|done].
Qed.

#[local] Instance newest_audit_trans : Transitive newest_audit.
Proof. intros x y z. unfold newest_audit. lia. Qed.
#[local] Instance newest_audit_total : base.Total newest_audit.
Proof. intros x y. unfold newest_audit. lia. Qed.

(** the team's recent activity.  A successful answer holds between none and
    twenty entries, no more than asked for, whatever the query says; under row
    security they are entries of the active tenant alone, newest first, and none of
    the tenant's entries that was left out is newer than one that is shown. *)
Theorem GetAuditLog_spec `{!Driver} (raw : string) (c : rctx) (s s' : hstate) (rsp : response settings_payload) :
  bypass_rls (h_db s) = false → GetAuditLog raw c s = (Ok rsp, s') →
  let log := audit_log (db_identity (tables (h_db s))) in
  1 <= parseAuditLogLimit raw <= 20 ∧ tables (h_db s') = tables (h_db s) ∧
  ∃ (rows : list audit_row) f, rsp = settings_answer (AuditLogJson (f <$> rows)) ∧
    Z.of_nat (length rows) <= parseAuditLogLimit raw ∧
    (∀ x, AlAction (f x) = AuAction x ∧ AlTargetLabel (f x) = AuTargetLabel x ∧ AlCreatedAt (f x) = AuCreatedAt x) ∧
    StronglySorted newest_audit rows ∧
    (∀ x, x ∈ rows → x ∈ log ∧ AuTenant x = app_tenant (h_db s)) ∧
    ∀ x y, x ∈ log → AuTenant x = app_tenant (h_db s) → app_tenant (h_db s) ≠ "" → x ∉ rows → y ∈ rows →
      AuCreatedAt x <= AuCreatedAt y.
Proof.
  intros Hb E. cbv zeta.
  assert (1 <= parseAuditLogLimit raw <= 20) as Hlim.
  { unfold parseAuditLogLimit, auditLogDefaultLimit, auditLogMaxLimit. destruct (String.eqb _ _); [lia|].
    destruct (Atoi raw) as [n|]; [|lia]. destruct (Z.leb_spec n 0); [lia|]. destruct (Z.ltb_spec 20 n); lia. }
  split; [exact Hlim|]. revert E.
  unfold GetAuditLog, bind, call_id, call_db, on_identity, focus, ListRecent.
  set (d := retable _ _). destruct (stmt _ d) as [[l|e] d'] eqn:Es; [|done]. cbn. intros [= <- <-].
  apply stmt_Ok_inv in Es as (db & Hf & Hd & _ & _).
  set (sorted := merge_sort newest_audit (filter (λ x, visible d (AuTenant x) = true) (audit_log (tables d)))) in Hf.
  destruct (limit_offset _ 0 sorted) as [rows|] eqn:Hrows; [|done]. injection Hf as <- <-.
  unfold limit_offset in Hrows. destruct (_ || _); [done|]. injection Hrows as <-.
  split; [cbn; rewrite Hd; by destruct (tables (h_db s))|].
  set (n := Z.to_nat _). change (Z.to_nat 0) with 0%nat. rewrite drop_0.
  assert (∀ x, x ∈ sorted ↔ x ∈ audit_log (db_identity (tables (h_db s))) ∧ visible d (AuTenant x) = true) as Hin.
  { intros x. unfold sorted. rewrite merge_sort_Permutation, list_elem_of_filter. tauto. }
  assert (StronglySorted newest_audit sorted) as Hs.
  { apply (StronglySorted_merge_sort newest_audit). }
  rewrite <- (take_drop n sorted) in Hs.
  exists (take n sorted), (toAuditLogEntryResponse ∘ audit_entry d). split_and!.
  - by rewrite list_fmap_compose.
  - rewrite length_take. lia.
  - done.
  - by apply StronglySorted_app_1_l in Hs.
  - intros x Hx%subseteq_take. apply Hin in Hx as [Hx Hv]. split; [done|].
    by apply (visible_own _ _ Hb) in Hv as [].
  - intros x y Hx Ht Hne Hnx Hy. eapply (StronglySorted_app_1_elem_of newest_audit _ _ y x Hs Hy).
    assert (x ∈ sorted) as Hxs.
    { apply Hin. split; [done|]. unfold visible. cbn. rewrite Ht, String.eqb_refl, (proj2 (String.eqb_neq _ _) Hne).
      by rewrite orb_true_r. }
    rewrite <- (take_drop n sorted) in Hxs. by apply elem_of_app in Hxs as [|].
Qed.

(** ** Examples and witnesses *)

Section witnesses.
#[local] Existing Instance numbered.
#[local] Existing Instance demo_jwt.
#[local] Existing Instance demo_zones.
#[local] Existing Instance demo_library.
#[local] Instance demo_address : AddressJson := {|
  address_Marshal a := Some (AdCity a);
  address_Unmarshal s := Some {| AdZip := ""; AdStreet := ""; AdNumber := ""; AdComplement := ""; AdState := "";
                                 AdCity := s; AdCountry := "" |} |}.

Definition profile (taxID taxIDType timezone : option string) : updateCompanySettingsRequest :=
  {| UcName := "Acme"; UcContactEmail := "ops@acme.com"; UcLegalName := None; UcTaxID := taxID;
     UcTaxIDType := taxIDType; UcWebsite := None; UcTimezone := timezone; UcBillingAddress := None |}.
Definition settings_log : list (Z * credentials * settings_request) :=
  [(50 * second, owner_in "A", PatchCompany (Some (profile (Some "123.456.789-01") (Some "cpf") (Some "UTC (GMT+0)"))));
   (60 * second, owner_in "A", PostLogo (Some " <svg onload='x'/>"));
   (70 * second, owner_in "A", PostLogo (Some "<html/>"));
   (80 * second, owner_in "A", GetActivity "0")].
Definition after_settings : hstate := serve_all_settings "secret" settings_log (service_of false one_owner).

Lemma owned_logos : logos_wf (db_identity (tables (h_db (service_of false one_owner)))).
Proof.
  intros u t Ht. cbn in Ht. apply lookup_insert_Some in Ht as [[_ <-]|[_ Ht]]; [done|].
  apply lookup_singleton_Some in Ht as [_ <-]. done.
Qed.

Lemma settings_requests_safe_witness :
  (TenTimezone <$> tenants (ids after_settings) !! "A" = Some (Some "UTC (GMT+0)")) ∧
  (TenLogoContentType <$> tenants (ids after_settings) !! "A" = Some (Some "image/svg+xml")) ∧
  tenants (ids after_settings) !! "B" = tenants one_owner !! "B" ∧
  ∃ es, audit_log (ids after_settings) = audit_log one_owner ++ es ∧ length es = 2%nat.
Proof.
  split; [vm_compute; reflexivity|]. split; [vm_compute; reflexivity|].
  destruct (settings_requests_safe "secret" settings_log (service_of false one_owner) owned_logos)
    as (_ & _ & (es & He & _) & Hu & _). split.
  - apply (Hu "B"); [reflexivity| |discriminate]. intros (now & req & r & c & Hin & Hc & Ht).
    assert (forallb (λ e, match VerifySessionClaims e.1.1 (request_token e.1.2) "secret" with
                          | Ok c => negb (String.eqb (ScTenantID c) "B") | Err _ => true end) settings_log = true)
      as Hall by (vm_compute; reflexivity).
    rewrite forallb_forall in Hall. apply list_elem_of_In, Hall in Hin. cbn [fst snd] in Hin.
    rewrite Hc, Ht in Hin. discriminate.
  - exists es. split; [exact He|]. vm_compute in He. rewrite <- He. reflexivity.
Defined.

(** A request of the owner of A, in its transaction, after these. *)
Definition reading : hstate :=
  set_h_db (Session (tables (h_db after_settings)) "A" false (Some 0) false 100) after_settings.
Lemma GetAuditLog_spec_witness :
  ∃ rsp s', GetAuditLog "1" ana_in_A reading = (Ok rsp, s') ∧
    (∃ (rows : list audit_row) f, rsp = settings_answer (AuditLogJson (f <$> rows)) ∧ Z.of_nat (length rows) <= 1) ∧
    length (audit_log (ids reading)) = 2%nat.
Proof.
  destruct (GetAuditLog "1" ana_in_A reading) as [[rsp|e] s'] eqn:E; [|vm_compute in E; discriminate].
  exists rsp, s'. split; [reflexivity|]. split; [|vm_compute; reflexivity].
  destruct (GetAuditLog_spec "1" ana_in_A reading s' rsp eq_refl E) as (_ & _ & rows & f & Hr & Hl & _).
  exists rows, f. split; [exact Hr|exact Hl].
Defined.

(** A tax id's type is only looked at beside a tax id: alone, a type that is not one
    reaches the column's check and is answered as the server's error; and a tax id
    alone is stored whatever the stored type says. *)
Theorem tax_id_checked_in_pairs :
  let answer s r := (serve_settings (90 * second) "secret" (owner_in "A") (PatchCompany (Some r)) s).1 in
  let next s r := (serve_settings (90 * second) "secret" (owner_in "A") (PatchCompany (Some r)) s).2 in
  rsp_status (answer after_settings (profile (Some "1") (Some "cpf") None)) = StatusUnprocessableEntity ∧
  rsp_status (answer after_settings (profile None (Some "passport") None)) = 500 ∧
  rsp_status (answer after_settings (profile (Some "1") None None)) = StatusOK ∧
  (λ t, (TenTaxID t, TenTaxIDType t)) <$> tenants (ids (next after_settings (profile (Some "1") None None))) !! "A"
    = Some (Some "1", Some "cpf").
Proof. cbv zeta. split_and!; vm_compute; reflexivity. Qed.
End witnesses.
