(* ===== verification/OverviewApi.v ===== *)
(** * The overview (internal/api/overview_handler.go)

    One read-only summary of the tenant: counts, the thirty days' uptime against
    the thirty before, the fourteen days' chart and the latest incidents.  Dates
    are added in the server's zone for the windows and in America/Sao_Paulo for
    the chart.  The theorems: the chart is the last fourteen calendar
    days, a day has a figure exactly when some service was seen on it, and the
    counts fit together. *)

From stdpp Require Import numbers strings gmap list sorting.
From Stdlib Require Import ZArith Lia Floats.
From S2P Require Import Prelude GoNum GoFloat MailData Db Schema Intervals History Incidents Services Placements Domains StatusPages Identity Secrets Auth Api Inert Tenants Handler IncidentApi GoTime.

#[local] Open Scope Z_scope.
#[local] Open Scope go_scope.

Definition overviewUptimeWindowDays : Z := 30.
Definition overviewUptimeSeriesDays : Z := 14.
Definition overviewRecentIncidents : Z := 3.

Record OverviewUptimeBucket := {
  OubDate : string;
  OubUptimePercent : option float;
}.
Record OverviewIncident := {
  OviID : string;
  OviTitle : string;
  OviStatus : string;
  OviCreatedAt : Z;
}.
Record OverviewResponse := {
  UptimeAvg30d : option float;
  UptimeAvg30dPrior : option float;
  OpenIncidents : Z;
  OpenIncidentsCritical : Z;
  OpenIncidentsMonitoring : Z;
  UnhealthyServices : Z;
  TotalServices : Z;
  VerifiedDomains : Z;
  TotalDomains : Z;
  UptimeSeries : list OverviewUptimeBucket;
  RecentIncidents : list OverviewIncident;
}.

(** ** Uptime *)

(** The sum over the services with data and how many these are. *)
Definition uptime_sum (intervalsOf : string → list StatusInterval) (windowStart asOf : Z)
    (acc : float * Z) (id : string) : float * Z :=
  match UptimePercent (intervalsOf id) windowStart asOf with
  | Some pct => ((acc.1 + pct)%float, acc.2 + 1)
  | None => acc
  end.
Definition averageUptime (intervalsOf : string → list StatusInterval) (serviceIDs : list string)
    (windowStart asOf : Z) : option float :=
  let '(sum, n) := foldl (uptime_sum intervalsOf windowStart asOf) (0%float, 0) serviceIDs in
  if n =? 0 then None
  else Some (math_Floor (sum / float_of_int64 n * 10) / 10)%float.

Definition interval_overlaps (from to : Z) (x : StatusInterval) : bool :=
  time_before (StartsAt x) to &&
  match EndsAt x with Some e => time_after e from | None => true end.
Definition intervalsOverlapping (intervals : list StatusInterval) (from to : Z) : list StatusInterval :=
  filter (λ x, interval_overlaps from to x = true) intervals.

Section series.
Context `{!Zones} (historyLoc : Location).

(** "2006-01-02" of a year from 0 on. *)
Definition layout_iso (y m d : Z) : string := layout_year y +++ "-" +++ dec2 m +++ "-" +++ dec2 d.

Definition todayStart (now : Z) : Z :=
  Date (Year now historyLoc) (Month now historyLoc) (Day now historyLoc) 0 0 0 0 historyLoc.
Definition day_start (now i : Z) : Z :=
  AddDate (AddDate (todayStart now) 0 0 (- (overviewUptimeSeriesDays - 1)) historyLoc) 0 0 i historyLoc.
Definition day_end (now i : Z) : Z :=
  if i =? overviewUptimeSeriesDays - 1 then now else AddDate (day_start now i) 0 0 1 historyLoc.
Definition day_bucket (intervalsOf : string → list StatusInterval) (serviceIDs : list string) (now i : Z) :
    OverviewUptimeBucket :=
  let dayStart := day_start now i in
  let dayEnd := day_end now i in
  {| OubDate := layout_iso (Year dayStart historyLoc) (Month dayStart historyLoc) (Day dayStart historyLoc);
     OubUptimePercent :=
       averageUptime (λ id, intervalsOverlapping (intervalsOf id) dayStart dayEnd) serviceIDs dayStart dayEnd |}.
Definition buildUptimeSeries (intervalsOf : string → list StatusInterval) (serviceIDs : list string) (now : Z) :
    list OverviewUptimeBucket :=
  day_bucket intervalsOf serviceIDs now <$> seqZ 0 overviewUptimeSeriesDays.
End series.

(** ** Handler *)

Definition by_service (l : list StatusInterval) (id : string) : list StatusInterval :=
  filter (λ x, ServiceID x = id) l.
Definition unhealthy (x : Service) : bool := negb (String.eqb (CurrentStatus x) "operational").
Definition toOverviewIncidents (l : list (Incident * list string)) : list OverviewIncident :=
  (λ '(x, _), {| OviID := IncID x; OviTitle := Title x; OviStatus := IncStatus x; OviCreatedAt := CreatedAt x |}) <$> l.

Section overview.
Context `{!Driver, !Machine, !Zones} (server_zone sao_paulo : Location).

Abbreviation OM := (Handle OverviewResponse).

Definition GetOverview (c : rctx) : OM (response OverviewResponse) :=
  services <- call Services.List internal_error ;;
  let serviceIDs := SvcID <$> services in
  now <- ask time_Now ;;
  let windowStart := AddDate now 0 0 (- overviewUptimeWindowDays) server_zone in
  let priorWindowStart := AddDate windowStart 0 0 (- overviewUptimeWindowDays) server_zone in
  overlapping <- call_db (on_intervals (ListOverlapping serviceIDs windowStart now)) internal_error ;;
  priorOverlapping <- call_db (on_intervals (ListOverlapping serviceIDs priorWindowStart windowStart)) internal_error ;;
  openIncidents <- call CountOpen internal_error ;;
  breakdown <- call CountOpenBreakdown internal_error ;;
  let '(criticalOpen, monitoringOpen) := breakdown in
  recent <- call (Incidents.ListPaginated 1 overviewRecentIncidents) internal_error ;;
  verifiedDomains <- call CountVerified internal_error ;;
  totalDomains <- call (CountAllDomains (cx_tenant c)) internal_error ;;
  ret (Response StatusOK (Json
    {| UptimeAvg30d := averageUptime (by_service overlapping) serviceIDs windowStart now;
       UptimeAvg30dPrior := averageUptime (by_service priorOverlapping) serviceIDs priorWindowStart windowStart;
       OpenIncidents := openIncidents;
       OpenIncidentsCritical := criticalOpen;
       OpenIncidentsMonitoring := monitoringOpen;
       UnhealthyServices := Z.of_nat (length (filter (λ x, unhealthy x = true) services));
       TotalServices := Z.of_nat (length services);
       VerifiedDomains := verifiedDomains;
       TotalDomains := totalDomains;
       UptimeSeries := buildUptimeSeries sao_paulo (by_service overlapping) serviceIDs now;
       RecentIncidents := toOverviewIncidents recent.1 |})).

(** The route (internal/cli/routes.go). *)
Definition overview_route : handler OverviewResponse :=
  TenantContext (RequireRole anyRole (written GetOverview)).
End overview.

(** ** When there is a figure *)

Lemma uptime_sum_le f w a l acc : acc.2 <= (foldl (uptime_sum f w a) acc l).2.
Proof.
  revert acc. induction l as [|id l IH]; intros acc; cbn [foldl]; [lia|].
  etrans; [|apply IH]. unfold uptime_sum. destruct (UptimePercent _ _ _); cbn; lia.
Qed.
Lemma averageUptime_None f ids w a :
  averageUptime f ids w a = None ↔ ∀ id, id ∈ ids → UptimePercent (f id) w a = None.
Proof.
  unfold averageUptime.
  assert (∀ acc, 0 <= acc.2 → (foldl (uptime_sum f w a) acc ids).2 = acc.2 ↔
            ∀ id, id ∈ ids → UptimePercent (f id) w a = None) as Hgen.
  { induction ids as [|id l IH]; intros acc Hacc; cbn [foldl].
    { split; [intros _ id Hid; by apply elem_of_nil in Hid|done]. }
    pose proof (uptime_sum_le f w a l (uptime_sum f w a acc id)) as Hle.
    unfold uptime_sum at 1 in Hle. unfold uptime_sum at 2.
    destruct (UptimePercent (f id) w a) as [pct|] eqn:E; cbn in Hle.
    - split; [|intros H; specialize (H id ltac:(left)); congruence].
      intros H. unfold uptime_sum at 2 in Hle. rewrite E in Hle. cbn in Hle. lia.
    - rewrite IH by done. split.
      + intros H id' [->|Hid]%elem_of_cons; [done|by apply H].
      + intros H id' Hid. apply H. by right. }
  specialize (Hgen (0%float, 0) ltac:(cbn; lia)). cbn [snd] in Hgen.
  destruct (foldl _ _ ids) as [sum n]. cbn in Hgen. rewrite <- Hgen.
  destruct (Z.eqb_spec n 0); naive_solver.
Qed.

Lemma earliest_lt x l to :
  (∀ y, y ∈ x :: l → StartsAt y < to) → earliest x l < to.
Proof.
  intros H. unfold earliest. assert (StartsAt x < to) as H0 by (apply H; left).
  assert (∀ y, y ∈ l → StartsAt y < to) as Hl by (intros y Hy; apply H; by right).
  clear H. revert H0. generalize (StartsAt x). induction l as [|y l IH]; intros e He; [done|]. cbn [foldl].
  apply IH; [intros z Hz; apply Hl; by right|]. destruct (time_before _ _); [apply Hl; left|done].
Qed.

(** A day's figure exists exactly when an interval touches the day. *)
Lemma day_uptime_None ivs from to :
  UptimePercent (intervalsOverlapping ivs from to) from to = None ↔
  to <= from ∨ ∀ x, x ∈ ivs → interval_overlaps from to x = false.
Proof.
  unfold UptimePercent, intervalsOverlapping.
  destruct (filter _ ivs) as [|x l] eqn:Ef.
  - split; [|done]. intros _. right. intros x Hx. destruct (interval_overlaps from to x) eqn:Ex; [|done].
    exfalso. apply (elem_of_nil x). rewrite <- Ef. by apply list_elem_of_filter.
  - assert (∀ y, y ∈ x :: l → StartsAt y < to ∧ interval_overlaps from to y = true ∧ y ∈ ivs) as Hall.
    { intros y Hy. rewrite <- Ef in Hy. apply list_elem_of_filter in Hy as [Hy Hin]. split; [|done].
      unfold interval_overlaps in Hy. apply andb_true_iff in Hy as [Hy _]. by apply Z.ltb_lt in Hy. }
    pose proof (earliest_lt x l to (λ y Hy, proj1 (Hall y Hy))) as He.
    destruct (Hall x ltac:(left)) as (_ & Hx & Hin).
    unfold denominator_start. cbv zeta.
    destruct (Z.leb_spec (time_sub to (if time_after (earliest x l) from then earliest x l else from)) 0) as [Hle|Hlt].
    + split; [|done]. intros _. left. unfold time_sub, time_after in Hle.
      destruct (Z.ltb_spec from (earliest x l)); unfold int64_min, int64_max in *; lia.
    + split; [done|]. intros [Hto|Hno]; [|rewrite (Hno x Hin) in Hx; discriminate].
      unfold time_sub, time_after in Hlt. destruct (Z.ltb_spec from (earliest x l)); unfold int64_min, int64_max in *; lia.
Qed.

(** ** The days of the chart *)

Section chart.
Context `{!Zones} `{!ZonesLaws _} (loc : Location).

(** The clock of the place does not change from [lo] to [hi] (Unix seconds). *)
Definition steady (lo hi o : Z) : Prop := one_change loc lo hi hi o o.

(** Local midnight of a day number. *)
Definition midnight_of (o z : Z) : Z := (z * seconds_per_day - o) * second.

Section steadily.
Context (lo hi o : Z) (Hs : steady lo hi o).

Lemma steady_offset x : lo <= x < hi → zone_offset loc x = o.
Proof using Hs. intros Hx. by apply (oc_before _ _ _ _ _ _ Hs). Qed.

Lemma resolve_midnight z :
  lo + 2 * seconds_per_day <= z * seconds_per_day < hi - 2 * seconds_per_day →
  resolve (z * seconds_per_day) loc = z * seconds_per_day - o.
Proof using Hs ZonesLaws0.
  intros Hz. pose proof (oc_a _ _ _ _ _ _ Hs) as Ho. unfold seconds_per_day in *.
  destruct (resolve_shows loc lo hi hi o o (z * 86400) (z * 86400 - o) Hs) as [H1 H2];
    [unfold seconds_per_day; lia|lia|rewrite steady_offset; lia|].
  unfold seconds_per_day in H2. rewrite steady_offset in H1; lia.
Qed.

Lemma local_midnight z :
  lo + 2 * seconds_per_day <= z * seconds_per_day < hi - 2 * seconds_per_day →
  local_days (midnight_of o z) loc = z ∧ local_clock (midnight_of o z) loc = 0 ∧ nsec_of (midnight_of o z) = 0.
Proof using Hs.
  intros Hz. pose proof (oc_a _ _ _ _ _ _ Hs) as Ho. unfold midnight_of, local_days, local_clock, local_seconds, unix, nsec_of.
  rewrite Z.div_mul, Z.mod_mul by done. rewrite steady_offset by (unfold seconds_per_day in *; lia).
  replace (z * seconds_per_day - o + o) with (z * seconds_per_day) by lia.
  by rewrite Z.div_mul, Z.mod_mul by done.
Qed.

Lemma date_of_day z k :
  lo + 2 * seconds_per_day <= (z + k) * seconds_per_day < hi - 2 * seconds_per_day →
  Date (civil_of_days z).1.1 (civil_of_days z).1.2 ((civil_of_days z).2 + k) 0 0 0 0 loc = midnight_of o (z + k).
Proof using Hs ZonesLaws0.
  intros Hz. rewrite Date_of_days by done. by rewrite Z.add_0_r, resolve_midnight.
Qed.

(** A day later by the calendar. *)
Lemma AddDate_midnight z k :
  lo + 2 * seconds_per_day <= z * seconds_per_day < hi - 2 * seconds_per_day →
  lo + 2 * seconds_per_day <= (z + k) * seconds_per_day < hi - 2 * seconds_per_day →
  AddDate (midnight_of o z) 0 0 k loc = midnight_of o (z + k).
Proof using Hs ZonesLaws0.
  intros Hz Hk. destruct (local_midnight z Hz) as (E1 & E2 & E3).
  unfold AddDate, Year, Month, Day, Hour, Minute, Second. rewrite E1, E2, E3, !Z.add_0_r.
  change (0 / 3600) with 0. change (0 mod 3600 / 60) with 0. change (0 mod 60) with 0. by apply date_of_day.
Qed.

Lemma todayStart_midnight now :
  lo + 2 * seconds_per_day <= local_days now loc * seconds_per_day < hi - 2 * seconds_per_day →
  todayStart loc now = midnight_of o (local_days now loc).
Proof using Hs ZonesLaws0.
  intros Hz. unfold todayStart, Year, Month, Day.
  pose proof (date_of_day (local_days now loc) 0) as E. rewrite !Z.add_0_r in E. by apply E.
Qed.

(** The days of the chart, while the clock does not change. *)
Lemma day_start_spec now i :
  lo + 16 * seconds_per_day <= local_days now loc * seconds_per_day < hi - 3 * seconds_per_day →
  0 <= i < overviewUptimeSeriesDays →
  day_start loc now i = midnight_of o (local_days now loc - 13 + i) ∧
  (i < 13 → day_end loc now i = midnight_of o (local_days now loc - 13 + i + 1)) ∧
  (i = 13 → day_end loc now i = now).
Proof using Hs ZonesLaws0.
  unfold overviewUptimeSeriesDays. intros Hz Hi. unfold seconds_per_day in Hz.
  assert (day_start loc now i = midnight_of o (local_days now loc - 13 + i)) as E.
  { unfold day_start, overviewUptimeSeriesDays. rewrite todayStart_midnight by (unfold seconds_per_day; lia).
    rewrite AddDate_midnight by (unfold seconds_per_day; lia). change (- (14 - 1)) with (-13).
    rewrite AddDate_midnight by (unfold seconds_per_day; lia). f_equal; lia. }
  split; [exact E|]. unfold day_end, overviewUptimeSeriesDays. split; intros Hi'.
  - destruct (Z.eqb_spec i (14 - 1)); [lia|]. rewrite E.
    apply AddDate_midnight; unfold seconds_per_day; lia.
  - by subst.
Qed.
End steadily.
End chart.

(** A day's entry, over an interval of time. *)
Lemma day_average_None (intervalsOf : string → list StatusInterval) ids from to :
  averageUptime (λ id, intervalsOverlapping (intervalsOf id) from to) ids from to = None ↔
  to <= from ∨ ∀ id x, id ∈ ids → x ∈ intervalsOf id → StartsAt x < to → ∃ e, EndsAt x = Some e ∧ e <= from.
Proof.
  rewrite averageUptime_None. setoid_rewrite day_uptime_None. split.
  - intros H. destruct (Z.le_gt_cases to from) as [|Hlt]; [by left|right].
    intros id x Hid Hx Hst. destruct (H id Hid) as [|Hno]; [lia|]. specialize (Hno x Hx).
    unfold interval_overlaps, time_before, time_after in Hno. rewrite (proj2 (Z.ltb_lt _ _) Hst) in Hno.
    destruct (EndsAt x) as [e|]; [|done]. exists e. split; [done|]. by apply Z.ltb_ge in Hno.
  - intros [H|H] id Hid; [by left|right]. intros x Hx. unfold interval_overlaps, time_before, time_after.
    destruct (Z.ltb_spec (StartsAt x) to) as [Hst|]; [|done].
    destruct (H id x Hid Hx Hst) as (e & -> & He). by apply Z.ltb_ge.
Qed.

(** the fourteen days' chart.  While America/Sao_Paulo keeps its clock, the chart
    has fourteen entries, of the fourteen calendar days up to today's there, oldest
    first, each dated; an entry covers its day from midnight to midnight, today's up
    to now; and it has a figure exactly when an interval of one of the services
    touches that time: a day nobody was seen on is a gap, never 100 percent. *)
Theorem buildUptimeSeries_spec `{!Zones} `{!ZonesLaws _} (loc : Location) (lo hi o now : Z)
    (intervalsOf : string → list StatusInterval) (ids : list string) (i : nat) :
  steady loc lo hi o →
  lo + 16 * seconds_per_day <= local_days now loc * seconds_per_day < hi - 3 * seconds_per_day →
  let today := local_days now loc in
  let from := midnight_of o (today - 13 + Z.of_nat i) in
  let to := if (i =? 13)%nat then now else midnight_of o (today - 13 + Z.of_nat i + 1) in
  let '(y, m, d) := civil_of_days (today - 13 + Z.of_nat i) in
  length (buildUptimeSeries loc intervalsOf ids now) = 14%nat ∧
  ((i < 14)%nat → ∃ p,
     buildUptimeSeries loc intervalsOf ids now !! i = Some {| OubDate := layout_iso y m d; OubUptimePercent := p |} ∧
     (p = None ↔ to <= from ∨
        ∀ id x, id ∈ ids → x ∈ intervalsOf id → StartsAt x < to → ∃ e, EndsAt x = Some e ∧ e <= from)).
Proof.
  intros Hs Hz. cbv zeta. destruct (civil_of_days _) as [[y m] d] eqn:Ec. unfold buildUptimeSeries.
  split; [by rewrite length_fmap, length_seqZ|]. intros Hi.
  eexists. rewrite list_lookup_fmap, (lookup_seqZ_lt _ _ i) by (unfold overviewUptimeSeriesDays; lia). cbn.
  rewrite Z.add_0_l.
  destruct (day_start_spec loc lo hi o Hs now (Z.of_nat i) Hz) as (Es & Ee & Ee'); [unfold overviewUptimeSeriesDays; lia|].
  destruct (local_midnight loc lo hi o Hs (local_days now loc - 13 + Z.of_nat i)) as (El & _);
    [unfold seconds_per_day in *; lia|].
  assert (day_end loc now (Z.of_nat i) =
    if (i =? 13)%nat then now else midnight_of o (local_days now loc - 13 + Z.of_nat i + 1)) as Eend.
  { destruct (Nat.eqb_spec i 13); [apply Ee'; lia|apply Ee; lia]. }
  split.
  - unfold day_bucket. cbv zeta. unfold Year, Month, Day. by rewrite Es, El, Ec.
  - rewrite ?Es, ?Eend. apply day_average_None.
Qed.

(** ** The counts *)

(** Two sessions that see the same rows. *)
Definition same_view {D} (s1 s2 : session D) : Prop :=
  tables s1 = tables s2 ∧ app_tenant s1 = app_tenant s2 ∧ bypass_rls s1 = bypass_rls s2.
#[export] Instance same_view_equiv {D} : Equivalence (@same_view D).
Proof.
  split; [by intros s|by intros s1 s2 (?&?&?)|]. intros s1 s2 s3 (?&?&?) (?&?&?). split_and!; congruence.
Qed.
Lemma same_view_core (s1 s2 : session database) :
  same_view s1 s2 → same_view (retable (db_core (tables s1)) s1) (retable (db_core (tables s2)) s2).
Proof. intros (Ht & Ha & Hb). split_and!; cbn; congruence. Qed.
Lemma count_incidents_view p s1 s2 : same_view s1 s2 → count_incidents p s1 = count_incidents p s2.
Proof.
  intros (Ht & Ha & Hb). unfold count_incidents, visible_incidents, inc_visible, visible. by rewrite Ht, Ha, Hb.
Qed.
Lemma count_incidents_le p q s :
  (∀ x, p x = true → q x = true) → count_incidents p s <= count_incidents q s.
Proof.
  intros Hpq. unfold count_incidents. induction (visible_incidents s) as [|x l IH]; [done|].
  rewrite !filter_cons. destruct (decide (p x = true)) as [Hp|], (decide (q x = true)) as [|Hq]; cbn in *; try lia.
  by destruct Hq; apply Hpq.
Qed.

Section counts.
Context `{!Driver, !Machine, !Zones}.

(** A read of a handler that succeeded. *)
Lemma call_view {P A} (m : M (session core) db_err A) f (s s' : hstate) (a : A) :
  inert m → call (P := P) m f s = (Ok a, s') →
  same_view (h_db s') (h_db s) ∧ ∃ c', m (retable (db_core (tables (h_db s))) (h_db s)) = (Ok a, c').
Proof.
  intros Hm. unfold call, call_db. destruct (core_inert m Hm (h_db s)) as (H1' & H2' & H3').
  unfold on_db_core, focus in *. destruct (m _) as [[x|e] c'] eqn:Em; [|done]. intros [= <- <-].
  split; [|by exists c']. by split_and!.
Qed.
Lemma call_db_view {P A} (m : M (session database) db_err A) f (s s' : hstate) (a : A) :
  inert m → call_db (P := P) m f s = (Ok a, s') → same_view (h_db s') (h_db s).
Proof.
  intros Hm. unfold call_db. destruct (Hm (h_db s)) as (H1' & H2' & H3').
  destruct (m _) as [[x|e] c']; [|done]. by intros [= _ <-].
Qed.
Lemma with_service_ids_inert l : inert (with_service_ids l).
Proof.
  induction l as [|x l IH]; cbn [with_service_ids]; [by apply (preserves_ret untouched_db)|].
  apply (preserves_bind untouched_db); [apply inert_query|intros].
  apply (preserves_bind untouched_db); [done|intros]. by apply (preserves_ret untouched_db).
Qed.
Lemma incidents_page_inert page size : inert (Incidents.ListPaginated page size).
Proof.
  apply (preserves_bind untouched_db).
  { apply (preserves_stmt untouched_db). intros s a d Hf. cbv zeta in Hf. destruct (limit_offset _ _ _); [|done].
    by injection Hf as _ <-. }
  intros rows. apply (preserves_bind untouched_db); [destruct rows.1; [apply inert_query|by apply (preserves_ret untouched_db)]|].
  intros total. apply (preserves_bind untouched_db); [apply with_service_ids_inert|intros]. by apply (preserves_ret untouched_db).
Qed.
Lemma with_service_ids_length l s l' s' : with_service_ids l s = (Ok l', s') → length l' = length l.
Proof.
  revert s l' s'. induction l as [|x l IH]; intros s l' s'; cbn [with_service_ids]; [by intros [= <- _]|].
  intros (ids & s1 & _ & (rest & s2 & E & E')%bind_Ok_inv)%bind_Ok_inv. injection E' as <- _.
  cbn. by rewrite (IH _ _ _ E).
Qed.
Lemma incidents_page_length page size s l total s' :
  Incidents.ListPaginated page size s = (Ok (l, total), s') → Z.of_nat (length l) <= size.
Proof.
  unfold Incidents.ListPaginated.
  intros ((rows & n) & s1 & E1 & (t & s2 & _ & (l' & s3 & E3 & E4)%bind_Ok_inv)%bind_Ok_inv)%bind_Ok_inv.
  injection E4 as <- <- _. apply with_service_ids_length in E3. rewrite E3.
  apply stmt_Ok_inv in E1 as (d & Hf & _). cbv zeta in Hf. unfold limit_offset in Hf.
  destruct (_ || _) eqn:Hr; [done|]. injection Hf as <- _ _. apply orb_false_iff in Hr as [Hs%Z.ltb_ge _].
  cbn. rewrite length_take. lia.
Qed.
End counts.

Section domains.
Context `{!Driver}.
Lemma select_domains_le p q (s1 s2 : session core) :
  same_view s1 s2 → app_tenant s1 ≠ "" → bypass_rls s1 = false →
  (∀ r, dom_tenant r = app_tenant s1 → p r = true → q r = true) →
  (length (select_domains p s1) <= length (select_domains q s2))%nat.
Proof.
  intros (Ht & Ha & Hb) Hne Hby Hpq. unfold select_domains.
  rewrite !merge_sort_Permutation, !length_fmap, Ht.
  assert (∀ s id r, app_tenant s = app_tenant s1 → bypass_rls s = false →
    domain_readable s id r = String.eqb (dom_tenant r) (app_tenant s1)) as Hread.
  { intros s id r Hs Hsb. unfold domain_readable, domain_visible, anonymous, visible.
    rewrite Hs, Hsb, (proj2 (String.eqb_neq _ _) Hne). cbn. by rewrite orb_false_r. }
  induction (map_to_list _) as [|[id r] l IH]; [done|]. rewrite !filter_cons. cbn [fst snd].
  rewrite !Hread by congruence.
  destruct (String.eqb_spec (dom_tenant r) (app_tenant s1)) as [Hr|]; cbn [andb]; [|by rewrite !decide_False by done].
  destruct (decide (p r = true)) as [Hp|], (decide (q r = true)) as [|Hq]; cbn; try lia.
  by destruct Hq; apply Hpq.
Qed.
End domains.

(** the overview's numbers.  A successful summary changes nothing and its counts
    fit together: neither more critical nor more monitored incidents than open ones,
    not more unhealthy services than services, at most three incidents and fourteen
    days; and, under row security, not more verified domains than domains. *)
Theorem GetOverview_counts `{!Driver, !Machine, !Zones} (server_zone sao_paulo : Location) (c : rctx) (s s' : hstate) rsp :
  GetOverview server_zone sao_paulo c s = (Ok rsp, s') →
  tables (h_db s') = tables (h_db s) ∧
  ∃ x, rsp = Response StatusOK (Json x) ∧
    0 <= OpenIncidentsCritical x <= OpenIncidents x ∧ 0 <= OpenIncidentsMonitoring x <= OpenIncidents x ∧
    0 <= UnhealthyServices x <= TotalServices x ∧
    Z.of_nat (length (RecentIncidents x)) <= 3 ∧ length (UptimeSeries x) = 14%nat ∧
    (bypass_rls (h_db s) = false → cx_tenant c = app_tenant (h_db s) → cx_tenant c ≠ "" →
       0 <= VerifiedDomains x <= TotalDomains x).
Proof.
  unfold GetOverview.
  intros (services & s1 & E1 & E)%bind_Ok_inv. apply call_view in E1 as [V1 _]; [|apply inert_query].
  apply bind_Ok_inv in E as (now & s2 & [= <- <-] & E).
  apply bind_Ok_inv in E as (l & s3 & E3 & E). apply call_db_view in E3 as V3; [|apply intervals_inert, ListOverlapping_inert].
  apply bind_Ok_inv in E as (l' & s4 & E4 & E). apply call_db_view in E4 as V4; [|apply intervals_inert, ListOverlapping_inert].
  apply bind_Ok_inv in E as (open & s5 & E5 & E). apply call_view in E5 as [V5 [c5 E5]]; [|apply inert_query].
  apply bind_Ok_inv in E as ((critical & monitoring) & s6 & E6 & E). apply call_view in E6 as [V6 [c6 E6]]; [|apply inert_query].
  apply bind_Ok_inv in E as ((recent & n) & s7 & E7 & E). apply call_view in E7 as [V7 [c7 E7]]; [|apply incidents_page_inert].
  apply bind_Ok_inv in E as (verified & s8 & E8 & E). apply call_view in E8 as [V8 [c8 E8]]; [|apply inert_query].
  apply bind_Ok_inv in E as (total & s9 & E9 & E). apply call_view in E9 as [V9 [c9 E9]]; [|apply inert_query].
  injection E as <- <-. cbn [h_db bump_h_ev] in V3.
  apply query_Ok_inv in E5 as [-> _]. apply query_Ok_inv in E6 as [[= -> ->] _].
  apply incidents_page_length in E7. apply query_Ok_inv in E8 as [-> _]. apply query_Ok_inv in E9 as [-> _].
  set (d4 := retable (db_core (tables (h_db s4))) (h_db s4)) in *.
  set (d5 := retable (db_core (tables (h_db s5))) (h_db s5)) in *.
  assert (same_view d5 d4) as V54 by by apply same_view_core.
  assert (same_view (h_db s7) (h_db s)) as V70.
  { do 2 (etrans; [eassumption|]). etrans; [exact V5|]. etrans; [exact V4|]. by etrans. }
  assert (same_view (h_db s8) (h_db s7)) as V87 by done.
  split; [destruct V9 as (-> & _), V8 as (-> & _); exact (proj1 V70)|].
  eexists. split; [reflexivity|]. cbn.
  rewrite !(count_incidents_view _ d5 d4) by done.
  split_and!; try (unfold count_incidents; lia); try (apply count_incidents_le; intros x; by destruct (resolved_row x)).
  - apply inj_le, length_filter.
  - unfold toOverviewIncidents. rewrite length_fmap. exact E7.
  - unfold buildUptimeSeries. by rewrite length_fmap, length_seqZ.
  - intros Hb Hc Hne. split; [lia|]. apply inj_le, select_domains_le.
    + apply same_view_core. by symmetry.
    + destruct V70 as (_ & Ha & _). cbn. congruence.
    + destruct V70 as (_ & _ & Hb'). cbn. congruence.
    + intros r Hr _. destruct V70 as (_ & Ha & _). cbn in Hr. unfold of_tenant. apply String.eqb_eq. congruence.
Qed.

(** ** Examples and witnesses *)

Section witnesses.
#[local] Existing Instance demo_zones.
#[local] Existing Instance demo_zones_laws.
#[local] Existing Instance reliable.
#[local] Existing Instance demo_machine.

(** Sao Paulo keeps three hours behind UTC. *)
Definition sp : Location := DefaultLocation.
(** Noon of 11 March 2024 there, and a service seen since 10:00 of the ninth. *)
Definition noon : Z := 1710169200 * second.
Definition seen_since : list StatusInterval := [demo_interval "operational" (noon - 50 * hour) None].
Definition chart : list OverviewUptimeBucket :=
  buildUptimeSeries sp (λ id, if String.eqb id "svc-a" then seen_since else []) ["svc-a"; "svc-b"] noon.

Example chart_dates :
  (head (OubDate <$> chart), last (OubDate <$> chart), OubUptimePercent <$> drop 10 chart) =
  (Some "2024-02-27", Some "2024-03-11", [None; Some 100; Some 100; Some 100]%float).
Proof. vm_compute. reflexivity. Qed.

Lemma sp_steady : steady sp (noon / second - 20 * seconds_per_day) (noon / second + 20 * seconds_per_day) (-10800).
Proof. split; [intros x _; reflexivity| |done..]. intros x Hx. lia. Qed.

(** The tenth day of the chart is a gap, the eleventh is not. *)
Lemma buildUptimeSeries_spec_witness :
  ∃ gap day, chart !! 10%nat = Some {| OubDate := "2024-03-08"; OubUptimePercent := gap |} ∧ gap = None ∧
             chart !! 11%nat = Some {| OubDate := "2024-03-09"; OubUptimePercent := day |} ∧ day ≠ None.
Proof.
  pose proof (buildUptimeSeries_spec sp _ _ _ noon (λ id, if String.eqb id "svc-a" then seen_since else [])
    ["svc-a"; "svc-b"] 10 sp_steady) as H10.
  pose proof (buildUptimeSeries_spec sp _ _ _ noon (λ id, if String.eqb id "svc-a" then seen_since else [])
    ["svc-a"; "svc-b"] 11 sp_steady) as H11.
  destruct H10 as (_ & gap & E10 & G10); [vm_compute; split; [discriminate|reflexivity]|lia|].
  destruct H11 as (_ & day & E11 & G11); [vm_compute; split; [discriminate|reflexivity]|lia|].
  exists gap, day. split; [exact E10|]. split; [|split; [exact E11|]].
  - apply G10. right. intros id x Hid Hx Hst.
    apply elem_of_cons in Hid as [->|Hid]; [change (x ∈ seen_since) in Hx|].
    + apply list_elem_of_singleton in Hx as ->. vm_compute in Hst. discriminate Hst.
    + apply list_elem_of_singleton in Hid as ->. exfalso. exact (proj1 (elem_of_nil x) Hx).
  - intros ->. destruct (proj1 G11 eq_refl) as [Hle|Hall]; [vm_compute in Hle; by destruct Hle|].
    destruct (Hall "svc-a" (demo_interval "operational" (noon - 50 * hour) None)) as (e & He & _); [left|left|vm_compute; done|discriminate He].
Defined.

Lemma GetOverview_counts_witness :
  ∃ x, (GetOverview UTC sp demo_ctx demo_open).1 = Ok (Response StatusOK (Json x)) ∧
    OpenIncidents x = 1 ∧ 0 <= VerifiedDomains x <= TotalDomains x.
Proof.
  destruct (GetOverview UTC sp demo_ctx demo_open) as [[rsp|e] s'] eqn:E.
  - destruct (GetOverview_counts UTC sp demo_ctx demo_open s' rsp E) as (_ & x & Hr & _ & _ & _ & _ & _ & Hd).
    exists x. split; [by rewrite Hr|]. split; [|apply Hd; [reflexivity|reflexivity|discriminate]].
    assert (Ok rsp = (GetOverview UTC sp demo_ctx demo_open).1) as Hrsp by by rewrite E.
    rewrite Hr in Hrsp. vm_compute in Hrsp. by injection Hrsp as ->.
  - assert (is_ok (GetOverview UTC sp demo_ctx demo_open).1 = true) as Hok by (vm_compute; reflexivity).
    by rewrite E in Hok.
Defined.
End witnesses.
