(* ===== verification/CertStore.v ===== *)
(** * The certificate storage (internal/tls: postgres_storage.go,
    encrypted_storage.go, key_backfill.go)

    certmagic.Storage as a class of operations; the Postgres table behind it, and
    the decorator that seals private keys over any storage.  [Locks], the other
    half of the interface, is CertLocks.v.  The one-off sealing of keys stored
    before that runs in a transaction of its own. *)

From stdpp Require Import numbers strings gmap list.
From Stdlib Require Import ZArith Lia Ascii.
From S2P Require Import Prelude GoNum GoStrings Db Secrets.

#[local] Open Scope Z_scope.
#[local] Open Scope go_scope.

Inductive cert_err :=
| ErrNotExist                       (* fs.ErrNotExist *)
| ErrStorage (e : db_err)
| ErrSeal
| ErrDecrypt.

Record KeyInfo := {
  KiKey : string;
  KiModified : option Z;
  KiSize : Z;
  IsTerminal : bool;
}.

(** certmagic.Storage, on a storage's state. *)
Class Storage (S : Type) := {
  st_Store : string → string → M S cert_err unit;
  st_Load : string → M S cert_err string;
  st_Delete : string → M S cert_err unit;
  st_Exists : string → S → bool * S;
  st_List : string → bool → M S cert_err (list string);
  st_Stat : string → M S cert_err KeyInfo;
}.

(** ** The table *)

Record cert_row := {
  CertValue : string;
  CertModifiedAt : Z;
}.
Abbreviation certs := (gmap string cert_row).

(** "key = $1 OR starts_with(key, $2)" with $2 = key/. *)
Definition under (key k : string) : bool := String.eqb k key || String.prefix (String.append key "/") k.

(** The text before the first slash. *)
Fixpoint first_segment (s : string) : string :=
  match s with
  | EmptyString => EmptyString
  | String a s => if (a =? "/")%char then EmptyString else String a (first_segment s)
  end.
(** What a row's key is listed as. *)
Definition listed_as (prefix : string) (recursive : bool) (key : string) : string :=
  if recursive then key
  else String.append prefix (first_segment (drop_bytes (String.length prefix) key)).
(** The loop over the rows: a result already seen is skipped. *)
Definition add_unseen (keys : list string) (result : string) : list string :=
  if bool_decide (result ∈ keys) then keys else keys ++ [result].

Section postgres.
Context `{!Driver}.
Abbreviation PM := (M (session certs) cert_err).

Definition sql {A} (m : M (session certs) db_err A) : PM A :=
  λ s, match m s with (Ok a, s') => (Ok a, s') | (Err e, s') => (Err (ErrStorage e), s') end.

Definition pg_Store (key value : string) : PM unit :=
  sql (stmt (λ s, Ok (tt, <[key := {| CertValue := value; CertModifiedAt := sql_now s |}]> (tables s)))).
Definition pg_Load (key : string) : PM string :=
  row <- sql (query (λ s, CertValue <$> tables s !! key)) ;;
  match row with Some value => ret value | None => fail ErrNotExist end.
Definition pg_Delete (key : string) : PM unit :=
  n <- sql (stmt (λ s, Ok (size (filter (λ kv, under key kv.1 = true) (tables s)),
                           filter (λ kv, under key kv.1 = false) (tables s)))) ;;
  if bool_decide (n = 0%nat) then fail ErrNotExist else ret tt.
(** An error of the query is answered false. *)
Definition pg_Exists (key : string) : session certs → bool * session certs :=
  λ s, match query (λ s, bool_decide (size (filter (λ kv, under key kv.1 = true) (tables s)) ≠ 0%nat)) s with
       | (Ok b, s') => (b, s')
       | (Err _, s') => (false, s')
       end.
Definition pg_List (path : string) (recursive : bool) : PM (list string) :=
  let prefix := String.append path "/" in
  rows <- sql (query (λ s, fst <$> map_to_list (filter (λ kv, String.prefix prefix kv.1 = true) (tables s)))) ;;
  ret (foldl add_unseen [] (listed_as prefix recursive <$> rows)).
Definition pg_Stat (key : string) : PM KeyInfo :=
  row <- sql (query (λ s, tables s !! key)) ;;
  match row with
  | Some r => ret {| KiKey := key; KiModified := Some (CertModifiedAt r);
                     KiSize := Z.of_nat (String.length (CertValue r)); IsTerminal := true |}
  | None =>
      λ s, let '(b, s') := pg_Exists key s in
           if b : bool then (Ok {| KiKey := key; KiModified := None; KiSize := 0; IsTerminal := false |}, s')
           else (Err ErrNotExist, s')
  end.
Definition PostgresStorage : Storage (session certs) := {|
  st_Store := pg_Store;
  st_Load := pg_Load;
  st_Delete := pg_Delete;
  st_Exists := pg_Exists;
  st_List := pg_List;
  st_Stat := pg_Stat;
|}.
End postgres.

(** ** Sealed private keys *)

Definition secretKeySuffix : string := ".key".
Definition secretEnvelopePrefix : string := "vane:tls-secret:v1:".

(** strings.HasSuffix *)
Fixpoint has_suffix (p s : string) : bool :=
  String.eqb s p || match s with EmptyString => false | String _ s => has_suffix p s end.
Definition isSecretKey (key : string) : bool := has_suffix secretKeySuffix key.
Definition isSealed (value : string) : bool := String.prefix secretEnvelopePrefix value.

Section encrypted.
Context `{!Machine}.

Definition sealSecret (ev : nat) (masterKey plaintext : string) : option string :=
  String.append secretEnvelopePrefix <$> Encrypt ev masterKey plaintext.
(** A value as Load gives it back, None when it does not open. *)
Definition openSecret (masterKey key value : string) : option string :=
  if negb (isSecretKey key) || negb (isSealed value) then Some value
  else Decrypt masterKey (drop_bytes (String.length secretEnvelopePrefix) value).

Section decorator.
Context {S : Type} (inner : Storage S) (masterKey : string).

(** The state of the storage inside, and the questions put to the machine. *)
Definition inside {A} (m : M S cert_err A) : M (S * nat) cert_err A :=
  λ s, let '(r, s') := m s.1 in (r, (s', s.2)).
Definition sealing (value : string) : M (S * nat) cert_err string :=
  λ s, match sealSecret s.2 masterKey value with
       | Some sealed => (Ok sealed, (s.1, Datatypes.S s.2))
       | None => (Err ErrSeal, (s.1, Datatypes.S s.2))
       end.
Definition enc_Store (key value : string) : M (S * nat) cert_err unit :=
  if negb (isSecretKey key) then inside (st_Store key value)
  else sealed <- sealing value ;; inside (st_Store key sealed).
Definition enc_Load (key : string) : M (S * nat) cert_err string :=
  value <- inside (st_Load key) ;;
  match openSecret masterKey key value with
  | Some plaintext => ret plaintext
  | None => fail ErrDecrypt
  end.
Definition EncryptedStorage : Storage (S * nat) := {|
  st_Store := enc_Store;
  st_Load := enc_Load;
  st_Delete key := inside (st_Delete key);
  st_Exists key s := let '(b, s') := st_Exists key s.1 in (b, (s', s.2));
  st_List path recursive := inside (st_List path recursive);
  st_Stat key := inside (st_Stat key);
|}.
End decorator.
End encrypted.

(** ** Sealing what was stored before *)

(** pg_try_advisory_xact_lock of the backfill's key, at an interaction. *)
Class BackfillLock := { lock_free : nat → bool }.

Section backfill.
Context `{!Driver, !Machine, !BackfillLock} (masterKey : string).

(** UPDATE ... WHERE key = $1 AND value = $3: a row written since is left alone. *)
Definition seal_row (key sealed old : string) : M (session certs) db_err Z :=
  stmt (λ s,
    match tables s !! key with
    | Some r =>
        if String.eqb (CertValue r) old
        then Ok (1, <[key := {| CertValue := sealed; CertModifiedAt := CertModifiedAt r |}]> (tables s))
        else Ok (0, tables s)
    | None => Ok (0, tables s)
    end).
Definition legacy_rows (m : certs) : list (string * string) :=
  filter (λ kv, isSealed kv.2 = false)
    ((λ kv, (kv.1, CertValue kv.2)) <$> map_to_list (filter (λ kv, isSecretKey kv.1 = true) m)).

(** The loop over the legacy rows, on the transaction. *)
Fixpoint seal_rows (ev : nat) (l : list (string * string)) : M (session certs) cert_err Z :=
  match l with
  | [] => ret 0
  | (key, value) :: l =>
      match sealSecret ev masterKey value with
      | None => fail ErrSeal
      | Some sealed =>
          n <- sql (seal_row key sealed value) ;;
          m <- seal_rows (S ev) l ;;
          ret (n + m)
      end
  end.
(** The transaction's body: None when another replica holds the lock. *)
Definition backfill_body (ev : nat) : M (session certs) cert_err (option Z) :=
  acquired <- sql (query (λ s, lock_free (tick s))) ;;
  if negb acquired then ret None
  else
    legacy <- sql (query (λ s, legacy_rows (tables s))) ;;
    sealed <- seal_rows ev legacy ;;
    ret (Some sealed).
Definition EncryptLegacyKeys (ev : nat) : M (session certs) cert_err Z :=
  λ s, if event_fails (tick s) then (Err (ErrStorage ErrDriver), bump s)
       else
         match backfill_body ev (pool_conn s) with
         | (Err e, tx) => (Err e, tx_rollback tx s)
         | (Ok None, tx) => (Ok 0, tx_rollback tx s)
         | (Ok (Some sealed), tx) =>
             match tx_commit tx s with
             | (Ok _, s') => (Ok sealed, s')
             | (Err e, s') => (Err (ErrStorage e), s')
             end
         end.
End backfill.
