(* ===== verification/CertSpec.v ===== *)
(** * What a certificate storage promises

    [storage_ok st view]: the operations of [st] are those of a tree of files
    [view], whatever fails.  The table is one; so is the encrypting decorator over
    any storage that is one, with the private keys opened: it is proved against the
    interface alone.  No private key is ever stored readable, and the backfill seals
    the older ones without changing what is read. *)

From stdpp Require Import numbers strings gmap list.
From Stdlib Require Import ZArith Lia Ascii.
From S2P Require Import Prelude GoNum GoStrings Db Secrets CertStore.

#[local] Open Scope Z_scope.
#[local] Open Scope go_scope.

(** ** The contract *)

(** A file is there with its bytes, or with bytes that do not open. *)
Abbreviation files := (gmap string (option string)).
Definition is_file (f : files) (k : string) : Prop := is_Some (f !! k).

Record storage_ok {S} (st : Storage S) (view : S → files) (ready : S → Prop) : Prop := {
  ok_store k v s r s' : st_Store k v s = (r, s') →
    match r with Ok _ => view s' = <[k := Some v]> (view s) | Err _ => view s' = view s end;
  ok_load k s r s' : st_Load k s = (r, s') → view s' = view s ∧
    match r with
    | Ok v => view s !! k = Some (Some v)
    | Err ErrNotExist => view s !! k = None
    | Err _ => True
    end;
  ok_load_ready k v s : ready s → view s !! k = Some (Some v) → (st_Load k s).1 = Ok v;
  ok_delete k s r s' : st_Delete k s = (r, s') →
    match r with
    | Ok _ => view s' = filter (λ kv, under k kv.1 = false) (view s) ∧ ∃ k', under k k' = true ∧ is_file (view s) k'
    | Err ErrNotExist => view s' = view s ∧ ∀ k', under k k' = true → ¬ is_file (view s) k'
    | Err _ => view s' = view s
    end;
  ok_exists k s b s' : st_Exists k s = (b, s') → view s' = view s ∧
    (b = true → ∃ k', under k k' = true ∧ is_file (view s) k');
  ok_list path recursive s r s' : st_List path recursive s = (r, s') → view s' = view s ∧
    match r with
    | Ok l => NoDup l ∧ ∀ x, x ∈ l ↔ ∃ k, is_file (view s) k ∧
        String.prefix (String.append path "/") k = true ∧ listed_as (String.append path "/") recursive k = x
    | Err _ => True
    end;
  ok_stat k s r s' : st_Stat k s = (r, s') → view s' = view s ∧
    match r with
    | Ok i => KiKey i = k ∧ if IsTerminal i then is_file (view s) k
                            else ¬ is_file (view s) k ∧ ∃ k', under k k' = true ∧ is_file (view s) k'
    | Err _ => True
    end;
}.

(** ** The table *)

Section postgres.
Context `{!Driver}.

Definition table_files (s : session certs) : files := (λ r, Some (CertValue r)) <$> tables s.
Definition answers_now {D} (s : session D) : Prop := aborted s = false ∧ event_fails (tick s) = false.

Lemma sql_inv {A} (m : M (session certs) db_err A) s r s' :
  sql m s = (r, s') → ∃ r0, m s = (r0, s') ∧ r = match r0 with Ok a => Ok a | Err e => Err (ErrStorage e) end.
Proof. unfold sql. destruct (m s) as [[a|e] s1]; intros [= <- <-]; by eexists. Qed.
Lemma sql_query {A} (f : session certs → A) s r s' :
  sql (query f) s = (r, s') → tables s' = tables s ∧ match r with Ok a => a = f s | Err e => ∃ e0, e = ErrStorage e0 end.
Proof.
  intros (r0 & E & ->)%sql_inv. pose proof E as E0. apply stmt_inv in E as [(e & -> & Ht)|(a & d & [= <- <-] & -> & ->)].
  - split; [done|]. by exists e.
  - done.
Qed.
Lemma sql_query_bind {A B} (f : session certs → A) (k : A → M (session certs) cert_err B) s r s' :
  bind (sql (query f)) k s = (r, s') →
  (∃ e, r = Err (ErrStorage e) ∧ tables s' = tables s) ∨ ∃ s1, tables s1 = tables s ∧ k (f s) s1 = (r, s').
Proof.
  unfold bind. destruct (sql (query f) s) as [[a|e] s1] eqn:E; apply sql_query in E as [Ht Ha].
  - subst a. intros E. right. by exists s1.
  - destruct Ha as [e0 ->]. intros [= <- <-]. left. by exists e0.
Qed.

Lemma table_is_file s k : is_file (table_files s) k ↔ is_Some (tables s !! k).
Proof. unfold is_file, table_files. rewrite lookup_fmap. destruct (tables s !! k); cbn; naive_solver. Qed.
Lemma some_row (m : certs) (P : string → bool) :
  size (filter (λ kv, P kv.1 = true) m) ≠ 0%nat ↔ ∃ k, P k = true ∧ is_Some (m !! k).
Proof.
  rewrite map_size_non_empty_iff, map_empty. split.
  - intros Hne. destruct (map_choose (filter (λ kv, P kv.1 = true) m)) as (k & r & Hk).
    { intros E. apply Hne. intros i. by rewrite E, lookup_empty. }
    apply map_lookup_filter_Some in Hk as [Hk Hp]. exists k. by rewrite Hk.
  - intros (k & Hp & r & Hr) Hno. specialize (Hno k). apply map_lookup_filter_None in Hno as [Hno|Hno]; [congruence|].
    by apply (Hno r Hr).
Qed.
Lemma table_filter s k :
  table_files (set_tables (filter (λ kv, under k kv.1 = false) (tables s)) s) =
  filter (λ kv, under k kv.1 = false) (table_files s).
Proof. unfold table_files. cbn. by rewrite map_filter_fmap. Qed.

Lemma add_unseen_spec l acc :
  NoDup acc → NoDup (foldl add_unseen acc l) ∧ ∀ x, x ∈ foldl add_unseen acc l ↔ x ∈ acc ∨ x ∈ l.
Proof.
  revert acc. induction l as [|y l IH]; intros acc Hacc; cbn [foldl].
  { split; [done|]. intros x. rewrite elem_of_nil. tauto. }
  destruct (IH (add_unseen acc y)) as [H1 H2].
  { unfold add_unseen. case_bool_decide; [done|]. apply NoDup_app. split; [done|]. split.
    - by intros x Hx ->%list_elem_of_singleton.
    - apply NoDup_singleton. }
  split; [done|]. intros x. rewrite H2, elem_of_cons. unfold add_unseen. case_bool_decide; [|rewrite elem_of_app, list_elem_of_singleton]; naive_solver.
Qed.
End postgres.

Section postgres_ok.
Context `{!Driver}.
Let view := table_files.

Lemma pg_Store_ok k v s r s' : pg_Store k v s = (r, s') →
  match r with Ok _ => view s' = <[k := Some v]> (view s) | Err _ => view s' = view s end.
Proof.
  intros (r0 & E & ->)%sql_inv. apply stmt_inv in E as [(e & -> & Ht)|(a & d & [= <- <-] & -> & ->)].
  - unfold view, table_files. by rewrite Ht.
  - unfold view, table_files. cbn. by rewrite fmap_insert.
Qed.
Lemma pg_Load_ok k s r s' : pg_Load k s = (r, s') → view s' = view s ∧
  match r with
  | Ok v => view s !! k = Some (Some v)
  | Err ErrNotExist => view s !! k = None
  | Err _ => True
  end.
Proof.
  unfold view, table_files. rewrite lookup_fmap.
  intros [(e & -> & Ht)|(s1 & Ht & E)]%sql_query_bind; [by rewrite Ht|].
  destruct (tables s !! k) as [row|]; cbn in E; injection E as <- <-; by rewrite Ht.
Qed.
Lemma pg_Load_ready k v s : answers_now s → view s !! k = Some (Some v) → (pg_Load k s).1 = Ok v.
Proof.
  intros [Ha Hf]. unfold view, table_files. rewrite lookup_fmap.
  unfold pg_Load, bind, sql, query, stmt. rewrite Ha, Hf. by destruct (tables s !! k) as [row|]; [intros [= <-]|].
Qed.
Lemma pg_Delete_ok k s r s' : pg_Delete k s = (r, s') →
  match r with
  | Ok _ => view s' = filter (λ kv, under k kv.1 = false) (view s) ∧ ∃ k', under k k' = true ∧ is_file (view s) k'
  | Err ErrNotExist => view s' = view s ∧ ∀ k', under k k' = true → ¬ is_file (view s) k'
  | Err _ => view s' = view s
  end.
Proof.
  unfold pg_Delete, bind. destruct (sql _ s) as [r1 s1] eqn:E. apply sql_inv in E as (r0 & E & ->).
  apply stmt_inv in E as [(e & -> & Ht)|(n & d & [= <- <-] & -> & ->)].
  { intros [= <- <-]. unfold view, table_files. by rewrite Ht. }
  assert (view (set_tables (filter (λ kv, under k kv.1 = false) (tables s)) (bump s)) =
    filter (λ kv, under k kv.1 = false) (view s)) as Hv by apply (table_filter (bump s) k).
  case_bool_decide as Hn; intros [= <- <-].
  - assert (∀ k', under k k' = true → ¬ is_file (view s) k') as Hno.
    { intros k' Hk' Hf. apply table_is_file in Hf.
      by apply (proj2 (some_row (tables s) (under k)) (ex_intro _ k' (conj Hk' Hf))). }
    split; [|exact Hno]. rewrite Hv. apply map_filter_id. intros k' v Hk'. cbn.
    destruct (under k k') eqn:Hu; [|done]. exfalso. apply (Hno k' Hu). unfold is_file. by rewrite Hk'.
  - split; [exact Hv|]. apply (some_row (tables s) (under k)) in Hn as (k' & Hk' & Hf). exists k'.
    split; [done|]. by apply table_is_file.
Qed.
Lemma pg_Exists_ok k s b s' : pg_Exists k s = (b, s') → view s' = view s ∧
  (b = true → ∃ k', under k k' = true ∧ is_file (view s) k').
Proof.
  unfold pg_Exists. destruct (query _ s) as [[b0|e] s1] eqn:E; intros [= <- <-].
  - apply query_Ok_inv in E as [-> Ht]. unfold view at 1 2, table_files. rewrite Ht. split; [done|].
    intros Hb%bool_decide_eq_true. apply (some_row (tables s) (under k)) in Hb as (k' & Hk' & Hf). exists k'.
    split; [done|]. by apply table_is_file.
  - apply stmt_inv in E as [(e0 & _ & Ht)|(a & d & _ & [=] & _)]. unfold view at 1 2, table_files. by rewrite Ht.
Qed.
Lemma pg_List_ok path recursive s r s' : pg_List path recursive s = (r, s') → view s' = view s ∧
  match r with
  | Ok l => NoDup l ∧ ∀ x, x ∈ l ↔ ∃ k, is_file (view s) k ∧
      String.prefix (String.append path "/") k = true ∧ listed_as (String.append path "/") recursive k = x
  | Err _ => True
  end.
Proof.
  unfold pg_List. cbv zeta. set (p := String.append path "/").
  intros [(e & -> & Ht)|(s1 & Ht & E)]%sql_query_bind; [unfold view, table_files; by rewrite Ht|].
  injection E as <- <-. split; [unfold view, table_files; by rewrite Ht|].
  match goal with |- context [foldl add_unseen [] ?l] => destruct (add_unseen_spec l []) as [H1' H2'] end; [constructor|].
  split; [done|]. intros x. rewrite H2', elem_of_nil, list_elem_of_fmap. split.
  - intros [[]|(k & -> & Hk)]. apply list_elem_of_fmap in Hk as ([k' row] & -> & Hk). apply elem_of_map_to_list in Hk.
    apply map_lookup_filter_Some in Hk as [Hk Hp]. exists k'. split; [apply table_is_file; by rewrite Hk|done].
  - intros (k & Hf & Hp & <-). right. exists k. split; [done|]. apply table_is_file in Hf as [row Hrow].
    apply list_elem_of_fmap. exists (k, row). split; [done|]. apply elem_of_map_to_list. by apply map_lookup_filter_Some.
Qed.
Lemma pg_Stat_ok k s r s' : pg_Stat k s = (r, s') → view s' = view s ∧
  match r with
  | Ok i => KiKey i = k ∧ if IsTerminal i then is_file (view s) k
                          else ¬ is_file (view s) k ∧ ∃ k', under k k' = true ∧ is_file (view s) k'
  | Err _ => True
  end.
Proof.
  unfold pg_Stat. intros [(e & -> & Ht)|(s1 & Ht & E)]%sql_query_bind; [unfold view, table_files; by rewrite Ht|].
  assert (view s1 = view s) as Hv by (unfold view, table_files; by rewrite Ht).
  destruct (tables s !! k) as [row|] eqn:Hk.
  - injection E as <- <-. split; [done|]. split; [done|]. cbn. apply table_is_file. by rewrite Hk.
  - destruct (pg_Exists k s1) as [b s2] eqn:Ee. apply pg_Exists_ok in Ee as [Hv2 Hb]. rewrite Hv in Hb.
    destruct b; injection E as <- <-; (split; [congruence|]); [|done].
    split; [done|]. cbn. split; [|by apply Hb]. intros Hf%table_is_file. rewrite Hk in Hf. by destruct Hf.
Qed.

Lemma postgres_storage_ok : storage_ok PostgresStorage view answers_now.
Proof.
  split; [exact pg_Store_ok|exact pg_Load_ok|exact pg_Load_ready|exact pg_Delete_ok|exact pg_Exists_ok|exact pg_List_ok|exact pg_Stat_ok].
Qed.
End postgres_ok.

(** ** The decorator *)

Section encrypted_ok.
Context `{!Machine} {S : Type} (inner : Storage S) (view : S → files) (ready : S → Prop) (masterKey : string).
Context (Hlaws : machine_laws) (Hinner : storage_ok inner view ready).

(** What is read through it. *)
Definition opened (f : files) : files := map_imap (λ k v, Some (v ≫= openSecret masterKey k)) f.
Let view' (s : S * nat) : files := opened (view s.1).

Lemma opened_lookup f k : opened f !! k = (λ v, v ≫= openSecret masterKey k) <$> f !! k.
Proof. unfold opened. rewrite map_lookup_imap. by destruct (f !! k). Qed.
Lemma opened_is_file f k : is_file (opened f) k ↔ is_file f k.
Proof. unfold is_file. by rewrite opened_lookup, fmap_is_Some. Qed.
Lemma opened_insert f k v w : openSecret masterKey k w = Some v → opened (<[k := Some w]> f) = <[k := Some v]> (opened f).
Proof. intros Ho. unfold opened. rewrite map_imap_insert. cbn. by rewrite Ho. Qed.
Lemma opened_filter f k :
  opened (filter (λ kv, under k kv.1 = false) f) = filter (λ kv, under k kv.1 = false) (opened f).
Proof.
  apply map_eq. intros i. apply option_eq. intros o.
  rewrite opened_lookup, fmap_Some. setoid_rewrite map_lookup_filter_Some.
  rewrite opened_lookup, fmap_Some. cbn. naive_solver.
Qed.

Lemma open_sealed ev value sealed key :
  sealSecret ev masterKey value = Some sealed → isSecretKey key = true → openSecret masterKey key sealed = Some value.
Proof using Hlaws.
  unfold sealSecret, openSecret, isSealed. intros (c & Hc & ->)%fmap_Some Hk.
  rewrite Hk, prefix_append. cbn [negb orb]. rewrite drop_prefix. by eapply decrypt_encrypted.
Qed.
Lemma open_other key value : isSecretKey key = false → openSecret masterKey key value = Some value.
Proof. unfold openSecret. by intros ->. Qed.

Lemma inside_inv {A} (m : M S cert_err A) (s : S * nat) r s' :
  inside m s = (r, s') → m s.1 = (r, s'.1) ∧ s'.2 = s.2.
Proof. unfold inside. destruct (m s.1). by intros [= <- <-]. Qed.

Lemma enc_Store_ok k v s r s' : enc_Store inner masterKey k v s = (r, s') →
  match r with Ok _ => view' s' = <[k := Some v]> (view' s) | Err _ => view' s' = view' s end.
Proof using Hlaws Hinner.
  unfold enc_Store. destruct (isSecretKey k) eqn:Hk; cbn [negb].
  - unfold bind, sealing. destruct (sealSecret s.2 masterKey v) as [w|] eqn:Hw; [|by intros [= <- <-]].
    intros [E _]%inside_inv. apply (ok_store _ _ _ Hinner) in E. cbn in E. unfold view'. destruct r; [|by rewrite E].
    rewrite E. apply opened_insert. by eapply open_sealed.
  - intros [E _]%inside_inv. apply (ok_store _ _ _ Hinner) in E. unfold view'. destruct r; [|by rewrite E].
    rewrite E. by apply opened_insert, open_other.
Qed.
Lemma enc_Load_ok k s r s' : enc_Load inner masterKey k s = (r, s') → view' s' = view' s ∧
  match r with
  | Ok v => view' s !! k = Some (Some v)
  | Err ErrNotExist => view' s !! k = None
  | Err _ => True
  end.
Proof using Hinner.
  unfold enc_Load, bind. destruct (inside _ s) as [r1 s1] eqn:E1. apply inside_inv in E1 as [E1 _].
  apply (ok_load _ _ _ Hinner) in E1 as [Hv Hr]. unfold view'. rewrite opened_lookup. destruct r1 as [w|e].
  - destruct (openSecret masterKey k w) as [v|] eqn:Ho; intros [= <- <-]; rewrite Hv; (split; [done|]); [|done].
    rewrite Hr. cbn. by rewrite Ho.
  - intros [= <- <-]. rewrite Hv. split; [done|]. destruct e; try done. by rewrite Hr.
Qed.
Lemma enc_Load_ready k v s : ready s.1 → view' s !! k = Some (Some v) → (enc_Load inner masterKey k s).1 = Ok v.
Proof using Hinner.
  intros Hs. unfold view'. rewrite opened_lookup. intros ([w|] & Hw & Ho)%fmap_Some; [|done]. cbn in Ho.
  pose proof (ok_load_ready _ _ _ Hinner k w s.1 Hs Hw) as E. unfold enc_Load, bind, inside.
  destruct (st_Load k s.1) as [r s1]. cbn in E. subst r. cbn. by rewrite <- Ho.
Qed.

Lemma encrypted_ok : storage_ok (EncryptedStorage inner masterKey) view' (λ s, ready s.1).
Proof using Hlaws Hinner.
  split; cbn [EncryptedStorage st_Store st_Load st_Delete st_Exists st_List st_Stat].
  - exact enc_Store_ok.
  - exact enc_Load_ok.
  - exact enc_Load_ready.
  - intros k s r s' [E _]%inside_inv. apply (ok_delete _ _ _ Hinner) in E. unfold view'. destruct r as [[]|[]].
    + destruct E as [-> (k' & Hu & Hk')]. split; [apply opened_filter|]. exists k'. by rewrite opened_is_file.
    + destruct E as [-> E]. split; [done|]. intros k' Hu. rewrite opened_is_file. by apply E.
    + by rewrite E.
    + by rewrite E.
    + by rewrite E.
  - intros k s b s'. destruct (st_Exists k s.1) as [b0 s1] eqn:E. intros [= <- <-].
    apply (ok_exists _ _ _ Hinner) in E as [Hv Hb]. unfold view'. cbn. rewrite Hv. split; [done|].
    intros (k' & Hu & Hk')%Hb. exists k'. by rewrite opened_is_file.
  - intros path recursive s r s' [E _]%inside_inv. apply (ok_list _ _ _ Hinner) in E as [Hv E]. unfold view'.
    rewrite Hv. split; [done|]. destruct r; [|done]. setoid_rewrite opened_is_file. exact E.
  - intros k s r s' [E _]%inside_inv. apply (ok_stat _ _ _ Hinner) in E as [Hv E]. unfold view'.
    rewrite Hv. split; [done|]. destruct r as [i|]; [|done]. destruct E as [Hk E]. split; [done|].
    destruct (IsTerminal i); [by apply opened_is_file|]. setoid_rewrite opened_is_file. exact E.
Qed.
End encrypted_ok.

(** ** Private keys at rest *)

(** Every private key in the table is sealed. *)
Definition keys_sealed (m : certs) : Prop :=
  ∀ k r, m !! k = Some r → isSecretKey k = true → isSealed (CertValue r) = true.

Lemma sealed_is_sealed `{!Machine} ev masterKey value sealed :
  sealSecret ev masterKey value = Some sealed → isSealed sealed = true.
Proof. unfold sealSecret. intros (c & _ & ->)%fmap_Some. apply prefix_append. Qed.

Section backfill.
Context `{!Driver, !Machine, !BackfillLock} (masterKey : string).

(** What sealing does to a row. *)
Definition resealed (l : list (string * string)) (k : string) (r r' : cert_row) : Prop :=
  CertModifiedAt r' = CertModifiedAt r ∧ (k ∉ l.*1 → r' = r) ∧
  (k ∈ l.*1 → ∃ ev, sealSecret ev masterKey (CertValue r) = Some (CertValue r')).

Lemma seal_row_inv k sealed old s n s' :
  sql (seal_row k sealed old) s = (Ok n, s') → CertValue <$> tables s !! k = Some old →
  n = 1 ∧ ∃ r, tables s !! k = Some r ∧
    tables s' = <[k := {| CertValue := sealed; CertModifiedAt := CertModifiedAt r |}]> (tables s).
Proof.
  intros (r0 & E & Er)%sql_inv Hk. destruct r0 as [n0|]; [|done]. injection Er as ->.
  apply stmt_Ok_inv in E as (d & Hf & Hd & _). apply fmap_Some in Hk as (r & Hr & ->).
  rewrite Hr, String.eqb_refl in Hf. injection Hf as <- <-. split; [done|]. by exists r.
Qed.

Lemma seal_rows_inv ev l s n s' :
  NoDup l.*1 → (∀ k v, (k, v) ∈ l → CertValue <$> tables s !! k = Some v) →
  seal_rows masterKey ev l s = (Ok n, s') →
  n = Z.of_nat (length l) ∧
  (∀ k, tables s !! k = None → tables s' !! k = None) ∧
  (∀ k r, tables s !! k = Some r → ∃ r', tables s' !! k = Some r' ∧ resealed l k r r').
Proof.
  revert ev s n. induction l as [|[k v] l IH]; intros ev s n Hnd Hl; cbn [seal_rows].
  { intros [= <- <-]. split_and!; [done..|]. intros k r Hr. exists r. split; [done|].
    split_and!; [done..|]. by intros Hk%elem_of_nil. }
  destruct (sealSecret ev masterKey v) as [sealed|] eqn:Hs; [|done].
  intros (n1 & s1 & E1 & (n2 & s2 & E2 & [= <- <-])%bind_Ok_inv)%bind_Ok_inv.
  apply seal_row_inv in E1 as (-> & r0 & Hr0 & Ht); [|apply Hl; left].
  cbn in Hnd. apply NoDup_cons in Hnd as [Hk Hnd].
  assert (∀ k', k' ≠ k → tables s1 !! k' = tables s !! k') as Hother.
  { intros k' Hk'. by rewrite Ht, lookup_insert_ne. }
  apply IH in E2 as (-> & Hnone & Hsome); [|done|].
  - split; [cbn; lia|]. split.
    + intros k' Hk'. apply Hnone. rewrite Hother; [done|]. intros ->. congruence.
    + intros k' r Hr. destruct (decide (k' = k)) as [->|Hne].
      * rewrite Hr in Hr0. injection Hr0 as <-.
        destruct (Hsome k {| CertValue := sealed; CertModifiedAt := CertModifiedAt r |}) as (r' & Hr' & Hm & Hno & _).
        { by rewrite Ht, lookup_insert_eq. }
        rewrite (Hno Hk) in *. eexists. split; [exact Hr'|]. split_and!; [done| |].
        -- intros Hn. exfalso. apply Hn. left.
        -- intros _. exists ev. specialize (Hl k v ltac:(left)). rewrite Hr in Hl. injection Hl as ->. exact Hs.
      * rewrite <- Hother in Hr by done. destruct (Hsome k' r Hr) as (r' & Hr' & Hm & Hno & Hyes).
        exists r'. split; [done|]. split_and!; [done| |]; cbn; rewrite elem_of_cons.
        -- intros Hn. apply Hno. tauto.
        -- intros [->|Hin]; [done|by apply Hyes].
  - intros k' v' Hin. rewrite Hother; [apply Hl; by right|]. intros ->.
    apply Hk. apply list_elem_of_fmap. by exists (k, v').
Qed.

Lemma legacy_rows_spec m k v :
  (k, v) ∈ legacy_rows m ↔ isSecretKey k = true ∧ isSealed v = false ∧ CertValue <$> m !! k = Some v.
Proof.
  unfold legacy_rows. rewrite list_elem_of_filter, list_elem_of_fmap. cbn. split.
  - intros [Hs ([k' r] & [= -> ->] & Hin)]. apply elem_of_map_to_list, map_lookup_filter_Some in Hin as [Hr Hk].
    by rewrite Hr.
  - intros (Hk & Hs & (r & Hr & ->)%fmap_Some). split; [done|]. exists (k, r). split; [done|].
    apply elem_of_map_to_list. by apply map_lookup_filter_Some.
Qed.
Lemma legacy_rows_NoDup m : NoDup (legacy_rows m).*1.
Proof.
  unfold legacy_rows. set (l := map_to_list _).
  assert (NoDup ((λ kv, (kv.1, CertValue kv.2)) <$> l).*1) as Hnd.
  { rewrite <- list_fmap_compose. apply NoDup_fst_map_to_list. }
  revert Hnd. generalize ((λ kv : string * cert_row, (kv.1, CertValue kv.2)) <$> l). clear. intros l.
  induction l as [|kv l IH]; [done|]. rewrite filter_cons. cbn. intros [Hk Hnd]%NoDup_cons.
  case_decide; [|by apply IH]. cbn. apply NoDup_cons. split; [|by apply IH].
  intros (x & Ex & Hx)%list_elem_of_fmap. apply Hk, list_elem_of_fmap. exists x. split; [done|].
  by apply list_elem_of_filter in Hx as [].
Qed.
End backfill.

(** *** Operations in sequence *)

Inductive cert_op :=
| OpStore (key value : string)
| OpLoad (key : string)
| OpDelete (key : string)
| OpExists (key : string)
| OpList (path : string) (recursive : bool)
| OpStat (key : string).

Section runs.
Context {S : Type} (st : Storage S).
Definition run_cert_op (o : cert_op) (s : S) : S :=
  match o with
  | OpStore k v => (st_Store k v s).2
  | OpLoad k => (st_Load k s).2
  | OpDelete k => (st_Delete k s).2
  | OpExists k => (st_Exists k s).2
  | OpList p b => (st_List p b s).2
  | OpStat k => (st_Stat k s).2
  end.
Definition run_cert_ops (l : list cert_op) (s : S) : S := foldl (λ s o, run_cert_op o s) s l.
End runs.

Definition files_sealed (f : files) : Prop :=
  ∀ k v, f !! k = Some (Some v) → isSecretKey k = true → isSealed v = true.
Lemma table_files_sealed (s : session certs) : files_sealed (table_files s) ↔ keys_sealed (tables s).
Proof.
  unfold files_sealed, keys_sealed, table_files. split.
  - intros Hf k r Hr. apply Hf. by rewrite lookup_fmap, Hr.
  - intros Hk k v. rewrite lookup_fmap. intros (r & Hr & [= ->])%fmap_Some. by apply Hk.
Qed.

Lemma run_cert_op_sealed `{!Machine} {S} (inner : Storage S) view ready masterKey o (s : S * nat) :
  storage_ok inner view ready → files_sealed (view s.1) →
  files_sealed (view (run_cert_op (EncryptedStorage inner masterKey) o s).1).
Proof.
  intros Hin Hs. destruct o as [k v|k|k|k|p b|k]; cbn.
  - unfold enc_Store. destruct (isSecretKey k) eqn:Hk; cbn [negb].
    + unfold bind, sealing. destruct (sealSecret s.2 masterKey v) as [w|] eqn:Hw; [|done].
      unfold inside. cbn [fst snd]. destruct (st_Store k w s.1) as [r s1] eqn:E. apply (ok_store _ _ _ Hin) in E. cbn.
      destruct r; rewrite E; [|done]. intros k' v' [[-> [= ->]]|[_ Hv']]%lookup_insert_Some; [|by eapply Hs].
      intros _. by eapply sealed_is_sealed.
    + unfold inside. destruct (st_Store k v s.1) as [r s1] eqn:E. apply (ok_store _ _ _ Hin) in E. cbn.
      destruct r; rewrite E; [|done]. intros k' v' [[-> [= ->]]|[_ Hv']]%lookup_insert_Some; [congruence|by eapply Hs].
  - unfold enc_Load, bind, inside. destruct (st_Load k s.1) as [r s1] eqn:E.
    apply (ok_load _ _ _ Hin) in E as [E _]. destruct r as [v|]; [destruct (openSecret _ _ _)|]; cbn; by rewrite E.
  - unfold inside. destruct (st_Delete k s.1) as [r s1] eqn:E. apply (ok_delete _ _ _ Hin) in E. cbn.
    destruct r as [[]|[]]; [destruct E as [-> _]|destruct E as [-> _]|by rewrite E..]; [|done].
    intros k' v' [Hv' _]%map_lookup_filter_Some. by eapply Hs.
  - destruct (st_Exists k s.1) as [r s1] eqn:E. apply (ok_exists _ _ _ Hin) in E as [E _]. cbn. by rewrite E.
  - unfold inside. destruct (st_List p b s.1) as [r s1] eqn:E. apply (ok_list _ _ _ Hin) in E as [E _]. cbn. by rewrite E.
  - unfold inside. destruct (st_Stat k s.1) as [r s1] eqn:E. apply (ok_stat _ _ _ Hin) in E as [E _]. cbn. by rewrite E.
Qed.

(** C4: the encrypted certificate storage is a storage, and keeps private keys sealed.
    Over the table, and whatever of the database fails, its operations are those of
    one tree of files, in which a private key is what it opens to: a successful Store is
    what a Load then reads, a Load says a file does not exist only when it does
    not, one that cannot be opened included, Delete takes a whole directory or says there was nothing,
    List gives each entry under a path once.  And no sequence of operations leaves a
    private key in the table unsealed. *)
Theorem encrypted_storage_refines `{!Driver, !Machine} (masterKey : string) :
  machine_laws →
  storage_ok (EncryptedStorage PostgresStorage masterKey) (λ s, opened masterKey (table_files s.1)) (λ s, answers_now s.1) ∧
  ∀ l s, keys_sealed (tables s.1) →
    keys_sealed (tables (run_cert_ops (EncryptedStorage PostgresStorage masterKey) l s).1).
Proof.
  intros Hlaws. split; [by apply encrypted_ok, postgres_storage_ok|].
  intros l. induction l as [|o l IH]; intros s Hs; [done|]. cbn [run_cert_ops foldl]. apply IH.
  apply table_files_sealed. eapply (run_cert_op_sealed PostgresStorage table_files); [apply postgres_storage_ok|].
  by apply table_files_sealed.
Qed.

(** ** The backfill *)

Lemma resealed_view `{!Machine} masterKey m m' :
  machine_laws → (∀ k, m !! k = None → m' !! k = None) →
  (∀ k r, m !! k = Some r → ∃ r', m' !! k = Some r' ∧ resealed masterKey (legacy_rows m) k r r') →
  keys_sealed m' ∧ (∀ k, (λ r, openSecret masterKey k (CertValue r)) <$> m' !! k = (λ r, openSecret masterKey k (CertValue r)) <$> m !! k) ∧
  (∀ k, CertModifiedAt <$> m' !! k = CertModifiedAt <$> m !! k) ∧
  (∀ k, k ∉ (legacy_rows m).*1 → m' !! k = m !! k).
Proof.
  intros Hlaws Hnone Hsome.
  assert (∀ k r, m !! k = Some r → k ∈ (legacy_rows m).*1 ↔ isSecretKey k = true ∧ isSealed (CertValue r) = false) as Hleg.
  { intros k r Hr. split.
    - intros ([k0 v] & -> & Hin)%list_elem_of_fmap. apply legacy_rows_spec in Hin as (Hk & Hs & Hv).
      cbn in *. rewrite Hr in Hv. by injection Hv as ->.
    - intros [Hk Hs]. apply list_elem_of_fmap. exists (k, CertValue r). split; [done|].
      apply legacy_rows_spec. by rewrite Hr. }
  split_and!.
  - intros k r' Hr' Hk. destruct (m !! k) as [r|] eqn:Hr; [|rewrite (Hnone k Hr) in Hr'; done].
    destruct (Hsome k r Hr) as (r1 & Hr1 & _ & Hno & Hyes). rewrite Hr' in Hr1. injection Hr1 as <-.
    destruct (isSealed (CertValue r)) eqn:Hs.
    + rewrite Hno; [done|]. intros Hin. apply (Hleg k r Hr) in Hin as [_ Hin]. congruence.
    + destruct Hyes as [ev Hev]; [by apply (Hleg k r Hr)|]. by eapply sealed_is_sealed.
  - intros k. destruct (m !! k) as [r|] eqn:Hr; [|by rewrite (Hnone k Hr)].
    destruct (Hsome k r Hr) as (r' & -> & _ & Hno & Hyes). cbn. f_equal.
    destruct (decide (k ∈ (legacy_rows m).*1)) as [Hin|Hin]; [|by rewrite (Hno Hin)].
    destruct (Hyes Hin) as [ev Hev]. apply (Hleg k r Hr) in Hin as [Hk Hs].
    rewrite (open_sealed masterKey Hlaws ev _ _ _ Hev Hk). unfold openSecret. by rewrite Hs, orb_true_r.
  - intros k. destruct (m !! k) as [r|] eqn:Hr; [|by rewrite (Hnone k Hr)].
    destruct (Hsome k r Hr) as (r' & -> & Hm & _). cbn. by rewrite Hm.
  - intros k Hk. destruct (m !! k) as [r|] eqn:Hr; [|by apply Hnone].
    destruct (Hsome k r Hr) as (r' & -> & _ & Hno & _). by rewrite Hno.
Qed.

Section backfill_theorem.
Context `{!Driver, !Machine, !BackfillLock}.

Lemma backfill_body_inv masterKey ev s r s' :
  backfill_body masterKey ev s = (r, s') →
  match r with
  | Ok (Some n) =>
      n = Z.of_nat (length (legacy_rows (tables s))) ∧
      (∀ k, tables s !! k = None → tables s' !! k = None) ∧
      (∀ k x, tables s !! k = Some x → ∃ x', tables s' !! k = Some x' ∧ resealed masterKey (legacy_rows (tables s)) k x x')
  | _ => True
  end.
Proof.
  unfold backfill_body. intros [(e & -> & _)|(s1 & Ht & E)]%sql_query_bind; [done|].
  destruct (negb _); [by injection E as <- _|].
  apply sql_query_bind in E as [(e & -> & _)|(s2 & Ht2 & E)]; [done|].
  destruct r as [[n|]|]; [|done..]. apply bind_Ok_inv in E as (n' & s3 & E & [= -> <-]).
  rewrite Ht in *. rewrite <- Ht2. rewrite <- Ht2 in E. apply seal_rows_inv in E; [exact E|apply legacy_rows_NoDup|].
  intros k v Hin. by apply legacy_rows_spec in Hin as (_ & _ & Hv).
Qed.

(** C22: sealing the keys of before.  A backfill that fails, or finds another replica at
    it, changes nothing.  Otherwise every private key in the table is sealed, the
    number returned is how many were not; whatever is loaded through the storage
    reads as before, modification times too; and certificates and keys already
    sealed keep their bytes, so that a second run writes nothing. *)
Theorem EncryptLegacyKeys_spec (masterKey : string) (ev : nat) (s s' : session certs) (r : res cert_err Z) :
  machine_laws → EncryptLegacyKeys masterKey ev s = (r, s') →
  match r with
  | Err _ => tables s' = tables s
  | Ok n =>
      (n = 0 ∧ tables s' = tables s ∨ keys_sealed (tables s') ∧ n = Z.of_nat (length (legacy_rows (tables s)))) ∧
      opened masterKey (table_files s') = opened masterKey (table_files s) ∧
      (∀ k, CertModifiedAt <$> tables s' !! k = CertModifiedAt <$> tables s !! k) ∧
      (∀ k, k ∉ (legacy_rows (tables s)).*1 → tables s' !! k = tables s !! k) ∧
      (keys_sealed (tables s) → n = 0 ∧ tables s' = tables s)
  end.
Proof.
  intros Hlaws. unfold EncryptLegacyKeys. destruct (event_fails (tick s)); [by intros [= <- <-]|].
  destruct (backfill_body masterKey ev (pool_conn s)) as [rb tx] eqn:Eb. apply backfill_body_inv in Eb.
  destruct rb as [[n|]|e].
  - unfold tx_commit. destruct (aborted tx); [by intros [= <- <-]|].
    destruct (event_fails (tick tx)); [by intros [= <- <-]|]. intros [= <- <-]. cbn [tables set_tables].
    destruct Eb as (-> & Hnone & Hsome). cbn [tables pool_conn] in *.
    destruct (resealed_view masterKey (tables s) (tables tx) Hlaws Hnone Hsome) as (H1' & H2' & H3' & H4').
    split_and!; [by right| |done|done|].
    + apply map_eq. intros k. rewrite !opened_lookup. unfold table_files. rewrite !lookup_fmap. cbn.
      specialize (H2' k). destruct (tables tx !! k), (tables s !! k); cbn in *; congruence.
    + intros Hall. assert (legacy_rows (tables s) = []) as El.
      { destruct (legacy_rows (tables s)) as [|[k v] l] eqn:El; [done|]. exfalso.
        assert ((k, v) ∈ legacy_rows (tables s)) as Hin by (rewrite El; left).
        apply legacy_rows_spec in Hin as (Hk & Hs & (x & Hx & ->)%fmap_Some).
        rewrite (Hall k x Hx Hk) in Hs. discriminate. }
      rewrite El in *. split; [done|]. apply map_eq. intros k. apply H4'. apply not_elem_of_nil.
  - intros [= <- <-]. split_and!; try done. by left.
  - by intros [= <- <-].
Qed.
End backfill_theorem.

(** ** Examples and witnesses *)

Section witnesses.
#[local] Existing Instance demo_machine.
#[local] Existing Instance reliable.
#[local] Instance demo_lock : BackfillLock := {| lock_free _ := true |}.

Definition store_of (l : list (string * string)) : session certs :=
  Session (list_to_map ((λ kv, (kv.1, {| CertValue := kv.2; CertModifiedAt := 5 |})) <$> l)) "" false None false 0.
Definition site : session certs :=
  store_of [("certs/a/a.crt", "CERT"); ("certs/a/a.key", "-----BEGIN"); ("certs/b/b.crt", "CERT")].

Example tree :
  (@pg_List reliable "certs" false site).1 = Ok ["certs/a"; "certs/b"] ∧
  (@pg_Delete reliable "certs/a" site).1 = Ok tt ∧
  dom (tables (@pg_Delete reliable "certs/a" site).2) = {["certs/b/b.crt"]}.
Proof. split_and!; vm_compute; reflexivity. Qed.

Definition sealed_store : Storage (session certs * nat) := EncryptedStorage PostgresStorage "master".
Definition renewal : list cert_op :=
  [OpStore "acme/b.key" "-----BEGIN b"; OpStore "acme/b.crt" "CERT"; OpDelete "acme/c"; OpLoad "acme/b.key"].

Lemma encrypted_storage_refines_witness :
  (@st_Load _ sealed_store "acme/b.key" (run_cert_ops sealed_store renewal (store_of [], 0%nat))).1 = Ok "-----BEGIN b" ∧
  keys_sealed (tables (run_cert_ops sealed_store renewal (store_of [], 0%nat)).1).
Proof.
  split; [vm_compute; reflexivity|].
  apply (proj2 (encrypted_storage_refines "master" demo_machine_laws)). intros k r Hr.
  cbn in Hr. by rewrite lookup_empty in Hr.
Defined.

Lemma EncryptLegacyKeys_spec_witness :
  let s' := (EncryptLegacyKeys "master" 0 site).2 in
  (EncryptLegacyKeys "master" 0 site).1 = Ok 1 ∧ keys_sealed (tables s') ∧
  opened "master" (table_files s') = opened "master" (table_files site).
Proof.
  destruct (EncryptLegacyKeys "master" 0 site) as [r s'] eqn:E. cbn zeta. cbn [fst snd].
  assert (r = Ok 1) as ->.
  { replace r with (EncryptLegacyKeys "master" 0 site).1 by (by rewrite E). vm_compute. reflexivity. }
  destruct (EncryptLegacyKeys_spec "master" 0 site s' (Ok 1) demo_machine_laws E) as ([[Hn _]|[Hs _]] & Ho & _);
    [discriminate Hn|]. split; [reflexivity|]. split; [exact Hs|exact Ho].
Defined.

(** a failing query makes a directory not exist.  Exists has no error to return, and
    Stat takes its false for an answer: when the second of its queries is the
    interaction that fails, a directory that is there is reported as fs.ErrNotExist. *)
Theorem stat_outage_is_not_exist :
  (@pg_Stat reliable "certs" site).1 =
    Ok {| KiKey := "certs"; KiModified := None; KiSize := 0; IsTerminal := false |} ∧
  (@pg_Stat (failing_at [1%nat]) "certs" site).1 = Err ErrNotExist.
Proof. split; vm_compute; reflexivity. Qed.
End witnesses.
