(* ===== verification/CertLocks.v ===== *)
(** * The certificate storage's locks (internal/tls/postgres_storage.go Lock and
    Unlock, internal/pglock Acquire and Release)

    Every Lock opens a connection of its own, waits on it for the advisory lock of
    the name's hash and files the handle under the name; Unlock takes the handle
    filed under the name, unlocks and closes.  Goroutines of several replicas
    interleave with the lock server of Leadership.v, which may end a session at any
    time.  A wait that the server grants is its answer Yes to the request for the
    lock, at the moment of the grant; a cancelled one is Failed. *)

From stdpp Require Import numbers gmap list relations strings.
From Stdlib Require Import ZArith Lia.
From S2P Require Import Prelude Leadership Leaders.

(** Where a goroutine is: in Lock (Acquire, then the map), between Lock and Unlock,
    in Unlock (the map, then Release).  [GHeld] remembers the connection its Lock
    got, which the code does not. *)
Inductive gpc :=
| GConnect (name : string)
| GWait (c : nat) (name : string)       (* SELECT pg_advisory_lock *)
| GAbandon (c : nat)                    (* closing after an error *)
| GTrack (c : nat) (name : string)      (* acquired, not yet in the map *)
| GHeld (c : nat) (name : string)
| GRelease (c : nat) (name : string)    (* taken out of the map *)
| GClosing (c : nat)
| GEnd (ok : bool).

(** PostgresStorage.locks and the goroutines of a replica. *)
Record process := Process {
  locks : gmap string nat;
  gors : gmap nat gpc;
}.
Definition NewPostgresStorage : process := Process ∅ ∅.
Definition set_gor (g : nat) (pc : gpc) (p : process) : process := Process (locks p) (<[g := pc]> (gors p)).
Definition set_locks (m : gmap string nat) (p : process) : process := Process m (gors p).

Section locks.
Context `{LS : LockServer} (hash : string → Z).

(** A replica with the server; [next] names connections. *)
Definition lview : Type := server * nat * process.

Inductive storage_step : lview → lview → Prop :=
(* Acquire *)
| lock_called sv n p g name :
    gors p !! g = None → storage_step (sv, n, p) (sv, n, set_gor g (GConnect name) p)
| lock_no_connection sv n p g name sv' :
    gors p !! g = Some (GConnect name) → served sv (Connect n) Failed sv' →
    storage_step (sv, n, p) (sv', S n, set_gor g (GEnd false) p)
| lock_connected sv n p g name sv' :
    gors p !! g = Some (GConnect name) → served sv (Connect n) Yes sv' →
    storage_step (sv, n, p) (sv', S n, set_gor g (GWait n name) p)
| lock_granted sv n p g c name sv' :
    gors p !! g = Some (GWait c name) → served sv (TryLock c (hash name)) Yes sv' →
    storage_step (sv, n, p) (sv', n, set_gor g (GTrack c name) p)
| lock_failed sv n p g c name sv' :
    gors p !! g = Some (GWait c name) → served sv (TryLock c (hash name)) Failed sv' →
    storage_step (sv, n, p) (sv', n, set_gor g (GAbandon c) p)
| lock_abandoned sv n p g c a sv' :
    gors p !! g = Some (GAbandon c) → served sv (Close c) a sv' →
    storage_step (sv, n, p) (sv', n, set_gor g (GEnd false) p)
(* Lock *)
| lock_tracked sv n p g c name :
    gors p !! g = Some (GTrack c name) →
    storage_step (sv, n, p) (sv, n, set_gor g (GHeld c name) (set_locks (<[name := c]> (locks p)) p))
(* Unlock *)
| unlock_taken sv n p g c0 c name :
    gors p !! g = Some (GHeld c0 name) → locks p !! name = Some c →
    storage_step (sv, n, p) (sv, n, set_gor g (GRelease c name) (set_locks (delete name (locks p)) p))
| unlock_untracked sv n p g c0 name :
    gors p !! g = Some (GHeld c0 name) → locks p !! name = None →
    storage_step (sv, n, p) (sv, n, set_gor g (GEnd false) p)
(* Release *)
| release_closed sv n p g c name :
    gors p !! g = Some (GRelease c name) →
    storage_step (sv, n, p) (sv, n, set_gor g (GEnd true) p)
| release_unlocked sv n p g c name a sv' :
    gors p !! g = Some (GRelease c name) → served sv (Unlock c (hash name)) a sv' →
    storage_step (sv, n, p) (sv', n, set_gor g (GClosing c) p)
| release_done sv n p g c a ok sv' :
    gors p !! g = Some (GClosing c) → served sv (Close c) a sv' →
    storage_step (sv, n, p) (sv', n, set_gor g (GEnd ok) p).

(** All replicas around one server. *)
Definition cluster : Type := server * nat * gmap nat process.
Inductive cluster_step : cluster → cluster → Prop :=
| cluster_own i p p' sv n sv' n' ps :
    ps !! i = Some p → storage_step (sv, n, p) (sv', n', p') → cluster_step (sv, n, ps) (sv', n', <[i := p']> ps)
| cluster_boot i sv n ps :
    ps !! i = None → cluster_step (sv, n, ps) (sv, n, <[i := NewPostgresStorage]> ps)
| cluster_crash i sv n ps :
    cluster_step (sv, n, ps) (sv, n, delete i ps)
| cluster_event sv sv' n ps :
    event sv sv' → cluster_step (sv, n, ps) (sv', n, ps).

(** ** Invariant *)

Inductive place := PMap (name : string) | PGor (g : nat).
#[local] Instance place_eq_dec : EqDecision place.
Proof. solve_decision. Defined.

(** The connection a goroutine is in charge of, and the one its Lock got. *)
Definition charge (pc : gpc) : option nat :=
  match pc with
  | GWait c _ | GAbandon c | GTrack c _ | GRelease c _ | GClosing c => Some c
  | GConnect _ | GHeld _ _ | GEnd _ => None
  end.
Definition got (pc : gpc) : option nat :=
  match pc with GWait c _ | GAbandon c | GTrack c _ | GHeld c _ => Some c | _ => None end.
Definition in_charge (p : process) (pl : place) (c : nat) : Prop :=
  match pl with
  | PMap name => locks p !! name = Some c
  | PGor g => ∃ pc, gors p !! g = Some pc ∧ charge pc = Some c
  end.
Definition got_it (p : process) (pl : place) (c : nat) : Prop :=
  match pl with PMap _ => False | PGor g => ∃ pc, gors p !! g = Some pc ∧ got pc = Some c end.
(** Who relies on the lock of a name being a connection's. *)
Definition claims (p : process) (pl : place) (name : string) (c : nat) : Prop :=
  match pl with
  | PMap name' => name' = name ∧ locks p !! name = Some c
  | PGor g => gors p !! g = Some (GTrack c name) ∨ gors p !! g = Some (GRelease c name)
  end.

Definition one_place (use : process → place → nat → Prop) (n : nat) (ps : gmap nat process) : Prop :=
  (∀ i p pl c, ps !! i = Some p → use p pl c → c < n) ∧
  ∀ i j p q pl pl' c, ps !! i = Some p → ps !! j = Some q → use p pl c → use q pl' c → i = j ∧ pl = pl'.

Record locks_inv (x : cluster) : Prop := {
  li_alive c : alive x.1.1 c → c < x.1.2;
  li_charge : one_place in_charge x.1.2 x.2;
  li_got : one_place got_it x.1.2 x.2;
  li_claims i p pl name c : x.2 !! i = Some p → claims p pl name c → alive x.1.1 c → holder x.1.1 (hash name) = Some c;
}.

(** Connections move between places one to one, or are new. *)
Lemma one_place_step use n n' ps i p p' (σ : place → place) pl0 :
  ps !! i = Some p → n <= n' → (∀ a b, σ a = σ b → a = b) →
  (∀ pl c, use p' pl c → use p (σ pl) c ∨ c = n ∧ n' = S n ∧ pl = pl0) →
  one_place use n ps → one_place use n' (<[i := p']> ps).
Proof.
  intros Hi Hn Hσ Huse [Hlt Huniq].
  assert (∀ k q pl c, <[i := p']> ps !! k = Some q → use q pl c →
    (∃ q0 pl1, ps !! k = Some q0 ∧ use q0 pl1 c ∧ pl1 = if decide (k = i) then σ pl else pl) ∨
    c = n ∧ n' = S n ∧ pl = pl0 ∧ k = i) as Hback.
  { intros k q pl c [[<- <-]|[Hne Hk]]%lookup_insert_Some Hc.
    - destruct (Huse pl c Hc) as [H'|(-> & -> & ->)]; [left|by right].
      exists p, (σ pl). by rewrite decide_True.
    - left. exists q, pl. by rewrite decide_False. }
  split.
  - intros k q pl c Hk Hc. destruct (Hback k q pl c Hk Hc) as [(q0 & pl1 & Hk0 & Hc0 & _)|(-> & -> & _)]; [|lia].
    specialize (Hlt k q0 pl1 c Hk0 Hc0). lia.
  - intros k j q q' pl pl' c Hk Hj Hc Hc'.
    destruct (Hback k q pl c Hk Hc) as [(q0 & pl1 & Hk0 & Hc0 & ->)|(Ec & -> & -> & ->)],
      (Hback j q' pl' c Hj Hc') as [(q1 & pl2 & Hj0 & Hc1 & ->)|(Ec' & En & -> & ->)].
    + destruct (Huniq k j q0 q1 _ _ c Hk0 Hj0 Hc0 Hc1) as [-> Hpl]. split; [done|].
      destruct (decide (j = i)); [by apply Hσ|done].
    + subst c. specialize (Hlt _ _ _ _ Hk0 Hc0). lia.
    + subst c. specialize (Hlt _ _ _ _ Hj0 Hc1). lia.
    + done.
Qed.
Lemma one_place_mono use n ps ps' :
  (∀ k q pl c, ps' !! k = Some q → use q pl c → ps !! k = Some q) → one_place use n ps → one_place use n ps'.
Proof.
  intros Hsub [Hlt Huniq]. split.
  - intros k q pl c Hk Hc. by eapply Hlt, Hc; eapply Hsub.
  - intros k j q q' pl pl' c Hk Hj Hc Hc'.
    apply (Huniq k j q q' pl pl' c); [by eapply Hsub|by eapply Hsub|done..].
Qed.
Definition swap (a b pl : place) : place := if decide (pl = a) then b else if decide (pl = b) then a else pl.
Lemma swap_inj a b x y : swap a b x = swap a b y → x = y.
Proof. unfold swap. repeat case_decide; congruence. Qed.

Lemma in_charge_gor g pc p pl c :
  in_charge (set_gor g pc p) pl c → (pl = PGor g ∧ charge pc = Some c) ∨ (pl ≠ PGor g ∧ in_charge p pl c).
Proof.
  destruct pl as [name|g']; cbn; [by right|].
  intros (pc' & [[<- <-]|[Hne Hg]]%lookup_insert_Some & Hc); [by left|right].
  split; [congruence|by exists pc'].
Qed.
Lemma in_charge_at g pc p c : gors p !! g = Some pc → charge pc = Some c → in_charge p (PGor g) c.
Proof. intros. by exists pc. Qed.

(** How the connections in charge move in a step. *)
Lemma charge_moves sv n p sv' n' p' :
  storage_step (sv, n, p) (sv', n', p') →
  ∃ (σ : place → place) pl0, (∀ a b, σ a = σ b → a = b) ∧ n <= n' ∧
    ∀ pl c, in_charge p' pl c → in_charge p (σ pl) c ∨ c = n ∧ n' = S n ∧ pl = pl0.
Proof.
  intros H. inversion H; subst; clear H;
    try (exists id, (PGor g); split; [done|split; [lia|]];
         intros pl c' [[-> Hc]|[_ Hc]]%in_charge_gor; [|by left]; cbn in Hc; try discriminate Hc;
         first [injection Hc as <-; left; by eapply in_charge_at|injection Hc as <-; by right]).
  - exists (swap (PMap name) (PGor g)), (PGor g). split; [apply swap_inj|]. split; [lia|].
    intros pl c' [[-> [=]]|[Hpl Hc]]%in_charge_gor. left. unfold swap.
    destruct pl as [name'|g']; cbn in Hc.
    + apply lookup_insert_Some in Hc as [[<- <-]|[Hne Hc]].
      * rewrite decide_True by done. by eapply in_charge_at.
      * rewrite decide_False by congruence. by rewrite decide_False.
    + rewrite decide_False by done. by rewrite decide_False.
  - exists (swap (PMap name) (PGor g)), (PGor g). split; [apply swap_inj|]. split; [lia|].
    intros pl c' [[-> [= <-]]|[Hpl Hc]]%in_charge_gor; left; unfold swap.
    + rewrite decide_False by done. by rewrite decide_True.
    + destruct pl as [name'|g']; cbn in Hc.
      * apply lookup_delete_Some in Hc as [Hne Hc]. rewrite decide_False by congruence. by rewrite decide_False.
      * rewrite decide_False by done. by rewrite decide_False.
Qed.
Lemma got_moves sv n p sv' n' p' :
  storage_step (sv, n, p) (sv', n', p') →
  ∃ pl0, n <= n' ∧ ∀ pl c, got_it p' pl c → got_it p pl c ∨ c = n ∧ n' = S n ∧ pl = pl0.
Proof.
  intros H. inversion H; subst; clear H; exists (PGor g); (split; [lia|]); intros [name'|g'] c'; cbn; try done;
    intros (pc & [[<- <-]|[Hne Hg]]%lookup_insert_Some & Hc); cbn in Hc; try discriminate Hc;
    try (left; by exists pc); injection Hc as <-; first [by right|left; eexists; split; [eassumption|done]].
Qed.

Lemma claims_charge p pl name c : claims p pl name c → in_charge p pl c.
Proof. destruct pl as [name'|g]; cbn; [by intros [-> H]|]. intros [H|H]; by eexists. Qed.

(** A claim after a step is one from before, or a lock just granted. *)
Lemma claims_back sv n p sv' n' p' pl name c :
  storage_step (sv, n, p) (sv', n', p') → claims p' pl name c →
  (∃ pl0, claims p pl0 name c) ∨ served sv (TryLock c (hash name)) Yes sv'.
Proof.
  intros H Hc. inversion H; subst; clear H; destruct pl as [name1|g1]; cbn in Hc.
  all: try (destruct Hc as [-> Hc]; first
    [ left; exists (PMap name); done
    | apply lookup_insert_Some in Hc as [[<- <-]|[_ Hc]]; left; [exists (PGor g); by left|by exists (PMap name)]
    | apply lookup_delete_Some in Hc as [_ Hc]; left; by exists (PMap name) ]).
  all: destruct Hc as [[[<- Hc]|[_ Hc]]%lookup_insert_Some|[[<- Hc]|[_ Hc]]%lookup_insert_Some];
    try discriminate Hc; try (left; exists (PGor g1); cbn; tauto).
  - injection Hc as <- <-. by right.
  - injection Hc as <- <-. left. by exists (PMap name0).
Qed.

(** What a step asks of the server. *)
Lemma step_server sv n p sv' n' p' :
  storage_step (sv, n, p) (sv', n', p') →
  sv' = sv ∨ ∃ q a, served sv q a sv' ∧ (∀ c, q = Connect c → c = n ∧ n' = S n) ∧
    ∀ c key, q = Unlock c key → ∃ g, gors p' !! g = Some (GClosing c).
Proof.
  intros H. inversion H; subst; clear H; try (by left); right; eexists _, _; (split; [eassumption|]); split; try done.
  - by intros c [= <-].
  - by intros c [= <-].
  - intros c' key [= <- _]. exists g. cbn. by rewrite lookup_insert_eq.
Qed.

Lemma cluster_step_inv `{!LockServerLaws LS} x y : cluster_step x y → locks_inv x → locks_inv y.
Proof.
  intros H [Ha Hc Hg Hh]. destruct H as [i p p' sv n sv' n' ps Hi Hs|i sv n ps Hi|i sv n ps|sv sv' n ps He]; cbn in *.
  - destruct (charge_moves _ _ _ _ _ _ Hs) as (σ & pl0 & Hσ & Hn & Hmv).
    destruct (got_moves _ _ _ _ _ _ Hs) as (pl1 & _ & Hmv').
    assert (one_place in_charge n' (<[i := p']> ps)) as Hc' by by eapply one_place_step.
    assert (∀ c, alive sv' c → c < n' ∧ (alive sv c ∨ c = n ∧ n' = S n)) as Ha'.
    { intros c Hal. destruct (step_server _ _ _ _ _ _ Hs) as [->|(q & a & Hq & Hconn & _)].
      - split; [specialize (Ha c Hal); lia|by left].
      - destruct (request_alive _ _ _ _ _ Hq Hal) as [Hal'| ->].
        + split; [specialize (Ha c Hal'); lia|by left].
        + destruct (Hconn c eq_refl) as [-> ->]. split; [lia|by right]. }
    split; cbn.
    + intros c Hal. by apply Ha'.
    + done.
    + by eapply (one_place_step got_it n n' ps i p p' id).
    + intros k q pl name c Hk Hcl Hal.
      assert (∃ q0 pl', ps !! k = Some q0 ∧ claims q0 pl' name c ∨ served sv (TryLock c (hash name)) Yes sv') as Hold.
      { apply lookup_insert_Some in Hk as [[<- <-]|[_ Hk]].
        - destruct (claims_back _ _ _ _ _ _ _ _ _ Hs Hcl) as [[pl' Hpl']|Hgr]; [exists p, pl'; by left|exists p, pl; by right].
        - exists q, pl. by left. }
      destruct Hold as (q0 & pl' & [[Hk0 Hcl0]|Hgr]); [|by eapply granted_holds].
      pose proof (proj1 Hc k q0 pl' c Hk0 (claims_charge _ _ _ _ Hcl0)) as Hlt.
      assert (alive sv c) as Hal0 by (destruct (Ha' c Hal) as [_ [?|[-> _]]]; [done|lia]).
      specialize (Hh k q0 pl' name c Hk0 Hcl0 Hal0).
      destruct (step_server _ _ _ _ _ _ Hs) as [->|(q1 & a & Hq & _ & Hun)]; [done|].
      eapply request_keeps; [exact Hq|done|done|]. intros E. destruct (Hun c _ E) as [g Hcl1].
      destruct (proj2 Hc' k i q p' pl (PGor g) c) as [-> ->]; [done|by rewrite lookup_insert_eq|by eapply claims_charge|by eexists|].
      rewrite lookup_insert_eq in Hk. injection Hk as <-. cbn in Hcl. destruct Hcl; congruence.
  - split; cbn; [done| | |].
    + eapply one_place_mono; [|exact Hc]. intros k q pl c [[<- <-]|[_ Hk]]%lookup_insert_Some Hu; [|done].
      exfalso. destruct pl; cbn in Hu; [|destruct Hu as (pc & Hu & _)]; by rewrite lookup_empty in Hu.
    + eapply one_place_mono; [|exact Hg]. intros k q pl c [[<- <-]|[_ Hk]]%lookup_insert_Some Hu; [|done].
      exfalso. destruct pl; cbn in Hu; [done|destruct Hu as (pc & Hu & _)]. by rewrite lookup_empty in Hu.
    + intros k q pl name c [[<- <-]|[_ Hk]]%lookup_insert_Some Hu; [|by eapply Hh].
      exfalso. destruct pl; cbn in Hu; [destruct Hu as [_ Hu]|destruct Hu as [Hu|Hu]]; by rewrite lookup_empty in Hu.
  - split; cbn; [done| | |].
    + eapply one_place_mono; [|exact Hc]. by intros k q pl c [_ Hk]%lookup_delete_Some _.
    + eapply one_place_mono; [|exact Hg]. by intros k q pl c [_ Hk]%lookup_delete_Some _.
    + intros k q pl name c [_ Hk]%lookup_delete_Some. by eapply Hh.
  - split; cbn; [|done|done|].
    + intros c Hal. by eapply Ha, event_alive.
    + intros k q pl name c Hk Hcl Hal. eapply event_keeps; [done| |done].
      eapply Hh; [done..|]. by eapply event_alive.
Qed.

Lemma cluster_inv `{!LockServerLaws LS} x y : rtc cluster_step x y → locks_inv x → locks_inv y.
Proof. induction 1 as [|x z y Hs _ IH]; [done|]. intros Hx. by apply IH, (cluster_step_inv x). Qed.
Lemma boot_inv sv n : (∀ c, alive sv c → c < n) → locks_inv (sv, n, ∅).
Proof.
  intros Ha. split; cbn; [done| | |]; try split; intros; by match goal with H : ∅ !! _ = Some _ |- _ => rewrite lookup_empty in H end.
Qed.
End locks.

(** C12: a certificate lock has one holder.  Whatever replicas start, crash and do,
    whatever sessions the server ends: of all the handles filed under one name, in all
    replicas, at most one has a live session, that session holds the advisory lock,
    and at most one goroutine that is between its Lock and its Unlock has it. *)
Theorem one_lock_holder `{LS : LockServer} `{!LockServerLaws LS} (hash : string → Z) (sv0 sv : server) (n0 n : nat)
    (ps : gmap nat process) (i j : nat) (p q : process) (name : string) (c1 c2 : nat) :
  (∀ c, alive sv0 c → c < n0) → rtc (cluster_step hash) (sv0, n0, ∅) (sv, n, ps) →
  ps !! i = Some p → ps !! j = Some q → locks p !! name = Some c1 → locks q !! name = Some c2 →
  alive sv c1 → alive sv c2 →
  holder sv (hash name) = Some c1 ∧ i = j ∧ c1 = c2 ∧
  ∀ g g', gors p !! g = Some (GHeld c1 name) → gors q !! g' = Some (GHeld c2 name) → g = g'.
Proof.
  intros Ha Hrun Hi Hj H1 H2 Ha1 Ha2.
  destruct (cluster_inv hash _ _ Hrun (boot_inv hash sv0 n0 Ha)) as [_ Hc Hg Hh]. cbn in *.
  pose proof (Hh i p (PMap name) name c1 Hi (conj eq_refl H1) Ha1) as Hh1.
  pose proof (Hh j q (PMap name) name c2 Hj (conj eq_refl H2) Ha2) as Hh2.
  rewrite Hh1 in Hh2. injection Hh2 as <-.
  destruct (proj2 Hc i j p q (PMap name) (PMap name) c1 Hi Hj H1 H2) as [<- _].
  split_and!; [done..|]. intros g g' G1 G2.
  destruct (proj2 Hg i i p q (PGor g) (PGor g') c1 Hi Hj) as [_ [= ->]]; [by eexists..|done].
Qed.

(** ** Examples and witnesses *)

#[local] Existing Instance pgServer.
Definition one_hash (_ : string) : Z := 7.
Definition cluster_of (s : pg) (n : nat) (p : process) : cluster := (s : server, n, {[0%nat := p]}).
Definition start_cluster : cluster := (PG ∅ ∅ : server, 0%nat, ∅).

(** One step of the storage of the only replica. *)
Ltac storage_go rule k :=
  eapply rtc_l;
  [eapply (cluster_own (LS := pgServer) one_hash 0%nat);
   [apply lookup_singleton_eq|eapply rule with (g := k); try reflexivity; try (left; reflexivity)]|];
  rewrite insert_singleton_eq; cbn -[pg_serve pg_end].

Definition locked_once : cluster :=
  cluster_of (PG {[0%nat]} {[7%Z := 0%nat]}) 1 (Process {["cert"%string := 0%nat]} {[0%nat := GHeld 0 "cert"]}).
Lemma locked_once_reached : rtc (cluster_step one_hash) start_cluster locked_once.
Proof.
  eapply rtc_l; [apply (cluster_boot (LS := pgServer) one_hash 0%nat); apply lookup_empty|]. rewrite insert_empty.
  storage_go lock_called 0%nat. instantiate (1 := "cert"%string).
  storage_go lock_connected 0%nat. storage_go lock_granted 0%nat. storage_go lock_tracked 0%nat.
  match goal with |- rtc _ ?s _ => replace s with locked_once; [apply rtc_refl|vm_compute; reflexivity] end.
Qed.

Lemma one_lock_holder_witness :
  holder (PG {[0%nat]} {[7%Z := 0%nat]} : server) (one_hash "cert") = Some 0%nat ∧
  ∀ g g', gors (Process {["cert"%string := 0%nat]} {[0%nat := GHeld 0 "cert"]}) !! g = Some (GHeld 0 "cert") →
          gors (Process {["cert"%string := 0%nat]} {[0%nat := GHeld 0 "cert"]}) !! g' = Some (GHeld 0 "cert") → g = g'.
Proof.
  destruct (one_lock_holder (LS := pgServer) one_hash (PG ∅ ∅) (PG {[0%nat]} {[7%Z := 0%nat]}) 0 1
    {[0%nat := Process {["cert"%string := 0%nat]} {[0%nat := GHeld 0 "cert"]}]} 0 0
    (Process {["cert"%string := 0%nat]} {[0%nat := GHeld 0 "cert"]})
    (Process {["cert"%string := 0%nat]} {[0%nat := GHeld 0 "cert"]}) "cert" 0 0) as (Hh & _ & _ & Hg).
  - intros c Hc. cbn in Hc. by apply not_elem_of_empty in Hc.
  - exact locked_once_reached.
  - reflexivity.
  - reflexivity.
  - reflexivity.
  - reflexivity.
  - cbn. by apply elem_of_singleton.
  - cbn. by apply elem_of_singleton.
  - split; [exact Hh|exact Hg].
Defined.

(** Goroutine 0 locks, goroutine 1 waits for the same name, and the session of the
    first ends. *)
Definition lost_session : cluster :=
  cluster_of (PG {[1%nat]} {[7%Z := 1%nat]}) 2
    (Process {["cert"%string := 1%nat]} {[0%nat := GHeld 0 "cert"; 1%nat := GHeld 1 "cert"]}).
Lemma lost_session_reached : rtc (cluster_step one_hash) start_cluster lost_session.
Proof.
  etrans; [exact locked_once_reached|]. unfold locked_once, cluster_of.
  storage_go lock_called 1%nat. instantiate (1 := "cert"%string).
  storage_go lock_connected 1%nat.
  eapply rtc_l; [apply (cluster_event (LS := pgServer) one_hash _ (pg_end 0 (PG {[1%nat; 0%nat]} {[7%Z := 0%nat]}))); by exists 0%nat|].
  storage_go lock_granted 1%nat. storage_go lock_tracked 1%nat.
  match goal with |- rtc _ ?s _ => replace s with lost_session; [apply rtc_refl|vm_compute; reflexivity] end.
Qed.

(** one goroutine's Unlock may release another's lock.  Handles are filed by name
    alone: after the first holder's session ended and another goroutine of the replica got the lock,
    the first one's Unlock takes the second one's handle.  The second is still between
    its Lock and its Unlock, on a session that lives, and the lock is free. *)
Theorem unlock_releases_anothers_lock :
  ∃ sv n p, rtc (cluster_step one_hash) start_cluster (sv, n, {[0%nat := p]}) ∧
    gors p !! 1%nat = Some (GHeld 1 "cert") ∧ alive sv 1%nat ∧ holder sv (one_hash "cert") = None.
Proof.
  eexists _, _, _. split.
  - etrans; [exact lost_session_reached|]. unfold lost_session, cluster_of.
    storage_go unlock_taken 0%nat. storage_go release_unlocked 0%nat. apply rtc_refl.
  - split; [reflexivity|]. split; [cbn; by apply elem_of_singleton|reflexivity].
Qed.
