(* ===== verification/Configuration.v ===== *)
(** * Configuration from the environment (config/config.go, and Go's net/url)

    First url.Parse, [url_Parse]: the fragment is cut off, then the scheme, the
    query, the authority with its user information and host, and the path, each
    with the characters and escapes it admits; [url_Parse_app] says what appending a
    path does.  Then [Load], which reads the variables of the process, completed by
    a .env file ([godotenv_Load], a library that never overrides a variable that is
    set), and answers the settings or the first error.  [Load_iff] is its contract:
    which environments it accepts and what it reads from them.  The rest says what
    an accepted configuration guarantees: lengths and ranges ([Load_bounds]), and
    links that lead to the configured host ([admin_link_reaches_host]), with the
    bases for which they do not. *)

From stdpp Require Import numbers strings list gmap.
From Stdlib Require Import Ascii.
From S2P Require Import Prelude GoNum GoStrings GoNet Secrets Api AuthApi.

#[local] Open Scope string_scope.

(** strings.Cut at one byte; without it the rest is empty. *)
Fixpoint cut_byte (c : ascii) (s : string) : string * string :=
  match s with
  | EmptyString => ("", "")
  | String a s => if Ascii.eqb a c then ("", s) else let '(x, y) := cut_byte c s in (String a x, y)
  end.

Fixpoint all_bytes (f : ascii → bool) (s : string) : bool :=
  match s with EmptyString => true | String a s => f a && all_bytes f s end.

(** One byte occurring once and last. *)
Definition ends_once (c : ascii) (s : string) : bool :=
  match index_byte c s with Some i => Nat.eqb (S i) (String.length s) | None => false end.

(** ** Characters *)

Definition code (a : ascii) : nat := nat_of_ascii a.
Definition between (lo hi : nat) (a : ascii) : bool := Nat.leb lo (code a) && Nat.leb (code a) hi.
Definition letter (a : ascii) : bool := between 97 122 a || between 65 90 a.
Definition digit (a : ascii) : bool := between 48 57 a.
Definition ctl (a : ascii) : bool := Nat.ltb (code a) 32 || Nat.eqb (code a) 127.
Definition one_of (l : string) (a : ascii) : bool := has_byte a l.

Definition unhex (a : ascii) : option nat :=
  if digit a then Some (code a - 48)%nat
  else if between 97 102 a then Some (code a - 87)%nat
  else if between 65 70 a then Some (code a - 55)%nat
  else None.

Definition lower (a : ascii) : ascii := if between 65 90 a then ascii_of_nat (code a + 32) else a.
Fixpoint ToLower (s : string) : string :=
  match s with EmptyString => "" | String a s => String (lower a) (ToLower s) end.

(** ** Escapes *)

Inductive encoding := encodePath | encodeFragment | encodeUserPassword | encodeHost | encodeZone.

Definition host_mode (m : encoding) : bool :=
  match m with encodeHost | encodeZone => true | _ => false end.

(** The bytes a host or a zone may hold unescaped (shouldEscape): letters,
    digits, sub-delimiters, brackets, angle brackets, the quotation mark and
    marks. *)
Definition host_byte (a : ascii) : bool :=
  letter a || digit a || one_of "!$&'()*+,;=:[]<>-_.~" a || Nat.eqb (code a) 34.

(** An escape that is well formed but not admitted: in a host only the bytes
    beyond ASCII and the percent sign, in a zone also what a host may hold and
    the space. *)
Definition escape_ok (m : encoding) (h l : nat) : bool :=
  let percent := Nat.eqb h 2 && Nat.eqb l 5 in
  let v := (16 * h + l)%nat in
  match m with
  | encodeHost => negb (Nat.ltb h 8) || percent
  | encodeZone => percent || Nat.eqb v 32 || host_byte (ascii_of_nat v)
  | _ => true
  end.

(** url.unescape; [None] for an error. *)
Fixpoint unescape (m : encoding) (s : string) : option string :=
  match s with
  | EmptyString => Some ""
  | String a s =>
      if Ascii.eqb a "%" then
        match s with
        | String b (String c s) =>
            match unhex b, unhex c with
            | Some h, Some l =>
                if escape_ok m h l then String (ascii_of_nat (16 * h + l)) <$> unescape m s else None
            | _, _ => None
            end
        | _ => None
        end
      else if host_mode m && Nat.ltb (code a) 128 && negb (host_byte a) then None
      else String a <$> unescape m s
  end.

(** ** Scheme *)

(** What precedes the colon and what follows it: no scheme when a byte cannot be
    part of one, an error ([None]) when it is empty.  [first] says that nothing
    was read yet. *)
Fixpoint scheme_loop (first : bool) (s : string) : option (option (string * string)) :=
  match s with
  | EmptyString => Some None
  | String a s =>
      if Ascii.eqb a ":" then if first then None else Some (Some ("", s))
      else if letter a || (negb first && (digit a || one_of "+-." a)) then
        match scheme_loop false s with
        | Some (Some (x, y)) => Some (Some (String a x, y))
        | r => r
        end
      else Some None
  end.
Definition getScheme (s : string) : option (string * string) :=
  match scheme_loop true s with
  | None => None
  | Some None => Some ("", s)
  | Some (Some r) => Some r
  end.

(** ** Authority *)

Definition validOptionalPort (port : string) : bool :=
  match port with
  | EmptyString => true
  | String a port => Ascii.eqb a ":" && all_bytes digit port
  end.
Definition validUserinfo (s : string) : bool :=
  all_bytes (λ a, letter a || digit a || one_of "-._:~!$&'()*+,;=%@" a) s.

(** The position of the escaped percent sign that starts a zone. *)
Fixpoint zone_index (s : string) : option nat :=
  match s with
  | EmptyString => None
  | String _ s' => if String.prefix "%25" s then Some O else S <$> zone_index s'
  end.

(** The brackets of an IP literal hold an IPv6 address. *)
Definition ipv6_literal (s : string) : bool :=
  match ParseAddr (bytes_of s) with
  | Some (ip, _) => negb (Nat.eqb (List.length ip) 4)
  | None => false
  end.

Definition parseHost (host : string) : option string :=
  match last_index_byte "[" host with
  | Some (S _) => None
  | Some O =>
      i ← last_index_byte "]" host;
      let colonPort := slice_from (S i) host in
      if negb (validOptionalPort colonPort) then None else
      port ← unescape encodeHost colonPort;
      let hostname := String.substring 1 (i - 1) host in
      name ← match zone_index hostname with
             | Some z =>
                 a ← unescape encodeHost (slice_to z hostname);
                 b ← unescape encodeZone (slice_from z hostname);
                 Some (a ++ b)
             | None => unescape encodeHost hostname
             end;
      if ipv6_literal name then Some ("[" ++ name ++ "]" ++ port) else None
  | None =>
      match index_byte ":" host with
      | Some i => if validOptionalPort (slice_from i host) then unescape encodeHost host else None
      | None => unescape encodeHost host
      end
  end.

(** The user name and the password, if there is one. *)
Definition parseUser (userinfo : string) : option (string * option string) :=
  if negb (validUserinfo userinfo) then None
  else if has_byte ":" userinfo then
    let '(u, p) := cut_byte ":" userinfo in
    u ← unescape encodeUserPassword u;
    p ← unescape encodeUserPassword p;
    Some (u, Some p)
  else u ← unescape encodeUserPassword userinfo; Some (u, None).

Definition parseAuthority (authority : string) : option (option (string * option string) * string) :=
  match last_index_byte "@" authority with
  | None => h ← parseHost authority; Some (None, h)
  | Some i =>
      h ← parseHost (slice_from (S i) authority);
      u ← parseUser (slice_to i authority);
      Some (Some u, h)
  end.

(** ** Parse *)

Record Location := {
  l_Scheme : string;
  l_Opaque : string;
  l_User : option (string * option string);
  l_Host : string;
  l_Path : string;
  l_RawQuery : string;
  l_Fragment : string;
}.

(** What precedes the query, and the query. *)
Definition cut_query (rest : string) : string * string :=
  if ends_once "?" rest then (slice_to (String.length rest - 1) rest, "") else cut_byte "?" rest.

(** The authority and the path that follows the two slashes. *)
Definition cut_authority (s : string) : string * string :=
  match index_byte "/" s with
  | Some i => (slice_to i s, slice_from i s)
  | None => (s, "")
  end.

(** The part behind the scheme, without its query and its fragment. *)
Definition parse_rest (scheme rest query : string) : option Location :=
  let at_host u h p :=
    {| l_Scheme := scheme; l_Opaque := ""; l_User := u; l_Host := h; l_Path := p;
       l_RawQuery := query; l_Fragment := "" |} in
  if negb (String.prefix "/" rest) && negb (String.eqb scheme "") then
    Some {| l_Scheme := scheme; l_Opaque := rest; l_User := None; l_Host := ""; l_Path := "";
            l_RawQuery := query; l_Fragment := "" |}
  else if negb (String.prefix "/" rest) && has_byte ":" (cut_authority rest).1 then None
  else if (negb (String.eqb scheme "") || negb (String.prefix "///" rest)) && String.prefix "//" rest then
    let '(authority, path) := cut_authority (drop_bytes 2 rest) in
    '(u, h) ← parseAuthority authority;
    p ← unescape encodePath path;
    Some (at_host u h p)
  else p ← unescape encodePath rest; Some (at_host None "" p).

Definition parse (rawURL : string) : option Location :=
  if negb (all_bytes (λ a, negb (ctl a)) rawURL) then None
  else if String.eqb rawURL "*" then
    Some {| l_Scheme := ""; l_Opaque := ""; l_User := None; l_Host := ""; l_Path := "*";
            l_RawQuery := ""; l_Fragment := "" |}
  else
    '(scheme, rest) ← getScheme rawURL;
    let '(rest, query) := cut_query rest in
    parse_rest (ToLower scheme) rest query.

Definition set_fragment (f : string) (l : Location) : Location :=
  {| l_Scheme := l_Scheme l; l_Opaque := l_Opaque l; l_User := l_User l; l_Host := l_Host l;
     l_Path := l_Path l; l_RawQuery := l_RawQuery l; l_Fragment := f |}.

Definition url_Parse (rawURL : string) : option Location :=
  let '(u, frag) := cut_byte "#" rawURL in
  l ← parse u;
  if String.eqb frag "" then Some l
  else f ← unescape encodeFragment frag; Some (set_fragment f l).

Definition seen (s : string) : option (string * string * string) :=
  (λ l, (l_Scheme l, l_Host l, l_Path l)) <$> url_Parse s.
Example url_examples :
  (seen "https://vane.example/a%20b", seen "HTTP://[::1]:80/x", seen "admin.example.com", seen "https://",
   seen "https://h:80a", seen "https://h:1:2", seen "http://a b/", seen "https://x%41/", seen "1.2.3.4:80",
   seen "https://h/%zz", seen "http:/x", seen "http://[1.2.3.4]/") =
  (Some ("https", "vane.example", "/a b"), Some ("http", "[::1]:80", "/x"), Some ("", "", "admin.example.com"),
   Some ("https", "", ""), None, None, None, None, None, None, Some ("http", "", "/x"), None).
Proof. vm_compute. reflexivity. Qed.

(** ** Lemmas *)

Lemma cons_append x (a b : string) : String x a ++ b = String x (a ++ b).
Proof. done. Qed.

Lemma append_empty (b : string) : "" ++ b = b.
Proof. done. Qed.

#[local] Ltac app_simpl := rewrite ?cons_append, ?append_empty; cbn.

Lemma append_assoc (a b c : string) : (a ++ b) ++ c = a ++ (b ++ c).
Proof. induction a as [|x a IH]; [done|]. by rewrite !cons_append, IH. Qed.

Lemma append_nil (a : string) : a ++ "" = a.
Proof. induction a as [|x a IH]; [done|]. by rewrite ?cons_append, IH. Qed.

Lemma cut_byte_none c s : has_byte c s = false → cut_byte c s = (s, "").
Proof.
  induction s as [|a s IH]; [done|]. rewrite has_byte_cons. intros [Ha Hs]%orb_false_iff.
  cbn. by rewrite Ha, IH.
Qed.

Lemma cut_byte_at c a b : has_byte c a = false → cut_byte c (a ++ String c b) = (a, b).
Proof.
  induction a as [|d a IH]; [intros _; app_simpl; by rewrite Ascii.eqb_refl|].
  rewrite has_byte_cons. intros [Hd Ha]%orb_false_iff. app_simpl. by rewrite Hd, IH.
Qed.

Lemma all_bytes_app f a b : all_bytes f (a ++ b) = all_bytes f a && all_bytes f b.
Proof. induction a as [|x a IH]; [done|]. app_simpl. by rewrite IH, andb_assoc. Qed.

Lemma all_bytes_impl (f g : ascii → bool) s :
  (∀ a, f a = true → g a = true) → all_bytes f s = true → all_bytes g s = true.
Proof.
  intros Hfg. induction s as [|a s IH]; [done|]. cbn. rewrite !andb_true_iff.
  intros [Ha Hs]. split; [by apply Hfg|by apply IH].
Qed.

Lemma all_bytes_has (f : ascii → bool) c s : all_bytes f s = true → f c = false → has_byte c s = false.
Proof.
  intros Hs Hc. induction s as [|a s IH]; [done|]. cbn in Hs. apply andb_true_iff in Hs as [Ha Hs].
  rewrite has_byte_cons, IH, orb_false_r by done.
  destruct (Ascii.eqb_spec a c) as [->|]; [congruence|done].
Qed.

Lemma cut_query_none s : has_byte "?" s = false → cut_query s = (s, "").
Proof.
  intros Hs. unfold cut_query, ends_once. rewrite cut_byte_none by done.
  unfold has_byte in Hs. by destruct (index_byte "?" s).
Qed.

Lemma index_byte_app_l c a b i : index_byte c a = Some i → index_byte c (a ++ b) = Some i.
Proof.
  revert i. induction a as [|d a IH]; [done|]. intros i. app_simpl. destruct (Ascii.eqb d c); [done|].
  destruct (index_byte c a) as [j|]; [|done]. intros [= <-]. by rewrite (IH j).
Qed.

Lemma index_byte_split c s i :
  index_byte c s = Some i → ∃ a b, s = a ++ String c b ∧ String.length a = i ∧ has_byte c a = false.
Proof.
  revert i. induction s as [|d s IH]; [done|]. intros i. cbn.
  destruct (Ascii.eqb_spec d c) as [->|Hd]; [intros [= <-]; by exists "", s|].
  destruct (index_byte c s) as [j|]; [|done]. intros [= <-].
  destruct (IH j eq_refl) as (a & b & -> & Hl & Ha). exists (String d a), b. split_and!; [done|cbn; congruence|].
  rewrite has_byte_cons, Ha, orb_false_r. by destruct (Ascii.eqb_spec d c).
Qed.

Lemma slice_from_len a b : slice_from (String.length a) (a ++ b) = b.
Proof.
  unfold slice_from. rewrite length_append, <- (Nat.add_0_r (String.length a)) at 1.
  rewrite substring_skip. replace (_ - _)%nat with (String.length b) by lia. apply substring_all.
Qed.

(** The authority ends where a path that is appended begins. *)
Lemma cut_authority_app s p : cut_authority (s ++ String "/" p) =
  ((cut_authority s).1, (cut_authority s).2 ++ String "/" p).
Proof.
  unfold cut_authority. destruct (index_byte "/" s) as [i|] eqn:Hi.
  - rewrite (index_byte_app_l _ _ _ _ Hi). apply index_byte_split in Hi as (a & b & -> & <- & _).
    rewrite append_assoc. unfold slice_to. rewrite !substring_prefix. cbn [fst snd].
    by rewrite !slice_from_len.
  - rewrite index_byte_app by (unfold has_byte; by rewrite Hi). rewrite slice_to_app. cbn.
    by rewrite slice_from_len.
Qed.

Lemma scheme_loop_split f s x y : scheme_loop f s = Some (Some (x, y)) → s = x ++ String ":" y.
Proof.
  revert f x. induction s as [|a s IH]; intros f x; [done|]. cbn [scheme_loop].
  destruct (Ascii.eqb_spec a ":") as [->|].
  { destruct f; [done|]. by intros [= <- <-]. }
  destruct (letter a || (negb f && (digit a || one_of "+-." a))); [|done].
  destruct (scheme_loop false s) as [[[x' y']|]|] eqn:Hl; [|done..]. intros [= <- <-].
  by rewrite (IH _ _ Hl).
Qed.

Lemma scheme_loop_app f a b x y :
  scheme_loop f a = Some (Some (x, y)) → scheme_loop f (a ++ b) = Some (Some (x, y ++ b)).
Proof.
  revert f x. induction a as [|c a IH]; intros f x; [done|]. app_simpl.
  destruct (Ascii.eqb c ":"); [destruct f; [done|]; by intros [= <- <-]|].
  destruct (letter c || (negb f && (digit c || one_of "+-." c))); [|done].
  destruct (scheme_loop false a) as [[[x' y']|]|] eqn:Hl; [|done..]. intros [= <- <-].
  by rewrite (IH _ _ Hl).
Qed.

Lemma string_ind_len (P : string → Prop) :
  (∀ s, (∀ r, (String.length r < String.length s)%nat → P r) → P s) → ∀ s, P s.
Proof. intros H s. induction s as [s IH] using (induction_ltof1 _ String.length). by apply H. Qed.

Lemma unescape_app m a b x y :
  unescape m a = Some x → unescape m b = Some y → unescape m (a ++ b) = Some (x ++ y).
Proof.
  intros Ha Hb. revert x Ha. induction a as [s IH] using string_ind_len. intros x.
  destruct s as [|c s]; [by intros [= <-]|]. app_simpl.
  destruct (Ascii.eqb c "%").
  - destruct s as [|d [|e s]]; [done..|]. app_simpl.
    destruct (unhex d) as [h|]; [|done]. destruct (unhex e) as [l|]; [|done].
    destruct (escape_ok m h l); [|done]. destruct (unescape m s) as [r|] eqn:Hr; [|done]. intros [= <-].
    by rewrite (IH s ltac:(cbn; lia) r Hr).
  - destruct (host_mode m && _ && _); [done|].
    destruct (unescape m s) as [r|] eqn:Hr; [|done]. intros [= <-].
    by rewrite (IH s ltac:(cbn; lia) r Hr).
Qed.

(** A path without escapes, queries, fragments and control bytes. *)
Definition path_byte (a : ascii) : bool := negb (ctl a || one_of "%?#" a).
Definition plain_path (p : string) : Prop := String.prefix "/" p = true ∧ all_bytes path_byte p = true.

Lemma unescape_plain p : all_bytes path_byte p = true → unescape encodePath p = Some p.
Proof.
  induction p as [|a p IH]; [done|]. cbn. intros [Ha Hp]%andb_true_iff. rewrite (IH Hp).
  destruct (Ascii.eqb_spec a "%") as [->|]; done.
Qed.

Lemma prefix_cons a b s t : String.prefix (String a s) (String b t) = true → a = b ∧ String.prefix s t = true.
Proof. cbn [String.prefix]. destruct (ascii_dec a b) as [->|]; done. Qed.

Lemma prefix_self a s t : String.prefix (String a s) (String a t) = String.prefix s t.
Proof. cbn [String.prefix]. by destruct (ascii_dec a a). Qed.

Lemma prefix_empty s : String.prefix "" s = true.
Proof. by destruct s. Qed.

Lemma prefix_slash p : String.prefix "/" p = true → ∃ q, p = String "/" q.
Proof. destruct p as [|a p]; [done|]. intros [<- _]%prefix_cons. by exists p. Qed.

Definition longer_path (p : string) (l : Location) : Location :=
  {| l_Scheme := l_Scheme l; l_Opaque := l_Opaque l; l_User := l_User l; l_Host := l_Host l;
     l_Path := l_Path l ++ p; l_RawQuery := l_RawQuery l; l_Fragment := l_Fragment l |}.

Lemma ToLower_nonempty s : ToLower s ≠ "" → s ≠ "".
Proof. by intros H ->. Qed.

(** Behind the scheme of a URL with a host, an appended path lengthens the path. *)
Lemma parse_rest_app scheme rest l p :
  scheme ≠ "" → plain_path p → parse_rest scheme rest "" = Some l → l_Host l ≠ "" →
  parse_rest scheme (rest ++ p) "" = Some (longer_path p l).
Proof.
  intros Hs [Hp Hb]. apply prefix_slash in Hp as [q ->]. unfold parse_rest.
  rewrite (proj2 (String.eqb_neq scheme "") Hs).
  destruct (String.prefix "/" rest) eqn:H1; cbn [negb andb orb]; [|by intros [= <-] []].
  destruct (String.prefix "//" rest) eqn:H2; cbn [negb andb orb].
  2:{ intros (x & _ & [= <-])%bind_Some []. done. }
  destruct rest as [|a [|b r]]; [done| |].
  { apply prefix_cons in H2 as [_ H2]. done. }
  apply prefix_cons in H2 as [<- H2]. apply prefix_cons in H2 as [<- _].
  rewrite !cons_append, !prefix_self. rewrite !prefix_empty. cbn [drop_bytes negb andb orb].
  rewrite cut_authority_app. destruct (cut_authority r) as [au path]. cbn [fst snd].
  destruct (parseAuthority au) as [[u h]|]; [|done]. cbn [mbind option_bind].
  destruct (unescape encodePath path) as [x|] eqn:Hx; [|done]. cbn [mbind option_bind]. intros [= <-] _.
  by rewrite (unescape_app _ _ _ _ _ Hx (unescape_plain _ Hb)).
Qed.

(** A path appended to a URL with a host and without the delimiters of a query
    and a fragment lengthens its path, and changes nothing else. *)
Lemma url_Parse_app base l p :
  has_byte "?" base = false → has_byte "#" base = false → plain_path p →
  url_Parse base = Some l → l_Scheme l ≠ "" → l_Host l ≠ "" →
  url_Parse (base ++ p) = Some (longer_path p l).
Proof.
  intros Hq Hf [Hp Hb] Hl Hs Hh. unfold url_Parse in Hl |- *.
  assert (∀ c, path_byte c = false → has_byte c p = false) as Hno by (intros c; by apply all_bytes_has).
  rewrite cut_byte_none in Hl by done.
  rewrite cut_byte_none by (rewrite has_byte_app, Hf; by apply Hno).
  cbn in Hl |- *. apply bind_Some in Hl as (l' & Hl & [= ->]). unfold parse in Hl |- *.
  rewrite all_bytes_app.
  destruct (all_bytes (λ a, negb (ctl a)) base); [|done]. cbn [negb] in Hl. cbn [andb].
  rewrite (all_bytes_impl path_byte) by
    (done || (intros a; unfold path_byte; rewrite negb_orb; by intros [? _]%andb_true_iff)). cbn [negb].
  destruct (String.eqb_spec base "*") as [->|Hstar]; [by injection Hl as <-|].
  unfold getScheme in Hl |- *. destruct (scheme_loop true base) as [[[sc rest]|]|] eqn:Hsc; [| |done].
  2:{ cbn in Hl. rewrite cut_query_none in Hl by done. unfold parse_rest in Hl.
      exfalso. repeat (case_match; simplify_eq; try done).
      all: repeat match goal with H : (_ ≫= _) = Some _ |- _ => apply bind_Some in H as ([] & ? & ?) end; simplify_eq; done. }
  rewrite (scheme_loop_app _ _ _ _ _ Hsc). pose proof (scheme_loop_split _ _ _ _ Hsc) as ->.
  rewrite has_byte_app, has_byte_cons in Hq. apply orb_false_iff in Hq as [_ Hq].
  apply orb_false_iff in Hq as [_ Hq].
  cbn [mbind option_bind] in Hl |- *. rewrite cut_query_none in Hl by done.
  rewrite cut_query_none by (rewrite has_byte_app, Hq; by apply Hno).
  destruct (String.eqb_spec ((sc ++ String ":" rest) ++ p) "*") as [Heq|_].
  { apply (f_equal (has_byte ":")) in Heq. rewrite !has_byte_app, has_byte_cons in Heq. cbn in Heq.
    by rewrite orb_true_r in Heq. }
  assert (l_Scheme l = ToLower sc) as Hlow.
  { unfold parse_rest in Hl. repeat (case_match; simplify_eq; try done).
    all: repeat match goal with H : (_ ≫= _) = Some _ |- _ => apply bind_Some in H as (? & ? & ?); repeat case_match end; by simplify_eq. }
  rewrite Hlow in Hs. by rewrite (parse_rest_app _ _ l).
Qed.

(** ** Configuration *)

(** ** Variables *)

Definition environment : Type := gmap string string.
Definition Getenv (e : environment) (name : string) : string := default "" (e !! name).

Definition TrimSuffix (s p : string) : string :=
  if suffix p s then slice_to (String.length s - String.length p) s else s.

Inductive config_error : Type :=
| ErrRequired (name : string)
| ErrTooShort (name : string) (length : nat)
| ErrPlaceholder (name : string)
| ErrNotInteger (name raw : string)
| ErrBaseURL (name raw : string)
| ErrDeploymentMode (mode : string)
| ErrRequiredInSaaS (name : string).

Definition requireString (e : environment) (name : string) : res config_error string :=
  let value := Getenv e name in
  if String.eqb value "" then Err (ErrRequired name) else Ok value.

Definition minSecretLength : nat := 32.
Definition knownPlaceholderSecrets : list string := ["change-me-master-key"; "change-me-session-secret"].

Definition requireSecret (e : environment) (name : string) : res config_error string :=
  res_bind (requireString e name) (λ value,
  if Nat.ltb (String.length value) minSecretLength then Err (ErrTooShort name (String.length value))
  else if bool_decide (value ∈ knownPlaceholderSecrets) then Err (ErrPlaceholder name)
  else Ok value).

Definition requireInt (e : environment) (name : string) : res config_error Z :=
  res_bind (requireString e name) (λ raw,
  match Atoi raw with
  | Some value => Ok value
  | None => Err (ErrNotInteger name raw)
  end).

(** The condition under which a base URL is refused. *)
Definition bad_base (base : string) : bool :=
  match url_Parse base with
  | None => true
  | Some parsed =>
      (negb (String.eqb (l_Scheme parsed) "http") && negb (String.eqb (l_Scheme parsed) "https")) ||
      String.eqb (l_Host parsed) "" || negb (String.eqb (l_RawQuery parsed) "") ||
      negb (String.eqb (l_Fragment parsed) "") || negb (bool_decide (l_User parsed = None))
  end.

Definition optionalBaseURL (e : environment) (name : string) : res config_error string :=
  let raw := Getenv e name in
  if String.eqb raw "" then Ok "" else
  let trimmed := TrimSuffix raw "/" in
  if bad_base trimmed then Err (ErrBaseURL name raw) else Ok trimmed.

(** ** Settings *)

Record RuntimeConfig := {
  DatabaseURL : string;
  MasterKey : string;
  SessionSecret : string;
  Port : Z;
  PollIntervalSeconds : Z;
  LogLevel : string;
  CORSAllowedOrigin : string;
  PublicDNSTarget : string;
  AdminBaseURL : string;
  DevTokenLogging : bool;
  HTTPSEnabled : bool;
  SecureCookies : bool;
  TenantDomainsOnAdminListener : bool;
  DeploymentMode : string;
  NotificationServiceBaseURL : string;
  NotificationServiceAPIKey : string;
  EmailAssetsBaseURL : string;
}.

Definition defaultEmailAssetsPath : string := "/email".
Definition DeploymentModeSelfHosted : string := "self_hosted".
Definition DeploymentModeSaaS : string := "saas".
Definition defaultCORSAllowedOrigin : string := "http://localhost:5173".

(** A variable, or its default when it is empty. *)
Definition or_default (e : environment) (name d : string) : string :=
  let value := Getenv e name in if String.eqb value "" then d else value.

Section load.
Context (godotenv_Load : environment → environment).

Definition Load (process : environment) : res config_error RuntimeConfig :=
  let e := godotenv_Load process in
  res_bind (requireString e "DATABASE_URL") (λ databaseURL,
  res_bind (requireSecret e "VANE_MASTER_KEY") (λ masterKey,
  res_bind (requireSecret e "VANE_SESSION_SECRET") (λ sessionSecret,
  res_bind (requireInt e "PORT") (λ port,
  res_bind (requireInt e "POLL_INTERVAL_SECONDS") (λ pollIntervalSeconds,
  let logLevel := or_default e "LOG_LEVEL" "info" in
  let corsAllowedOrigin := or_default e "CORS_ALLOWED_ORIGIN" defaultCORSAllowedOrigin in
  let publicDNSTarget := Getenv e "PUBLIC_DNS_TARGET" in
  let adminBaseURLRaw := Getenv e "VANE_ADMIN_BASE_URL" in
  let adminBaseURL := TrimSuffix adminBaseURLRaw "/" in
  if negb (String.eqb adminBaseURLRaw "") && bad_base adminBaseURL
  then Err (ErrBaseURL "VANE_ADMIN_BASE_URL" adminBaseURLRaw) else
  let devTokenLogging := String.eqb (Getenv e "VANE_DEV_TOKEN_LOGGING") "true" in
  let httpsEnabled := negb (String.eqb (Getenv e "VANE_HTTPS_ENABLED") "false") in
  let secureCookies := negb (String.eqb (Getenv e "VANE_SECURE_COOKIES") "false") in
  let tenantDomainsOnAdminListener :=
    String.eqb (Getenv e "VANE_TENANT_DOMAINS_ON_ADMIN_LISTENER") "true" in
  let deploymentMode := or_default e "VANE_DEPLOYMENT_MODE" DeploymentModeSelfHosted in
  if negb (String.eqb deploymentMode DeploymentModeSelfHosted) &&
     negb (String.eqb deploymentMode DeploymentModeSaaS)
  then Err (ErrDeploymentMode deploymentMode) else
  let notificationServiceBaseURL := Getenv e "VANE_NOTIFICATION_SERVICE_BASE_URL" in
  let notificationServiceAPIKey := Getenv e "VANE_NOTIFICATION_SERVICE_API_KEY" in
  let saas := String.eqb deploymentMode DeploymentModeSaaS in
  if saas && String.eqb notificationServiceBaseURL ""
  then Err (ErrRequiredInSaaS "VANE_NOTIFICATION_SERVICE_BASE_URL") else
  if saas && String.eqb notificationServiceAPIKey ""
  then Err (ErrRequiredInSaaS "VANE_NOTIFICATION_SERVICE_API_KEY") else
  res_bind (optionalBaseURL e "VANE_EMAIL_ASSETS_BASE_URL") (λ assets,
  let emailAssetsBaseURL :=
    if String.eqb assets "" && negb (String.eqb adminBaseURL "")
    then adminBaseURL ++ defaultEmailAssetsPath else assets in
  Ok {| DatabaseURL := databaseURL; MasterKey := masterKey; SessionSecret := sessionSecret;
        Port := port; PollIntervalSeconds := pollIntervalSeconds; LogLevel := logLevel;
        CORSAllowedOrigin := corsAllowedOrigin; PublicDNSTarget := publicDNSTarget;
        AdminBaseURL := adminBaseURL; DevTokenLogging := devTokenLogging;
        HTTPSEnabled := httpsEnabled; SecureCookies := secureCookies;
        TenantDomainsOnAdminListener := tenantDomainsOnAdminListener;
        DeploymentMode := deploymentMode;
        NotificationServiceBaseURL := notificationServiceBaseURL;
        NotificationServiceAPIKey := notificationServiceAPIKey;
        EmailAssetsBaseURL := emailAssetsBaseURL |})))))).
End load.

(** The values the account handlers are built with (cli/serve.go). *)
Definition account_config (c : RuntimeConfig) : Config :=
  {| cfg_sessionSecret := SessionSecret c; cfg_secureCookies := SecureCookies c; cfg_masterKey := MasterKey c;
     cfg_adminBaseURL := AdminBaseURL c; cfg_deploymentMode := DeploymentMode c |}.

(** What is accepted, and what is read from it. *)
Record accepted (e : environment) : Prop := {
  acc_database : Getenv e "DATABASE_URL" ≠ "";
  acc_secrets : ∀ name, name ∈ ["VANE_MASTER_KEY"; "VANE_SESSION_SECRET"] →
    (minSecretLength ≤ String.length (Getenv e name))%nat;
  acc_integers : ∀ name, name ∈ ["PORT"; "POLL_INTERVAL_SECONDS"] → is_Some (Atoi (Getenv e name));
  acc_bases : ∀ name, name ∈ ["VANE_ADMIN_BASE_URL"; "VANE_EMAIL_ASSETS_BASE_URL"] →
    Getenv e name = "" ∨ bad_base (TrimSuffix (Getenv e name) "/") = false;
  acc_mode : Getenv e "VANE_DEPLOYMENT_MODE" ∈ [""; DeploymentModeSelfHosted; DeploymentModeSaaS];
  acc_saas : Getenv e "VANE_DEPLOYMENT_MODE" = DeploymentModeSaaS →
    Getenv e "VANE_NOTIFICATION_SERVICE_BASE_URL" ≠ "" ∧ Getenv e "VANE_NOTIFICATION_SERVICE_API_KEY" ≠ "";
}.

Definition integer (e : environment) (name : string) : Z := default 0%Z (Atoi (Getenv e name)).
Definition base_of (e : environment) (name : string) : string := TrimSuffix (Getenv e name) "/".

Definition settings (e : environment) : RuntimeConfig :=
  let admin := base_of e "VANE_ADMIN_BASE_URL" in
  let assets := base_of e "VANE_EMAIL_ASSETS_BASE_URL" in
  {| DatabaseURL := Getenv e "DATABASE_URL"; MasterKey := Getenv e "VANE_MASTER_KEY";
     SessionSecret := Getenv e "VANE_SESSION_SECRET"; Port := integer e "PORT";
     PollIntervalSeconds := integer e "POLL_INTERVAL_SECONDS"; LogLevel := or_default e "LOG_LEVEL" "info";
     CORSAllowedOrigin := or_default e "CORS_ALLOWED_ORIGIN" defaultCORSAllowedOrigin;
     PublicDNSTarget := Getenv e "PUBLIC_DNS_TARGET"; AdminBaseURL := admin;
     DevTokenLogging := bool_decide (Getenv e "VANE_DEV_TOKEN_LOGGING" = "true");
     HTTPSEnabled := bool_decide (Getenv e "VANE_HTTPS_ENABLED" ≠ "false");
     SecureCookies := bool_decide (Getenv e "VANE_SECURE_COOKIES" ≠ "false");
     TenantDomainsOnAdminListener :=
       bool_decide (Getenv e "VANE_TENANT_DOMAINS_ON_ADMIN_LISTENER" = "true");
     DeploymentMode := or_default e "VANE_DEPLOYMENT_MODE" DeploymentModeSelfHosted;
     NotificationServiceBaseURL := Getenv e "VANE_NOTIFICATION_SERVICE_BASE_URL";
     NotificationServiceAPIKey := Getenv e "VANE_NOTIFICATION_SERVICE_API_KEY";
     EmailAssetsBaseURL := if bool_decide (assets = "") then if bool_decide (admin = "") then ""
       else admin ++ defaultEmailAssetsPath else assets |}.

(** ** Lemmas *)

Lemma res_bind_ok {E A B} (r : res E A) (k : A → res E B) b :
  res_bind r k = Ok b ↔ ∃ a, r = Ok a ∧ k a = Ok b.
Proof. destruct r; cbn; split; [by eauto|by intros (? & [= ->] & ?)|done|by intros (? & ? & _)]. Qed.

Lemma eqb_decide (s t : string) : String.eqb s t = bool_decide (s = t).
Proof. destruct (String.eqb_spec s t); by case_bool_decide. Qed.

Lemma if_err {E A} (b : bool) (err : E) (r : res E A) x :
  (if b then Err err else r) = Ok x ↔ b = false ∧ r = Ok x.
Proof. destruct b; naive_solver. Qed.

Lemma requireString_ok e name v : requireString e name = Ok v ↔ v = Getenv e name ∧ v ≠ "".
Proof. unfold requireString. rewrite if_err, String.eqb_neq. naive_solver. Qed.

(** The placeholders are shorter than a secret may be. *)
Lemma placeholder_short v : v ∈ knownPlaceholderSecrets → (String.length v < minSecretLength)%nat.
Proof. unfold knownPlaceholderSecrets. rewrite !elem_of_cons. intros [->|[->|[]%elem_of_nil]]; cbv; lia. Qed.

Lemma requireSecret_ok e name v :
  requireSecret e name = Ok v ↔ v = Getenv e name ∧ (minSecretLength ≤ String.length v)%nat.
Proof.
  unfold requireSecret. rewrite res_bind_ok. setoid_rewrite requireString_ok. setoid_rewrite if_err.
  setoid_rewrite if_err. setoid_rewrite Nat.ltb_ge. setoid_rewrite bool_decide_eq_false. split.
  - intros (a & [-> _] & Hl & _ & [= <-]). done.
  - intros [-> Hl]. exists (Getenv e name). split_and!; try done.
    + intros Heq. rewrite Heq in Hl. cbv in Hl. lia.
    + intros Hp%placeholder_short. lia.
Qed.

Lemma Atoi_empty : Atoi "" = None.
Proof. done. Qed.

Lemma requireInt_ok e name n : requireInt e name = Ok n ↔ Atoi (Getenv e name) = Some n.
Proof.
  unfold requireInt. rewrite res_bind_ok. setoid_rewrite requireString_ok. split.
  - intros (a & [-> _] & Ha). destruct (Atoi _); congruence.
  - intros Hn. exists (Getenv e name). rewrite Hn. split_and!; [done| |done]. intros Heq.
    by rewrite Heq in Hn.
Qed.

Lemma Atoi_in_int64 s n : Atoi s = Some n → in_int64 n.
Proof. unfold Atoi. repeat case_match; naive_solver. Qed.

Lemma optionalBaseURL_ok e name v :
  optionalBaseURL e name = Ok v ↔
  v = base_of e name ∧ (Getenv e name = "" ∨ bad_base (base_of e name) = false).
Proof.
  unfold optionalBaseURL, base_of. destruct (String.eqb_spec (Getenv e name) "") as [->|Hn].
  - cbn. naive_solver.
  - rewrite if_err. naive_solver.
Qed.

Lemma or_default_mode e :
  or_default e "VANE_DEPLOYMENT_MODE" DeploymentModeSelfHosted = DeploymentModeSaaS ↔
  Getenv e "VANE_DEPLOYMENT_MODE" = DeploymentModeSaaS.
Proof. unfold or_default. destruct (String.eqb_spec (Getenv e "VANE_DEPLOYMENT_MODE") "") as [->|]; done. Qed.

Lemma mode_ok e :
  negb (String.eqb (or_default e "VANE_DEPLOYMENT_MODE" DeploymentModeSelfHosted) DeploymentModeSelfHosted) &&
  negb (String.eqb (or_default e "VANE_DEPLOYMENT_MODE" DeploymentModeSelfHosted) DeploymentModeSaaS) = false ↔
  Getenv e "VANE_DEPLOYMENT_MODE" ∈ [""; DeploymentModeSelfHosted; DeploymentModeSaaS].
Proof.
  rewrite andb_false_iff, !negb_false_iff, !String.eqb_eq, or_default_mode. unfold or_default.
  rewrite !elem_of_cons, elem_of_nil.
  destruct (String.eqb_spec (Getenv e "VANE_DEPLOYMENT_MODE") "") as [->|]; naive_solver.
Qed.

Lemma admin_base_ok e :
  negb (String.eqb (Getenv e "VANE_ADMIN_BASE_URL") "") && bad_base (base_of e "VANE_ADMIN_BASE_URL") = false ↔
  Getenv e "VANE_ADMIN_BASE_URL" = "" ∨ bad_base (base_of e "VANE_ADMIN_BASE_URL") = false.
Proof. rewrite andb_false_iff, negb_false_iff, String.eqb_eq. done. Qed.

Lemma saas_ok e x :
  String.eqb (or_default e "VANE_DEPLOYMENT_MODE" DeploymentModeSelfHosted) DeploymentModeSaaS &&
  String.eqb x "" = false ↔ (Getenv e "VANE_DEPLOYMENT_MODE" = DeploymentModeSaaS → x ≠ "").
Proof.
  rewrite andb_false_iff, !String.eqb_neq, or_default_mode.
  destruct (decide (Getenv e "VANE_DEPLOYMENT_MODE" = DeploymentModeSaaS)); naive_solver.
Qed.

Lemma long_nonempty s : (minSecretLength ≤ String.length s)%nat → s ≠ "".
Proof. intros Hl ->. cbv in Hl. lia. Qed.

Section load_spec.
Context (godotenv_Load : environment → environment).

(** [Load] succeeds exactly on the accepted environments, with the settings
    they give: an unset variable has its default, a base URL loses one trailing
    slash, the logo's base follows the admin host's. *)
Theorem Load_iff p c :
  Load godotenv_Load p = Ok c ↔ accepted (godotenv_Load p) ∧ c = settings (godotenv_Load p).
Proof.
  unfold Load. generalize (godotenv_Load p). intros e. cbv zeta.
  fold (base_of e "VANE_ADMIN_BASE_URL").
  split.
  - intros (d & [-> Hd]%requireString_ok & (k & [-> Hk]%requireSecret_ok & (s & [-> Hs]%requireSecret_ok &
      (port & Hport%requireInt_ok & (poll & Hpoll%requireInt_ok & H)%res_bind_ok)%res_bind_ok)%res_bind_ok
      )%res_bind_ok)%res_bind_ok.
    apply if_err in H as [Ha%admin_base_ok H]. apply if_err in H as [Hm%mode_ok H].
    apply if_err in H as [Hn1 H]. rewrite saas_ok in Hn1. apply if_err in H as [Hn2 H]. rewrite saas_ok in Hn2.
    apply res_bind_ok in H as (b & [-> Hb]%optionalBaseURL_ok & [= <-]). split.
    + split; [done| | | |done|naive_solver]; intros n; rewrite !elem_of_cons, elem_of_nil; unfold is_Some;
        naive_solver.
    + unfold settings, integer. rewrite Hport, Hpoll, !eqb_decide. cbn [default from_option id].
      f_equal; by repeat case_bool_decide.
  - intros [[Hd Hs Hi Hb Hm Hn] ->].
    destruct (Hi "PORT") as [port Hport]; [set_solver|].
    destruct (Hi "POLL_INTERVAL_SECONDS") as [poll Hpoll]; [set_solver|].
    pose proof (Hs "VANE_MASTER_KEY" ltac:(set_solver)) as Hk.
    pose proof (Hs "VANE_SESSION_SECRET" ltac:(set_solver)) as Hs'.
    pose proof (Hb "VANE_ADMIN_BASE_URL" ltac:(set_solver)) as Ha.
    pose proof (Hb "VANE_EMAIL_ASSETS_BASE_URL" ltac:(set_solver)) as Hl.
    rewrite (proj2 (requireString_ok e "DATABASE_URL" _) (conj eq_refl Hd)). cbn [res_bind].
    rewrite (proj2 (requireSecret_ok e "VANE_MASTER_KEY" _) (conj eq_refl Hk)). cbn [res_bind].
    rewrite (proj2 (requireSecret_ok e "VANE_SESSION_SECRET" _) (conj eq_refl Hs')). cbn [res_bind].
    rewrite (proj2 (requireInt_ok e _ _) Hport), (proj2 (requireInt_ok e _ _) Hpoll). cbn [res_bind].
    rewrite (proj2 (admin_base_ok e) Ha), (proj2 (mode_ok e) Hm), !(proj2 (saas_ok e _)) by naive_solver.
    rewrite (proj2 (optionalBaseURL_ok e _ _) (conj eq_refl Hl)). cbn [res_bind].
    unfold settings, integer. rewrite Hport, Hpoll, !eqb_decide. cbn [default from_option id].
    do 2 f_equal; by repeat case_bool_decide.
Qed.

(** The interval of the poller, a Duration (cli/serve.go). *)
Definition poll_interval (c : RuntimeConfig) : Z := go_mul (PollIntervalSeconds c) second.

(** Accepted secrets have 32 bytes and are none of the known placeholders,
    the port and the poll interval are integers of 64 bits, the mode is one of the two and
    names a mail service when it is hosted; a poll interval of up to 292 years is
    the positive duration that was meant. *)
Theorem Load_bounds p c :
  Load godotenv_Load p = Ok c →
  Forall (λ s, (32 ≤ String.length s)%nat ∧ s ∉ knownPlaceholderSecrets) [MasterKey c; SessionSecret c] ∧
  Forall in_int64 [Port c; PollIntervalSeconds c] ∧
  DeploymentMode c ∈ [DeploymentModeSelfHosted; DeploymentModeSaaS] ∧
  (DeploymentMode c = DeploymentModeSaaS →
   NotificationServiceBaseURL c ≠ "" ∧ NotificationServiceAPIKey c ≠ "") ∧
  ((1 ≤ PollIntervalSeconds c ≤ 9223372036)%Z →
   poll_interval c = (PollIntervalSeconds c * second)%Z ∧ (0 < poll_interval c)%Z).
Proof.
  intros [[Hd Hs Hi Hb Hm Hn] ->]%Load_iff. cbn [MasterKey SessionSecret Port PollIntervalSeconds DeploymentMode
    settings NotificationServiceBaseURL NotificationServiceAPIKey]. split_and!.
  - rewrite !Forall_cons, Forall_nil. split_and!; [apply Hs; set_solver| |apply Hs; set_solver| |done].
    all: intros Hp%placeholder_short; apply Nat.lt_nge in Hp; apply Hp, Hs; set_solver.
  - rewrite !Forall_cons, Forall_nil. unfold integer. split_and!; [| |done].
    all: edestruct Hi as [n Hn']; [|rewrite Hn'; by apply (Atoi_in_int64 _ _ Hn')]; set_solver.
  - unfold or_default. destruct (String.eqb_spec (Getenv (godotenv_Load p) "VANE_DEPLOYMENT_MODE") "");
      [set_solver|]. revert Hm. rewrite !elem_of_cons, elem_of_nil. naive_solver.
  - rewrite or_default_mode. done.
  - intros Hr. unfold poll_interval, go_mul. cbn [PollIntervalSeconds settings].
    rewrite wrap64_id; unfold in_int64, int64_min, int64_max, second, millisecond, nanosecond; lia.
Qed.

(** ** Links *)

Definition admin_paths : list string := ["/reset-password/"; "/accept-invite/"; "/verify-email/"].

Lemma bad_base_false b :
  bad_base b = false ↔ ∃ l, url_Parse b = Some l ∧ (l_Scheme l = "http" ∨ l_Scheme l = "https") ∧ l_Host l ≠ "" ∧
    l_RawQuery l = "" ∧ l_Fragment l = "" ∧ l_User l = None.
Proof.
  unfold bad_base. destruct (url_Parse b) as [l|]; [|naive_solver].
  rewrite !orb_false_iff, andb_false_iff, !negb_false_iff, String.eqb_neq, !String.eqb_eq, bool_decide_eq_true.
  naive_solver.
Qed.

Lemma admin_base_parses p c :
  Load godotenv_Load p = Ok c → bad_base (adminBaseURL (@cfg_adminBaseURL (account_config c))) = false.
Proof.
  intros [[_ _ _ Hb _ _] ->]%Load_iff. cbn [account_config cfg_adminBaseURL AdminBaseURL settings].
  unfold adminBaseURL. destruct (String.eqb_spec (base_of (godotenv_Load p) "VANE_ADMIN_BASE_URL") "") as [|Hn]; [done|].
  destruct (Hb "VANE_ADMIN_BASE_URL") as [He|]; [set_solver| |done].
  unfold base_of in Hn. by rewrite He in Hn.
Qed.

(** C30: A link mailed to an administrator is read back as the configured base
    (or the placeholder that leads nowhere) with a longer path, behind http or
    https, without user information, query or fragment: the configured host is
    where it leads, provided the base holds no question mark or number sign. *)
Theorem admin_link_reaches_host p c path token :
  let base := adminBaseURL (@cfg_adminBaseURL (account_config c)) in
  Load godotenv_Load p = Ok c → has_byte "?" base = false → has_byte "#" base = false →
  path ∈ admin_paths → all_bytes path_byte token = true →
  ∃ l, url_Parse base = Some l ∧ url_Parse (base ++ path ++ token) = Some (longer_path (path ++ token) l) ∧
    (l_Scheme l = "http" ∨ l_Scheme l = "https") ∧ l_Host l ≠ "" ∧
    l_User l = None ∧ l_RawQuery l = "" ∧ l_Fragment l = "".
Proof.
  intros base Hl Hq Hf Hp Ht. destruct (proj1 (bad_base_false base) (admin_base_parses _ _ Hl)) as
    (l & Hb & Hs & Hh & Hr & Hg & Hu).
  exists l. split_and!; try done. apply url_Parse_app; try done.
  - unfold admin_paths in Hp. rewrite !elem_of_cons, elem_of_nil in Hp.
    split; [destruct Hp as [->|[->|[->|[]]]]; done|]. rewrite all_bytes_app, Ht, andb_true_r.
    by destruct Hp as [->|[->|[->|[]]]].
  - by destruct Hs as [->| ->].
Qed.
End load_spec.

(** ** Concrete environments *)

(** A .env file that sets nothing else. *)
Definition no_file (e : environment) : environment := e.

Definition example_env : environment :=
  <["DATABASE_URL" := "postgres://vane@db/vane"]>
  (<["VANE_MASTER_KEY" := "0123456789abcdef0123456789abcdef"]>
  (<["VANE_SESSION_SECRET" := "fedcba9876543210fedcba9876543210"]>
  (<["PORT" := "8080"]> (<["POLL_INTERVAL_SECONDS" := "120"]>
  (<["VANE_ADMIN_BASE_URL" := "https://vane.example/admin/"]> ∅))))).
Definition example_config : RuntimeConfig := settings example_env.

Example example_loads : Load no_file example_env = Ok example_config.
Proof. vm_compute. reflexivity. Qed.

Lemma Load_bounds_witness :
  Load no_file example_env = Ok example_config ∧ poll_interval example_config = (120 * second)%Z.
Proof.
  split; [exact example_loads|].
  pose proof (Load_bounds no_file example_env example_config example_loads) as (_ & _ & _ & _ & Hp).
  apply Hp. split; by vm_compute.
Defined.

Lemma admin_link_reaches_host_witness :
  ∃ l, url_Parse "https://vane.example/admin/reset-password/0a1b" = Some l ∧ l_Host l = "vane.example".
Proof.
  destruct (admin_link_reaches_host no_file example_env example_config "/reset-password/" "0a1b") as
    (l & Hb & Hl & _); [exact example_loads|done|done|unfold admin_paths; left|done|].
  exists (longer_path ("/reset-password/" ++ "0a1b") l). split; [exact Hl|]. by injection Hb as <-.
Defined.

(** A base that ends in a delimiter passes the check that is there to keep
    queries and fragments out, and swallows the path of every link. *)
Theorem base_delimiter_swallows_link d base :
  d ∈ ["?"; "#"] → base = "https://vane.example" ++ d →
  (∃ c, Load no_file (<["VANE_ADMIN_BASE_URL" := base]> example_env) = Ok c ∧ AdminBaseURL c = base) ∧
  ∃ l, url_Parse (base ++ "/reset-password/0a1b") = Some l ∧ l_Path l = "".
Proof.
  rewrite !elem_of_cons, elem_of_nil. intros [->|[->|[]]] ->;
    (split; [eexists; split; [vm_compute; reflexivity|done]|eexists; split; [vm_compute; reflexivity|done]]).
Qed.

(** The refusal of a known placeholder is never reached, both being too short;
    the secrets of the README and .env.example are accepted. *)
Theorem placeholder_check_is_dead e name :
  (∀ n, requireSecret e name ≠ Err (ErrPlaceholder n)) ∧
  requireSecret {["VANE_MASTER_KEY" := "dev-master-key-change-me-0123456789"]} "VANE_MASTER_KEY" =
    Ok "dev-master-key-change-me-0123456789" ∧
  requireSecret {["VANE_SESSION_SECRET" := "dev-session-secret-change-me-0123456789"]} "VANE_SESSION_SECRET" =
    Ok "dev-session-secret-change-me-0123456789".
Proof.
  split_and!; [|by vm_compute|by vm_compute]. intros n. unfold requireSecret.
  destruct (requireString e name) as [v|err] eqn:Hv; cbn [res_bind].
  - destruct (Nat.ltb_spec (String.length v) minSecretLength); [done|].
    case_bool_decide as Hp; [apply placeholder_short in Hp; lia|done].
  - revert Hv. unfold requireString. case_match; congruence.
Qed.

(** No lower bound is checked, nor an upper one: zero and negative intervals are
    accepted, and one that overflows polls three times a second. *)
Theorem poll_interval_unchecked :
  (λ raw, match Load no_file (<["POLL_INTERVAL_SECONDS" := raw]> example_env) with
          | Ok c => Some (poll_interval c) | Err _ => None end) <$> ["0"; "-5"; "18446744074"; "9223372036854775808"] =
  [Some 0; Some (-5000000000); Some 290448384; None]%Z.
Proof. vm_compute. reflexivity. Qed.
