(* ===== verification/Serve.v ===== *)
(** * The listeners' handlers (cli/serve.go, api/security_headers.go, web/embed.go)

    A handler gets the headers set so far, the request and the connection, and
    writes a reply.  [host_router] is router.HostRouter over any two handlers (that
    of PublicPage.v is it at the public page's data); [newHTTPSServer] and
    [serveAdminHandler] put the listeners together, [StaticHandler] serves the
    embedded single-page application.  The theorems say who answers for which
    host, that a visitor's request writes nothing whatever handler serves it, and
    which replies carry the security headers.

    The second half is the life of the process: [run_step] is RunE, one call at a
    time, and [serve_step] interleaves it with the listeners, each of which reports
    once on a channel of two places, and with the signal.  What is waited for inside
    a call (migrations, Shutdown, the poller manager's Stop, see Leaders.v) is one
    step; its outcome is free. *)

From stdpp Require Import numbers strings list gmap relations.
From Stdlib Require Import ZArith Lia.
From S2P Require Import Prelude Db Schema World Secrets SiteSafety StatusPages Identity Tenants Api Inert History PublicPage GoStrings Configuration.

#[local] Open Scope Z_scope.

Record public_request := {
  rq_Host : string;
  rq_Path : string;
  rq_Range : string;
  rq_Page : string;
}.

Abbreviation headers := (gmap string string).

Record reply (B : Type) := {
  r_code : Z;
  r_headers : headers;
  r_body : B;
}.
Arguments r_code {B}. Arguments r_headers {B}. Arguments r_body {B}.

Section serving.
Context `{!Driver} {B : Type} (text : string → B).

Definition handler : Type := headers → public_request → session database → reply B * session database.

(** http.Error and http.NotFound *)
Definition http_Error (msg : string) (code : Z) : handler := λ h _ s,
  ({| r_code := code;
      r_headers := <["X-Content-Type-Options" := "nosniff"]> (<["Content-Type" := "text/plain; charset=utf-8"]> h);
      r_body := text msg |}, s).
Definition http_NotFound : handler := http_Error "404 page not found" StatusNotFound.

(** ** Security headers *)

Definition defaultCSP : string :=
  "default-src 'self'; style-src 'self' 'unsafe-inline'; img-src 'self' data:; base-uri 'self'; frame-ancestors 'none'".
Definition SecurityHeaders (hsts : bool) (next : handler) : handler := λ h rq s,
  let h := <["X-Content-Type-Options" := "nosniff"]> h in
  let h := <["Content-Security-Policy" := defaultCSP]> h in
  let h := if hsts then <["Strict-Transport-Security" := "max-age=63072000; includeSubDomains"]> h else h in
  next h rq s.

(** ** Dispatch by host *)

(** The public handler knows the page and its tenant from the context. *)
Definition host_router (public : string → string → handler) (fallback : handler) : handler := λ h rq s,
  match on_db_core (GetByHostname (stripPort (rq_Host rq))) s with
  | (Err _, s) => fallback h rq s
  | (Ok sp, s) =>
      if negb (String.eqb (SpState sp) "published") then fallback h rq s
      else
        match BeginTenantTx "" (SpTenantID sp) s with
        | (Err _, s) => http_Error "service unavailable" StatusServiceUnavailable h rq s
        | (Ok tx, s) =>
            let '(a, tx) := public (SpID sp) (SpTenantID sp) h rq tx in
            (a, tx_rollback tx s)
        end
  end.

Definition newHTTPSServer (publicMux : string → string → handler) : handler :=
  SecurityHeaders true (host_router publicMux http_NotFound).

(** The last step of buildAdminRouter, around its routes; [cors] is go-chi/cors. *)
Definition admin_listener (cors : string → handler → handler) (corsAllowedOrigin : string) (routes : handler) :
    handler := cors corsAllowedOrigin (SecurityHeaders false routes).

Definition serveAdminHandler (tenantDomainsOnAdminListener : bool) (publicMux : string → string → handler)
    (adminHandler : handler) : handler :=
  if negb tenantDomainsOnAdminListener then adminHandler else host_router publicMux adminHandler.
End serving.

(** ** The embedded application *)

Inductive static_body :=
| FileBytes (content : string)
| RedirectTo (target : string)
| NotFoundJSON. (* the object whose error is: not found *)

Section static.
(** The build's files by path; directories are not among them. *)
Context (dist : gmap string string).

Definition TrimPrefix (s p : string) : string := if String.prefix p s then drop_bytes (String.length p) s else s.

(** http.FileServer on a path that is a file: an index page is at its directory. *)
Definition FileServer (urlPath content : string) : Z * static_body :=
  if suffix "/index.html" urlPath then (301, RedirectTo "./") else (200, FileBytes content).

Definition writeNotFoundJSON : Z * static_body := (404, NotFoundJSON).

Definition serveIndex : Z * static_body :=
  match dist !! "index.html" with
  | None => writeNotFoundJSON
  | Some index => (200, FileBytes index)
  end.

Definition StaticHandler (urlPath : string) : Z * static_body :=
  let requestPath := TrimPrefix urlPath "/" in
  match (if String.eqb requestPath "" then None else dist !! requestPath) with
  | Some content => FileServer urlPath content
  | None => if String.prefix "/api/" urlPath then writeNotFoundJSON else serveIndex
  end.

(** A path of the API that is no file is answered with the JSON 404 and never
    with a page, any other path that is no file with the application (when it was
    built), and a file as it is, index pages apart. *)
Theorem StaticHandler_spec urlPath :
  let file := if String.eqb (TrimPrefix urlPath "/") "" then None else dist !! TrimPrefix urlPath "/" in
  (∀ content, file = Some content → suffix "/index.html" urlPath = false →
     StaticHandler urlPath = (200, FileBytes content)) ∧
  (file = None → String.prefix "/api/" urlPath = true → StaticHandler urlPath = writeNotFoundJSON) ∧
  (∀ index, file = None → String.prefix "/api/" urlPath = false → dist !! "index.html" = Some index →
     StaticHandler urlPath = (200, FileBytes index)).
Proof.
  intros file. unfold StaticHandler. fold file. split_and!.
  - intros content -> Hs. unfold FileServer. by rewrite Hs.
  - by intros -> ->.
  - intros index -> -> Hi. unfold serveIndex. by rewrite Hi.
Qed.
End static.

(** ** Who answers *)

Section dispatch.
Context `{!Driver} {B : Type} (text : string → B).
Implicit Types (public : string → string → handler (B := B)) (fallback : handler (B := B)).

Lemma GetByHostname_tables host s r s' :
  on_db_core (GetByHostname host) s = (r, s') → tables s' = tables s ∧ app_tenant s' = app_tenant s ∧
    bypass_rls s' = bypass_rls s.
Proof.
  intros Eg. pose proof (inert_keeps _ _ _ _ (core_inert _ (GetByHostname_inert _)) Eg) as (Ht & Ha & Hb). done.
Qed.

(** [host] is the address of a published page: what the lookup finds. *)
Definition matched (host : string) (s : session database) : option (string * string) :=
  match on_db_core (GetByHostname (stripPort host)) s with
  | (Ok sp, _) => if String.eqb (SpState sp) "published" then Some (SpID sp, SpTenantID sp) else None
  | (Err _, _) => None
  end.

(** A host that no published page is found for is the fallback's, on the same tables; on a matched host
    the fallback never runs: the reply is the public handler's, told that page
    and its tenant and run under it, or a 503, and whatever that handler does, no
    table changes. *)
Theorem host_router_spec public fallback h rq s a s' :
  host_router text public fallback h rq s = (a, s') →
  match matched (rq_Host rq) s with
  | None => ∃ s1, tables s1 = tables s ∧ app_tenant s1 = app_tenant s ∧ bypass_rls s1 = bypass_rls s ∧
      fallback h rq s1 = (a, s')
  | Some (page, tenant) => tables s' = tables s ∧
      (r_code a = StatusServiceUnavailable ∨
       ∃ tx tx', tables tx = tables s ∧ app_tenant tx = tenant ∧ bypass_rls tx = bypass_rls s ∧
         public page tenant h rq tx = (a, tx'))
  end.
Proof.
  unfold host_router, matched. destruct (on_db_core _ s) as [[sp|e] s1] eqn:Eg;
    apply GetByHostname_tables in Eg as (T1 & A1 & B1); [|intros E; by exists s1].
  destruct (String.eqb (SpState sp) "published"); cbn [negb]; [|intros E; by exists s1].
  destruct (BeginTenantTx "" (SpTenantID sp) s1) as [[tx|e] s2] eqn:Et;
    apply BeginTenantTx_inv in Et as (T2 & _ & _ & Htx).
  - destruct Htx as (T3 & A3 & B3 & _). destruct (public _ _ h rq tx) as [b tx'] eqn:Ep. intros [= <- <-].
    split; [cbn; congruence|]. right. exists tx, tx'. split_and!; congruence.
  - intros [= <- <-]. split; [congruence|]. by left.
Qed.

(** Over the public page's data it is the router of PublicPage.v. *)
Definition public_json `{!Machine} (midnight : Z → Z) (ev : nat) (f : response publicStatusResponse → B) :
    string → string → handler (B := B) := λ page _ h rq s,
  let '(rsp, s) := PublicGet midnight ev (Some page) (rq_Range rq) (rq_Page rq) s in
  ({| r_code := match rsp with Response code _ => code end;
      r_headers := <["Content-Type" := "application/json"]> h; r_body := f rsp |}, s).
End dispatch.

Theorem host_router_public `{!Driver, !Machine} {B} (f : response publicStatusResponse → B) midnight ev fallback h rq s :
  (let '(a, s') := host_router (λ m, f (Response StatusServiceUnavailable (ErrorBody m)))
                     (public_json midnight ev f) fallback h rq s in (r_body a, s')) =
  match HostRouter midnight ev (rq_Host rq) (rq_Range rq) (rq_Page rq) s with
  | (Fallback, s') => let '(a, s'') := fallback h rq s' in (r_body a, s'')
  | (Answered rsp, s') => (f rsp, s')
  end.
Proof.
  unfold host_router, HostRouter. destruct (on_db_core _ s) as [[sp|e] s1]; [|done].
  destruct (negb _); [done|]. destruct (BeginTenantTx _ _ s1) as [[tx|e] s2]; [|done].
  unfold public_json. by destruct (PublicGet _ _ _ _ _ tx) as [rsp tx'].
Qed.

(** ** Security headers on the replies *)

Section header_theorems.
Context `{!Driver} {B : Type} (text : string → B).

(** Handlers add headers and replace values; none removes one. *)
Definition keeps_headers (next : handler (B := B)) : Prop :=
  ∀ h rq s k, is_Some (h !! k) → is_Some (r_headers (next h rq s).1 !! k).

Lemma http_Error_keeps msg code : keeps_headers (http_Error text msg code).
Proof. intros h rq s k Hk. unfold http_Error. simpl. rewrite !lookup_insert_is_Some'. auto. Qed.

Lemma host_router_keeps public fallback :
  (∀ page tenant, keeps_headers (public page tenant)) → keeps_headers fallback →
  keeps_headers (host_router text public fallback).
Proof.
  intros Hp Hf h rq s k Hk. unfold host_router.
  destruct (on_db_core _ s) as [[sp|e] s1]; [|by apply Hf]. destruct (negb _); [by apply Hf|].
  destruct (BeginTenantTx _ _ s1) as [[tx|e] s2]; [|by apply http_Error_keeps].
  pose proof (Hp (SpID sp) (SpTenantID sp) h rq tx k Hk) as Hr.
  by destruct (public _ _ h rq tx) as [a tx'].
Qed.

Lemma SecurityHeaders_set hsts (next : handler (B := B)) h rq s k :
  keeps_headers next →
  k ∈ ["X-Content-Type-Options"; "Content-Security-Policy"] ∨ hsts = true ∧ k = "Strict-Transport-Security" →
  is_Some (r_headers (SecurityHeaders hsts next h rq s).1 !! k).
Proof.
  intros Hn Hk. unfold SecurityHeaders. apply Hn. rewrite !elem_of_cons, elem_of_nil in Hk.
  destruct hsts; rewrite ?lookup_insert_is_Some'; naive_solver.
Qed.

(** Every reply of the HTTPS listener, the 404 of an unknown host included,
    forbids sniffing, has a content security policy and pins HTTPS; every reply
    of the admin routes has the first two. *)
Theorem listeners_set_headers public routes h rq s k :
  (∀ page tenant, keeps_headers (public page tenant)) → keeps_headers routes →
  (k ∈ ["X-Content-Type-Options"; "Content-Security-Policy"; "Strict-Transport-Security"] →
   is_Some (r_headers (newHTTPSServer text public h rq s).1 !! k)) ∧
  (k ∈ ["X-Content-Type-Options"; "Content-Security-Policy"] →
   is_Some (r_headers (admin_listener (λ _ next, next) "" routes h rq s).1 !! k)).
Proof.
  intros Hp Hr. split; intros Hk; apply SecurityHeaders_set;
    try apply host_router_keeps; try apply http_Error_keeps; try done; rewrite ?elem_of_cons, ?elem_of_nil in *; naive_solver.
Qed.

(** On the admin listener a tenant's domain is matched before the admin handler,
    whose last step sets the headers: its pages go out without a policy. *)
Theorem tenant_pages_without_policy `{!Machine} midnight ev f admin rq s t :
  matched (rq_Host rq) s = Some t →
  r_headers (serveAdminHandler text true (public_json midnight ev f) admin ∅ rq s).1 !!
    "Content-Security-Policy" = None.
Proof.
  unfold matched, serveAdminHandler, host_router. cbn [negb].
  destruct (on_db_core _ s) as [[sp|e] s1]; [|done].
  destruct (String.eqb (SpState sp) "published"); [|done]. intros _. cbn [negb].
  destruct (BeginTenantTx _ _ s1) as [[tx|e] s2]; [|done].
  unfold public_json. by destruct (PublicGet _ _ _ _ _ tx) as [rsp tx'].
Qed.
End header_theorems.

(** ** The serve process (NewServeCmd) *)

#[local] Open Scope nat_scope.

Inductive serve_error :=
| ConfigError (e : config_error)
| CallError (e : string).

Inductive goroutine := LeaderLoop | PrunerLoop | DigestLoop | DomainHealthLoop.

(** A listener's goroutine: ListenAndServe, then one send on serverErrs. *)
Inductive listener := NotStarted | Serving | Reporting (e : option serve_error) | Ended.

Inductive run_pc :=
| AtLoad | AtLogger | AtPool | AtMigrate | AtDigest | AtDomainHealth | AtHTTP | AtHTTPS
| AtSelect | AtShutdown | AtShutdownHTTPS | AtStop (e : option serve_error) | Returned (e : option serve_error).

Record serve_state := {
  sv_pc : run_pc;
  sv_cfg : option RuntimeConfig;
  sv_migrated : bool;
  sv_started : list goroutine;
  sv_admin : listener;
  sv_https : listener;
  sv_admin_closed : bool;      (* srv.Shutdown was called *)
  sv_https_closed : bool;
  sv_errs : list (option serve_error);   (* serverErrs *)
  sv_signalled : bool;
  sv_cancelled : bool;         (* ctx *)
  sv_stopped : bool;           (* pollerManager.Stop returned *)
}.

Definition serve0 : serve_state :=
  {| sv_pc := AtLoad; sv_cfg := None; sv_migrated := false; sv_started := []; sv_admin := NotStarted;
     sv_https := NotStarted; sv_admin_closed := false; sv_https_closed := false; sv_errs := [];
     sv_signalled := false; sv_cancelled := false; sv_stopped := false |}.

Definition at_pc (p : run_pc) (s : serve_state) : serve_state :=
  {| sv_pc := p; sv_cfg := sv_cfg s; sv_migrated := sv_migrated s; sv_started := sv_started s;
     sv_admin := sv_admin s; sv_https := sv_https s; sv_admin_closed := sv_admin_closed s;
     sv_https_closed := sv_https_closed s; sv_errs := sv_errs s; sv_signalled := sv_signalled s;
     sv_cancelled := sv_cancelled s; sv_stopped := sv_stopped s |}.
Definition configured (c : RuntimeConfig) (s : serve_state) : serve_state :=
  {| sv_pc := sv_pc s; sv_cfg := Some c; sv_migrated := sv_migrated s; sv_started := sv_started s;
     sv_admin := sv_admin s; sv_https := sv_https s; sv_admin_closed := sv_admin_closed s;
     sv_https_closed := sv_https_closed s; sv_errs := sv_errs s; sv_signalled := sv_signalled s;
     sv_cancelled := sv_cancelled s; sv_stopped := sv_stopped s |}.
Definition set_migrated (s : serve_state) : serve_state :=
  {| sv_pc := sv_pc s; sv_cfg := sv_cfg s; sv_migrated := true; sv_started := sv_started s;
     sv_admin := sv_admin s; sv_https := sv_https s; sv_admin_closed := sv_admin_closed s;
     sv_https_closed := sv_https_closed s; sv_errs := sv_errs s; sv_signalled := sv_signalled s;
     sv_cancelled := sv_cancelled s; sv_stopped := sv_stopped s |}.
Definition go (l : list goroutine) (s : serve_state) : serve_state :=
  {| sv_pc := sv_pc s; sv_cfg := sv_cfg s; sv_migrated := sv_migrated s; sv_started := sv_started s ++ l;
     sv_admin := sv_admin s; sv_https := sv_https s; sv_admin_closed := sv_admin_closed s;
     sv_https_closed := sv_https_closed s; sv_errs := sv_errs s; sv_signalled := sv_signalled s;
     sv_cancelled := sv_cancelled s; sv_stopped := sv_stopped s |}.
(** [true] names the HTTPS listener. *)
Definition listener_of (tls : bool) (s : serve_state) : listener := if tls then sv_https s else sv_admin s.
Definition set_listener (tls : bool) (l : listener) (s : serve_state) : serve_state :=
  {| sv_pc := sv_pc s; sv_cfg := sv_cfg s; sv_migrated := sv_migrated s; sv_started := sv_started s;
     sv_admin := if tls then sv_admin s else l; sv_https := if tls then l else sv_https s;
     sv_admin_closed := sv_admin_closed s; sv_https_closed := sv_https_closed s; sv_errs := sv_errs s;
     sv_signalled := sv_signalled s; sv_cancelled := sv_cancelled s; sv_stopped := sv_stopped s |}.
Definition closed (tls : bool) (s : serve_state) : bool := if tls then sv_https_closed s else sv_admin_closed s.
Definition close (tls : bool) (s : serve_state) : serve_state :=
  {| sv_pc := sv_pc s; sv_cfg := sv_cfg s; sv_migrated := sv_migrated s; sv_started := sv_started s;
     sv_admin := sv_admin s; sv_https := sv_https s; sv_admin_closed := sv_admin_closed s || negb tls;
     sv_https_closed := sv_https_closed s || tls; sv_errs := sv_errs s; sv_signalled := sv_signalled s;
     sv_cancelled := sv_cancelled s; sv_stopped := sv_stopped s |}.
Definition set_errs (l : list (option serve_error)) (s : serve_state) : serve_state :=
  {| sv_pc := sv_pc s; sv_cfg := sv_cfg s; sv_migrated := sv_migrated s; sv_started := sv_started s;
     sv_admin := sv_admin s; sv_https := sv_https s; sv_admin_closed := sv_admin_closed s;
     sv_https_closed := sv_https_closed s; sv_errs := l; sv_signalled := sv_signalled s;
     sv_cancelled := sv_cancelled s; sv_stopped := sv_stopped s |}.
Definition cancel (signal : bool) (s : serve_state) : serve_state :=
  {| sv_pc := sv_pc s; sv_cfg := sv_cfg s; sv_migrated := sv_migrated s; sv_started := sv_started s;
     sv_admin := sv_admin s; sv_https := sv_https s; sv_admin_closed := sv_admin_closed s;
     sv_https_closed := sv_https_closed s; sv_errs := sv_errs s; sv_signalled := sv_signalled s || signal;
     sv_cancelled := true; sv_stopped := sv_stopped s |}.
Definition stopped (s : serve_state) : serve_state :=
  {| sv_pc := sv_pc s; sv_cfg := sv_cfg s; sv_migrated := sv_migrated s; sv_started := sv_started s;
     sv_admin := sv_admin s; sv_https := sv_https s; sv_admin_closed := sv_admin_closed s;
     sv_https_closed := sv_https_closed s; sv_errs := sv_errs s; sv_signalled := sv_signalled s;
     sv_cancelled := sv_cancelled s; sv_stopped := true |}.

(** Returning runs the deferred stop(), which cancels the context. *)
Definition returns (e : option serve_error) (s : serve_state) : serve_state := at_pc (Returned e) (cancel false s).
Definition or_return (outcome : option string) (k : serve_state → serve_state) (s : serve_state) : serve_state :=
  match outcome with Some e => returns (Some (CallError e)) s | None => k s end.

Section serve.
Context (godotenv_Load : environment → environment) (process : environment).

(** The next call of RunE, with its outcome: an error of the call, or, in the
    select, which ready case is taken.  [None]: it is waiting, or has returned. *)
Definition run_step (outcome : option string) (s : serve_state) : option serve_state :=
  match sv_pc s with
  | AtLoad => Some (match Load godotenv_Load process with
                    | Err e => returns (Some (ConfigError e)) s
                    | Ok c => at_pc AtLogger (configured c s)
                    end)
  | AtLogger => Some (or_return outcome (at_pc AtPool) s)
  | AtPool => Some (or_return outcome (at_pc AtMigrate) s)
  | AtMigrate =>
      Some (or_return outcome (λ s, at_pc AtDigest (go [LeaderLoop; PrunerLoop] (set_migrated s))) s)
  | AtDigest => Some (or_return outcome (λ s, at_pc AtDomainHealth (go [DigestLoop] s)) s)
  | AtDomainHealth => Some (or_return outcome (λ s, at_pc AtHTTP (go [DomainHealthLoop] s)) s)
  | AtHTTP => Some (at_pc AtHTTPS (set_listener false Serving s))
  | AtHTTPS =>
      Some (at_pc AtSelect
             (match sv_cfg s with
              | Some c => if HTTPSEnabled c then set_listener true Serving s else s
              | None => s
              end))
  | AtSelect =>
      match outcome, sv_errs s with
      | None, _ => if sv_cancelled s then Some (at_pc AtShutdown s) else None
      | Some _, e :: errs => Some (at_pc (AtStop e) (cancel false (set_errs errs s)))
      | Some _, [] => None
      end
  | AtShutdown =>
      let s := close false s in
      Some (at_pc (match sv_https s with NotStarted => AtStop None | _ => AtShutdownHTTPS end) s)
  | AtShutdownHTTPS => Some (at_pc (AtStop None) (close true s))
  | AtStop e => Some (returns e (stopped s))
  | Returned _ => None
  end.

(** signal.NotifyContext was called: before, a signal ends the process. *)
Definition listens_to_signals (p : run_pc) : bool :=
  match p with AtLoad | AtLogger => false | _ => true end.

Inductive serve_step : serve_state → serve_state → Prop :=
| step_run outcome s s' : run_step outcome s = Some s' → serve_step s s'
| step_signal s : listens_to_signals (sv_pc s) = true → serve_step s (cancel true s)
(** ListenAndServe fails, at its bind or later. *)
| step_fails tls e s :
    listener_of tls s = Serving → serve_step s (set_listener tls (Reporting (Some (CallError e))) s)
(** It answers ErrServerClosed after Shutdown. *)
| step_closed tls s :
    listener_of tls s = Serving → closed tls s = true → serve_step s (set_listener tls (Reporting None) s)
(** The send, which blocks while both places are taken. *)
| step_reports tls e s :
    listener_of tls s = Reporting e → length (sv_errs s) < 2 →
    serve_step s (set_listener tls Ended (set_errs (sv_errs s ++ [e]) s)).
End serve.

(** ** What holds in every reachable state *)

Section serve_theorems.
Context (godotenv_Load : environment → environment) (process : environment).
Implicit Types s : serve_state.

Definition phase (p : run_pc) : nat :=
  match p with
  | AtLoad => 0 | AtLogger => 1 | AtPool => 2 | AtMigrate => 3 | AtDigest => 4 | AtDomainHealth => 5
  | AtHTTP => 6 | AtHTTPS => 7 | AtSelect => 8 | AtShutdown => 9 | AtShutdownHTTPS => 10
  | AtStop _ => 11 | Returned _ => 12
  end.

(** What a listener may still put on the channel. *)
Definition owes (l : listener) : nat := match l with Ended => 0 | _ => 1 end.
Definition is_started (l : listener) : bool := match l with NotStarted => false | _ => true end.
Definition ends_well (p : run_pc) : bool :=
  match p with AtShutdown | AtShutdownHTTPS | AtStop None | Returned None => true | _ => false end.
Definition is_returned (p : run_pc) : bool := match p with Returned _ => true | _ => false end.
Definition failing (p : run_pc) : bool := match p with AtStop (Some _) | Returned (Some _) => true | _ => false end.

Record boot_inv s : Prop := {
  bi_cfg c : sv_cfg s = Some c → Load godotenv_Load process = Ok c;
  bi_loaded : 1 ≤ phase (sv_pc s) ≤ 11 ∨ sv_migrated s = true → is_Some (sv_cfg s);
  bi_migrated : 4 ≤ phase (sv_pc s) ≤ 11 ∨ sv_started s ≠ [] ∨ is_started (sv_admin s) = true ∨
    is_started (sv_https s) = true → sv_migrated s = true;
  bi_admin : phase (sv_pc s) ≤ 6 → sv_admin s = NotStarted;
  bi_https : phase (sv_pc s) ≤ 7 → sv_https s = NotStarted;
  bi_enabled c : is_started (sv_https s) = true → sv_cfg s = Some c → HTTPSEnabled c = true;
}.

Record end_inv s : Prop := {
  ei_places : length (sv_errs s) + owes (sv_admin s) + owes (sv_https s) ≤ 2;
  ei_nil : None ∈ sv_errs s ∨ sv_admin s = Reporting None ∨ sv_https s = Reporting None →
    sv_admin_closed s = true ∨ sv_https_closed s = true;
  ei_closed : sv_admin_closed s = true ∨ sv_https_closed s = true → 10 ≤ phase (sv_pc s) ∧ ends_well (sv_pc s) = true;
  ei_cancelled : sv_cancelled s = true → sv_signalled s = true ∨ failing (sv_pc s) = true;
  ei_signalled : ends_well (sv_pc s) = true → sv_signalled s = true;
  ei_shutdown : ends_well (sv_pc s) = true → 10 ≤ phase (sv_pc s) → sv_admin_closed s = true;
  ei_shutdown_https : ends_well (sv_pc s) = true → 11 ≤ phase (sv_pc s) → is_started (sv_https s) = true →
    sv_https_closed s = true;
  ei_serving : 7 ≤ phase (sv_pc s) ≤ 11 ∨ ends_well (sv_pc s) = true → is_started (sv_admin s) = true;
  ei_running : phase (sv_pc s) ≤ 11 → sv_stopped s = false;
  ei_returned : is_returned (sv_pc s) = true → sv_cancelled s = true ∧ sv_stopped s = is_started (sv_admin s);
}.

Lemma boot_inv_step s s' : serve_step godotenv_Load process s s' → boot_inv s → boot_inv s'.
Proof.
  intros Hs [Hc Hl Hm Ha Hh He]. destruct Hs as [o s s' Hr|s Hp|tls e s Hs|tls s Hs Hcl|tls e s Hs Hlen].
  - unfold run_step, or_return, returns in Hr. destruct s as [pc cfg mig st ad ht ac hc er sg ca sp]; simpl in *.
    destruct pc; simpl in *; repeat case_match; simplify_eq; simpl in *; try done;
      constructor; simpl in *; intros; simplify_eq; try lia; eauto; naive_solver lia.
  - by constructor.
  - destruct tls, s; constructor; simpl in *; intros; simplify_eq; naive_solver.
  - destruct tls, s; constructor; simpl in *; intros; simplify_eq; naive_solver.
  - destruct tls, s; constructor; simpl in *; intros; simplify_eq; naive_solver.
Qed.

Lemma end_inv_step s s' : serve_step godotenv_Load process s s' → boot_inv s → end_inv s → end_inv s'.
Proof.
  intros Hs [Hc Hl Hm Ha Hh He] [Ep En Ecl Eca Esi Esh Eht Esv Eru Er].
  destruct Hs as [o s s' Hr|s Hp|tls e s Hs|tls s Hs Hcl|tls e s Hs Hlen].
  - clear Hc Hl Hm He. unfold run_step, or_return, returns in Hr.
    destruct s as [pc cfg mig st ad ht ac hc er sg ca sp]; simpl in *.
    destruct pc as [| | | | | | | | | | |[]|[]]; simpl in *;
      try (assert (ad = NotStarted) as -> by (apply Ha; lia)); try (assert (ht = NotStarted) as -> by (apply Hh; lia));
      try specialize (Eru ltac:(lia)); clear Ha Hh; repeat case_match; simplify_eq; try destruct o0; simpl in *;
      constructor; simpl in *; intros; rewrite ?elem_of_cons, ?orb_true_r, ?orb_false_r in *; 
      try solve [intuition (lia || congruence)]; first [apply Esh; done || lia | apply Eht; done || lia | apply Esv; (left; lia) || (right; done)
        | split; [done|symmetry; apply Esv; left; lia]].
  - destruct s as [pc cfg mig st ad ht ac hc er sg ca sp]; constructor; simpl in *; rewrite ?orb_true_r; intuition.
  - destruct tls, s; constructor; simpl in *; intros; simplify_eq; simpl in *; intuition (lia || congruence).
  - destruct tls, s; constructor; simpl in *; intros; simplify_eq; simpl in *; intuition (lia || congruence).
  - assert (owes (listener_of tls s) = 1) as Ho by (by rewrite Hs).
    destruct tls, s as [pc cfg mig st ad ht ac hc er sg ca sp]; simpl in *; subst; constructor; simpl in *;
      try done; try (rewrite length_app; simpl; lia).
    all: rewrite elem_of_app, list_elem_of_singleton; intros Hn; apply En; destruct Hn as [[?| <-]|[?|?]]; tauto || congruence.
Qed.

Definition reachable s : Prop := rtc (serve_step godotenv_Load process) serve0 s.

Lemma reachable_inv s : reachable s → boot_inv s ∧ end_inv s.
Proof.
  revert s. unfold reachable. apply rtc_ind_r.
  - split; constructor; simpl; intros; try done; try lia; try set_solver; naive_solver lia.
  - intros s s' _ Hs [Hb He]. split; [by eapply boot_inv_step|by eapply end_inv_step].
Qed.

(** C33: Background work and listeners start only on a migrated database under an
    accepted configuration, the HTTPS one only when it is enabled; a listener's
    report never blocks, so its goroutine ends.  RunE returns only with the context
    cancelled, and pollerManager.Stop returned before it exactly when the admin
    listener had been started: an error of newDigestScheduler or
    newDomainHealthScheduler returns with the leader loop started and Stop not
    called.  Without an error it returns only after a signal, with Stop returned
    and Shutdown called on every listener that was started (Shutdown may have timed
    out). *)
Theorem serve_run_safe s :
  reachable s →
  (sv_started s ≠ [] ∨ is_started (sv_admin s) = true ∨ is_started (sv_https s) = true →
   sv_migrated s = true ∧ ∃ c, sv_cfg s = Some c ∧ Load godotenv_Load process = Ok c ∧
     (is_started (sv_https s) = true → HTTPSEnabled c = true)) ∧
  (∀ tls e, listener_of tls s = Reporting e → length (sv_errs s) < 2) ∧
  (∀ e, sv_pc s = Returned e → sv_cancelled s = true ∧ sv_stopped s = is_started (sv_admin s)) ∧
  (sv_pc s = Returned None → sv_signalled s = true ∧ sv_stopped s = true ∧ sv_admin_closed s = true ∧
     (is_started (sv_https s) = true → sv_https_closed s = true)).
Proof.
  intros [[Hc Hl Hm Ha Hh He] [Ep En Ecl Eca Esi Esh Eht Esv Eru Er]]%reachable_inv. split_and!.
  - intros Hs. assert (sv_migrated s = true) as Hmig by (apply Hm; tauto). split; [done|].
    destruct Hl as [c Hcfg]; [by right|]. exists c. split_and!; auto.
  - intros [] e Hr; simpl in Hr; rewrite Hr in Ep; simpl in Ep; lia.
  - intros e Hp. apply Er. by rewrite Hp.
  - intros Hp. rewrite Hp in *. simpl in *. split_and!.
    + by apply Esi.
    + destruct (Er eq_refl) as [_ ->]. apply Esv. by right.
    + apply Esh; [done|lia].
    + apply Eht; [done|lia].
Qed.

(** ** RunE ends *)

Definition own_step s s' : Prop := ∃ outcome, run_step godotenv_Load process outcome s = Some s'.

(** Something to end for: the context is done, or a listener reported. *)
Definition called_off s : Prop := sv_cancelled s = true ∨ sv_errs s ≠ [] ∨ 9 ≤ phase (sv_pc s).

Lemma own_step_phase s s' : own_step s s' → phase (sv_pc s) < phase (sv_pc s').
Proof.
  intros [o Hr]. unfold run_step, or_return, returns in Hr.
  destruct s as [pc cfg mig st ad ht ac hc er sg ca sp]; simpl in *.
  destruct pc; repeat case_match; simplify_eq; simpl; lia.
Qed.

Lemma called_off_step s : called_off s → phase (sv_pc s) < 12 → ∃ s', own_step s s' ∧ called_off s'.
Proof.
  intros Hc Hp. destruct s as [pc cfg mig st ad ht ac hc er sg ca sp]; unfold called_off, own_step in *; simpl in *.
  assert (pc = AtSelect ∨ pc ≠ AtSelect) as [->|Hn] by (destruct pc; auto; by right).
  - destruct er as [|e er].
    + exists (at_pc AtShutdown (Build_serve_state AtSelect cfg mig st ad ht ac hc [] sg ca sp)). split.
      * exists None. simpl. destruct Hc as [->|[?|?]]; [done..|simpl in *; lia].
      * right; right. simpl. lia.
    + eexists. split; [by exists (Some "")|]. right; right. simpl. lia.
  - destruct (run_step godotenv_Load process None (Build_serve_state pc cfg mig st ad ht ac hc er sg ca sp)) as [s'|] eqn:Hr.
    + exists s'. split; [by exists None|]. unfold run_step, or_return, returns in Hr. simpl in Hr.
      destruct pc; try done; repeat case_match; simplify_eq; simpl in *; intuition lia.
    + destruct pc; simpl in *; try done. lia.
Qed.

(** RunE ends: each of its calls brings it closer to its return, there are at
    most twelve, and once a signal came or a listener reported a failure it has a
    next call until it has returned, by its own steps alone. *)
Theorem serve_ends s :
  (∀ s', own_step s s' → phase (sv_pc s) < phase (sv_pc s') ≤ 12) ∧
  (sv_cancelled s = true ∨ sv_errs s ≠ [] → ∃ n s' e, n ≤ 12 ∧ nsteps own_step n s s' ∧ sv_pc s' = Returned e).
Proof.
  assert (∀ p, phase p ≤ 12) as Hle by (intros []; simpl; lia).
  split; [intros s' Hs; split; [by apply own_step_phase|done]|]. intros Hc.
  assert (called_off s) as Hoff by (unfold called_off; tauto). clear Hc.
  cut (∃ n s' e, n + phase (sv_pc s) ≤ 12 ∧ nsteps own_step n s s' ∧ sv_pc s' = Returned e).
  { intros (n & s' & e & Hn & Hs & He). exists n, s', e. split_and!; [lia|done..]. }
  remember (12 - phase (sv_pc s)) as k eqn:Hk. revert s Hk Hoff. induction k as [k IH] using lt_wf_ind. intros s Hk Hoff.
  destruct (decide (phase (sv_pc s) = 12)) as [Hd|Hd].
  { exists 0. destruct (sv_pc s) as [| | | | | | | | | | | |e] eqn:Hp; try discriminate Hd. exists s, e.
    split_and!; [simpl; lia|constructor|done]. }
  pose proof (Hle (sv_pc s)) as Hb.
  destruct (called_off_step s Hoff) as (s1 & Hs1 & Ho1); [lia|].
  pose proof (own_step_phase _ _ Hs1) as Hlt. pose proof (Hle (sv_pc s1)) as Hb1.
  destruct (IH (12 - phase (sv_pc s1)) ltac:(lia) s1 eq_refl Ho1) as (n & s' & e & Hn & Hs & He).
  exists (S n), s', e. split_and!; [lia|by econstructor|done].
Qed.
End serve_theorems.

(** ** Runs *)

Fixpoint run_steps godotenv_Load process (outcomes : list (option string)) (s : serve_state) : option serve_state :=
  match outcomes with
  | [] => Some s
  | o :: outcomes => s ← run_step godotenv_Load process o s; run_steps godotenv_Load process outcomes s
  end.

Lemma run_steps_rtc g p outcomes s s' : run_steps g p outcomes s = Some s' → rtc (serve_step g p) s s'.
Proof.
  revert s. induction outcomes as [|o l IH]; intros s; [by intros [= ->]|]. cbn.
  intros (s1 & H1 & H2)%bind_Some. eapply rtc_l; [by eapply step_run|by apply IH].
Qed.

(** Up to the select, in the example environment. *)
Definition serving : serve_state := default serve0 (run_steps no_file example_env (replicate 8 None) serve0).
Definition bind_failed : serve_state :=
  set_listener false Ended (set_errs [Some (CallError "bind")]
    (set_listener false (Reporting (Some (CallError "bind"))) serving)).
Definition interrupted : serve_state :=
  default serve0 (run_steps no_file example_env [None; None; None; None] (cancel true serving)).

Lemma serving_reachable : reachable no_file example_env serving.
Proof. apply run_steps_rtc with (outcomes := replicate 8 None). vm_compute. reflexivity. Qed.

Example interrupted_ends :
  reachable no_file example_env interrupted ∧ sv_pc interrupted = Returned None ∧ sv_stopped interrupted = true.
Proof.
  split; [|by vm_compute]. eapply rtc_trans; [exact serving_reachable|].
  eapply rtc_l; [apply step_signal; by vm_compute|].
  apply run_steps_rtc with (outcomes := [None; None; None; None]). vm_compute. reflexivity.
Qed.

(** When one listener fails, the other is not shut down: RunE returns while it
    still serves. *)
Theorem listener_survives_return :
  ∃ s, reachable no_file example_env s ∧ sv_pc s = Returned (Some (CallError "bind")) ∧
    sv_https s = Serving ∧ sv_https_closed s = false.
Proof.
  exists (default serve0 (run_steps no_file example_env [Some ""; None] bind_failed)). split; [|by vm_compute].
  eapply rtc_trans; [exact serving_reachable|].
  eapply rtc_l; [apply (step_fails _ _ false "bind"); by vm_compute|].
  eapply rtc_l; [apply (step_reports _ _ false (Some (CallError "bind"))); [done|by vm_compute; lia]|].
  apply run_steps_rtc with (outcomes := [Some ""; None]). vm_compute. reflexivity.
Qed.

Lemma serve_run_safe_witness : sv_migrated serving = true ∧ is_started (sv_https serving) = true.
Proof.
  pose proof (serve_run_safe no_file example_env serving serving_reachable) as (Hs & _).
  split; [|by vm_compute]. apply Hs. right; right. by vm_compute.
Defined.

Lemma serve_ends_witness :
  ∃ n s' e, n ≤ 12 ∧ nsteps (own_step no_file example_env) n (cancel true serving) s' ∧ sv_pc s' = Returned e.
Proof.
  pose proof (serve_ends no_file example_env (cancel true serving)) as (_ & He). apply He. by left.
Defined.
